(* ===== verification/_CoqProject ===== *)
-Q . S2P
Prelude.v
Buffer.v
DnsName.v
DnsNameFacts.v
DnsWireFacts.v
Address.v
OptionDef.v
Options.v
OptionsFacts.v
OptionsPack.v
OptionsRoundTrip.v
HwAddr.v
Encode.v
Text.v
Json.v
JsonFacts.v
JsonRoundTrip.v
Logging.v
LoggingFacts.v
Pkt.v
Lru.v
Hooks.v
HooksFacts.v
RateLimit.v
PktFacts.v
Nic.v
Netlink.v
NetlinkFacts.v
Subnet.v
ResponseGen.v
ResponseFacts.v
QueryFacts.v
OptionTyping.v
OptionText.v
OptionEdit.v
PktText.v
ClientClass.v
ClientClassFacts.v
Config.v
Statistics.v
ConfigFacts.v
Hosts.v
DuidFactory.v
Control.v
ControlFacts.v
CmdServer.v
CmdFacts.v
Main.v
MainFacts.v
Threads.v
ThreadsFacts.v
Icmp.v
Server.v
Ping.v
Sockets.v
SocketFacts.v
Rpc.v
RpcFacts.v
ServerFacts.v
ServerMachine.v
ServerLive.v
Sample.v
ServerProps.v
RpcProps.v
IfaceProps.v
LiveProps.v
ClassProps.v
TextProps.v
WireProps.v
NetProps.v
ExtProps.v
SetupProps.v
ControlProps.v
