(* ===== verification/Prelude.v ===== *)
(** * zdhcp slave: a verification of the DHCPv4 server

    ** The program

    The slave (src/slave) answers DHCPv4 clients.  A receiver thread turns
    datagrams into packets (nic/), worker threads parse, classify and dispatch
    them (server/server.cpp, dhcp++/), the addresses come from a master over
    TCP connections (rpc/), offered addresses are probed with ICMP echo
    requests before they are offered (ping/), and answers are built
    (server/response_gen.cpp), packed and queued for a sender thread.  The
    process reads a configuration (configure/, util/json11.cpp), is set up and
    replaced by the control server (server/ctrl_server.cpp), takes commands
    over TCP (controller/), counts packets (statistics/), logs (logging/) and
    loads libraries of callouts (hooks/).

    ** Files

    A file models one part of the program, its companions hold the lemmas
    about it, and the files named [...Props] state the promises.

    - Prelude.v: outcomes of C++ calls ([result]: return, exception, crash,
      and exhausted fuel), machine integers ([u8] .. [u64], [s8] .. [s32]), byte lists,
      record update, tactics and hints.
    - Buffer.v: util/buffer.h and util/io_utilities.h.  [InputBuffer] keeps the
      position and its checks, [OutputBuffer] the allocated cells, size and
      capacity with the doubling growth; a byte log is its abstract
      specification.
    - DnsName.v (facts in DnsNameFacts.v, DnsWireFacts.v): dns/name.cpp and
      dns/labelsequence.cpp.  [TextParser] and [WireParser] are the two state
      machines, one definition per case of the switch; lists of labels are the
      abstract specification.
    - Address.v: util/io_address, util/ipaddress_extend, util/triplet.h and
      dhcp++/pool.
    - OptionDef.v: dhcp++/option_definition, option_data_types, option_space,
      option_meta, option_description, the tables of std_option_defs.cpp and
      vendor_option_defs.cpp, and the definition lookups of libdhcp++.cpp.
    - Options.v (facts in OptionsFacts.v, OptionsPack.v, OptionsRoundTrip.v):
      the option classes of dhcp++/option*.cpp (one constructor of [body] per
      class), their factories, and the codec of libdhcp++.cpp.
    - HwAddr.v: dhcp++/hwaddr, dhcp++/duid and the hexadecimal decoder of
      util/strutil.cpp.
    - Encode.v: util/encode (hexadecimal and base32hex).
    - Text.v: util/strutil.cpp and the texts of integers.
    - Json.v (facts in JsonFacts.v, JsonRoundTrip.v): util/json11.cpp, values,
      printer and parser, with binary64 numbers.
    - Logging.v (facts in LoggingFacts.v): logging/*, levels, formats, targets
      and the rotation of files over a file system.
    - OptionText.v: the text forms of options, the typed access to custom
      options and the options built from configuration text
      (dhcp++/option.cpp, option_custom, option_definition).
    - OptionTyping.v: the typing of options by their definitions.
    - Pkt.v (facts in PktFacts.v): dhcp++/pkt; PktText.v: its text.
    - Lru.v: util/lru_cache.h, nodes and iterators; a list of entries ordered
      by use is its abstract specification.
    - Hooks.v (facts in HooksFacts.v): hooks/*, the registry, handles, the
      callout manager and the library managers over a dynamic loader.
    - RateLimit.v: extensions/rate_limit.cpp.
    - Nic.v: nic/iface and nic/iface_mgr; the packet filter is a record of
      operations with the methods of nic/pkt_filter.h.
    - Netlink.v (facts in NetlinkFacts.v): nic/iface_mgr_linux.cpp, the messages
      of the kernel read at their offsets; a pointer is the rest of the message.
    - Subnet.v: dhcp++/subnet, server/subnet_selector.h, server/subnet_mgr.
    - ResponseGen.v (facts in ResponseFacts.v): server/response_gen.
    - QueryFacts.v: what is known of a query the parser accepted.
    - ClientClass.v (facts in ClientClassFacts.v): server/client_class_*, the
      grammar with its combinators (pegtl/internal), the builder, the matchers
      and the manager; [expr] is the abstract syntax.
    - Config.v (facts in ConfigFacts.v): configure/json_conf.cpp over the values
      of util/json11, and the start-up functions of server/ctrl_server_init.h.
    - Statistics.v: statistics/pkt_statistic.cpp, the reporting thread one
      atomic access at a time.
    - OptionEdit.v: making and editing options of names, addresses and tuples;
      what the receivers of such options read.
    - Hosts.v: server/host, server/hosts_in_mem and dhcp++/classify.
    - DuidFactory.v: dhcp++/duid_factory, the DUIDs it makes and the file that
      stores them; a stored DUID survives restarts, unless it is too long.
    - Control.v (facts in ControlFacts.v): server/ctrl_server.cpp, with the
      singletons and exit handlers of the process; operations are functions to
      an outcome and a state, which an exception leaves as far as it was changed.
    - CmdServer.v (facts in CmdFacts.v): controller/*, sessions with their
      buffers and the server that runs one completed operation at a time.
    - Main.v (facts in MainFacts.v): bin/kea_slave.cpp with its commands.
    - Threads.v (facts in ThreadsFacts.v): the receiver, workers and sender of
      server/ctrl_server.cpp while [stop] ends them, one queue access a step.
    - Icmp.v: ping/icmp_protocol.cpp and ping/timer_queue.cpp.
    - Server.v (facts in ServerFacts.v, ServerMachine.v, ServerLive.v): server/server.cpp,
      client/client_context, the request queue of rpc/rpc_allocate_engine.cpp
      and the records of ping/ping.cpp.  [Server.step] is the relation between
      the states before and after one thread ran one handler; the state [Srv]
      holds what the threads share.
    - Ping.v: the sockets of ping/ping.cpp.
    - Sockets.v (facts in SocketFacts.v): nic/pkt_filter_inet, nic/pkt_filter,
      receiving and sending of nic/iface_mgr.cpp with the loops of their threads.
    - Rpc.v (facts in RpcFacts.v): the connections of
      rpc/rpc_allocate_engine.cpp with their buffers and handlers, and the
      messages of rpc/context.pb.cpp and rpc/lease.pb.cpp.
    - Sample.v: a configuration and datagrams for concrete evaluations.
    - ServerProps.v, RpcProps.v, IfaceProps.v, LiveProps.v, ClassProps.v, TextProps.v,
      WireProps.v, NetProps.v, ExtProps.v, SetupProps.v, ControlProps.v: the promises, each with an evaluation at a
      concrete input.

    ** What the theorems show

    ServerProps.v: no reachable step terminates the process if the options the
    server echoes fit an option again and the class expressions can be
    evaluated, and a query that violates the former does terminate it; every packet sent answers a query; retries, requests in
    flight and timers are bounded; what follows a grant, a refusal, an offer
    and a conflict; which queries are admitted, and to which subnet they go.

    RpcProps.v: the master reads the fields of a request, its answer reaches
    the client or, when it is empty, is dropped; and a connection, whatever it
    receives, only takes the steps that [Server.step] allows, except for an
    answer that is read over the end of the buffer.

    IfaceProps.v: the interfaces are those the kernel reports, opening a socket
    leaves no descriptor behind when it fails, the receiving thread feeds the
    step of the server, and answers leave by the interface of their query.

    LiveProps.v: without new queries every run of the server comes to rest in
    the empty state, and when nothing is lost it has then answered every
    request once.

    ClassProps.v: the expression parser builds the meaning of every expression,
    packets get exactly the classes they match, and an expression that cannot
    be evaluated terminates the worker.

    TextProps.v: parsed options are typed by their definitions, options built
    from configuration text hold its values, the text encodings round-trip, and
    tokens are the words of a text.

    ExtProps.v: the cache refines a list ordered by use, clients get their
    quota from the rate limiter through the callout manager, callouts run in
    the order of their libraries, the outcome of loading libraries, and a
    server whose callouts only decide is as safe as one without.

    SetupProps.v: the configured subnets are the ones served, reservations are
    unique and found, echo messages identify their request and have a valid
    checksum, and timers fire when they are due.

    ControlProps.v: the JSON parser is total and reads back what is printed;
    start-up serves what the configuration stands for and a rejected
    reconfiguration goes back to the old one; commands take effect in the order
    of arrival and are answered; what [stop] may end with; the log file holds
    the lines logged; logging a packet is undefined for some packets; the
    statistics account for the packets counted.

    WireProps.v: the parsers of packets, options and names are total with the
    outcome on each branch, packing writes the message format, and packets,
    option collections, names (text and wire), buffers, hardware addresses and
    addresses survive their round trips.

    NetProps.v: the exact content and destination of answers, the subnet of a
    query, pools and capacities, unique subnet ids, opening and choosing
    sockets.

    ** Bounds and fuel

    Buffer growth, name parsing from wire, option parsing, tokens, the class
    grammar, JSON, the substitution into formats, netlink messages and the
    parsing of protobuf messages recurse on fuel (receiving netlink replies
    recurses on the datagrams that arrive, and without the last one waits).  The fuel is computed from the input
    ([OutputBuffer.grow_fuel], [WireParser.fuel_for], [fuel_for] in Options.v,
    the length of the text in the others) and is shown to suffice:
    the totality theorems exclude [NoFuel].  Lengths are bounded by what the
    field widths of the source admit: datagrams below 2^16 bytes, buffers below
    2^32.

    ** What is a parameter

    [Env] holds what the server is surrounded by: the memory allocator
    ([env_alloc]), the size of an encoded message ([ByteSize], which RpcProps.v
    instantiates with the generated code), what the pkt4_receive callouts may
    do with a packet ([receive_may], which ExtProps.v instantiates with the
    callout manager of Hooks.v) and the effect of the pkt4_send callouts.  The
    interfaces [TransformWidth] (regrouping of bits, Boost), [LexicalCast]
    (numbers from text, Boost), [Inet6] (IPv6 text), [CodedStream] (protobuf
    streams) and [MPMCQueue] (folly) hold library code with the laws that are
    used of it; the code of callouts and libraries is an argument in Hooks.v.
    [PktFilter] holds the operations on operating-system sockets (Sockets.v has
    the one the program uses), [FileSystem] those on files; [NlSystem], the
    outcomes of [syscall] and the arguments of Sockets.v and Ping.v are the
    results of system calls.  Control.v and Main.v take the detected interfaces, the
    resolver of host names and the content of freed memory as variables.  The
    id of an echo request, the bytes of the master and of command clients, the
    loss of connections and the order of steps are arbitrary.

    ** What is not modelled

    The handlers in Server.v leave out the calls that log and count, which
    Logging.v, PktText.v and Statistics.v model on their own; the blocking of
    full queues is in Threads.v only.  Not modelled are the reflection, copying and arenas of the
    generated protobuf code, base64 (its tables are in Boost), code no part of
    the program uses (thread pool, staged values), and vendored code other than
    the combinators of the class grammar.  Each handler is one atomic step;
    inside it the shared containers are guarded by their own locks or are
    concurrent queues. *)
From stdpp Require Import base list numbers strings option decidable.
From Stdlib Require Import ZArith Lia.

#[global] Open Scope Z_scope.

(** ** Fixed-width integers

    C++ unsigned integers are [Z] values; every conversion to a narrower type
    is written out with one of these truncations. *)
Definition u8 (z : Z) : Z := z mod 2^8.
Definition u16 (z : Z) : Z := z mod 2^16.
Definition u32 (z : Z) : Z := z mod 2^32.
Definition u64 (z : Z) : Z := z mod 2^64.

Lemma u16_range v : 0 <= u16 v < 2^16.
Proof. apply Z.mod_pos_bound. lia. Qed.
Lemma u32_range v : 0 <= u32 v < 2^32.
Proof. apply Z.mod_pos_bound. lia. Qed.

(** [int] and the signed types of the option templates. *)
Definition s8 (z : Z) : Z := (z + 2^7) mod 2^8 - 2^7.
Definition s16 (z : Z) : Z := (z + 2^15) mod 2^16 - 2^15.
Definition s32 (z : Z) : Z := (z + 2^31) mod 2^32 - 2^31.

Definition byte_ok (b : Z) : Prop := 0 <= b < 256.
Definition bytes_ok (l : list Z) : Prop := Forall byte_ok l.

#[global] Instance byte_ok_dec b : Decision (byte_ok b).
Proof. unfold byte_ok. apply _. Defined.
#[global] Instance bytes_ok_dec l : Decision (bytes_ok l).
Proof. unfold bytes_ok. apply _. Defined.

(** ** Outcomes

    A C++ call returns, throws one of the exception classes, hits a failed
    [assert] or undefined behaviour ([Crash]), or (only in a model that
    recurses on fuel) runs out of fuel ([NoFuel]). *)
Inductive exn : Set :=
| BadValue | OutOfRange | InvalidOperation | InvalidParameter | Unexpected
| NotImplemented | RFCViolation | InvalidBufferPosition
| InvalidDataType | BadDataTypeCast | InvalidOptionValue
| MalformedOptionDefinition | DuplicateOptionDefinition | InvalidOptionSpace
| OpaqueDataTupleError | InvalidOption4FqdnFlags | InvalidOption4FqdnDomainName
| EmptyLabel | TooLongName | TooLongLabel | BadLabelType | BadEscape
| IncompleteName | MissingNameOrigin | DNSMessageFORMERR
| SocketConfigError | IfaceNotFound | SocketNotFound | InvalidPacketFilter
| IfaceDetectError | SignalInterruptOnSelect | SocketReadError | SocketWriteError
| PacketFilterChangeDenied | HostReservationError
| StringTokenError | StringLiteralFormatError | UnknownOptionError | DuplicateClientClassName
| DuplicateHook | NoSuchHook | NoSuchArgument | DuplicateHost | ReservedAddress | BadHostAddress
| KeyNotExistError | TypeError | DuplicateSubnetID | DuplicateCmdHandler | UnknownCmd
| LogIllegalArgument | LogIOError | SystemError | InvalidArgument
| RangeError | BadAlloc | StdOutOfRange | ParseError | BadLexicalCast | BadAnyCast.

#[global] Instance exn_eq_dec : EqDecision exn.
Proof. solve_decision. Defined.

(** [std::range_error], [std::bad_alloc], the [std::out_of_range] of [at()] and
    [substr()], [std::system_error], [std::invalid_argument],
    [pegtl::parse_error], [boost::bad_lexical_cast], [boost::bad_any_cast] and
    the [Exception] of the logging library are not seen by a [catch (const kea::Exception&)]
    handler. *)
Definition is_kea (e : exn) : bool :=
  match e with
  | RangeError | BadAlloc | StdOutOfRange | ParseError | BadLexicalCast | BadAnyCast
  | LogIllegalArgument | LogIOError | SystemError | InvalidArgument => false
  | _ => true
  end.

Inductive result (A : Type) : Type :=
| Ok (a : A)
| Throw (e : exn)
| Crash
| NoFuel.
Arguments Ok {A} a.
Arguments Throw {A} e.
Arguments Crash {A}.
Arguments NoFuel {A}.

#[global] Instance result_ret : MRet result := fun A a => Ok a.
#[global] Instance result_bind : MBind result := fun A B k m =>
  match m with
  | Ok a => k a
  | Throw e => Throw e
  | Crash => Crash
  | NoFuel => NoFuel
  end.
#[global] Instance result_fmap : FMap result := fun A B f m =>
  match m with
  | Ok a => Ok (f a)
  | Throw e => Throw e
  | Crash => Crash
  | NoFuel => NoFuel
  end.

#[global] Instance result_eq_dec `{EqDecision A} : EqDecision (result A).
Proof. solve_decision. Defined.

(** [try { m } catch (const kea::Exception& e) { h e }] *)
Definition try_kea {A} (m : result A) (h : exn -> result A) : result A :=
  match m with
  | Throw e => if is_kea e then h e else m
  | _ => m
  end.

(** [try { m } catch (const std::exception& e) { h e }] *)
Definition try_std {A} (m : result A) (h : exn -> result A) : result A :=
  match m with Throw e => h e | _ => m end.

(** [assert (b)] *)
Definition assert_ (b : bool) : result unit := if b then Ok tt else Crash.

(** [if (b) kea_throw(e, ...)] *)
Definition throw_if (b : bool) (e : exn) : result unit :=
  if b then Throw e else Ok tt.

(** The calls that neither crash nor exhaust the fuel of the model. *)
Definition safe {A} (m : result A) : Prop :=
  match m with Ok _ | Throw _ => True | _ => False end.

(** The calls that return or throw a [kea::Exception]. *)
Definition kea_ok {A} (m : result A) : Prop :=
  match m with Ok _ => True | Throw e => is_kea e = true | _ => False end.

Definition is_ok {A} (m : result A) : bool :=
  match m with Ok _ => true | _ => false end.

Lemma Forall_snoc {A} (P : A -> Prop) l x : Forall P l -> P x -> Forall P (l ++ [x]).
Proof. intros. apply Forall_app. by repeat constructor. Qed.

Lemma filter_all {A} (P : A -> Prop) `{!forall x, Decision (P x)} l : Forall P l -> filter P l = l.
Proof. induction 1 as [|x l Hx Hl IH]; [done|]. by rewrite filter_cons, decide_True, IH. Qed.
Lemma filter_none {A} (P : A -> Prop) `{!forall x, Decision (P x)} l : Forall (fun x => ~ P x) l -> filter P l = [].
Proof. induction 1 as [|x l Hx Hl IH]; [done|]. by rewrite filter_cons, decide_False, IH. Qed.

(** A left fold in the result monad: a [for] loop that may leave early. *)
Fixpoint foldM {A B} (f : B -> A -> result B) (b : B) (l : list A) : result B :=
  match l with
  | [] => Ok b
  | a :: l' => b' ← f b a; foldM f b' l'
  end.

Lemma foldM_app {A B} (f : B -> A -> result B) b k l : foldM f b (k ++ l) = (b' ← foldM f b k; foldM f b' l).
Proof.
  revert b. induction k as [|a k IH]; intros b; [done|]. cbn [foldM app]. destruct (f b a); [apply IH|done..].
Qed.

Lemma foldM_ext {A B} (f g : B -> A -> result B) b l : (forall b a, f b a = g b a) -> foldM f b l = foldM g b l.
Proof. intros E. revert b. induction l as [|a l IH]; intros b; [done|]. cbn [foldM]. rewrite E. by destruct (g b a); [apply IH|..]. Qed.

Fixpoint mapM_ {A B} (f : A -> result B) (l : list A) : result (list B) :=
  match l with
  | [] => Ok []
  | a :: l' => b ← f a; bs ← mapM_ f l'; Ok (b :: bs)
  end.

Lemma mapM_Ok {A B} (f : A -> B) l : mapM_ (fun a => Ok (f a)) l = Ok (f <$> l).
Proof. induction l as [|a l IH]; [done|]. cbn. by rewrite IH. Qed.

(** ** Sizes and slices *)
Definition zlen {A} (l : list A) : Z := Z.of_nat (length l).

(** [data[pos]]: undefined behaviour out of range. *)
Definition zget {A} (l : list A) (i : Z) : result A :=
  if decide (0 <= i) then
    match l !! Z.to_nat i with Some a => Ok a | None => Crash end
  else Crash.

(** [v.at(i)] and [v.at(i) = a] throw [std::out_of_range]. *)
Definition zat {A} (l : list A) (i : Z) : result A :=
  if decide (0 <= i) then
    match l !! Z.to_nat i with Some a => Ok a | None => Throw StdOutOfRange end
  else Throw StdOutOfRange.

Definition zset_at {A} (l : list A) (i : Z) (a : A) : result (list A) :=
  if decide (0 <= i < zlen l) then Ok (<[Z.to_nat i := a]> l) else Throw StdOutOfRange.

(** [v[i] = a]: undefined behaviour out of range. *)
Definition zset {A} (l : list A) (i : Z) (a : A) : result (list A) :=
  if decide (0 <= i < zlen l) then Ok (<[Z.to_nat i := a]> l) else Crash.

(** The iterator range [begin + i, begin + i + n): undefined behaviour when
    it leaves the vector. *)
Definition slice {A} (l : list A) (i n : Z) : result (list A) :=
  if decide (0 <= i /\ 0 <= n /\ i + n <= zlen l)
  then Ok (take (Z.to_nat n) (drop (Z.to_nat i) l)) else Crash.

(** [v.resize(n)] on a byte vector: truncates or pads with zeros. *)
Definition resize (l : list Z) (n : Z) : list Z :=
  take (Z.to_nat n) l ++ replicate (Z.to_nat n - length l) 0.

(** ** Characters *)
Definition isdigit (c : Z) : bool := (48 <=? c) && (c <=? 57).

Definition char_code (a : Ascii.ascii) : Z := Z.of_N (Ascii.N_of_ascii a).
Definition bytes_of (s : string) : list Z := char_code <$> String.list_ascii_of_string s.
Definition string_of (l : list Z) : string :=
  String.string_of_list_ascii ((fun z => Ascii.ascii_of_N (Z.to_N z)) <$> l).

(** A [char*] as text: it ends at the first NUL, and without one the buffer is
    read over its end. *)
Fixpoint c_string (buf : list Z) : result (list Z) :=
  match buf with
  | [] => Crash
  | b :: buf => if b =? 0 then Ok [] else t ← c_string buf; Ok (b :: t)
  end.

(** ** Record update

    [r <| f := v |>] is [r] with field [f] replaced.  A record type provides
    its eta expansion once; the setter of a field is found by matching the
    projection in it. *)
Class Eta (R : Type) := eta : R -> R.
Class Setter {R T : Type} (proj : R -> T) := set : (T -> T) -> R -> R.
Arguments set {R T} proj {_} _ !_ /.

Ltac solve_setter :=
  lazymatch goal with
  | |- @Setter ?R ?T ?proj =>
      let f := fresh "f" in let r := fresh "r" in intros f r;
      let e := eval hnf in (eta r) in
      lazymatch e with
      | context c [proj r] => let x := context c [f (proj r)] in exact x
      end
  end.
#[global] Hint Extern 1 (Setter _) => solve_setter : typeclass_instances.

Notation "r <| f := v |>" := (set f (fun _ => v) r)
  (at level 1, f at level 10, v at level 200, left associativity).

(** ** Automation *)
Create HintDb kea.

(** Case analysis on every [match] of the goal or of a hypothesis that is an
    equation between results, then cleanup. *)
Ltac res_cases :=
  repeat (simplify_eq/=; try done; case_match; simplify_eq/=).

(** ** Lemmas shared by the components *)
Lemma bind_ok {A B} (m : result A) (k : A -> result B) b :
  m ≫= k = Ok b -> exists a, m = Ok a /\ k a = Ok b.
Proof. destruct m; simpl; intros; simplify_eq; eauto. Qed.

Lemma bind_Ok {A B} (a : A) (k : A -> result B) : Ok a ≫= k = k a.
Proof. done. Qed.

(** [injection] would also reduce the two sides. *)
Lemma Ok_inj {A} (a b : A) : Ok a = Ok b -> a = b.
Proof. congruence. Qed.

Lemma bind_assoc {A B C} (m : result A) (f : A -> result B) (g : B -> result C) :
  (m ≫= f) ≫= g = m ≫= (fun a => f a ≫= g).
Proof. by destruct m. Qed.

Lemma safe_bind {A B} (m : result A) (k : A -> result B) :
  safe m -> (forall a, m = Ok a -> safe (k a)) -> safe (m ≫= k).
Proof. destruct m; simpl; auto. Qed.

Lemma safe_fmap {A B} (f : A -> B) (m : result A) : safe m -> safe (f <$> m).
Proof. by destruct m. Qed.

Lemma safe_try_kea {A} (m : result A) h :
  safe m -> (forall e, safe (h e)) -> safe (try_kea m h).
Proof. destruct m; simpl; auto. destruct (is_kea e); simpl; auto. Qed.

Lemma safe_throw_if b e : safe (throw_if b e).
Proof. by destruct b. Qed.

Lemma kea_bind {A B} (m : result A) (k : A -> result B) :
  kea_ok m -> (forall a, m = Ok a -> kea_ok (k a)) -> kea_ok (m ≫= k).
Proof. destruct m; simpl; auto. Qed.

Lemma kea_throw_if b e : is_kea e = true -> kea_ok (throw_if b e).
Proof. by destruct b. Qed.

Lemma kea_try {A} (m : result A) h :
  kea_ok m -> (forall e, kea_ok (h e)) -> kea_ok (try_kea m h).
Proof. destruct m; simpl; auto. intros ->. auto. Qed.

Lemma kea_safe {A} (m : result A) : kea_ok m -> safe m.
Proof. by destruct m. Qed.

Lemma throw_if_ok b e x : throw_if b e = Ok x -> b = false.
Proof. by destruct b. Qed.

#[export] Hint Resolve kea_throw_if : kea.
#[export] Hint Resolve safe_bind safe_fmap safe_try_kea safe_throw_if : kea.

Lemma zlen_nonneg {A} (l : list A) : 0 <= zlen l.
Proof. unfold zlen. lia. Qed.

Lemma zlen_app {A} (l k : list A) : zlen (l ++ k) = zlen l + zlen k.
Proof. unfold zlen. rewrite length_app. lia. Qed.

Lemma zlen_cons {A} (a : A) l : zlen (a :: l) = 1 + zlen l.
Proof. unfold zlen. simpl length. lia. Qed.

Lemma zlen_fmap {A B} (f : A -> B) (l : list A) : zlen (f <$> l) = zlen l.
Proof. unfold zlen. by rewrite length_fmap. Qed.

Lemma to_nat_zlen {A} (l : list A) : Z.to_nat (zlen l) = length l.
Proof. unfold zlen. lia. Qed.

Lemma zlen_nil {A} : zlen (@nil A) = 0.
Proof. done. Qed.

(** Linear arithmetic over list sizes. *)
Ltac zlen_facts :=
  repeat match goal with
  | |- context [zlen ?l] =>
      lazymatch goal with H : 0 <= zlen l |- _ => fail | _ => idtac end;
      pose proof (zlen_nonneg l)
  | _ : context [zlen ?l] |- _ =>
      lazymatch goal with H : 0 <= zlen l |- _ => fail | _ => idtac end;
      pose proof (zlen_nonneg l)
  end.
Ltac zlen_simpl :=
  repeat match goal with
  | |- context [zlen (_ ++ _)] => rewrite zlen_app
  | |- context [zlen (_ :: _)] => rewrite zlen_cons
  | |- context [@zlen ?A []] => change (@zlen A []) with 0
  | |- context [zlen (_ <$> _)] => rewrite zlen_fmap
  | H : context [zlen (_ ++ _)] |- _ => rewrite zlen_app in H
  | H : context [zlen (_ :: _)] |- _ => rewrite zlen_cons in H
  | H : context [@zlen ?A []] |- _ => change (@zlen A []) with 0 in H
  | H : context [zlen (_ <$> _)] |- _ => rewrite zlen_fmap in H
  end.
Ltac zlia := zlen_simpl; zlen_facts; lia.

(** Linear arithmetic with division by constants. *)
Ltac zdiv := Z.to_euclidean_division_equations; lia.

Lemma c_string_app t rest : 0 ∉ t -> c_string (t ++ 0 :: rest) = Ok t.
Proof.
  induction t as [|b t IH]; [done|]. rewrite not_elem_of_cons. intros [Hb Ht]. cbn [app c_string].
  destruct (Z.eqb_spec b 0); [lia|]. by rewrite IH.
Qed.

Lemma c_string_outcome buf : ((0 ∉ buf) /\ c_string buf = Crash) \/ exists t, c_string buf = Ok t.
Proof.
  induction buf as [|b buf IH]; [left; split; [apply not_elem_of_nil | done]|]. cbn [c_string].
  destruct (Z.eqb_spec b 0) as [->|Hb]; [right; by eexists|].
  destruct IH as [[H1 ->]|[t ->]]; [left|right; by eexists]. split; [|done]. apply not_elem_of_cons. split; [lia|done].
Qed.

Lemma zget_app {A} (pre : list A) a l : zget (pre ++ a :: l) (zlen pre) = Ok a.
Proof.
  unfold zget. rewrite decide_True by apply zlen_nonneg. rewrite to_nat_zlen, lookup_app_r, Nat.sub_diag by lia. done.
Qed.

Lemma zget_ok {A} (l : list A) i :
  0 <= i < zlen l -> exists a, zget l i = Ok a /\ l !! Z.to_nat i = Some a.
Proof.
  intros Hi. unfold zget, zlen in *. rewrite decide_True by lia.
  destruct (l !! Z.to_nat i) eqn:E; [eauto|].
  apply lookup_ge_None in E. lia.
Qed.

Lemma slice_ok {A} (l : list A) i n :
  0 <= i -> 0 <= n -> i + n <= zlen l ->
  slice l i n = Ok (take (Z.to_nat n) (drop (Z.to_nat i) l)).
Proof. intros. unfold slice. by rewrite decide_True. Qed.

Lemma slice_app {A} (l k r : list A) :
  slice (l ++ k ++ r) (zlen l) (zlen k) = Ok k.
Proof.
  pose proof (zlen_nonneg l). pose proof (zlen_nonneg k). pose proof (zlen_nonneg r).
  rewrite slice_ok by (rewrite ?zlen_app; lia).
  f_equal. unfold zlen. rewrite !Nat2Z.id, drop_app_length.
  apply take_app_length.
Qed.

Lemma slice_all {A} (l : list A) : slice l 0 (zlen l) = Ok l.
Proof. pose proof (slice_app [] l []) as H. simpl in H. by rewrite app_nil_r in H. Qed.

Lemma zlen_resize l n : 0 <= n -> zlen (resize l n) = n.
Proof.
  intros. unfold zlen, resize. rewrite length_app, length_take, length_replicate. lia.
Qed.

Lemma bytes_ok_app l k : bytes_ok (l ++ k) <-> bytes_ok l /\ bytes_ok k.
Proof. apply Forall_app. Qed.

Lemma bytes_ok_cons b l : bytes_ok (b :: l) <-> byte_ok b /\ bytes_ok l.
Proof. apply Forall_cons_iff. Qed.

Lemma bytes_ok_take n l : bytes_ok l -> bytes_ok (take n l).
Proof. apply Forall_take. Qed.

Lemma bytes_ok_drop n l : bytes_ok l -> bytes_ok (drop n l).
Proof. apply Forall_drop. Qed.

Lemma bytes_ok_replicate n b : byte_ok b -> bytes_ok (replicate n b).
Proof. apply Forall_replicate. Qed.

Lemma u8_byte z : byte_ok (u8 z).
Proof. unfold byte_ok, u8. change 256 with (2^8). apply Z.mod_pos_bound. lia. Qed.

Lemma u8_small z : byte_ok z -> u8 z = z.
Proof. intros. apply Z.mod_small. done. Qed.

Lemma u16_small z : 0 <= z < 2^16 -> u16 z = z.
Proof. apply Z.mod_small. Qed.

Lemma u32_small z : 0 <= z < 2^32 -> u32 z = z.
Proof. apply Z.mod_small. Qed.

Lemma u64_small z : 0 <= z < 2^64 -> u64 z = z.
Proof. apply Z.mod_small. Qed.

#[export] Hint Resolve zlen_nonneg bytes_ok_take bytes_ok_drop u8_byte : kea.

(** ** Bit operations as arithmetic *)
Lemma testbit_high b n i : 0 <= b < 2^n -> 0 <= n <= i -> Z.testbit b i = false.
Proof.
  intros Hb Hi. rewrite <- (Z.mod_small b (2^n)) by lia.
  apply Z.mod_pow2_bits_high. lia.
Qed.

Lemma lor_shiftl_add a b n :
  0 <= n -> 0 <= b < 2^n -> Z.lor (Z.shiftl a n) b = a * 2^n + b.
Proof.
  intros Hn Hb. rewrite <- Z.shiftl_mul_pow2, <- Z.add_lor_land by lia.
  enough (Z.land (Z.shiftl a n) b = 0) as -> by lia.
  apply Z.bits_inj'. intros i Hi. rewrite Z.land_spec, Z.bits_0.
  destruct (decide (i < n)).
  - by rewrite Z.shiftl_spec_low by lia.
  - rewrite (testbit_high b n) by lia. apply andb_false_r.
Qed.

Lemma shiftr_land_mask v m n :
  0 <= n -> Z.shiftr m n = 255 -> Z.shiftr (Z.land v m) n = (v / 2^n) mod 256.
Proof.
  intros Hn Hm. rewrite Z.shiftr_land, Hm, Z.shiftr_div_pow2 by lia.
  change 255 with (Z.ones 8). by rewrite Z.land_ones by lia.
Qed.

Lemma land_255 v : Z.land v 255 = v mod 256.
Proof. change 255 with (Z.ones 8). by rewrite Z.land_ones by lia. Qed.

Lemma u8_mod256 z : u8 (z mod 256) = z mod 256.
Proof. unfold u8. change (2^8) with 256. apply Z.mod_mod. lia. Qed.
