(* ===== verification/Buffer.v ===== *)
(** Byte buffers: [InputBuffer] and [OutputBuffer] of util/buffer.h and the
    big-endian accessors of util/io_utilities.h.

    [InputBuffer] keeps the read position and the checks of the source, with
    the 64-bit sums the checks compute.  [OutputBuffer] keeps the allocated
    memory (a cell is [None] until it is written), the used size and the
    capacity; [contents] is the byte log the other components see, and the
    refinement theorem says that every write appends to it. *)
From stdpp Require Import base list numbers option.
From Stdlib Require Import ZArith Lia.
From S2P Require Import Prelude.

(** ** Big-endian composition *)
Definition be16 (a b : Z) : Z := Z.lor (u16 (Z.shiftl a 8)) b.
Definition be32 (a b c d : Z) : Z :=
  Z.lor (Z.lor (Z.lor (u32 (Z.shiftl a 24)) (Z.shiftl b 16)) (Z.shiftl c 8)) d.

Definition bytes16 (v : Z) : list Z :=
  [u8 (Z.shiftr (Z.land v 0xff00) 8); u8 (Z.land v 0x00ff)].
Definition bytes32 (v : Z) : list Z :=
  [u8 (Z.shiftr (Z.land v 0xff000000) 24); u8 (Z.shiftr (Z.land v 0x00ff0000) 16);
   u8 (Z.shiftr (Z.land v 0x0000ff00) 8); u8 (Z.land v 0x000000ff)].

Module IOUtil.

Definition readUint16 (buffer : list Z) : result Z :=
  throw_if (zlen buffer <? 2) OutOfRange;;
  a ← zget buffer 0; b ← zget buffer 1; Ok (be16 a b).

(** [writeUint16(value, buffer, length)]: the first two bytes of the buffer
    are overwritten; the returned pointer is one past them. *)
Definition writeUint16 (value : Z) (buffer : list Z) : result (list Z) :=
  throw_if (zlen buffer <? 2) OutOfRange;;
  Ok (bytes16 value ++ drop 2 buffer).

Definition readUint32 (buffer : list Z) : result Z :=
  throw_if (zlen buffer <? 4) OutOfRange;;
  a ← zget buffer 0; b ← zget buffer 1; c ← zget buffer 2; d ← zget buffer 3;
  Ok (be32 a b c d).

Definition writeUint32 (value : Z) (buffer : list Z) : result (list Z) :=
  throw_if (zlen buffer <? 4) OutOfRange;;
  Ok (bytes32 value ++ drop 4 buffer).

End IOUtil.

Module InputBuffer.

Record t := Mk { position_ : Z; data_ : list Z; len_ : Z }.

Definition make (data : list Z) : t := Mk 0 data (zlen data).

Definition getLength (b : t) : Z := len_ b.
Definition getPosition (b : t) : Z := position_ b.

Definition setPosition (position : Z) (b : t) : result t :=
  throw_if (len_ b <? position) InvalidBufferPosition;;
  Ok (Mk position (data_ b) (len_ b)).

Definition readUint8 (b : t) : result (Z * t) :=
  throw_if (len_ b <? u64 (position_ b + 1)) InvalidBufferPosition;;
  v ← zget (data_ b) (position_ b);
  Ok (v, Mk (u64 (position_ b + 1)) (data_ b) (len_ b)).

Definition readUint16 (b : t) : result (Z * t) :=
  throw_if (len_ b <? u64 (position_ b + 2)) InvalidBufferPosition;;
  c0 ← zget (data_ b) (position_ b);
  c1 ← zget (data_ b) (position_ b + 1);
  Ok (be16 c0 c1, Mk (u64 (position_ b + 2)) (data_ b) (len_ b)).

Definition readUint32 (b : t) : result (Z * t) :=
  throw_if (len_ b <? u64 (position_ b + 4)) InvalidBufferPosition;;
  c0 ← zget (data_ b) (position_ b);
  c1 ← zget (data_ b) (position_ b + 1);
  c2 ← zget (data_ b) (position_ b + 2);
  c3 ← zget (data_ b) (position_ b + 3);
  Ok (be32 c0 c1 c2 c3, Mk (u64 (position_ b + 4)) (data_ b) (len_ b)).

Definition readData (len : Z) (b : t) : result (list Z * t) :=
  throw_if (len_ b <? u64 (position_ b + len)) InvalidBufferPosition;;
  d ← slice (data_ b) (position_ b) len;
  Ok (d, Mk (u64 (position_ b + len)) (data_ b) (len_ b)).

(** [readVector] repeats the check of [readData] before it resizes; for an
    empty vector [&data[0]] is a pointer through which nothing is written. *)
Definition readVector (len : Z) (b : t) : result (list Z * t) :=
  throw_if (len_ b <? u64 (position_ b + len)) InvalidBufferPosition;;
  readData len b.

(** The view of a buffer between reads: [pre] is consumed, [rest] is left. *)
Definition view (pre rest : list Z) : t :=
  Mk (zlen pre) (pre ++ rest) (zlen (pre ++ rest)).

End InputBuffer.

Module OutputBuffer.

(** [buffer_] is the allocated block, [None] an indeterminate byte. *)
Record t := Mk { buffer_ : list (option Z); size_ : Z; allocated_ : Z }.

Definition fresh_cells (n : Z) : list (option Z) := replicate (Z.to_nat n) None.

(** [memmove(buffer_ + pos, data, len)] inside the block. *)
Definition mem_write (m : list (option Z)) (pos : Z) (bs : list Z)
    : result (list (option Z)) :=
  if decide (0 <= pos /\ pos + zlen bs <= zlen m)
  then Ok (take (Z.to_nat pos) m ++ (Some <$> bs) ++
           drop (Z.to_nat pos + length bs) m)
  else Crash.

(** [while (new_size < needed_size) new_size *= 2;] on [size_t]. *)
Fixpoint grow (fuel : nat) (new_size needed_size : Z) : result Z :=
  match fuel with
  | O => NoFuel
  | S fuel' =>
      if new_size <? needed_size then grow fuel' (u64 (new_size * 2)) needed_size
      else Ok new_size
  end.

(** 64 doublings exhaust the 64-bit range. *)
Definition grow_fuel : nat := 65.

Section Allocator.
(** Whether [malloc]/[realloc] of so many bytes succeeds. *)
Variable alloc_ok : Z -> bool.

Definition make (len : Z) : result t :=
  if len =? 0 then Ok (Mk [] 0 len)
  else if alloc_ok len then Ok (Mk (fresh_cells len) 0 len)
  else Throw BadAlloc.

Definition copy (other : t) : result t :=
  if allocated_ other =? 0 then Ok (Mk [] (size_ other) 0)
  else if alloc_ok (allocated_ other)
  then Ok (Mk (take (Z.to_nat (size_ other)) (buffer_ other) ++
               fresh_cells (allocated_ other - size_ other))
              (size_ other) (allocated_ other))
  else Throw BadAlloc.

(** [operator=]; the self-assignment test compares addresses, so it is an
    argument here. *)
Definition assign (same_object : bool) (this other : t) : result t :=
  if same_object then Ok this else copy other.

Definition ensureAllocated (needed_size : Z) (b : t) : result t :=
  if allocated_ b <? needed_size then
    new_size ← grow grow_fuel
                 (if allocated_ b =? 0 then 1024 else allocated_ b) needed_size;
    if alloc_ok new_size
    then Ok (Mk (buffer_ b ++ fresh_cells (new_size - allocated_ b))
                (size_ b) new_size)
    else Throw BadAlloc
  else Ok b.

Definition skip (len : Z) (b : t) : result t :=
  b ← ensureAllocated (u64 (size_ b + len)) b;
  Ok (Mk (buffer_ b) (u64 (size_ b + len)) (allocated_ b)).

Definition trim (len : Z) (b : t) : result t :=
  throw_if (size_ b <? len) OutOfRange;;
  Ok (Mk (buffer_ b) (size_ b - len) (allocated_ b)).

Definition clear (b : t) : t := Mk (buffer_ b) 0 (allocated_ b).

Definition wipe (b : t) : t :=
  Mk (replicate (length (buffer_ b)) (Some 0)) 0 (allocated_ b).

Definition getLength (b : t) : Z := size_ b.
Definition getCapacity (b : t) : Z := allocated_ b.

(** [operator[]]: asserts the position; an indeterminate cell is a [Crash]. *)
Definition at_ (pos : Z) (b : t) : result Z :=
  assert_ (pos <? size_ b);;
  c ← zget (buffer_ b) pos;
  match c with Some v => Ok v | None => Crash end.

(** The common part of [writeUint8], [writeUint16], [writeUint32] and
    [writeData]: make room, store, advance. *)
Definition writeData (data : list Z) (b : t) : result t :=
  b ← ensureAllocated (u64 (size_ b + zlen data)) b;
  m ← mem_write (buffer_ b) (size_ b) data;
  Ok (Mk m (u64 (size_ b + zlen data)) (allocated_ b)).

Definition writeUint8 (data : Z) (b : t) : result t := writeData [u8 data] b.
Definition writeUint16 (data : Z) (b : t) : result t := writeData (bytes16 data) b.
Definition writeUint32 (data : Z) (b : t) : result t := writeData (bytes32 data) b.

Definition writeAt (bs : list Z) (pos : Z) (b : t) : result t :=
  throw_if (size_ b <? u64 (pos + zlen bs)) InvalidBufferPosition;;
  m ← mem_write (buffer_ b) pos bs;
  Ok (Mk m (size_ b) (allocated_ b)).

Definition writeUint8At (data pos : Z) (b : t) : result t := writeAt [u8 data] pos b.
Definition writeUint16At (data pos : Z) (b : t) : result t := writeAt (bytes16 data) pos b.

End Allocator.

(** What a client observes: the used prefix of the block. *)
Definition contents (b : t) : list (option Z) := take (Z.to_nat (size_ b)) (buffer_ b).

Record inv (b : t) : Prop := MkInv {
  inv_size : 0 <= size_ b <= allocated_ b;
  inv_alloc : allocated_ b = zlen (buffer_ b);
  inv_bound : allocated_ b <= 2^63 }.

End OutputBuffer.

(** ** Integer codecs *)
Lemma bytes16_div v : bytes16 v = [(v / 256) mod 256; v mod 256].
Proof.
  unfold bytes16. rewrite (shiftr_land_mask v 0xff00 8), land_255, !u8_mod256 by done.
  done.
Qed.

Lemma bytes32_div v :
  bytes32 v = [(v / 2^24) mod 256; (v / 2^16) mod 256; (v / 2^8) mod 256; v mod 256].
Proof.
  unfold bytes32.
  rewrite (shiftr_land_mask v 0xff000000 24), (shiftr_land_mask v 0x00ff0000 16),
    (shiftr_land_mask v 0x0000ff00 8), land_255, !u8_mod256 by done.
  done.
Qed.

Lemma be16_add a b : byte_ok a -> byte_ok b -> be16 a b = a * 256 + b.
Proof.
  unfold byte_ok. intros. unfold be16.
  rewrite u16_small by (rewrite Z.shiftl_mul_pow2 by lia; lia).
  by rewrite lor_shiftl_add by lia.
Qed.

Lemma be32_add a b c d :
  byte_ok a -> byte_ok b -> byte_ok c -> byte_ok d ->
  be32 a b c d = a * 2^24 + b * 2^16 + c * 2^8 + d.
Proof.
  unfold byte_ok. intros. unfold be32.
  rewrite u32_small by (rewrite Z.shiftl_mul_pow2 by lia; lia).
  rewrite !Z.shiftl_mul_pow2 by lia.
  pose proof (lor_shiftl_add a (b * 2^16) 24) as E1.
  rewrite Z.shiftl_mul_pow2 in E1 by lia. rewrite E1 by lia. clear E1.
  pose proof (lor_shiftl_add (a * 2^8 + b) (c * 2^8) 16) as E2.
  rewrite Z.shiftl_mul_pow2 in E2 by lia.
  replace (a * 2 ^ 24 + b * 2 ^ 16) with ((a * 2 ^ 8 + b) * 2 ^ 16) by lia.
  rewrite E2 by lia. clear E2.
  pose proof (lor_shiftl_add ((a * 2^8 + b) * 2^8 + c) d 8) as E3.
  rewrite Z.shiftl_mul_pow2 in E3 by lia.
  replace ((a * 2 ^ 8 + b) * 2 ^ 16 + c * 2 ^ 8)
    with (((a * 2^8 + b) * 2^8 + c) * 2^8) by lia.
  rewrite E3 by lia. lia.
Qed.

Lemma bytes16_ok v : bytes_ok (bytes16 v).
Proof. repeat constructor; apply u8_byte. Qed.

Lemma bytes32_ok v : bytes_ok (bytes32 v).
Proof. repeat constructor; apply u8_byte. Qed.

Lemma zlen_bytes16 v : zlen (bytes16 v) = 2.
Proof. done. Qed.

Lemma zlen_bytes32 v : zlen (bytes32 v) = 4.
Proof. done. Qed.

Lemma byte_ok_mod v : byte_ok (v mod 256).
Proof. unfold byte_ok. apply Z.mod_pos_bound. lia. Qed.

#[export] Hint Resolve byte_ok_mod bytes16_ok bytes32_ok : kea.

Lemma be16_bytes16 v : 0 <= v < 2^16 -> exists a b, bytes16 v = [a; b] /\ be16 a b = v.
Proof.
  intros Hv. rewrite bytes16_div. do 2 eexists. split; [done|].
  rewrite be16_add by auto with kea.
  rewrite (Z.mod_small (v / 256)).
  - pose proof (Z.div_mod v 256). lia.
  - split; [apply Z.div_pos; lia|]. apply Z.div_lt_upper_bound; lia.
Qed.

Lemma be32_bytes32 v :
  0 <= v < 2^32 ->
  exists a b c d, bytes32 v = [a; b; c; d] /\ be32 a b c d = v.
Proof.
  intros Hv. rewrite bytes32_div. do 4 eexists. split; [done|].
  rewrite be32_add by auto with kea.
  assert (v / 2^24 < 256) by (apply Z.div_lt_upper_bound; lia).
  assert (0 <= v / 2^24) by (apply Z.div_pos; lia).
  rewrite (Z.mod_small (v / 2^24)) by lia.
  pose proof (Z.div_mod v (2^8)). pose proof (Z.div_mod (v / 2^8) (2^8)).
  pose proof (Z.div_mod (v / 2^8 / 2^8) (2^8)).
  replace (v / 2^16) with (v / 2^8 / 2^8) by (rewrite Z.div_div by lia; done).
  replace (v / 2^24) with (v / 2^8 / 2^8 / 2^8) in * by (rewrite !Z.div_div by lia; done).
  change 256 with (2^8) in *. lia.
Qed.

Lemma be16_range a b : byte_ok a -> byte_ok b -> 0 <= be16 a b < 2^16.
Proof. intros. rewrite be16_add by done. unfold byte_ok in *. lia. Qed.

Lemma be32_range a b c d :
  byte_ok a -> byte_ok b -> byte_ok c -> byte_ok d -> 0 <= be32 a b c d < 2^32.
Proof. intros. rewrite be32_add by done. unfold byte_ok in *. lia. Qed.

Lemma bytes16_be16 a b : byte_ok a -> byte_ok b -> bytes16 (be16 a b) = [a; b].
Proof.
  intros Ha Hb. rewrite be16_add, bytes16_div by done. unfold byte_ok in *.
  rewrite Z.div_add_l, (Z.div_small b), Z.add_0_r, (Z.mod_small a) by lia.
  rewrite Z.add_comm, Z.mod_add, Z.mod_small by lia. done.
Qed.

Lemma bytes32_be32 a b c d :
  byte_ok a -> byte_ok b -> byte_ok c -> byte_ok d ->
  bytes32 (be32 a b c d) = [a; b; c; d].
Proof.
  intros Ha Hb Hc Hd. rewrite be32_add, bytes32_div by done. unfold byte_ok in *.
  assert (forall q r, 0 <= r < 2^8 -> (q * 2^8 + r) / 2^8 = q) as Hdiv.
  { intros q r Hr. rewrite Z.div_add_l, Z.div_small by lia. lia. }
  assert (forall q r, 0 <= r < 2^8 -> (q * 2^8 + r) mod 256 = r) as Hmod.
  { intros q r Hr. change 256 with (2^8).
    rewrite Z.add_comm, Z.mod_add, Z.mod_small by lia. done. }
  replace (a * 2^24 + b * 2^16 + c * 2^8 + d)
    with (((a * 2^8 + b) * 2^8 + c) * 2^8 + d) by lia.
  replace (2^24) with (2^8 * 2^8 * 2^8) by lia.
  replace (2^16) with (2^8 * 2^8) by lia.
  rewrite <- !Z.div_div by lia.
  rewrite !Hdiv, !Hmod by lia.
  by rewrite Z.mod_small by lia.
Qed.

(** ** Reading *)
Module InputBufferFacts.
Import InputBuffer.
Implicit Types (pre rest l : list Z).

Lemma zget_view {A} (pre : list A) (b : A) (rest : list A) : zget (pre ++ b :: rest) (zlen pre) = Ok b.
Proof.
  unfold zget, zlen. rewrite decide_True by lia.
  rewrite Nat2Z.id, lookup_app_r by lia. by rewrite Nat.sub_diag.
Qed.

Lemma zget_view_off {A} (pre l : list A) i (b : A) :
  0 <= i -> l !! Z.to_nat i = Some b -> zget (pre ++ l) (zlen pre + i) = Ok b.
Proof.
  intros Hi Hl. unfold zget, zlen. rewrite decide_True by lia.
  rewrite lookup_app_r by lia.
  replace (Z.to_nat (Z.of_nat (length pre) + i) - length pre)%nat with (Z.to_nat i) by lia.
  by rewrite Hl.
Qed.

(** The side condition of every read: the block is addressable. *)
Definition small (l : list Z) : Prop := zlen l < 2^63.

Lemma check_ok pre l n :
  small (pre ++ l) -> 0 <= n <= zlen l ->
  (zlen (pre ++ l) <? u64 (zlen pre + n)) = false.
Proof.
  unfold small. rewrite zlen_app. intros Hs Hn. pose proof (zlen_nonneg pre).
  rewrite u64_small by lia. apply Z.ltb_ge. lia.
Qed.

Lemma view_snoc pre l rest n :
  small (pre ++ l ++ rest) -> n = zlen l ->
  Mk (u64 (zlen pre + n)) (pre ++ l ++ rest) (zlen (pre ++ l ++ rest))
  = view (pre ++ l) rest.
Proof.
  unfold small, view. rewrite !zlen_app, <- app_assoc. intros Hs ->.
  pose proof (zlen_nonneg pre). pose proof (zlen_nonneg l). pose proof (zlen_nonneg rest).
  rewrite u64_small by lia. f_equal. lia.
Qed.

Lemma readUint8_view pre b rest :
  small (pre ++ b :: rest) ->
  readUint8 (view pre (b :: rest)) = Ok (b, view (pre ++ [b]) rest).
Proof.
  intros Hs. unfold readUint8. simpl.
  rewrite check_ok by (done || zlia).
  simpl. rewrite zget_view. simpl. do 2 f_equal.
  by apply (view_snoc pre [b] rest 1).
Qed.

Lemma readUint16_view pre v rest :
  0 <= v < 2^16 -> small (pre ++ bytes16 v ++ rest) ->
  readUint16 (view pre (bytes16 v ++ rest)) = Ok (v, view (pre ++ bytes16 v) rest).
Proof.
  intros Hv Hs. destruct (be16_bytes16 v Hv) as (a & b & E & Ev). rewrite E in *.
  unfold readUint16. simpl position_; simpl data_; simpl len_.
  rewrite check_ok by (done || zlia).
  simpl. rewrite zget_view. simpl. rewrite (zget_view_off _ _ 1 b) by done.
  simpl. rewrite Ev. do 2 f_equal. by apply (view_snoc pre [a; b] rest 2).
Qed.

Lemma readUint32_view pre v rest :
  0 <= v < 2^32 -> small (pre ++ bytes32 v ++ rest) ->
  readUint32 (view pre (bytes32 v ++ rest)) = Ok (v, view (pre ++ bytes32 v) rest).
Proof.
  intros Hv Hs. destruct (be32_bytes32 v Hv) as (a & b & c & d & E & Ev). rewrite E in *.
  unfold readUint32. simpl position_; simpl data_; simpl len_.
  rewrite check_ok by (done || zlia).
  simpl. rewrite zget_view. simpl.
  rewrite (zget_view_off _ _ 1 b), (zget_view_off _ _ 2 c), (zget_view_off _ _ 3 d) by done.
  simpl. rewrite Ev. do 2 f_equal. by apply (view_snoc pre [a; b; c; d] rest 4).
Qed.

Lemma readData_view pre l rest n :
  n = zlen l -> small (pre ++ l ++ rest) ->
  readData n (view pre (l ++ rest)) = Ok (l, view (pre ++ l) rest).
Proof.
  intros -> Hs. unfold readData. simpl position_; simpl data_; simpl len_.
  rewrite check_ok by (done || zlia).
  simpl. rewrite slice_app. simpl. do 2 f_equal. by apply view_snoc.
Qed.

Lemma readVector_view pre l rest n :
  n = zlen l -> small (pre ++ l ++ rest) ->
  readVector n (view pre (l ++ rest)) = Ok (l, view (pre ++ l) rest).
Proof.
  intros Hn Hs. unfold readVector. simpl position_; simpl data_; simpl len_.
  rewrite check_ok by (done || zlia).
  simpl. by apply readData_view.
Qed.

(** The representation invariant of a buffer over an addressable block. *)
Record inv (b : t) : Prop := MkInv {
  inv_len : len_ b = zlen (data_ b);
  inv_pos : 0 <= position_ b <= len_ b;
  inv_small : small (data_ b) }.

Lemma inv_make data : small data -> inv (make data).
Proof. intros. split; simpl; auto. pose proof (zlen_nonneg data). lia. Qed.

Lemma inv_view b : inv b -> exists pre rest, b = view pre rest /\ small (pre ++ rest).
Proof.
  destruct b as [p d l]. intros [Hl Hp Hs]. simpl in *.
  exists (take (Z.to_nat p) d), (drop (Z.to_nat p) d). unfold view.
  rewrite take_drop. split; [|done]. f_equal; [|done].
  unfold zlen in *. rewrite length_take. lia.
Qed.

Lemma view_inv pre rest : small (pre ++ rest) -> inv (view pre rest).
Proof.
  intros. split; simpl; auto. rewrite zlen_app.
  pose proof (zlen_nonneg pre). pose proof (zlen_nonneg rest). lia.
Qed.

End InputBufferFacts.

(** ** Writing *)
Module OutputBufferFacts.
Import OutputBuffer.

Lemma grow_spec fuel n needed :
  1 <= n <= 2^63 -> needed <= 2^62 -> needed <= n * 2^(Z.of_nat fuel) ->
  exists m, grow (S fuel) n needed = Ok m /\ needed <= m /\ n <= m /\
            (m = n \/ m < 2 * needed).
Proof.
  revert n. induction fuel as [|fuel IH]; intros n Hn Hneed Hf.
  - rewrite Z.pow_0_r in Hf. exists n. cbn. rewrite (proj2 (Z.ltb_ge _ _)) by lia.
    eauto with lia.
  - cbn [grow]. destruct (Z.ltb_spec n needed) as [Hlt|Hge]; [|eauto 10 with lia].
    rewrite u64_small by lia.
    rewrite Nat2Z.inj_succ, Z.pow_succ_r in Hf by lia.
    destruct (IH (n * 2)) as (m & E & ? & ? & Hm); [lia..|].
    exists m. cbn [grow] in E. split; [exact E|]. lia.
Qed.

Section Refinement.
Variable alloc_ok : Z -> bool.
Hypothesis alloc_total : forall n, alloc_ok n = true.

Lemma ensureAllocated_spec needed b :
  inv b -> 0 <= needed <= 2^62 ->
  exists b', ensureAllocated alloc_ok needed b = Ok b' /\ inv b' /\
    needed <= allocated_ b' /\ size_ b' = size_ b /\
    (exists junk, buffer_ b' = buffer_ b ++ junk) /\
    (allocated_ b' = allocated_ b \/ allocated_ b' <= Z.max 1024 (2 * needed)).
Proof.
  intros [Hs Ha Hb] Hn. unfold ensureAllocated.
  destruct (Z.ltb_spec (allocated_ b) needed) as [Hlt|Hge].
  - set (n0 := if allocated_ b =? 0 then 1024 else allocated_ b).
    assert (1 <= n0 <= 2^63 /\ allocated_ b <= n0 /\ n0 <= Z.max 1024 (allocated_ b)) as Hn0.
    { subst n0. destruct (Z.eqb_spec (allocated_ b) 0); lia. }
    unfold grow_fuel. destruct (grow_spec 64 n0 needed) as (m & -> & ? & ? & Hm); [lia..|].
    simpl. rewrite alloc_total. eexists. split; [done|].
    split; [split; simpl|].
    + lia.
    + rewrite zlen_app, <- Ha. unfold zlen, fresh_cells. rewrite length_replicate. lia.
    + lia.
    + simpl. split_and!; eauto; lia.
  - exists b. split_and!; eauto; try done. exists []. by rewrite app_nil_r.
Qed.

Lemma mem_write_ok m pos bs :
  0 <= pos -> pos + zlen bs <= zlen m ->
  mem_write m pos bs =
  Ok (take (Z.to_nat pos) m ++ (Some <$> bs) ++ drop (Z.to_nat pos + length bs) m).
Proof. intros. unfold mem_write. by rewrite decide_True. Qed.

Lemma contents_ext b b' junk :
  inv b -> buffer_ b' = buffer_ b ++ junk -> size_ b' = size_ b ->
  contents b' = contents b.
Proof.
  intros [Hs Ha _] Hb Hsz. unfold contents. rewrite Hb, Hsz.
  apply take_app_le. unfold zlen in Ha. lia.
Qed.

Lemma length_contents b : inv b -> zlen (contents b) = size_ b.
Proof.
  intros [Hs Ha _]. unfold contents, zlen in *. rewrite length_take. lia.
Qed.

Lemma writeData_spec data b :
  inv b -> size_ b + zlen data <= 2^62 ->
  exists b', writeData alloc_ok data b = Ok b' /\ inv b' /\
    contents b' = contents b ++ (Some <$> data).
Proof.
  intros Hi Hsz. pose proof (inv_size _ Hi) as Hs. pose proof (zlen_nonneg data).
  unfold writeData. rewrite u64_small by lia.
  destruct (ensureAllocated_spec (size_ b + zlen data) b Hi) as (b1 & -> & Hi1 & Hn & Hsz1 & [junk Hj] & _); [lia|].
  simpl. pose proof (inv_alloc _ Hi1) as Ha1.
  rewrite mem_write_ok by lia. simpl. rewrite Hsz1, u64_small by lia.
  eexists. split; [done|].
  assert (zlen (take (Z.to_nat (size_ b)) (buffer_ b1)) = size_ b) as Ht.
  { unfold zlen in *. rewrite length_take. lia. }
  split; [split; simpl|].
  - lia.
  - rewrite !zlen_app, Ht. unfold zlen in *. rewrite length_drop, length_fmap. lia.
  - apply Hi1.
  - rewrite <- (contents_ext _ _ _ Hi Hj Hsz1). unfold contents at 1. simpl. unfold contents.
    rewrite Hsz1. unfold zlen in *.
    rewrite app_assoc. rewrite take_app_le by (rewrite length_app, length_fmap; lia).
    rewrite take_ge; [done|]. rewrite length_app, length_fmap. lia.
Qed.

Lemma writeAt_spec bs pos b :
  inv b -> 0 <= pos <= 2^62 -> zlen bs <= 2^62 ->
  (pos + zlen bs <= size_ b /\ exists b', writeAt bs pos b = Ok b' /\ inv b' /\
     contents b' = take (Z.to_nat pos) (contents b) ++ (Some <$> bs) ++
                   drop (Z.to_nat pos + length bs) (contents b))
  \/ (size_ b < pos + zlen bs /\ writeAt bs pos b = Throw InvalidBufferPosition).
Proof.
  intros Hi Hp Hl. pose proof (zlen_nonneg bs). pose proof (inv_size _ Hi) as Hs.
  pose proof (inv_alloc _ Hi) as Ha.
  unfold writeAt. rewrite u64_small by lia.
  destruct (Z.ltb_spec (size_ b) (pos + zlen bs)) as [Hlt|Hge]; [by right|left].
  split; [done|]. simpl. rewrite mem_write_ok by lia. simpl. eexists. split; [done|].
  assert (zlen (take (Z.to_nat pos) (buffer_ b)) = pos) as Ht.
  { unfold zlen in *. rewrite length_take. lia. }
  split; [split; simpl; try apply Hi|].
  - rewrite !zlen_app, Ht. unfold zlen in *. rewrite length_drop, length_fmap. lia.
  - unfold contents. simpl. unfold zlen in *.
    rewrite take_take, Nat.min_l by lia.
    rewrite take_app, length_take, Nat.min_l by lia.
    rewrite take_take, Nat.min_r by lia. f_equal.
    rewrite take_app, length_fmap.
    rewrite take_ge by (rewrite length_fmap; lia). f_equal.
    rewrite skipn_firstn_comm. f_equal. lia.
Qed.

(** The operations of the class a client may issue, and what they promise on
    the byte log.  [skip] exposes bytes the class never wrote (fresh or left
    from before a [trim]/[clear]), so the log only grows by as many cells. *)
Inductive op : Set :=
| W8 (v : Z) | W16 (v : Z) | W32 (v : Z) | WData (bs : list Z)
| W8At (v pos : Z) | W16At (v pos : Z) | Skip (n : Z) | Trim (n : Z) | Clear | Wipe.

Definition run (o : op) (b : t) : result t :=
  match o with
  | W8 v => writeUint8 alloc_ok v b
  | W16 v => writeUint16 alloc_ok v b
  | W32 v => writeUint32 alloc_ok v b
  | WData bs => writeData alloc_ok bs b
  | W8At v pos => writeUint8At v pos b
  | W16At v pos => writeUint16At v pos b
  | Skip n => skip alloc_ok n b
  | Trim n => trim n b
  | Clear => Ok (clear b)
  | Wipe => Ok (wipe b)
  end.

(** How many bytes the operation asks for (the sums stay below 2^62). *)
Definition need (o : op) : Z :=
  match o with
  | W8 _ => 1 | W16 _ => 2 | W32 _ => 4 | WData bs => zlen bs | Skip n => n
  | _ => 0
  end.

Definition op_ok (o : op) (size : Z) : Prop :=
  size + need o <= 2^62 /\
  match o with
  | W8At _ pos | W16At _ pos => 0 <= pos <= 2^62 - 2
  | Skip n | Trim n => 0 <= n
  | _ => True
  end.

Definition patch (l : list (option Z)) (pos : Z) (bs : list Z) : list (option Z) :=
  take (Z.to_nat pos) l ++ (Some <$> bs) ++ drop (Z.to_nat pos + length bs) l.

Inductive log_step : op -> list (option Z) -> result (list (option Z)) -> Prop :=
| step_w8 l v : log_step (W8 v) l (Ok (l ++ [Some (u8 v)]))
| step_w16 l v : log_step (W16 v) l (Ok (l ++ (Some <$> bytes16 v)))
| step_w32 l v : log_step (W32 v) l (Ok (l ++ (Some <$> bytes32 v)))
| step_data l bs : log_step (WData bs) l (Ok (l ++ (Some <$> bs)))
| step_w8at l v pos : pos + 1 <= zlen l -> log_step (W8At v pos) l (Ok (patch l pos [u8 v]))
| step_w8at_err l v pos : zlen l < pos + 1 -> log_step (W8At v pos) l (Throw InvalidBufferPosition)
| step_w16at l v pos : pos + 2 <= zlen l -> log_step (W16At v pos) l (Ok (patch l pos (bytes16 v)))
| step_w16at_err l v pos : zlen l < pos + 2 -> log_step (W16At v pos) l (Throw InvalidBufferPosition)
| step_skip l n junk : zlen junk = n -> log_step (Skip n) l (Ok (l ++ junk))
| step_trim l n : n <= zlen l -> log_step (Trim n) l (Ok (take (Z.to_nat (zlen l - n)) l))
| step_trim_err l n : zlen l < n -> log_step (Trim n) l (Throw OutOfRange)
| step_clear l : log_step Clear l (Ok [])
| step_wipe l : log_step Wipe l (Ok []).

Lemma skip_spec n b :
  inv b -> 0 <= n -> size_ b + n <= 2^62 ->
  exists b' junk, skip alloc_ok n b = Ok b' /\ inv b' /\
    contents b' = contents b ++ junk /\ zlen junk = n.
Proof.
  intros Hi Hn Hsz. pose proof (inv_size _ Hi) as Hs. unfold skip.
  rewrite u64_small by lia.
  destruct (ensureAllocated_spec (size_ b + n) b Hi) as (b1 & -> & Hi1 & Hnd & Hsz1 & [junk Hj] & _); [lia|].
  simpl. rewrite Hsz1, u64_small by lia. pose proof (inv_alloc _ Hi1) as Ha1.
  eexists _, (take (Z.to_nat n) (drop (Z.to_nat (size_ b)) (buffer_ b1))). split; [done|].
  split; [split; simpl; [lia| apply Hi1 ..]|]. split.
  - rewrite <- (contents_ext _ _ _ Hi Hj Hsz1). unfold contents. simpl. rewrite Hsz1.
    rewrite Z2Nat.inj_add by lia. rewrite take_take_drop. done.
  - unfold zlen in *. rewrite length_take, length_drop. lia.
Qed.

Lemma run_refines o b :
  inv b -> op_ok o (size_ b) ->
  log_step o (contents b) (contents <$> run o b) /\
  match run o b with Ok b' => inv b' | _ => True end.
Proof.
  intros Hi [Hneed Hok]. pose proof (length_contents b Hi) as Hlen.
  pose proof (inv_size _ Hi) as Hs.
  assert (forall data mk, size_ b + zlen data <= 2^62 ->
    (forall l, log_step mk l (Ok (l ++ (Some <$> data)))) ->
    run mk b = writeData alloc_ok data b ->
    log_step mk (contents b) (contents <$> run mk b) /\
    match run mk b with Ok b' => inv b' | _ => True end) as Hw.
  { intros data mk Hd Hstep Hrun. rewrite Hrun.
    destruct (writeData_spec data b Hi Hd) as (b' & -> & Hi' & Hc). simpl.
    rewrite Hc. auto. }
  destruct o; cbn [need] in Hneed.
  - apply (Hw [u8 v]); [zlia|constructor|done].
  - apply (Hw (bytes16 v)); [rewrite zlen_bytes16; lia|constructor|done].
  - apply (Hw (bytes32 v)); [rewrite zlen_bytes32; lia|constructor|done].
  - apply (Hw bs); [lia|constructor|done].
  - cbn [run]. unfold writeUint8At. change 1 with (zlen [u8 v]) in *.
    destruct (writeAt_spec [u8 v] pos b Hi) as [(? & b' & -> & Hi' & Hc)|[? ->]]; [zlia..| |].
    + simpl. rewrite Hc. split; [|done]. apply step_w8at. zlia.
    + simpl. split; [|done]. apply step_w8at_err. zlia.
  - cbn [run]. unfold writeUint16At.
    destruct (writeAt_spec (bytes16 v) pos b Hi) as [(? & b' & -> & Hi' & Hc)|[? ->]];
      [lia|rewrite zlen_bytes16; lia| |]; rewrite zlen_bytes16 in *.
    + simpl fmap. rewrite Hc. split; [|done]. apply step_w16at. lia.
    + simpl. split; [|done]. apply step_w16at_err. lia.
  - destruct (skip_spec n b Hi) as (b' & junk & E & Hi' & Hc & Hj); [lia..|].
    cbn [run]. rewrite E. simpl. rewrite Hc. split; [|done]. by constructor.
  - cbn [run]. unfold trim. destruct (Z.ltb_spec (size_ b) n); simpl.
    + split; [|done]. apply step_trim_err. lia.
    + split; [|split; simpl; [lia|apply Hi..]].
      replace (contents (Mk _ _ _)) with (take (Z.to_nat (zlen (contents b) - n)) (contents b)).
      * apply step_trim. lia.
      * rewrite Hlen. unfold contents. simpl. rewrite take_take. f_equal. lia.
  - cbn [run]. simpl. split; [constructor|]. split; simpl; [lia|apply Hi..].
  - cbn [run]. simpl. split; [constructor|]. split; simpl; [lia| |apply Hi].
    rewrite (inv_alloc _ Hi). unfold zlen. by rewrite length_replicate.
Qed.

(** A client program is a sequence of operations; it stops at the first one
    that throws. *)
Definition run_all (os : list op) (b : t) : result t := foldM (fun b o => run o b) b os.

Inductive log_run : list op -> list (option Z) -> result (list (option Z)) -> Prop :=
| log_done l : log_run [] l (Ok l)
| log_next o os l l' r : log_step o l (Ok l') -> log_run os l' r -> log_run (o :: os) l r
| log_stop o os l e : log_step o l (Throw e) -> log_run (o :: os) l (Throw e).

Definition total_need (os : list op) : Z := foldr (fun o n => need o + n) 0 os.

(** Every position and count is a sane [size_t] and the log stays below 2^62. *)
Definition ops_ok (os : list op) (size : Z) : Prop :=
  size + total_need os <= 2^62 /\ Forall (fun o => op_ok o 0 /\ 0 <= need o) os.

Lemma log_step_size o l l' :
  log_step o l (Ok l') -> op_ok o 0 -> 0 <= need o -> zlen l' <= zlen l + need o.
Proof.
  intros Hstep [_ Hok] Hn. remember (Ok l') as r eqn:Er.
  destruct Hstep; simplify_eq/=; unfold patch, zlen in *;
    rewrite ?length_app, ?length_fmap, ?length_take, ?length_drop in *; simpl length in *;
    lia.
Qed.

Lemma total_need_nonneg os size : ops_ok os size -> 0 <= total_need os.
Proof.
  intros [_ Hf]. unfold total_need. induction Hf as [|o os [_ Hn] _ IH]; simpl; lia.
Qed.

Lemma run_all_refines os b :
  inv b -> ops_ok os (size_ b) -> log_run os (contents b) (contents <$> run_all os b).
Proof.
  revert b. induction os as [|o os IH]; intros b Hi Hok; [constructor|].
  assert (0 <= total_need os) as Hpos.
  { apply (total_need_nonneg os (2^62 - total_need os)). destruct Hok as [_ Hf].
    apply Forall_cons_iff in Hf as [_ Hf]. split; [lia|done]. }
  destruct Hok as [Ht Hf]. apply Forall_cons_iff in Hf as [[Ho Hn] Hf].
  cbn [total_need foldr] in Ht. fold (total_need os) in Ht.
  destruct (run_refines o b Hi) as [Hstep Hinv].
  { split; [lia|]. apply Ho. }
  unfold run_all. cbn [foldM]. destruct (run o b) as [b'|e| |] eqn:E; simpl in Hstep.
  - apply (log_next _ _ _ _ _ Hstep). apply IH; [done|]. split; [|done].
    pose proof (log_step_size _ _ _ Hstep Ho Hn) as Hsz.
    rewrite !length_contents in Hsz by done. lia.
  - by apply log_stop.
  - inversion Hstep.
  - inversion Hstep.
Qed.

End Refinement.

End OutputBufferFacts.

(** ** Fields: the unit of a wire header *)
Inductive field : Set := F8 (v : Z) | F16 (v : Z) | F32 (v : Z) | FData (bs : list Z).

Definition field_ok (f : field) : Prop :=
  match f with
  | F8 v => 0 <= v < 2^8
  | F16 v => 0 <= v < 2^16
  | F32 v => 0 <= v < 2^32
  | FData _ => True
  end.

Definition field_bytes (f : field) : list Z :=
  match f with
  | F8 v => [u8 v] | F16 v => bytes16 v | F32 v => bytes32 v | FData bs => bs
  end.

Definition field_op (f : field) : OutputBufferFacts.op :=
  match f with
  | F8 v => OutputBufferFacts.W8 v
  | F16 v => OutputBufferFacts.W16 v
  | F32 v => OutputBufferFacts.W32 v
  | FData bs => OutputBufferFacts.WData bs
  end.

(** Reading a header of the same shape back. *)
Definition read_field (f : field) (b : InputBuffer.t) : result (field * InputBuffer.t) :=
  match f with
  | F8 _ => '(v, b) ← InputBuffer.readUint8 b; Ok (F8 v, b)
  | F16 _ => '(v, b) ← InputBuffer.readUint16 b; Ok (F16 v, b)
  | F32 _ => '(v, b) ← InputBuffer.readUint32 b; Ok (F32 v, b)
  | FData bs => '(d, b) ← InputBuffer.readData (zlen bs) b; Ok (FData d, b)
  end.

Fixpoint read_fields (fs : list field) (b : InputBuffer.t)
    : result (list field * InputBuffer.t) :=
  match fs with
  | [] => Ok ([], b)
  | f :: fs =>
      '(v, b) ← read_field f b; '(vs, b) ← read_fields fs b; Ok (v :: vs, b)
  end.

Definition wire (fs : list field) : list Z := concat (field_bytes <$> fs).

Lemma wire_cons f fs : wire (f :: fs) = field_bytes f ++ wire fs.
Proof. done. Qed.

Section FieldFacts.
Import InputBufferFacts OutputBufferFacts.

Lemma read_field_view pre f rest :
  field_ok f -> small (pre ++ field_bytes f ++ rest) ->
  read_field f (InputBuffer.view pre (field_bytes f ++ rest)) =
  Ok (f, InputBuffer.view (pre ++ field_bytes f) rest).
Proof.
  intros Hok Hs. destruct f; cbn [read_field field_bytes field_ok] in *.
  - rewrite u8_small in * by done. change ([v] ++ rest) with (v :: rest) in *.
    by rewrite readUint8_view.
  - by rewrite readUint16_view.
  - by rewrite readUint32_view.
  - by rewrite readData_view.
Qed.

Lemma read_fields_view pre fs rest :
  Forall field_ok fs -> small (pre ++ wire fs ++ rest) ->
  read_fields fs (InputBuffer.view pre (wire fs ++ rest)) =
  Ok (fs, InputBuffer.view (pre ++ wire fs) rest).
Proof.
  revert pre. induction fs as [|f fs IH]; intros pre Hok Hs.
  - simpl. by rewrite app_nil_r.
  - apply Forall_cons_iff in Hok as [Hf Hfs]. cbn [read_fields].
    rewrite wire_cons, <- app_assoc in *.
    rewrite read_field_view by done. simpl mbind.
    rewrite IH; [by rewrite <- app_assoc|done|by rewrite <- app_assoc].
Qed.

Lemma write_field_spec alloc_ok f b :
  (forall n, alloc_ok n = true) -> OutputBuffer.inv b ->
  OutputBuffer.size_ b + zlen (field_bytes f) <= 2^62 ->
  exists b', run alloc_ok (field_op f) b = Ok b' /\ OutputBuffer.inv b' /\
    OutputBuffer.contents b' = OutputBuffer.contents b ++ (Some <$> field_bytes f).
Proof.
  intros Ha Hi Hs.
  assert (run alloc_ok (field_op f) b = OutputBuffer.writeData alloc_ok (field_bytes f) b) as ->
    by (destruct f; done).
  by apply writeData_spec.
Qed.

Lemma write_fields_spec alloc_ok fs b :
  (forall n, alloc_ok n = true) -> OutputBuffer.inv b ->
  OutputBuffer.size_ b + zlen (wire fs) <= 2^62 ->
  exists b', run_all alloc_ok (field_op <$> fs) b = Ok b' /\ OutputBuffer.inv b' /\
    OutputBuffer.contents b' = OutputBuffer.contents b ++ (Some <$> wire fs).
Proof.
  intros Ha. revert b. induction fs as [|f fs IH]; intros b Hi Hs.
  - exists b. simpl. by rewrite app_nil_r.
  - rewrite wire_cons, zlen_app in Hs.
    destruct (write_field_spec alloc_ok f b Ha Hi) as (b1 & E1 & Hi1 & Hc1);
      [pose proof (zlen_nonneg (wire fs)); lia|].
    assert (OutputBuffer.size_ b1 = OutputBuffer.size_ b + zlen (field_bytes f)) as Hsz.
    { rewrite <- (length_contents b1 Hi1), <- (length_contents b Hi), Hc1, zlen_app.
      unfold zlen. by rewrite length_fmap. }
    destruct (IH b1) as (b2 & E2 & Hi2 & Hc2); [done|lia|].
    exists b2. split; [|split; [done|]].
    + unfold run_all. cbn. rewrite E1. exact E2.
    + by rewrite Hc2, Hc1, wire_cons, fmap_app, app_assoc.
Qed.

End FieldFacts.
