(* ===== verification/DnsName.v ===== *)
(** Domain names: [Name] and [LabelSequence] of src/slave/dns.

    A [Name] is the wire image, the label offsets, the length and the label
    count, as in the class.  The text parser is the source's character state
    machine with its fall-throughs, one definition per [case]; the wire parser
    is its loop with the compression pointers.  The abstract view is the list
    of labels: [of_labels] is the name a label list stands for, the parsers
    produce only such names, and every operation of the class is proved to be
    the list operation it implements. *)
From stdpp Require Import base list numbers option strings.
From Stdlib Require Import ZArith Lia.
From S2P Require Import Prelude Buffer.

(** ** Character tables *)
Definition digitvalue_tab : list Z :=
  [-1; -1; -1; -1; -1; -1; -1; -1; -1; -1; -1; -1; -1; -1; -1; -1;
   -1; -1; -1; -1; -1; -1; -1; -1; -1; -1; -1; -1; -1; -1; -1; -1;
   -1; -1; -1; -1; -1; -1; -1; -1; -1; -1; -1; -1; -1; -1; -1; -1;
   0; 1; 2; 3; 4; 5; 6; 7; 8; 9; -1; -1; -1; -1; -1; -1;
   -1; 10; 11; 12; 13; 14; 15; -1; -1; -1; -1; -1; -1; -1; -1; -1;
   -1; -1; -1; -1; -1; -1; -1; -1; -1; -1; -1; -1; -1; -1; -1; -1;
   -1; 10; 11; 12; 13; 14; 15; -1; -1; -1; -1; -1; -1; -1; -1; -1;
   -1; -1; -1; -1; -1; -1; -1; -1; -1; -1; -1; -1; -1; -1; -1; -1;
   -1; -1; -1; -1; -1; -1; -1; -1; -1; -1; -1; -1; -1; -1; -1; -1;
   -1; -1; -1; -1; -1; -1; -1; -1; -1; -1; -1; -1; -1; -1; -1; -1;
   -1; -1; -1; -1; -1; -1; -1; -1; -1; -1; -1; -1; -1; -1; -1; -1;
   -1; -1; -1; -1; -1; -1; -1; -1; -1; -1; -1; -1; -1; -1; -1; -1;
   -1; -1; -1; -1; -1; -1; -1; -1; -1; -1; -1; -1; -1; -1; -1; -1;
   -1; -1; -1; -1; -1; -1; -1; -1; -1; -1; -1; -1; -1; -1; -1; -1;
   -1; -1; -1; -1; -1; -1; -1; -1; -1; -1; -1; -1; -1; -1; -1; -1;
   -1; -1; -1; -1; -1; -1; -1; -1; -1; -1; -1; -1; -1; -1; -1; -1].

Definition maptolower_tab : list Z :=
  [0x00; 0x01; 0x02; 0x03; 0x04; 0x05; 0x06; 0x07; 0x08; 0x09; 0x0a; 0x0b; 0x0c; 0x0d; 0x0e; 0x0f;
   0x10; 0x11; 0x12; 0x13; 0x14; 0x15; 0x16; 0x17; 0x18; 0x19; 0x1a; 0x1b; 0x1c; 0x1d; 0x1e; 0x1f;
   0x20; 0x21; 0x22; 0x23; 0x24; 0x25; 0x26; 0x27; 0x28; 0x29; 0x2a; 0x2b; 0x2c; 0x2d; 0x2e; 0x2f;
   0x30; 0x31; 0x32; 0x33; 0x34; 0x35; 0x36; 0x37; 0x38; 0x39; 0x3a; 0x3b; 0x3c; 0x3d; 0x3e; 0x3f;
   0x40; 0x61; 0x62; 0x63; 0x64; 0x65; 0x66; 0x67; 0x68; 0x69; 0x6a; 0x6b; 0x6c; 0x6d; 0x6e; 0x6f;
   0x70; 0x71; 0x72; 0x73; 0x74; 0x75; 0x76; 0x77; 0x78; 0x79; 0x7a; 0x5b; 0x5c; 0x5d; 0x5e; 0x5f;
   0x60; 0x61; 0x62; 0x63; 0x64; 0x65; 0x66; 0x67; 0x68; 0x69; 0x6a; 0x6b; 0x6c; 0x6d; 0x6e; 0x6f;
   0x70; 0x71; 0x72; 0x73; 0x74; 0x75; 0x76; 0x77; 0x78; 0x79; 0x7a; 0x7b; 0x7c; 0x7d; 0x7e; 0x7f;
   0x80; 0x81; 0x82; 0x83; 0x84; 0x85; 0x86; 0x87; 0x88; 0x89; 0x8a; 0x8b; 0x8c; 0x8d; 0x8e; 0x8f;
   0x90; 0x91; 0x92; 0x93; 0x94; 0x95; 0x96; 0x97; 0x98; 0x99; 0x9a; 0x9b; 0x9c; 0x9d; 0x9e; 0x9f;
   0xa0; 0xa1; 0xa2; 0xa3; 0xa4; 0xa5; 0xa6; 0xa7; 0xa8; 0xa9; 0xaa; 0xab; 0xac; 0xad; 0xae; 0xaf;
   0xb0; 0xb1; 0xb2; 0xb3; 0xb4; 0xb5; 0xb6; 0xb7; 0xb8; 0xb9; 0xba; 0xbb; 0xbc; 0xbd; 0xbe; 0xbf;
   0xc0; 0xc1; 0xc2; 0xc3; 0xc4; 0xc5; 0xc6; 0xc7; 0xc8; 0xc9; 0xca; 0xcb; 0xcc; 0xcd; 0xce; 0xcf;
   0xd0; 0xd1; 0xd2; 0xd3; 0xd4; 0xd5; 0xd6; 0xd7; 0xd8; 0xd9; 0xda; 0xdb; 0xdc; 0xdd; 0xde; 0xdf;
   0xe0; 0xe1; 0xe2; 0xe3; 0xe4; 0xe5; 0xe6; 0xe7; 0xe8; 0xe9; 0xea; 0xeb; 0xec; 0xed; 0xee; 0xef;
   0xf0; 0xf1; 0xf2; 0xf3; 0xf4; 0xf5; 0xf6; 0xf7; 0xf8; 0xf9; 0xfa; 0xfb; 0xfc; 0xfd; 0xfe; 0xff].

Definition digitvalue (c : Z) : Z := default 0 (digitvalue_tab !! Z.to_nat c).
Definition maptolower (c : Z) : Z := default 0 (maptolower_tab !! Z.to_nat c).

Definition MAX_WIRE : Z := 255.
Definition MAX_LABELS : Z := 128.
Definition MAX_LABELLEN : Z := 63.
Definition COMPRESS_POINTER_MARK8 : Z := 0xc0.

Record Name := MkName {
  ndata_ : list Z;
  offsets_ : list Z;
  length_ : Z;
  labelcount_ : Z }.

#[global] Instance Name_eq_dec : EqDecision Name.
Proof. solve_decision. Defined.

(** [v.back()] of a non-empty vector. *)
Definition back (l : list Z) : result Z :=
  match last l with Some x => Ok x | None => Crash end.

(** ** Text parser *)
Module TextParser.

Inductive ft_state : Set :=
| ft_init | ft_start | ft_ordinary | ft_initialescape | ft_escape | ft_escdecimal.

#[global] Instance ft_state_eq_dec : EqDecision ft_state.
Proof. solve_decision. Defined.

Record pst := MkPst {
  state : ft_state; digits : Z; value : Z; count : Z;
  ndata : list Z; offsets : list Z; done_ : bool }.

Definition init_pst : pst := MkPst ft_init 0 0 0 [] [0] false.

Section Parser.
Variable downcase : bool.

Definition lower (c : Z) : Z := if downcase then maptolower c else c.

(** [if (++count > MAX_LABELLEN) throw; ndata.push_back(...); state = ft_ordinary] *)
Definition push_char (p : pst) (c : Z) : result pst :=
  throw_if (MAX_LABELLEN <? count p + 1) TooLongLabel;;
  Ok (MkPst ft_ordinary (digits p) (value p) (count p + 1)
            (ndata p ++ [lower c]) (offsets p) (done_ p)).

(** [last] is [s == send] after the character was consumed. *)
Definition case_ordinary (p : pst) (c : Z) (last : bool) : result pst :=
  if c =? 46 then
    throw_if (count p =? 0) EmptyLabel;;
    b ← back (offsets p);
    nd ← zset_at (ndata p) b (u8 (count p));
    let os := offsets p ++ [u8 (zlen nd)] in
    if last then Ok (MkPst ft_start (digits p) (value p) (count p) (nd ++ [0]) os true)
    else Ok (MkPst ft_start (digits p) (value p) (count p) nd os (done_ p))
  else if c =? 92 then
    Ok (MkPst ft_escape (digits p) (value p) (count p) (ndata p) (offsets p) (done_ p))
  else push_char p c.

Definition case_start (p : pst) (c : Z) (last : bool) : result pst :=
  let nd := ndata p ++ [0] in
  if c =? 92 then
    Ok (MkPst ft_initialescape (digits p) (value p) 0 nd (offsets p) (done_ p))
  else
    assert_ (zlen nd <? MAX_WIRE);;
    case_ordinary (MkPst ft_ordinary (digits p) (value p) 0 nd (offsets p) (done_ p)) c last.

Definition case_init (p : pst) (c : Z) (last : bool) : result pst :=
  throw_if ((c =? 46) && negb last) EmptyLabel;;
  if (c =? 46) || ((c =? 64) && last) then
    Ok (MkPst ft_init (digits p) (value p) (count p) (ndata p ++ [0]) (offsets p) true)
  else case_start p c last.

Definition case_escdecimal (p : pst) (c : Z) : result pst :=
  throw_if (negb (isdigit (Z.land c 0xff))) BadEscape;;
  let value := u32 (u32 (value p * 10) + digitvalue c) in
  let digits := digits p + 1 in
  let p := MkPst ft_escdecimal digits value (count p) (ndata p) (offsets p) (done_ p) in
  if digits =? 3 then
    throw_if (255 <? value) BadEscape;;
    push_char p value
  else Ok p.

Definition case_escape (p : pst) (c : Z) : result pst :=
  if negb (isdigit (Z.land c 0xff)) then push_char p c
  else case_escdecimal (MkPst ft_escdecimal 0 0 (count p) (ndata p) (offsets p) (done_ p)) c.

Definition case_initialescape (p : pst) (c : Z) : result pst :=
  throw_if (c =? 91) BadLabelType;;
  case_escape p c.

Definition step (p : pst) (c : Z) (last : bool) : result pst :=
  match state p with
  | ft_init => case_init p c last
  | ft_start => case_start p c last
  | ft_ordinary => case_ordinary p c last
  | ft_initialescape => case_initialescape p c
  | ft_escape => case_escape p c
  | ft_escdecimal => case_escdecimal p c
  end.

Definition is_nil (s : list Z) : bool := match s with [] => true | _ => false end.

(** [while (ndata.size() < MAX_WIRE && s != send && !done)]: the final state
    and the characters left. *)
Fixpoint loop (p : pst) (s : list Z) : result (pst * list Z) :=
  match s with
  | [] => Ok (p, [])
  | c :: s' =>
      if (zlen (ndata p) <? MAX_WIRE) && negb (done_ p)
      then p ← step p c (is_nil s'); loop p s'
      else Ok (p, s)
  end.

Definition finish (p : pst) (s : list Z) : result (list Z * list Z) :=
  if done_ p then Ok (offsets p, ndata p)
  else
    throw_if (zlen (ndata p) =? MAX_WIRE) TooLongName;;
    assert_ (is_nil s);;
    throw_if (negb (bool_decide (state p = ft_ordinary))) IncompleteName;;
    assert_ (negb (count p =? 0));;
    b ← back (offsets p);
    nd ← zset_at (ndata p) b (u8 (count p));
    Ok (offsets p ++ [u8 (zlen nd)], nd ++ [0]).

Definition stringParse (s : list Z) : result (list Z * list Z) :=
  '(p, rest) ← loop init_pst s; finish p rest.

End Parser.
End TextParser.

(** [Name(const std::string&, bool)] *)
Definition Name_from_text (namestring : list Z) (downcase : bool) : result Name :=
  '(offsets, ndata) ← TextParser.stringParse downcase namestring;
  assert_ ((0 <? zlen offsets) && (zlen offsets <=? MAX_LABELS));;
  Ok (MkName ndata offsets (zlen ndata) (zlen offsets)).

(** [Name(const char*, size_t, const Name* origin, bool)] *)
Definition Name_from_text_origin (namedata : list Z) (origin : option Name)
    (downcase : bool) : result Name :=
  throw_if (TextParser.is_nil namedata) InvalidParameter;;
  let absolute := bool_decide (last namedata = Some 46) in
  throw_if (negb absolute && bool_decide (origin = None)) MissingNameOrigin;;
  '(offsets, ndata) ← TextParser.stringParse downcase namedata;
  assert_ ((0 <? zlen offsets) && (zlen offsets <=? MAX_LABELS));;
  if absolute then Ok (MkName ndata offsets (zlen ndata) (zlen offsets))
  else
    match origin with
    | None => Crash
    | Some o =>
        offset ← back offsets;
        let nd := take (length ndata - 1) ndata ++ ndata_ o in
        let os := take (length offsets - 1) offsets ++
                  ((fun x => u8 (x + offset)) <$> offsets_ o) in
        throw_if ((MAX_LABELS <? zlen os) || (MAX_WIRE <? zlen nd)) TooLongName;;
        Ok (MkName nd os (zlen nd) (zlen os))
    end.

(** ** Wire parser *)
Module WireParser.

Inductive fw_state : Set := fw_start | fw_ordinary | fw_newcurrent.

Record wst := MkWst {
  offsets : list Z; ndata : list Z; n : Z; done_ : bool; nused : Z;
  seen_pointer : bool; state : fw_state; cused : Z; current : Z;
  biggest_pointer : Z; new_current : Z; buffer : InputBuffer.t }.

Definition init_wst (buffer : InputBuffer.t) : wst :=
  let current := InputBuffer.getPosition buffer in
  MkWst [] [] 0 false 0 false fw_start 0 current current 0 buffer.

Section Parser.
Variable downcase : bool.

Definition case_start (w : wst) (c : Z) : result wst :=
  if c <=? MAX_LABELLEN then
    throw_if (MAX_WIRE <? nused w + c + 1) DNSMessageFORMERR;;
    Ok (MkWst (offsets w ++ [u8 (nused w)]) (ndata w ++ [c]) c (c =? 0)
              (nused w + c + 1) (seen_pointer w) fw_ordinary (cused w) (current w)
              (biggest_pointer w) (new_current w) (buffer w))
  else if Z.land c COMPRESS_POINTER_MARK8 =? COMPRESS_POINTER_MARK8 then
    Ok (MkWst (offsets w) (ndata w) 1 (done_ w) (nused w) (seen_pointer w)
              fw_newcurrent (cused w) (current w) (biggest_pointer w)
              (Z.land c (Z.lnot COMPRESS_POINTER_MARK8)) (buffer w))
  else Throw DNSMessageFORMERR.

Definition case_ordinary (w : wst) (c : Z) : result wst :=
  let c := if downcase then maptolower c else c in
  let n := u32 (n w - 1) in
  Ok (MkWst (offsets w) (ndata w ++ [c]) n (done_ w) (nused w) (seen_pointer w)
            (if n =? 0 then fw_start else fw_ordinary) (cused w) (current w)
            (biggest_pointer w) (new_current w) (buffer w)).

Definition case_newcurrent (w : wst) (c : Z) : result wst :=
  let new_current := u32 (u32 (new_current w * 256) + c) in
  let n := u32 (n w - 1) in
  if negb (n =? 0) then
    Ok (MkWst (offsets w) (ndata w) n (done_ w) (nused w) (seen_pointer w)
              fw_newcurrent (cused w) (current w) (biggest_pointer w)
              new_current (buffer w))
  else
    throw_if (biggest_pointer w <=? new_current) DNSMessageFORMERR;;
    b ← InputBuffer.setPosition new_current (buffer w);
    Ok (MkWst (offsets w) (ndata w) n (done_ w) (nused w) true fw_start (cused w)
              new_current new_current new_current b).

(** One iteration: read a byte, count it, dispatch on the state. *)
Definition iter (w : wst) : result wst :=
  '(c, b) ← InputBuffer.readUint8 (buffer w);
  let w := MkWst (offsets w) (ndata w) (n w) (done_ w) (nused w) (seen_pointer w)
             (state w) (if seen_pointer w then cused w else u32 (cused w + 1))
             (u32 (current w + 1)) (biggest_pointer w) (new_current w) b in
  match state w with
  | fw_start => case_start w c
  | fw_ordinary => case_ordinary w c
  | fw_newcurrent => case_newcurrent w c
  end.

Fixpoint loop (fuel : nat) (w : wst) : result wst :=
  match fuel with
  | O => NoFuel
  | S fuel' =>
      if (current w <? InputBuffer.getLength (buffer w)) && negb (done_ w)
      then w ← iter w; loop fuel' w
      else Ok w
  end.

(** A pointer target is below [biggest_pointer], so at most [position] jumps
    happen and every run between two jumps reads each byte once. *)
Definition fuel_for (b : InputBuffer.t) : nat :=
  (Z.to_nat (InputBuffer.getPosition b + 1) * S (Z.to_nat (InputBuffer.getLength b)) + 1)%nat.

End Parser.
End WireParser.

(** [Name(InputBuffer&, bool)]: the name and the buffer after it. *)
Definition Name_from_wire (buffer : InputBuffer.t) (downcase : bool)
    : result (Name * InputBuffer.t) :=
  let pos_begin := InputBuffer.getPosition buffer in
  w ← WireParser.loop downcase (WireParser.fuel_for buffer) (WireParser.init_wst buffer);
  throw_if (negb (WireParser.done_ w)) DNSMessageFORMERR;;
  b ← InputBuffer.setPosition (u32 (pos_begin + WireParser.cused w)) (WireParser.buffer w);
  Ok (MkName (WireParser.ndata w) (WireParser.offsets w) (WireParser.nused w)
             (zlen (WireParser.offsets w)), b).

(** ** Label sequences *)
Module LabelSequence.

Record t := Mk { data_ : list Z; loffsets_ : list Z; first_label_ : Z; last_label_ : Z }.

Definition of_name (name : Name) : t :=
  Mk (ndata_ name) (offsets_ name) 0 (labelcount_ name - 1).

Definition getLabelCount (ls : t) : Z := last_label_ ls - first_label_ ls + 1.

Definition getDataLength (ls : t) : result Z :=
  lo ← zget (loffsets_ ls) (last_label_ ls);
  ll ← zget (data_ ls) lo;
  fo ← zget (loffsets_ ls) (first_label_ ls);
  Ok (lo - fo + (ll + 1)).

Definition getData (ls : t) : result (list Z) :=
  len ← getDataLength ls;
  fo ← zget (loffsets_ ls) (first_label_ ls);
  slice (data_ ls) fo len.

Definition getSerializedLength (ls : t) : result Z :=
  len ← getDataLength ls; Ok (1 + getLabelCount ls + len).

(** [serialize] into a buffer of [buf_len] bytes that does not overlap the
    sequence: the bytes it stores at the front. *)
Definition serialize (ls : t) (buf_len : Z) : result (list Z) :=
  expected ← getSerializedLength ls;
  throw_if (buf_len <? expected) BadValue;;
  let offsets_len := getLabelCount ls in
  assert_ (offsets_len <? 256);;
  fo ← zget (loffsets_ ls) (first_label_ ls);
  os ← slice (loffsets_ ls) (first_label_ ls) offsets_len;
  d ← getData ls;
  let out := offsets_len :: ((fun o => u8 (o - fo)) <$> os) ++ d in
  assert_ (zlen out =? expected);;
  Ok out.

(** [LabelSequence(const void* buf)]: a view of serialized data. *)
Definition of_serialized (buf : list Z) : result t :=
  match buf with
  | [] => Crash
  | offsets_len :: bp =>
      os ← slice bp 0 offsets_len;
      Ok (Mk (drop (Z.to_nat offsets_len) bp) os 0 (offsets_len - 1))
  end.

Definition stripLeft (i : Z) (ls : t) : result t :=
  throw_if (getLabelCount ls <=? i) OutOfRange;;
  Ok (Mk (data_ ls) (loffsets_ ls) (first_label_ ls + i) (last_label_ ls)).

Definition stripRight (i : Z) (ls : t) : result t :=
  throw_if (getLabelCount ls <=? i) OutOfRange;;
  Ok (Mk (data_ ls) (loffsets_ ls) (first_label_ ls) (last_label_ ls - i)).

Definition isAbsolute (ls : t) : result bool :=
  lo ← zget (loffsets_ ls) (last_label_ ls);
  c ← zget (data_ ls) lo;
  Ok (c =? 0).

Definition equals (ls other : t) (case_sensitive : bool) : result bool :=
  d1 ← getData ls;
  d2 ← getData other;
  if negb (zlen d1 =? zlen d2) then Ok false
  else if case_sensitive then Ok (bool_decide (d1 = d2))
  else Ok (bool_decide ((maptolower <$> d1) = (maptolower <$> d2))).

Inductive NameRelation : Set := SUPERDOMAIN | SUBDOMAIN | EQUAL | COMMONANCESTOR | NONE.

Record NameComparisonResult := MkCmp {
  order_ : Z; nlabels_ : Z; relation_ : NameRelation }.

Definition label_at (ls : t) (l : Z) : result (list Z) :=
  pos ← zget (loffsets_ ls) (l + first_label_ ls);
  count ← zget (data_ ls) pos;
  assert_ (count <=? MAX_LABELLEN);;
  slice (data_ ls) (pos + 1) count.

(** The inner [while (count > 0)]: first differing character of the common
    prefix. *)
Fixpoint chdiff (case_sensitive : bool) (a b : list Z) : option Z :=
  match a, b with
  | x :: a, y :: b =>
      let d := if case_sensitive then x - y else maptolower x - maptolower y in
      if d =? 0 then chdiff case_sensitive a b else Some d
  | _, _ => None
  end.

(** The outer loop runs over the labels from the last one; [l] is the number
    of labels left in the shorter sequence. *)
Fixpoint compare_loop (l : nat) (ls other : t) (case_sensitive : bool)
    (nlabels l1 l2 ldiff : Z) : result NameComparisonResult :=
  match l with
  | O =>
      Ok (MkCmp ldiff nlabels
            (if ldiff <? 0 then SUPERDOMAIN else if 0 <? ldiff then SUBDOMAIN else EQUAL))
  | S l' =>
      a ← label_at ls (l1 - 1);
      b ← label_at other (l2 - 1);
      let rel := if nlabels =? 0 then NONE else COMMONANCESTOR in
      match chdiff case_sensitive a b with
      | Some d => Ok (MkCmp d nlabels rel)
      | None =>
          let cdiff := zlen a - zlen b in
          if negb (cdiff =? 0) then Ok (MkCmp cdiff nlabels rel)
          else compare_loop l' ls other case_sensitive (nlabels + 1) (l1 - 1) (l2 - 1) ldiff
      end
  end.

Definition compare (ls other : t) (case_sensitive : bool) : result NameComparisonResult :=
  let l1 := getLabelCount ls in
  let l2 := getLabelCount other in
  let ldiff := l1 - l2 in
  compare_loop (Z.to_nat (if ldiff <? 0 then l1 else l2)) ls other case_sensitive 0 l1 l2 ldiff.

(** The characters [toText] escapes with a backslash. *)
Definition special (c : Z) : bool :=
  (c =? 0x22) || (c =? 0x28) || (c =? 0x29) || (c =? 0x2E) || (c =? 0x3B) ||
  (c =? 0x5C) || (c =? 0x40) || (c =? 0x24).

Definition char_text (c : Z) : list Z :=
  if special c then [0x5C; c]
  else if (0x20 <? c) && (c <? 0x7f) then [c]
  else [0x5c; 0x30 + (c / 100) mod 10; 0x30 + (c / 10) mod 10; 0x30 + c mod 10].

Definition label_text (l : list Z) : list Z := concat (char_text <$> l).

(** [while (np != np_end)]: [np] is what is left of the data, [labels] the
    label counter, [acc] the string built so far. *)
Fixpoint text_loop (fuel : nat) (omit_final_dot : bool) (np : list Z) (labels : Z)
    (acc : list Z) : result (list Z * Z * list Z) :=
  match fuel with
  | O => NoFuel
  | S fuel' =>
      match np with
      | [] => Ok (np, labels, acc)
      | count :: np =>
          if count =? 0 then
            Ok (np, labels - 1,
                if negb omit_final_dot || TextParser.is_nil acc then acc ++ [46] else acc)
          else if count <=? MAX_LABELLEN then
            assert_ (count <=? zlen np);;
            let acc := if TextParser.is_nil acc then acc else acc ++ [46] in
            text_loop fuel' omit_final_dot (drop (Z.to_nat count) np) (labels - 1)
              (acc ++ label_text (take (Z.to_nat count) np))
          else Throw BadLabelType
      end
  end.

Definition toText_omit (ls : t) (omit_final_dot : bool) : result (list Z) :=
  d ← getData ls;
  '(np, labels, text) ← text_loop (S (length d)) omit_final_dot d (getLabelCount ls) [];
  assert_ (TextParser.is_nil np);;
  assert_ (labels =? 0);;
  Ok text.

Definition toText (ls : t) : result (list Z) :=
  abs ← isAbsolute ls; toText_omit ls (negb abs).

End LabelSequence.

(** ** Operations of [Name] *)
Definition Name_at (name : Name) (pos : Z) : result Z :=
  throw_if (length_ name <=? pos) OutOfRange;; zget (ndata_ name) pos.

Definition Name_toText (name : Name) (omit_final_dot : bool) : result (list Z) :=
  LabelSequence.toText_omit (LabelSequence.of_name name) omit_final_dot.

(** [toWire] hands [ndata_] to [OutputBuffer::writeData]. *)
Definition Name_toWire (name : Name) : list Z := ndata_ name.

Definition Name_compare (name other : Name) : result LabelSequence.NameComparisonResult :=
  LabelSequence.compare (LabelSequence.of_name name) (LabelSequence.of_name other) false.

Definition Name_leq (name other : Name) : result bool :=
  r ← Name_compare name other; Ok (LabelSequence.order_ r <=? 0).
Definition Name_lthan (name other : Name) : result bool :=
  r ← Name_compare name other; Ok (LabelSequence.order_ r <? 0).

(** [while (count-- > 0)] of [equals]: the position after the label, or
    [None] when a character differs. *)
Fixpoint equals_label (count : nat) (d1 d2 : list Z) (pos : Z) : result (option Z) :=
  match count with
  | O => Ok (Some pos)
  | S count' =>
      a ← zget d1 pos;
      b ← zget d2 pos;
      if negb (maptolower a =? maptolower b) then Ok None
      else equals_label count' d1 d2 (pos + 1)
  end.

Fixpoint equals_loop (l : nat) (d1 d2 : list Z) (pos : Z) : result bool :=
  match l with
  | O => Ok true
  | S l' =>
      count ← zget d1 pos;
      count' ← zget d2 pos;
      if negb (count =? count') then Ok false
      else
        r ← equals_label (Z.to_nat count) d1 d2 (pos + 1);
        match r with None => Ok false | Some pos => equals_loop l' d1 d2 pos end
  end.

Definition Name_equals (name other : Name) : result bool :=
  if negb (length_ name =? length_ other) || negb (labelcount_ name =? labelcount_ other)
  then Ok false
  else equals_loop (Z.to_nat (labelcount_ name)) (ndata_ name) (ndata_ other) 0.

Definition Name_isWildcard (name : Name) : result bool :=
  if negb (2 <=? length_ name) then Ok false
  else a ← zget (ndata_ name) 0;
       if negb (a =? 1) then Ok false
       else b ← zget (ndata_ name) 1; Ok (b =? 42).

Definition Name_concatenate (name suffix : Name) : result Name :=
  assert_ ((0 <? length_ name) && (0 <? length_ suffix));;
  assert_ ((0 <? labelcount_ name) && (0 <? labelcount_ suffix));;
  let len := length_ name + length_ suffix - 1 in
  throw_if (MAX_WIRE <? len) TooLongName;;
  let nd := take (Z.to_nat (length_ name - 1)) (ndata_ name) ++ ndata_ suffix in
  assert_ (zlen nd =? len);;
  let labels := labelcount_ name + labelcount_ suffix - 1 in
  assert_ (labels <=? MAX_LABELS);;
  os ← slice (offsets_ name) 0 (labelcount_ name - 1);
  let os := os ++ ((fun x => u8 (x + (length_ name - 1))) <$> offsets_ suffix) in
  assert_ (zlen os =? labels);;
  Ok (MkName nd os len labels).

(** [rits] is what the two reverse iterators still have to visit: [rit0]
    points at its head, [rit1] at the next element. *)
Fixpoint reverse_loop (nd0 : list Z) (rits : list Z) (nd os : list Z) : result (list Z * list Z) :=
  match rits with
  | rit0 :: (rit1 :: _) as rest =>
      seg ← slice nd0 rit1 (rit0 - rit1);
      let nd := nd ++ seg in
      reverse_loop nd0 rest nd (os ++ [u8 (zlen nd)])
  | _ => Ok (nd, os)
  end.

Definition Name_reverse (name : Name) : result Name :=
  '(nd, os) ← reverse_loop (ndata_ name) (rev (offsets_ name)) [] [0];
  Ok (MkName (nd ++ [0]) os (length_ name) (labelcount_ name)).

(** [split(first, n)]; unsigned arithmetic, [n <= labelcount_] at the subtraction. *)
Definition Name_split (name : Name) (first n : Z) : result Name :=
  throw_if ((n =? 0) || (labelcount_ name <? n) || (labelcount_ name - n <? first)) OutOfRange;;
  let newlabels := if first + n =? labelcount_ name then n else n + 1 in
  o ← zget (offsets_ name) first;
  os ← slice (offsets_ name) first newlabels;
  let os := (fun x => u8 (x - o)) <$> os in
  b ← back os;
  throw_if (zlen (ndata_ name) <? o) StdOutOfRange;;
  let nd := take (Z.to_nat b) (drop (Z.to_nat o) (ndata_ name)) ++ [0] in
  assert_ (zlen os =? newlabels);;
  Ok (MkName nd os (zlen nd) (zlen os)).

Definition Name_split_level (name : Name) (level : Z) : result Name :=
  throw_if (labelcount_ name <=? level) OutOfRange;;
  Name_split name level (labelcount_ name - level).

Fixpoint downcase_label (count : nat) (nd : list Z) (pos : Z) : result (list Z * Z) :=
  match count with
  | O => Ok (nd, pos)
  | S count' =>
      c ← zat nd pos;
      nd ← zset_at nd pos (maptolower c);
      downcase_label count' nd (pos + 1)
  end.

Fixpoint downcase_loop (labels : nat) (nd : list Z) (nlen pos : Z) : result (list Z) :=
  match labels with
  | O => Ok nd
  | S labels' =>
      if nlen <=? 0 then Ok nd
      else
        count ← zat nd pos;
        assert_ (count <=? MAX_LABELLEN);;
        assert_ (count <=? nlen - 1);;
        '(nd, pos) ← downcase_label (Z.to_nat count) nd (pos + 1);
        downcase_loop labels' nd (nlen - 1 - count) pos
  end.

Definition Name_downcase (name : Name) : result Name :=
  nd ← downcase_loop (Z.to_nat (labelcount_ name)) (ndata_ name) (length_ name) 0;
  Ok (MkName nd (offsets_ name) (length_ name) (labelcount_ name)).

(** ** The abstract view: label lists *)
Fixpoint labels_wire (ls : list (list Z)) : list Z :=
  match ls with [] => [] | l :: ls => (zlen l :: l) ++ labels_wire ls end.

Fixpoint labels_offsets (o : Z) (ls : list (list Z)) : list Z :=
  match ls with [] => [o] | l :: ls => o :: labels_offsets (o + 1 + zlen l) ls end.

Definition of_labels (ls : list (list Z)) : Name :=
  let nd := labels_wire ls ++ [0] in
  MkName nd (labels_offsets 0 ls) (zlen nd) (zlen ls + 1).

Definition label_ok (l : list Z) : Prop := 1 <= zlen l <= MAX_LABELLEN /\ bytes_ok l.
Definition labels_ok (ls : list (list Z)) : Prop :=
  Forall label_ok ls /\ zlen (labels_wire ls) + 1 <= MAX_WIRE.

Definition name_wf (name : Name) : Prop := exists ls, labels_ok ls /\ name = of_labels ls.
