(* ===== verification/DnsNameFacts.v ===== *)
(** What the name component guarantees: both parsers produce exactly the
    names of legal label lists, parsing inverts printing and wire encoding,
    and the operations of the class are operations on label lists. *)
From stdpp Require Import base list numbers option strings.
From Stdlib Require Import ZArith Lia.
From S2P Require Import Prelude Buffer DnsName.

(** ** Tables *)
Lemma table_spec (f g : Z -> Z) c :
  forallb (fun n => f (Z.of_nat n) =? g (Z.of_nat n)) (seq 0 256) = true ->
  byte_ok c -> f c = g c.
Proof.
  intros Hall Hc. rewrite forallb_forall in Hall.
  specialize (Hall (Z.to_nat c)). rewrite Z2Nat.id in Hall by (unfold byte_ok in Hc; lia).
  apply Z.eqb_eq, Hall, in_seq. unfold byte_ok in Hc. lia.
Qed.

Lemma maptolower_spec c :
  byte_ok c -> maptolower c = if (65 <=? c) && (c <=? 90) then c + 32 else c.
Proof.
  intros Hc.
  apply (table_spec maptolower (fun c => if (65 <=? c) && (c <=? 90) then c + 32 else c));
    [vm_compute; reflexivity|done].
Qed.

Lemma digitvalue_spec c : byte_ok c -> isdigit c = true -> digitvalue c = c - 48.
Proof.
  intros Hc Hd.
  pose proof (table_spec (fun c => if isdigit c then digitvalue c else 0)
                (fun c => if isdigit c then c - 48 else 0) c) as H.
  simpl in H. rewrite Hd in H. apply H; [vm_compute; reflexivity|done].
Qed.

Lemma maptolower_byte c : byte_ok c -> byte_ok (maptolower c).
Proof.
  intros Hc. rewrite maptolower_spec by done. unfold byte_ok in *.
  destruct (Z.leb_spec 65 c), (Z.leb_spec c 90); simpl; lia.
Qed.

Lemma lower_byte d c : byte_ok c -> byte_ok (TextParser.lower d c).
Proof. unfold TextParser.lower. destruct d; [apply maptolower_byte|done]. Qed.

Lemma land_ff_byte c : byte_ok c -> Z.land c 0xff = c.
Proof. intros. rewrite land_255. apply Z.mod_small. done. Qed.

#[export] Hint Resolve maptolower_byte lower_byte : kea.

(** ** Label lists *)
Lemma labels_wire_app ls ms : labels_wire (ls ++ ms) = labels_wire ls ++ labels_wire ms.
Proof.
  induction ls as [|l ls IH]; [done|].
  cbn [labels_wire app]. rewrite IH. simpl. by rewrite <- app_assoc.
Qed.

Lemma labels_wire_snoc ls l : labels_wire (ls ++ [l]) = labels_wire ls ++ zlen l :: l.
Proof. rewrite labels_wire_app. simpl. by rewrite app_nil_r. Qed.

Lemma labels_offsets_snoc o ls l :
  labels_offsets o (ls ++ [l]) =
  labels_offsets o ls ++ [o + zlen (labels_wire ls) + 1 + zlen l].
Proof.
  revert o. induction ls as [|k ls IH]; intros o.
  - simpl. rewrite zlen_nil. do 2 f_equal. lia.
  - cbn [app labels_offsets labels_wire]. rewrite IH. simpl. do 3 f_equal.
    rewrite !zlen_cons, zlen_app. lia.
Qed.

Lemma labels_offsets_last o ls :
  last (labels_offsets o ls) = Some (o + zlen (labels_wire ls)).
Proof.
  induction ls as [|l ls _] using rev_ind.
  - simpl. f_equal. rewrite zlen_nil. lia.
  - rewrite labels_offsets_snoc, last_snoc, labels_wire_snoc. f_equal. zlia.
Qed.

Lemma labels_offsets_length o ls : zlen (labels_offsets o ls) = zlen ls + 1.
Proof.
  revert o. induction ls as [|l ls IH]; intros o; [done|].
  cbn [labels_offsets]. rewrite zlen_cons, IH, zlen_cons. lia.
Qed.

Lemma back_offsets ls : back (labels_offsets 0 ls) = Ok (zlen (labels_wire ls)).
Proof. unfold back. by rewrite labels_offsets_last. Qed.

Lemma label_ok_wire l : label_ok l -> bytes_ok (zlen l :: l).
Proof.
  intros [Hl Hb]. constructor; [|done]. unfold byte_ok, MAX_LABELLEN in *. lia.
Qed.

Lemma labels_wire_ok ls : Forall label_ok ls -> bytes_ok (labels_wire ls).
Proof.
  induction 1 as [|l ls Hl _ IH]; [constructor|].
  cbn [labels_wire]. apply bytes_ok_app. split; [by apply label_ok_wire|done].
Qed.

(** A label takes at least two bytes, so there are few of them. *)
Lemma labels_count ls : Forall label_ok ls -> 2 * zlen ls <= zlen (labels_wire ls).
Proof.
  induction 1 as [|l ls [Hl _] _ IH]; [done|].
  cbn [labels_wire]. zlia.
Qed.

Lemma zset_at_mid {A} (l r : list A) x y :
  zset_at (l ++ x :: r) (zlen l) y = Ok (l ++ y :: r).
Proof.
  unfold zset_at. rewrite decide_True by zlia.
  unfold zlen. rewrite Nat2Z.id, insert_app_r_alt by lia. by rewrite Nat.sub_diag.
Qed.

(** ** The text parser *)
Module TextParserFacts.
Import TextParser.

(** [ls] are the finished labels, [cur] the characters of the open one. *)
Definition shape (p : pst) (ls : list (list Z)) (cur : list Z) : Prop :=
  match state p with
  | ft_init => ls = [] /\ cur = [] /\ ndata p = [] /\ count p = 0
  | ft_start => cur = [] /\ ndata p = labels_wire ls
  | ft_ordinary =>
      ndata p = labels_wire ls ++ 0 :: cur /\ count p = zlen cur /\ 1 <= zlen cur <= 63
  | ft_initialescape => ndata p = labels_wire ls ++ [0] /\ count p = 0 /\ cur = []
  | ft_escape => ndata p = labels_wire ls ++ 0 :: cur /\ count p = zlen cur /\ zlen cur <= 63
  | ft_escdecimal =>
      ndata p = labels_wire ls ++ 0 :: cur /\ count p = zlen cur /\ zlen cur <= 63 /\
      1 <= digits p <= 2 /\ 0 <= value p < 10 ^ digits p
  end.

Definition running (p : pst) : Prop :=
  done_ p = false /\ zlen (ndata p) <= MAX_WIRE /\
  exists ls cur, Forall label_ok ls /\ bytes_ok cur /\
    offsets p = labels_offsets 0 ls /\ shape p ls cur.

Definition finished (p : pst) : Prop :=
  done_ p = true /\
  exists ls, labels_ok ls /\ offsets p = labels_offsets 0 ls /\ ndata p = labels_wire ls ++ [0].

(** The one way a step can hit an [assert]: a label opens at offset 254. *)
Definition at_limit (p : pst) : Prop := state p = ft_start /\ zlen (ndata p) = 254.

Definition step_post (p : pst) (r : result pst) : Prop :=
  match r with
  | Ok p' => running p' \/ finished p'
  | Throw e => is_kea e = true
  | Crash => at_limit p
  | NoFuel => False
  end.

(** Adding a character to the open label. *)
Lemma push_char_post d p0 p c ls cur :
  done_ p = false -> zlen (ndata p) < MAX_WIRE -> Forall label_ok ls -> bytes_ok cur ->
  offsets p = labels_offsets 0 ls -> ndata p = labels_wire ls ++ 0 :: cur ->
  count p = zlen cur -> byte_ok c -> step_post p0 (push_char d p c).
Proof.
  intros Hd Hlen Hls Hcur Hoff Hnd Hc Hbc. unfold push_char.
  destruct (Z.ltb_spec MAX_LABELLEN (count p + 1)) as [Hlt|Hge]; [done|].
  simpl. left. split; [done|]. split.
  - simpl. rewrite zlen_app, zlen_cons, zlen_nil. lia.
  - exists ls, (cur ++ [lower d c]). split_and!; try done.
    + apply bytes_ok_app. split; [done|]. repeat constructor; by apply lower_byte.
    + unfold shape. simpl. rewrite Hnd, <- app_assoc. split; [done|].
      unfold MAX_LABELLEN in Hge. zlia.
Qed.

(** Closing the open label at a dot. *)
Lemma close_label ls cur :
  Forall label_ok ls -> bytes_ok cur -> 1 <= zlen cur <= 63 ->
  zlen (labels_wire ls ++ 0 :: cur) <= MAX_WIRE ->
  zset_at (labels_wire ls ++ 0 :: cur) (zlen (labels_wire ls)) (u8 (zlen cur))
    = Ok (labels_wire (ls ++ [cur])) /\
  u8 (zlen (labels_wire (ls ++ [cur]))) = zlen (labels_wire (ls ++ [cur])) mod 256 /\
  labels_offsets 0 (ls ++ [cur]) =
    labels_offsets 0 ls ++ [u8 (zlen (labels_wire (ls ++ [cur])))] /\
  Forall label_ok (ls ++ [cur]) /\
  zlen (labels_wire (ls ++ [cur])) = zlen (labels_wire ls ++ 0 :: cur).
Proof.
  intros Hls Hcur Hlen Hw. unfold MAX_WIRE in Hw.
  assert (zlen (labels_wire (ls ++ [cur])) = zlen (labels_wire ls ++ 0 :: cur)) as Hz.
  { rewrite labels_wire_snoc. zlia. }
  split_and!.
  - rewrite zset_at_mid, labels_wire_snoc.
    rewrite u8_small by (unfold byte_ok; lia). done.
  - done.
  - rewrite labels_offsets_snoc. do 2 f_equal. rewrite Hz.
    rewrite u8_small by (unfold byte_ok; zlia). zlia.
  - apply Forall_app. split; [done|]. by apply Forall_singleton.
  - done.
Qed.

Lemma case_ordinary_post d p0 p c last ls cur :
  done_ p = false -> zlen (ndata p) < MAX_WIRE -> Forall label_ok ls -> bytes_ok cur ->
  offsets p = labels_offsets 0 ls -> ndata p = labels_wire ls ++ 0 :: cur ->
  count p = zlen cur -> zlen cur <= 63 -> (cur = [] -> c <> 92) -> byte_ok c ->
  step_post p0 (case_ordinary d p c last).
Proof.
  intros Hd Hlen Hls Hcur Hoff Hnd Hc Hc63 Hne Hbc. unfold case_ordinary.
  destruct (Z.eqb_spec c 46) as [->|H46].
  - destruct (Z.eqb_spec (count p) 0) as [H0|H0]; [done|].
    rewrite Hoff, back_offsets, Hnd. simpl mbind. rewrite Hc in *.
    destruct (close_label ls cur) as (-> & _ & Hos & Hok & Hz); [done|done|zlia|by rewrite <- Hnd; lia|].
    simpl mbind. rewrite <- Hos. destruct last.
    + right. split; [done|]. exists (ls ++ [cur]). split; [|done]. split; [done|].
      rewrite Hz, <- Hnd. lia.
    + left. split; [done|]. simpl. rewrite Hz, <- Hnd. split; [lia|].
      exists (ls ++ [cur]), []. split_and!; try done. constructor.
  - destruct (Z.eqb_spec c 92) as [->|H92].
    + left. split; [done|]. simpl. split; [lia|]. exists ls, cur. by split_and!.
    + by eapply push_char_post.
Qed.

Lemma case_escdecimal_post d p0 p c ls cur :
  done_ p = false -> zlen (ndata p) < MAX_WIRE -> Forall label_ok ls -> bytes_ok cur ->
  offsets p = labels_offsets 0 ls -> ndata p = labels_wire ls ++ 0 :: cur ->
  count p = zlen cur -> zlen cur <= 63 -> 0 <= digits p <= 2 ->
  0 <= value p < 10 ^ digits p -> byte_ok c -> step_post p0 (case_escdecimal d p c).
Proof.
  intros Hd Hlen Hls Hcur Hoff Hnd Hc Hc63 Hdig Hval Hbc. unfold case_escdecimal.
  rewrite land_ff_byte by done. destruct (isdigit c) eqn:Hdc; [|done]. simpl.
  assert (0 <= digitvalue c <= 9) as Hdv.
  { rewrite digitvalue_spec by done. unfold isdigit in Hdc. lia. }
  assert (10 ^ digits p <= 100) as H100.
  { assert (digits p = 0 \/ digits p = 1 \/ digits p = 2) as [-> |[-> | ->]] by lia; lia. }
  rewrite (u32_small (value p * 10)), u32_small by lia.
  assert (value p * 10 + digitvalue c < 10 ^ (digits p + 1)).
  { rewrite Z.pow_add_r by lia. lia. }
  destruct (Z.eqb_spec (digits p + 1) 3) as [H3|H3].
  - destruct (Z.ltb_spec 255 (value p * 10 + digitvalue c)); [done|]. simpl.
    eapply push_char_post; try done. unfold byte_ok. lia.
  - left. split; [done|]. split; [simpl; lia|]. exists ls, cur. split_and!; try done.
    unfold shape. simpl. split_and!; try done; lia.
Qed.

Lemma case_escape_post d p0 p c ls cur :
  done_ p = false -> zlen (ndata p) < MAX_WIRE -> Forall label_ok ls -> bytes_ok cur ->
  offsets p = labels_offsets 0 ls -> ndata p = labels_wire ls ++ 0 :: cur ->
  count p = zlen cur -> zlen cur <= 63 -> byte_ok c -> step_post p0 (case_escape d p c).
Proof.
  intros. unfold case_escape. destruct (negb _).
  - by eapply push_char_post.
  - by eapply case_escdecimal_post.
Qed.

Lemma case_start_post d p0 p c last ls :
  done_ p = false -> zlen (ndata p) < MAX_WIRE -> Forall label_ok ls ->
  offsets p = labels_offsets 0 ls -> ndata p = labels_wire ls ->
  (zlen (ndata p) = 254 -> at_limit p0) -> byte_ok c ->
  step_post p0 (case_start d p c last).
Proof.
  intros Hd Hlen Hls Hoff Hnd Hlim Hbc. unfold case_start, MAX_WIRE in *.
  destruct (Z.eqb_spec c 92) as [->|H92].
  - left. split; [done|]. split; [simpl; unfold MAX_WIRE; zlia|].
    exists ls, []. split_and!; try done; [constructor|]. unfold shape. simpl.
    by rewrite Hnd.
  - destruct (Z.ltb_spec (zlen (ndata p ++ [0])) 255) as [Hlt|Hge]; simpl.
    + eapply (case_ordinary_post d _ _ _ _ ls []); simpl; unfold MAX_WIRE; try done.
      * constructor.
      * by rewrite Hnd.
    + apply Hlim. rewrite zlen_app, zlen_cons, zlen_nil in Hge. lia.
Qed.

Lemma step_ok d p c last :
  running p -> zlen (ndata p) < MAX_WIRE -> byte_ok c -> step_post p (step d p c last).
Proof.
  intros (Hd & Hle & ls & cur & Hls & Hcur & Hoff & Hsh) Hlen Hbc.
  unfold step, shape in *. destruct (state p) eqn:Est.
  - destruct Hsh as (-> & -> & Hnd & Hc). unfold case_init.
    destruct ((c =? 46) && negb last); [done|]. simpl.
    destruct ((c =? 46) || (c =? 64) && last).
    + right. split; [done|]. exists []. split; [|by rewrite Hoff, Hnd].
      split; [constructor|]. by vm_compute.
    + eapply (case_start_post d _ _ _ _ []); try done. by rewrite Hnd.
  - destruct Hsh as [-> Hnd]. by eapply case_start_post.
  - destruct Hsh as (Hnd & Hc & Hr). eapply (case_ordinary_post d _ _ _ _ ls cur); try done.
    + lia.
    + intros ->. rewrite zlen_nil in Hr. lia.
  - destruct Hsh as (Hnd & Hc & ->). unfold case_initialescape.
    destruct (c =? 91); [done|]. simpl. eapply (case_escape_post d _ _ _ ls []); try done.
  - destruct Hsh as (Hnd & Hc & Hr). by eapply (case_escape_post d _ _ _ ls cur).
  - destruct Hsh as (Hnd & Hc & Hr & Hdg & Hv).
    eapply (case_escdecimal_post d _ _ _ ls cur); try done. lia.
Qed.

Lemma running_init : running init_pst.
Proof.
  split; [done|]. split; [by vm_compute|]. exists [], []. split_and!; try constructor; done.
Qed.

Definition loop_post (r : result (pst * list Z)) : Prop :=
  match r with
  | Ok (p, s) => finished p \/ (running p /\ (s = [] \/ zlen (ndata p) = MAX_WIRE))
  | Throw e => is_kea e = true
  | Crash => True
  | NoFuel => False
  end.

Lemma loop_ok d s p : bytes_ok s -> running p -> loop_post (loop d p s).
Proof.
  revert p. induction s as [|c s IH]; intros p Hs Hp; [by right; auto|].
  apply bytes_ok_cons in Hs as [Hc Hs]. cbn [loop].
  destruct (Z.ltb_spec (zlen (ndata p)) MAX_WIRE) as [Hlt|Hge]; simpl andb.
  - rewrite (proj1 Hp). simpl negb. cbv iota.
    pose proof (step_ok d p c (is_nil s) Hp Hlt Hc) as Hst.
    destruct (step d p c (is_nil s)) as [p'|e| |]; try done. simpl mbind.
    destruct Hst as [Hr|Hf]; [by apply IH|].
    destruct s as [|c' s']; [by left|]. cbn [loop]. rewrite (proj1 Hf). simpl negb.
    rewrite andb_false_r. by left.
  - right. split; [done|]. right. destruct Hp as (_ & Hle & _). lia.
Qed.

(** Every accepted text is the name of a legal label list, every rejection is
    a [kea::Exception]. *)
Lemma stringParse_ok d s :
  bytes_ok s ->
  match stringParse d s with
  | Ok (os, nd) => exists ls, labels_ok ls /\ os = labels_offsets 0 ls /\ nd = labels_wire ls ++ [0]
  | Throw e => is_kea e = true
  | Crash => True
  | NoFuel => False
  end.
Proof.
  intros Hs. unfold stringParse. pose proof (loop_ok d s init_pst Hs running_init) as Hl.
  destruct (loop d init_pst s) as [[p rest]|e| |]; try done. simpl mbind.
  unfold finish. destruct Hl as [(Hd & ls & Hok & Ho & Hn)|[(Hd & Hle & ls & cur & Hls & Hcur & Hoff & Hsh) _]].
  { rewrite Hd. eauto. }
  rewrite Hd. destruct (Z.eqb_spec (zlen (ndata p)) MAX_WIRE) as [|Hne]; [done|]. simpl.
  destruct (is_nil rest); [|done]. simpl.
  case_bool_decide as Hst; [|done]. simpl. unfold shape in Hsh. rewrite Hst in Hsh.
  destruct Hsh as (Hnd & Hc & Hr). destruct (count p =? 0); [done|]. simpl.
  rewrite Hoff, back_offsets, Hnd. simpl mbind.
  destruct (close_label ls cur) as (E & _ & Hos & Hok & Hz); [done..|by rewrite <- Hnd|].
  rewrite Hc, E. simpl mbind. rewrite <- Hos. exists (ls ++ [cur]). split; [|done].
  split; [done|]. rewrite Hz, <- Hnd. lia.
Qed.

(** *** Short texts never reach the assertion *)
Definition open_ (p : pst) : Z :=
  match state p with ft_init | ft_start => 0 | _ => 1 end.

Lemma zset_at_len {A} (l l' : list A) i x : zset_at l i x = Ok l' -> zlen l' = zlen l.
Proof.
  unfold zset_at. case_decide; [|done]. intros [= <-]. unfold zlen. by rewrite length_insert.
Qed.

Lemma push_char_size d p c p' :
  push_char d p c = Ok p' -> state p' = ft_ordinary /\ zlen (ndata p') = zlen (ndata p) + 1.
Proof.
  unfold push_char. intros H. apply bind_ok in H as ([] & _ & [= <-]).
  split; [done|]. simpl. zlia.
Qed.

Lemma case_ordinary_size d p c last p' :
  case_ordinary d p c last = Ok p' -> done_ p' = false ->
  zlen (ndata p') - open_ p' <= zlen (ndata p).
Proof.
  unfold case_ordinary. destruct (c =? 46).
  - intros H Hd. apply bind_ok in H as ([] & _ & H). apply bind_ok in H as (b & _ & H).
    apply bind_ok in H as (nd & Hnd & H). apply zset_at_len in Hnd.
    destruct last; simplify_eq. unfold open_. simpl. lia.
  - destruct (c =? 92).
    + intros [= <-] _. unfold open_. simpl. lia.
    + intros H _. apply push_char_size in H as [Hs Hl]. unfold open_. rewrite Hs. lia.
Qed.

Lemma case_escdecimal_size d p c p' :
  case_escdecimal d p c = Ok p' -> zlen (ndata p') - open_ p' <= zlen (ndata p).
Proof.
  unfold case_escdecimal. intros H. apply bind_ok in H as ([] & _ & H).
  case_match.
  - apply bind_ok in H as ([] & _ & H). apply push_char_size in H as [Hs Hl].
    unfold open_. rewrite Hs, Hl. simpl. lia.
  - simplify_eq. unfold open_. simpl. lia.
Qed.

Lemma case_escape_size d p c p' :
  case_escape d p c = Ok p' -> zlen (ndata p') - open_ p' <= zlen (ndata p).
Proof.
  unfold case_escape. destruct (negb _).
  - intros H. apply push_char_size in H as [Hs Hl]. unfold open_. rewrite Hs. lia.
  - intros H. by apply case_escdecimal_size in H.
Qed.

Lemma case_start_size d p c last p' :
  case_start d p c last = Ok p' -> done_ p' = false ->
  zlen (ndata p') - open_ p' <= zlen (ndata p) + 1.
Proof.
  unfold case_start. destruct (c =? 92).
  - intros [= <-] _. unfold open_. simpl. zlia.
  - intros H Hd. apply bind_ok in H as ([] & _ & H).
    apply case_ordinary_size in H; [|done]. simpl in H. zlia.
Qed.

Lemma step_size d p c last p' :
  step d p c last = Ok p' -> done_ p' = false ->
  zlen (ndata p') - open_ p' <= zlen (ndata p) - open_ p + 1.
Proof.
  unfold step, open_ at 2. destruct (state p); intros H Hd.
  - unfold case_init in H. apply bind_ok in H as ([] & _ & H).
    case_match; [by simplify_eq|]. apply case_start_size in H; [|done]. lia.
  - apply case_start_size in H; [|done]. lia.
  - apply case_ordinary_size in H; [|done]. lia.
  - unfold case_initialescape in H. apply bind_ok in H as ([] & _ & H).
    apply case_escape_size in H. lia.
  - apply case_escape_size in H. lia.
  - apply case_escdecimal_size in H. lia.
Qed.

Lemma loop_no_crash d s p :
  bytes_ok s -> running p -> zlen (ndata p) - open_ p + zlen s <= 254 -> loop d p s <> Crash.
Proof.
  revert p. induction s as [|c s IH]; intros p Hs Hp Hk; [done|].
  apply bytes_ok_cons in Hs as [Hc Hs]. cbn [loop].
  destruct (Z.ltb_spec (zlen (ndata p)) MAX_WIRE) as [Hlt|Hge]; simpl andb; [|done].
  rewrite (proj1 Hp). simpl negb. cbv iota.
  pose proof (step_ok d p c (is_nil s) Hp Hlt Hc) as Hst.
  destruct (step d p c (is_nil s)) as [p'|e| |] eqn:E; try done; simpl mbind.
  - destruct Hst as [Hr|Hf].
    + apply IH; [done..|]. apply step_size in E; [|apply Hr]. zlia.
    + destruct s as [|c' s']; [done|]. cbn [loop]. rewrite (proj1 Hf). simpl negb.
      by rewrite andb_false_r.
  - destruct Hst as [Hst Hl]. unfold open_ in Hk. rewrite Hst in Hk. zlia.
Qed.

Lemma stringParse_no_crash d s :
  bytes_ok s -> zlen s <= 254 -> stringParse d s <> Crash.
Proof.
  intros Hs Hlen. unfold stringParse.
  pose proof (loop_ok d s init_pst Hs running_init) as Hl.
  pose proof (loop_no_crash d s init_pst Hs running_init) as Hn.
  destruct (loop d init_pst s) as [[p rest]|e| |]; try done; simpl mbind;
    [|destruct Hn; [change (0 - 0 + zlen s <= 254); lia|done]].
  unfold finish. destruct Hl as [[Hd _]|[(Hd & Hle & ls & cur & Hls & Hcur & Hoff & Hsh) Hend]];
    rewrite Hd; [done|].
  destruct (Z.eqb_spec (zlen (ndata p)) MAX_WIRE) as [|Hne]; [done|]. simpl.
  destruct Hend as [->|]; [|done]. simpl.
  case_bool_decide as Hst; [|done]. simpl. unfold shape in Hsh. rewrite Hst in Hsh.
  destruct Hsh as (Hnd & Hc & Hr). destruct (Z.eqb_spec (count p) 0); [lia|]. simpl.
  rewrite Hoff, back_offsets, Hnd. simpl mbind.
  destruct (close_label ls cur) as (E & _); [done..|by rewrite <- Hnd|].
  by rewrite Hc, E.
Qed.

End TextParserFacts.

Lemma Name_from_text_wf s d name :
  bytes_ok s -> Name_from_text s d = Ok name -> name_wf name.
Proof.
  intros Hs H. unfold Name_from_text in H. pose proof (TextParserFacts.stringParse_ok d s Hs) as Hp.
  destruct (TextParser.stringParse d s) as [[os nd]|e| |]; try done. simpl mbind in H.
  destruct Hp as (ls & Hok & -> & ->).
  destruct ((0 <? zlen (labels_offsets 0 ls)) && _); [|done]. simpl in H. simplify_eq.
  exists ls. split; [done|]. unfold of_labels. by rewrite labels_offsets_length.
Qed.

Lemma labels_ok_count ls : labels_ok ls -> zlen ls + 1 <= MAX_LABELS.
Proof.
  intros [Hf Hw]. apply labels_count in Hf. unfold MAX_WIRE, MAX_LABELS in *. lia.
Qed.

Lemma Name_from_text_kea s d :
  bytes_ok s -> zlen s <= 254 -> kea_ok (Name_from_text s d).
Proof.
  intros Hs Hl. unfold Name_from_text. pose proof (TextParserFacts.stringParse_ok d s Hs) as Hp.
  pose proof (TextParserFacts.stringParse_no_crash d s Hs Hl) as Hn.
  destruct (TextParser.stringParse d s) as [[os nd]|e| |]; try done. simpl mbind.
  destruct Hp as (ls & Hok & -> & ->). pose proof (labels_ok_count _ Hok).
  rewrite labels_offsets_length. pose proof (zlen_nonneg ls).
  rewrite (proj2 (Z.ltb_lt _ _)), (proj2 (Z.leb_le _ _)) by lia. done.
Qed.

(** ** Printing *)
Fixpoint dotted (ls : list (list Z)) : list Z :=
  match ls with
  | [] => []
  | [l] => LabelSequence.label_text l
  | l :: ls => LabelSequence.label_text l ++ [46] ++ dotted ls
  end.

(** The text of a label list, with or without the final dot. *)
Definition labels_text (ls : list (list Z)) (omit_final_dot : bool) : list Z :=
  match ls with
  | [] => [46]
  | _ => dotted ls ++ (if omit_final_dot then [] else [46])
  end.

Section Printing.
Import LabelSequence.

Lemma char_text_nonempty c : char_text c <> [].
Proof. unfold char_text. by repeat case_match. Qed.

Lemma label_text_nonempty l : l <> [] -> label_text l <> [].
Proof.
  destruct l as [|c l]; [done|]. intros _. unfold label_text. simpl.
  pose proof (char_text_nonempty c). by destruct (char_text c).
Qed.

(** What is printed after [acc]: a separating dot unless nothing was printed. *)
Definition sep (acc : list Z) : list Z := if TextParser.is_nil acc then [] else [46].

Fixpoint text_rest (ls : list (list Z)) (omit : bool) (acc : list Z) : list Z :=
  match ls with
  | [] => if negb omit || TextParser.is_nil acc then acc ++ [46] else acc
  | l :: ls => text_rest ls omit ((acc ++ sep acc) ++ label_text l)
  end.

Lemma text_loop_labels ls fuel omit n acc :
  Forall label_ok ls -> (length ls < fuel)%nat ->
  text_loop fuel omit (labels_wire ls ++ [0]) n acc =
  Ok ([], n - zlen ls - 1, text_rest ls omit acc).
Proof.
  revert fuel n acc. induction ls as [|l ls IH]; intros [|fuel] n acc Hls Hf; simpl in Hf; try lia.
  - simpl. by rewrite zlen_nil, Z.sub_0_r.
  - apply Forall_cons_iff in Hls as [[Hl Hb] Hls].
    cbn [labels_wire]. rewrite <- app_assoc. cbn [text_loop app].
    rewrite (proj2 (Z.eqb_neq _ _)) by lia. rewrite (proj2 (Z.leb_le _ _)) by lia.
    rewrite zlen_app, (proj2 (Z.leb_le (zlen l) _)) by zlia. simpl assert_. simpl mbind.
    rewrite to_nat_zlen, drop_app_length, take_app_length.
    rewrite IH by (done || lia). do 2 f_equal; [f_equal; zlia|].
    cbn [text_rest]. unfold sep. do 2 f_equal.
    by destruct (TextParser.is_nil acc); rewrite ?app_nil_r.
Qed.

Lemma is_nil_app (l k : list Z) : k <> [] -> TextParser.is_nil (l ++ k) = false.
Proof. destruct l, k; done. Qed.

Lemma text_rest_nonnil ls omit acc :
  Forall label_ok ls -> acc <> [] ->
  text_rest ls omit acc =
  acc ++ (match ls with [] => [] | _ => [46] ++ dotted ls end) ++ (if omit then [] else [46]).
Proof.
  revert acc. induction ls as [|l ls IH]; intros acc Hls Hacc.
  - simpl. assert (TextParser.is_nil acc = false) as -> by (by destruct acc).
    destruct omit; simpl; [by rewrite !app_nil_r|done].
  - apply Forall_cons_iff in Hls as [[Hl _] Hls]. cbn [text_rest].
    assert (label_text l <> []) as Hne.
    { apply label_text_nonempty. intros ->. rewrite zlen_nil in Hl. lia. }
    assert (sep acc = [46]) as -> by (unfold sep; by destruct acc).
    rewrite IH by (done || (intros [_ E]%app_nil; done)).
    destruct ls as [|l' ls]; simpl; by rewrite <- !app_assoc.
Qed.

Lemma text_rest_labels ls omit :
  Forall label_ok ls -> text_rest ls omit [] = labels_text ls omit.
Proof.
  destruct ls as [|l ls]; intros Hls.
  - simpl. by rewrite orb_true_r.
  - apply Forall_cons_iff in Hls as [[Hl _] Hls]. cbn [text_rest].
    assert (label_text l <> []) as Hne.
    { apply label_text_nonempty. intros ->. rewrite zlen_nil in Hl. lia. }
    change (([] ++ sep []) ++ label_text l) with (label_text l).
    rewrite text_rest_nonnil by done. unfold labels_text.
    destruct ls as [|l' ls]; [done|]. cbn [dotted]. by rewrite <- !app_assoc.
Qed.

Lemma labels_offsets_lookup_last ls :
  zget (labels_offsets 0 ls) (zlen ls) = Ok (zlen (labels_wire ls)).
Proof.
  pose proof (labels_offsets_length 0 ls) as Hl. pose proof (labels_offsets_last 0 ls) as Hx.
  rewrite last_lookup in Hx. unfold zlen in *. unfold zget.
  rewrite decide_True by lia. rewrite Nat2Z.id.
  replace (Init.Nat.pred (length (labels_offsets 0 ls))) with (length ls) in Hx by lia.
  by rewrite Hx.
Qed.

Lemma of_name_data ls :
  Forall label_ok ls -> getData (of_name (of_labels ls)) = Ok (labels_wire ls ++ [0]).
Proof.
  intros Hls. unfold getData, getDataLength, of_name. cbn [loffsets_ data_ last_label_ first_label_
    of_labels offsets_ ndata_ labelcount_].
  rewrite Z.add_simpl_r, labels_offsets_lookup_last. simpl mbind.
  rewrite InputBufferFacts.zget_view. simpl mbind.
  assert (zget (labels_offsets 0 ls) 0 = Ok 0) as -> by (by destruct ls). simpl mbind.
  replace (zlen (labels_wire ls) - 0 + (0 + 1)) with (zlen (labels_wire ls ++ [0])) by zlia.
  apply slice_all.
Qed.

Lemma of_labels_toText ls omit :
  Forall label_ok ls -> Name_toText (of_labels ls) omit = Ok (labels_text ls omit).
Proof.
  intros Hls. unfold Name_toText, toText_omit. rewrite of_name_data, bind_Ok by done.
  assert (length ls < S (length (labels_wire ls ++ [0%Z])))%nat as Hf.
  { pose proof (labels_count _ Hls). rewrite length_app. unfold zlen in *. lia. }
  rewrite text_loop_labels, bind_Ok by done.
  unfold getLabelCount, of_name. simpl. rewrite text_rest_labels by done.
  rewrite (proj2 (Z.eqb_eq _ _)) by lia. done.
Qed.

End Printing.

(** ** Parsing what was printed *)
Module TextRoundTrip.
Import TextParser.

(** The open label is [cur], at least one character of it was stored. *)
Record ord (ls : list (list Z)) (cur : list Z) (p : pst) : Prop := MkOrd {
  ord_state : state p = ft_ordinary;
  ord_count : count p = zlen cur;
  ord_ndata : ndata p = labels_wire ls ++ 0 :: cur;
  ord_offsets : offsets p = labels_offsets 0 ls;
  ord_done : done_ p = false }.

(** A backslash was read. *)
Record escaped (ls : list (list Z)) (cur : list Z) (p : pst) : Prop := MkEscaped {
  esc_state : state p = ft_escape \/ state p = ft_initialescape;
  esc_count : count p = zlen cur;
  esc_ndata : ndata p = labels_wire ls ++ 0 :: cur;
  esc_offsets : offsets p = labels_offsets 0 ls;
  esc_done : done_ p = false }.

(** The next character opens a label. *)
Record opening (ls : list (list Z)) (p : pst) : Prop := MkOpening {
  op_state : state p = ft_start \/ (state p = ft_init /\ ls = []);
  op_ndata : ndata p = labels_wire ls;
  op_offsets : offsets p = labels_offsets 0 ls;
  op_done : done_ p = false }.

(** Room for one more character in the open label and in the name. *)
Definition room (ls : list (list Z)) (cur : list Z) : Prop :=
  zlen cur < 63 /\ zlen (labels_wire ls) + 1 + zlen cur < 254.

Section RoundTrip.
Variable d : bool.

Lemma loop_step p c s p' :
  done_ p = false -> zlen (ndata p) < MAX_WIRE -> step d p c (is_nil s) = Ok p' ->
  loop d p (c :: s) = loop d p' s.
Proof.
  intros Hd Hl Hs. cbn [loop]. rewrite (proj2 (Z.ltb_lt _ _)) by done.
  rewrite Hd. simpl. by rewrite Hs.
Qed.

Lemma push_char_ord ls cur p c :
  count p = zlen cur -> ndata p = labels_wire ls ++ 0 :: cur ->
  offsets p = labels_offsets 0 ls -> done_ p = false -> room ls cur ->
  exists p', push_char d p c = Ok p' /\ ord ls (cur ++ [lower d c]) p'.
Proof.
  intros Hc Hn Ho Hd [Hr _]. unfold push_char. eexists. split.
  - rewrite (proj2 (Z.ltb_ge _ _)) by (unfold MAX_LABELLEN; lia). done.
  - constructor; simpl; try done; [zlia|]. by rewrite Hn, <- app_assoc.
Qed.

Lemma room_wire ls cur : room ls cur -> zlen (labels_wire ls ++ 0 :: cur) < MAX_WIRE.
Proof. intros [_ ?]. unfold MAX_WIRE. zlia. Qed.

Lemma isdigit_digit k : 0 <= k < 10 -> isdigit (48 + k) = true.
Proof. intros. unfold isdigit. lia. Qed.

Lemma escdecimal_step p k :
  0 <= k < 10 -> 0 <= value p < 100 -> digits p < 2 ->
  case_escdecimal d p (48 + k) =
  Ok (MkPst ft_escdecimal (digits p + 1) (value p * 10 + k) (count p) (ndata p) (offsets p) (done_ p)).
Proof.
  intros Hk Hv Hd. unfold case_escdecimal.
  assert (byte_ok (48 + k)) by (unfold byte_ok; lia).
  rewrite land_ff_byte, isdigit_digit by done. simpl.
  rewrite digitvalue_spec by (done || by apply isdigit_digit).
  rewrite (u32_small (value p * 10)), u32_small by lia.
  rewrite (proj2 (Z.eqb_neq _ _)) by lia. do 2 f_equal. lia.
Qed.

(** The three digits of an escape rebuild the character. *)
Lemma escape_decimal ls cur p c rest :
  escaped ls cur p -> byte_ok c -> room ls cur ->
  exists p', ord ls (cur ++ [lower d c]) p' /\
    loop d p (48 + (c / 100) mod 10 :: 48 + (c / 10) mod 10 :: 48 + c mod 10 :: rest) =
    loop d p' rest.
Proof.
  intros [Hst Hc Hn Ho Hd] Hb Hr. unfold byte_ok in Hb.
  pose proof (room_wire _ _ Hr) as Hw.
  assert (0 <= (c / 100) mod 10 < 10 /\ 0 <= (c / 10) mod 10 < 10 /\ 0 <= c mod 10 < 10)
    as (H1 & H2 & H3) by (split_and!; apply Z.mod_pos_bound; lia).
  assert (c = (c / 100) mod 10 * 100 + (c / 10) mod 10 * 10 + c mod 10) as Hsum.
  { replace (c / 100) with (c / 10 / 10) by (rewrite Z.div_div by lia; done).
    pose proof (Z.div_mod c 10). pose proof (Z.div_mod (c / 10) 10).
    rewrite (Z.mod_small (c / 10 / 10)); [lia|].
    split; [apply Z.div_pos; [apply Z.div_pos; lia|lia]|].
    rewrite Z.div_div by lia. apply Z.div_lt_upper_bound; lia. }
  remember ((c / 100) mod 10) as a. remember ((c / 10) mod 10) as b. remember (c mod 10) as e.
  set (p1 := MkPst ft_escdecimal 1 a (count p) (ndata p) (offsets p) (done_ p)).
  set (p2 := MkPst ft_escdecimal 2 (a * 10 + b) (count p) (ndata p) (offsets p) (done_ p)).
  set (p3 := MkPst ft_escdecimal 3 c (count p) (ndata p) (offsets p) (done_ p)).
  destruct (push_char_ord ls cur p3 c) as (p' & Hp & Hord); [done..|].
  exists p'. split; [done|].
  rewrite (loop_step p _ _ p1); [|done|by rewrite Hn|].
  2:{ assert (step d p (48 + a) (is_nil (48 + b :: 48 + e :: rest)) = case_escape d p (48 + a)) as ->.
      { unfold step. destruct Hst as [-> | ->]; [done|]. unfold case_initialescape.
        rewrite (proj2 (Z.eqb_neq _ _)) by lia. done. }
      unfold case_escape. rewrite land_ff_byte by (unfold byte_ok; lia).
      rewrite isdigit_digit by done. simpl negb. cbv iota.
      rewrite escdecimal_step by (simpl; lia). done. }
  rewrite (loop_step p1 _ _ p2); [|done|simpl; by rewrite Hn|].
  2:{ unfold step. cbn [state p1]. rewrite escdecimal_step by (simpl; lia). done. }
  rewrite (loop_step p2 _ _ p'); [done|done|simpl; by rewrite Hn|].
  unfold step. cbn [state p2]. unfold case_escdecimal.
  rewrite land_ff_byte by (unfold byte_ok; lia). rewrite isdigit_digit by done.
  rewrite digitvalue_spec by (by apply isdigit_digit || (unfold byte_ok; lia)).
  cbn [negb throw_if mbind result_bind value digits count ndata offsets done_ p2].
  rewrite (u32_small ((a * 10 + b) * 10)), u32_small by lia.
  replace ((a * 10 + b) * 10 + (48 + e - 48)) with c by lia.
  rewrite (proj2 (Z.ltb_ge _ _)) by lia. apply Hp.
Qed.

Lemma escape_special ls cur p c rest :
  escaped ls cur p -> LabelSequence.special c = true -> room ls cur ->
  exists p', ord ls (cur ++ [lower d c]) p' /\ loop d p (c :: rest) = loop d p' rest.
Proof.
  intros [Hst Hc Hn Ho Hd] Hs Hr. pose proof (room_wire _ _ Hr) as Hw.
  destruct (push_char_ord ls cur p c) as (p' & Hp & Hord); [done..|].
  exists p'. split; [done|]. apply loop_step; [done|by rewrite Hn|].
  assert (c <> 91 /\ negb (isdigit (Z.land c 0xff)) = true) as [H91 Hnd].
  { unfold LabelSequence.special in Hs.
    repeat (apply orb_prop in Hs as [Hs|Hs]); apply Z.eqb_eq in Hs; subst c; done. }
  unfold step. destruct Hst as [-> | ->]; unfold case_initialescape, case_escape.
  - by rewrite Hnd.
  - rewrite (proj2 (Z.eqb_neq _ _)) by done. simpl. by rewrite Hnd.
Qed.

(** [char_text c] is a backslash escape or [c] itself. *)
Lemma char_text_parse ls cur p c rest :
  byte_ok c -> room ls cur -> zlen (ndata p) < MAX_WIRE -> done_ p = false ->
  (exists p1, escaped ls cur p1 /\ forall last, step d p 92 last = Ok p1) ->
  (LabelSequence.special c = false -> 32 < c < 127 ->
   forall last, exists p', step d p c last = Ok p' /\ ord ls (cur ++ [lower d c]) p') ->
  exists p', ord ls (cur ++ [lower d c]) p' /\
    loop d p (LabelSequence.char_text c ++ rest) = loop d p' rest.
Proof.
  intros Hb Hr Hl Hd (p1 & Hesc & Hstep) Hplain. unfold LabelSequence.char_text.
  destruct (LabelSequence.special c) eqn:Hs.
  - destruct (escape_special ls cur p1 c rest) as (p' & Ho & E); [done..|].
    exists p'. split; [done|]. cbn [app]. erewrite loop_step; [exact E|done..|apply Hstep].
  - destruct ((32 <? c) && (c <? 127)) eqn:Hp.
    + destruct (Hplain eq_refl ltac:(lia) (is_nil rest)) as (p' & E & Ho). exists p'. split; [done|].
      by apply loop_step.
    + destruct (escape_decimal ls cur p1 c rest) as (p' & Ho & E); [done..|].
      exists p'. split; [done|]. cbn [app]. erewrite loop_step; [exact E|done..|apply Hstep].
Qed.

Lemma special_false c :
  LabelSequence.special c = false -> c <> 46 /\ c <> 92 /\ c <> 64.
Proof. unfold LabelSequence.special. intros. lia. Qed.

Lemma char_ord ls cur p c rest :
  ord ls cur p -> byte_ok c -> room ls cur ->
  exists p', ord ls (cur ++ [lower d c]) p' /\
    loop d p (LabelSequence.char_text c ++ rest) = loop d p' rest.
Proof.
  intros [Hst Hc Hn Ho Hd] Hb Hr. apply char_text_parse; [done..|by rewrite Hn; apply room_wire|done| |].
  - eexists. split; [|intros last; unfold step; rewrite Hst; reflexivity]. by constructor; auto.
  - intros Hs%special_false Hrange last.
    destruct (push_char_ord ls cur p c) as (p' & Hp & Hord); [done..|].
    exists p'. split; [|done]. unfold step. rewrite Hst. unfold case_ordinary.
    by rewrite !(proj2 (Z.eqb_neq _ _)) by lia.
Qed.

Lemma char_open ls p c rest :
  opening ls p -> byte_ok c -> zlen (labels_wire ls) < 253 ->
  exists p', ord ls [lower d c] p' /\
    loop d p (LabelSequence.char_text c ++ rest) = loop d p' rest.
Proof.
  intros [Hst Hn Ho Hd] Hb Hr.
  assert (room ls []) as Hroom by (split; rewrite zlen_nil; lia).
  assert (forall k last, k <> 46 -> k <> 64 -> step d p k last = case_start d p k last) as Hstep.
  { intros k last H46 H64. unfold step. destruct Hst as [-> | [-> _]]; [done|]. unfold case_init.
    by rewrite !(proj2 (Z.eqb_neq k _)) by lia. }
  apply (char_text_parse ls []); [done..|by rewrite Hn; unfold MAX_WIRE; lia|done| |].
  - exists (MkPst ft_initialescape (digits p) (value p) 0 (ndata p ++ [0]) (offsets p) (done_ p)).
    split; [|intros last; by rewrite Hstep by lia].
    constructor; simpl; auto. by rewrite Hn.
  - intros Hs%special_false Hrange last. rewrite Hstep by lia.
    unfold case_start, case_ordinary. rewrite !(proj2 (Z.eqb_neq _ _)) by lia.
    rewrite (proj2 (Z.ltb_lt _ _)) by (rewrite Hn; unfold MAX_WIRE; zlia). simpl.
    apply (push_char_ord ls []); simpl; try done. by rewrite Hn.
Qed.

Lemma label_chars ls cs cur p rest :
  ord ls cur p -> bytes_ok cs -> zlen (cur ++ cs) <= 63 ->
  zlen (labels_wire ls) + 1 + zlen (cur ++ cs) <= 254 ->
  exists p', ord ls (cur ++ (lower d <$> cs)) p' /\
    loop d p (LabelSequence.label_text cs ++ rest) = loop d p' rest.
Proof.
  revert cur p. induction cs as [|c cs IH]; intros cur p Ho Hb Hl Hw.
  - exists p. by rewrite app_nil_r.
  - apply bytes_ok_cons in Hb as [Hc Hb].
    unfold LabelSequence.label_text. cbn [fmap list_fmap concat]. rewrite <- app_assoc.
    destruct (char_ord ls cur p c (LabelSequence.label_text cs ++ rest)) as (p1 & Ho1 & E1);
      [done..|split; zlia|].
    destruct (IH (cur ++ [lower d c]) p1) as (p2 & Ho2 & E2); [done..|zlia|zlia|].
    exists p2. split; [by rewrite <- app_assoc in Ho2|]. by rewrite <- E2, <- E1.
Qed.

Lemma label_parse ls l p rest :
  opening ls p -> label_ok l -> zlen (labels_wire (ls ++ [l])) <= 254 ->
  exists p', ord ls (lower d <$> l) p' /\
    loop d p (LabelSequence.label_text l ++ rest) = loop d p' rest.
Proof.
  intros Hop [Hl Hb] Hw. destruct l as [|c cs]; [rewrite zlen_nil in Hl; lia|].
  apply bytes_ok_cons in Hb as [Hc Hb]. rewrite labels_wire_snoc in Hw. unfold MAX_LABELLEN in Hl.
  unfold LabelSequence.label_text. cbn [fmap list_fmap concat]. rewrite <- app_assoc.
  destruct (char_open ls p c (LabelSequence.label_text cs ++ rest)) as (p1 & Ho1 & E1);
    [done..|zlia|].
  destruct (label_chars ls cs [lower d c] p1 rest) as (p2 & Ho2 & E2);
    [done..|zlia|zlia|]. exists p2. split; [done|]. by rewrite <- E2, <- E1.
Qed.

Lemma dot_parse ls cur p rest :
  ord ls cur p -> Forall label_ok ls -> label_ok cur -> zlen (labels_wire (ls ++ [cur])) < 255 ->
  exists p', loop d p (46 :: rest) = loop d p' rest /\
    if is_nil rest
    then finish p' [] = Ok (labels_offsets 0 (ls ++ [cur]), labels_wire (ls ++ [cur]) ++ [0])
    else opening (ls ++ [cur]) p'.
Proof.
  intros [Hst Hc Hn Ho Hd] Hls [Hl Hb] Hw. unfold MAX_LABELLEN in Hl.
  assert (zlen (ndata p) < 255) as Hlen by (rewrite labels_wire_snoc in Hw; rewrite Hn; zlia).
  destruct (TextParserFacts.close_label ls cur) as (E & _ & Hos & _ & _); [done..| |].
  { rewrite <- Hn. unfold MAX_WIRE. lia. }
  eexists. split.
  - apply loop_step; [done..|]. unfold step. rewrite Hst. unfold case_ordinary.
    rewrite Z.eqb_refl, Hc, (proj2 (Z.eqb_neq _ _)), Ho, back_offsets, Hn by lia.
    cbn [throw_if]. rewrite !bind_Ok, E, bind_Ok, <- Hos.
    instantiate (1 := if is_nil rest then _ else _). destruct (is_nil rest); reflexivity.
  - destruct (is_nil rest); [done|]. constructor; auto.
Qed.

Lemma finish_ord ls cur p :
  ord ls cur p -> Forall label_ok ls -> label_ok cur -> zlen (labels_wire (ls ++ [cur])) < 255 ->
  finish p [] = Ok (labels_offsets 0 (ls ++ [cur]), labels_wire (ls ++ [cur]) ++ [0]).
Proof.
  intros [Hst Hc Hn Ho Hd] Hls [Hl Hb] Hw. unfold MAX_LABELLEN in Hl.
  assert (zlen (ndata p) < 255) as Hlen by (rewrite labels_wire_snoc in Hw; rewrite Hn; zlia).
  destruct (TextParserFacts.close_label ls cur) as (E & _ & Hos & _ & _); [done..| |].
  { rewrite <- Hn. unfold MAX_WIRE. lia. }
  unfold finish. rewrite Hd, (proj2 (Z.eqb_neq _ MAX_WIRE)) by (unfold MAX_WIRE; lia).
  rewrite Hst, Hc, (proj2 (Z.eqb_neq _ 0)) by lia. cbn [throw_if assert_ is_nil negb].
  rewrite bool_decide_eq_true_2 by done. cbn [throw_if negb].
  by rewrite !bind_Ok, Ho, Hn, back_offsets, bind_Ok, E, bind_Ok, Hos.
Qed.

Definition low (ls : list (list Z)) : list (list Z) := (fun l : list Z => lower d <$> l) <$> ls.

Lemma label_ok_low l : label_ok l -> label_ok (lower d <$> l).
Proof.
  intros [Hl Hb]. split; [by rewrite zlen_fmap|].
  apply Forall_fmap. eapply Forall_impl; [exact Hb|]. intros c. apply lower_byte.
Qed.

Lemma zlen_low ls : zlen (labels_wire (low ls)) = zlen (labels_wire ls).
Proof.
  induction ls as [|l ls IH]; [done|].
  change (low (l :: ls)) with ((lower d <$> l) :: low ls).
  cbn [labels_wire]. by rewrite !zlen_app, !zlen_cons, zlen_fmap, IH.
Qed.

Lemma low_ok ls : Forall label_ok ls -> Forall label_ok (low ls).
Proof. intros Hls. apply Forall_fmap. eapply Forall_impl; [exact Hls|]. apply label_ok_low. Qed.

Lemma labels_parse (omit : bool) ls0 l ls p :
  opening ls0 p -> Forall label_ok ls0 -> label_ok l -> Forall label_ok ls ->
  zlen (labels_wire (ls0 ++ low (l :: ls))) < 255 ->
  (loop d p (dotted (l :: ls) ++ if omit then [] else [46]) ≫= fun '(p', rest) => finish p' rest) =
  Ok (labels_offsets 0 (ls0 ++ low (l :: ls)), labels_wire (ls0 ++ low (l :: ls)) ++ [0]).
Proof.
  revert ls0 l p. induction ls as [|k ls IH]; intros ls0 l p Hop Hls0 Hl Hls Hw.
  - change (dotted [l]) with (LabelSequence.label_text l).
    change (low [l]) with [lower d <$> l] in *.
    destruct (label_parse ls0 l p (if omit then [] else [46])) as (p' & Ho & ->); [done..| |].
    { rewrite labels_wire_snoc in *. rewrite zlen_app, zlen_cons, zlen_fmap in Hw. zlia. }
    destruct omit.
    + simpl loop. rewrite bind_Ok. apply finish_ord; auto using label_ok_low.
    + destruct (dot_parse ls0 (lower d <$> l) p' []) as (p'' & -> & E); auto using label_ok_low.
  - change (dotted (l :: k :: ls)) with (LabelSequence.label_text l ++ [46] ++ dotted (k :: ls)).
    change (low (l :: k :: ls)) with ([lower d <$> l] ++ low (k :: ls)) in *.
    rewrite (app_assoc ls0) in *. apply Forall_cons_iff in Hls as [Hk Hls].
    assert (zlen (labels_wire (ls0 ++ [lower d <$> l])) < 255) as Hw1.
    { rewrite labels_wire_app in Hw. zlia. }
    rewrite <- !app_assoc.
    destruct (label_parse ls0 l p ([46] ++ dotted (k :: ls) ++ if omit then [] else [46]))
      as (p1 & Ho1 & ->); [done..| |].
    { rewrite labels_wire_snoc in *. rewrite zlen_app, zlen_cons, zlen_fmap in Hw1. zlia. }
    cbn [app].
    destruct (dot_parse ls0 (lower d <$> l) p1 (dotted (k :: ls) ++ if omit then [] else [46]))
      as (p2 & -> & E); auto using label_ok_low.
    assert (is_nil (dotted (k :: ls) ++ if omit then [] else [46]) = false) as Hnil.
    { destruct Hk as [Hk _]. assert (LabelSequence.label_text k <> []) as Hne.
      { apply label_text_nonempty. intros ->. rewrite zlen_nil in Hk. lia. }
      destruct ls; cbn [dotted]; by destruct (LabelSequence.label_text k). }
    rewrite Hnil in E. rewrite (cons_middle (lower d <$> l) ls0), (app_assoc ls0). apply IH; auto.
    apply Forall_app. split; [done|]. apply Forall_singleton. by apply label_ok_low.
Qed.

End RoundTrip.
End TextRoundTrip.

Lemma labels_text_parse d ls omit :
  labels_ok ls ->
  Name_from_text (labels_text ls omit) d = Ok (of_labels (TextRoundTrip.low d ls)).
Proof.
  intros [Hls Hw]. unfold Name_from_text, TextParser.stringParse, MAX_WIRE in *.
  pose proof (TextRoundTrip.zlen_low d ls) as Hz. pose proof (TextRoundTrip.low_ok d ls Hls) as Hlow.
  pose proof (labels_ok_count (TextRoundTrip.low d ls)) as Hcnt.
  destruct ls as [|l ls]; [by destruct omit, d|]. apply Forall_cons_iff in Hls as [Hl Hls].
  unfold labels_text. rewrite (TextRoundTrip.labels_parse d omit []); [|by constructor; auto|done..|rewrite app_nil_l; lia].
  rewrite bind_Ok. cbn [app]. rewrite labels_offsets_length.
  specialize (Hcnt ltac:(split; [done|unfold MAX_WIRE; lia])). pose proof (zlen_nonneg (TextRoundTrip.low d (l :: ls))).
  rewrite (proj2 (Z.ltb_lt _ _)), (proj2 (Z.leb_le _ _)) by lia. done.
Qed.
