(* ===== verification/DnsWireFacts.v ===== *)
(** The wire parser of [Name]: it always terminates with a well-formed name or
    with [DNSMessageFORMERR], whatever the compression pointers of the message
    are, and it inverts [toWire]. *)
From stdpp Require Import base list numbers option strings.
From Stdlib Require Import ZArith Lia.
From S2P Require Import Prelude Buffer DnsName DnsNameFacts.

Module WireParserFacts.
Import WireParser.

Section Inv.
Variables (downcase : bool) (data : list Z) (pos0 : Z).
Hypothesis data_ok : bytes_ok data.
Hypothesis data_small : zlen data < 2^32.
Hypothesis pos0_ok : 0 <= pos0 <= zlen data.

(** What has been decoded: [ls] are the complete labels, [cur] the bytes of
    the open one. *)
Definition wshape (w : wst) (ls : list (list Z)) (cur : list Z) : Prop :=
  if done_ w then
    ndata w = labels_wire ls ++ [0] /\ offsets w = labels_offsets 0 ls /\
    nused w = zlen (labels_wire ls) + 1
  else
    match state w with
    | fw_start =>
        ndata w = labels_wire ls /\ offsets w ++ [nused w] = labels_offsets 0 ls /\
        nused w = zlen (labels_wire ls)
    | fw_newcurrent =>
        ndata w = labels_wire ls /\ offsets w ++ [nused w] = labels_offsets 0 ls /\
        nused w = zlen (labels_wire ls) /\ n w = 1 /\ 0 <= new_current w < 64
    | fw_ordinary =>
        ndata w = labels_wire ls ++ (zlen cur + n w) :: cur /\
        offsets w = labels_offsets 0 ls /\ bytes_ok cur /\ 1 <= n w /\ zlen cur + n w <= 63 /\
        nused w = zlen (labels_wire ls) + 1 + (zlen cur + n w)
    end.

Record winv (w : wst) : Prop := MkWinv {
  w_buffer : buffer w = InputBuffer.Mk (current w) data (zlen data);
  w_current : 0 <= current w <= zlen data;
  w_bp : 0 <= biggest_pointer w <= pos0;
  w_cused : if seen_pointer w then 0 <= cused w <= zlen data - pos0
            else cused w = current w - pos0 /\ pos0 <= current w;
  w_nused : nused w <= 255;
  w_shape : exists ls cur, Forall label_ok ls /\ wshape w ls cur }.

(** Jumps go strictly backwards, reads strictly forwards. *)
Definition measure (w : wst) : Z :=
  biggest_pointer w * (zlen data + 1) + (zlen data - current w).

Lemma readUint8_at p :
  0 <= p < zlen data -> exists c, byte_ok c /\
    InputBuffer.readUint8 (InputBuffer.Mk p data (zlen data)) =
    Ok (c, InputBuffer.Mk (p + 1) data (zlen data)).
Proof.
  intros Hp. destruct (zget_ok data p Hp) as (c & E & Hl). exists c. split.
  - by eapply Forall_lookup_1.
  - unfold InputBuffer.readUint8. simpl. rewrite u64_small by lia.
    rewrite (proj2 (Z.ltb_ge _ _)) by lia. simpl. by rewrite E.
Qed.

(** The state after the byte is read and counted. *)
Definition advance (w : wst) : wst :=
  MkWst (offsets w) (ndata w) (n w) (done_ w) (nused w) (seen_pointer w)
    (state w) (if seen_pointer w then cused w else u32 (cused w + 1))
    (u32 (current w + 1)) (biggest_pointer w) (new_current w)
    (InputBuffer.Mk (current w + 1) data (zlen data)).

Definition iter_post (w : wst) (r : result wst) : Prop :=
  match r with
  | Ok w' => winv w' /\ measure w' < measure w
  | Throw e => e = DNSMessageFORMERR
  | _ => False
  end.

Lemma advance_facts w :
  winv w -> current w < zlen data ->
  current (advance w) = current w + 1 /\
  (if seen_pointer w then 0 <= cused (advance w) <= zlen data - pos0
   else cused (advance w) = current w + 1 - pos0 /\ pos0 <= current w + 1).
Proof.
  intros [_ Hc _ Hu _ _] Hlt. unfold advance. simpl.
  rewrite (u32_small (current w + 1)) by lia. split; [done|].
  destruct (seen_pointer w); [done|]. rewrite u32_small by lia. lia.
Qed.

Lemma label_close ls cur c :
  zlen cur + 1 <= 63 -> bytes_ok cur -> byte_ok c -> Forall label_ok ls ->
  Forall label_ok (ls ++ [cur ++ [c]]).
Proof.
  intros. apply Forall_app. split; [done|]. apply Forall_singleton. split.
  - unfold MAX_LABELLEN. zlia.
  - apply bytes_ok_app. split; [done|]. by apply Forall_singleton.
Qed.

Lemma wire_case_start_post w c ls :
  winv w -> current w < zlen data -> done_ w = false -> byte_ok c -> Forall label_ok ls ->
  ndata w = labels_wire ls -> offsets w ++ [nused w] = labels_offsets 0 ls ->
  nused w = zlen (labels_wire ls) ->
  iter_post w (case_start (advance w) c).
Proof.
  intros Hw Hlt Hd Hc Hls Hn Ho Hu. destruct (advance_facts w Hw Hlt) as [Hcur Hcu]. cbn in Hcur, Hcu.
  destruct Hw as [Hbuf Hcr Hbp Hcused Hnu _]. unfold case_start, MAX_LABELLEN, byte_ok in *.
  destruct (Z.leb_spec c 63) as [H63|H63].
  - cbn [advance nused ndata offsets]. destruct (Z.ltb_spec MAX_WIRE (nused w + c + 1)) as [|Hfit]; [done|].
    unfold MAX_WIRE in Hfit.
    assert (offsets w ++ [u8 (nused w)] = labels_offsets 0 ls) as Ho8.
    { rewrite u8_small; [done|]. unfold byte_ok. rewrite Hu. zlia. }
    split.
    + constructor; cbn; rewrite ?Hcur; try done; try lia.
      exists ls, []. split; [done|]. unfold wshape. cbn.
        destruct (Z.eqb_spec c 0) as [->|Hc0].
        -- rewrite Hn. split_and!; [done..|lia].
        -- rewrite Hn, zlen_nil. split_and!; try done; try lia; constructor.
    + unfold measure. cbn. rewrite Hcur. lia.
  - destruct (Z.land c COMPRESS_POINTER_MARK8 =? COMPRESS_POINTER_MARK8) eqn:Ec; [|done].
    split.
    + constructor; cbn; rewrite ?Hcur; try done; try lia.
      exists ls, []. split; [done|]. unfold wshape. cbn. rewrite Hd. split_and!; try done.
        -- apply Z.land_nonneg. lia.
        -- apply Z.eqb_eq in Ec. rewrite <- Z.ldiff_land.
           assert (Z.ldiff c COMPRESS_POINTER_MARK8 = c - 192) as ->; [|lia].
           rewrite <- Z.sub_nocarry_ldiff; [done|].
           apply Z.bits_inj_0. intros i. rewrite Z.ldiff_spec.
           apply (f_equal (fun z => Z.testbit z i)) in Ec. rewrite Z.land_spec in Ec.
           destruct (Z.testbit c i), (Z.testbit COMPRESS_POINTER_MARK8 i); done.
    + unfold measure. cbn. rewrite Hcur. lia.
Qed.

Lemma wire_case_ordinary_post w c ls cur :
  winv w -> current w < zlen data -> done_ w = false -> state w = fw_ordinary ->
  byte_ok c -> Forall label_ok ls -> wshape w ls cur ->
  iter_post w (case_ordinary downcase (advance w) c).
Proof.
  intros Hw Hlt Hd Hst Hc Hls Hsh. destruct (advance_facts w Hw Hlt) as [Hcur Hcu]. cbn in Hcur, Hcu.
  destruct Hw as [Hbuf Hcr Hbp Hcused Hnu _]. unfold wshape in Hsh. rewrite Hd, Hst in Hsh.
  destruct Hsh as (Hn & Ho & Hbc & Hn1 & H63 & Hu). unfold case_ordinary.
  set (c' := if downcase then maptolower c else c).
  assert (byte_ok c') as Hc' by (unfold c'; destruct downcase; auto with kea).
  cbn [advance n]. rewrite u32_small by zlia. split.
  - constructor; cbn; rewrite ?Hcur; try done; try lia.
    unfold wshape. cbn. rewrite Hd. destruct (Z.eqb_spec (n w - 1) 0) as [H0|H0].
      * exists (ls ++ [cur ++ [c']]), []. split; [apply label_close; try done; lia|].
        assert (n w = 1) as Hn' by lia. rewrite Hn' in *.
        rewrite labels_wire_snoc, labels_offsets_snoc, Hn, Ho, <- app_assoc.
        split_and!; [simpl; do 2 f_equal; zlia|do 2 f_equal; zlia|zlia].
      * exists ls, (cur ++ [c']). split; [done|]. rewrite Hn, <- app_assoc.
        split_and!; [simpl; do 2 f_equal; zlia|done| |lia|zlia|zlia].
        apply bytes_ok_app. split; [done|]. by apply Forall_singleton.
  - unfold measure. cbn. rewrite Hcur. lia.
Qed.

Lemma case_newcurrent_post w c ls cur :
  winv w -> current w < zlen data -> done_ w = false -> state w = fw_newcurrent ->
  byte_ok c -> Forall label_ok ls -> wshape w ls cur ->
  iter_post w (case_newcurrent (advance w) c).
Proof.
  intros Hw Hlt Hd Hst Hc Hls Hsh. destruct (advance_facts w Hw Hlt) as [Hcur Hcu]. cbn in Hcur, Hcu.
  destruct Hw as [Hbuf Hcr Hbp Hcused Hnu _]. unfold wshape in Hsh. rewrite Hd, Hst in Hsh.
  destruct Hsh as (Hn & Ho & Hu & Hn1 & Hnc). unfold case_newcurrent, byte_ok in *.
  cbn [advance n new_current biggest_pointer buffer]. rewrite Hn1.
  rewrite (u32_small (new_current w * 256)), (u32_small (new_current w * 256 + c)) by lia.
  change (negb (u32 (1 - 1) =? 0)) with false. cbv iota.
  destruct (Z.leb_spec (biggest_pointer w) (new_current w * 256 + c)) as [|Hbig]; [done|].
  cbn [throw_if]. rewrite bind_Ok. unfold InputBuffer.setPosition. cbn [InputBuffer.len_].
  rewrite (proj2 (Z.ltb_ge _ _)) by lia. cbn [throw_if]. rewrite !bind_Ok. split.
  - constructor; cbn [current buffer biggest_pointer seen_pointer nused InputBuffer.data_
      InputBuffer.len_ InputBuffer.position_]; try done; try lia.
    + cbn. destruct (seen_pointer w); lia.
    + exists ls, []. split; [done|]. unfold wshape. cbn. rewrite Hd. done.
  - unfold measure. cbn [biggest_pointer current]. nia.
Qed.

Lemma iter_ok w :
  winv w -> current w < zlen data -> done_ w = false -> iter_post w (iter downcase w).
Proof.
  intros Hw Hlt Hd. pose proof (w_buffer w Hw) as Hb. pose proof (w_current w Hw) as Hc.
  destruct (readUint8_at (current w)) as (c & Hbc & Hr); [lia|].
  unfold iter. rewrite Hb, Hr, bind_Ok. fold (advance w). cbv zeta. fold (advance w).
  destruct (w_shape w Hw) as (ls & cur & Hls & Hsh).
  change (state (advance w)) with (state w). destruct (state w) eqn:Hst.
  - pose proof Hsh as Hsh'. unfold wshape in Hsh'. rewrite Hd, Hst in Hsh'.
    destruct Hsh' as (? & ? & ?). by apply (wire_case_start_post w c ls).
  - by apply (wire_case_ordinary_post w c ls cur).
  - by apply (case_newcurrent_post w c ls cur).
Qed.

Lemma wloop_ok fuel w :
  winv w -> 0 <= measure w < Z.of_nat fuel ->
  match loop downcase fuel w with
  | Ok w' => winv w'
  | Throw e => e = DNSMessageFORMERR
  | _ => False
  end.
Proof.
  revert w. induction fuel as [|fuel IH]; intros w Hw Hm; [lia|]. cbn [loop].
  rewrite (w_buffer w Hw). cbn [InputBuffer.getLength InputBuffer.len_].
  destruct (Z.ltb_spec (current w) (zlen data)) as [Hlt|]; [|done].
  destruct (done_ w) eqn:Hd; [done|]. simpl andb. cbv iota.
  pose proof (iter_ok w Hw Hlt Hd) as Hi. destruct (iter downcase w) as [w'|e| |]; try done.
  destruct Hi as [Hw' Hlt']. rewrite bind_Ok. apply IH; [done|]. split; [|lia].
  unfold measure. destruct Hw' as [_ H1 H2 _ _ _]. nia.
Qed.

Lemma winv_init :
  winv (init_wst (InputBuffer.Mk pos0 data (zlen data))).
Proof.
  constructor; simpl; try done; try lia. exists [], []. split; [constructor|]. done.
Qed.

Lemma wloop_init :
  match loop downcase (fuel_for (InputBuffer.Mk pos0 data (zlen data)))
          (init_wst (InputBuffer.Mk pos0 data (zlen data))) with
  | Ok w' => winv w'
  | Throw e => e = DNSMessageFORMERR
  | _ => False
  end.
Proof.
  apply wloop_ok; [apply winv_init|]. unfold measure, fuel_for. simpl. zlen_facts. nia.
Qed.

End Inv.
End WireParserFacts.

Lemma Name_from_wire_total b d :
  InputBufferFacts.inv b -> zlen (InputBuffer.data_ b) < 2^32 -> bytes_ok (InputBuffer.data_ b) ->
  match Name_from_wire b d with
  | Ok (name, b') =>
      name_wf name /\ InputBuffer.data_ b' = InputBuffer.data_ b /\
      InputBuffer.len_ b' = InputBuffer.len_ b /\
      InputBuffer.position_ b <= InputBuffer.position_ b' <= InputBuffer.len_ b
  | Throw e => e = DNSMessageFORMERR
  | _ => False
  end.
Proof.
  destruct b as [pos data len]. intros [Hl Hp Hs] Hsm Hb. simpl in *. subst len.
  pose proof (WireParserFacts.wloop_init d data pos Hb Hsm Hp) as Hw. unfold Name_from_wire.
  destruct (WireParser.loop d _ _) as [w|e| |]; try done. rewrite bind_Ok.
  destruct (WireParser.done_ w) eqn:Hd; [|done]. cbn [negb throw_if]. rewrite bind_Ok.
  destruct Hw as [Hbuf Hcur Hbp Hcu Hnu (ls & cur & Hls & Hsh)].
  unfold WireParserFacts.wshape in Hsh. rewrite Hd in Hsh. destruct Hsh as (Hn & Ho & Hu).
  assert (0 <= WireParser.cused w <= zlen data - pos) as Hcu' by (destruct (WireParser.seen_pointer w); lia).
  rewrite Hbuf. cbn [InputBuffer.getPosition InputBuffer.position_].
  rewrite u32_small by lia. unfold InputBuffer.setPosition. cbn [InputBuffer.len_ InputBuffer.data_].
  rewrite (proj2 (Z.ltb_ge _ _)) by lia. cbn [throw_if]. rewrite !bind_Ok. simpl.
  split_and!; try done; try lia. exists ls. split.
  - split; [done|]. unfold MAX_WIRE. lia.
  - unfold of_labels. rewrite Hn, Ho, Hu. f_equal; [zlia|]. by rewrite labels_offsets_length.
Qed.

(** ** Decoding what [toWire] wrote *)
Module WireRoundTrip.
Import WireParser.

Section RoundTrip.
Variables (d : bool) (pre0 : list Z).

(** Between labels: [ls] were decoded, [pre] is consumed and [tail] is left. *)
Record at_start (ls : list (list Z)) (pre tail : list Z) (w : wst) : Prop := MkAtStart {
  as_ndata : ndata w = labels_wire ls;
  as_offsets : offsets w ++ [nused w] = labels_offsets 0 ls;
  as_nused : nused w = zlen (labels_wire ls);
  as_done : done_ w = false;
  as_seen : seen_pointer w = false;
  as_state : state w = fw_start;
  as_current : current w = zlen pre;
  as_buffer : buffer w = InputBuffer.view pre tail;
  as_cused : cused w = zlen pre - zlen pre0 }.

(** Inside a label whose remaining [k] bytes are next. *)
Record in_label (ls : list (list Z)) (cur : list Z) (k : Z) (pre tail : list Z) (w : wst) : Prop := MkInLabel {
  il_ndata : ndata w = labels_wire ls ++ (zlen cur + k) :: cur;
  il_offsets : offsets w = labels_offsets 0 ls;
  il_n : n w = k;
  il_nused : nused w = zlen (labels_wire ls) + 1 + (zlen cur + k);
  il_done : done_ w = false;
  il_seen : seen_pointer w = false;
  il_state : state w = fw_ordinary;
  il_current : current w = zlen pre;
  il_buffer : buffer w = InputBuffer.view pre tail;
  il_cused : cused w = zlen pre - zlen pre0 }.

Definition fits (pre tail : list Z) : Prop :=
  zlen (pre ++ tail) < 2^32 /\ zlen pre0 <= zlen pre.

Lemma fits_snoc pre c tail : fits pre (c :: tail) -> fits (pre ++ [c]) tail.
Proof. unfold fits. intros [? ?]. split; zlia. Qed.

Lemma wloop_step fuel w w' pre c tail :
  buffer w = InputBuffer.view pre (c :: tail) -> current w = zlen pre -> done_ w = false ->
  iter d w = Ok w' -> loop d (S fuel) w = loop d fuel w'.
Proof.
  intros Hb Hc Hd Hi. cbn [loop]. rewrite Hb, Hc, Hd. cbn.
  rewrite (proj2 (Z.ltb_lt _ _)) by zlia. cbn. by rewrite Hi.
Qed.

Lemma read_next pre c tail :
  fits pre (c :: tail) ->
  InputBuffer.readUint8 (InputBuffer.view pre (c :: tail)) =
    Ok (c, InputBuffer.view (pre ++ [c]) tail).
Proof.
  intros [H _]. apply InputBufferFacts.readUint8_view. unfold InputBufferFacts.small. lia.
Qed.

Lemma enter_label ls l pre tail w :
  at_start ls pre (zlen l :: tail) w -> 1 <= zlen l <= 63 -> fits pre (zlen l :: tail) ->
  zlen (labels_wire (ls ++ [l])) <= 254 ->
  exists w', iter d w = Ok w' /\ in_label ls [] (zlen l) (pre ++ [zlen l]) tail w'.
Proof.
  intros [Hn Ho Hu Hd Hs Hst Hc Hb Hcu] Hl Hf Hw. rewrite labels_wire_snoc in Hw.
  pose proof (fits_snoc _ _ _ Hf) as Hf'. unfold fits in Hf, Hf'.
  unfold iter. rewrite Hb, read_next, bind_Ok by done. cbv zeta. cbn [state]. rewrite Hst.
  unfold case_start, MAX_LABELLEN. rewrite (proj2 (Z.leb_le _ _)) by lia. cbn [nused].
  rewrite (proj2 (Z.ltb_ge _ _)) by (unfold MAX_WIRE; zlia). cbn [throw_if]. rewrite bind_Ok.
  eexists. split; [reflexivity|].
  constructor; cbn; rewrite ?Hs; try done; try zlia.
  - by rewrite Hn, zlen_nil.
  - rewrite u8_small; [done|]. unfold byte_ok. zlia.
  - rewrite u32_small; zlia.
  - rewrite Hcu, u32_small; zlia.
Qed.

Lemma label_byte ls cur k c pre tail w :
  in_label ls cur k pre (c :: tail) w -> 1 <= k -> zlen cur + k <= 63 -> fits pre (c :: tail) ->
  exists w', iter d w = Ok w' /\
    if k =? 1 then at_start (ls ++ [cur ++ [TextParser.lower d c]]) (pre ++ [c]) tail w'
    else in_label ls (cur ++ [TextParser.lower d c]) (k - 1) (pre ++ [c]) tail w'.
Proof.
  intros [Hn Ho Hnn Hu Hd Hs Hst Hc Hb Hcu] Hk H63 Hf.
  pose proof (fits_snoc _ _ _ Hf) as Hf'. unfold fits in Hf, Hf'.
  unfold iter. rewrite Hb, read_next, bind_Ok by done. cbv zeta. cbn [state]. rewrite Hst.
  unfold case_ordinary. cbn [n]. rewrite Hnn, (u32_small (k - 1)) by zlia. fold (TextParser.lower d c).
  eexists. split; [reflexivity|].
  destruct (Z.eqb_spec k 1) as [->|Hk1].
  - constructor; cbn; rewrite ?Hs; try done.
    + rewrite labels_wire_snoc, Hn, <- app_assoc. simpl. do 2 f_equal. zlia.
    + rewrite labels_offsets_snoc, Ho. do 2 f_equal. zlia.
    + rewrite labels_wire_snoc. zlia.
    + rewrite Hc, u32_small; zlia.
    + rewrite Hcu, u32_small; zlia.
  - constructor; cbn; rewrite ?Hs; try done.
    + rewrite Hn, <- app_assoc. simpl. do 2 f_equal. zlia.
    + zlia.
    + rewrite (proj2 (Z.eqb_neq _ _)) by lia. done.
    + rewrite Hc, u32_small; zlia.
    + rewrite Hcu, u32_small; zlia.
Qed.

Lemma label_bytes fuel l ls cur pre tail w :
  in_label ls cur (zlen l) pre (l ++ tail) w -> l <> [] -> zlen cur + zlen l <= 63 ->
  fits pre (l ++ tail) ->
  exists w', loop d (length l + fuel) w = loop d fuel w' /\
    at_start (ls ++ [cur ++ (TextParser.lower d <$> l)]) (pre ++ l) tail w'.
Proof.
  revert cur pre w. induction l as [|c l IH]; intros cur pre w Hi Hne H63 Hf; [done|].
  destruct (label_byte ls cur _ c pre (l ++ tail) w Hi) as (w1 & E1 & H1); [zlia|zlia|done|].
  assert (loop d (length (c :: l) + fuel) w = loop d (length l + fuel) w1) as ->.
  { eapply (wloop_step _ w w1); [apply Hi..|done]. }
  destruct l as [|c' l].
  - exists w1. split; [done|]. exact H1.
  - rewrite (proj2 (Z.eqb_neq _ _)) in H1 by zlia.
    destruct (IH (cur ++ [TextParser.lower d c]) (pre ++ [c]) w1) as (w2 & E2 & H2);
      [by replace (zlen (c' :: l)) with (zlen (c :: c' :: l) - 1) by zlia|done|zlia|by apply fits_snoc|].
    exists w2. split; [done|]. by rewrite <- !app_assoc in H2.
Qed.

Lemma labels_bytes fuel ls ls0 pre tail w :
  at_start ls0 pre (labels_wire ls ++ tail) w -> Forall label_ok ls ->
  fits pre (labels_wire ls ++ tail) -> zlen (labels_wire (ls0 ++ ls)) <= 254 ->
  exists w', loop d (length (labels_wire ls) + fuel) w = loop d fuel w' /\
    at_start (ls0 ++ TextRoundTrip.low d ls) (pre ++ labels_wire ls) tail w'.
Proof.
  revert ls0 pre w. induction ls as [|l ls IH]; intros ls0 pre w Hs Hls Hf Hw.
  - exists w. rewrite !app_nil_r. done.
  - apply Forall_cons_iff in Hls as [[Hl Hbl] Hls]. unfold MAX_LABELLEN in Hl.
    cbn [labels_wire] in *. rewrite <- !app_assoc in *. cbn [app] in *.
    assert (zlen (labels_wire (ls0 ++ [l])) <= 254 /\
            zlen (labels_wire ((ls0 ++ [TextParser.lower d <$> l]) ++ ls)) <= 254) as [Hw1 Hw2].
    { rewrite !labels_wire_app in *. cbn [labels_wire] in *. zlia. }
    destruct (enter_label ls0 l pre _ w Hs) as (w1 & E1 & H1); [done..|].
    replace (length (zlen l :: l ++ labels_wire ls) + fuel)%nat
      with (S (length l + (length (labels_wire ls) + fuel)))
      by (simpl; rewrite length_app; lia).
    rewrite (wloop_step _ w w1 _ _ _ (as_buffer _ _ _ _ Hs) (as_current _ _ _ _ Hs) (as_done _ _ _ _ Hs) E1).
    destruct (label_bytes (length (labels_wire ls) + fuel) l ls0 [] (pre ++ [zlen l])
                (labels_wire ls ++ tail) w1) as (w2 & E2 & H2);
      [done|intros El; rewrite El in Hl; zlia|zlia|by apply fits_snoc|].
    rewrite E2. destruct (IH (ls0 ++ [TextParser.lower d <$> l]) ((pre ++ [zlen l]) ++ l) w2)
      as (w3 & E3 & H3); [done..| |done|].
    { unfold fits in *. split; zlia. }
    exists w3. rewrite E3. split; [done|].
    by rewrite <- !app_assoc in H3.
Qed.

Lemma root_byte fuel ls pre tail w :
  at_start ls pre (0 :: tail) w -> fits pre (0 :: tail) -> zlen (labels_wire ls) <= 254 ->
  exists w', loop d (S (S fuel)) w = Ok w' /\ done_ w' = true /\
    ndata w' = labels_wire ls ++ [0] /\ offsets w' = labels_offsets 0 ls /\
    nused w' = zlen (labels_wire ls) + 1 /\ cused w' = zlen pre + 1 - zlen pre0 /\
    buffer w' = InputBuffer.view (pre ++ [0]) tail.
Proof.
  intros Has Hf Hw. pose proof Has as [Hn Ho Hu Hd Hs Hst Hc Hb Hcu].
  pose proof (fits_snoc _ _ _ Hf) as Hf'.
  assert (exists w', iter d w = Ok w' /\ done_ w' = true /\
    ndata w' = labels_wire ls ++ [0] /\ offsets w' = labels_offsets 0 ls /\
    nused w' = zlen (labels_wire ls) + 1 /\ cused w' = zlen pre + 1 - zlen pre0 /\
    buffer w' = InputBuffer.view (pre ++ [0]) tail) as (w' & E & Hd' & Hrest).
  { unfold iter. rewrite Hb, read_next, bind_Ok by done. cbv zeta. cbn [state]. rewrite Hst.
    unfold case_start, MAX_LABELLEN. cbn [nused]. rewrite Hu.
    rewrite (proj2 (Z.leb_le _ _)) by lia. rewrite (proj2 (Z.ltb_ge _ _)) by (unfold MAX_WIRE; lia).
    cbn [throw_if]. rewrite bind_Ok. eexists. split; [reflexivity|]. cbn. rewrite Hs, Hn, Hcu.
    unfold fits in Hf, Hf'. split_and!; try done; [|lia|rewrite u32_small; zlia].
    rewrite <- Hu, u8_small; [done|]. unfold byte_ok. zlia. }
  exists w'. split; [|done]. rewrite (wloop_step _ w w' _ _ _ Hb Hc Hd E).
  cbn [loop]. by rewrite Hd', andb_false_r.
Qed.

End RoundTrip.
End WireRoundTrip.

Lemma wire_roundtrip d ls pre rest :
  labels_ok ls -> zlen (pre ++ Name_toWire (of_labels ls) ++ rest) < 2^32 ->
  Name_from_wire (InputBuffer.view pre (Name_toWire (of_labels ls) ++ rest)) d =
  Ok (of_labels (TextRoundTrip.low d ls), InputBuffer.view (pre ++ Name_toWire (of_labels ls)) rest).
Proof.
  intros [Hls Hw] Hsz. unfold Name_toWire in *. cbn [ndata_ of_labels] in *. unfold MAX_WIRE in Hw.
  rewrite <- !app_assoc in *. unfold Name_from_wire.
  set (b := InputBuffer.view pre (labels_wire ls ++ [0] ++ rest)).
  assert (exists fuel, WireParser.fuel_for b = (length (labels_wire ls) + S (S fuel))%nat) as [fuel Hfuel].
  { exists (WireParser.fuel_for b - length (labels_wire ls) - 2)%nat.
    unfold WireParser.fuel_for, b. simpl. unfold zlen. rewrite !Nat2Z.id, !length_app. simpl.
    enough (length (labels_wire ls) + 2 <= Z.to_nat (Z.of_nat (length pre) + 1) *
      S (length pre + (length (labels_wire ls) + S (length rest))) + 1)%nat by lia.
    replace (Z.to_nat (Z.of_nat (length pre) + 1)) with (S (length pre)) by lia. nia. }
  destruct (WireRoundTrip.labels_bytes d pre (S (S fuel)) ls [] pre ([0] ++ rest)
              (WireParser.init_wst b)) as (w1 & E1 & H1); try done.
  { constructor; try done. simpl. lia. }
  { simpl. lia. }
  cbn [app] in H1.
  pose proof (TextRoundTrip.zlen_low d ls) as Hz.
  destruct (WireRoundTrip.root_byte d pre fuel _ _ _ _ H1) as (w2 & E2 & Hd & Hn & Ho & Hu & Hc & Hb).
  { split; zlia. }
  { lia. }
  rewrite Hfuel, E1, E2, bind_Ok, Hd. cbn [negb throw_if]. rewrite bind_Ok, Hb, Hc.
  cbn [InputBuffer.getPosition InputBuffer.position_ b InputBuffer.view].
  rewrite u32_small by zlia. unfold InputBuffer.setPosition. cbn [InputBuffer.len_ InputBuffer.view].
  rewrite (proj2 (Z.ltb_ge _ _)) by zlia. cbn [throw_if]. rewrite !bind_Ok. do 2 f_equal.
  - rewrite Hn, Ho, Hu. unfold of_labels. f_equal; [zlia|apply labels_offsets_length].
  - cbn [InputBuffer.data_]. rewrite <- !app_assoc. unfold InputBuffer.view.
    rewrite <- !app_assoc. f_equal. zlia.
Qed.
