(* ===== verification/Address.v ===== *)
(** Addresses: [IOAddress], the prefix arithmetic of [ipaddress_extend],
    [Triplet] and [Pool].

    An [asio] address is one of the two families; the source only builds and
    compares IPv4 ones, and several members fall off their end for the other
    family, which is undefined behaviour ([Crash]).  The textual conversions
    are the C library's [inet_ntop] and [inet_pton] on dotted quads. *)
From stdpp Require Import base list numbers option strings.
From Stdlib Require Import ZArith Lia.
From S2P Require Import Prelude Buffer.

(** ** Dotted quads *)
Definition octet_text (b : Z) : list Z :=
  if b <? 10 then [48 + b]
  else if b <? 100 then [48 + b / 10; 48 + b mod 10]
  else [48 + b / 100; 48 + (b / 10) mod 10; 48 + b mod 10].

(** [inet_ntop(AF_INET, data, ...)] *)
Definition inet_ntop4 (a b c d : Z) : list Z :=
  octet_text a ++ [46] ++ octet_text b ++ [46] ++ octet_text c ++ [46] ++ octet_text d.

(** The scan of [inet_pton]: the finished octets, the open one and whether a
    digit of it was seen. *)
Fixpoint pton_loop (s : list Z) (done : list Z) (tp : Z) (saw_digit : bool) : option (list Z) :=
  match s with
  | [] => if saw_digit && (zlen done =? 3) then Some (done ++ [tp]) else None
  | ch :: s =>
      if isdigit ch then
        let new := tp * 10 + (ch - 48) in
        if saw_digit && (tp =? 0) then None
        else if 255 <? new then None
        else pton_loop s done new true
      else if (ch =? 46) && saw_digit then
        if zlen done =? 3 then None else pton_loop s (done ++ [tp]) 0 false
      else None
  end.

Definition inet_pton4 (s : list Z) : option Z :=
  match pton_loop s [] 0 false with
  | Some [a; b; c; d] => Some (be32 a b c d)
  | _ => None
  end.

(** ** IOAddress *)
Inductive IOAddress : Set :=
| V4 (addr : Z)
| V6 (bytes : list Z).

#[global] Instance IOAddress_eq_dec : EqDecision IOAddress.
Proof. solve_decision. Defined.

Module IOAddr.

(** [IOAddress(const std::string&)] on a text without a colon: [asio]'s IPv6
    attempt fails there, and a failed IPv4 attempt leaves 0.0.0.0. *)
Definition of_string4 (s : list Z) : IOAddress :=
  match inet_pton4 s with Some a => V4 a | None => V4 0 end.

Definition of_uint32 (v : Z) : IOAddress := V4 (u32 v).

Definition isV4 (a : IOAddress) : bool := match a with V4 _ => true | V6 _ => false end.

Definition AF_INET : Z := 2.

Definition getFamily (a : IOAddress) : result Z :=
  match a with V4 _ => Ok AF_INET | V6 _ => Crash end.

(** [operator uint32_t] *)
Definition to_uint32 (a : IOAddress) : result Z :=
  match a with V4 v => Ok v | V6 _ => Crash end.

Definition toBytes (a : IOAddress) : result (list Z) :=
  match a with V4 v => Ok (bytes32 v) | V6 _ => Crash end.

(** [fromBytes] prints the four bytes and reads the text back. *)
Definition fromBytes (family : Z) (data : list Z) : result IOAddress :=
  assert_ (family =? AF_INET);;
  match data with
  | a :: b :: c :: d :: _ => Ok (of_string4 (inet_ntop4 a b c d))
  | _ => Crash
  end.

Definition IPV4_ZERO_ADDRESS : IOAddress := of_uint32 0.
Definition IPV4_BCAST_ADDRESS : IOAddress := of_uint32 0xFFFFFFFF.

Definition equals (a b : IOAddress) : bool := bool_decide (a = b).
Definition isV4Zero (a : IOAddress) : bool := equals a IPV4_ZERO_ADDRESS.
Definition isV4Bcast (a : IOAddress) : bool := equals a IPV4_BCAST_ADDRESS.

Definition lessThan (a b : IOAddress) : result bool :=
  fa ← getFamily a;
  fb ← getFamily b;
  if fa =? fb then
    match a, b with
    | V4 x, V4 y => Ok (x <? y)
    | _, _ => Ok (fa <? fb)
    end
  else Ok (fa <? fb).

Definition smallerEqual (a b : IOAddress) : result bool :=
  if equals a b then Ok true else lessThan a b.

Definition subtract (a b : IOAddress) : result IOAddress :=
  fa ← getFamily a;
  fb ← getFamily b;
  assert_ (negb (fa =? fb));;
  x ← to_uint32 a; y ← to_uint32 b; Ok (of_uint32 (x - y)).

(** [for (i = size - 1; i >= 0; --i) if (++packed[i] != 0) break;] on the
    reversed bytes. *)
Fixpoint increase_rev (packed : list Z) : list Z :=
  match packed with
  | [] => []
  | b :: rest =>
      let b' := u8 (b + 1) in
      if negb (b' =? 0) then b' :: rest else b' :: increase_rev rest
  end.

Definition increase (a : IOAddress) : result IOAddress :=
  packed ← toBytes a;
  family ← getFamily a;
  fromBytes family (rev (increase_rev (rev packed))).

(** [toLong] prints the address and reads the text into an [in_addr], whose
    [s_addr] is in network byte order; the host is little-endian. *)
Definition bswap32 (v : Z) : Z :=
  match bytes32 v with [a; b; c; d] => be32 d c b a | _ => 0 end.
Definition toLong (a : IOAddress) : result Z :=
  match a with
  | V4 v =>
      match bytes32 v with
      | [a; b; c; d] =>
          match inet_pton4 (inet_ntop4 a b c d) with Some addr => Ok (bswap32 addr) | None => Crash end
      | _ => Crash
      end
  | V6 _ => Crash (** the text of the other family is no dotted quad: the assertion fails *)
  end.
Definition fromLong (v : Z) : IOAddress := of_uint32 (bswap32 v).

End IOAddr.

(** ** Prefix arithmetic *)
Definition bitMask4 : list Z :=
  [0xffffffff; 0x7fffffff; 0x3fffffff; 0x1fffffff;
   0x0fffffff; 0x07ffffff; 0x03ffffff; 0x01ffffff;
   0x00ffffff; 0x007fffff; 0x003fffff; 0x001fffff;
   0x000fffff; 0x0007ffff; 0x0003ffff; 0x0001ffff;
   0x0000ffff; 0x00007fff; 0x00003fff; 0x00001fff;
   0x00000fff; 0x000007ff; 0x000003ff; 0x000001ff;
   0x000000ff; 0x0000007f; 0x0000003f; 0x0000001f;
   0x0000000f; 0x00000007; 0x00000003; 0x00000001;
   0x00000000].

(** The subtraction is done in [uint32_t] and widened afterwards. *)
Definition addrCountInRange (first last : IOAddress) : result Z :=
  l ← IOAddr.to_uint32 last;
  f ← IOAddr.to_uint32 first;
  assert_ (f <=? l);;
  Ok (u32 (u32 (l - f) + 1)).

Definition lastAddrInNetwork (prefix : IOAddress) (prefix_len : Z) : result IOAddress :=
  assert_ (negb (prefix_len =? 0) && (prefix_len <=? 32));;
  addr ← IOAddr.to_uint32 prefix;
  m ← zget bitMask4 prefix_len;
  Ok (IOAddr.of_uint32 (Z.lor addr m)).

Definition firstAddrInNetwork (prefix : IOAddress) (len : Z) : result IOAddress :=
  assert_ (len <=? 32);;
  addr ← IOAddr.to_uint32 prefix;
  m ← zget bitMask4 len;
  Ok (IOAddr.of_uint32 (Z.land addr (u32 (Z.lnot m)))).

Definition getNetmask4 (len : Z) : result IOAddress :=
  assert_ (len <=? 32);;
  m ← zget bitMask4 len;
  Ok (IOAddr.of_uint32 (u32 (Z.lnot m))).

(** ** Triplet *)
Record Triplet := MkTriplet {
  min_ : Z; default_ : Z; max_ : Z; unspecified_ : bool }.

Module Trip.
Definition empty : Triplet := MkTriplet 0 0 0 true.
Definition of_value (v : Z) : Triplet := MkTriplet v v v false.
Definition make (min def max : Z) : result Triplet :=
  throw_if ((def <? min) || (max <? def)) BadValue;;
  Ok (MkTriplet min def max false).
Definition get (t : Triplet) : Z := default_ t.
Definition get_hint (t : Triplet) (hint : Z) : Z :=
  if hint <=? min_ t then min_ t else if max_ t <=? hint then max_ t else hint.
End Trip.

(** ** Pool *)
Record Pool := MkPool {
  id_ : Z; first_ : IOAddress; last_ : IOAddress; capacity_ : Z }.

Module PoolOps.

(** Both constructors take the counter of [getNextID] and return it advanced. *)
Definition make_range (next_id : Z) (first last : IOAddress) : result Pool * Z :=
  (throw_if (negb (IOAddr.isV4 first) || negb (IOAddr.isV4 last)) BadValue;;
   lt ← IOAddr.lessThan last first;
   throw_if lt BadValue;;
   cap ← addrCountInRange first last;
   Ok (MkPool next_id first last cap), u32 (next_id + 1)).

Definition make_prefix (next_id : Z) (prefix : IOAddress) (prefix_len : Z) : result Pool * Z :=
  (throw_if (negb (IOAddr.isV4 prefix)) BadValue;;
   throw_if ((prefix_len =? 0) || (32 <? prefix_len)) BadValue;;
   last ← lastAddrInNetwork prefix prefix_len;
   cap ← addrCountInRange prefix last;
   Ok (MkPool next_id prefix last cap), u32 (next_id + 1)).

Definition inRange (p : Pool) (addr : IOAddress) : result bool :=
  lt ← IOAddr.lessThan (first_ p) addr;
  if lt || IOAddr.equals (first_ p) addr then
    lt' ← IOAddr.lessThan addr (last_ p);
    Ok (lt' || IOAddr.equals addr (last_ p))
  else Ok false.

End PoolOps.

(** ** Facts *)
Definition addr_ok (a : Z) : Prop := 0 <= a < 2^32.

Lemma pton_octet b rest done :
  byte_ok b -> pton_loop (octet_text b ++ rest) done 0 false = pton_loop rest done b true.
Proof.
  intros Hb. unfold byte_ok in Hb. unfold octet_text.
  assert (forall k s d tp saw, 0 <= k <= 9 -> (saw && (tp =? 0)) = false -> tp * 10 + k <= 255 ->
    pton_loop (48 + k :: s) d tp saw = pton_loop s d (tp * 10 + k) true) as Hdig.
  { intros k s d tp saw Hk Hs Hle. cbn [pton_loop].
    replace (isdigit (48 + k)) with true by (unfold isdigit; lia).
    rewrite Hs, (proj2 (Z.ltb_ge _ _)) by lia. f_equal. lia. }
  pose proof (Z.div_mod b 10). pose proof (Z.mod_pos_bound b 10).
  destruct (Z.ltb_spec b 10); [|destruct (Z.ltb_spec b 100)].
  - cbn [app]. rewrite Hdig by lia. done.
  - assert (1 <= b / 10 <= 9) by lia. cbn [app].
    rewrite Hdig by lia. rewrite Hdig by (rewrite ?andb_true_l; lia). f_equal. lia.
  - assert (b / 100 = b / 10 / 10) as E100 by (rewrite Z.div_div by lia; done).
    pose proof (Z.div_mod (b / 10) 10). pose proof (Z.mod_pos_bound (b / 10) 10).
    assert (10 <= b / 10 <= 25) by lia. rewrite E100.
    assert (1 <= b / 10 / 10 <= 2) by lia. cbn [app].
    rewrite !Hdig by (rewrite ?andb_true_l; lia). f_equal. lia.
Qed.

Lemma inet_roundtrip a b c d :
  byte_ok a -> byte_ok b -> byte_ok c -> byte_ok d ->
  inet_pton4 (inet_ntop4 a b c d) = Some (be32 a b c d).
Proof.
  intros. unfold inet_pton4, inet_ntop4.
  rewrite pton_octet by done. cbn. rewrite pton_octet by done. cbn.
  rewrite pton_octet by done. cbn.
  rewrite <- (app_nil_r (octet_text d)), pton_octet by done. done.
Qed.

Lemma fromBytes_ok a b c d rest :
  byte_ok a -> byte_ok b -> byte_ok c -> byte_ok d ->
  IOAddr.fromBytes IOAddr.AF_INET (a :: b :: c :: d :: rest) = Ok (V4 (be32 a b c d)).
Proof.
  intros. unfold IOAddr.fromBytes, IOAddr.of_string4. simpl. by rewrite inet_roundtrip.
Qed.

Lemma toLong_v4 v : addr_ok v -> IOAddr.toLong (V4 v) = Ok (IOAddr.bswap32 v).
Proof.
  intros Hv. destruct (be32_bytes32 v Hv) as (a & b & c & d & E & Ev). cbn [IOAddr.toLong].
  pose proof (bytes32_ok v) as Hb. rewrite E in *. rewrite inet_roundtrip by (by repeat (apply Forall_cons_iff in Hb as [? Hb])).
  by rewrite Ev.
Qed.

(** The mask table is [2^(32-len) - 1]. *)
Lemma bitMask4_spec len : 0 <= len <= 32 -> zget bitMask4 len = Ok (2^(32 - len) - 1).
Proof.
  intros H.
  assert (forallb (fun n => bool_decide (zget bitMask4 (Z.of_nat n) = Ok (2^(32 - Z.of_nat n) - 1)))
            (seq 0 33) = true) as Hall by (vm_compute; reflexivity).
  rewrite forallb_forall in Hall. specialize (Hall (Z.to_nat len)).
  rewrite Z2Nat.id in Hall by lia. apply bool_decide_eq_true in Hall; [done|].
  apply in_seq. lia.
Qed.

Lemma lor_mask a k : 0 <= a -> 0 <= k -> Z.lor a (2^k - 1) = a / 2^k * 2^k + (2^k - 1).
Proof.
  intros Ha Hk. assert (0 < 2^k) by (apply Z.pow_pos_nonneg; lia).
  rewrite <- lor_shiftl_add by lia. apply Z.bits_inj'. intros i Hi.
  rewrite !Z.lor_spec, <- Z.shiftr_div_pow2, Z.shiftl_spec by lia.
  replace (2^k - 1) with (Z.ones k) by (rewrite Z.ones_equiv; lia).
  destruct (decide (i < k)).
  - rewrite Z.ones_spec_low by lia. by rewrite !orb_true_r.
  - rewrite Z.shiftr_spec by lia. do 2 f_equal. lia.
Qed.

Lemma land_not_mask a k :
  0 <= a < 2^32 -> 0 <= k <= 32 -> Z.land a (u32 (Z.lnot (2^k - 1))) = a / 2^k * 2^k.
Proof.
  intros Ha Hk. replace (2^k - 1) with (Z.ones k) by (rewrite Z.ones_equiv; lia).
  rewrite <- Z.shiftl_mul_pow2, <- Z.shiftr_div_pow2 by lia.
  apply Z.bits_inj'. intros i Hi. rewrite Z.land_spec, Z.shiftl_spec by lia. unfold u32.
  destruct (decide (i < 32)) as [Hlt|Hge].
  - rewrite Z.mod_pow2_bits_low, Z.lnot_spec by lia. destruct (decide (i < k)).
    + rewrite Z.ones_spec_low by lia. rewrite andb_false_r. symmetry. apply Z.testbit_neg_r. lia.
    + rewrite Z.ones_spec_high by lia. rewrite andb_true_r, Z.shiftr_spec by lia. f_equal. lia.
  - rewrite Z.mod_pow2_bits_high by lia. rewrite andb_false_r.
    symmetry. destruct (decide (i < k)); [apply Z.testbit_neg_r; lia|].
    rewrite Z.shiftr_spec by lia. apply (testbit_high _ 32); lia.
Qed.

Section Prefix.
Variables (p len : Z).
Hypothesis p_ok : addr_ok p.
Hypothesis len_ok : 1 <= len <= 32.

Let block : Z := 2^(32 - len).

Lemma block_pos : 0 < block.
Proof. unfold block. apply Z.pow_pos_nonneg; lia. Qed.

Lemma block_divides : 2^32 = 2^len * block.
Proof. unfold block. rewrite <- Z.pow_add_r by lia. f_equal. lia. Qed.

Lemma div_block_bound a : addr_ok a -> 0 <= a / block /\ (a / block) * block + (block - 1) < 2^32.
Proof.
  intros [H1 H2]. pose proof block_pos. pose proof block_divides as Hd.
  split; [apply Z.div_pos; lia|].
  assert (a / block < 2^len) by (apply Z.div_lt_upper_bound; lia). nia.
Qed.

Lemma lastAddr_spec :
  lastAddrInNetwork (V4 p) len = Ok (V4 (p / block * block + (block - 1))).
Proof.
  unfold lastAddrInNetwork. rewrite (proj2 (Z.eqb_neq _ _)), (proj2 (Z.leb_le _ _)) by lia.
  cbn [negb andb assert_ IOAddr.to_uint32]. rewrite !bind_Ok, bitMask4_spec, bind_Ok by lia.
  destruct p_ok. rewrite lor_mask by lia. unfold IOAddr.of_uint32. do 2 f_equal.
  pose proof (div_block_bound p p_ok). pose proof block_pos. apply u32_small. fold block. lia.
Qed.

Lemma firstAddr_spec : firstAddrInNetwork (V4 p) len = Ok (V4 (p / block * block)).
Proof.
  unfold firstAddrInNetwork. rewrite (proj2 (Z.leb_le _ _)) by lia.
  cbn [assert_ IOAddr.to_uint32]. rewrite !bind_Ok, bitMask4_spec, bind_Ok by lia.
  rewrite land_not_mask by (apply p_ok || lia). unfold IOAddr.of_uint32. do 2 f_equal.
  pose proof (div_block_bound p p_ok). pose proof block_pos. apply u32_small. fold block. nia.
Qed.

(** An address is between the first and the last one exactly when it shares
    the prefix. *)
Lemma same_prefix a :
  addr_ok a ->
  (p / block * block <= a <= p / block * block + (block - 1)) <-> a / block = p / block.
Proof.
  intros Ha. pose proof block_pos. pose proof (Z.div_mod a block). pose proof (Z.mod_pos_bound a block).
  split; [|intros <-; lia].
  intros [Hlo Hhi]. symmetry. apply Z.div_unique with (a - p / block * block); lia.
Qed.

End Prefix.

Lemma lessThan_v4 x y : IOAddr.lessThan (V4 x) (V4 y) = Ok (x <? y).
Proof. done. Qed.

Lemma equals_v4 x y : IOAddr.equals (V4 x) (V4 y) = (x =? y).
Proof.
  unfold IOAddr.equals. destruct (Z.eqb_spec x y) as [->|Hne].
  - by apply bool_decide_eq_true_2.
  - apply bool_decide_eq_false_2. congruence.
Qed.

Lemma smallerEqual_v4 x y : IOAddr.smallerEqual (V4 x) (V4 y) = Ok (x <=? y).
Proof.
  unfold IOAddr.smallerEqual. rewrite equals_v4, lessThan_v4.
  destruct (Z.eqb_spec x y); f_equal; lia.
Qed.

(** *** Counting and stepping *)
Lemma addrCountInRange_spec f l :
  addr_ok f -> addr_ok l -> f <= l ->
  addrCountInRange (V4 f) (V4 l) = Ok (if (f =? 0) && (l =? 2^32 - 1) then 0 else l - f + 1).
Proof.
  intros [Hf1 Hf2] [Hl1 Hl2] Hle. unfold addrCountInRange. cbn [IOAddr.to_uint32].
  rewrite !bind_Ok, (proj2 (Z.leb_le _ _)) by lia. cbn [assert_]. rewrite bind_Ok.
  rewrite (u32_small (l - f)) by lia. f_equal.
  destruct (Z.eqb_spec f 0) as [->|]; [destruct (Z.eqb_spec l (2^32 - 1)) as [->|]|];
    [done|rewrite u32_small; simpl; lia..].
Qed.

Lemma inRange_spec p f l x :
  first_ p = V4 f -> last_ p = V4 l ->
  PoolOps.inRange p (V4 x) = Ok ((f <=? x) && (x <=? l)).
Proof.
  intros Hf Hl. unfold PoolOps.inRange. rewrite Hf, Hl, !lessThan_v4, !equals_v4, bind_Ok.
  replace ((f <? x) || (f =? x)) with (f <=? x) by lia. destruct (f <=? x); [|done].
  simpl. f_equal. lia.
Qed.

Local Ltac stop_carry Hsm :=
  rewrite (proj2 (Z.eqb_neq _ _)) by (unfold byte_ok in *; lia); cbn;
  do 4 eexists; split; [done|]; rewrite !be32_add by (unfold byte_ok in *; lia);
  unfold byte_ok in *; split_and!; try lia; rewrite <- Hsm by lia; lia.

Lemma increase_rev_spec d c b a :
  byte_ok a -> byte_ok b -> byte_ok c -> byte_ok d ->
  exists d' c' b' a', IOAddr.increase_rev [d; c; b; a] = [d'; c'; b'; a'] /\
    byte_ok a' /\ byte_ok b' /\ byte_ok c' /\ byte_ok d' /\
    be32 a' b' c' d' = (be32 a b c d + 1) mod 2^32.
Proof.
  intros Ha Hb Hc Hd.
  assert (forall x, byte_ok x -> (u8 (x + 1) = 0 /\ x = 255) \/ (u8 (x + 1) = x + 1 /\ x < 255)) as Hinc.
  { intros x Hx. unfold byte_ok, u8 in *. destruct (decide (x = 255)) as [->|]; [by left|].
    right. rewrite Z.mod_small by lia. lia. }
  assert (forall n, 0 <= n < 2^32 -> n = n mod 2^32) as Hsm by (intros; symmetry; by apply Z.mod_small).
  cbn [IOAddr.increase_rev].
  destruct (Hinc d Hd) as [[-> ->]|[-> Hd']]; cbn; [|stop_carry Hsm].
  destruct (Hinc c Hc) as [[-> ->]|[-> Hc']]; cbn; [|stop_carry Hsm].
  destruct (Hinc b Hb) as [[-> ->]|[-> Hb']]; cbn; [|stop_carry Hsm].
  destruct (Hinc a Ha) as [[-> ->]|[-> Ha']]; cbn; [|stop_carry Hsm].
  do 4 eexists. split; [done|]. by vm_compute.
Qed.

Lemma increase_spec a : addr_ok a -> IOAddr.increase (V4 a) = Ok (V4 ((a + 1) mod 2^32)).
Proof.
  intros Ha. destruct (be32_bytes32 a Ha) as (b3 & b2 & b1 & b0 & Eb & Ev).
  pose proof (bytes32_ok a) as Hok. rewrite Eb in Hok.
  repeat (apply bytes_ok_cons in Hok as [? Hok]).
  unfold IOAddr.increase. cbn [IOAddr.toBytes IOAddr.getFamily]. rewrite Eb, !bind_Ok.
  cbn [rev app]. destruct (increase_rev_spec b0 b1 b2 b3) as (d & c & b & x & -> & ? & ? & ? & ? & E); [done..|].
  cbn [rev app]. rewrite fromBytes_ok by done. by rewrite E, Ev.
Qed.

(** *** Lease-time clamping *)
Lemma get_hint_clamp t h :
  min_ t <= max_ t -> Trip.get_hint t h = Z.max (min_ t) (Z.min h (max_ t)).
Proof.
  intros. unfold Trip.get_hint. destruct (Z.leb_spec h (min_ t)); [lia|].
  destruct (Z.leb_spec (max_ t) h); lia.
Qed.

(** *** Byte order *)
Lemma bswap32_involutive v : addr_ok v -> IOAddr.bswap32 (IOAddr.bswap32 v) = v.
Proof.
  intros Hv. destruct (be32_bytes32 v Hv) as (a & b & c & d & E & Ev).
  pose proof (bytes32_ok v) as Hok. rewrite E in Hok.
  repeat (apply bytes_ok_cons in Hok as [? Hok]).
  unfold IOAddr.bswap32 at 2. rewrite E. unfold IOAddr.bswap32.
  by rewrite bytes32_be32.
Qed.
