(* ===== verification/OptionDef.v ===== *)
(** Option definitions: the data types of option fields, [OptionDefinition],
    [OptionMeta], the standard and vendor tables and the lookups of [LibDHCP].

    [OptionDefinition::optionFactory] builds options and is in Options.v; this
    file has the data it dispatches on. *)
From stdpp Require Import base list numbers option strings gmap.
From Stdlib Require Import ZArith Lia.
From S2P Require Import Prelude Buffer Address DnsName.

(** ** Option codes *)
Definition DHO_PAD : Z := 0.
Definition DHO_SUBNET_MASK : Z := 1.
Definition DHO_TIME_OFFSET : Z := 2.
Definition DHO_ROUTERS : Z := 3.
Definition DHO_TIME_SERVERS : Z := 4.
Definition DHO_NAME_SERVERS : Z := 5.
Definition DHO_DOMAIN_NAME_SERVERS : Z := 6.
Definition DHO_LOG_SERVERS : Z := 7.
Definition DHO_COOKIE_SERVERS : Z := 8.
Definition DHO_LPR_SERVERS : Z := 9.
Definition DHO_IMPRESS_SERVERS : Z := 10.
Definition DHO_RESOURCE_LOCATION_SERVERS : Z := 11.
Definition DHO_HOST_NAME : Z := 12.
Definition DHO_BOOT_SIZE : Z := 13.
Definition DHO_MERIT_DUMP : Z := 14.
Definition DHO_DOMAIN_NAME : Z := 15.
Definition DHO_SWAP_SERVER : Z := 16.
Definition DHO_ROOT_PATH : Z := 17.
Definition DHO_EXTENSIONS_PATH : Z := 18.
Definition DHO_IP_FORWARDING : Z := 19.
Definition DHO_NON_LOCAL_SOURCE_ROUTING : Z := 20.
Definition DHO_POLICY_FILTER : Z := 21.
Definition DHO_MAX_DGRAM_REASSEMBLY : Z := 22.
Definition DHO_DEFAULT_IP_TTL : Z := 23.
Definition DHO_PATH_MTU_AGING_TIMEOUT : Z := 24.
Definition DHO_PATH_MTU_PLATEAU_TABLE : Z := 25.
Definition DHO_INTERFACE_MTU : Z := 26.
Definition DHO_ALL_SUBNETS_LOCAL : Z := 27.
Definition DHO_BROADCAST_ADDRESS : Z := 28.
Definition DHO_PERFORM_MASK_DISCOVERY : Z := 29.
Definition DHO_MASK_SUPPLIER : Z := 30.
Definition DHO_ROUTER_DISCOVERY : Z := 31.
Definition DHO_ROUTER_SOLICITATION_ADDRESS : Z := 32.
Definition DHO_STATIC_ROUTES : Z := 33.
Definition DHO_TRAILER_ENCAPSULATION : Z := 34.
Definition DHO_ARP_CACHE_TIMEOUT : Z := 35.
Definition DHO_IEEE802_3_ENCAPSULATION : Z := 36.
Definition DHO_DEFAULT_TCP_TTL : Z := 37.
Definition DHO_TCP_KEEPALIVE_INTERVAL : Z := 38.
Definition DHO_TCP_KEEPALIVE_GARBAGE : Z := 39.
Definition DHO_NIS_DOMAIN : Z := 40.
Definition DHO_NIS_SERVERS : Z := 41.
Definition DHO_NTP_SERVERS : Z := 42.
Definition DHO_VENDOR_ENCAPSULATED_OPTIONS : Z := 43.
Definition DHO_NETBIOS_NAME_SERVERS : Z := 44.
Definition DHO_NETBIOS_DD_SERVER : Z := 45.
Definition DHO_NETBIOS_NODE_TYPE : Z := 46.
Definition DHO_NETBIOS_SCOPE : Z := 47.
Definition DHO_FONT_SERVERS : Z := 48.
Definition DHO_X_DISPLAY_MANAGER : Z := 49.
Definition DHO_DHCP_REQUESTED_ADDRESS : Z := 50.
Definition DHO_DHCP_LEASE_TIME : Z := 51.
Definition DHO_DHCP_OPTION_OVERLOAD : Z := 52.
Definition DHO_DHCP_MESSAGE_TYPE : Z := 53.
Definition DHO_DHCP_SERVER_IDENTIFIER : Z := 54.
Definition DHO_DHCP_PARAMETER_REQUEST_LIST : Z := 55.
Definition DHO_DHCP_MESSAGE : Z := 56.
Definition DHO_DHCP_MAX_MESSAGE_SIZE : Z := 57.
Definition DHO_DHCP_RENEWAL_TIME : Z := 58.
Definition DHO_DHCP_REBINDING_TIME : Z := 59.
Definition DHO_VENDOR_CLASS_IDENTIFIER : Z := 60.
Definition DHO_DHCP_CLIENT_IDENTIFIER : Z := 61.
Definition DHO_NWIP_DOMAIN_NAME : Z := 62.
Definition DHO_NWIP_SUBOPTIONS : Z := 63.
Definition DHO_NISP_DOMAIN_NAME : Z := 64.
Definition DHO_NISP_SERVER_ADDR : Z := 65.
Definition DHO_TFTP_SERVER_NAME : Z := 66.
Definition DHO_BOOT_FILE_NAME : Z := 67.
Definition DHO_HOME_AGENT_ADDRS : Z := 68.
Definition DHO_SMTP_SERVER : Z := 69.
Definition DHO_POP3_SERVER : Z := 70.
Definition DHO_NNTP_SERVER : Z := 71.
Definition DHO_WWW_SERVER : Z := 72.
Definition DHO_FINGER_SERVER : Z := 73.
Definition DHO_IRC_SERVER : Z := 74.
Definition DHO_STREETTALK_SERVER : Z := 75.
Definition DHO_STDASERVER : Z := 76.
Definition DHO_USER_CLASS : Z := 77.
Definition DHO_FQDN : Z := 81.
Definition DHO_DHCP_AGENT_OPTIONS : Z := 82.
Definition DHO_AUTHENTICATE : Z := 90.
Definition DHO_CLIENT_LAST_TRANSACTION_TIME : Z := 91.
Definition DHO_ASSOCIATED_IP : Z := 92.
Definition DHO_SYSTEM : Z := 93.
Definition DHO_NDI : Z := 94.
Definition DHO_UUID_GUID : Z := 97.
Definition DHO_SUBNET_SELECTION : Z := 118.
Definition DHO_DOMAIN_SEARCH : Z := 119.
Definition DHO_VIVCO_SUBOPTIONS : Z := 124.
Definition DHO_VIVSO_SUBOPTIONS : Z := 125.
Definition DHO_END : Z := 255.

Definition RAI_OPTION_LINK_SELECTION : Z := 5.
Definition VENDOR_ID_CABLE_LABS : Z := 4491.
Definition DOCSIS3_V4_ORO : Z := 1.
Definition DOCSIS3_V4_TFTP_SERVERS : Z := 2.

Definition DHCP4_OPTION_SPACE : string := "dhcp4".
Definition V4ADDRESS_LEN : Z := 4.

(** ** Data types of option fields *)
Inductive OptionDataType : Set :=
| OPT_EMPTY_TYPE | OPT_BINARY_TYPE | OPT_BOOLEAN_TYPE
| OPT_INT8_TYPE | OPT_INT16_TYPE | OPT_INT32_TYPE
| OPT_UINT8_TYPE | OPT_UINT16_TYPE | OPT_UINT32_TYPE
| OPT_ANY_ADDRESS_TYPE | OPT_IPV4_ADDRESS_TYPE
| OPT_STRING_TYPE | OPT_FQDN_TYPE | OPT_RECORD_TYPE | OPT_UNKNOWN_TYPE.

#[global] Instance OptionDataType_eq_dec : EqDecision OptionDataType.
Proof. solve_decision. Defined.

(** The integer types of the [OptionInt] and [OptionIntArray] templates. *)
Inductive int_type : Set := Int8 | Int16 | Int32 | Uint8 | Uint16 | Uint32.

#[global] Instance int_type_eq_dec : EqDecision int_type.
Proof. solve_decision. Defined.

Definition sizeof (t : int_type) : Z :=
  match t with Int8 | Uint8 => 1 | Int16 | Uint16 => 2 | Int32 | Uint32 => 4 end.

(** Conversion of an integer to the type. *)
Definition cast (t : int_type) (v : Z) : Z :=
  match t with
  | Int8 => s8 v | Int16 => s16 v | Int32 => s32 v
  | Uint8 => u8 v | Uint16 => u16 v | Uint32 => u32 v
  end.

Module OptionDataTypeUtil.

Definition StringDataTypeMap : list (string * OptionDataType) :=
  [("empty", OPT_EMPTY_TYPE); ("binary", OPT_BINARY_TYPE); ("boolean", OPT_BOOLEAN_TYPE);
   ("int8", OPT_INT8_TYPE); ("int16", OPT_INT16_TYPE); ("int32", OPT_INT32_TYPE);
   ("uint8", OPT_UINT8_TYPE); ("uint16", OPT_UINT16_TYPE); ("uint32", OPT_UINT32_TYPE);
   ("ipv4-address", OPT_IPV4_ADDRESS_TYPE); ("string", OPT_STRING_TYPE);
   ("fqdn", OPT_FQDN_TYPE); ("record", OPT_RECORD_TYPE)]%string.

Definition DataTypeStringMap : list (OptionDataType * string) :=
  [(OPT_BOOLEAN_TYPE, "boolean"); (OPT_INT8_TYPE, "int8"); (OPT_INT16_TYPE, "int16");
   (OPT_INT32_TYPE, "int32"); (OPT_UINT8_TYPE, "uint8"); (OPT_UINT16_TYPE, "uint16");
   (OPT_UINT32_TYPE, "uint32"); (OPT_IPV4_ADDRESS_TYPE, "ipv4-address");
   (OPT_STRING_TYPE, "string"); (OPT_FQDN_TYPE, "fqdn"); (OPT_RECORD_TYPE, "record");
   (OPT_UNKNOWN_TYPE, "unknown")]%string.

Definition assoc {K V} `{EqDecision K} (k : K) (l : list (K * V)) : option V :=
  snd <$> List.find (fun p => bool_decide (fst p = k)) l.

Definition getDataType (name : string) : OptionDataType :=
  default OPT_UNKNOWN_TYPE (assoc name StringDataTypeMap).

Definition getDataTypeName (t : OptionDataType) : string :=
  default "unknown"%string (assoc t DataTypeStringMap).

Definition getDataTypeLen (t : OptionDataType) : Z :=
  match t with
  | OPT_BOOLEAN_TYPE | OPT_INT8_TYPE | OPT_UINT8_TYPE => 1
  | OPT_INT16_TYPE | OPT_UINT16_TYPE => 2
  | OPT_INT32_TYPE | OPT_UINT32_TYPE => 4
  | OPT_IPV4_ADDRESS_TYPE => V4ADDRESS_LEN
  | _ => 0
  end.

Definition readAddress (buf : list Z) (family : Z) : result IOAddress :=
  if family =? IOAddr.AF_INET then
    throw_if (zlen buf <? V4ADDRESS_LEN) BadDataTypeCast;;
    IOAddr.fromBytes family buf
  else Throw BadDataTypeCast.

Definition writeAddress (address : IOAddress) (buf : list Z) : result (list Z) :=
  if IOAddr.isV4 address then b ← IOAddr.toBytes address; Ok (buf ++ b) else Ok buf.

Definition readBool (buf : list Z) : result bool :=
  match buf with
  | [] => Throw BadDataTypeCast
  | b :: _ => if b =? 1 then Ok true else if b =? 0 then Ok false else Throw BadDataTypeCast
  end.

Definition writeBool (value : bool) (buf : list Z) : list Z := buf ++ [if value then 1 else 0].

(** [readInt<T>]: the unsigned wire value converted to [T]. *)
Definition readInt (t : int_type) (buf : list Z) : result Z :=
  throw_if (zlen buf <? sizeof t) BadDataTypeCast;;
  v ← match sizeof t with
      | 1 => zget buf 0
      | 2 => IOUtil.readUint16 buf
      | _ => IOUtil.readUint32 buf
      end;
  Ok (cast t v).

Definition writeInt (t : int_type) (value : Z) (buf : list Z) : list Z :=
  buf ++ match sizeof t with
         | 1 => [u8 value]
         | 2 => bytes16 (u16 value)
         | _ => bytes32 (u32 value)
         end.

Definition readFqdn (buf : list Z) : result (list Z) :=
  throw_if (TextParser.is_nil buf) BadDataTypeCast;;
  try_kea ('(name, _) ← Name_from_wire (InputBuffer.make buf) false; Name_toText name false)
    (fun _ => Throw BadDataTypeCast).

Definition writeFqdn (fqdn : list Z) (buf : list Z) (downcase : bool) : result (list Z) :=
  try_kea
    (name ← Name_from_text fqdn downcase;
     let labels := LabelSequence.of_name name in
     len ← LabelSequence.getDataLength labels;
     if 0 <? len then d ← LabelSequence.getData labels; Ok (buf ++ d) else Ok buf)
    (fun _ => Throw BadDataTypeCast).

Definition getLabelCount (text_name : list Z) : result Z :=
  if TextParser.is_nil text_name then Ok 0
  else try_kea (name ← Name_from_text text_name false; Ok (labelcount_ name))
         (fun _ => Throw BadDataTypeCast).

Definition readString (buf : list Z) : list Z := buf.
Definition writeString (value buf : list Z) : list Z := buf ++ value.

End OptionDataTypeUtil.

(** ** Names of options and option spaces *)
Definition name_char (c : Ascii.ascii) : bool :=
  let z := char_code c in
  ((97 <=? z) && (z <=? 122)) || ((65 <=? z) && (z <=? 90)) || isdigit z || (z =? 45) || (z =? 95).
Definition hyphen (c : Ascii.ascii) : bool :=
  (char_code c =? 45) || (char_code c =? 95).

(** [find_head(name, 1)] and [find_tail(name, 1)] are empty or one character. *)
Definition all_head (name : string) (p : Ascii.ascii -> bool) : bool :=
  match String.list_ascii_of_string name with [] => true | c :: _ => p c end.
Definition all_tail (name : string) (p : Ascii.ascii -> bool) : bool :=
  match last (String.list_ascii_of_string name) with None => true | Some c => p c end.

Definition validateName (name : string) : bool :=
  forallb name_char (String.list_ascii_of_string name) && negb (bool_decide (name = ""%string)) &&
  negb (all_head name hyphen) && negb (all_tail name hyphen).

Record OptionSpace := MkOptionSpace { space_name_ : string; vendor_space_ : bool }.

Definition OptionSpace_make (name : string) (vendor_space : bool) : result OptionSpace :=
  throw_if (negb (validateName name)) InvalidOptionSpace;; Ok (MkOptionSpace name vendor_space).

(** ** Definitions *)
Record OptionDefinition := MkOptionDefinition {
  name_ : string;
  code_ : Z;
  otype_ : OptionDataType;
  array_type_ : bool;
  encapsulated_space_ : string;
  record_fields_ : list OptionDataType }.

#[global] Instance OptionDefinition_eq_dec : EqDecision OptionDefinition.
Proof. solve_decision. Defined.

Module OptionDef.

Definition make (name : string) (code : Z) (type : OptionDataType) (array_type : bool) : OptionDefinition :=
  MkOptionDefinition name code type array_type "" [].
Definition make_by_name (name : string) (code : Z) (type : string) (array_type : bool) : OptionDefinition :=
  make name code (OptionDataTypeUtil.getDataType type) array_type.
Definition make_encap (name : string) (code : Z) (type : OptionDataType) (space : string) : OptionDefinition :=
  MkOptionDefinition name code type false space [].

Definition equals (a b : OptionDefinition) : bool :=
  bool_decide (name_ a = name_ b) && (code_ a =? code_ b) && bool_decide (otype_ a = otype_ b) &&
  Bool.eqb (array_type_ a) (array_type_ b) &&
  bool_decide (encapsulated_space_ a = encapsulated_space_ b) &&
  bool_decide (record_fields_ a = record_fields_ b).

Definition addRecordField (data_type : OptionDataType) (d : OptionDefinition) : result OptionDefinition :=
  throw_if (negb (bool_decide (otype_ d = OPT_RECORD_TYPE))) InvalidOperation;;
  throw_if (match data_type with
            | OPT_RECORD_TYPE | OPT_UNKNOWN_TYPE | OPT_ANY_ADDRESS_TYPE | OPT_EMPTY_TYPE => true
            | _ => false
            end) BadValue;;
  Ok (MkOptionDefinition (name_ d) (code_ d) (otype_ d) (array_type_ d) (encapsulated_space_ d)
        (record_fields_ d ++ [data_type])).

Definition haveType (t : OptionDataType) (d : OptionDefinition) : bool := bool_decide (t = otype_ d).

Definition haveFqdn4Format (d : OptionDefinition) : bool :=
  haveType OPT_RECORD_TYPE d &&
  bool_decide (record_fields_ d = [OPT_UINT8_TYPE; OPT_UINT8_TYPE; OPT_UINT8_TYPE; OPT_FQDN_TYPE]).
Definition haveClientFqdnFormat (d : OptionDefinition) : bool :=
  haveType OPT_RECORD_TYPE d && bool_decide (record_fields_ d = [OPT_UINT8_TYPE; OPT_FQDN_TYPE]).
Definition haveVendor4Format (d : OptionDefinition) : bool := true.
Definition haveVendorClass4Format (d : OptionDefinition) : bool :=
  haveType OPT_RECORD_TYPE d && bool_decide (record_fields_ d = [OPT_UINT32_TYPE; OPT_BINARY_TYPE]).
Definition haveStatusCodeFormat (d : OptionDefinition) : bool :=
  haveType OPT_RECORD_TYPE d && bool_decide (record_fields_ d = [OPT_UINT16_TYPE; OPT_STRING_TYPE]).
Definition haveOpaqueDataTuplesFormat (d : OptionDefinition) : bool :=
  bool_decide (otype_ d = OPT_BINARY_TYPE).

(** The loop over the record fields: whether it wrote to [err_str].  A field
    before the last one must be neither a string nor binary, none may be
    empty. *)
Fixpoint fields_error (fields : list OptionDataType) (err : bool) : bool :=
  match fields with
  | [] => err
  | f :: rest =>
      let more := match rest with [] => false | _ => true end in
      if bool_decide (f = OPT_STRING_TYPE) && more then true
      else
        let err := err || (bool_decide (f = OPT_BINARY_TYPE) && more) in
        if bool_decide (f = OPT_EMPTY_TYPE) then true else fields_error rest err
  end.

Definition validate (d : OptionDefinition) : result unit :=
  let name := name_ d in
  let err :=
    if negb (forallb name_char (String.list_ascii_of_string name)) || bool_decide (name = ""%string) ||
       all_head name hyphen || all_tail name hyphen then true
    else if negb (bool_decide (encapsulated_space_ d = ""%string)) &&
            negb (validateName (encapsulated_space_ d)) then true
    else if bool_decide (otype_ d = OPT_UNKNOWN_TYPE) then true
    else if array_type_ d then
      match otype_ d with OPT_STRING_TYPE | OPT_BINARY_TYPE | OPT_EMPTY_TYPE => true | _ => false end
    else if bool_decide (otype_ d = OPT_RECORD_TYPE) then
      if zlen (record_fields_ d) <? 2 then true else fields_error (record_fields_ d) false
    else false in
  throw_if err MalformedOptionDefinition.

End OptionDef.

(** ** OptionMeta: lookup by code and by name; a second definition with the
    same key is not inserted. *)
Record OptionMeta := MkOptionMeta {
  code_to_def_ : gmap Z OptionDefinition;
  name_to_def_ : gmap string OptionDefinition }.

Module Meta.
Definition empty : OptionMeta := MkOptionMeta ∅ ∅.

Definition insert_new {K} `{Countable K} (k : K) (d : OptionDefinition)
    (m : gmap K OptionDefinition) : gmap K OptionDefinition :=
  match m !! k with Some _ => m | None => <[k := d]> m end.

Definition addOptionDef (d : OptionDefinition) (m : OptionMeta) : OptionMeta :=
  MkOptionMeta (insert_new (code_ d) d (code_to_def_ m)) (insert_new (name_ d) d (name_to_def_ m)).

Definition getOptionDef_code (code : Z) (m : OptionMeta) : option OptionDefinition := code_to_def_ m !! code.
Definition getOptionDef_name (name : string) (m : OptionMeta) : option OptionDefinition := name_to_def_ m !! name.
End Meta.

(** ** Descriptions and the standard tables *)
Record OptionDescription := MkDesc {
  dname : string; dcode : Z; dtype : OptionDataType; darray : bool;
  drecords : list OptionDataType; dencapsulates : string }.

Definition optionDefFromDescription (d : OptionDescription) : result OptionDefinition :=
  throw_if (negb (bool_decide (dencapsulates d = ""%string)) && darray d) BadValue;;
  let def :=
    if bool_decide (dencapsulates d = ""%string)
    then OptionDef.make (dname d) (dcode d) (dtype d) (darray d)
    else OptionDef.make_encap (dname d) (dcode d) (dtype d) (dencapsulates d) in
  def ← foldM (fun def t => OptionDef.addRecordField t def) def (drecords d);
  OptionDef.validate def;;
  Ok def.

Definition EMPTY_RECORDS : list OptionDataType := [].
Definition FQDN_RECORDS : list OptionDataType := [OPT_UINT8_TYPE; OPT_UINT8_TYPE; OPT_UINT8_TYPE; OPT_FQDN_TYPE].
Definition VIVCO_RECORDS : list OptionDataType := [OPT_UINT32_TYPE; OPT_BINARY_TYPE].
Definition CLIENT_NDI_RECORDS : list OptionDataType := [OPT_UINT8_TYPE; OPT_UINT8_TYPE; OPT_UINT8_TYPE].
Definition UUID_GUID_RECORDS : list OptionDataType := [OPT_UINT8_TYPE; OPT_BINARY_TYPE].

Definition OPTION_DEF_PARAMS4 : list OptionDescription :=
  [MkDesc "subnet-mask" DHO_SUBNET_MASK OPT_IPV4_ADDRESS_TYPE false EMPTY_RECORDS "";
   MkDesc "time-offset" DHO_TIME_OFFSET OPT_INT32_TYPE false EMPTY_RECORDS "";
   MkDesc "routers" DHO_ROUTERS OPT_IPV4_ADDRESS_TYPE true EMPTY_RECORDS "";
   MkDesc "time-servers" DHO_TIME_SERVERS OPT_IPV4_ADDRESS_TYPE true EMPTY_RECORDS "";
   MkDesc "name-servers" DHO_NAME_SERVERS OPT_IPV4_ADDRESS_TYPE true EMPTY_RECORDS "";
   MkDesc "domain-name-servers" DHO_DOMAIN_NAME_SERVERS OPT_IPV4_ADDRESS_TYPE true EMPTY_RECORDS "";
   MkDesc "log-servers" DHO_LOG_SERVERS OPT_IPV4_ADDRESS_TYPE true EMPTY_RECORDS "";
   MkDesc "cookie-servers" DHO_COOKIE_SERVERS OPT_IPV4_ADDRESS_TYPE true EMPTY_RECORDS "";
   MkDesc "lpr-servers" DHO_LPR_SERVERS OPT_IPV4_ADDRESS_TYPE true EMPTY_RECORDS "";
   MkDesc "impress-servers" DHO_IMPRESS_SERVERS OPT_IPV4_ADDRESS_TYPE true EMPTY_RECORDS "";
   MkDesc "resource-location-servers" DHO_RESOURCE_LOCATION_SERVERS OPT_IPV4_ADDRESS_TYPE true EMPTY_RECORDS "";
   MkDesc "host-name" DHO_HOST_NAME OPT_STRING_TYPE false EMPTY_RECORDS "";
   MkDesc "boot-size" DHO_BOOT_SIZE OPT_UINT16_TYPE false EMPTY_RECORDS "";
   MkDesc "merit-dump" DHO_MERIT_DUMP OPT_STRING_TYPE false EMPTY_RECORDS "";
   MkDesc "domain-name" DHO_DOMAIN_NAME OPT_STRING_TYPE false EMPTY_RECORDS "";
   MkDesc "swap-server" DHO_SWAP_SERVER OPT_IPV4_ADDRESS_TYPE false EMPTY_RECORDS "";
   MkDesc "root-path" DHO_ROOT_PATH OPT_STRING_TYPE false EMPTY_RECORDS "";
   MkDesc "extensions-path" DHO_EXTENSIONS_PATH OPT_STRING_TYPE false EMPTY_RECORDS "";
   MkDesc "ip-forwarding" DHO_IP_FORWARDING OPT_BOOLEAN_TYPE false EMPTY_RECORDS "";
   MkDesc "non-local-source-routing" DHO_NON_LOCAL_SOURCE_ROUTING OPT_BOOLEAN_TYPE false EMPTY_RECORDS "";
   MkDesc "policy-filter" DHO_POLICY_FILTER OPT_IPV4_ADDRESS_TYPE true EMPTY_RECORDS "";
   MkDesc "max-dgram-reassembly" DHO_MAX_DGRAM_REASSEMBLY OPT_UINT16_TYPE false EMPTY_RECORDS "";
   MkDesc "default-ip-ttl" DHO_DEFAULT_IP_TTL OPT_UINT8_TYPE false EMPTY_RECORDS "";
   MkDesc "path-mtu-aging-timeout" DHO_PATH_MTU_AGING_TIMEOUT OPT_UINT32_TYPE false EMPTY_RECORDS "";
   MkDesc "path-mtu-plateau-table" DHO_PATH_MTU_PLATEAU_TABLE OPT_UINT16_TYPE true EMPTY_RECORDS "";
   MkDesc "interface-mtu" DHO_INTERFACE_MTU OPT_UINT16_TYPE false EMPTY_RECORDS "";
   MkDesc "all-subnets-local" DHO_ALL_SUBNETS_LOCAL OPT_BOOLEAN_TYPE false EMPTY_RECORDS "";
   MkDesc "broadcast-address" DHO_BROADCAST_ADDRESS OPT_IPV4_ADDRESS_TYPE false EMPTY_RECORDS "";
   MkDesc "perform-mask-discovery" DHO_PERFORM_MASK_DISCOVERY OPT_BOOLEAN_TYPE false EMPTY_RECORDS "";
   MkDesc "mask-supplier" DHO_MASK_SUPPLIER OPT_BOOLEAN_TYPE false EMPTY_RECORDS "";
   MkDesc "router-discovery" DHO_ROUTER_DISCOVERY OPT_BOOLEAN_TYPE false EMPTY_RECORDS "";
   MkDesc "router-solicitation-address" DHO_ROUTER_SOLICITATION_ADDRESS OPT_IPV4_ADDRESS_TYPE false EMPTY_RECORDS "";
   MkDesc "static-routes" DHO_STATIC_ROUTES OPT_IPV4_ADDRESS_TYPE true EMPTY_RECORDS "";
   MkDesc "trailer-encapsulation" DHO_TRAILER_ENCAPSULATION OPT_BOOLEAN_TYPE false EMPTY_RECORDS "";
   MkDesc "arp-cache-timeout" DHO_ARP_CACHE_TIMEOUT OPT_UINT32_TYPE false EMPTY_RECORDS "";
   MkDesc "ieee802-3-encapsulation" DHO_IEEE802_3_ENCAPSULATION OPT_BOOLEAN_TYPE false EMPTY_RECORDS "";
   MkDesc "default-tcp-ttl" DHO_DEFAULT_TCP_TTL OPT_UINT8_TYPE false EMPTY_RECORDS "";
   MkDesc "tcp-keepalive-interval" DHO_TCP_KEEPALIVE_INTERVAL OPT_UINT32_TYPE false EMPTY_RECORDS "";
   MkDesc "tcp-keepalive-garbage" DHO_TCP_KEEPALIVE_GARBAGE OPT_BOOLEAN_TYPE false EMPTY_RECORDS "";
   MkDesc "nis-domain" DHO_NIS_DOMAIN OPT_STRING_TYPE false EMPTY_RECORDS "";
   MkDesc "nis-servers" DHO_NIS_SERVERS OPT_IPV4_ADDRESS_TYPE true EMPTY_RECORDS "";
   MkDesc "ntp-servers" DHO_NTP_SERVERS OPT_IPV4_ADDRESS_TYPE true EMPTY_RECORDS "";
   MkDesc "vendor-encapsulated-options" DHO_VENDOR_ENCAPSULATED_OPTIONS OPT_EMPTY_TYPE false EMPTY_RECORDS "vendor-encapsulated-options-space";
   MkDesc "netbios-name-servers" DHO_NETBIOS_NAME_SERVERS OPT_IPV4_ADDRESS_TYPE true EMPTY_RECORDS "";
   MkDesc "netbios-dd-server" DHO_NETBIOS_DD_SERVER OPT_IPV4_ADDRESS_TYPE true EMPTY_RECORDS "";
   MkDesc "netbios-node-type" DHO_NETBIOS_NODE_TYPE OPT_UINT8_TYPE false EMPTY_RECORDS "";
   MkDesc "netbios-scope" DHO_NETBIOS_SCOPE OPT_STRING_TYPE false EMPTY_RECORDS "";
   MkDesc "font-servers" DHO_FONT_SERVERS OPT_IPV4_ADDRESS_TYPE true EMPTY_RECORDS "";
   MkDesc "x-display-manager" DHO_X_DISPLAY_MANAGER OPT_IPV4_ADDRESS_TYPE true EMPTY_RECORDS "";
   MkDesc "dhcp-requested-address" DHO_DHCP_REQUESTED_ADDRESS OPT_IPV4_ADDRESS_TYPE false EMPTY_RECORDS "";
   MkDesc "dhcp-lease-time" DHO_DHCP_LEASE_TIME OPT_UINT32_TYPE false EMPTY_RECORDS "";
   MkDesc "dhcp-option-overload" DHO_DHCP_OPTION_OVERLOAD OPT_UINT8_TYPE false EMPTY_RECORDS "";
   MkDesc "dhcp-message-type" DHO_DHCP_MESSAGE_TYPE OPT_UINT8_TYPE false EMPTY_RECORDS "";
   MkDesc "dhcp-server-identifier" DHO_DHCP_SERVER_IDENTIFIER OPT_IPV4_ADDRESS_TYPE false EMPTY_RECORDS "";
   MkDesc "dhcp-parameter-request-list" DHO_DHCP_PARAMETER_REQUEST_LIST OPT_UINT8_TYPE true EMPTY_RECORDS "";
   MkDesc "dhcp-message" DHO_DHCP_MESSAGE OPT_STRING_TYPE false EMPTY_RECORDS "";
   MkDesc "dhcp-max-message-size" DHO_DHCP_MAX_MESSAGE_SIZE OPT_UINT16_TYPE false EMPTY_RECORDS "";
   MkDesc "dhcp-renewal-time" DHO_DHCP_RENEWAL_TIME OPT_UINT32_TYPE false EMPTY_RECORDS "";
   MkDesc "dhcp-rebinding-time" DHO_DHCP_REBINDING_TIME OPT_UINT32_TYPE false EMPTY_RECORDS "";
   MkDesc "vendor-class-identifier" DHO_VENDOR_CLASS_IDENTIFIER OPT_STRING_TYPE false EMPTY_RECORDS "";
   MkDesc "dhcp-client-identifier" DHO_DHCP_CLIENT_IDENTIFIER OPT_BINARY_TYPE false EMPTY_RECORDS "";
   MkDesc "nwip-domain-name" DHO_NWIP_DOMAIN_NAME OPT_STRING_TYPE false EMPTY_RECORDS "";
   MkDesc "nwip-suboptions" DHO_NWIP_SUBOPTIONS OPT_BINARY_TYPE false EMPTY_RECORDS "";
   MkDesc "nisplus-domain-name" DHO_NISP_DOMAIN_NAME OPT_STRING_TYPE false EMPTY_RECORDS "";
   MkDesc "nisplus-servers" DHO_NISP_SERVER_ADDR OPT_IPV4_ADDRESS_TYPE true EMPTY_RECORDS "";
   MkDesc "tftp-server-name" DHO_TFTP_SERVER_NAME OPT_STRING_TYPE false EMPTY_RECORDS "";
   MkDesc "boot-file-name" DHO_BOOT_FILE_NAME OPT_STRING_TYPE false EMPTY_RECORDS "";
   MkDesc "mobile-ip-home-agent" DHO_HOME_AGENT_ADDRS OPT_IPV4_ADDRESS_TYPE true EMPTY_RECORDS "";
   MkDesc "smtp-server" DHO_SMTP_SERVER OPT_IPV4_ADDRESS_TYPE true EMPTY_RECORDS "";
   MkDesc "pop-server" DHO_POP3_SERVER OPT_IPV4_ADDRESS_TYPE true EMPTY_RECORDS "";
   MkDesc "nntp-server" DHO_NNTP_SERVER OPT_IPV4_ADDRESS_TYPE true EMPTY_RECORDS "";
   MkDesc "www-server" DHO_WWW_SERVER OPT_IPV4_ADDRESS_TYPE true EMPTY_RECORDS "";
   MkDesc "finger-server" DHO_FINGER_SERVER OPT_IPV4_ADDRESS_TYPE true EMPTY_RECORDS "";
   MkDesc "irc-server" DHO_IRC_SERVER OPT_IPV4_ADDRESS_TYPE true EMPTY_RECORDS "";
   MkDesc "streettalk-server" DHO_STREETTALK_SERVER OPT_IPV4_ADDRESS_TYPE true EMPTY_RECORDS "";
   MkDesc "streettalk-directory-assistance-server" DHO_STDASERVER OPT_IPV4_ADDRESS_TYPE true EMPTY_RECORDS "";
   MkDesc "user-class" DHO_USER_CLASS OPT_BINARY_TYPE false EMPTY_RECORDS "";
   MkDesc "fqdn" DHO_FQDN OPT_RECORD_TYPE false FQDN_RECORDS "";
   MkDesc "dhcp-agent-options" DHO_DHCP_AGENT_OPTIONS OPT_EMPTY_TYPE false EMPTY_RECORDS "dhcp-agent-options-space";
   MkDesc "authenticate" DHO_AUTHENTICATE OPT_BINARY_TYPE false EMPTY_RECORDS "";
   MkDesc "client-last-transaction-time" DHO_CLIENT_LAST_TRANSACTION_TIME OPT_UINT32_TYPE false EMPTY_RECORDS "";
   MkDesc "associated-ip" DHO_ASSOCIATED_IP OPT_IPV4_ADDRESS_TYPE true EMPTY_RECORDS "";
   MkDesc "client-system" DHO_SYSTEM OPT_UINT16_TYPE true EMPTY_RECORDS "";
   MkDesc "client-ndi" DHO_NDI OPT_RECORD_TYPE false CLIENT_NDI_RECORDS "";
   MkDesc "uuid-guid" DHO_UUID_GUID OPT_RECORD_TYPE false UUID_GUID_RECORDS "";
   MkDesc "subnet-selection" DHO_SUBNET_SELECTION OPT_IPV4_ADDRESS_TYPE false EMPTY_RECORDS "";
   MkDesc "domain-search" DHO_DOMAIN_SEARCH OPT_FQDN_TYPE true EMPTY_RECORDS "";
   MkDesc "vivco-suboptions" DHO_VIVCO_SUBOPTIONS OPT_RECORD_TYPE false VIVCO_RECORDS "";
   MkDesc "vivso-suboptions" DHO_VIVSO_SUBOPTIONS OPT_UINT32_TYPE false EMPTY_RECORDS ""]%string.

Definition DOCSIS3_V4_DEFS : list OptionDescription :=
  [MkDesc "oro" DOCSIS3_V4_ORO OPT_UINT8_TYPE true EMPTY_RECORDS "";
   MkDesc "tftp-servers" DOCSIS3_V4_TFTP_SERVERS OPT_IPV4_ADDRESS_TYPE true EMPTY_RECORDS ""]%string.

(** ** The definition store of [LibDHCP] *)
Record LibDHCP := MkLibDHCP {
  v4_option_meta_ : OptionMeta;
  vendor_v4_options_ : gmap Z OptionMeta;
  runtime_options_ : gmap string OptionMeta }.

Module Lib.

Definition add_descriptions (ds : list OptionDescription) (m : OptionMeta) : result OptionMeta :=
  foldM (fun m d => def ← optionDefFromDescription d; Ok (Meta.addOptionDef def m)) m ds.

Definition initOptions (l : LibDHCP) : result LibDHCP :=
  std ← add_descriptions OPTION_DEF_PARAMS4 Meta.empty;
  ven ← add_descriptions DOCSIS3_V4_DEFS Meta.empty;
  Ok (MkLibDHCP std {[VENDOR_ID_CABLE_LABS := ven]} (runtime_options_ l)).

Definition getStdOptionDef (code : Z) (l : LibDHCP) : option OptionDefinition :=
  Meta.getOptionDef_code code (v4_option_meta_ l).
Definition getVendorOptionDef (vendor_id code : Z) (l : LibDHCP) : option OptionDefinition :=
  match vendor_v4_options_ l !! vendor_id with
  | Some m => Meta.getOptionDef_code code m | None => None end.
Definition getRuntimeOptionDef (space : string) (code : Z) (l : LibDHCP) : option OptionDefinition :=
  match runtime_options_ l !! space with
  | Some m => Meta.getOptionDef_code code m | None => None end.

Definition addRuntimeOptionDef (space : string) (d : OptionDefinition) (l : LibDHCP) : LibDHCP :=
  let m := default Meta.empty (runtime_options_ l !! space) in
  MkLibDHCP (v4_option_meta_ l) (vendor_v4_options_ l)
    (<[space := Meta.addOptionDef d m]> (runtime_options_ l)).
Definition clearRuntimeOptionDefs (l : LibDHCP) : LibDHCP :=
  MkLibDHCP (v4_option_meta_ l) (vendor_v4_options_ l) ∅.

Definition isStandardOption (code : Z) : bool :=
  negb ((code =? 84) || (code =? 96) || ((101 <? code) && (code <? 112)) ||
        (code =? 115) || (code =? 126) || (code =? 127) ||
        ((146 <? code) && (code <? 150)) || ((177 <? code) && (code <? 208)) ||
        ((213 <? code) && (code <? 220)) || ((221 <? code) && (code <? 255))).

(** [lexical_cast] is boost's conversion of a text to a 64-bit integer. *)
Definition optionSpaceToVendorId (lexical_cast : list Z -> option Z) (option_space : list Z) : Z :=
  if (zlen option_space <? 8) || negb (bool_decide (take 7 option_space = bytes_of "vendor-")) then 0
  else match lexical_cast (drop 7 option_space) with
       | None => 0
       | Some check => if (check <? 0) || (2^32 - 1 <? check) then 0 else u32 check
       end.

Definition no_defs : LibDHCP := MkLibDHCP Meta.empty ∅ ∅.

End Lib.
