(* ===== verification/Options.v ===== *)
(** DHCPv4 options: the class hierarchy rooted at [Option] and the option
    codec of [LibDHCP].

    An option is the base-class state (type, data, sub-options, encapsulated
    space) together with the state of its dynamic class ([body]).  A
    collection is the [std::multimap] of the source: a list of key and option
    sorted by key, equal keys in insertion order.  [pack] returns the bytes an
    option appends to the output buffer, [unpackOptions4] is the parser with
    its factories; parser and factories recurse into each other through
    sub-options, and the recursion is on fuel (one unit per byte is enough,
    proved in OptionsFacts.v). *)
From stdpp Require Import base list numbers option strings gmap.
From Stdlib Require Import ZArith Lia.
From S2P Require Import Prelude Buffer Address DnsName OptionDef.

Set Warnings "-register-all".

Definition OPTION4_HDR_LEN : Z := 2.

(** ** Data *)
Inductive DomainNameType : Set := PARTIAL | FULL.

#[global] Instance DomainNameType_eq_dec : EqDecision DomainNameType.
Proof. solve_decision. Defined.

(** What each subclass adds to [Option]. *)
Inductive body : Type :=
| BPlain
| BInt (t : int_type) (value : Z)
| BIntArray (t : int_type) (values : list Z)
| BString
| BAddrLst (addrs : list IOAddress)
| BCustom (definition : OptionDefinition) (buffers : list (list Z))
| BFqdn (flags rcode1 rcode2 : Z) (domain_name : option Name)
        (domain_name_type : option DomainNameType)
| BVendor (vendor_id : Z)
| BVendorClass (vendor_id : Z) (tuples : list (list Z))
| BTuples (tuples : list (list Z)).

Inductive opt : Type :=
| Opt (type_ : Z) (data_ : list Z) (body_ : body) (options_ : list (Z * opt)) (space_ : string).

Abbreviation coll := (list (Z * opt)).

Definition type_ (o : opt) : Z := match o with Opt t _ _ _ _ => t end.
Definition data_ (o : opt) : list Z := match o with Opt _ d _ _ _ => d end.
Definition body_ (o : opt) : body := match o with Opt _ _ b _ _ => b end.
Definition options_ (o : opt) : coll := match o with Opt _ _ _ os _ => os end.
Definition space_ (o : opt) : string := match o with Opt _ _ _ _ s => s end.

Definition set_options (os : coll) (o : opt) : opt :=
  match o with Opt t d b _ s => Opt t d b os s end.
Definition set_data (d : list Z) (o : opt) : opt :=
  match o with Opt t _ b os s => Opt t d b os s end.
Definition set_body (b : body) (o : opt) : opt :=
  match o with Opt t d _ os s => Opt t d b os s end.
Definition setEncapsulatedSpace (s : string) (o : opt) : opt :=
  match o with Opt t d b os _ => Opt t d b os s end.

(** ** The multimap *)
Fixpoint minsert (k : Z) (o : opt) (c : coll) : coll :=
  match c with
  | [] => [(k, o)]
  | (k', o') :: c' => if k <? k' then (k, o) :: c else (k', o') :: minsert k o c'
  end.

Fixpoint mfind (k : Z) (c : coll) : option opt :=
  match c with
  | [] => None
  | (k', o) :: c' => if k' =? k then Some o else mfind k c'
  end.

(** [erase(find(k))] and whether there was something to erase. *)
Fixpoint merase (k : Z) (c : coll) : coll * bool :=
  match c with
  | [] => ([], false)
  | (k', o) :: c' =>
      if k' =? k then (c', true) else let '(r, b) := merase k c' in ((k', o) :: r, b)
  end.

(** ** The base class *)
Module Option_.

(** [Option(type)], [Option(type, data)] *)
Definition make (type : Z) : result opt :=
  throw_if ((type =? 0) || (254 <? type)) BadValue;; Ok (Opt type [] BPlain [] "").

Definition check (o : opt) : result unit :=
  if 255 <? type_ o then Throw OutOfRange
  else throw_if (255 <? zlen (data_ o)) OutOfRange.

Definition make_data (type : Z) (data : list Z) : result opt :=
  let o := Opt type data BPlain [] "" in check o;; Ok o.

Definition getOption (type : Z) (o : opt) : option opt := mfind type (options_ o).

Definition addOption (sub : opt) (o : opt) : result opt :=
  throw_if (match getOption (type_ sub) o with Some _ => true | None => false end) BadValue;;
  Ok (set_options (minsert (type_ sub) sub (options_ o)) o).

Definition delOption (type : Z) (o : opt) : opt * bool :=
  let '(c, b) := merase type (options_ o) in (set_options c o, b).

Definition getUint8 (o : opt) : result Z :=
  throw_if (zlen (data_ o) <? 1) OutOfRange;; zget (data_ o) 0.
Definition getUint16 (o : opt) : result Z := IOUtil.readUint16 (data_ o).
Definition getUint32 (o : opt) : result Z := IOUtil.readUint32 (data_ o).
Definition setUint8 (value : Z) (o : opt) : result opt :=
  d ← zset (resize (data_ o) 1) 0 (u8 value); Ok (set_data d o).
Definition setUint16 (value : Z) (o : opt) : result opt :=
  d ← IOUtil.writeUint16 value (resize (data_ o) 2); Ok (set_data d o).
Definition setUint32 (value : Z) (o : opt) : result opt :=
  d ← IOUtil.writeUint32 value (resize (data_ o) 4); Ok (set_data d o).

(** [clone]: the copy constructor re-inserts clones of the sub-options under
    their own types. *)
Fixpoint clone (o : opt) : opt :=
  match o with
  | Opt t d b os s =>
      Opt t d b
        ((fix copy (os : list (Z * opt)) (acc : coll) : coll :=
            match os with
            | [] => acc
            | (_, o') :: os => copy os (minsert (type_ o') (clone o') acc)
            end) os []) s
  end.

Definition equals (a b : opt) : bool :=
  (type_ a =? type_ b) && bool_decide (data_ a = data_ b).

End Option_.

(** ** Opaque data tuples *)
Module Tuple.

Definition getDataFieldSize : Z := 1.
Definition getTotalLength (t : list Z) : Z := getDataFieldSize + zlen t.

Definition pack (t : list Z) : result (list Z) :=
  if zlen t =? 0 then Throw OpaqueDataTupleError
  else if Z.shiftl 1 (getDataFieldSize * 8) <=? zlen t then Throw OpaqueDataTupleError
  else Ok (u8 (zlen t) :: t).

Definition unpack (buf : list Z) : result (list Z) :=
  match buf with
  | [] => Throw OpaqueDataTupleError
  | len :: rest =>
      throw_if (zlen rest <? len) OpaqueDataTupleError;;
      slice rest 0 len
  end.

End Tuple.

(** ** DHCPv4 Client FQDN *)
Module Fqdn.

Definition FLAG_S : Z := 1.
Definition FLAG_O : Z := 2.
Definition FLAG_E : Z := 4.
Definition FLAG_N : Z := 8.
Definition FLAG_MASK : Z := 15.
Definition FIXED_FIELDS_LEN : Z := 3.

Definition checkFlags (flags : Z) (check_mbz : bool) : result unit :=
  throw_if (check_mbz && negb (Z.land flags (Z.lnot FLAG_MASK) =? 0)) InvalidOption4FqdnFlags;;
  throw_if (Z.land flags (Z.lor FLAG_N FLAG_S) =? Z.lor FLAG_N FLAG_S) InvalidOption4FqdnFlags.

Definition getFlag (flags flag : Z) : result bool :=
  throw_if (negb (flag =? FLAG_S) && negb (flag =? FLAG_O) && negb (flag =? FLAG_N) &&
            negb (flag =? FLAG_E)) InvalidOption4FqdnFlags;;
  Ok (negb (Z.land flags flag =? 0)).

(** The new value of [flags_]. *)
Definition setFlag (flags flag : Z) (set_flag : bool) : result Z :=
  throw_if (negb (Z.land flag (Z.lnot FLAG_MASK) =? 0) || (flag =? 0)) InvalidOption4FqdnFlags;;
  let new_flag := if set_flag then Z.lor flags flag else Z.land flags (Z.lnot flag) in
  checkFlags new_flag true;;
  Ok new_flag.

Definition parseCanonicalDomainName (d : list Z) : result (option (Name * DomainNameType)) :=
  match last d with
  | None => Ok None
  | Some z =>
      if negb (z =? 0) then
        '(name, _) ← Name_from_wire (InputBuffer.make (d ++ [0])) false; Ok (Some (name, PARTIAL))
      else
        '(name, _) ← Name_from_wire (InputBuffer.make d) false; Ok (Some (name, FULL))
  end.

Definition parseASCIIDomainName (d : list Z) : result (option (Name * DomainNameType)) :=
  match last d with
  | None => Ok None
  | Some z =>
      name ← Name_from_text d false; Ok (Some (name, if z =? 46 then FULL else PARTIAL))
  end.

Definition parseWireData (buf : list Z) : result body :=
  throw_if (zlen buf <? FIXED_FIELDS_LEN) OutOfRange;;
  match buf with
  | flags :: rcode1 :: rcode2 :: d =>
      r ← try_kea
            (if negb (Z.land flags FLAG_E =? 0) then parseCanonicalDomainName d
             else parseASCIIDomainName d)
            (fun _ => Throw InvalidOption4FqdnDomainName);
      Ok (BFqdn flags rcode1 rcode2 (fst <$> r) (snd <$> r))
  | _ => Crash
  end.

Definition flags_of (b : body) : Z := match b with BFqdn f _ _ _ _ => f | _ => 0 end.

Definition make (buf : list Z) : result opt :=
  o ← Option_.make_data DHO_FQDN buf;
  b ← parseWireData buf;
  checkFlags (flags_of b) false;;
  Ok (set_body b o).

Definition getDomainName (name : option Name) (nt : option DomainNameType) : result (list Z) :=
  match name with
  | Some n => Name_toText n (bool_decide (nt = Some PARTIAL))
  | None => Ok []
  end.

Definition packDomainName (flags : Z) (name : option Name) (nt : option DomainNameType)
    : result (list Z) :=
  match name with
  | None => Ok []
  | Some n =>
      e ← getFlag flags FLAG_E;
      if (e : bool) then
        let labels := LabelSequence.of_name n in
        len ← LabelSequence.getDataLength labels;
        if 0 <? len then
          d ← LabelSequence.getData labels;
          Ok (if bool_decide (nt = Some PARTIAL) then take (length d - 1) d else d)
        else Ok []
      else getDomainName name nt
  end.

Definition domain_name_length (flags : Z) (name : option Name) (nt : option DomainNameType)
    : result Z :=
  match name with
  | None => Ok 0
  | Some n =>
      e ← getFlag flags FLAG_E;
      if (e : bool) then Ok (u16 (if bool_decide (nt = Some FULL) then length_ n else length_ n - 1))
      else t ← getDomainName name nt; Ok (u16 (zlen t))
  end.

End Fqdn.

(** ** Lengths and packing *)
Section Pack.

Definition tuples_len (tuples : list (list Z)) : Z :=
  foldr (fun t n => Tuple.getTotalLength t + n) 0 tuples.

Definition sum_results (l : list (result Z)) : result Z :=
  foldr (fun r acc => x ← r; y ← acc; Ok (x + y)) (Ok 0) l.

(** [len()] of every class; the sum is truncated to [uint16_t]. *)
Fixpoint len (o : opt) : result Z :=
  match o with
  | Opt _ data b os _ =>
      let subs := sum_results (map (fun p => len (snd p)) os) in
      match b with
      | BPlain => s ← subs; Ok (u16 (OPTION4_HDR_LEN + zlen data + s))
      | BInt t _ => s ← subs; Ok (u16 (OPTION4_HDR_LEN + sizeof t + s))
      | BIntArray t vs => s ← subs; Ok (u16 (OPTION4_HDR_LEN + zlen vs * sizeof t + s))
      | BString => Ok (u16 (OPTION4_HDR_LEN + zlen data))
      | BAddrLst addrs => Ok (u16 (OPTION4_HDR_LEN + zlen addrs * V4ADDRESS_LEN))
      | BCustom _ bufs =>
          s ← subs; Ok (u16 (OPTION4_HDR_LEN + zlen (concat bufs) + s))
      | BFqdn fl _ _ n nt =>
          d ← Fqdn.domain_name_length fl n nt;
          Ok (u16 (OPTION4_HDR_LEN + Fqdn.FIXED_FIELDS_LEN + d))
      | BVendor _ => s ← subs; Ok (u16 (OPTION4_HDR_LEN + 4 + 1 + s))
      | BVendorClass _ ts =>
          Ok (u16 (OPTION4_HDR_LEN + 4 + (tuples_len ts + 4 * (zlen ts - (if zlen ts =? 0 then 0 else 1)))))
      | BTuples ts => Ok (u16 (OPTION4_HDR_LEN + tuples_len ts))
      end
  end.

Definition packHeader (o : opt) : result (list Z) :=
  l ← len o;
  throw_if (255 <? l) OutOfRange;;
  Ok [u8 (type_ o); u8 (l - OPTION4_HDR_LEN)].

(** [writeUint8/16/32(value)] by [sizeof(T)] *)
Definition int_bytes (t : int_type) (v : Z) : list Z :=
  match sizeof t with 1 => [u8 v] | 2 => bytes16 (u16 v) | _ => bytes32 (u32 v) end.

Fixpoint pack_addrs (addrs : list IOAddress) : result (list Z) :=
  match addrs with
  | [] => Ok []
  | a :: rest => v ← IOAddr.to_uint32 a; r ← pack_addrs rest; Ok (bytes32 v ++ r)
  end.

Fixpoint pack_tuples (tuples : list (list Z)) : result (list Z) :=
  match tuples with
  | [] => Ok []
  | t :: rest => x ← Tuple.pack t; r ← pack_tuples rest; Ok (x ++ r)
  end.

(** Each tuple but the first is preceded by the enterprise id. *)
Fixpoint pack_vendor_tuples (vendor_id : Z) (first : bool) (tuples : list (list Z)) : result (list Z) :=
  match tuples with
  | [] => Ok []
  | t :: rest =>
      x ← Tuple.pack t;
      r ← pack_vendor_tuples vendor_id false rest;
      Ok ((if first then [] else bytes32 vendor_id) ++ x ++ r)
  end.

(** [packOptions4] on already packed options: the options in order except RAI
    and END, then the last RAI option, then the last END option. *)
Definition last_with (k : Z) (l : list (Z * result (list Z))) : result (list Z) :=
  match last (filter (fun p => p.1 = k) l) with Some (_, r) => r | None => Ok [] end.

Definition concat_results (l : list (result (list Z))) : result (list Z) :=
  foldr (fun r acc => x ← r; y ← acc; Ok (x ++ y)) (Ok []) l.

Definition packOptions4_packed (l : list (Z * result (list Z))) : result (list Z) :=
  a ← concat_results
        (snd <$> filter (fun p => p.1 <> DHO_DHCP_AGENT_OPTIONS /\ p.1 <> DHO_END) l);
  b ← last_with DHO_DHCP_AGENT_OPTIONS l;
  c ← last_with DHO_END l;
  Ok (a ++ b ++ c).

Fixpoint pack (o : opt) : result (list Z) :=
  match o with
  | Opt t data b os _ =>
      let packOptions := packOptions4_packed (map (fun p => (fst p, pack (snd p))) os) in
      match b with
      | BPlain => h ← packHeader o; s ← packOptions; Ok (h ++ data ++ s)
      | BInt ty v => h ← packHeader o; s ← packOptions; Ok (h ++ int_bytes ty v ++ s)
      | BIntArray ty vs => h ← packHeader o; Ok (h ++ concat (int_bytes ty <$> vs))
      | BString => h ← packHeader o; Ok (h ++ data)
      | BAddrLst addrs =>
          throw_if (255 <? zlen addrs * V4ADDRESS_LEN) OutOfRange;;
          l ← len o;
          r ← pack_addrs addrs;
          Ok ([u8 t; u8 (l - OPTION4_HDR_LEN)] ++ r)
      | BCustom _ bufs => h ← packHeader o; s ← packOptions; Ok (h ++ concat bufs ++ s)
      | BFqdn fl r1 r2 n nt =>
          h ← packHeader o;
          d ← Fqdn.packDomainName fl n nt;
          Ok (h ++ [u8 fl; u8 r1; u8 r2] ++ d)
      | BVendor vid =>
          h ← packHeader o;
          l ← len o;
          s ← packOptions;
          Ok (h ++ bytes32 vid ++ [u8 (l - OPTION4_HDR_LEN - 4 - 1)] ++ s)
      | BVendorClass vid ts =>
          h ← packHeader o;
          r ← pack_vendor_tuples vid true ts;
          Ok (h ++ bytes32 vid ++ r)
      | BTuples ts => h ← packHeader o; r ← pack_tuples ts; Ok (h ++ r)
      end
  end.

Definition packOptions4 (options : coll) : result (list Z) :=
  packOptions4_packed (map (fun p => (fst p, pack (snd p))) options).

(** [toBinary] *)
Definition toBinary (o : opt) (include_header : bool) : result (list Z) :=
  b ← try_std (pack o) (fun _ => Throw OutOfRange);
  Ok (if include_header then b else drop (Z.to_nat OPTION4_HDR_LEN) b).

End Pack.

(** ** Parsing *)
Section Factories.

(** The two parsers of [LibDHCP] the factories call back into. *)
Variable unpackOptions4 : list Z -> string -> coll -> result (Z * coll).
Variable unpackVendorOptions4 : Z -> list Z -> coll -> result (Z * coll).

Definition read_int (t : int_type) (buf : list Z) : result Z :=
  v ← match sizeof t with
      | 1 => zget buf 0
      | 2 => IOUtil.readUint16 buf
      | _ => IOUtil.readUint32 buf
      end;
  Ok (cast t v).

(** [OptionInt<T>::unpack] on a fresh option. *)
Definition factoryInteger (t : int_type) (type : Z) (space : string) (buf : list Z) : result opt :=
  o ← Option_.make type;
  throw_if (zlen buf <? sizeof t) OutOfRange;;
  v ← read_int t buf;
  '(_, subs) ← unpackOptions4 (drop (Z.to_nat (sizeof t)) buf) space [];
  Ok (Opt (type_ o) [] (BInt t v) subs space).

Fixpoint read_ints (fuel : nat) (t : int_type) (buf : list Z) : result (list Z) :=
  match fuel with
  | O => NoFuel
  | S fuel' =>
      match buf with
      | [] => Ok []
      | _ =>
          v ← read_int t buf;
          vs ← read_ints fuel' t (drop (Z.to_nat (sizeof t)) buf);
          Ok (v :: vs)
      end
  end.

Definition factoryIntegerArray (t : int_type) (type : Z) (buf : list Z) : result opt :=
  o ← Option_.make type;
  throw_if (zlen buf =? 0) OutOfRange;;
  throw_if (negb (zlen buf mod sizeof t =? 0)) OutOfRange;;
  vs ← read_ints (S (length buf)) t buf;
  Ok (Opt (type_ o) [] (BIntArray t vs) [] "").

Fixpoint read_addrs (fuel : nat) (buf : list Z) : result (list IOAddress) :=
  match fuel with
  | O => NoFuel
  | S fuel' =>
      match buf with
      | [] => Ok []
      | _ =>
          v ← IOUtil.readUint32 buf;
          rest ← read_addrs fuel' (drop (Z.to_nat V4ADDRESS_LEN) buf);
          Ok (IOAddr.of_uint32 v :: rest)
      end
  end.

Definition factoryAddrList4 (type : Z) (buf : list Z) : result opt :=
  o ← Option_.make (u8 type);
  throw_if (negb (zlen buf mod V4ADDRESS_LEN =? 0)) OutOfRange;;
  addrs ← read_addrs (S (length buf)) buf;
  Ok (Opt (type_ o) [] (BAddrLst addrs) [] "").

Definition factoryEmpty (type : Z) : result opt := Option_.make type.
Definition factoryGeneric (type : Z) (buf : list Z) : result opt := Option_.make_data type buf.

Definition factoryString (type : Z) (buf : list Z) : result opt :=
  o ← Option_.make type;
  throw_if (zlen buf =? 0) OutOfRange;;
  Ok (Opt (type_ o) buf BString [] "").

Fixpoint vendor_tuples (fuel : nat) (buf : list Z) (offset : Z) : result (list (list Z)) :=
  match fuel with
  | O => NoFuel
  | S fuel' =>
      if offset <? zlen buf then
        t ← Tuple.unpack (drop (Z.to_nat offset) buf);
        let offset := offset + Tuple.getTotalLength t in
        if negb (offset =? zlen buf) then
          let offset := offset + 4 in
          throw_if (zlen buf <=? offset + 1) OutOfRange;;
          ts ← vendor_tuples fuel' buf offset; Ok (t :: ts)
        else ts ← vendor_tuples fuel' buf offset; Ok (t :: ts)
      else Ok []
  end.

Definition OptionVendorClass_make (buf : list Z) : result opt :=
  o ← Option_.make DHO_VIVCO_SUBOPTIONS;
  throw_if (zlen buf <? 7 - OPTION4_HDR_LEN) OutOfRange;;
  vid ← IOUtil.readUint32 buf;
  let rest := drop 4 buf in
  ts ← vendor_tuples (S (length rest)) rest 0;
  Ok (Opt (type_ o) [] (BVendorClass vid ts) [] "").

Fixpoint opaque_tuples (fuel : nat) (buf : list Z) (offset : Z) : result (list (list Z)) :=
  match fuel with
  | O => NoFuel
  | S fuel' =>
      if offset <? zlen buf then
        t ← Tuple.unpack (drop (Z.to_nat offset) buf);
        ts ← opaque_tuples fuel' buf (offset + Tuple.getTotalLength t);
        Ok (t :: ts)
      else Ok []
  end.

Definition OptionOpaqueDataTuples_make (type : Z) (buf : list Z) : result opt :=
  o ← Option_.make type;
  throw_if (zlen buf <? 4 - OPTION4_HDR_LEN) OutOfRange;;
  ts ← opaque_tuples (S (length buf)) buf 0;
  Ok (Opt (type_ o) [] (BTuples ts) [] "").

Definition OptionVendor_make (buf : list Z) : result opt :=
  o ← Option_.make DHO_VIVSO_SUBOPTIONS;
  throw_if (zlen buf <? 4) OutOfRange;;
  vid ← IOUtil.readUint32 buf;
  '(_, subs) ← unpackVendorOptions4 vid (drop 4 buf) [];
  Ok (Opt (type_ o) [] (BVendor vid) subs "").

(** *** OptionCustom::createBuffers *)
Definition fqdn_size (data : list Z) : result Z :=
  fqdn ← OptionDataTypeUtil.readFqdn data; Ok (zlen fqdn + 1).

Fixpoint record_buffers (fields : list OptionDataType) (data : list Z) (buffers : list (list Z))
    : result (list (list Z) * list Z) :=
  match fields with
  | [] => Ok (buffers, data)
  | field :: fields =>
      let data_size := OptionDataTypeUtil.getDataTypeLen field in
      data_size ←
        (if data_size =? 0 then
           match field with
           | OPT_FQDN_TYPE => fqdn_size data
           | OPT_BINARY_TYPE | OPT_STRING_TYPE => Ok (zlen data)
           | _ => Throw OutOfRange
           end
         else throw_if (zlen data <? data_size) OutOfRange;; Ok data_size);
      b ← slice data 0 data_size;
      record_buffers fields (drop (Z.to_nat data_size) data) (buffers ++ [b])
  end.

Fixpoint array_buffers (fuel : nat) (data_type : OptionDataType) (data_size : Z) (data : list Z)
    (buffers : list (list Z)) : result (list (list Z)) :=
  match fuel with
  | O => NoFuel
  | S fuel' =>
      match data with
      | [] => Ok buffers
      | _ =>
          data_size ←
            (if bool_decide (data_type = OPT_FQDN_TYPE) then fqdn_size data else Ok data_size);
          assert_ (0 <? data_size);;
          if zlen data <? data_size then Ok buffers
          else
            b ← slice data 0 data_size;
            array_buffers fuel' data_type data_size (drop (Z.to_nat data_size) data) (buffers ++ [b])
      end
  end.

Definition custom_subs (space : string) (data : list Z) : result coll :=
  if negb (TextParser.is_nil data) && negb (bool_decide (space = ""%string))
  then '(_, subs) ← unpackOptions4 data space []; Ok subs
  else Ok [].

(** The branch of [createBuffers] for a type that is neither a record nor
    empty. *)
Definition value_buffers (def : OptionDefinition) (data_type : OptionDataType) (data : list Z)
    : result (list (list Z) * coll) :=
  let data_size := OptionDataTypeUtil.getDataTypeLen data_type in
  throw_if (zlen data <? data_size) OutOfRange;;
  if array_type_ def then
    buffers ← array_buffers (S (length data)) data_type data_size data []; Ok (buffers, [])
  else
    data_size ←
      (if data_size =? 0 then
         if bool_decide (data_type = OPT_FQDN_TYPE) then fqdn_size data else Ok (zlen data)
       else Ok data_size);
    if 0 <? data_size then
      b ← slice data 0 data_size;
      subs ← custom_subs (encapsulated_space_ def) (drop (Z.to_nat data_size) data);
      Ok ([b], subs)
    else Throw OutOfRange.

Definition createBuffers (def : OptionDefinition) (data : list Z) : result (list (list Z) * coll) :=
  OptionDef.validate def;;
  match otype_ def with
  | OPT_RECORD_TYPE =>
      '(buffers, rest) ← record_buffers (record_fields_ def) data [];
      subs ← custom_subs (encapsulated_space_ def) rest;
      Ok (buffers, subs)
  | OPT_EMPTY_TYPE => subs ← custom_subs (encapsulated_space_ def) data; Ok ([], subs)
  | data_type => value_buffers def data_type data
  end.

Definition OptionCustom_make (def : OptionDefinition) (data : list Z) : result opt :=
  o ← Option_.make_data (code_ def) data;
  '(buffers, subs) ← createBuffers def data;
  Ok (Opt (type_ o) data (BCustom def buffers) subs (encapsulated_space_ def)).

Definition factorySpecialFormatOption (def : OptionDefinition) (buf : list Z) : option (result opt) :=
  if (code_ def =? DHO_FQDN) && OptionDef.haveFqdn4Format def then Some (Fqdn.make buf)
  else if (code_ def =? DHO_VIVCO_SUBOPTIONS) && OptionDef.haveVendorClass4Format def
  then Some (OptionVendorClass_make buf)
  else if (code_ def =? DHO_VIVSO_SUBOPTIONS) && OptionDef.haveVendor4Format def
  then Some (OptionVendor_make buf)
  else None.

Definition optionFactory (def : OptionDefinition) (type : Z) (buf : list Z) : result opt :=
  match factorySpecialFormatOption def buf with
  | Some r => r
  | None =>
      let space := encapsulated_space_ def in
      let int (arr single : int_type) :=
        if array_type_ def then factoryIntegerArray arr type buf
        else factoryInteger single type space buf in
      match otype_ def with
      | OPT_EMPTY_TYPE =>
          if bool_decide (space = ""%string) then factoryEmpty type else OptionCustom_make def buf
      | OPT_BINARY_TYPE => factoryGeneric type buf
      | OPT_UINT8_TYPE => int Uint8 Uint8
      | OPT_INT8_TYPE => int Int8 Int8
      | OPT_UINT16_TYPE => int Uint16 Uint16
      | OPT_INT16_TYPE => int Uint16 Int16
      | OPT_UINT32_TYPE => int Uint32 Uint32
      | OPT_INT32_TYPE => int Uint32 Int32
      | OPT_IPV4_ADDRESS_TYPE =>
          if array_type_ def then factoryAddrList4 type buf else OptionCustom_make def buf
      | OPT_STRING_TYPE => factoryString type buf
      | _ => OptionCustom_make def buf
      end
  end.

End Factories.

(** *** The parsers *)
Section Parsers.
Variable lib : LibDHCP.

Fixpoint options4_loop (fuel : nat) (buf : list Z) (space : string) (offset : Z) (options : coll)
    {struct fuel} : result (Z * coll) :=
  match fuel with
  | O => NoFuel
  | S fuel' =>
      if negb (offset <? zlen buf) then Ok (offset, options)
      else
        let last_offset := offset in
        opt_type ← zget buf offset;
        let offset := offset + 1 in
        if opt_type =? DHO_END then Ok (last_offset, options)
        else if opt_type =? DHO_PAD then options4_loop fuel' buf space offset options
        else if zlen buf <? offset + 1 then Ok (last_offset, options)
        else
          opt_len ← zget buf offset;
          let offset := offset + 1 in
          if zlen buf <? offset + opt_len then Ok (last_offset, options)
          else
            let def := if bool_decide (space = DHCP4_OPTION_SPACE)
                       then Lib.getStdOptionDef opt_type lib
                       else Lib.getRuntimeOptionDef space opt_type lib in
            data ← slice buf offset opt_len;
            options ←
              try_kea
                (o ← match def with
                     | Some def =>
                         optionFactory (fun b s c => options4_loop fuel' b s 0 c)
                           (fun v b c => vendor_unpack fuel' v b c) def opt_type data
                     | None =>
                         o ← Option_.make_data opt_type data;
                         Ok (setEncapsulatedSpace DHCP4_OPTION_SPACE o)
                     end;
                 Ok (minsert opt_type o options))
                (fun _ => Ok options);
            options4_loop fuel' buf space (offset + opt_len) options
  end
with vendor_loop (fuel : nat) (vendor_id : Z) (buf : list Z) (offset offset_end : Z) (options : coll)
    {struct fuel} : result (Z * coll) :=
  match fuel with
  | O => NoFuel
  | S fuel' =>
      if negb (offset <? offset_end) then Ok (offset, options)
      else
        opt_type ← zget buf offset;
        let offset := offset + 1 in
        throw_if (offset_end <? offset + 1) OutOfRange;;
        opt_len ← zget buf offset;
        let offset := offset + 1 in
        throw_if (offset_end <? offset + opt_len) OutOfRange;;
        data ← slice buf offset opt_len;
        o ← match Lib.getVendorOptionDef vendor_id opt_type lib with
            | Some def =>
                optionFactory (fun b s c => options4_loop fuel' b s 0 c)
                  (fun v b c => vendor_unpack fuel' v b c) def opt_type data
            | None => Option_.make_data opt_type data
            end;
        vendor_loop fuel' vendor_id buf (offset + opt_len) offset_end (minsert opt_type o options)
  end
with vendor_unpack (fuel : nat) (vendor_id : Z) (buf : list Z) (options : coll)
    {struct fuel} : result (Z * coll) :=
  match fuel with
  | O => NoFuel
  | S fuel' =>
      match buf with
      | [] => Ok (0, options)
      | data_len :: _ =>
          let offset := 1 in
          throw_if (zlen buf <? offset + data_len) OutOfRange;;
          let offset_end := u8 (offset + data_len) in
          vendor_loop fuel' vendor_id buf offset offset_end options
      end
  end.

(** Every nested call gets a strictly shorter buffer, so the length of the
    buffer bounds the fuel. *)
Definition fuel_for (buf : list Z) : nat := S (S (S (length buf))).

Definition unpackOptions4 (buf : list Z) (space : string) (options : coll) : result (Z * coll) :=
  options4_loop (fuel_for buf) buf space 0 options.

Definition unpackVendorOptions4 (vendor_id : Z) (buf : list Z) (options : coll) : result (Z * coll) :=
  vendor_unpack (fuel_for buf) vendor_id buf options.

End Parsers.
