(* ===== verification/OptionsFacts.v ===== *)
(** The option parser is total: with definitions that describe their own
    extent, every byte string is parsed without undefined behaviour, failed
    assertion or escaping exception, and the fuel of the model is enough. *)
From stdpp Require Import base list numbers option strings gmap.
From Stdlib Require Import ZArith Lia.
From S2P Require Import Prelude Buffer Address DnsName DnsNameFacts DnsWireFacts OptionDef Options.

(** Peels a computation that must return or throw a [kea::Exception]. *)
Ltac kea_step :=
  match goal with
  | |- kea_ok (mbind _ _) => apply kea_bind; [|intros ? ?]
  | |- kea_ok (Ok _) => exact I
  | |- kea_ok (Throw _) => reflexivity
  | |- kea_ok (throw_if _ _) => apply kea_throw_if; reflexivity
  | |- kea_ok (try_kea _ _) => apply kea_try; [|intros ?]
  end.
Ltac kea_ifs :=
  match goal with
  | |- kea_ok (if ?b then _ else _) => destruct b eqn:?
  | |- kea_ok (let '(_, _) := ?p in _) => destruct p
  end.
Ltac kea := repeat (first [kea_step | kea_ifs]; auto with kea).

(** Facts carried by a successful guard. *)
Ltac guards :=
  repeat match goal with
  | H : throw_if _ _ = Ok _ |- _ => apply throw_if_ok in H
  | H : assert_ ?b = Ok _ |- _ => destruct b eqn:?; [clear H|done]
  end.

Lemma kea_zget (l : list Z) i : 0 <= i < zlen l -> kea_ok (zget l i).
Proof. intros H. destruct (zget_ok l i H) as (a & -> & _). done. Qed.

Lemma zget_byte l i b : bytes_ok l -> zget l i = Ok b -> byte_ok b.
Proof.
  unfold zget. intros Hl H. case_decide; [|done]. destruct (l !! Z.to_nat i) eqn:E; [|done].
  simplify_eq. by eapply Forall_lookup_1.
Qed.

Lemma kea_slice (l : list Z) i n : 0 <= i -> 0 <= n -> i + n <= zlen l -> kea_ok (slice l i n).
Proof. intros. by rewrite slice_ok. Qed.

Lemma slice_facts (l : list Z) i n d :
  slice l i n = Ok d -> bytes_ok l -> 0 <= i /\ zlen d = n /\ i + n <= zlen l /\ bytes_ok d.
Proof.
  unfold slice. case_decide as Hb; [|done]. intros [= <-] Hl. destruct Hb as (H1 & H2 & H3).
  split_and!; [done| |done|auto with kea].
  unfold zlen in *. rewrite length_take, length_drop. lia.
Qed.

Lemma zlen_drop {A} (l : list A) n : 0 <= n <= zlen l -> zlen (drop (Z.to_nat n) l) = zlen l - n.
Proof. unfold zlen. intros. rewrite length_drop. lia. Qed.

Lemma zlen_drop_le {A} (l : list A) n : zlen (drop n l) <= zlen l.
Proof. unfold zlen. rewrite length_drop. lia. Qed.

Lemma kea_readUint16 b : kea_ok (IOUtil.readUint16 b).
Proof.
  unfold IOUtil.readUint16. kea; guards; apply kea_zget; lia.
Qed.

Lemma kea_readUint32 b : kea_ok (IOUtil.readUint32 b).
Proof.
  unfold IOUtil.readUint32. kea; guards; apply kea_zget; lia.
Qed.

#[export] Hint Resolve kea_readUint16 kea_readUint32 : kea.

Lemma sizeof_pos t : 1 <= sizeof t <= 4.
Proof. destruct t; simpl; lia. Qed.

Lemma kea_read_int t buf : 1 <= zlen buf -> kea_ok (read_int t buf).
Proof.
  intros H. unfold read_int. kea_step; [|by kea].
  destruct t; simpl; auto with kea; apply kea_zget; lia.
Qed.

Lemma kea_read_ints fuel t buf : (length buf < fuel)%nat -> kea_ok (read_ints fuel t buf).
Proof.
  revert buf. induction fuel as [|fuel IH]; intros buf Hf; [lia|]. cbn [read_ints].
  destruct buf as [|b buf]; [done|]. kea_step; [apply kea_read_int; zlia|].
  kea_step; [|done]. apply IH. rewrite length_drop. pose proof (sizeof_pos t). simpl in *. lia.
Qed.

Lemma kea_read_addrs fuel buf : (length buf < fuel)%nat -> kea_ok (read_addrs fuel buf).
Proof.
  revert buf. induction fuel as [|fuel IH]; intros buf Hf; [lia|]. cbn [read_addrs].
  destruct buf as [|b buf]; [done|]. kea_step; [auto with kea|].
  kea_step; [|done]. apply IH. rewrite length_drop. simpl in *. lia.
Qed.

(** ** Tuples *)
Lemma kea_tuple buf : bytes_ok buf -> kea_ok (Tuple.unpack buf).
Proof.
  destruct buf as [|n rest]; [done|]. intros [Hn Hr]%bytes_ok_cons. simpl. kea. guards.
  unfold byte_ok in Hn. apply kea_slice; lia.
Qed.

Lemma kea_vendor_tuples fuel buf off :
  bytes_ok buf -> 0 <= off -> zlen buf - off < Z.of_nat fuel -> 0 < Z.of_nat fuel ->
  kea_ok (vendor_tuples fuel buf off).
Proof.
  intros Hb. revert off. induction fuel as [|fuel IH]; intros off Ho Hf H0; [lia|].
  cbn [vendor_tuples]. destruct (Z.ltb_spec off (zlen buf)); [|done].
  kea_step; [by apply kea_tuple, bytes_ok_drop|].
  assert (0 <= zlen a) by auto with kea. unfold Tuple.getTotalLength, Tuple.getDataFieldSize. cbv zeta.
  kea_ifs; kea; apply IH; lia.
Qed.

Lemma kea_opaque_tuples fuel buf off :
  bytes_ok buf -> 0 <= off -> zlen buf - off < Z.of_nat fuel -> 0 < Z.of_nat fuel ->
  kea_ok (opaque_tuples fuel buf off).
Proof.
  intros Hb. revert off. induction fuel as [|fuel IH]; intros off Ho Hf H0; [lia|].
  cbn [opaque_tuples]. destruct (Z.ltb_spec off (zlen buf)); [|done].
  kea_step; [by apply kea_tuple, bytes_ok_drop|].
  assert (0 <= zlen a) by auto with kea. unfold Tuple.getTotalLength, Tuple.getDataFieldSize.
  kea_step; [|done]. apply IH; lia.
Qed.

(** ** Names inside options *)
Lemma kea_from_wire buf d :
  bytes_ok buf -> zlen buf < 2^32 -> kea_ok (Name_from_wire (InputBuffer.make buf) d).
Proof.
  intros Hb Hs. assert (InputBufferFacts.small buf) by (unfold InputBufferFacts.small; lia).
  pose proof (Name_from_wire_total (InputBuffer.make buf) d (InputBufferFacts.inv_make buf H) Hs Hb) as Ht.
  destruct (Name_from_wire _ _) as [[? ?]|e| |]; try done. by rewrite Ht.
Qed.

Lemma from_wire_wf buf d name b :
  bytes_ok buf -> zlen buf < 2^32 -> Name_from_wire (InputBuffer.make buf) d = Ok (name, b) ->
  name_wf name.
Proof.
  intros Hb Hs E. assert (InputBufferFacts.small buf) by (unfold InputBufferFacts.small; lia).
  pose proof (Name_from_wire_total (InputBuffer.make buf) d (InputBufferFacts.inv_make buf H) Hs Hb) as Ht.
  rewrite E in Ht. apply Ht.
Qed.

Lemma name_wf_toText name omit : name_wf name -> exists t, Name_toText name omit = Ok t.
Proof. intros (ls & [Hls _] & ->). rewrite of_labels_toText by done. eauto. Qed.

Lemma kea_readFqdn buf :
  bytes_ok buf -> zlen buf < 2^32 -> kea_ok (OptionDataTypeUtil.readFqdn buf).
Proof.
  intros Hb Hs. unfold OptionDataTypeUtil.readFqdn. kea.
  - by apply kea_from_wire.
  - destruct (name_wf_toText n false) as (txt & ->); [|done]. by eapply from_wire_wf.
Qed.

Lemma kea_fqdn_size buf : bytes_ok buf -> zlen buf < 2^32 -> kea_ok (fqdn_size buf).
Proof. intros. unfold fqdn_size. kea. by apply kea_readFqdn. Qed.

Lemma fqdn_size_pos buf n : fqdn_size buf = Ok n -> 0 < n.
Proof.
  unfold fqdn_size. intros H. apply bind_ok in H as (t & _ & [= <-]). zlia.
Qed.

Lemma kea_fqdn_make buf : bytes_ok buf -> kea_ok (Fqdn.make buf).
Proof.
  intros Hb. unfold Fqdn.make. kea_step.
  { unfold Option_.make_data, Option_.check. cbv zeta. kea. }
  assert (zlen buf <= 255) as Hl.
  { unfold Option_.make_data, Option_.check in H. cbv zeta in H.
    apply bind_ok in H as ([] & H & _). simpl in H. guards. lia. }
  kea_step; [|unfold Fqdn.checkFlags; kea].
  unfold Fqdn.parseWireData. kea_step; [by kea|]. guards. unfold Fqdn.FIXED_FIELDS_LEN in *.
  destruct buf as [|f [|r1 [|r2 d]]]; try (exfalso; zlia).
  repeat (apply bytes_ok_cons in Hb as [? Hb]). assert (zlen d <= 252) by zlia.
  kea; unfold Fqdn.parseCanonicalDomainName, Fqdn.parseASCIIDomainName;
    destruct (last d); kea.
  - apply kea_from_wire; [|zlia]. apply bytes_ok_app. split; [done|by repeat constructor].
  - apply kea_from_wire; [done|lia].
  - apply Name_from_text_kea; [done|lia].
Qed.

(** ** Factories *)

(** The definitions whose options describe their own extent: no domain name
    outside an array (its size is computed from its text), no array of an
    unsized type. *)
Definition def_safe (d : OptionDefinition) : bool :=
  match otype_ d with
  | OPT_RECORD_TYPE =>
      ((code_ d =? DHO_FQDN) && OptionDef.haveFqdn4Format d) ||
      negb (bool_decide (OPT_FQDN_TYPE ∈ record_fields_ d))
  | OPT_FQDN_TYPE => array_type_ d
  | OPT_ANY_ADDRESS_TYPE => negb (array_type_ d)
  | _ => true
  end.

Section Factories.
Variable unpackO : list Z -> string -> coll -> result (Z * coll).
Variable unpackV : Z -> list Z -> coll -> result (Z * coll).
Variable bound : Z.
Hypothesis bound_32 : bound < 2^32.
Hypothesis unpackO_kea : forall b s c, bytes_ok b -> zlen b <= bound -> kea_ok (unpackO b s c).
Hypothesis unpackV_kea : forall v b c, bytes_ok b -> zlen b <= bound -> kea_ok (unpackV v b c).

Lemma kea_make t : kea_ok (Option_.make t).
Proof. unfold Option_.make. kea. Qed.

Lemma kea_make_data t d : kea_ok (Option_.make_data t d).
Proof. unfold Option_.make_data, Option_.check. cbv zeta. kea. Qed.

Local Hint Resolve kea_make kea_make_data : kea.

Lemma kea_factoryInteger t ty s buf :
  bytes_ok buf -> zlen buf <= bound -> kea_ok (factoryInteger unpackO t ty s buf).
Proof.
  intros Hb Hn. unfold factoryInteger. kea; guards.
  - pose proof (sizeof_pos t). apply kea_read_int. lia.
  - apply unpackO_kea; [auto with kea|]. pose proof (zlen_drop_le buf (Z.to_nat (sizeof t))). lia.
Qed.

Lemma kea_factoryIntegerArray t ty buf : kea_ok (factoryIntegerArray t ty buf).
Proof. unfold factoryIntegerArray. kea. apply kea_read_ints. lia. Qed.

Lemma kea_factoryAddrList4 ty buf : kea_ok (factoryAddrList4 ty buf).
Proof. unfold factoryAddrList4. kea. apply kea_read_addrs. lia. Qed.

Lemma kea_factoryString ty buf : kea_ok (factoryString ty buf).
Proof. unfold factoryString. kea. Qed.

Lemma kea_vendor_class buf : bytes_ok buf -> kea_ok (OptionVendorClass_make buf).
Proof.
  intros Hb. unfold OptionVendorClass_make. cbv zeta. kea.
  apply kea_vendor_tuples; [auto with kea|unfold zlen; lia..].
Qed.

Lemma kea_vendor buf :
  bytes_ok buf -> zlen buf <= bound -> kea_ok (OptionVendor_make unpackV buf).
Proof.
  intros Hb Hn. unfold OptionVendor_make. kea.
  apply unpackV_kea; [auto with kea|]. pose proof (zlen_drop_le buf 4). lia.
Qed.

Lemma kea_record_buffers fields data bufs :
  OPT_FQDN_TYPE ∉ fields -> bytes_ok data -> kea_ok (record_buffers fields data bufs).
Proof.
  revert data bufs. induction fields as [|f fields IH]; intros data bufs Hf Hb; [done|].
  apply not_elem_of_cons in Hf as [Hne Hf]. cbn [record_buffers]. cbv zeta.
  assert (forall m, (m = Ok (zlen data) \/ exists k, 0 <= k /\
            m = (throw_if (zlen data <? k) OutOfRange;; Ok k) \/ m = Throw OutOfRange) ->
          kea_ok (m ≫= fun n => b ← slice data 0 n;
            record_buffers fields (drop (Z.to_nat n) data) (bufs ++ [b]))) as Hm.
  { intros m Hm. kea_step.
    - destruct Hm as [-> | (k & [[Hk ->] | ->])]; kea.
    - assert (0 <= a <= zlen data).
      { destruct Hm as [-> | (k & [[Hk ->] | ->])]; simplify_eq/=; [zlia|].
        apply bind_ok in H as ([] & H & [= <-]). guards. lia. }
      kea_step; [apply kea_slice; lia|]. apply IH; auto with kea. }
  apply Hm. destruct f; simpl; try done;
    first [ left; reflexivity
          | right; exists 0; right; reflexivity
          | right; eexists; left; split; [|reflexivity]; unfold V4ADDRESS_LEN; lia ].
Qed.

Lemma kea_array_buffers fuel t size data bufs :
  (t = OPT_FQDN_TYPE \/ 0 < size) -> bytes_ok data -> zlen data < 2^32 ->
  (length data < fuel)%nat -> kea_ok (array_buffers fuel t size data bufs).
Proof.
  revert size data bufs. induction fuel as [|fuel IH]; intros size data bufs Ht Hb Hs Hf; [lia|].
  cbn [array_buffers]. destruct data as [|x data']; [done|]. set (data := x :: data') in *.
  kea_step; [kea_ifs; [by apply kea_fqdn_size|done]|].
  assert (0 < a) as Ha.
  { case_bool_decide; [by eapply fqdn_size_pos|]. simplify_eq. destruct Ht; [done|lia]. }
  rewrite (proj2 (Z.ltb_lt _ _) Ha). cbn [assert_]. rewrite bind_Ok.
  destruct (Z.ltb_spec (zlen data) a); [done|]. kea_step; [apply kea_slice; lia|].
  apply IH; [by right|auto with kea|pose proof (zlen_drop_le data (Z.to_nat a)); lia|].
  rewrite length_drop. unfold zlen in *. lia.
Qed.

Lemma kea_custom_subs s data : bytes_ok data -> zlen data <= bound -> kea_ok (custom_subs unpackO s data).
Proof. intros. unfold custom_subs. kea. Qed.

Lemma record_buffers_rest fields data bufs r rest :
  record_buffers fields data bufs = Ok (r, rest) -> bytes_ok data ->
  bytes_ok rest /\ zlen rest <= zlen data.
Proof.
  revert data bufs. induction fields as [|f fields IH]; intros data bufs H Hb.
  - simplify_eq/=. split; [done|lia].
  - cbn [record_buffers] in H. cbv zeta in H. apply bind_ok in H as (k & _ & H).
    apply bind_ok in H as (b & _ & H). apply IH in H as [H1 H2]; [|auto with kea].
    pose proof (zlen_drop_le data (Z.to_nat k)). split; [done|lia].
Qed.

Lemma kea_value_buffers def t data :
  (array_type_ def = true -> t = OPT_FQDN_TYPE \/ 0 < OptionDataTypeUtil.getDataTypeLen t) ->
  (array_type_ def = false -> t <> OPT_FQDN_TYPE) ->
  bytes_ok data -> zlen data <= bound -> kea_ok (value_buffers unpackO def t data).
Proof.
  intros Harr Hsingle Hb Hn. unfold value_buffers. cbv zeta. kea_step; [by kea|]. guards.
  destruct (array_type_ def).
  - kea_step; [|done]. apply kea_array_buffers; [by apply Harr|done|lia|lia].
  - rewrite (bool_decide_eq_false_2 _ (Hsingle eq_refl)).
    assert (forall k, 0 <= k <= zlen data ->
      kea_ok (b ← slice data 0 k;
              subs ← custom_subs unpackO (encapsulated_space_ def) (drop (Z.to_nat k) data);
              Ok ([b], subs))) as Hk.
    { intros k Hk. kea_step; [apply kea_slice; lia|]. kea_step; [|done].
      apply kea_custom_subs; [auto with kea|]. pose proof (zlen_drop_le data (Z.to_nat k)). lia. }
    kea_step; [by kea|]. kea_ifs; [|done]. apply Hk.
    destruct (_ =? 0); simplify_eq; lia.
Qed.

Lemma validate_known def x : OptionDef.validate def = Ok x -> otype_ def <> OPT_UNKNOWN_TYPE.
Proof.
  unfold OptionDef.validate. cbv zeta. intros H E. guards. rewrite E in H.
  rewrite (bool_decide_eq_true_2 (OPT_UNKNOWN_TYPE = OPT_UNKNOWN_TYPE)) in H by done.
  by repeat case_match.
Qed.

Lemma kea_createBuffers def data :
  def_safe def = true -> (code_ def =? DHO_FQDN) && OptionDef.haveFqdn4Format def = false ->
  otype_ def <> OPT_STRING_TYPE -> otype_ def <> OPT_BINARY_TYPE ->
  bytes_ok data -> zlen data <= bound -> kea_ok (createBuffers unpackO def data).
Proof.
  intros Hd Hspecial Hstr Hbin Hb Hn. unfold createBuffers. kea_step; [unfold OptionDef.validate; kea|].
  apply validate_known in H. unfold def_safe in Hd. rewrite Hspecial in Hd.
  destruct (otype_ def); try done;
    try (apply kea_value_buffers; [simpl; unfold V4ADDRESS_LEN; auto with lia|done..]; fail).
  - kea_step; [|done]. by apply kea_custom_subs.
  - apply kea_value_buffers; [|done..]. intros E. by rewrite E in Hd.
  - apply kea_value_buffers; [auto|congruence|done..].
  - simpl in Hd. apply negb_true_iff, bool_decide_eq_false in Hd. kea.
    + by apply kea_record_buffers.
    + apply record_buffers_rest in H0 as [? ?]; [|done]. apply kea_custom_subs; [done|lia].
Qed.

Lemma kea_custom_make def data :
  def_safe def = true -> (code_ def =? DHO_FQDN) && OptionDef.haveFqdn4Format def = false ->
  otype_ def <> OPT_STRING_TYPE -> otype_ def <> OPT_BINARY_TYPE ->
  bytes_ok data -> zlen data <= bound -> kea_ok (OptionCustom_make unpackO def data).
Proof. intros. unfold OptionCustom_make. kea. by apply kea_createBuffers. Qed.

Lemma kea_optionFactory def ty buf :
  def_safe def = true -> bytes_ok buf -> zlen buf <= bound ->
  kea_ok (optionFactory unpackO unpackV def ty buf).
Proof.
  intros Hd Hb Hn. unfold optionFactory, factorySpecialFormatOption. cbv zeta.
  destruct ((code_ def =? DHO_FQDN) && OptionDef.haveFqdn4Format def) eqn:E1; [by apply kea_fqdn_make|].
  destruct ((code_ def =? DHO_VIVCO_SUBOPTIONS) && OptionDef.haveVendorClass4Format def);
    [by apply kea_vendor_class|].
  destruct ((code_ def =? DHO_VIVSO_SUBOPTIONS) && OptionDef.haveVendor4Format def); [by apply kea_vendor|].
  destruct (otype_ def) eqn:Et; try kea_ifs;
    auto using kea_factoryInteger, kea_factoryIntegerArray, kea_factoryAddrList4, kea_factoryString,
      kea_make, kea_make_data;
    apply kea_custom_make; rewrite ?Et; done.
Qed.

End Factories.

(** ** The parsers *)
Definition lib_safe (lib : LibDHCP) : Prop :=
  (forall code d, Lib.getStdOptionDef code lib = Some d -> def_safe d = true) /\
  (forall space code d, Lib.getRuntimeOptionDef space code lib = Some d -> def_safe d = true) /\
  (forall vendor code d, Lib.getVendorOptionDef vendor code lib = Some d -> def_safe d = true).

Section Parsers.
Variable lib : LibDHCP.
Hypothesis lib_ok : lib_safe lib.

Definition options4_spec (fuel : nat) : Prop :=
  forall buf s off c, bytes_ok buf -> zlen buf < 2^32 -> 0 <= off <= zlen buf ->
    zlen buf - off < Z.of_nat fuel ->
    exists off' c', options4_loop lib fuel buf s off c = Ok (off', c') /\ off <= off' <= zlen buf.

Definition vendor_loop_spec (fuel : nat) : Prop :=
  forall v buf off off_end c, bytes_ok buf -> zlen buf < 2^32 -> 0 <= off -> off_end <= zlen buf ->
    off_end - off < Z.of_nat fuel -> 0 < Z.of_nat fuel ->
    kea_ok (vendor_loop lib fuel v buf off off_end c).

Definition vendor_unpack_spec (fuel : nat) : Prop :=
  forall v buf c, bytes_ok buf -> zlen buf < 2^32 -> zlen buf < Z.of_nat fuel ->
    kea_ok (vendor_unpack lib fuel v buf c).

Lemma factory_kea fuel def ty data :
  options4_spec fuel -> vendor_unpack_spec fuel -> def_safe def = true ->
  bytes_ok data -> zlen data < 2^32 -> zlen data < Z.of_nat fuel ->
  kea_ok (optionFactory (fun b s c => options4_loop lib fuel b s 0 c)
            (fun v b c => vendor_unpack lib fuel v b c) def ty data).
Proof.
  intros HO HV Hd Hb Hs Hf. apply (kea_optionFactory _ _ (zlen data)); [done| | |done|done|lia].
  - intros b s c Hb' Hl. destruct (HO b s 0 c) as (? & ? & -> & _); [done|lia|zlia|lia|done].
  - intros v b c Hb' Hl. apply HV; [done|lia|lia].
Qed.

Lemma options4_step fuel :
  options4_spec fuel -> vendor_unpack_spec fuel -> options4_spec (S fuel).
Proof.
  intros HO HV buf s off c Hb Hs Hoff Hf. cbn [options4_loop].
  destruct (Z.ltb_spec off (zlen buf)) as [Hlt|]; [|exists off, c; split; [done|lia]]. cbn [negb].
  destruct (zget_ok buf off) as (ty & -> & _); [lia|]. rewrite bind_Ok. cbv zeta.
  destruct (ty =? DHO_END); [exists off, c; split; [done|lia]|].
  destruct (ty =? DHO_PAD).
  { destruct (HO buf s (off + 1) c) as (o' & c' & E & Ho'); [done|lia..|]. exists o', c'. split; [done|lia]. }
  destruct (Z.ltb_spec (zlen buf) (off + 1 + 1)); [exists off, c; split; [done|lia]|].
  destruct (zget buf (off + 1)) as [n|e| |] eqn:En;
    [|exfalso; destruct (zget_ok buf (off + 1)) as (x & E & _); [lia|congruence]..].
  rewrite bind_Ok. pose proof (zget_byte _ _ _ Hb En) as Hn. unfold byte_ok in Hn.
  destruct (Z.ltb_spec (zlen buf) (off + 1 + 1 + n)); [exists off, c; split; [done|lia]|].
  destruct (slice buf (off + 1 + 1) n) as [data|e| |] eqn:Ed;
    [|exfalso; rewrite slice_ok in Ed by lia; done..].
  rewrite bind_Ok. destruct (slice_facts _ _ _ _ Ed Hb) as (_ & Hdl & _ & Hdb).
  match goal with |- context [try_kea ?m _ ≫= _] => assert (kea_ok m) as Hm end.
  { kea_step; [|done]. destruct lib_ok as (L1 & L2 & _).
    destruct (if bool_decide _ then _ else _) as [def|] eqn:Edef; [|kea; apply kea_make_data].
    apply factory_kea; try done; try lia. case_bool_decide; eauto. }
  match goal with |- context [try_kea ?m ?h ≫= _] =>
    assert (exists c1, try_kea m h = Ok c1) as [c1 ->] end.
  { match goal with |- context [try_kea ?m _] => destruct m as [c1|e| |]; try done end.
    - by exists c1.
    - exists c. unfold kea_ok in Hm. cbn [try_kea]. by rewrite Hm. }
  rewrite bind_Ok. destruct (HO buf s (off + 1 + 1 + n) c1) as (o' & c' & E & Ho'); [done|lia..|].
  exists o', c'. split; [done|lia].
Qed.

Lemma vendor_loop_step fuel :
  options4_spec fuel -> vendor_unpack_spec fuel -> vendor_loop_spec fuel -> vendor_loop_spec (S fuel).
Proof.
  intros HO HV HL v buf off oend c Hb Hs Hoff Hend Hf _. cbn [vendor_loop].
  destruct (Z.ltb_spec off oend) as [Hlt|]; [|done]. cbn [negb].
  kea_step; [apply kea_zget; lia|]. cbv zeta. kea_step; [by kea|]. guards.
  kea_step; [apply kea_zget; lia|]. cbv zeta.
  match goal with H : zget buf (off + 1) = Ok _ |- _ => pose proof (zget_byte _ _ _ Hb H) as Hn end.
  unfold byte_ok in Hn. kea_step; [by kea|]. guards. kea_step; [apply kea_slice; lia|].
  match goal with H : slice _ _ _ = Ok ?d |- _ =>
    destruct (slice_facts _ _ _ _ H Hb) as (_ & Hdl & _ & Hdb) end.
  kea_step.
  - destruct lib_ok as (_ & _ & L3). case_match; [|apply kea_make_data].
    apply factory_kea; try done; try lia. eauto.
  - apply HL; done || lia.
Qed.

Lemma vendor_unpack_step fuel : vendor_loop_spec fuel -> vendor_unpack_spec (S fuel).
Proof.
  intros HL v buf c Hb Hs Hf. cbn [vendor_unpack]. destruct buf as [|n rest] eqn:E; [done|].
  rewrite <- E in *. cbv zeta. kea_step; [by kea|]. guards.
  assert (0 <= n < 256) by (subst buf; by apply bytes_ok_cons in Hb as [? _]).
  assert (u8 (1 + n) <= 1 + n) by (unfold u8; apply Z.mod_le; lia).
  assert (0 <= zlen rest /\ zlen buf = 1 + zlen rest) by (subst buf; zlia).
  apply HL; done || lia.
Qed.

Lemma parsers_kea fuel : options4_spec fuel /\ vendor_loop_spec fuel /\ vendor_unpack_spec fuel.
Proof.
  induction fuel as [|fuel (HO & HL & HV)].
  - split_and!; repeat intro; lia || (zlen_facts; lia).
  - split_and!; [by apply options4_step|by apply vendor_loop_step|by apply vendor_unpack_step].
Qed.

Lemma unpackOptions4_total buf s c :
  bytes_ok buf -> zlen buf < 2^32 ->
  exists off c', unpackOptions4 lib buf s c = Ok (off, c') /\ 0 <= off <= zlen buf.
Proof.
  intros. apply (proj1 (parsers_kea _)); [done..|zlia|]. unfold fuel_for, zlen. lia.
Qed.

Lemma unpackVendorOptions4_kea v buf c :
  bytes_ok buf -> zlen buf < 2^32 -> kea_ok (unpackVendorOptions4 lib v buf c).
Proof.
  intros. apply (proj2 (proj2 (parsers_kea _))); [done..|]. unfold fuel_for, zlen. lia.
Qed.

End Parsers.

(** ** The definition store keeps the parser safe *)
Definition meta_safe (m : OptionMeta) : Prop := map_Forall (fun _ d => def_safe d = true) (code_to_def_ m).
Definition runtime_safe (l : LibDHCP) : Prop := map_Forall (fun _ m => meta_safe m) (runtime_options_ l).

#[global] Instance meta_safe_dec m : Decision (meta_safe m).
Proof. unfold meta_safe. apply _. Defined.

Lemma lib_safe_intro l :
  meta_safe (v4_option_meta_ l) -> map_Forall (fun _ m => meta_safe m) (vendor_v4_options_ l) ->
  runtime_safe l -> lib_safe l.
Proof.
  intros Hs Hv Hr. split_and!.
  - intros code d Hd. by apply (Hs code).
  - intros space code d. unfold Lib.getRuntimeOptionDef. case_match eqn:E; [|done].
    intros Hd. by apply (Hr _ _ E code).
  - intros v code d. unfold Lib.getVendorOptionDef. case_match eqn:E; [|done].
    intros Hd. by apply (Hv _ _ E code).
Qed.

Definition std_lib : LibDHCP :=
  match Lib.initOptions Lib.no_defs with Ok l => l | _ => Lib.no_defs end.

Lemma tables_load :
  is_ok (Lib.add_descriptions OPTION_DEF_PARAMS4 Meta.empty) = true /\
  is_ok (Lib.add_descriptions DOCSIS3_V4_DEFS Meta.empty) = true.
Proof. split; vm_compute; reflexivity. Qed.

(** Loading the standard tables succeeds and keeps the runtime definitions. *)
Lemma initOptions_std l :
  Lib.initOptions l
  = Ok (MkLibDHCP (v4_option_meta_ std_lib) (vendor_v4_options_ std_lib) (runtime_options_ l)).
Proof.
  unfold std_lib, Lib.initOptions. destruct tables_load as [H1 H2].
  destruct (Lib.add_descriptions OPTION_DEF_PARAMS4 Meta.empty); try discriminate H1.
  destruct (Lib.add_descriptions DOCSIS3_V4_DEFS Meta.empty); try discriminate H2.
  reflexivity.
Qed.

Lemma std_meta_safe : meta_safe (v4_option_meta_ std_lib).
Proof. apply (bool_decide_eq_true_1 _). vm_compute. reflexivity. Qed.

Lemma std_vendor_safe : map_Forall (fun _ m => meta_safe m) (vendor_v4_options_ std_lib).
Proof. apply (bool_decide_eq_true_1 _). vm_compute. reflexivity. Qed.

Lemma initOptions_safe l l' : runtime_safe l -> Lib.initOptions l = Ok l' -> lib_safe l'.
Proof.
  intros Hr. rewrite initOptions_std. intros [= <-].
  apply lib_safe_intro; [apply std_meta_safe|apply std_vendor_safe|done].
Qed.

Lemma std_lib_safe : lib_safe std_lib.
Proof. apply lib_safe_intro; [apply std_meta_safe|apply std_vendor_safe|]. unfold std_lib.
  pose proof (initOptions_std Lib.no_defs) as E. rewrite E. by intros k m. Qed.

Lemma meta_safe_add d m : def_safe d = true -> meta_safe m -> meta_safe (Meta.addOptionDef d m).
Proof.
  intros Hd Hm. unfold meta_safe, Meta.addOptionDef, Meta.insert_new. cbn [code_to_def_].
  case_match; [done|]. by apply map_Forall_insert_2.
Qed.

Lemma runtime_safe_add space d l :
  def_safe d = true -> runtime_safe l -> runtime_safe (Lib.addRuntimeOptionDef space d l).
Proof.
  intros Hd Hr. unfold runtime_safe, Lib.addRuntimeOptionDef. cbn [runtime_options_].
  apply map_Forall_insert_2; [|done]. apply meta_safe_add; [done|].
  destruct (runtime_options_ l !! space) as [m|] eqn:E; [by apply (Hr space)|]. by intros k d'.
Qed.
