(* ===== verification/OptionsPack.v ===== *)
(** [len()] is the size of what [pack()] writes, for every option class. *)
From stdpp Require Import base list numbers option strings gmap.
From Stdlib Require Import ZArith Lia.
From S2P Require Import Prelude Buffer Address DnsName DnsNameFacts OptionDef Options.

Set Warnings "-register-all".

(** Induction over options with the sub-options as hypotheses. *)
Lemma opt_nested_ind (P : opt -> Prop) :
  (forall t d b os s, Forall (fun p => P (snd p)) os -> P (Opt t d b os s)) -> forall o, P o.
Proof.
  intros H. fix IH 1. intros [t d b os s]. apply H.
  induction os as [|[k o] os IHos]; constructor; [apply IH|apply IHos].
Qed.

(** ** The order of packing *)
Definition is_agent (p : Z * result (list Z)) : Prop := p.1 = DHO_DHCP_AGENT_OPTIONS.
Definition is_end (p : Z * result (list Z)) : Prop := p.1 = DHO_END.

(** RAI and END occur at most once. *)
Definition special_once {A} (l : list (Z * A)) : Prop :=
  (length (filter (fun p => p.1 = DHO_DHCP_AGENT_OPTIONS) l) <= 1)%nat /\
  (length (filter (fun p => p.1 = DHO_END) l) <= 1)%nat.

Definition reorder {A} (l : list (Z * A)) : list (Z * A) :=
  filter (fun p => p.1 <> DHO_DHCP_AGENT_OPTIONS /\ p.1 <> DHO_END) l ++
  filter (fun p => p.1 = DHO_DHCP_AGENT_OPTIONS) l ++ filter (fun p => p.1 = DHO_END) l.

Lemma reorder_perm {A} (l : list (Z * A)) : reorder l ≡ₚ l.
Proof.
  unfold reorder. induction l as [|[k a] l IH]; [done|].
  rewrite !filter_cons. cbn [fst].
  destruct (decide (k = DHO_DHCP_AGENT_OPTIONS)) as [->|H82];
    [|destruct (decide (k = DHO_END)) as [->|H255]].
  - rewrite (decide_False (P := _ /\ _)) by tauto. rewrite (decide_False (P := DHO_DHCP_AGENT_OPTIONS = _)) by done.
    cbn [app]. rewrite <- Permutation_middle. by f_equiv.
  - rewrite (decide_False (P := _ /\ _)) by tauto.
    rewrite (app_assoc _ _ (_ :: _)), <- Permutation_middle, <- app_assoc. by f_equiv.
  - rewrite (decide_True (P := _ /\ _)) by done. cbn [app]. by f_equiv.
Qed.

Lemma concat_results_app l k :
  concat_results (l ++ k) = (x ← concat_results l; y ← concat_results k; Ok (x ++ y)).
Proof.
  induction l as [|r l IH]; simpl; [by destruct (concat_results k)|].
  rewrite IH. destruct r; simpl; try done. destruct (concat_results l); simpl; try done.
  destruct (concat_results k); simpl; try done. by rewrite app_assoc.
Qed.

Lemma last_with_filter k l :
  (length (filter (fun p => p.1 = k) l) <= 1)%nat ->
  last_with k l = concat_results (snd <$> filter (fun p : Z * result (list Z) => p.1 = k) l).
Proof.
  unfold last_with. destruct (filter _ l) as [|[k' r] [|? ?]]; simpl; intros; [done| |lia].
  destruct r; simpl; [by rewrite app_nil_r|done..].
Qed.

Lemma packed_reorder l :
  special_once l -> packOptions4_packed l = concat_results (snd <$> reorder l).
Proof.
  intros [H1 H2]. unfold packOptions4_packed, reorder.
  rewrite !last_with_filter, !fmap_app, !concat_results_app by done.
  by repeat (destruct (concat_results _); simpl; try done).
Qed.

Lemma concat_results_ok l bs :
  concat_results l = Ok bs -> exists bss, l = Ok <$> bss /\ bs = concat bss.
Proof.
  revert bs. induction l as [|r l IH]; simpl; intros bs H.
  - simplify_eq. by exists [].
  - apply bind_ok in H as (x & -> & H). apply bind_ok in H as (y & H & [= <-]).
    apply IH in H as (bss & -> & ->). by exists (x :: bss).
Qed.

Lemma concat_results_Ok bss : concat_results (Ok <$> bss) = Ok (concat bss).
Proof.
  induction bss as [|b bss IH]; [done|].
  change (concat_results (Ok <$> b :: bss)) with (y ← concat_results (Ok <$> bss); Ok (b ++ y)).
  by rewrite IH.
Qed.

Definition total (bss : list (list Z)) : Z := zlen (concat bss).

Lemma total_cons b bss : total (b :: bss) = zlen b + total bss.
Proof. unfold total. simpl. by rewrite zlen_app. Qed.

Lemma total_perm bss css : bss ≡ₚ css -> total bss = total css.
Proof.
  induction 1; rewrite ?total_cons; unfold total in *; try lia; done.
Qed.

Lemma total_member b bss : b ∈ bss -> zlen b <= total bss.
Proof.
  induction 1; rewrite total_cons; unfold total in *; zlen_facts; lia.
Qed.

(** Every element of a packed collection packed, and the sizes add up. *)
Lemma packed_sizes (l : list (Z * result (list Z))) bs :
  special_once l -> packOptions4_packed l = Ok bs ->
  exists bss, (snd <$> l) = Ok <$> bss /\ zlen bs = total bss.
Proof.
  intros Hs H. rewrite packed_reorder in H by done. apply concat_results_ok in H as (bss & E & ->).
  pose proof (fmap_Permutation snd _ _ (reorder_perm l)) as Hp. rewrite E in Hp.
  apply Permutation_sym, (Permutation_map_inv Ok) in Hp as (css & Ec & Hc).
  exists css. split; [done|]. change (zlen (concat bss)) with (total bss). by apply total_perm.
Qed.

(** ** Regular options *)
Definition body_ok (b : body) (os : coll) : Prop :=
  match b with
  | BFqdn _ _ _ (Some n) nt => name_wf n /\ nt <> None
  | BIntArray _ _ => os = []
  | _ => True
  end.

Inductive regular : opt -> Prop :=
| Regular t d b os s :
    body_ok b os -> special_once os -> Forall (fun p => regular (snd p)) os ->
    regular (Opt t d b os s).

Lemma special_once_map {A B} (f : A -> B) (l : list (Z * A)) :
  special_once l -> special_once (map (fun p => (fst p, f (snd p))) l).
Proof.
  assert (forall k, length (filter (fun p : Z * B => p.1 = k) (map (fun p => (fst p, f (snd p))) l)) =
                    length (filter (fun p : Z * A => p.1 = k) l)) as E.
  { intros k. induction l as [|[k' a] l IH]; [done|]. cbn [map]. rewrite !filter_cons. cbn [fst].
    destruct (decide (k' = k)); simpl; congruence. }
  intros [H1 H2]. split; by rewrite E.
Qed.

Lemma zlen_int_bytes t v : zlen (int_bytes t v) = sizeof t.
Proof. by destruct t. Qed.

Lemma zlen_concat_ints t vs : zlen (concat (int_bytes t <$> vs)) = zlen vs * sizeof t.
Proof.
  induction vs as [|v vs IH]; [done|]. rewrite fmap_cons. cbn [concat].
  rewrite zlen_app, zlen_int_bytes, zlen_cons, IH. lia.
Qed.

Lemma pack_addrs_len addrs bs : pack_addrs addrs = Ok bs -> zlen bs = zlen addrs * 4.
Proof.
  revert bs. induction addrs as [|a addrs IH]; intros bs H; cbn [pack_addrs] in H.
  - by simplify_eq.
  - apply bind_ok in H as (v & _ & H). apply bind_ok in H as (r & Hr & <-%Ok_inj).
    apply IH in Hr. rewrite zlen_app, zlen_bytes32, zlen_cons. lia.
Qed.

Lemma tuple_pack_len t bs : Tuple.pack t = Ok bs -> zlen bs = Tuple.getTotalLength t /\ 1 <= zlen t < 256.
Proof.
  unfold Tuple.pack, Tuple.getTotalLength, Tuple.getDataFieldSize. change (Z.shiftl 1 (1 * 8)) with 256.
  destruct (Z.eqb_spec (zlen t) 0); [done|]. destruct (Z.leb_spec 256 (zlen t)); [done|].
  intros [= <-]. zlia.
Qed.

Lemma pack_tuples_len ts bs : pack_tuples ts = Ok bs -> zlen bs = tuples_len ts.
Proof.
  revert bs. induction ts as [|t ts IH]; intros bs H; cbn [pack_tuples] in H; [by simplify_eq|].
  apply bind_ok in H as (x & Hx & H). apply bind_ok in H as (r & Hr & <-%Ok_inj).
  apply IH in Hr. apply tuple_pack_len in Hx as [Hx _]. unfold tuples_len in *. cbn [foldr]. zlia.
Qed.

Lemma pack_vendor_tuples_len vid first ts bs :
  pack_vendor_tuples vid first ts = Ok bs ->
  zlen bs = tuples_len ts + 4 * (if first then zlen ts - (if zlen ts =? 0 then 0 else 1) else zlen ts).
Proof.
  revert first bs. induction ts as [|t ts IH]; intros first bs H; cbn [pack_vendor_tuples] in H.
  - simplify_eq. by destruct first.
  - apply bind_ok in H as (x & Hx & H). apply bind_ok in H as (r & Hr & <-%Ok_inj).
    apply IH in Hr. apply tuple_pack_len in Hx as [Hx _]. unfold tuples_len in *. cbn [foldr].
    rewrite !zlen_app, zlen_cons. destruct first.
    + rewrite (proj2 (Z.eqb_neq _ _)) by zlia. zlia.
    + rewrite zlen_bytes32. lia.
Qed.

Lemma of_name_dataLength ls :
  LabelSequence.getDataLength (LabelSequence.of_name (of_labels ls)) = Ok (zlen (labels_wire ls) + 1).
Proof.
  unfold LabelSequence.getDataLength, LabelSequence.of_name. cbn [LabelSequence.loffsets_ LabelSequence.data_
    LabelSequence.last_label_ LabelSequence.first_label_ of_labels offsets_ ndata_ labelcount_].
  rewrite Z.add_simpl_r, labels_offsets_lookup_last, bind_Ok, InputBufferFacts.zget_view, bind_Ok.
  assert (zget (labels_offsets 0 ls) 0 = Ok 0) as -> by (by destruct ls). rewrite bind_Ok. f_equal. lia.
Qed.

(** The domain name field has the size [len()] counts for it. *)
Lemma domain_name_size fl n nt d :
  body_ok (BFqdn fl 0 0 n nt) [] -> Fqdn.packDomainName fl n nt = Ok d -> zlen d < 2^16 ->
  Fqdn.domain_name_length fl n nt = Ok (zlen d).
Proof.
  intros Hok H Hd. destruct n as [n|]; [|by simplify_eq/=].
  destruct Hok as [(ls & [Hls Hw] & ->) Hnt]. unfold MAX_WIRE in Hw.
  unfold Fqdn.packDomainName in H. apply bind_ok in H as (e & He & H).
  unfold Fqdn.domain_name_length. rewrite He, bind_Ok. destruct e.
  - rewrite of_name_dataLength, bind_Ok in H. rewrite (proj2 (Z.ltb_lt _ _)) in H by zlia.
    rewrite of_name_data, bind_Ok in H by done. simplify_eq. f_equal.
    cbn [length_ of_labels]. rewrite zlen_app. change (zlen [0]) with 1.
    destruct nt as [[]|]; [| |done].
    + rewrite (bool_decide_eq_true_2 (Some PARTIAL = Some PARTIAL)) by done.
      rewrite (bool_decide_eq_false_2 (Some PARTIAL = Some FULL)) by done.
      rewrite length_app. simpl length. rewrite take_app_le by lia.
      rewrite take_ge by lia. rewrite u16_small; zlia.
    + rewrite (bool_decide_eq_true_2 (Some FULL = Some FULL)) by done.
      rewrite (bool_decide_eq_false_2 (Some FULL = Some PARTIAL)) by done.
      rewrite zlen_app. change (zlen [0]) with 1. rewrite u16_small; zlia.
  - rewrite H, bind_Ok, u16_small; [done|]. pose proof (zlen_nonneg d). lia.
Qed.

Definition packs_its_len (o : opt) : Prop :=
  forall bs, pack o = Ok bs -> zlen bs < 2^16 ->
    len o = Ok (zlen bs) /\
    exists payload, bs = u8 (type_ o) :: zlen payload :: payload /\ zlen payload <= 253.

(** The sub-options are counted exactly. *)
Lemma subs_len os s :
  special_once os -> Forall (fun p => packs_its_len (snd p)) os ->
  packOptions4_packed (map (fun p => (fst p, pack (snd p))) os) = Ok s -> zlen s < 2^16 ->
  sum_results (map (fun p => len (snd p)) os) = Ok (zlen s).
Proof.
  intros Hsp Hall H Hs. apply packed_sizes in H as (bss & E & Hz); [|by apply special_once_map].
  assert (snd <$> map (fun p => (fst p, pack (snd p))) os = map (fun p => pack (snd p)) os) as E'.
  { clear. induction os as [|p os IH]; [done|]. cbn [map]. by rewrite fmap_cons, IH. }
  rewrite E' in E. clear E' Hsp. rewrite Hz in *. clear Hz s. revert bss E Hs.
  induction Hall as [|[k o] os Ho Hall IH]; intros [|b bss] E Hs; cbn [map] in *; try done.
  rewrite fmap_cons in E. injection E as E1 E2. rewrite total_cons in *.
  assert (0 <= total bss) by apply zlen_nonneg. pose proof (zlen_nonneg b).
  destruct (Ho b E1) as [El _]; [lia|]. cbn [snd] in El.
  unfold sum_results in *. cbn [foldr snd]. rewrite El, bind_Ok, (IH bss E2) by lia. done.
Qed.

(** A header followed by exactly the counted payload. *)
Lemma header_payload o h payload :
  packHeader o = Ok h -> zlen (h ++ payload) < 2^16 ->
  (zlen payload < 2^16 -> len o = Ok (u16 (OPTION4_HDR_LEN + zlen payload))) ->
  len o = Ok (zlen (h ++ payload)) /\
  exists payload', h ++ payload = u8 (type_ o) :: zlen payload' :: payload' /\ zlen payload' <= 253.
Proof.
  intros H Hs Hl. unfold packHeader in H. apply bind_ok in H as (l & El & H).
  apply bind_ok in H as ([] & Hg & [= <-]). apply throw_if_ok in Hg. rewrite El in Hl.
  assert (zlen ([u8 (type_ o); u8 (l - OPTION4_HDR_LEN)] ++ payload) = 2 + zlen payload) as Hz by zlia.
  rewrite Hz in *. pose proof (zlen_nonneg payload).
  specialize (Hl ltac:(lia)). injection Hl as Hl. unfold OPTION4_HDR_LEN in *.
  rewrite u16_small in Hl by lia. subst l. split; [done|].
  exists payload. split; [|lia]. cbn [app]. do 2 f_equal.
  replace (2 + zlen payload - 2) with (zlen payload) by lia. apply u8_small. unfold byte_ok. lia.
Qed.

Lemma regular_packs o : regular o -> packs_its_len o.
Proof.
  induction o as [t d b os s IH] using opt_nested_ind. intros Hr. inversion Hr as [? ? ? ? ? Hb Hsp Hos]; subst.
  assert (Forall (fun p => packs_its_len (snd p)) os) as Hall.
  { clear Hr Hsp Hb. induction IH as [|p os Hp IH' IHo]; constructor; apply Forall_cons_iff in Hos as [? ?]; auto. }
  clear IH Hos Hr. intros bs H Hs.
  assert (forall h payload, packHeader (Opt t d b os s) = Ok h -> bs = h ++ payload ->
    (zlen payload < 2^16 -> len (Opt t d b os s) = Ok (u16 (OPTION4_HDR_LEN + zlen payload))) ->
    len (Opt t d b os s) = Ok (zlen bs) /\
    exists payload', bs = u8 t :: zlen payload' :: payload' /\ zlen payload' <= 253) as Hfin.
  { intros h payload Hh -> Hl. by apply (header_payload (Opt t d b os s)). }
  destruct b; cbn [pack] in H.
  - apply bind_ok in H as (h & Hh & H). apply bind_ok in H as (x & Hx & <-%Ok_inj).
    eapply Hfin; [done..|]. intros Hp. cbn [len]. rewrite (subs_len os x), bind_Ok by (done || zlia).
    do 2 f_equal. zlia.
  - apply bind_ok in H as (h & Hh & H). apply bind_ok in H as (x & Hx & <-%Ok_inj).
    eapply Hfin; [done..|]. intros Hp. cbn [len]. rewrite (subs_len os x), bind_Ok by (done || zlia).
    do 2 f_equal. rewrite zlen_app, zlen_int_bytes. lia.
  - apply bind_ok in H as (h & Hh & [= <-]). eapply Hfin; [done..|]. intros Hp.
    simpl in Hb. subst os. cbn [len map sum_results foldr]. rewrite bind_Ok, zlen_concat_ints. do 2 f_equal. lia.
  - apply bind_ok in H as (h & Hh & [= <-]). by eapply Hfin.
  - apply bind_ok in H as ([] & Hg & H). apply throw_if_ok in Hg. cbn [len] in H. rewrite bind_Ok in H.
    apply bind_ok in H as (r & Hr & <-%Ok_inj). apply pack_addrs_len in Hr. unfold V4ADDRESS_LEN, OPTION4_HDR_LEN in *.
    pose proof (zlen_nonneg addrs). cbn [len]. unfold V4ADDRESS_LEN, OPTION4_HDR_LEN.
    rewrite u16_small in * by lia. split; [f_equal; zlia|]. exists r. split; [|lia].
    cbn [app]. do 2 f_equal. rewrite u8_small; [lia|]. unfold byte_ok. lia.
  - apply bind_ok in H as (h & Hh & H). apply bind_ok in H as (x & Hx & <-%Ok_inj).
    eapply Hfin; [done..|]. intros Hp. cbn [len]. rewrite (subs_len os x), bind_Ok by (done || zlia).
    do 2 f_equal. zlia.
  - apply bind_ok in H as (h & Hh & H). apply bind_ok in H as (x & Hx & <-%Ok_inj).
    eapply (Hfin h ([u8 flags; u8 rcode1; u8 rcode2] ++ x)); [done..|]. intros Hp. cbn [len].
    rewrite (domain_name_size flags domain_name domain_name_type x), bind_Ok by (done || zlia).
    unfold Fqdn.FIXED_FIELDS_LEN. do 2 f_equal. zlia.
  - apply bind_ok in H as (h & Hh & H). apply bind_ok in H as (l & Hl & H).
    apply bind_ok in H as (x & Hx & <-%Ok_inj).
    eapply Hfin; [done..|]. intros Hp. cbn [len]. rewrite !zlen_app, zlen_bytes32 in *.
    rewrite (subs_len os x), bind_Ok by (done || zlia). do 2 f_equal. zlia.
  - apply bind_ok in H as (h & Hh & H). apply bind_ok in H as (r & Hr & <-%Ok_inj).
    apply pack_vendor_tuples_len in Hr.
    eapply (Hfin h (bytes32 vendor_id ++ r)); [done..|]. intros Hp. cbn [len].
    rewrite zlen_app, zlen_bytes32. do 2 f_equal. lia.
  - apply bind_ok in H as (h & Hh & H). apply bind_ok in H as (r & Hr & <-%Ok_inj).
    apply pack_tuples_len in Hr. eapply Hfin; [done..|]. intros Hp. cbn [len]. do 2 f_equal. lia.
Qed.
