(* ===== verification/OptionsRoundTrip.v ===== *)
(** Parsing inverts packing: a collection of options in canonical form is
    rebuilt exactly from the bytes it packs to. *)
From stdpp Require Import base list numbers option strings gmap sorting.
From Stdlib Require Import ZArith Lia.
From S2P Require Import Prelude Buffer Address DnsName DnsNameFacts DnsWireFacts OptionDef Options.
From S2P Require Import OptionsFacts OptionsPack.

Set Warnings "-register-all".

(** ** Sorted collections *)
Definition key_le (p q : Z * opt) : Prop := p.1 <= q.1.
Definition sorted_coll (c : coll) : Prop := StronglySorted key_le c.

Definition insert_all (l acc : coll) : coll := foldl (fun acc p => minsert p.1 p.2 acc) acc l.

Lemma minsert_last k o c : Forall (fun p => p.1 <= k) c -> minsert k o c = c ++ [(k, o)].
Proof.
  induction 1 as [|[k' o'] c Hk Hc IH]; [done|]. simpl in *.
  rewrite (proj2 (Z.ltb_ge _ _)) by lia. by rewrite IH.
Qed.

Lemma minsert_mid k o l1 l2 :
  Forall (fun p => p.1 <= k) l1 -> Forall (fun p => k < p.1) l2 ->
  minsert k o (l1 ++ l2) = l1 ++ (k, o) :: l2.
Proof.
  induction 1 as [|[k' o'] l1 Hk Hl IH]; intros H2; simpl in *.
  - destruct l2 as [|[k' o'] l2]; [done|]. apply Forall_cons_iff in H2 as [H2 _]. simpl in *.
    by rewrite (proj2 (Z.ltb_lt _ _)).
  - rewrite (proj2 (Z.ltb_ge _ _)) by lia. by rewrite IH.
Qed.

Lemma minsert_keys k o c k' : k' ∈ (fst <$> minsert k o c) <-> k' = k \/ k' ∈ (fst <$> c).
Proof.
  induction c as [|[k0 o0] c IH]; simpl.
  - rewrite list_elem_of_singleton, elem_of_nil. tauto.
  - destruct (k <? k0); simpl; rewrite !elem_of_cons; [tauto|]. rewrite IH. tauto.
Qed.

Lemma minsert_sorted k o c : sorted_coll c -> sorted_coll (minsert k o c).
Proof.
  intros Hs. induction Hs as [|[k0 o0] c Hs IH Hc]; simpl; [repeat constructor|].
  destruct (Z.ltb_spec k k0).
  - constructor; [by constructor|]. constructor; [unfold key_le; simpl; lia|].
    eapply Forall_impl; [exact Hc|]. unfold key_le. simpl. lia.
  - constructor; [done|]. apply Forall_forall. intros [k1 o1] Hin. unfold key_le. simpl.
    assert (k1 ∈ (fst <$> minsert k o c)) as Hk by (apply list_elem_of_fmap; by exists (k1, o1)).
    apply minsert_keys in Hk as [->|Hk]; [lia|].
    apply list_elem_of_fmap in Hk as ([k2 o2] & -> & Hin2). rewrite Forall_forall in Hc.
    by apply (Hc _ Hin2).
Qed.

Lemma insert_all_sorted l acc :
  sorted_coll l -> (forall p q, p ∈ acc -> q ∈ l -> p.1 <= q.1) -> insert_all l acc = acc ++ l.
Proof.
  intros Hs. revert acc. induction Hs as [|[k o] l Hs IH Hl]; intros acc Ha; [by rewrite app_nil_r|].
  cbn [insert_all foldl fst snd]. rewrite minsert_last.
  2:{ apply Forall_forall. intros p Hp. apply (Ha p (k, o)); [done|set_solver]. }
  change (insert_all l (acc ++ [(k, o)]) = acc ++ (k, o) :: l). rewrite IH; [by rewrite <- app_assoc|].
  intros p q Hp Hq. apply elem_of_app in Hp as [Hp|Hp]; [apply Ha; [done|set_solver]|].
  apply list_elem_of_singleton in Hp as ->. rewrite Forall_forall in Hl. by apply Hl.
Qed.

Lemma sorted_filter (P : Z * opt -> Prop) `{!forall x, Decision (P x)} c :
  sorted_coll c -> sorted_coll (filter P c).
Proof.
  induction 1 as [|p c Hs IH Hc]; [constructor|]. rewrite filter_cons.
  case_decide; [|done]. constructor; [done|]. apply Forall_forall. intros q Hq.
  apply list_elem_of_filter in Hq as [_ Hq]. rewrite Forall_forall in Hc. by apply Hc.
Qed.

Lemma sorted_split l1 k o l2 :
  sorted_coll (l1 ++ (k, o) :: l2) ->
  Forall (fun p => p.1 <= k) l1 /\ Forall (fun p => k <= p.1) l2 /\ sorted_coll (l1 ++ l2).
Proof.
  induction l1 as [|p l1 IH]; intros Hs; inversion Hs as [|? ? Hs' Hf]; subst; simpl in *.
  - split_and!; [constructor|exact Hf|done].
  - apply IH in Hs' as (H1 & H2 & H3). apply Forall_app in Hf as [Hf1 Hf2].
    apply Forall_cons_iff in Hf2 as [Hk Hf2]. split_and!; [by constructor|done|].
    constructor; [done|]. by apply Forall_app.
Qed.

(** Re-inserting a sorted collection in packing order rebuilds it. *)
Lemma insert_reorder c :
  sorted_coll c -> Forall (fun p => p.1 < DHO_END) c ->
  (length (filter (fun p => p.1 = DHO_DHCP_AGENT_OPTIONS) c) <= 1)%nat ->
  insert_all (reorder c) [] = c.
Proof.
  intros Hs He H1. unfold reorder, insert_all.
  assert (filter (fun p : Z * opt => p.1 = DHO_END) c = []) as ->.
  { clear -He. induction He as [|p c Hp Hc IH]; [done|]. rewrite filter_cons, decide_False; [done|].
    unfold DHO_END in *. lia. }
  assert (filter (fun p : Z * opt => p.1 <> DHO_DHCP_AGENT_OPTIONS /\ p.1 <> DHO_END) c =
          filter (fun p => p.1 <> DHO_DHCP_AGENT_OPTIONS) c) as ->.
  { clear -He. induction He as [|p c Hp Hc IH]; [done|]. rewrite !filter_cons, IH.
    unfold DHO_END in *. destruct (decide (p.1 = DHO_DHCP_AGENT_OPTIONS)).
    - rewrite !decide_False by tauto. done.
    - rewrite !decide_True by lia. done. }
  rewrite app_nil_r, foldl_app. fold (insert_all (filter (fun p => p.1 <> DHO_DHCP_AGENT_OPTIONS) c) []).
  rewrite insert_all_sorted by (by apply sorted_filter || set_solver). cbn [app].
  destruct (filter (fun p => p.1 = DHO_DHCP_AGENT_OPTIONS) c) as [|[k a] [|? ?]] eqn:E; [| |simpl in H1; lia].
  - simpl. clear -E. induction c as [|p c IH]; [done|]. rewrite filter_cons in *.
    case_decide; [done|]. rewrite decide_True by done. by rewrite IH.
  - simpl.
    assert ((k, a) ∈ filter (fun p : Z * opt => p.1 = DHO_DHCP_AGENT_OPTIONS) c) as Hin by (rewrite E; set_solver).
    apply list_elem_of_filter in Hin as [Hk Hin]. simpl in Hk.
    apply list_elem_of_split in Hin as (l1 & l2 & ->).
    rewrite !filter_app, !filter_cons in *. cbn [fst] in *.
    rewrite (decide_True (P := k = _)) in E by done. rewrite (decide_False (P := k <> _)) by tauto.
    assert (filter (fun p : Z * opt => p.1 = DHO_DHCP_AGENT_OPTIONS) l1 = [] /\
            filter (fun p : Z * opt => p.1 = DHO_DHCP_AGENT_OPTIONS) l2 = []) as [E1 E2].
    { apply (f_equal length) in E. rewrite length_app in E. simpl in E.
      split; apply nil_length_inv; lia. }
    assert (forall l : coll, filter (fun p : Z * opt => p.1 = DHO_DHCP_AGENT_OPTIONS) l = [] ->
      filter (fun p : Z * opt => p.1 <> DHO_DHCP_AGENT_OPTIONS) l = l /\
      Forall (fun p => p.1 <> DHO_DHCP_AGENT_OPTIONS) l) as Hno.
    { clear. induction l as [|p l IH]; intros E; [by split|]. rewrite filter_cons in *.
      case_decide; [done|]. destruct (IH E) as [-> Hf]. rewrite decide_True by done.
      split; [done|by constructor]. }
    destruct (Hno l1 E1) as [-> _], (Hno l2 E2) as [-> Hf2].
    apply sorted_split in Hs as (Hl1 & Hl2 & _). apply minsert_mid; [done|].
    apply Forall_forall. intros p Hp. rewrite Forall_forall in Hl2, Hf2.
    specialize (Hl2 p Hp). specialize (Hf2 p Hp). simpl in *. lia.
Qed.

(** ** One option in the parser *)
Section RoundTrip.
Variable lib : LibDHCP.

Definition lookup_def (space : string) (k : Z) : option OptionDefinition :=
  if bool_decide (space = DHCP4_OPTION_SPACE)
  then Lib.getStdOptionDef k lib else Lib.getRuntimeOptionDef space k lib.

(** What the parser builds for code [k] and payload [p] in [space]. *)
Definition parse_one (fuel : nat) (space : string) (k : Z) (p : list Z) : result opt :=
  match lookup_def space k with
  | Some def =>
      optionFactory (fun b s c => options4_loop lib fuel b s 0 c)
        (fun v b c => vendor_unpack lib fuel v b c) def k p
  | None => o ← Option_.make_data k p; Ok (setEncapsulatedSpace DHCP4_OPTION_SPACE o)
  end.

(** [bs] is an encoding the parser maps back to [o]. *)
Definition encodes (space : string) (p : Z * opt) (bs : list Z) : Prop :=
  exists payload, bs = p.1 :: zlen payload :: payload /\ 1 <= p.1 <= 254 /\ zlen payload <= 255 /\
    forall fuel, zlen payload + 1 <= Z.of_nat fuel -> parse_one fuel space p.1 payload = Ok p.2.

Lemma loop_one fuel space k o bs pre rest c :
  encodes space (k, o) bs -> zlen bs <= Z.of_nat (S fuel) ->
  options4_loop lib (S fuel) (pre ++ bs ++ rest) space (zlen pre) c =
  options4_loop lib fuel (pre ++ bs ++ rest) space (zlen (pre ++ bs)) (minsert k o c).
Proof.
  intros (p & -> & Hk & Hp & Hparse) Hf. cbn [fst snd] in *. cbn [options4_loop].
  rewrite (proj2 (Z.ltb_lt _ _)) by zlia. cbn [negb app].
  rewrite InputBufferFacts.zget_view, bind_Ok. cbv zeta.
  rewrite (proj2 (Z.eqb_neq k DHO_END)), (proj2 (Z.eqb_neq k DHO_PAD)) by (unfold DHO_END, DHO_PAD; lia).
  rewrite (proj2 (Z.ltb_ge _ _)) by zlia.
  rewrite (InputBufferFacts.zget_view_off pre _ 1 (zlen p)), bind_Ok by done.
  rewrite (proj2 (Z.ltb_ge _ _)) by zlia.
  replace (slice (pre ++ k :: zlen p :: p ++ rest) (zlen pre + 1 + 1) (zlen p)) with (Ok p).
  2:{ symmetry. pose proof (slice_app (pre ++ [k; zlen p]) p rest) as H. rewrite <- app_assoc in H.
      cbn [app] in H. rewrite <- H. f_equal. zlia. }
  rewrite bind_Ok.
  match goal with |- context [try_kea (?m ≫= _) _] =>
    change m with (parse_one fuel space k p) end.
  rewrite Hparse by zlia. cbn [try_kea]. rewrite !bind_Ok. cbn [try_kea]. rewrite bind_Ok.
  f_equal. zlia.
Qed.

(** The tail after the options: nothing, or END and anything. *)
Definition tail_ok (tail : list Z) : Prop := tail = [] \/ exists junk, tail = DHO_END :: junk.

Lemma loop_coll fuel space l bss pre tail c :
  Forall2 (encodes space) l bss -> tail_ok tail -> zlen (concat bss) < Z.of_nat fuel ->
  options4_loop lib fuel (pre ++ concat bss ++ tail) space (zlen pre) c =
  Ok (zlen (pre ++ concat bss), insert_all l c).
Proof.
  intros Hall Htail. revert fuel pre c. induction Hall as [|[k o] bs l bss He Hall IH]; intros fuel pre c Hf.
  - destruct fuel as [|fuel]; [cbn [concat] in Hf; zlia|]. cbn [concat app options4_loop].
    rewrite app_nil_r. destruct Htail as [-> | [junk ->]].
    + by rewrite app_nil_r, Z.ltb_irrefl.
    + rewrite (proj2 (Z.ltb_lt _ _)) by zlia. cbn [negb].
      rewrite InputBufferFacts.zget_view, bind_Ok. cbv zeta. by rewrite Z.eqb_refl.
  - cbn [concat] in *. assert (2 <= zlen bs) as H2.
    { destruct He as (p & -> & _). zlia. }
    destruct fuel as [|fuel]; [zlia|]. rewrite <- !app_assoc, (loop_one _ _ k o) by (done || zlia).
    rewrite (app_assoc pre bs), IH by zlia. rewrite <- app_assoc. done.
Qed.

(** Packing a canonical collection and parsing the bytes gives it back. *)
Lemma coll_roundtrip fuel space c bs tail :
  sorted_coll c -> special_once c -> tail_ok tail ->
  Forall (fun p => forall b, pack p.2 = Ok b -> zlen b < 2^16 -> encodes space p b) c ->
  packOptions4 c = Ok bs -> zlen bs < 2^16 -> zlen bs < Z.of_nat fuel ->
  options4_loop lib fuel (bs ++ tail) space 0 [] = Ok (zlen bs, c).
Proof.
  intros Hs Honce Htail Henc Hpack H16 Hf. unfold packOptions4 in Hpack.
  rewrite packed_reorder in Hpack by (by apply special_once_map).
  apply concat_results_ok in Hpack as (bss & E & ->).
  assert (reorder (map (fun p => (p.1, pack p.2)) c) = map (fun p => (p.1, pack p.2)) (reorder c)) as Er.
  { unfold reorder. rewrite !map_app. clear. f_equal; [|f_equal];
      (induction c as [|[k o] c IH]; [done|]; cbn [map]; rewrite !filter_cons; cbn [fst];
       case_decide; [cbn [map]; by rewrite IH|done]). }
  rewrite Er in E. clear Er.
  assert (Forall2 (encodes space) (reorder c) bss) as Hall.
  { assert (Forall (fun p => forall b, pack p.2 = Ok b -> zlen b < 2^16 -> encodes space p b) (reorder c)) as Hr.
    { by rewrite (reorder_perm c). }
    clear -E Hr H16. revert bss E H16. induction Hr as [|p l Hp Hr IH]; intros [|b bss] E H16; try done.
    cbn [map] in E. rewrite !fmap_cons in E. injection E as E1 E2. cbn [concat] in H16. rewrite zlen_app in H16.
    pose proof (zlen_nonneg b). pose proof (zlen_nonneg (concat bss)).
    constructor; [apply Hp; [done|lia]|]. apply IH; [done|lia]. }
  pose proof (loop_coll fuel space (reorder c) bss [] tail [] Hall Htail Hf) as Hl.
  cbn [app] in Hl. rewrite zlen_nil in Hl. rewrite Hl. do 2 f_equal.
  apply insert_reorder; [done| |apply Honce].
  apply Forall_forall. intros p Hp. rewrite <- (reorder_perm c) in Hp.
  apply list_elem_of_lookup in Hp as [i Hi]. destruct (Forall2_lookup_l _ _ _ _ _ Hall Hi) as (b & _ & q & _ & Hk & _).
  unfold DHO_END. lia.
Qed.

(** ** Canonical options *)
Definition single_int (t : OptionDataType) : option int_type :=
  match t with
  | OPT_UINT8_TYPE => Some Uint8 | OPT_INT8_TYPE => Some Int8
  | OPT_UINT16_TYPE => Some Uint16 | OPT_INT16_TYPE => Some Int16
  | OPT_UINT32_TYPE => Some Uint32 | OPT_INT32_TYPE => Some Int32
  | _ => None
  end.

(** The element type the factory uses for arrays. *)
Definition array_int (t : OptionDataType) : option int_type :=
  match t with
  | OPT_UINT8_TYPE => Some Uint8 | OPT_INT8_TYPE => Some Int8
  | OPT_UINT16_TYPE | OPT_INT16_TYPE => Some Uint16
  | OPT_UINT32_TYPE | OPT_INT32_TYPE => Some Uint32
  | _ => None
  end.

(** No dedicated class for the definition. *)
Definition generic (def : OptionDefinition) : Prop :=
  (code_ def =? DHO_FQDN) && OptionDef.haveFqdn4Format def = false /\
  (code_ def =? DHO_VIVCO_SUBOPTIONS) && OptionDef.haveVendorClass4Format def = false /\
  code_ def <> DHO_VIVSO_SUBOPTIONS.

(** The buffers of a record option: sized fields exactly filled, a binary or
    string field anything (validation keeps those last). *)
Inductive fields_fit : list OptionDataType -> list (list Z) -> Prop :=
| fit_nil : fields_fit [] []
| fit_sized f fields b bufs :
    0 < OptionDataTypeUtil.getDataTypeLen f -> zlen b = OptionDataTypeUtil.getDataTypeLen f ->
    fields_fit fields bufs -> fields_fit (f :: fields) (b :: bufs)
| fit_last f b :
    f = OPT_BINARY_TYPE \/ f = OPT_STRING_TYPE -> fields_fit [f] [b].

Inductive wf_opt : string -> Z -> opt -> Prop :=
| wf_unknown sp k d :
    lookup_def sp k = None -> 1 <= k <= 254 ->
    wf_opt sp k (Opt k d BPlain [] DHCP4_OPTION_SPACE)
| wf_binary sp k d def :
    lookup_def sp k = Some def -> generic def -> 1 <= k <= 254 ->
    otype_ def = OPT_BINARY_TYPE -> wf_opt sp k (Opt k d BPlain [] "")
| wf_int sp k def t v subs :
    lookup_def sp k = Some def -> generic def -> 1 <= k <= 254 ->
    array_type_ def = false -> single_int (otype_ def) = Some t -> cast t v = v ->
    sorted_coll subs -> special_once subs ->
    Forall (fun p => wf_opt (encapsulated_space_ def) p.1 p.2) subs ->
    wf_opt sp k (Opt k [] (BInt t v) subs (encapsulated_space_ def))
| wf_int_array sp k def t vs :
    lookup_def sp k = Some def -> generic def -> 1 <= k <= 254 ->
    array_type_ def = true -> array_int (otype_ def) = Some t ->
    vs <> [] -> Forall (fun v => cast t v = v) vs ->
    wf_opt sp k (Opt k [] (BIntArray t vs) [] "")
| wf_string sp k def d :
    lookup_def sp k = Some def -> generic def -> 1 <= k <= 254 ->
    otype_ def = OPT_STRING_TYPE -> d <> [] -> wf_opt sp k (Opt k d BString [] "")
| wf_addrs sp k def addrs :
    lookup_def sp k = Some def -> generic def -> 1 <= k <= 254 ->
    otype_ def = OPT_IPV4_ADDRESS_TYPE -> array_type_ def = true ->
    Forall (fun a => exists v, a = V4 v /\ addr_ok v) addrs ->
    wf_opt sp k (Opt k [] (BAddrLst addrs) [] "")
| wf_value sp k def b :
    lookup_def sp k = Some def -> generic def -> 1 <= k <= 254 -> code_ def = k ->
    OptionDef.validate def = Ok tt -> array_type_ def = false ->
    otype_ def = OPT_IPV4_ADDRESS_TYPE \/ otype_ def = OPT_BOOLEAN_TYPE ->
    zlen b = OptionDataTypeUtil.getDataTypeLen (otype_ def) ->
    wf_opt sp k (Opt k b (BCustom def [b]) [] (encapsulated_space_ def))
| wf_record sp k def bufs :
    lookup_def sp k = Some def -> generic def -> 1 <= k <= 254 -> code_ def = k ->
    OptionDef.validate def = Ok tt -> otype_ def = OPT_RECORD_TYPE ->
    fields_fit (record_fields_ def) bufs ->
    wf_opt sp k (Opt k (concat bufs) (BCustom def bufs) [] (encapsulated_space_ def))
| wf_encap sp k def d subs :
    lookup_def sp k = Some def -> generic def -> 1 <= k <= 254 -> code_ def = k ->
    OptionDef.validate def = Ok tt -> otype_ def = OPT_EMPTY_TYPE ->
    encapsulated_space_ def <> ""%string -> packOptions4 subs = Ok d ->
    sorted_coll subs -> special_once subs ->
    Forall (fun p => wf_opt (encapsulated_space_ def) p.1 p.2) subs ->
    wf_opt sp k (Opt k d (BCustom def []) subs (encapsulated_space_ def)).

(** A collection in canonical form. *)
Definition wf_coll (space : string) (c : coll) : Prop :=
  sorted_coll c /\ special_once c /\ Forall (fun p => wf_opt space p.1 p.2) c.

Lemma special_once_nil {A} : special_once (@nil (Z * A)).
Proof. split; simpl; lia. Qed.

Lemma wf_opt_regular o sp k : wf_opt sp k o -> regular o /\ type_ o = k /\ 1 <= k <= 254.
Proof.
  revert sp k. induction o as [t d b os s IH] using opt_nested_ind. intros sp k Hw.
  assert (forall sp', Forall (fun p => wf_opt sp' p.1 p.2) os -> Forall (fun p => regular (snd p)) os) as Hsub.
  { intros sp' Hf. clear Hw. induction IH as [|p os Hp IH' IHo]; constructor;
      apply Forall_cons_iff in Hf as [Hf1 Hf2]; [by eapply Hp|auto]. }
  inversion Hw; subst; (split; [constructor|split; done]); simpl; eauto using special_once_nil.
Qed.

(** *** Payloads *)
Lemma header_bytes o h : packHeader o = Ok h -> exists n, h = [u8 (type_ o); n].
Proof.
  unfold packHeader. intros H. apply bind_ok in H as (l & _ & H). apply bind_ok in H as ([] & _ & <-%Ok_inj). eauto.
Qed.

Lemma payload_eq o n payload b :
  regular o -> 1 <= type_ o <= 254 -> pack o = Ok b -> zlen b < 2^16 ->
  b = [u8 (type_ o); n] ++ payload ->
  b = type_ o :: zlen payload :: payload /\ zlen payload <= 255.
Proof.
  intros Hr Ht Hp Hs E. destruct (regular_packs o Hr b Hp Hs) as (_ & p' & E' & Hl).
  rewrite E in E'. cbn [app] in E'. injection E' as _ Hp'. subst p'. rewrite E. cbn [app].
  rewrite u8_small by (unfold byte_ok; lia). split; [|lia]. do 2 f_equal.
  destruct (regular_packs o Hr b Hp Hs) as (_ & p' & E'' & _). rewrite E in E''. cbn [app] in E''.
  by injection E'' as -> ->.
Qed.

(** *** Integers *)
Lemma cast_u t v : cast t (cast (match t with Int8 => Uint8 | Int16 => Uint16 | Int32 => Uint32 | x => x end) v) = cast t v.
Proof.
  destruct t; unfold cast, s8, s16, s32, u8, u16, u32;
    rewrite ?Z.add_mod_idemp_l by lia; try done; apply Z.mod_mod; lia.
Qed.

Lemma readUint16_bytes v s : 0 <= v < 2^16 -> IOUtil.readUint16 (bytes16 v ++ s) = Ok v.
Proof.
  intros Hv. destruct (be16_bytes16 v Hv) as (a & b & E & Ev). unfold IOUtil.readUint16.
  rewrite E, (proj2 (Z.ltb_ge _ _)) by zlia. cbn [throw_if app].
  change (zget (a :: b :: s) 0) with (Ok a). change (zget (a :: b :: s) 1) with (Ok b).
  by rewrite !bind_Ok, Ev.
Qed.

Lemma readUint32_bytes v s : 0 <= v < 2^32 -> IOUtil.readUint32 (bytes32 v ++ s) = Ok v.
Proof.
  intros Hv. destruct (be32_bytes32 v Hv) as (a & b & c & d & E & Ev). unfold IOUtil.readUint32.
  rewrite E, (proj2 (Z.ltb_ge _ _)) by zlia. cbn [throw_if app].
  change (zget (a :: b :: c :: d :: s) 0) with (Ok a). change (zget (a :: b :: c :: d :: s) 1) with (Ok b).
  change (zget (a :: b :: c :: d :: s) 2) with (Ok c). change (zget (a :: b :: c :: d :: s) 3) with (Ok d).
  by rewrite !bind_Ok, Ev.
Qed.

Lemma read_int_bytes t v s : read_int t (int_bytes t v ++ s) = Ok (cast t v).
Proof.
  unfold read_int. pose proof (cast_u t v) as Hc.
  destruct t; cbn [sizeof int_bytes];
    try change (zget ([u8 v] ++ s) 0) with (Ok (u8 v));
    rewrite ?(readUint16_bytes _ _ (u16_range v)), ?(readUint32_bytes _ _ (u32_range v)), bind_Ok;
    exact (f_equal Ok Hc).
Qed.

Lemma drop_int t v s : drop (Z.to_nat (sizeof t)) (int_bytes t v ++ s) = s.
Proof.
  rewrite drop_app_ge; pose proof (zlen_int_bytes t v) as Hz; unfold zlen in Hz; [|lia].
  replace (Z.to_nat (sizeof t) - length (int_bytes t v))%nat with 0%nat by lia. done.
Qed.

Lemma read_ints_bytes fuel t vs :
  zlen (concat (int_bytes t <$> vs)) < Z.of_nat fuel -> Forall (fun v => cast t v = v) vs ->
  read_ints fuel t (concat (int_bytes t <$> vs)) = Ok vs.
Proof.
  revert fuel. induction vs as [|v vs IH]; intros [|fuel] Hf Hc; try (zlen_facts; lia); [done|].
  rewrite fmap_cons in *. cbn [concat] in *. rewrite zlen_app, zlen_int_bytes in Hf.
  apply Forall_cons_iff in Hc as [Hv Hc]. pose proof (sizeof_pos t). cbn [read_ints].
  destruct (int_bytes t v ++ concat (int_bytes t <$> vs)) as [|x l] eqn:E.
  { apply (f_equal zlen) in E. rewrite zlen_app, zlen_int_bytes in E. zlia. }
  rewrite <- E, read_int_bytes, bind_Ok, drop_int, IH by (done || lia). rewrite bind_Ok. by rewrite Hv.
Qed.

(** *** Addresses *)
Lemma pack_addrs_ok addrs bs :
  pack_addrs addrs = Ok bs -> Forall (fun a => exists v, a = V4 v /\ addr_ok v) addrs ->
  forall fuel, zlen bs < Z.of_nat fuel -> read_addrs fuel bs = Ok addrs.
Proof.
  revert bs. induction addrs as [|a addrs IH]; intros bs H Hok fuel Hf.
  - simplify_eq/=. destruct fuel; [zlen_facts; lia|done].
  - apply Forall_cons_iff in Hok as [(v & -> & Hv) Hok]. cbn [pack_addrs IOAddr.to_uint32] in H.
    rewrite bind_Ok in H. apply bind_ok in H as (r & Hr & <-%Ok_inj).
    rewrite zlen_app, zlen_bytes32 in Hf. destruct fuel as [|fuel]; [zlen_facts; lia|]. cbn [read_addrs].
    destruct (bytes32 v ++ r) as [|x l] eqn:E.
    { apply (f_equal zlen) in E. rewrite zlen_app, zlen_bytes32 in E. zlia. }
    rewrite <- E, readUint32_bytes, bind_Ok by apply Hv.
    rewrite drop_app_ge by (pose proof (zlen_bytes32 v); unfold zlen, V4ADDRESS_LEN in *; lia).
    replace (Z.to_nat V4ADDRESS_LEN - length (bytes32 v))%nat with 0%nat
      by (pose proof (zlen_bytes32 v); unfold zlen, V4ADDRESS_LEN in *; lia).
    rewrite drop_0, (IH r) by (done || lia). rewrite bind_Ok. unfold IOAddr.of_uint32.
    rewrite u32_small by apply Hv. done.
Qed.

(** *** Records *)
Lemma slice_prefix (b r : list Z) : slice (b ++ r) 0 (zlen b) = Ok b.
Proof. apply (slice_app [] b r). Qed.

Lemma record_buffers_ok fields bufs acc :
  fields_fit fields bufs -> record_buffers fields (concat bufs) acc = Ok (acc ++ bufs, []).
Proof.
  intros Hf. revert acc. induction Hf as [|f fields b bufs Hpos Hb Hf IH|f b Hf]; intros acc.
  - by rewrite app_nil_r.
  - cbn [record_buffers concat]. cbv zeta. rewrite (proj2 (Z.eqb_neq _ _)) by lia.
    rewrite (proj2 (Z.ltb_ge _ _)) by zlia. cbn [throw_if]. rewrite !bind_Ok, <- Hb, slice_prefix, bind_Ok.
    rewrite to_nat_zlen, drop_app_length, IH. by rewrite <- app_assoc.
  - cbn [record_buffers concat]. rewrite app_nil_r.
    destruct Hf as [-> | ->]; cbn [OptionDataTypeUtil.getDataTypeLen]; cbv zeta; cbn [Z.eqb];
      rewrite !bind_Ok, slice_all, bind_Ok, to_nat_zlen, drop_all; done.
Qed.

(** *** Every canonical option is decoded from what it packs to *)
Lemma make_ok k : 1 <= k <= 254 -> Option_.make k = Ok (Opt k [] BPlain [] "").
Proof.
  intros. unfold Option_.make. rewrite (proj2 (Z.eqb_neq _ _)), (proj2 (Z.ltb_ge _ _)) by lia. done.
Qed.

Lemma make_data_ok k d : 1 <= k <= 254 -> zlen d <= 255 -> Option_.make_data k d = Ok (Opt k d BPlain [] "").
Proof.
  intros. unfold Option_.make_data, Option_.check. cbv zeta. cbn [type_ data_].
  by rewrite !(proj2 (Z.ltb_ge _ _)) by lia.
Qed.

Lemma generic_factory V def p : generic def -> factorySpecialFormatOption V def p = None.
Proof.
  intros (H1 & H2 & H3). unfold factorySpecialFormatOption. rewrite H1, H2.
  by rewrite (proj2 (Z.eqb_neq _ _)).
Qed.

(** Enters the branch of [optionFactory] for the definition at hand. *)
Ltac use_def :=
  unfold parse_one;
  match goal with H : lookup_def _ _ = Some _ |- _ => rewrite H end; cbv beta iota;
  match goal with
  | Hg : generic ?def |- context [optionFactory ?A ?V ?def _ _] =>
      unfold optionFactory; rewrite (generic_factory V def _ Hg); cbv zeta
  end;
  repeat match goal with
  | H : otype_ ?def = _ |- context [otype_ ?def] => rewrite H
  | H : array_type_ ?def = _ |- context [array_type_ ?def] => rewrite H
  end.

Lemma factoryInteger_ok A t k sp v x subs :
  1 <= k <= 254 -> cast t v = v -> A x sp [] = Ok (zlen x, subs) ->
  factoryInteger A t k sp (int_bytes t v ++ x) = Ok (Opt k [] (BInt t v) subs sp).
Proof.
  intros Hk Hv HA. unfold factoryInteger. rewrite make_ok, bind_Ok by done. pose proof (zlen_int_bytes t v).
  rewrite (proj2 (Z.ltb_ge _ _)) by zlia. cbn [throw_if].
  rewrite bind_Ok, read_int_bytes, bind_Ok, drop_int, HA, bind_Ok. cbn [type_]. by rewrite Hv.
Qed.

Lemma factoryIntegerArray_ok t k vs :
  1 <= k <= 254 -> vs <> [] -> Forall (fun v => cast t v = v) vs ->
  factoryIntegerArray t k (concat (int_bytes t <$> vs)) = Ok (Opt k [] (BIntArray t vs) [] "").
Proof.
  intros Hk Hne Hv. unfold factoryIntegerArray. rewrite make_ok, bind_Ok by done.
  assert (1 <= zlen vs) by (destruct vs; [done|zlia]). pose proof (sizeof_pos t).
  rewrite zlen_concat_ints, (proj2 (Z.eqb_neq (zlen vs * sizeof t) 0)) by nia. cbn [throw_if].
  rewrite Z.mod_mul by lia. cbn [Z.eqb negb throw_if]. rewrite !bind_Ok, read_ints_bytes, bind_Ok; [done| |done].
  unfold zlen. lia.
Qed.

Lemma factoryString_ok k d :
  1 <= k <= 254 -> d <> [] -> factoryString k d = Ok (Opt k d BString [] "").
Proof.
  intros Hk Hd. unfold factoryString. rewrite make_ok, bind_Ok by done.
  by rewrite (proj2 (Z.eqb_neq _ _)) by (destruct d; [done|zlia]).
Qed.

Lemma factoryAddrList4_ok k addrs bs :
  1 <= k <= 254 -> pack_addrs addrs = Ok bs -> Forall (fun a => exists v, a = V4 v /\ addr_ok v) addrs ->
  factoryAddrList4 k bs = Ok (Opt k [] (BAddrLst addrs) [] "").
Proof.
  intros Hk Hp Ha. unfold factoryAddrList4. rewrite u8_small, make_ok, bind_Ok by (done || (unfold byte_ok; lia)).
  pose proof (pack_addrs_len _ _ Hp) as Hl. unfold V4ADDRESS_LEN. rewrite Hl, Z.mod_mul by lia.
  cbn [Z.eqb negb throw_if]. rewrite bind_Ok, (pack_addrs_ok _ _ Hp), bind_Ok; [done|done|unfold zlen; lia].
Qed.

(** *** Options of class [OptionCustom], whatever parses their sub-options *)
Section Custom.
Variable unpackSub : list Z -> string -> coll -> result (Z * coll).
Variable def : OptionDefinition.
Hypothesis Hcode : 1 <= code_ def <= 254.
Hypothesis Hval : OptionDef.validate def = Ok tt.

Lemma custom_value_ok d :
  otype_ def = OPT_IPV4_ADDRESS_TYPE \/ otype_ def = OPT_BOOLEAN_TYPE -> array_type_ def = false ->
  zlen d = OptionDataTypeUtil.getDataTypeLen (otype_ def) -> zlen d <= 255 ->
  OptionCustom_make unpackSub def d = Ok (Opt (code_ def) d (BCustom def [d]) [] (encapsulated_space_ def)).
Proof.
  intros Ho Ha Hz Hd. unfold OptionCustom_make. rewrite make_data_ok, bind_Ok by done. unfold createBuffers.
  rewrite Hval, bind_Ok.
  assert (value_buffers unpackSub def (otype_ def) d = Ok ([d], [])) as Ev.
  { unfold value_buffers. cbv zeta. rewrite <- Hz, Ha, Z.ltb_irrefl. cbn [throw_if]. rewrite bind_Ok.
    assert (0 < zlen d)
      by (rewrite Hz; destruct Ho as [-> | ->]; unfold OptionDataTypeUtil.getDataTypeLen, V4ADDRESS_LEN; lia).
    rewrite (proj2 (Z.eqb_neq _ _)), bind_Ok, (proj2 (Z.ltb_lt _ _)), slice_all, bind_Ok by lia.
    by rewrite to_nat_zlen, drop_all. }
  destruct Ho as [Ho|Ho]; rewrite Ho in *; by rewrite Ev.
Qed.

Lemma custom_record_ok bufs :
  otype_ def = OPT_RECORD_TYPE -> fields_fit (record_fields_ def) bufs -> zlen (concat bufs) <= 255 ->
  OptionCustom_make unpackSub def (concat bufs)
  = Ok (Opt (code_ def) (concat bufs) (BCustom def bufs) [] (encapsulated_space_ def)).
Proof.
  intros Ho Hf Hd. unfold OptionCustom_make. rewrite make_data_ok, bind_Ok by done. unfold createBuffers.
  by rewrite Hval, bind_Ok, Ho, record_buffers_ok, bind_Ok by done.
Qed.

Lemma custom_encap_ok d subs :
  otype_ def = OPT_EMPTY_TYPE -> encapsulated_space_ def <> ""%string -> zlen d <= 255 ->
  (d = [] -> subs = []) -> unpackSub d (encapsulated_space_ def) [] = Ok (zlen d, subs) ->
  OptionCustom_make unpackSub def d = Ok (Opt (code_ def) d (BCustom def []) subs (encapsulated_space_ def)).
Proof.
  intros Ho He Hd Hn Hs. unfold OptionCustom_make. rewrite make_data_ok, bind_Ok by done. unfold createBuffers.
  rewrite Hval, bind_Ok, Ho.
  assert (custom_subs unpackSub (encapsulated_space_ def) d = Ok subs) as ->; [|done].
  unfold custom_subs. rewrite (bool_decide_eq_false_2 _ He).
  destruct d as [|x d]; cbn [TextParser.is_nil negb andb]; [by rewrite Hn|by rewrite Hs].
Qed.
End Custom.

(** Splits [pack o = Ok b] after the header. *)
Ltac after_header Hp n :=
  let h := fresh in let Hh := fresh in
  apply bind_ok in Hp as (h & Hh & Hp); apply header_bytes in Hh as [n ->].

Lemma encodes_intro o sp k b :
  wf_opt sp k o -> pack o = Ok b -> zlen b < 2^16 ->
  forall n payload, b = [u8 (type_ o); n] ++ payload ->
    (zlen payload <= 255 -> forall fuel, zlen payload + 1 <= Z.of_nat fuel -> parse_one fuel sp k payload = Ok o) ->
    encodes sp (k, o) b.
Proof.
  intros Hw Hp Hs n payload E Hparse. destruct (wf_opt_regular _ _ _ Hw) as (Hreg & Ht & Hk).
  rewrite <- Ht in Hk. destruct (payload_eq _ n payload b Hreg Hk Hp Hs E) as [-> Hle].
  exists payload. cbn [fst snd]. rewrite <- Ht at 1. rewrite Ht in Hk. auto.
Qed.

(** Sub-options that encode themselves are parsed back from their bytes. *)
Lemma subs_parse os sp :
  Forall (fun p => forall b, pack p.2 = Ok b -> zlen b < 2^16 -> encodes sp p b) os ->
  sorted_coll os -> special_once os -> forall x, packOptions4 os = Ok x -> zlen x < 2^16 ->
  forall fuel, zlen x < Z.of_nat fuel -> options4_loop lib fuel x sp 0 [] = Ok (zlen x, os).
Proof.
  intros Hf Hso Hsp x Hx Hx16 fuel Hfu. rewrite <- (app_nil_r x) at 1. apply coll_roundtrip; auto. by left.
Qed.

Lemma wf_encodes o sp k b :
  wf_opt sp k o -> pack o = Ok b -> zlen b < 2^16 -> encodes sp (k, o) b.
Proof.
  revert sp k b. induction o as [ty d bd os s IH] using opt_nested_ind. intros sp k b Hw Hp Hs.
  assert (forall sp', Forall (fun p => wf_opt sp' p.1 p.2) os ->
    Forall (fun p => forall b, pack p.2 = Ok b -> zlen b < 2^16 -> encodes sp' p b) os) as Hsub.
  { intros sp' Hf. clear -IH Hf. induction IH as [|[k' o'] os' Ho IH' IHo]; constructor;
      apply Forall_cons_iff in Hf as [Hf1 Hf2]; [intros b' Hb' Hb16; by apply Ho|auto]. }
  pose proof (encodes_intro _ _ _ _ Hw Hp Hs) as Hfin. clear IH.
  destruct (wf_opt_regular _ _ _ Hw) as (_ & _ & Hk).
  inversion Hw; subst; cbn [type_] in *; cbn [pack] in Hp.
  - after_header Hp n. cbn in Hp. apply Ok_inj in Hp as <-. rewrite app_nil_r in *.
    eapply (Hfin n d); [done|]. intros Hd fuel Hf. unfold parse_one.
    match goal with H : lookup_def _ _ = None |- _ => rewrite H end. by rewrite make_data_ok by done.
  - after_header Hp n. cbn in Hp. apply Ok_inj in Hp as <-. rewrite app_nil_r in *.
    eapply (Hfin n d); [done|]. intros Hd fuel Hf. use_def. by apply make_data_ok.
  - after_header Hp n. apply bind_ok in Hp as (x & Hx & <-%Ok_inj). rewrite !zlen_app in Hs.
    eapply (Hfin n (int_bytes t v ++ x)); [done|]. intros Hd fuel Hf. use_def.
    match goal with H : single_int (otype_ def) = Some t |- _ =>
      destruct (otype_ def); cbn [single_int] in H; try discriminate H; injection H as <-;
      apply factoryInteger_ok; auto; apply subs_parse; auto; zlia end.
  - after_header Hp n. apply Ok_inj in Hp as <-. eapply Hfin; [done|]. intros Hd fuel Hf. use_def.
    match goal with H : array_int (otype_ def) = Some t |- _ =>
      destruct (otype_ def); cbn [array_int] in H; try discriminate H; injection H as <-;
      by apply factoryIntegerArray_ok end.
  - after_header Hp n. apply Ok_inj in Hp as <-. eapply Hfin; [done|]. intros Hd' fuel Hf. use_def.
    by apply factoryString_ok.
  - apply bind_ok in Hp as ([] & Hg & Hp). apply bind_ok in Hp as (l & _ & Hp).
    apply bind_ok in Hp as (r & Hr & <-%Ok_inj). eapply Hfin; [done|]. intros Hd fuel Hf. use_def.
    by apply factoryAddrList4_ok.
  - after_header Hp n. cbn in Hp. apply Ok_inj in Hp as <-. rewrite !app_nil_r in *.
    eapply (Hfin n d); [done|]. intros Hd fuel Hf.
    match goal with H : otype_ def = _ \/ _ |- _ => pose proof H; destruct H end; use_def; by apply custom_value_ok.
  - after_header Hp n. cbn in Hp. apply Ok_inj in Hp as <-. rewrite !app_nil_r in *.
    eapply (Hfin n (concat bufs)); [done|]. intros Hd fuel Hf. use_def. by apply custom_record_ok.
  - after_header Hp n. apply bind_ok in Hp as (x & Hx & <-%Ok_inj). cbn [concat app] in *.
    match goal with H : packOptions4 os = Ok d |- _ => pose proof H as Hd; unfold packOptions4 in H; rewrite H in Hx; apply Ok_inj in Hx as <- end.
    eapply (Hfin n d); [done|]. intros Hd' fuel Hf. use_def.
    match goal with H : encapsulated_space_ def <> _ |- _ => rewrite (bool_decide_eq_false_2 _ H) end.
    apply custom_encap_ok; auto; [|apply subs_parse; auto; zlia].
    intros ->. assert (options4_loop lib 1 [] (encapsulated_space_ def) 0 [] = Ok (zlen (@nil Z), os)) as Hn
      by (apply subs_parse; auto; zlia). by injection Hn.
Qed.

(** The round trip for whole collections, with the tail a packet has. *)
Lemma wf_coll_roundtrip space c bs tail :
  wf_coll space c -> tail_ok tail -> packOptions4 c = Ok bs -> zlen bs < 2^16 ->
  unpackOptions4 lib (bs ++ tail) space [] = Ok (zlen bs, c).
Proof.
  intros (Hs & Ho & Hw) Ht Hp H16. unfold unpackOptions4. apply coll_roundtrip; auto.
  - eapply Forall_impl; [exact Hw|]. intros [k o] Hk b Hb Hb16. by apply wf_encodes.
  - unfold fuel_for, zlen. rewrite length_app. lia.
Qed.

End RoundTrip.
