(* ===== verification/HwAddr.v ===== *)
(** Hardware addresses (dhcp++/hwaddr.cpp), DUIDs and client identifiers
    (dhcp++/duid.cpp) and the colon-separated hexadecimal text both use
    (util/strutil.cpp). *)
From stdpp Require Import base list numbers option.
From Stdlib Require Import ZArith Lia.
From S2P Require Import Prelude.

Definition HTYPE_ETHER : Z := 1.

Record HWAddr := MkHWAddr { hwaddr_ : list Z; htype_ : Z; source_ : Z }.

#[global] Instance HWAddr_eq_dec : EqDecision HWAddr.
Proof. solve_decision. Defined.

(** ** Text *)
Module Hex.

(** [std::hex << std::setw(2) << std::setfill('0')] of a byte. *)
Definition digit (d : Z) : Z := if d <? 10 then 48 + d else 87 + d.
Definition byte_text (b : Z) : list Z := [digit (b / 16); digit (b mod 16)].

Fixpoint toText (bytes : list Z) : list Z :=
  match bytes with
  | [] => []
  | [b] => byte_text b
  | b :: bs => byte_text b ++ 58 :: toText bs
  end.

(** [isxdigit] of the C locale, and the value [std::hex] extraction gives. *)
Definition xdigit (c : Z) : option Z :=
  if (48 <=? c) && (c <=? 57) then Some (c - 48)
  else if (97 <=? c) && (c <=? 102) then Some (c - 87)
  else if (65 <=? c) && (c <=? 70) then Some (c - 55)
  else None.

(** [boost::split] at every colon, without token compression. *)
Fixpoint split (cur : list Z) (s : list Z) : list (list Z) :=
  match s with
  | [] => [cur]
  | c :: s => if c =? 58 then cur :: split [] s else split (cur ++ [c]) s
  end.

Fixpoint token_value (acc : Z) (t : list Z) : result Z :=
  match t with
  | [] => Ok acc
  | c :: t => match xdigit c with
              | Some d => token_value (acc * 16 + d) t
              | None => Throw BadValue
              end
  end.

(** One iteration of the loop over the tokens; [many] is [size() > 1]. *)
Definition token_bytes (many : bool) (t : list Z) : result (list Z) :=
  if many && bool_decide (t = []) then Throw BadValue
  else if 2 <? zlen t then Throw BadValue
  else if bool_decide (t = []) then Ok []
  else v ← token_value 0 t; Ok [u8 v].

Definition decodeColonSeparatedHexString (s : list Z) : result (list Z) :=
  let tokens := split [] s in
  bs ← mapM_ (token_bytes (1 <? zlen tokens)) tokens; Ok (concat bs).

End Hex.

(** ** Hardware addresses *)
Module HW.

Definition MAX_HWADDR_LEN : Z := 20.
Definition empty : HWAddr := MkHWAddr [] HTYPE_ETHER 0.

Definition make (hwaddr : list Z) (htype : Z) : result HWAddr :=
  throw_if (MAX_HWADDR_LEN <? zlen hwaddr) BadValue;; Ok (MkHWAddr hwaddr htype 0).

Definition equals (a b : HWAddr) : bool :=
  (htype_ a =? htype_ b) && bool_decide (hwaddr_ a = hwaddr_ b).

(** [toText(false)] *)
Definition toText (a : HWAddr) : list Z := Hex.toText (hwaddr_ a).

Definition fromText (text : list Z) (htype : Z) : result HWAddr :=
  binary ← Hex.decodeColonSeparatedHexString text; make binary htype.

End HW.

(** ** DUIDs and client identifiers *)
Module DUID.

Definition MAX_DUID_LEN : Z := 128.

Inductive DUIDType : Set := DUID_UNKNOWN | DUID_LLT | DUID_EN | DUID_LL | DUID_UUID.

Definition make (duid : list Z) : result (list Z) :=
  throw_if (MAX_DUID_LEN <? zlen duid) BadValue;;
  throw_if (bool_decide (duid = [])) BadValue;;
  Ok duid.

Definition getType (duid : list Z) : result DUIDType :=
  if zlen duid <? 2 then Ok DUID_UNKNOWN
  else
    a ← zget duid 0; b ← zget duid 1;
    Ok (match u16 (Z.shiftl a 8 + b) with
        | 1 => DUID_LLT | 2 => DUID_EN | 3 => DUID_LL | 4 => DUID_UUID
        | _ => DUID_UNKNOWN
        end).

Definition generateEmpty : result (list Z) := make [0].
Definition toText (duid : list Z) : list Z := Hex.toText duid.

End DUID.

Module ClientId.

Definition MIN_CLIENT_ID_LEN : Z := 2.

Definition make (clientid : list Z) : result (list Z) :=
  d ← DUID.make clientid;
  throw_if (zlen clientid <? MIN_CLIENT_ID_LEN) BadValue;;
  Ok d.

Definition toText (duid : list Z) : list Z := DUID.toText duid.

End ClientId.

(** ** Facts *)
Lemma xdigit_digit d : 0 <= d < 16 -> Hex.xdigit (Hex.digit d) = Some d.
Proof.
  intros Hd. unfold Hex.xdigit, Hex.digit. destruct (Z.ltb_spec d 10).
  - replace ((48 <=? 48 + d) && (48 + d <=? 57)) with true by lia. f_equal. lia.
  - replace ((48 <=? 87 + d) && (87 + d <=? 57)) with false by lia.
    replace ((97 <=? 87 + d) && (87 + d <=? 102)) with true by lia. f_equal. lia.
Qed.

Lemma digit_not_colon d : 0 <= d < 16 -> (Hex.digit d =? 58) = false.
Proof. intros Hd. unfold Hex.digit. destruct (Z.ltb_spec d 10); lia. Qed.

Lemma nibbles b : byte_ok b -> 0 <= b / 16 < 16 /\ 0 <= b mod 16 < 16.
Proof.
  unfold byte_ok. intros. split.
  - split; [apply Z.div_pos; lia|apply Z.div_lt_upper_bound; lia].
  - apply Z.mod_pos_bound. lia.
Qed.

Lemma split_byte b rest : byte_ok b ->
  Hex.split [] (Hex.byte_text b ++ 58 :: rest) = Hex.byte_text b :: Hex.split [] rest.
Proof.
  intros [H1 H2]%nibbles. unfold Hex.byte_text. cbn.
  by rewrite !digit_not_colon by done.
Qed.

Lemma split_toText b bs : bytes_ok (b :: bs) ->
  Hex.split [] (Hex.toText (b :: bs)) = Hex.byte_text <$> (b :: bs).
Proof.
  revert b. induction bs as [|c bs IH]; intros b [Hb Hbs]%bytes_ok_cons.
  - apply nibbles in Hb as [H1 H2]. cbn. by rewrite !digit_not_colon by done.
  - change (Hex.toText (b :: c :: bs)) with (Hex.byte_text b ++ 58 :: Hex.toText (c :: bs)).
    rewrite split_byte by done. by rewrite IH by done.
Qed.

Lemma token_byte_text many b : byte_ok b -> Hex.token_bytes many (Hex.byte_text b) = Ok [b].
Proof.
  intros Hb. pose proof (nibbles b Hb) as [H1 H2]. unfold Hex.token_bytes.
  rewrite bool_decide_false by done. rewrite andb_false_r. cbn.
  rewrite !xdigit_digit by done. cbn. f_equal. f_equal.
  rewrite u8_small; [|pose proof (Z.div_mod b 16); unfold byte_ok in *; lia].
  pose proof (Z.div_mod b 16). lia.
Qed.

Lemma mapM_tokens many bs :
  bytes_ok bs -> mapM_ (Hex.token_bytes many) (Hex.byte_text <$> bs) = Ok ((fun b => [b]) <$> bs).
Proof.
  induction bs as [|b bs IH]; [done|]. intros [Hb Hbs]%bytes_ok_cons.
  cbn [fmap list_fmap mapM_]. rewrite token_byte_text by done. cbn [mbind result_bind].
  by rewrite IH.
Qed.

Lemma hex_roundtrip bs :
  bytes_ok bs -> Hex.decodeColonSeparatedHexString (Hex.toText bs) = Ok bs.
Proof.
  intros Hb. unfold Hex.decodeColonSeparatedHexString. destruct bs as [|b bs]; [done|].
  rewrite split_toText by done. rewrite mapM_tokens by done.
  cbn [mbind result_bind]. f_equal. generalize (b :: bs). clear.
  induction l as [|x l IH]; [done|]. cbn. by rewrite IH.
Qed.
