(* ===== verification/Encode.v ===== *)
(** Base-N text: util/encode/base_n.cpp with the tables of
    base16_from_binary.h, binary_from_base16.h, base32hex_from_binary.h and
    binary_from_base32hex.h.

    The regrouping of bits ([transform_width]) and the base64 alphabet are
    Boost's: the first is an interface with its documented behaviour as a law,
    the second an alphabet like the two of the source. *)
From stdpp Require Import base list numbers option strings.
From Stdlib Require Import ZArith Lia.
From S2P Require Import Prelude.

(** ** Bit streams *)
Definition digit_ok (k : nat) (v : Z) : Prop := 0 <= v < 2 ^ Z.of_nat k.

(** The bits of a digit, most significant first, and of a list of digits. *)
Definition bits (k : nat) (v : Z) : list bool := (fun i => Z.testbit v (Z.of_nat i)) <$> reverse (seq 0 k).
Definition stream (k : nat) (l : list Z) : list bool := concat (bits k <$> l).

(** Boost's [transform_width<Base, BitsOut, BitsIn>]: the stream of the input
    digits cut into digits of the other width.  Bits for a last incomplete
    digit come from the zeros its base iterator gives after the end. *)
Class TransformWidth := transform_width : nat -> nat -> list Z -> list Z.
Class TransformWidthLaws `{TransformWidth} : Prop := transform_width_law : forall bits_out bits_in l,
  (0 < bits_out)%nat -> (0 < bits_in)%nat -> Forall (digit_ok bits_in) l ->
  Forall (digit_ok bits_out) (transform_width bits_out bits_in l) /\
  exists z, (z < bits_out)%nat /\
    stream bits_out (transform_width bits_out bits_in l) = stream bits_in l ++ replicate z false.

(** ** Alphabets *)
Record BaseN := MkBaseN {
  BitsPerChunk : nat;
  BaseZeroCode : Z;
  from_binary : Z -> result Z;
  to_binary : Z -> result Z }.

Definition BASE_PADDING_CHAR : Z := 61.
(** [ch > 0 && isspace(ch)] *)
Definition space_char (ch : Z) : bool := ((9 <=? ch) && (ch <=? 13)) || (ch =? 32).

(** [lookup_table[t]] after [assert(t < size)], and the table of the decoder. *)
Definition from_table (table : list Z) (t : Z) : result Z := assert_ (t <? zlen table);; zget table t.
Definition to_table (table : list Z) (t : Z) : result Z :=
  let value := if t <? zlen table then default (-1) (table !! Z.to_nat t) else -1 in
  throw_if (value =? -1) BadValue;; Ok value.

Definition from_4_bit : list Z := bytes_of "0123456789ABCDEF".
Definition from_5_bit : list Z := bytes_of "0123456789ABCDEFGHIJKLMNOPQRSTUV".

Definition to_4_bit : list Z :=
  replicate 48 (-1) ++ seqZ 0 10 ++ replicate 6 (-1) ++
  [-1] ++ seqZ 10 6 ++ replicate 9 (-1) ++ replicate 16 (-1) ++
  [-1] ++ seqZ 10 6 ++ replicate 9 (-1).
Definition to_5_bit : list Z :=
  replicate 48 (-1) ++ seqZ 0 10 ++ replicate 6 (-1) ++
  [-1] ++ seqZ 10 15 ++ seqZ 25 7 ++ replicate 9 (-1) ++
  [-1] ++ seqZ 10 15 ++ seqZ 25 7 ++ replicate 9 (-1).

Definition Base16 : BaseN := MkBaseN 4 48 (from_table from_4_bit) (to_table to_4_bit).
Definition Base32Hex : BaseN := MkBaseN 5 48 (from_table from_5_bit) (to_table to_5_bit).

Section Transformer.
Context `{TransformWidth}.
Variable base : BaseN.
Definition chunk : Z := Z.of_nat (BitsPerChunk base).

Definition BITS_PER_GROUP : Z := Z.lcm chunk 8.
Definition MAX_PADDING_CHARS : Z :=
  BITS_PER_GROUP / chunk -
  (8 / chunk + (if 8 mod chunk =? 0 then 0 else 1)).

Definition encode (binary : list Z) : result (list Z) :=
  let bits := zlen binary * 8 in
  let bits := if 0 <? bits mod BITS_PER_GROUP then bits + (BITS_PER_GROUP - bits mod BITS_PER_GROUP) else bits in
  let len := bits / chunk in
  text ← mapM_ (from_binary base) (transform_width (BitsPerChunk base) 8 binary);
  assert_ (zlen text <=? len);;
  Ok (text ++ replicate (Z.to_nat (len - zlen text)) BASE_PADDING_CHAR).

(** The scan for padding from the end: the number of padding characters and
    of characters passed, blanks included. *)
Fixpoint scan_padding (rev_input : list Z) (padchars passed : Z) : result (Z * Z) :=
  match rev_input with
  | [] => Ok (padchars, passed)
  | ch :: s =>
      if ch =? BASE_PADDING_CHAR then
        if MAX_PADDING_CHARS <? padchars + 1 then Throw BadValue
        else scan_padding s (padchars + 1) (passed + 1)
      else if space_char ch then scan_padding s padchars (passed + 1)
      else Ok (padchars, passed)
  end.

(** [DecodeNormalizer] and the table behind it: [pos] is the position of the
    iterator, [first] whether it has not been advanced yet; it enters the
    padding when an advance lands on [beginpad]. *)
Fixpoint normalized (beginpad pos : Z) (first in_pad : bool) (s : list Z) : result (list Z) :=
  match s with
  | [] => Ok []
  | ch :: s =>
      if space_char ch then normalized beginpad (pos + 1) first in_pad s
      else
        let in_pad := in_pad || (negb first && (pos =? beginpad)) in
        v ← if ch =? BASE_PADDING_CHAR then
              if in_pad then to_binary base (BaseZeroCode base) else Throw BadValue
            else to_binary base ch;
        rest ← normalized beginpad (pos + 1) false in_pad s;
        Ok (v :: rest)
  end.

Definition decode (input : list Z) : result (list Z) :=
  '(padchars, passed) ← scan_padding (reverse input) 0 0;
  let padbits := Z.land (padchars * chunk + 7) (Z.lnot 7) in
  throw_if (chunk * (padchars + 1) <? padbits) BadValue;;
  let padbytes := padbits / 8 in
  values ← normalized (zlen input - passed) 0 true false input;
  throw_if (negb ((zlen values * chunk) mod 8 =? 0)) BadValue;;
  let result := transform_width 8 (BitsPerChunk base) values in
  assert_ (padbytes <=? zlen result);;
  (if 0 <? padbytes then
     first ← zget result (zlen result - padbytes); throw_if (negb (first =? 0)) BadValue
   else Ok tt);;
  Ok (resize result (zlen result - padbytes)).

End Transformer.

Definition encodeBase32Hex `{TransformWidth} := encode Base32Hex.
Definition decodeBase32Hex `{TransformWidth} := decode Base32Hex.
Definition encodeHex `{TransformWidth} := encode Base16.
Definition decodeHex `{TransformWidth} := decode Base16.

(** ** Streams determine their digits *)
Lemma length_bits k v : length (bits k v) = k.
Proof. unfold bits. by rewrite length_fmap, length_reverse, length_seq. Qed.

Lemma bits_inj k v v' : digit_ok k v -> digit_ok k v' -> bits k v = bits k v' -> v = v'.
Proof.
  intros Hv Hv' E. apply Z.bits_inj'. intros i Hi. destruct (decide (i < Z.of_nat k)).
  - assert (Z.to_nat i ∈ reverse (seq 0 k)) as Hin by (rewrite elem_of_reverse, elem_of_seq; lia).
    unfold bits in E. apply list_elem_of_lookup in Hin as [j Hj].
    assert (bits k v !! j = bits k v' !! j) as El by (unfold bits; by rewrite E).
    unfold bits in El. rewrite !list_lookup_fmap, Hj in El. injection El as El. by rewrite Z2Nat.id in El by lia.
  - unfold digit_ok in *. by rewrite !(testbit_high _ (Z.of_nat k)) by lia.
Qed.

Lemma stream_cons k v l : stream k (v :: l) = bits k v ++ stream k l.
Proof. done. Qed.

Lemma stream_app k l l' : stream k (l ++ l') = stream k l ++ stream k l'.
Proof. unfold stream. by rewrite fmap_app, concat_app. Qed.

Lemma length_stream k l : length (stream k l) = (k * length l)%nat.
Proof.
  induction l as [|v l IH]; [cbn; lia|]. rewrite stream_cons, length_app, length_bits, IH. cbn. lia.
Qed.

Lemma bits_zero k : bits k 0 = replicate k false.
Proof.
  unfold bits. rewrite (list_fmap_ext _ (fun _ => false)) by (intros; apply Z.bits_0).
  rewrite <- (length_seq k 0) at 2. rewrite <- length_reverse. generalize (reverse (seq 0 k)). intros l.
  induction l as [|x l IH]; cbn; congruence.
Qed.

Lemma stream_zeros k n : stream k (replicate n 0) = replicate (k * n) false.
Proof.
  induction n as [|n IH]; [by rewrite Nat.mul_0_r|]. cbn [replicate]. rewrite stream_cons, bits_zero, IH, <- replicate_add.
  f_equal. lia.
Qed.

Lemma stream_inj k l l' :
  (0 < k)%nat -> Forall (digit_ok k) l -> Forall (digit_ok k) l' -> stream k l = stream k l' -> l = l'.
Proof.
  intros Hk Hl. revert l'. induction Hl as [|v l Hv Hl IH]; intros l' Hl' E.
  - destruct l'; [done|]. apply (f_equal length) in E. rewrite !length_stream in E. cbn in E. lia.
  - destruct Hl' as [|v' l' Hv' Hl']; [apply (f_equal length) in E; rewrite !length_stream in E; cbn in E; lia|].
    rewrite !stream_cons in E. apply app_inj_1 in E as [E1 E2]; [|by rewrite !length_bits].
    f_equal; [by eapply bits_inj|by apply IH].
Qed.

Lemma byte_digit b : byte_ok b <-> digit_ok 8 b.
Proof. done. Qed.

(** ** What makes an alphabet *)
Record alphabet_ok (base : BaseN) : Prop := MkAlphabetOk {
  ab_bits : BitsPerChunk base ∈ [4; 5; 6]%nat;
  ab_zero : to_binary base (BaseZeroCode base) = Ok 0;
  ab_inverse : forall v, digit_ok (BitsPerChunk base) v -> exists c, from_binary base v = Ok c /\
    to_binary base c = Ok v /\ space_char c = false /\ c <> BASE_PADDING_CHAR;
  ab_total : forall c, match to_binary base c with
                       | Ok v => digit_ok (BitsPerChunk base) v | Throw e => e = BadValue | _ => False end }.

Lemma to_table_total k table c :
  Forall (fun v => v = -1 \/ digit_ok k v) table ->
  match to_table table c with Ok v => digit_ok k v | Throw e => e = BadValue | _ => False end.
Proof.
  intros Ht. unfold to_table. destruct (c <? zlen table); [|done].
  destruct (table !! Z.to_nat c) as [v|] eqn:E; cbn [default from_option id]; [|done].
  change (id v) with v. destruct (Z.eqb_spec v (-1)); cbn; [done|]. by destruct (Forall_lookup_1 _ _ _ _ Ht E).
Qed.

(** The inverse law of a table, by evaluation. *)
Lemma from_table_inverse k from to v :
  forallb (fun v => match from_table from v with
    | Ok c => bool_decide (to_table to c = Ok v) && negb (space_char c) && negb (c =? BASE_PADDING_CHAR)
    | _ => false end) (seqZ 0 (2 ^ Z.of_nat k)) = true ->
  digit_ok k v -> exists c, from_table from v = Ok c /\
    to_table to c = Ok v /\ space_char c = false /\ c <> BASE_PADDING_CHAR.
Proof.
  intros H Hv. rewrite forallb_forall in H. specialize (H v). rewrite <- list_elem_of_In in H.
  specialize (H ltac:(unfold digit_ok in Hv; apply elem_of_seqZ; lia)).
  destruct (from_table from v) as [c| | |]; [|done..]. exists c. split; [done|].
  rewrite !andb_true_iff, !negb_true_iff, Z.eqb_neq, bool_decide_eq_true in H. tauto.
Qed.

Lemma to_table_digits k table :
  forallb (fun v => (v =? -1) || (0 <=? v) && (v <? 2 ^ Z.of_nat k)) table = true ->
  Forall (fun v => v = -1 \/ digit_ok k v) table.
Proof.
  intros H. apply Forall_forall. intros v Hv. rewrite forallb_forall in H. specialize (H v).
  rewrite <- list_elem_of_In in H. specialize (H Hv). unfold digit_ok. lia.
Qed.

Lemma Base16_ok : alphabet_ok Base16.
Proof.
  split; [by repeat (left || right)|done| |].
  - intros v. by apply from_table_inverse.
  - intros c. by apply to_table_total, to_table_digits.
Qed.

Lemma Base32Hex_ok : alphabet_ok Base32Hex.
Proof.
  split; [by repeat (left || right)|done| |].
  - intros v. by apply from_table_inverse.
  - intros c. by apply to_table_total, to_table_digits.
Qed.

Lemma round_down x : Z.land x (Z.lnot 7) = 8 * (x / 8).
Proof.
  rewrite <- Z.ldiff_land. change 7 with (Z.ones 3). rewrite Z.ldiff_ones_r by lia.
  rewrite Z.shiftl_mul_pow2, Z.shiftr_div_pow2 by lia. change (2 ^ 3) with 8. lia.
Qed.

Section Facts.
Context `{TransformWidthLaws}.
Variable base : BaseN.
Hypothesis Hbase : alphabet_ok base.

Lemma chunk_cases : chunk base = 4 \/ chunk base = 5 \/ chunk base = 6.
Proof. pose proof (ab_bits _ Hbase) as Hb. unfold chunk. rewrite !elem_of_cons in Hb. destruct Hb as [->|[->|[->|[]%elem_of_nil]]]; lia. Qed.

Lemma chunk_nat : (0 < BitsPerChunk base)%nat.
Proof. pose proof chunk_cases. unfold chunk in *. lia. Qed.

(** *** Padding characters *)
Definition clean (c : Z) : Prop := space_char c = false /\ c <> BASE_PADDING_CHAR.

Lemma scan_clean r p q : Forall clean r -> scan_padding base r p q = Ok (p, q).
Proof.
  intros [|c r' [Hs Hc] _]; [done|]. cbn [scan_padding]. rewrite (proj2 (Z.eqb_neq _ _) Hc), Hs. done.
Qed.

Lemma scan_pads n r p q :
  p + Z.of_nat n <= MAX_PADDING_CHARS base ->
  scan_padding base (replicate n BASE_PADDING_CHAR ++ r) p q = scan_padding base r (p + Z.of_nat n) (q + Z.of_nat n).
Proof.
  revert p q. induction n as [|n IH]; intros p q Hn; cbn [replicate app]; [f_equal; lia|].
  cbn [scan_padding]. rewrite Z.eqb_refl, (proj2 (Z.ltb_ge _ _)), IH by lia. f_equal; lia.
Qed.

Lemma scan_count r p q p' q' :
  scan_padding base r p q = Ok (p', q') ->
  p <= p' <= p + Z.of_nat (length (filter (fun c => c = BASE_PADDING_CHAR) r)).
Proof.
  revert p q. induction r as [|c r IH]; intros p q; cbn [scan_padding]; [intros [= <- <-]; cbn; lia|].
  rewrite filter_cons. destruct (Z.eqb_spec c BASE_PADDING_CHAR) as [->|Hc].
  - rewrite decide_True by done. destruct (_ <? _); [done|]. intros ?%IH. cbn [length]. lia.
  - rewrite decide_False by done. destruct (space_char c); [apply IH|]. intros [= <- <-]. lia.
Qed.

Lemma scan_safe r p q : match scan_padding base r p q with Ok _ => True | Throw e => e = BadValue | _ => False end.
Proof.
  revert p q. induction r as [|c r IH]; intros p q; cbn [scan_padding]; [done|].
  destruct (_ =? _); [destruct (_ <? _)|destruct (space_char c)]; done || apply IH.
Qed.

(** *** The normalizer *)
Lemma normalized_text text values bp pos first s :
  Forall2 (fun c v => clean c /\ to_binary base c = Ok v) text values -> pos + zlen text <= bp ->
  normalized base bp pos first false (text ++ s) =
    (rest ← normalized base bp (pos + zlen text) (first && bool_decide (text = [])) false s; Ok (values ++ rest)).
Proof.
  intros Ht. revert pos first. induction Ht as [|c v text values [[Hs Hc] Hv] _ IH]; intros pos first Hp; cbn [app].
  - rewrite bool_decide_true, andb_true_r, zlen_nil, Z.add_0_r by done. by destruct (normalized _ _ _ _ _ _).
  - rewrite zlen_cons in Hp. cbn [normalized]. rewrite Hs, (proj2 (Z.eqb_neq _ _) Hc).
    assert ((pos =? bp) = false) as -> by zlia. rewrite andb_false_r. cbn [orb]. rewrite Hv, bind_Ok, IH by lia.
    cbn [andb]. rewrite zlen_cons, bool_decide_false, andb_false_r by done.
    replace (pos + 1 + zlen text) with (pos + (1 + zlen text)) by lia.
    by destruct (normalized _ _ _ _ _ _).
Qed.

Lemma normalized_pads bp pos n :
  normalized base bp pos false true (replicate n BASE_PADDING_CHAR) = Ok (replicate n 0).
Proof.
  revert pos. induction n as [|n IH]; intros pos; [done|]. cbn [replicate normalized].
  change (space_char BASE_PADDING_CHAR) with false. rewrite Z.eqb_refl. cbn [orb]. by rewrite (ab_zero _ Hbase), bind_Ok, IH.
Qed.

Lemma normalized_enter bp n :
  normalized base bp bp false false (replicate n BASE_PADDING_CHAR) = Ok (replicate n 0).
Proof.
  destruct n as [|n]; [done|]. cbn [replicate normalized]. change (space_char BASE_PADDING_CHAR) with false.
  rewrite !Z.eqb_refl. cbn [negb andb orb]. by rewrite (ab_zero _ Hbase), bind_Ok, normalized_pads.
Qed.

Lemma normalized_total bp pos first in_pad s :
  match normalized base bp pos first in_pad s with
  | Ok values => Forall (digit_ok (BitsPerChunk base)) values /\
      length values = length (filter (fun c => space_char c = false) s)
  | Throw e => e = BadValue
  | _ => False
  end.
Proof.
  revert pos first in_pad. induction s as [|c s IH]; intros pos first in_pad; cbn [normalized]; [done|].
  rewrite filter_cons. destruct (space_char c) eqn:Es; [rewrite decide_False by done; apply IH|].
  rewrite decide_True by done. cbv zeta. generalize (in_pad || negb first && (pos =? bp)) as ip. intros ip.
  assert (forall c', match to_binary base c' ≫= (fun v => rest ← normalized base bp (pos + 1) false ip s; Ok (v :: rest)) with
    | Ok values => Forall (digit_ok (BitsPerChunk base)) values /\
        length values = S (length (filter (fun c => space_char c = false) s))
    | Throw e => e = BadValue | _ => False end) as Hgo.
  { intros c'. pose proof (ab_total _ Hbase c') as Ht. destruct (to_binary base c') as [v| | |]; [|done..].
    rewrite bind_Ok. specialize (IH (pos + 1) false ip). destruct (normalized _ _ _ _ _ _) as [vs| | |]; [|done..].
    destruct IH as [Hf Hl]. cbn. split; [by constructor|by rewrite Hl]. }
  destruct (_ =? _); [destruct ip; [apply Hgo|done]|apply Hgo].
Qed.

(** Before any padding there is a digit. *)
Lemma normalized_leads bp pos s values :
  normalized base bp pos true false s = Ok values ->
  let pads := length (filter (fun c => c = BASE_PADDING_CHAR) s) in
  (0 < pads -> pads < length values)%nat.
Proof.
  assert (forall s, length (filter (fun c => c = BASE_PADDING_CHAR) s) <=
    length (filter (fun c => space_char c = false) s))%nat as Hle.
  { induction s0 as [|c s0 IH]; [done|]. rewrite !filter_cons. destruct (decide (c = BASE_PADDING_CHAR)) as [->|].
    - rewrite decide_True by done. cbn [length]. lia.
    - destruct (decide _); cbn [length]; lia. }
  cbv zeta. revert pos. induction s as [|c s IH]; intros pos E; [cbn; lia|].
  pose proof (normalized_total bp pos true false (c :: s)) as Ht. rewrite E in Ht. destruct Ht as [_ ->].
  cbn [normalized] in E. rewrite !filter_cons. destruct (space_char c) eqn:Es.
  - rewrite (decide_False (P := true = false)) by done.
    rewrite decide_False by (intros ->; done). pose proof (normalized_total bp (pos + 1) true false s) as Ht.
    rewrite E in Ht. destruct Ht as [_ Hl]. rewrite <- Hl. by eapply IH.
  - rewrite (decide_True (P := false = false)) by done. cbn [length].
    rewrite decide_False; [specialize (Hle s); lia|]. intros ->. rewrite Z.eqb_refl in E. done.
Qed.

(** *** Regrouped digits *)
Lemma transform_length out inn l :
  (0 < out)%nat -> (0 < inn)%nat -> Forall (digit_ok inn) l ->
  exists z, 0 <= z < Z.of_nat out /\
    Z.of_nat out * zlen (transform_width out inn l) = Z.of_nat inn * zlen l + z.
Proof.
  intros Ho Hi Hl. destruct (transform_width_law out inn l Ho Hi Hl) as (_ & z & Hz & E).
  exists (Z.of_nat z). split; [lia|]. apply (f_equal length) in E.
  rewrite length_app, !length_stream, length_replicate in E. unfold zlen. lia.
Qed.

(** Whole digits come out without added bits. *)
Lemma transform_stream out inn l m :
  (0 < out)%nat -> (0 < inn)%nat -> Forall (digit_ok inn) l ->
  Z.of_nat inn * zlen l = Z.of_nat out * m ->
  stream out (transform_width out inn l) = stream inn l /\ zlen (transform_width out inn l) = m.
Proof.
  intros Ho Hi Hl Hm. destruct (transform_width_law out inn l Ho Hi Hl) as (_ & z & Hz & E).
  pose proof (f_equal length E) as El. rewrite length_app, !length_stream, length_replicate in El.
  unfold zlen in *. set (len := length (transform_width out inn l)) in *.
  assert (Z.of_nat z = Z.of_nat out * (Z.of_nat len - m)) as Ez by lia.
  assert (Z.of_nat len - m = 0) as Ed by (destruct (Z.lt_trichotomy (Z.of_nat len - m) 0) as [|[|]]; nia).
  assert (z = 0)%nat as -> by lia. rewrite app_nil_r in E. split; [done|lia].
Qed.

Lemma from_digits values :
  Forall (digit_ok (BitsPerChunk base)) values -> exists text, mapM_ (from_binary base) values = Ok text /\
    Forall2 (fun c v => clean c /\ to_binary base c = Ok v) text values.
Proof.
  induction 1 as [|v values Hv _ (text & IH & Ht)]; [by exists []|].
  destruct (ab_inverse _ Hbase v Hv) as (c & Hc & Hd & Hcl).
  exists (c :: text). cbn. rewrite Hc, IH. split; [done|]. by constructor.
Qed.

Lemma group_cases :
  (chunk base = 4 /\ BITS_PER_GROUP base = 8 /\ MAX_PADDING_CHARS base = 0) \/
  (chunk base = 5 /\ BITS_PER_GROUP base = 40 /\ MAX_PADDING_CHARS base = 6) \/
  (chunk base = 6 /\ BITS_PER_GROUP base = 24 /\ MAX_PADDING_CHARS base = 2).
Proof.
  unfold MAX_PADDING_CHARS, BITS_PER_GROUP.
  destruct chunk_cases as [E|[E|E]]; rewrite E; [left|right; left|right; right]; done.
Qed.

(** The lengths [encode] computes: [c] characters carry [n] bytes, [p] more
    complete the group. *)
Lemma encode_lengths n c z :
  0 <= n -> 0 <= z < chunk base -> chunk base * c = 8 * n + z ->
  let bits := n * 8 in
  let bits := if 0 <? bits mod BITS_PER_GROUP base
              then bits + (BITS_PER_GROUP base - bits mod BITS_PER_GROUP base) else bits in
  let p := bits / chunk base - c in
  0 <= p <= MAX_PADDING_CHARS base /\ (c + p) * chunk base = 8 * (n + (p * chunk base + 7) / 8) /\
  z + p * chunk base = 8 * ((p * chunk base + 7) / 8) /\ (0 < p -> 0 < c).
Proof.
  intros Hn Hz E. cbv zeta. destruct group_cases as [(Ek & -> & ->)|[(Ek & -> & ->)|(Ek & -> & ->)]]; rewrite Ek in *.
  - replace (n * 8 mod 8) with 0 by zdiv. cbn [Z.ltb Z.compare]. replace (n * 8 / 4) with (2 * n) by zdiv. zdiv.
  - assert (exists q r, n = 5 * q + r /\ (r = 0 \/ r = 1 \/ r = 2 \/ r = 3 \/ r = 4)) as (q & r & -> & Hr)
      by (exists (n / 5), (n mod 5); zdiv).
    replace ((5 * q + r) * 8 mod 40) with (8 * r) by zdiv.
    replace (if 0 <? 8 * r then _ else _) with (40 * (q + if r =? 0 then 0 else 1))
      by (destruct (Z.ltb_spec 0 (8 * r)), (Z.eqb_spec r 0); lia).
    destruct Hr as [-> |[-> |[-> |[-> | ->]]]]; cbn [Z.eqb]; zdiv.
  - assert (exists q r, n = 3 * q + r /\ (r = 0 \/ r = 1 \/ r = 2)) as (q & r & -> & Hr)
      by (exists (n / 3), (n mod 3); zdiv).
    replace ((3 * q + r) * 8 mod 24) with (8 * r) by zdiv.
    replace (if 0 <? 8 * r then _ else _) with (24 * (q + if r =? 0 then 0 else 1))
      by (destruct (Z.ltb_spec 0 (8 * r)), (Z.eqb_spec r 0); lia).
    destruct Hr as [-> |[-> | ->]]; cbn [Z.eqb]; zdiv.
Qed.

(** *** Encoding and decoding *)

(** [text] is an encoding of [binary] with [p] padding characters. *)
Lemma encode_shape binary :
  bytes_ok binary -> exists text values p z,
    encode base binary = Ok (text ++ replicate (Z.to_nat p) BASE_PADDING_CHAR) /\
    Forall2 (fun c v => clean c /\ to_binary base c = Ok v) text values /\
    Forall (digit_ok (BitsPerChunk base)) values /\
    stream (BitsPerChunk base) values = stream 8 binary ++ replicate (Z.to_nat z) false /\
    0 <= z < chunk base /\ 0 <= p <= MAX_PADDING_CHARS base /\
    (zlen text + p) * chunk base = 8 * (zlen binary + (p * chunk base + 7) / 8) /\
    z + p * chunk base = 8 * ((p * chunk base + 7) / 8) /\ (0 < p -> 0 < zlen text).
Proof.
  intros Hb. pose proof chunk_nat as Hk.
  destruct (transform_width_law (BitsPerChunk base) 8 binary Hk ltac:(lia) Hb) as (Hv & z & Hz & E).
  destruct (from_digits _ Hv) as (text & Ht & Hf). unfold encode. rewrite Ht, bind_Ok. cbv zeta.
  pose proof (Forall2_length _ _ _ Hf) as Hlen.
  assert (chunk base * zlen text = 8 * zlen binary + Z.of_nat z) as El.
  { apply (f_equal length) in E. rewrite length_app, !length_stream, length_replicate in E. unfold chunk, zlen. lia. }
  destruct (encode_lengths (zlen binary) (zlen text) (Z.of_nat z)) as (Hp & H1 & H2 & H3);
    [apply zlen_nonneg|unfold chunk; lia|done|].
  set (len := (if 0 <? _ then _ else _) / chunk base) in *.
  assert ((zlen text <=? len) = true) as -> by lia. cbn [assert_]. rewrite bind_Ok.
  exists text, (transform_width (BitsPerChunk base) 8 binary), (len - zlen text), (Z.of_nat z).
  split_and!; try done; try lia; [by rewrite Nat2Z.id|unfold chunk; lia].
Qed.

Lemma padbits_round p : Z.land (p * chunk base + 7) (Z.lnot 7) = 8 * ((p * chunk base + 7) / 8).
Proof. apply round_down. Qed.

Lemma resize_prefix l l' : resize (l ++ l') (zlen l) = l.
Proof.
  unfold resize. rewrite to_nat_zlen, take_app_length, length_app.
  replace (length l - (length l + length l'))%nat with 0%nat by lia. apply app_nil_r.
Qed.

Lemma normalized_encoded text values p :
  Forall2 (fun c v => clean c /\ to_binary base c = Ok v) text values ->
  0 <= p -> (0 < p -> 0 < zlen text) ->
  normalized base (zlen text) 0 true false (text ++ replicate (Z.to_nat p) BASE_PADDING_CHAR) =
    Ok (values ++ replicate (Z.to_nat p) 0).
Proof.
  intros Hf Hp Hne. rewrite (normalized_text text values) by (done || lia). rewrite Z.add_0_l.
  destruct (decide (p = 0)) as [->|]; [done|]. destruct text as [|c text]; [change (zlen []) with 0 in Hne; lia|].
  rewrite bool_decide_false, andb_false_r by done. by rewrite normalized_enter, bind_Ok.
Qed.

Lemma decode_encode binary text : bytes_ok binary -> encode base binary = Ok text -> decode base text = Ok binary.
Proof.
  intros Hb He. destruct (encode_shape binary Hb) as (tx & values & p & z & E & Hf & Hv & Hs & Hz & Hp & H1 & H2 & H3).
  rewrite E in He. apply Ok_inj in He. subst text. clear E. pose proof chunk_nat as Hk.
  assert (Forall clean tx) as Hcl.
  { clear -Hf. induction Hf as [|c v tx values [Hc _] _ IH]; by constructor. }
  set (pb := (p * chunk base + 7) / 8) in *.
  assert (0 <= pb) as Hpb by (apply Z.div_pos; unfold chunk; lia).
  assert (zlen (tx ++ replicate (Z.to_nat p) BASE_PADDING_CHAR) = zlen tx + p) as Hlen
    by (rewrite zlen_app; unfold zlen at 2; rewrite length_replicate; lia).
  unfold decode. rewrite reverse_app, reverse_replicate, scan_pads, scan_clean by (lia || by apply Forall_reverse).
  rewrite !Z2Nat.id, bind_Ok, Hlen by lia. rewrite !Z.add_0_l, padbits_round. fold pb.
  replace (zlen tx + p - p) with (zlen tx) by lia.
  assert ((chunk base * (p + 1) <? 8 * pb) = false) as -> by (unfold chunk in *; nia). cbn [throw_if]. rewrite bind_Ok.
  rewrite (Z.mul_comm 8 pb), Z.div_mul by lia. rewrite (normalized_encoded tx values p Hf) by (lia || done). rewrite bind_Ok.
  assert (zlen (values ++ replicate (Z.to_nat p) 0) = zlen tx + p) as Hvl.
  { pose proof (Forall2_length _ _ _ Hf). unfold zlen. rewrite length_app, length_replicate. lia. }
  rewrite Hvl. assert ((zlen tx + p) * chunk base mod 8 = 0) as -> by (rewrite H1, Z.mul_comm; apply Z.mod_mul; lia).
  cbn [Z.eqb negb throw_if]. rewrite bind_Ok.
  assert (Forall (digit_ok (BitsPerChunk base)) (values ++ replicate (Z.to_nat p) 0)) as Hvp.
  { apply Forall_app. split; [done|]. apply Forall_replicate. unfold digit_ok. lia. }
  destruct (transform_stream 8 (BitsPerChunk base) _ (zlen binary + pb) ltac:(lia) Hk Hvp) as [Hst _];
    [rewrite Hvl; unfold chunk in *; lia|].
  assert (transform_width 8 (BitsPerChunk base) (values ++ replicate (Z.to_nat p) 0) = binary ++ replicate (Z.to_nat pb) 0) as ->.
  { destruct (transform_width_law 8 (BitsPerChunk base) _ ltac:(lia) Hk Hvp) as [Hd _].
    apply (stream_inj 8); [lia|exact Hd|apply Forall_app; split; [done|apply Forall_replicate; by unfold digit_ok]|].
    rewrite Hst, !stream_app, !stream_zeros, Hs, <- app_assoc, <- replicate_add. do 2 f_equal. unfold chunk in *. lia. }
  assert (zlen (binary ++ replicate (Z.to_nat pb) 0) = zlen binary + pb) as ->
    by (rewrite zlen_app; unfold zlen at 2; rewrite length_replicate; lia).
  rewrite (proj2 (Z.leb_le _ _)) by zlia. cbn [assert_]. rewrite bind_Ok.
  replace (zlen binary + pb - pb) with (zlen binary) by lia. rewrite resize_prefix.
  destruct (Z.ltb_spec 0 pb); [|done].
  assert (zget (binary ++ replicate (Z.to_nat pb) 0) (zlen binary) = Ok 0) as ->; [|done].
  unfold zget. rewrite decide_True by apply zlen_nonneg. rewrite to_nat_zlen, lookup_app_r by lia.
  rewrite Nat.sub_diag, lookup_replicate_2 by lia. done.
Qed.

Lemma decode_total input :
  match decode base input with Ok binary => bytes_ok binary | Throw e => e = BadValue | _ => False end.
Proof.
  pose proof chunk_nat as Hk. unfold decode. pose proof (scan_safe (reverse input) 0 0) as Hs.
  destruct (scan_padding base (reverse input) 0 0) as [[p q]| | |] eqn:Es; [|done..]. rewrite bind_Ok, padbits_round.
  apply scan_count in Es. rewrite filter_reverse, length_reverse in Es.
  set (pb := (p * chunk base + 7) / 8). destruct (Z.ltb_spec (chunk base * (p + 1)) (8 * pb)) as [|Hpb]; [done|].
  cbn [throw_if]. rewrite bind_Ok, (Z.mul_comm 8 pb), Z.div_mul by lia.
  pose proof (normalized_total (zlen input - q) 0 true false input) as Hn.
  pose proof (normalized_leads (zlen input - q) 0 input) as Hl.
  destruct (normalized base _ 0 true false input) as [values| | |]; [|done..]. destruct Hn as [Hv _].
  specialize (Hl values eq_refl). cbv zeta in Hl. rewrite bind_Ok.
  destruct (negb _); [done|]. cbn [throw_if]. rewrite bind_Ok.
  destruct (transform_width_law 8 (BitsPerChunk base) values ltac:(lia) Hk Hv) as [Hd _].
  destruct (transform_length 8 (BitsPerChunk base) values ltac:(lia) Hk Hv) as (z & Hz & El).
  set (r := transform_width 8 (BitsPerChunk base) values) in *.
  assert (pb <= zlen r) as Hle.
  { destruct (decide (p = 0)) as [->|]; [unfold pb; change ((0 * chunk base + 7) / 8) with 0; apply zlen_nonneg|].
    unfold zlen in *. unfold chunk in *. nia. }
  assert (0 <= pb) as Hpb0 by (apply Z.div_pos; unfold chunk; lia).
  rewrite (proj2 (Z.leb_le _ _)) by done. cbn [assert_]. rewrite bind_Ok.
  assert (bytes_ok (resize r (zlen r - pb))) as Hr.
  { unfold resize. apply bytes_ok_app. split; [by apply bytes_ok_take|]. by apply bytes_ok_replicate. }
  destruct (Z.ltb_spec 0 pb); [|done]. destruct (zget_ok r (zlen r - pb)) as (b & -> & _); [lia|].
  rewrite bind_Ok. by destruct (negb _).
Qed.
End Facts.

(** ** The law can be met

    A direct regrouping: the bits of the input, cut into digits. *)
Definition digit_of (bs : list bool) : Z := foldl (fun v b => 2 * v + Z.b2z b) 0 bs.

Fixpoint cut (fuel : nat) (k : nat) (bs : list bool) : list Z :=
  match fuel, bs with
  | S fuel, _ :: _ => digit_of (take k (bs ++ replicate k false)) :: cut fuel k (drop k bs)
  | _, _ => []
  end.

Definition regroup (bits_out bits_in : nat) (l : list Z) : list Z :=
  cut (length (stream bits_in l)) bits_out (stream bits_in l).

Lemma digit_of_snoc bs b : digit_of (bs ++ [b]) = 2 * digit_of bs + Z.b2z b.
Proof. unfold digit_of. by rewrite foldl_app. Qed.

Lemma digit_of_ok bs : digit_ok (length bs) (digit_of bs).
Proof.
  induction bs as [|b bs IH] using rev_ind; [by unfold digit_ok|].
  rewrite digit_of_snoc, length_app. unfold digit_ok in *. cbn [length].
  rewrite Nat.add_1_r, Nat2Z.inj_succ, Z.pow_succ_r by lia. destruct b; cbn [Z.b2z]; lia.
Qed.

Lemma bits_digit_of bs : bits (length bs) (digit_of bs) = bs.
Proof.
  induction bs as [|b bs IH] using rev_ind; [done|].
  rewrite digit_of_snoc, length_app, Nat.add_1_r. unfold bits. cbn [seq]. rewrite reverse_cons, fmap_app.
  transitivity (bits (length bs) (digit_of bs) ++ [b]); [|by rewrite IH]. f_equal.
  - unfold bits. rewrite <- fmap_S_seq, <- fmap_reverse, <- list_fmap_compose. apply list_fmap_ext. intros _ i _. cbn.
    rewrite Nat2Z.inj_succ, Z.testbit_succ_r by lia. done.
  - cbn. f_equal. destruct b; cbn [Z.b2z]; [apply Z.testbit_odd_0|rewrite Z.add_0_r; apply Z.testbit_even_0].
Qed.

Lemma cut_law fuel k bs :
  (0 < k)%nat -> (length bs <= fuel)%nat ->
  Forall (digit_ok k) (cut fuel k bs) /\ exists z, (z < k)%nat /\ stream k (cut fuel k bs) = bs ++ replicate z false.
Proof.
  intros Hk. revert bs. induction fuel as [|fuel IH]; intros bs Hl.
  { destruct bs; [|cbn in Hl; lia]. split; [constructor|]. exists 0%nat. split; [done|]. by cbn. }
  destruct bs as [|b bs]; [split; [constructor|]; exists 0%nat; by cbn|].
  cbn [cut]. set (l := b :: bs) in *. assert (length (take k (l ++ replicate k false)) = k) as Hd
    by (rewrite length_take, length_app, length_replicate; lia).
  destruct (IH (drop k l)) as (Hf & z & Hz & E); [rewrite length_drop; cbn in *; lia|]. split.
  { constructor; [|done]. pose proof (digit_of_ok (take k (l ++ replicate k false))) as Ho. by rewrite Hd in Ho. }
  pose proof (bits_digit_of (take k (l ++ replicate k false))) as Hb. rewrite Hd in Hb.
  rewrite stream_cons, E, Hb. destruct (decide (k <= length l)%nat).
  - exists z. split; [done|]. rewrite take_app_le by lia. by rewrite app_assoc, take_drop.
  - rewrite drop_ge in * by lia. destruct fuel; [cbn in E|]; destruct z; try done;
      exists (k - length l)%nat; (split; [unfold l; cbn; lia|]); rewrite take_app_ge by lia;
      rewrite take_replicate, app_nil_r; do 2 f_equal; lia.
Qed.

Lemma regroup_law : @TransformWidthLaws regroup.
Proof. intros out inn l Ho _ _. by apply cut_law. Qed.
