(* ===== verification/Text.v ===== *)
(** Text: util/strutil.cpp, the number formats of [std::ostream] the program
    prints with, and [boost::lexical_cast] as an interface. *)
From stdpp Require Import base list numbers option strings.
From Stdlib Require Import ZArith Lia.
From S2P Require Import Prelude Encode HwAddr.

(** ** Numbers *)

(** [os << z] in base 10 or 16: most significant digit first. *)
Fixpoint digits (fuel : nat) (base z : Z) : list Z :=
  match fuel with
  | O => []
  | S fuel => (if z <? base then [] else digits fuel base (z / base)) ++ [Hex.digit (z mod base)]
  end.
Definition unsigned_text (base z : Z) : list Z := digits (S (Z.to_nat (Z.log2 z))) base z.
Definition int_text (z : Z) : list Z :=
  if z <? 0 then 45 :: unsigned_text 10 (- z) else unsigned_text 10 z.

(** [std::setw(n) << std::setfill(c)] *)
Definition setw (n : nat) (c : Z) (t : list Z) : list Z := replicate (n - length t) c ++ t.

Definition decimal (t : list Z) : bool := negb (bool_decide (t = [])) && forallb isdigit t.
Definition decimal_value (t : list Z) : Z := foldl (fun v c => v * 10 + (c - 48)) 0 t.

(** [std::atoi]: blanks, a sign, digits; a value that is no [int] is undefined
    behaviour. *)
Fixpoint digits_prefix (s : list Z) : list Z :=
  match s with c :: s => if isdigit c then c :: digits_prefix s else [] | [] => [] end.
Fixpoint skip_space (s : list Z) : list Z :=
  match s with c :: s' => if space_char c then skip_space s' else s | [] => [] end.
Definition atoi (s : list Z) : result Z :=
  let s := skip_space s in
  let v := match s with
           | 45 :: s => - decimal_value (digits_prefix s)
           | 43 :: s => decimal_value (digits_prefix s)
           | _ => decimal_value (digits_prefix s)
           end in
  if (- 2^31 <=? v) && (v <? 2^31) then Ok v else Crash.

Definition isalpha (c : Z) : bool := ((97 <=? c) && (c <=? 122)) || ((65 <=? c) && (c <=? 90)).

(** [boost::lexical_cast] to an integer type with the given limits; [None] is
    [bad_lexical_cast].  The laws are what its documentation promises on the
    texts the program gives it. *)
Class LexicalCast := lexical_cast : Z -> Z -> list Z -> option Z.
Class LexicalCastLaws `{LexicalCast} : Prop := MkLexicalCastLaws {
  lexical_cast_decimal lo hi t : lo <= 0 -> decimal t = true ->
    lexical_cast lo hi t = if decimal_value t <=? hi then Some (decimal_value t) else None;
  lexical_cast_minus lo hi t : lo < 0 -> decimal t = true ->
    lexical_cast lo hi (45 :: t) = if lo <=? - decimal_value t then Some (- decimal_value t) else None;
  lexical_cast_alpha lo hi t : existsb isalpha t = true -> lexical_cast lo hi t = None }.

(** ** Searching in strings *)
Fixpoint find_from (p : Z -> bool) (i : nat) (s : list Z) : option nat :=
  match s with [] => None | c :: s => if p c then Some i else find_from p (S i) s end.

(** [s.find_first_of] and [find_first_not_of] from a position,
    [s.find_last_not_of]. *)
Definition find_first (p : Z -> bool) (s : list Z) (start : nat) : option nat := find_from p start (drop start s).
Definition find_last (p : Z -> bool) (s : list Z) : option nat :=
  (fun i => length s - 1 - i)%nat <$> find_from p 0 (reverse s).
Definition substr (s : list Z) (i n : nat) : list Z := take n (drop i s).

Module Str.

Definition blank (c : Z) : bool := (c =? 32) || (c =? 9) || (c =? 10).

Definition trim (instring : list Z) : list Z :=
  match find_first (fun c => negb (blank c)) instring 0, find_last (fun c => negb (blank c)) instring with
  | Some first, Some last => substr instring first (last - first + 1)
  | _, _ => []
  end.

Definition in_set (delim : list Z) (c : Z) : bool := bool_decide (c ∈ delim).

(** The loop of [tokens] from [start]. *)
Fixpoint tokens_loop (fuel : nat) (text delim : list Z) (start : option nat) : result (list (list Z)) :=
  match start with
  | None => Ok []
  | Some start =>
      match fuel with
      | O => NoFuel
      | S fuel =>
          match find_first (in_set delim) text start with
          | Some end_ =>
              rest ← tokens_loop fuel text delim (find_first (fun c => negb (in_set delim c)) text end_);
              Ok (substr text start (end_ - start) :: rest)
          | None => Ok [drop start text]
          end
      end
  end.
Definition tokens (text delim : list Z) : result (list (list Z)) :=
  tokens_loop (S (length text)) text delim (find_first (fun c => negb (in_set delim c)) text 0).

(** [std::toupper] and [std::tolower] of the C locale. *)
Definition toUpper (c : Z) : Z := if (97 <=? c) && (c <=? 122) then c - 32 else c.
Definition uppercase (text : list Z) : list Z := toUpper <$> text.
Definition toLower (c : Z) : Z := if (65 <=? c) && (c <=? 90) then c + 32 else c.
Definition lowercase (text : list Z) : list Z := toLower <$> text.

(** [tokenToNum<NumType, BitSize>] for a type with the given limits. *)
Definition tokenToNum `{LexicalCast} (lo hi : Z) (BitSize : Z) (num_token : list Z) : result Z :=
  match lexical_cast lo hi num_token with
  | None => Throw StringTokenError
  | Some num => throw_if ((num <? 0) || (2 ^ BitSize <=? num)) StringTokenError;; Ok num
  end.

Definition QUOTE : Z := 39.
Definition quotedStringToBinary (quoted_string : list Z) : list Z :=
  let trimmed := trim quoted_string in
  if (1 <? zlen trimmed) && bool_decide (head trimmed = Some QUOTE) && bool_decide (last trimmed = Some QUOTE)
  then trim (substr trimmed 1 (length trimmed - 2)) else [].

Definition decodeFormattedHexString `{TransformWidth} (hex_string : list Z) : result (list Z) :=
  if bool_decide (58 ∈ hex_string) then Hex.decodeColonSeparatedHexString hex_string
  else
    let zero := if negb (zlen hex_string mod 2 =? 0) then [48] else [] in
    let s := zero ++ (if (2 <? zlen hex_string) && bool_decide (take 2 hex_string = [48; 120])
                      then drop 2 hex_string else hex_string) in
    match decodeHex s with Throw _ => Throw BadValue | r => r end.

End Str.

(** ** Facts *)

(** *** Numbers *)
Lemma digits_value fuel z :
  0 <= z < 2 ^ Z.of_nat fuel -> (0 < fuel)%nat -> decimal_value (digits fuel 10 z) = z.
Proof.
  revert z. induction fuel as [|fuel IH]; intros z Hz Hf; [lia|].
  rewrite Nat2Z.inj_succ, Z.pow_succ_r in Hz by lia. cbn [digits]. unfold decimal_value. rewrite foldl_app. cbn [foldl].
  assert (Hex.digit (z mod 10) = 48 + z mod 10) as ->.
  { unfold Hex.digit. by rewrite (proj2 (Z.ltb_lt _ _)) by (apply Z.mod_pos_bound; lia). }
  destruct (Z.ltb_spec z 10); cbn [foldl]; [zdiv|].
  change (foldl _ 0 (digits fuel 10 (z / 10))) with (decimal_value (digits fuel 10 (z / 10))).
  destruct fuel as [|fuel']; [cbn in Hz; lia|]. rewrite IH by zdiv. zdiv.
Qed.

Lemma digits_decimal fuel z : 0 <= z -> (0 < fuel)%nat -> decimal (digits fuel 10 z) = true.
Proof.
  intros Hz. assert (forall f z, 0 <= z -> forallb isdigit (digits f 10 z) = true) as Hd.
  { clear. induction f as [|f IH]; intros z Hz; cbn [digits]; [done|]. rewrite forallb_app. cbn [forallb].
    assert (isdigit (Hex.digit (z mod 10)) = true) as ->.
    { unfold Hex.digit, isdigit. pose proof (Z.mod_pos_bound z 10 ltac:(lia)).
      rewrite (proj2 (Z.ltb_lt _ _)) by lia. lia. }
    rewrite andb_true_r. destruct (z <? 10); [done|]. apply IH. zdiv. }
  intros Hf. unfold decimal. rewrite Hd, andb_true_r by done. destruct fuel; [lia|]. cbn [digits].
  apply negb_true_iff, bool_decide_eq_false. by intros [_ ?]%app_eq_nil.
Qed.

Lemma unsigned_text_fuel z : 0 <= z -> z < 2 ^ Z.of_nat (S (Z.to_nat (Z.log2 z))).
Proof.
  intros. rewrite Nat2Z.inj_succ, Z2Nat.id by apply Z.log2_nonneg.
  destruct (decide (z = 0)) as [->|]; [done|]. apply Z.log2_spec. lia.
Qed.

(** The text of a number reads back. *)
Lemma unsigned_text_value z : 0 <= z -> decimal_value (unsigned_text 10 z) = z.
Proof. intros. apply digits_value; [split; [done|by apply unsigned_text_fuel]|lia]. Qed.

Lemma unsigned_text_decimal z : 0 <= z -> decimal (unsigned_text 10 z) = true.
Proof. intros. apply digits_decimal; [done|lia]. Qed.

Lemma digits_prefix_all t : forallb isdigit t = true -> digits_prefix t = t.
Proof. induction t as [|c t IH]; [done|]. cbn. intros [-> H]%andb_prop. by rewrite IH. Qed.

Lemma digits_prefix_digits s : forallb isdigit (digits_prefix s) = true.
Proof. induction s as [|c s IH]; [done|]. cbn. destruct (isdigit c) eqn:E; [|done]. cbn. by rewrite E. Qed.

Lemma digits_prefix_length s : (length (digits_prefix s) <= length s)%nat.
Proof. induction s as [|c s IH]; [done|]. cbn. destruct (isdigit c); cbn; lia. Qed.

Lemma decimal_value_snoc t c : decimal_value (t ++ [c]) = decimal_value t * 10 + (c - 48).
Proof. unfold decimal_value. by rewrite foldl_app. Qed.

Lemma decimal_value_bound t : forallb isdigit t = true -> 0 <= decimal_value t < 10 ^ zlen t.
Proof.
  induction t as [|c t IH] using rev_ind; [done|]. rewrite forallb_app. intros [Ht Hc]%andb_prop. cbn in Hc.
  rewrite decimal_value_snoc, zlen_app. change (zlen [c]) with 1. rewrite Z.pow_add_r by zlia.
  unfold isdigit in Hc. specialize (IH Ht). assert (48 <= c <= 57) by lia. lia.
Qed.

Lemma decimal_value_prefix s : 0 <= decimal_value (digits_prefix s) < 10 ^ zlen (digits_prefix s).
Proof. apply decimal_value_bound, digits_prefix_digits. Qed.

(** [std::atoi] on digits, with or without a minus. *)
Lemma atoi_digits s : digits_prefix s <> [] -> decimal_value (digits_prefix s) < 2^31 ->
  atoi s = Ok (decimal_value (digits_prefix s)).
Proof.
  intros Hs Hv. pose proof (decimal_value_prefix s) as [H0 _]. unfold atoi. destruct s as [|c s]; [done|].
  destruct (isdigit c) eqn:Hc; [|by cbn in Hs; rewrite Hc in Hs].
  assert (skip_space (c :: s) = c :: s) as ->.
  { cbn. unfold space_char, isdigit in *. by rewrite (proj2 (Z.leb_gt c 13)), (proj2 (Z.eqb_neq c 32)), andb_false_r by lia. }
  assert (forall A (a b d : A), match c with 45 => a | 43 => b | _ => d end = d) as Hm.
  { intros. unfold isdigit in Hc. assert (c <> 45 /\ c <> 43) as [? ?] by lia. repeat (case_match; try done). }
  rewrite Hm. rewrite (proj2 (Z.leb_le _ _)), (proj2 (Z.ltb_lt _ _)) by lia. done.
Qed.
Lemma atoi_minus s : decimal_value (digits_prefix s) < 2^31 -> atoi (45 :: s) = Ok (- decimal_value (digits_prefix s)).
Proof.
  intros Hv. pose proof (decimal_value_prefix s) as [H0 _]. unfold atoi. cbn [skip_space].
  change (space_char 45) with false. cbv beta iota. by rewrite (proj2 (Z.leb_le _ _)), (proj2 (Z.ltb_lt _ _)) by lia.
Qed.

(** The first digit of a positive number is not a zero. *)
Lemma digits_head fuel z : 0 < z < 2 ^ Z.of_nat fuel -> exists c t, digits fuel 10 z = c :: t /\ c <> 48.
Proof.
  revert z. induction fuel as [|fuel IH]; intros z Hz; [cbn in Hz; lia|]. cbn [digits]. destruct (Z.ltb_spec z 10).
  - eexists _, []. split; [done|]. rewrite Z.mod_small by lia. unfold Hex.digit. destruct (Z.ltb_spec z 10); lia.
  - destruct (IH (z / 10)) as (c & t & -> & Hc); [|by exists c, (t ++ [Hex.digit (z mod 10)])].
    rewrite Nat2Z.inj_succ, Z.pow_succ_r in Hz by lia. split; [zdiv|]. apply Z.div_lt_upper_bound; lia.
Qed.
Lemma unsigned_text_head z : 0 < z -> exists c t, unsigned_text 10 z = c :: t /\ c <> 48.
Proof. intros Hz. apply digits_head. split; [done|]. apply unsigned_text_fuel. lia. Qed.

Lemma lexical_cast_text `{LexicalCastLaws} lo hi z :
  lo <= 0 <= hi -> lo <= z <= hi -> lexical_cast lo hi (int_text z) = Some z.
Proof.
  intros Hr Hz. unfold int_text. destruct (Z.ltb_spec z 0).
  - rewrite lexical_cast_minus by (lia || (apply unsigned_text_decimal; lia)).
    rewrite unsigned_text_value, (proj2 (Z.leb_le _ _)) by lia. f_equal. lia.
  - rewrite lexical_cast_decimal by (lia || by apply unsigned_text_decimal).
    by rewrite unsigned_text_value, (proj2 (Z.leb_le _ _)) by lia.
Qed.

(** *** Searching *)
Lemma find_from_skip p i l s :
  forallb (fun c => negb (p c)) l = true -> find_from p i (l ++ s) = find_from p (i + length l) s.
Proof.
  revert i. induction l as [|c l IH]; intros i; cbn [forallb app find_from length]; [by rewrite Nat.add_0_r|].
  rewrite andb_true_iff, negb_true_iff. intros [-> Hl]. rewrite IH by done. f_equal. lia.
Qed.

Lemma find_from_none p i l : forallb (fun c => negb (p c)) l = true -> find_from p i l = None.
Proof. intros H. rewrite <- (app_nil_r l). by rewrite find_from_skip. Qed.

(** A string is a prefix without a match and a rest that starts with one. *)
Lemma split_first (p : Z -> bool) s : exists l r, s = l ++ r /\ forallb (fun c => negb (p c)) l = true /\
  (r = [] \/ exists c r', r = c :: r' /\ p c = true).
Proof.
  induction s as [|c s (l & r & -> & Hl & Hr)]; [exists [], []; auto|].
  destruct (p c) eqn:E; [exists [], (c :: l ++ r); split_and!; [done..|right; by exists c, (l ++ r)]|].
  exists (c :: l), r. split_and!; [done| |done]. cbn [forallb]. by rewrite E, Hl.
Qed.

Lemma split_last (p : Z -> bool) s : exists l r, s = l ++ r /\ forallb (fun c => negb (p c)) r = true /\
  (l = [] \/ exists l' c, l = l' ++ [c] /\ p c = true).
Proof.
  destruct (split_first p (reverse s)) as (l & r & E & Hl & Hr).
  exists (reverse r), (reverse l). rewrite <- reverse_app, <- E, reverse_involutive. split_and!; [done| |].
  - rewrite forallb_forall in *. intros x Hx. apply Hl. rewrite <- list_elem_of_In in *. by apply elem_of_reverse.
  - destruct Hr as [->|(c & r' & -> & Hc)]; [by left|]. right. exists (reverse r'), c. by rewrite reverse_cons.
Qed.

(** *** [trim] *)
Definition blanks (s : list Z) : bool := forallb (fun c => negb (negb (Str.blank c))) s.

Lemma find_last_skip p l c r :
  p c = true -> forallb (fun c => negb (p c)) r = true -> find_last p ((l ++ [c]) ++ r) = Some (length l).
Proof.
  intros Hc Hr. unfold find_last. rewrite reverse_app, reverse_snoc, find_from_skip.
  - cbn [find_from]. rewrite Hc. cbn. f_equal. rewrite !length_app, length_reverse. cbn. lia.
  - rewrite forallb_forall in *. intros x Hx. apply Hr. rewrite <- list_elem_of_In in *. by apply elem_of_reverse.
Qed.

(** The text between the blanks, and nothing of a blank text. *)
Lemma trim_middle l m r :
  blanks l = true -> blanks r = true ->
  (exists c m', m = c :: m' /\ Str.blank c = false) -> (exists m' c, m = m' ++ [c] /\ Str.blank c = false) ->
  Str.trim (l ++ m ++ r) = m.
Proof.
  intros Hl Hr (c & m1 & E1 & Hc) (m2 & d & E2 & Hd). unfold Str.trim, find_first. rewrite drop_0, find_from_skip by done.
  rewrite Nat.add_0_l. assert (find_from (fun c => negb (Str.blank c)) (length l) (m ++ r) = Some (length l)) as ->
    by (rewrite E1; cbn [app find_from]; by rewrite Hc).
  assert (find_last (fun c => negb (Str.blank c)) (l ++ m ++ r) = Some (length (l ++ m2))) as ->.
  { rewrite E2. replace (l ++ (m2 ++ [d]) ++ r) with (((l ++ m2) ++ [d]) ++ r) by (by rewrite <- !app_assoc).
    apply find_last_skip; [by rewrite Hd|done]. }
  unfold substr. rewrite drop_app_length, length_app. replace (length l + length m2 - length l + 1)%nat with (length m)
    by (rewrite E2, length_app; cbn; lia). apply take_app_length.
Qed.

Lemma trim_blank s : blanks s = true -> Str.trim s = [].
Proof. intros H. unfold Str.trim, find_first. by rewrite drop_0, find_from_none. Qed.

(** *** [tokens] is the split at delimiters without the empty fields *)
Fixpoint fields (delim cur s : list Z) : list (list Z) :=
  match s with
  | [] => [cur]
  | c :: s => if Str.in_set delim c then cur :: fields delim [] s else fields delim (cur ++ [c]) s
  end.

Definition words (delim s : list Z) : list (list Z) := filter (fun w => w <> []) (fields delim [] s).

Lemma fields_word delim cur w s :
  forallb (fun c => negb (Str.in_set delim c)) w = true -> fields delim cur (w ++ s) = fields delim (cur ++ w) s.
Proof.
  revert cur. induction w as [|c w IH]; intros cur; cbn [forallb app fields]; [by rewrite app_nil_r|].
  rewrite andb_true_iff, negb_true_iff. intros [-> Hw]. rewrite IH by done. by rewrite <- app_assoc.
Qed.

Lemma words_delims delim d s :
  forallb (fun c => negb (negb (Str.in_set delim c))) d = true -> words delim (d ++ s) = words delim s.
Proof.
  unfold words. induction d as [|c d IH]; cbn [forallb app fields]; [done|].
  rewrite andb_true_iff, !negb_true_iff, negb_false_iff. intros [-> Hd].
  rewrite filter_cons_False by (intros []; done). by apply IH.
Qed.

Lemma words_word delim w s :
  w <> [] -> forallb (fun c => negb (Str.in_set delim c)) w = true ->
  s = [] \/ (exists c s', s = c :: s' /\ Str.in_set delim c = true) -> words delim (w ++ s) = w :: words delim s.
Proof.
  intros Hne Hw Hs. unfold words. rewrite fields_word by done. cbn [app].
  destruct Hs as [->|(c & s' & -> & Hc)]; cbn [fields].
  - rewrite filter_cons_True by done. rewrite filter_cons_False by (intros []; done). done.
  - rewrite Hc. rewrite filter_cons_True by done. by rewrite (filter_cons_False _ []) by (intros []; done).
Qed.

Lemma tokens_loop_words fuel pre suf delim :
  (length suf < fuel)%nat ->
  Str.tokens_loop fuel (pre ++ suf) delim (find_from (fun c => negb (Str.in_set delim c)) (length pre) suf) =
    Ok (words delim suf).
Proof.
  revert pre suf. induction fuel as [|fuel IH]; intros pre suf Hl; [lia|].
  destruct (split_first (fun c => negb (Str.in_set delim c)) suf) as (d & r & -> & Hd & Hr).
  rewrite find_from_skip, words_delims by done. destruct Hr as [->|(c & r' & -> & Hc)]; [done|].
  cbn [find_from]. rewrite Hc. set (start := (length pre + length d)%nat).
  destruct (split_first (Str.in_set delim) (c :: r')) as (w & s & E & Hw & Hs). rewrite E.
  assert (w <> []) as Hne.
  { intros ->. cbn [app] in E. subst s. destruct Hs as [|(c' & s' & [= <- <-] & Hc')]; [done|]. by rewrite Hc' in Hc. }
  assert (pre ++ d ++ w ++ s = (pre ++ d) ++ w ++ s) as Ea by (by rewrite <- app_assoc).
  rewrite words_word by done. cbn [Str.tokens_loop]. unfold find_first. rewrite Ea.
  assert (start = length (pre ++ d)) as Est by (unfold start; by rewrite length_app). rewrite Est, drop_app_length, find_from_skip by done.
  destruct Hs as [->|(c' & s' & -> & Hc')]; [cbn [find_from]; by rewrite app_nil_r|]. cbn [find_from]. rewrite Hc'.
  rewrite <- length_app, (app_assoc (pre ++ d)), drop_app_length, IH.
  - rewrite bind_Ok. do 2 f_equal. unfold substr. rewrite <- (app_assoc (pre ++ d) w), drop_app_length.
    replace (length ((pre ++ d) ++ w) - length (pre ++ d))%nat with (length w) by (rewrite (length_app (pre ++ d)); lia).
    apply take_app_length.
  - rewrite E, !length_app in Hl. destruct w; [done|]. cbn in *. lia.
Qed.

Lemma tokens_words text delim : Str.tokens text delim = Ok (words delim text).
Proof. unfold Str.tokens, find_first. rewrite drop_0. by apply (tokens_loop_words _ []); lia. Qed.

(** ** The laws of [lexical_cast] can be met *)
Definition parse_integer (lo hi : Z) (t : list Z) : option Z :=
  match t with
  | c :: t' =>
      if (c =? 45) && (lo <? 0) then
        if decimal t' && (lo <=? - decimal_value t') then Some (- decimal_value t') else None
      else if decimal t && (decimal_value t <=? hi) then Some (decimal_value t) else None
  | [] => None
  end.

Lemma decimal_no_alpha t : existsb isalpha t = true -> decimal t = false.
Proof.
  intros (c & Hin & Hc)%existsb_exists. unfold decimal. apply andb_false_iff. right.
  apply not_true_is_false. intros H. rewrite forallb_forall in H. specialize (H c Hin).
  unfold isalpha, isdigit in *. lia.
Qed.

Lemma parse_integer_laws : @LexicalCastLaws parse_integer.
Proof.
  split; unfold lexical_cast, parse_integer.
  - intros lo hi [|c t] Hlo Hd; [done|]. assert ((c =? 45) = false) as ->.
    { unfold decimal in Hd. cbn [forallb] in Hd. unfold isdigit in Hd. lia. }
    cbn [andb]. by rewrite Hd.
  - intros lo hi t Hlo Hd. rewrite Z.eqb_refl, (proj2 (Z.ltb_lt _ _)) by lia. cbn [andb]. by rewrite Hd.
  - intros lo hi [|c t] Hd; [done|]. rewrite (decimal_no_alpha _ Hd). cbn [andb].
    destruct (Z.eqb_spec c 45) as [->|]; cbn [andb]; [|done].
    destruct (lo <? 0); [|done]. by rewrite (decimal_no_alpha t).
Qed.
