(* ===== verification/Json.v ===== *)
(** JSON values, their printer and their parser: util/json11.cpp.

    A text is a list of bytes, [str[i]] at [i = str.size()] is the terminating
    NUL and a read behind it is undefined ([Crash]).  The parser threads its
    position, its failure flag and its message, as [JsonParser] does. *)
From stdpp Require Import base list numbers option strings.
From Stdlib Require Import ZArith Lia SpecFloat.
From S2P Require Import Prelude Encode HwAddr Text.

(** ** [double]

    IEEE 754 binary64 as [spec_float] of the Standard Library. *)
Module Double.

Definition prec : Z := 53.
Definition emax : Z := 1024.

(** The conversion of an integer, rounded to nearest even. *)
Definition of_int (z : Z) : spec_float := binary_normalize prec emax z 0 false.

(** The [double] nearest to [m * 10^e10]. *)
Definition of_decimal (neg : bool) (m e10 : Z) : spec_float :=
  match m with
  | Zpos p =>
      if 0 <=? e10 then binary_round prec emax neg (Z.to_pos (Zpos p * 10 ^ e10)) 0
      else let '(q, e, l) := SFdiv_core_binary prec emax (Zpos p) 0 (10 ^ (- e10)) 0 in
           binary_round_aux prec emax neg q e l
  | _ => S754_zero neg
  end.

(** [std::strtod] on a text that starts with a minus or a digit. *)
Definition exponent (s : list Z) : Z :=
  match s with
  | 101 :: s | 69 :: s =>
      match s with
      | 45 :: s => - decimal_value (digits_prefix s)
      | 43 :: s => decimal_value (digits_prefix s)
      | _ => decimal_value (digits_prefix s)
      end
  | _ => 0
  end.
Definition strtod (s : list Z) : spec_float :=
  let '(neg, s) := match s with 45 :: s => (true, s) | _ => (false, s) end in
  let ip := digits_prefix s in
  let s := drop (length ip) s in
  let fp := match s with 46 :: s => digits_prefix s | _ => [] end in
  let s := match s with 46 :: s => drop (length fp) s | _ => s end in
  of_decimal neg (decimal_value (ip ++ fp)) (exponent s - zlen fp).

(** [static_cast<int64_t>]: towards zero; undefined if the value does not
    fit. *)
Definition to_int64 (x : spec_float) : result Z :=
  match x with
  | S754_zero _ => Ok 0
  | S754_finite s m e =>
      let a := if 0 <=? e then Zpos m * 2 ^ e else Zpos m / 2 ^ (- e) in
      let v := if s then - a else a in
      if (- 2 ^ 63 <=? v) && (v <? 2 ^ 63) then Ok v else Crash
  | S754_infinity _ | S754_nan => Crash
  end.

Definition isfinite (x : spec_float) : bool :=
  match x with S754_zero _ | S754_finite _ _ _ => true | _ => false end.

(** [%.17g]: the decimal exponent of a positive fraction, its 17 significant
    digits rounded to nearest even, and the two notations without trailing
    zeros. *)
Definition decimal_exponent (num den : Z) : Z :=
  let k := zlen (unsigned_text 10 num) - zlen (unsigned_text 10 den) in
  if num * 10 ^ Z.max 0 (- k) <? den * 10 ^ Z.max 0 k then k - 1 else k.
Definition round_div (a b : Z) : Z :=
  let q := a / b in
  match 2 * (a mod b) ?= b with Lt => q | Gt => q + 1 | Eq => q + q mod 2 end.
Fixpoint strip_zeros (t : list Z) : list Z :=
  match t with
  | [] => []
  | c :: t => match strip_zeros t with [] => if c =? 48 then [] else [c] | t => c :: t end
  end.
Definition fraction (t : list Z) : list Z := match strip_zeros t with [] => [] | t => 46 :: t end.
Definition exponent_text (x : Z) : list Z :=
  101 :: (if x <? 0 then 45 else 43) :: setw 2 48 (unsigned_text 10 (Z.abs x)).
Definition format_17g_abs (num den : Z) : list Z :=
  let x := decimal_exponent num den in
  let q := round_div (num * 10 ^ Z.max 0 (16 - x)) (den * 10 ^ Z.max 0 (x - 16)) in
  let '(x, q) := if q =? 10 ^ 17 then (x + 1, 10 ^ 16) else (x, q) in
  let ds := unsigned_text 10 q in
  if (-4 <=? x) && (x <? 17) then
    if 0 <=? x then take (Z.to_nat (x + 1)) ds ++ fraction (drop (Z.to_nat (x + 1)) ds)
    else 48 :: fraction (replicate (Z.to_nat (- x - 1)) 48 ++ ds)
  else take 1 ds ++ fraction (drop 1 ds) ++ exponent_text x.
Definition minus (s : bool) : list Z := if s then [45] else [].
Definition format_17g (x : spec_float) : list Z :=
  match x with
  | S754_zero s => minus s ++ [48]
  | S754_finite s m e =>
      minus s ++ (if 0 <=? e then format_17g_abs (Zpos m * 2 ^ e) 1 else format_17g_abs (Zpos m) (2 ^ (- e)))
  | S754_infinity s => minus s ++ bytes_of "inf"
  | S754_nan => bytes_of "nan"
  end.
End Double.

(** ** Values *)
Inductive number : Set :=
| NInt (v : Z)                  (** [JsonInt] *)
| NDouble (v : spec_float).     (** [JsonDouble] *)

Inductive Json : Set :=
| JNull
| JNumber (n : number)
| JBool (b : bool)
| JString (s : list Z)
| JArray (items : list Json)
| JObject (entries : list (list Z * Json)).   (** in the order of the keys *)

(** The induction principle that reaches the elements. *)
Section JsonInd.
Variable P : Json -> Prop.
Hypothesis Hnull : P JNull.
Hypothesis Hnumber : forall n, P (JNumber n).
Hypothesis Hbool : forall b, P (JBool b).
Hypothesis Hstring : forall s, P (JString s).
Hypothesis Harray : forall l, Forall P l -> P (JArray l).
Hypothesis Hobject : forall m, Forall (fun e => P e.2) m -> P (JObject m).

Fixpoint Json_nested_ind (j : Json) : P j :=
  match j with
  | JNull => Hnull
  | JNumber n => Hnumber n
  | JBool b => Hbool b
  | JString s => Hstring s
  | JArray l => Harray l ((fix go l : Forall P l :=
      match l with [] => Forall_nil_2 _ | j :: l => Forall_cons_2 _ _ _ (Json_nested_ind j) (go l) end) l)
  | JObject m => Hobject m ((fix go m : Forall (fun e => P e.2) m :=
      match m with [] => Forall_nil_2 _ | (k, j) :: m => Forall_cons_2 _ (k, j) _ (Json_nested_ind j) (go m) end) m)
  end.
End JsonInd.

(** [std::string::operator<]: bytes compare as unsigned. *)
Fixpoint string_lt (a b : list Z) : bool :=
  match a, b with
  | _, [] => false
  | [], _ => true
  | x :: a, y :: b => if x <? y then true else if y <? x then false else string_lt a b
  end.

Module JsonValue.

Definition type (j : Json) : Z :=
  match j with
  | JNull => 0 | JNumber _ => 1 | JBool _ => 2 | JString _ => 3 | JArray _ => 4 | JObject _ => 5
  end.

(** [operator[]] of a [std::map]: an entry of the key is replaced, else one is
    inserted at its place. *)
Fixpoint map_insert {A} (key : list Z) (v : A) (entries : list (list Z * A)) : list (list Z * A) :=
  match entries with
  | [] => [(key, v)]
  | (k, w) :: rest =>
      if string_lt key k then (key, v) :: entries
      else if string_lt k key then (k, w) :: map_insert key v rest
      else (k, v) :: rest
  end.
Fixpoint map_find (key : list Z) (entries : list (list Z * Json)) : option Json :=
  match entries with
  | [] => None
  | (k, v) :: entries => if bool_decide (k = key) then Some v else map_find key entries
  end.

(** [operator[](key)] and [operator[](i)] *)
Definition at_key (key : list Z) (j : Json) : Json :=
  match j with JObject m => default JNull (map_find key m) | _ => JNull end.
Definition at_index (i : nat) (j : Json) : Json := match j with JArray l => default JNull (l !! i) | _ => JNull end.
Definition is_null (j : Json) : bool := match j with JNull => true | _ => false end.
Definition number_int (n : number) : result Z := match n with NInt v => Ok v | NDouble d => Double.to_int64 d end.
Definition number_double (n : number) : spec_float := match n with NInt v => Double.of_int v | NDouble d => d end.
Definition int_value (j : Json) : result Z := match j with JNumber n => number_int n | _ => Ok 0 end.
Definition number_value (j : Json) : spec_float := match j with JNumber n => number_double n | _ => S754_zero false end.
Definition bool_value (j : Json) : bool := match j with JBool b => b | _ => false end.
Definition string_value (j : Json) : list Z := match j with JString s => s | _ => [] end.
Definition array_items (j : Json) : list Json := match j with JArray l => l | _ => [] end.
Definition object_items (j : Json) : list (list Z * Json) := match j with JObject m => m | _ => [] end.

(** [operator==] *)
Fixpoint equal (a b : Json) {struct a} : bool :=
  match a, b with
  | JNull, JNull => true
  | JNumber n, JNumber k => SFeqb (number_double n) (number_double k)
  | JBool b, JBool c => Bool.eqb b c
  | JString s, JString t => bool_decide (s = t)
  | JArray l, JArray k =>
      (fix all2 l k := match l, k with
        | [], [] => true
        | a :: l, b :: k => equal a b && all2 l k
        | _, _ => false
        end) l k
  | JObject m, JObject o =>
      (fix all2 m o := match m, o with
        | [], [] => true
        | (k1, a) :: m, (k2, b) :: o => bool_decide (k1 = k2) && equal a b && all2 m o
        | _, _ => false
        end) m o
  | _, _ => false
  end.
End JsonValue.

(** ** Printing *)
Module Dump.

Definition dump_int (value : Z) : list Z := int_text value.
Definition dump_double (value : spec_float) : list Z :=
  if Double.isfinite value then Double.format_17g value else bytes_of "null".
Definition dump_bool (value : bool) : list Z := if value then bytes_of "true" else bytes_of "false".

(** [%04x] *)
Definition hex4 (v : Z) : list Z := setw 4 48 (unsigned_text 16 v).

(** What one character is printed as. *)
Definition dump_char (ch : Z) : list Z :=
  if ch =? 92 then [92; 92]
  else if ch =? 34 then [92; 34]
  else if ch =? 8 then [92; 98]
  else if ch =? 12 then [92; 102]
  else if ch =? 10 then [92; 110]
  else if ch =? 13 then [92; 114]
  else if ch =? 9 then [92; 116]
  else if ch <=? 31 then 92 :: 117 :: hex4 ch
  else [ch].

(** The loop over the characters; the line separators U+2028 and U+2029 are
    three bytes of the text. *)
Fixpoint dump_chars (value : list Z) : list Z :=
  match value with
  | [] => []
  | 226 :: 128 :: 168 :: value => bytes_of "\u2028" ++ dump_chars value
  | 226 :: 128 :: 169 :: value => bytes_of "\u2029" ++ dump_chars value
  | ch :: value => dump_char ch ++ dump_chars value
  end.
Definition dump_string (value : list Z) : list Z := 34 :: dump_chars value ++ [34].

Fixpoint comma_separated (first : bool) (l : list (list Z)) : list Z :=
  match l with
  | [] => []
  | x :: l => (if first then [] else [44; 32]) ++ x ++ comma_separated false l
  end.
Definition dump_entry (k v : list Z) : list Z := dump_string k ++ [58; 32] ++ v.

Fixpoint dump (j : Json) : list Z :=
  match j with
  | JNull => bytes_of "null"
  | JNumber (NInt v) => dump_int v
  | JNumber (NDouble v) => dump_double v
  | JBool b => dump_bool b
  | JString s => dump_string s
  | JArray values => [91] ++ comma_separated true (dump <$> values) ++ [93]
  | JObject values => [123] ++ comma_separated true ((fun kv => dump_entry kv.1 (dump kv.2)) <$> values) ++ [125]
  end.
End Dump.

(** [has_shape]: the expected types of some keys. *)
Definition has_shape (j : Json) (types : list (list Z * Z)) : bool * list Z :=
  match j with
  | JObject _ =>
      match filter (fun item => JsonValue.type (JsonValue.at_key item.1 j) <> item.2) types with
      | [] => (true, [])
      | item :: _ => (false, bytes_of "bad type for " ++ item.1 ++ bytes_of " in " ++ Dump.dump j)
      end
  | _ => (false, bytes_of "expected JSON object, got " ++ Dump.dump j)
  end.

(** ** Parsing *)
Inductive JsonParse : Set := STANDARD | COMMENTS.

Module Parser.

Record JsonParser := MkJsonParser { i : nat; err : list Z; failed : bool }.

(** A member function: it returns a value and the parser, or does not. *)
Definition M (A : Type) : Type := JsonParser -> result (A * JsonParser).
#[global] Instance M_ret : MRet M := fun A a p => Ok (a, p).
#[global] Instance M_bind : MBind M := fun A B k m p => '(a, p) ← m p; k a p.

Definition max_depth : Z := 200.

(** [esc]: [%d] of a [char]. *)
Definition esc (c : Z) : list Z :=
  if (32 <=? c) && (c <=? 127) then [39; c; 39; 32; 40] ++ int_text (s8 c) ++ [41]
  else [40] ++ int_text (s8 c) ++ [41].
Definition in_range (x lower upper : Z) : bool := (lower <=? x) && (x <=? upper).

(** [fail(msg, err_ret)] keeps the first message. *)
Definition fail {A} (msg : list Z) (err_ret : A) : M A := fun p =>
  Ok (err_ret, MkJsonParser (i p) (if failed p then err p else msg) true).
Definition has_failed : M bool := fun p => Ok (failed p, p).
Definition advance (n : nat) : M unit := fun p => Ok (tt, MkJsonParser (i p + n) (err p) (failed p)).
Definition retreat : M unit := fun p => match i p with O => Crash | S n => Ok (tt, MkJsonParser n (err p) (failed p)) end.
Definition position : M nat := fun p => Ok (i p, p).
Definition lift {A} (r : result A) : M A := fun p => a ← r; Ok (a, p).
Definition nofuel {A} : M A := fun _ => NoFuel.

Section Parser.
Variable str : list Z.
Variable strategy : JsonParse.

Definition size : nat := length str.

(** [str[k]] *)
Definition char_at (k : nat) : result Z :=
  match str !! k with Some c => Ok c | None => if (k =? size)%nat then Ok 0 else Crash end.
Definition peek : M Z := k ← position; lift (char_at k).
Definition peek_next : M Z := k ← position; lift (char_at (S k)).
(** [str[i++]] *)
Definition next : M Z := c ← peek; advance 1;; mret c.
Definition at_end : M bool := k ← position; mret (k =? size)%nat.

Definition whitespace (c : Z) : bool := (c =? 32) || (c =? 13) || (c =? 10) || (c =? 9).
Fixpoint whitespace_loop (n : nat) : M unit :=
  match n with
  | O => nofuel
  | S n => c ← peek; if whitespace c then advance 1;; whitespace_loop n else mret tt
  end.
(** Loops take at most one step per character and one more. *)
Definition fuel : nat := S size.
Definition consume_whitespace : M unit := whitespace_loop fuel.

(** [while (str[i] != '\n') ...] *)
Fixpoint inline_loop (n : nat) : M bool :=
  match n with
  | O => nofuel
  | S n =>
      c ← peek;
      if c =? 10 then mret true
      else
        advance 1;;
        e ← at_end;
        if (e : bool) then fail (bytes_of "unexpected end of input inside inline comment") false
        else inline_loop n
  end.

(** [while (!(str[i] == '*' && str[i+1] == '/')) ...]; at this point the text
    has at least two characters. *)
Definition multiline_end : M bool := k ← position; mret (size - 2 <? k)%nat.
Definition multiline_error : list Z := bytes_of "unexpected end of input inside multi-line comment".
Fixpoint multiline_loop (n : nat) : M bool :=
  match n with
  | O => nofuel
  | S n =>
      c ← peek;
      d ← (if c =? 42 then peek_next else mret 0);
      if (c =? 42) && (d =? 47) then
        advance 2;;
        e ← at_end;
        if (e : bool) then fail multiline_error false else mret true
      else
        advance 1;;
        e ← multiline_end;
        if (e : bool) then fail multiline_error false else multiline_loop n
  end.

Definition consume_comment : M bool :=
  c ← peek;
  if negb (c =? 47) then mret false
  else
    advance 1;;
    e ← at_end;
    if (e : bool) then fail (bytes_of "unexpected end of input inside comment") false
    else
      c ← peek;
      if c =? 47 then
        advance 1;;
        e ← at_end;
        if (e : bool) then fail (bytes_of "unexpected end of input inside inline comment") false
        else inline_loop fuel
      else if c =? 42 then
        advance 1;;
        e ← multiline_end;
        if (e : bool) then fail multiline_error false else multiline_loop fuel
      else fail (bytes_of "malformed comment") false.

Fixpoint comments_loop (n : nat) : M unit :=
  match n with
  | O => nofuel
  | S n =>
      comment_found ← consume_comment;
      consume_whitespace;;
      if (comment_found : bool) then comments_loop n else mret tt
  end.
Definition consume_garbage : M unit :=
  consume_whitespace;;
  match strategy with STANDARD => mret tt | COMMENTS => comments_loop fuel end.

Definition get_next_token : M Z :=
  consume_garbage;;
  e ← at_end;
  if (e : bool) then fail (bytes_of "unexpected end of input") 0 else next.

(** [encode_utf8] *)
Definition encode_utf8 (pt : Z) : list Z :=
  if pt <? 0 then []
  else if pt <? 0x80 then [u8 pt]
  else if pt <? 0x800 then [u8 (Z.lor (Z.shiftr pt 6) 0xC0); u8 (Z.lor (Z.land pt 0x3F) 0x80)]
  else if pt <? 0x10000 then
    [u8 (Z.lor (Z.shiftr pt 12) 0xE0); u8 (Z.lor (Z.land (Z.shiftr pt 6) 0x3F) 0x80);
     u8 (Z.lor (Z.land pt 0x3F) 0x80)]
  else
    [u8 (Z.lor (Z.shiftr pt 18) 0xF0); u8 (Z.lor (Z.land (Z.shiftr pt 12) 0x3F) 0x80);
     u8 (Z.lor (Z.land (Z.shiftr pt 6) 0x3F) 0x80); u8 (Z.lor (Z.land pt 0x3F) 0x80)].

Definition hex_char (c : Z) : bool := in_range c 97 102 || in_range c 65 70 || in_range c 48 57.
(** [strtol(.., 16)] of hexadecimal characters *)
Definition hex_char_value (c : Z) : Z :=
  if in_range c 97 102 then c - 87 else if in_range c 65 70 then c - 55 else c - 48.
Definition strtol16 (t : list Z) : Z := foldl (fun v c => v * 16 + hex_char_value c) 0 t.

(** The character of a one-letter escape. *)
Definition escape_char (ch : Z) : option Z :=
  if ch =? 98 then Some 8
  else if ch =? 102 then Some 12
  else if ch =? 110 then Some 10
  else if ch =? 114 then Some 13
  else if ch =? 116 then Some 9
  else if (ch =? 34) || (ch =? 92) || (ch =? 47) then Some ch
  else None.

(** The text and the pending code point after the escape of [codepoint]. *)
Definition add_codepoint (last codepoint : Z) (out : list Z) : list Z * Z :=
  if in_range last 0xD800 0xDBFF && in_range codepoint 0xDC00 0xDFFF then
    (out ++ encode_utf8 (Z.lor (Z.shiftl (last - 0xD800) 10) (codepoint - 0xDC00) + 0x10000), -1)
  else (out ++ encode_utf8 last, codepoint).

Definition string_end : list Z := bytes_of "unexpected end of input in string".
Fixpoint string_loop (n : nat) (out : list Z) (last : Z) : M (list Z) :=
  match n with
  | O => nofuel
  | S n =>
      e ← at_end;
      if (e : bool) then fail string_end []
      else
        ch ← next;
        if ch =? 34 then mret (out ++ encode_utf8 last)
        else if in_range (s8 ch) 0 31 then fail (bytes_of "unescaped " ++ esc ch ++ bytes_of " in string") []
        else if negb (ch =? 92) then string_loop n (out ++ encode_utf8 last ++ [ch]) (-1)
        else
          e ← at_end;
          if (e : bool) then fail string_end []
          else
            ch ← next;
            if ch =? 117 then
              k ← position;
              let esc := take 4 (drop k str) in
              if (length esc <? 4)%nat || negb (forallb hex_char esc) then fail (bytes_of "bad \u escape: " ++ esc) []
              else
                let '(out, last) := add_codepoint last (strtol16 esc) out in
                advance 4;;
                string_loop n out last
            else
              let out := out ++ encode_utf8 last in
              match escape_char ch with
              | Some c => string_loop n (out ++ [c]) (-1)
              | None => fail (bytes_of "invalid escape character " ++ Parser.esc ch) []
              end
  end.
Definition parse_string : M (list Z) := string_loop fuel [] (-1).

(** [while (in_range(str[i], '0', '9')) i++;] *)
Fixpoint digits_loop (n : nat) : M unit :=
  match n with
  | O => nofuel
  | S n => c ← peek; if in_range c 48 57 then advance 1;; digits_loop n else mret tt
  end.

(** The integer part: the message if it is malformed. *)
Definition integer_part : M (option (list Z)) :=
  c ← peek;
  if c =? 48 then
    advance 1;;
    c ← peek;
    mret (if in_range c 48 57 then Some (bytes_of "leading 0s not permitted in numbers") else None)
  else if in_range c 49 57 then advance 1;; digits_loop fuel;; mret None
  else mret (Some (bytes_of "invalid " ++ esc c ++ bytes_of " in number")).

Definition decimal_part : M (option (list Z)) :=
  c ← peek;
  if c =? 46 then
    advance 1;;
    c ← peek;
    if negb (in_range c 48 57) then mret (Some (bytes_of "at least one digit required in fractional part"))
    else digits_loop fuel;; mret None
  else mret None.

Definition exponent_part : M (option (list Z)) :=
  c ← peek;
  if (c =? 101) || (c =? 69) then
    advance 1;;
    c ← peek;
    (if (c =? 43) || (c =? 45) then advance 1 else mret tt);;
    c ← peek;
    if negb (in_range c 48 57) then mret (Some (bytes_of "at least one digit required in exponent"))
    else digits_loop fuel;; mret None
  else mret None.

(** [numeric_limits<int>::digits10] *)
Definition digits10 : nat := 9.

Definition parse_number : M Json :=
  start_pos ← position;
  c ← peek;
  (if c =? 45 then advance 1 else mret tt);;
  e ← integer_part;
  match e with
  | Some msg => fail msg JNull
  | None =>
      c ← peek;
      k ← position;
      if negb (c =? 46) && negb (c =? 101) && negb (c =? 69) && (k - start_pos <=? digits10)%nat then
        v ← lift (atoi (drop start_pos str)); mret (JNumber (NInt v))
      else
        e ← decimal_part;
        match e with
        | Some msg => fail msg JNull
        | None =>
            e ← exponent_part;
            match e with
            | Some msg => fail msg JNull
            | None => mret (JNumber (NDouble (Double.strtod (drop start_pos str))))
            end
        end
  end.

(** [expect(expected, res)] *)
Definition expect (expected : string) (res : Json) : M Json :=
  retreat;;
  k ← position;
  let expected := bytes_of expected in
  let got := take (length expected) (drop k str) in
  if bool_decide (got = expected) then advance (length expected);; mret res
  else fail (bytes_of "parse error: expected " ++ expected ++ bytes_of ", got " ++ got) JNull.

(** [parse_json] and the loops over the entries of an object, whose next
    character is [ch], and over the elements of an array. *)
Fixpoint parse_json (n : nat) (depth : Z) : M Json :=
  match n with
  | O => nofuel
  | S n =>
      if max_depth <? depth then fail (bytes_of "exceeded maximum nesting depth") JNull
      else
        ch ← get_next_token;
        f ← has_failed;
        if (f : bool) then mret JNull
        else if (ch =? 45) || in_range ch 48 57 then retreat;; parse_number
        else if ch =? 116 then expect "true" (JBool true)
        else if ch =? 102 then expect "false" (JBool false)
        else if ch =? 110 then expect "null" JNull
        else if ch =? 34 then s ← parse_string; mret (JString s)
        else if ch =? 123 then
          ch ← get_next_token;
          if ch =? 125 then mret (JObject []) else object_loop n depth [] ch
        else if ch =? 91 then
          ch ← get_next_token;
          if ch =? 93 then mret (JArray []) else array_loop n depth []
        else fail (bytes_of "expected value, got " ++ esc ch) JNull
  end
with object_loop (n : nat) (depth : Z) (data : list (list Z * Json)) (ch : Z) : M Json :=
  match n with
  | O => nofuel
  | S n =>
      if negb (ch =? 34) then fail (bytes_of "expected '" ++ [34] ++ bytes_of "' in object, got " ++ esc ch) JNull
      else
        key ← parse_string;
        f ← has_failed;
        if (f : bool) then mret JNull
        else
          ch ← get_next_token;
          if negb (ch =? 58) then fail (bytes_of "expected ':' in object, got " ++ esc ch) JNull
          else
            v ← parse_json n (depth + 1);
            let data := JsonValue.map_insert key v data in
            f ← has_failed;
            if (f : bool) then mret JNull
            else
              ch ← get_next_token;
              if ch =? 125 then mret (JObject data)
              else if negb (ch =? 44) then fail (bytes_of "expected ',' in object, got " ++ esc ch) JNull
              else ch ← get_next_token; object_loop n depth data ch
  end
with array_loop (n : nat) (depth : Z) (data : list Json) : M Json :=
  match n with
  | O => nofuel
  | S n =>
      retreat;;
      v ← parse_json n (depth + 1);
      let data := data ++ [v] in
      f ← has_failed;
      if (f : bool) then mret JNull
      else
        ch ← get_next_token;
        if ch =? 93 then mret (JArray data)
        else if negb (ch =? 44) then fail (bytes_of "expected ',' in list, got " ++ esc ch) JNull
        else _ ← get_next_token; array_loop n depth data
  end.

(** Two calls per character, and one to find the end. *)
Definition parse_fuel : nat := S (S (2 * size)).

(** The value and the message; a value with a message is not used. *)
Definition parse : result (Json * list Z) :=
  '(res, p) ← parse_json parse_fuel 0 (MkJsonParser 0 [] false);
  '(_, p) ← consume_garbage p;
  if negb (i p =? size)%nat then
    c ← char_at (i p);
    '(res, p) ← fail (bytes_of "unexpected trailing " ++ esc c) JNull p;
    Ok (res, err p)
  else Ok (res, err p).

(** The loop of [parse_multi]: the values, the position behind the last one
    that was read without a failure, and the message. *)
Fixpoint multi_loop (n : nat) (vec : list Json) (stop : nat) (p : JsonParser) : result (list Json * nat * list Z) :=
  match n with
  | O => NoFuel
  | S n =>
      if (i p =? size)%nat || failed p then Ok (vec, stop, err p)
      else
        '(j, p) ← parse_json parse_fuel 0 p;
        '(_, p) ← consume_garbage p;
        multi_loop n (vec ++ [j]) (if failed p then stop else i p) p
  end.
Definition parse_multi : result (list Json * nat * list Z) := multi_loop (S fuel) [] 0 (MkJsonParser 0 [] false).
End Parser.
End Parser.

(** [JsonConf::parseString] *)
Definition parseString (json : list Z) : result Json :=
  '(json_obj, err) ← Parser.parse json STANDARD;
  throw_if (negb (bool_decide (err = []))) TypeError;;
  Ok json_obj.
