(* ===== verification/JsonFacts.v ===== *)
(** Facts about the JSON parser and printer: the parser returns on every text
    without reading outside of it, what it returns is well formed, and it reads
    back what the printer wrote. *)
From stdpp Require Import base list numbers option strings sorting.
From Stdlib Require Import ZArith Lia SpecFloat.
From S2P Require Import Prelude Encode HwAddr Text Json.
Import Parser.

(** ** Well-formed values *)

(** How deep a value is nested: an element of an array or object is one level
    deeper. *)
Fixpoint nest (j : Json) : nat :=
  match j with
  | JArray l => foldr (fun j d => Nat.max (S (nest j)) d) O l
  | JObject m => foldr (fun e d => Nat.max (S (nest e.2)) d) O m
  | _ => O
  end.

Definition key_lt (a b : list Z * Json) : Prop := string_lt a.1 b.1 = true.

Fixpoint json_ok (j : Json) : Prop :=
  match j with
  | JNumber (NInt v) => - 2^31 <= v < 2^31
  | JString s => bytes_ok s
  | JArray l => foldr (fun j P => json_ok j /\ P) True l
  | JObject m => StronglySorted key_lt m /\ foldr (fun e P => bytes_ok e.1 /\ json_ok e.2 /\ P) True m
  | _ => True
  end.

Lemma nest_array l n : (nest (JArray l) <= n)%nat <-> Forall (fun j => (nest j < n)%nat) l.
Proof.
  cbn [nest]. induction l as [|j l IH]; cbn [foldr].
  - split; [constructor|lia].
  - rewrite Forall_cons, <- IH. lia.
Qed.
Lemma nest_object m n : (nest (JObject m) <= n)%nat <-> Forall (fun e => (nest e.2 < n)%nat) m.
Proof.
  cbn [nest]. induction m as [|e m IH]; cbn [foldr].
  - split; [constructor|lia].
  - rewrite Forall_cons, <- IH. lia.
Qed.
Lemma ok_array l : json_ok (JArray l) <-> Forall json_ok l.
Proof. cbn [json_ok]. induction l as [|j l IH]; cbn [foldr]; [by rewrite Forall_nil|]. by rewrite Forall_cons, IH. Qed.
Lemma ok_object m : json_ok (JObject m) <-> StronglySorted key_lt m /\ Forall (fun e => bytes_ok e.1 /\ json_ok e.2) m.
Proof.
  cbn [json_ok]. assert (forall m, foldr (fun e P => bytes_ok e.1 /\ json_ok e.2 /\ P) True m <->
    Forall (fun e => bytes_ok e.1 /\ json_ok e.2) m) as Hm; [|by rewrite Hm].
  clear. induction m as [|e m IH]; cbn [foldr]; [by rewrite Forall_nil|]. rewrite Forall_cons, IH. tauto.
Qed.

(** ** The order of strings *)
Lemma string_lt_irrefl a : string_lt a a = false.
Proof. induction a as [|x a IH]; [done|]. cbn. by rewrite Z.ltb_irrefl. Qed.
Lemma string_lt_trans a b c : string_lt a b = true -> string_lt b c = true -> string_lt a c = true.
Proof.
  revert b c. induction a as [|x a IH]; intros [|y b] [|z c]; cbn; try done.
  destruct (Z.ltb_spec x y), (Z.ltb_spec y z), (Z.ltb_spec x z), (Z.ltb_spec y x), (Z.ltb_spec z y), (Z.ltb_spec z x);
    try done; try lia. apply IH.
Qed.
Lemma string_lt_total a b : string_lt a b = false -> string_lt b a = false -> a = b.
Proof.
  revert b. induction a as [|x a IH]; intros [|y b]; cbn; try done.
  destruct (Z.ltb_spec x y), (Z.ltb_spec y x); try done; try lia. intros H1 H2. f_equal; [lia|by apply IH].
Qed.

Lemma key_lt_trans : Transitive key_lt.
Proof. intros a b c. apply string_lt_trans. Qed.

Section MapInsert.
Variables (key : list Z) (v : Json).

Lemma map_insert_Forall (P : list Z * Json -> Prop) m :
  P (key, v) -> (forall k w, P (k, w) -> string_lt key k = false -> string_lt k key = false -> P (k, v)) ->
  Forall P m -> Forall P (JsonValue.map_insert key v m).
Proof.
  intros Hv Hr. induction 1 as [|[k w] m Hk Hm IH]; cbn; [by constructor|].
  destruct (string_lt key k) eqn:E1; [by repeat constructor|].
  destruct (string_lt k key) eqn:E2; constructor; try done. by eapply Hr.
Qed.

Lemma map_insert_sorted m : StronglySorted key_lt m -> StronglySorted key_lt (JsonValue.map_insert key v m).
Proof.
  induction 1 as [|[k w] m Hm IH Hk]; cbn; [by repeat constructor|].
  destruct (string_lt key k) eqn:E1.
  - constructor; [by constructor|]. constructor; [done|]. eapply Forall_impl; [exact Hk|]. intros e. by apply string_lt_trans.
  - destruct (string_lt k key) eqn:E2; constructor; try done.
    apply map_insert_Forall; [done| |done]. done.
Qed.

(** A key behind all others is appended. *)
Lemma map_insert_last m : Forall (fun e => string_lt e.1 key = true) m -> JsonValue.map_insert key v m = m ++ [(key, v)].
Proof.
  induction 1 as [|[k w] m Hk Hm IH]; [done|]. cbn in *. destruct (string_lt key k) eqn:E.
  - pose proof (string_lt_trans _ _ _ E Hk) as H. by rewrite string_lt_irrefl in H.
  - by rewrite Hk, IH.
Qed.
End MapInsert.

(** ** Reasoning about member functions *)
Definition wp {A} (m : M A) (p : JsonParser) (Q : A -> JsonParser -> Prop) : Prop :=
  match m p with Ok (a, p) => Q a p | _ => False end.

Lemma wp_ret {A} (a : A) p (Q : _ -> _ -> Prop) : Q a p -> wp (mret a) p Q.
Proof. done. Qed.
Lemma wp_bind {A B} (m : M A) (k : A -> M B) p (Q : _ -> _ -> Prop) : wp m p (fun a p => wp (k a) p Q) -> wp (m ≫= k) p Q.
Proof. unfold wp. cbn. unfold M_bind, mbind, result_bind. destruct (m p) as [[a q]| | |]; auto. Qed.
Lemma wp_mono {A} (m : M A) p (P Q : A -> JsonParser -> Prop) : wp m p P -> (forall a p, P a p -> Q a p) -> wp m p Q.
Proof. unfold wp. destruct (m p) as [[a p']| | |]; try done. auto. Qed.
Lemma wp_fail {A} msg (a : A) p (Q : _ -> _ -> Prop) : Q a (MkJsonParser (i p) (if failed p then err p else msg) true) -> wp (fail msg a) p Q.
Proof. done. Qed.
Lemma wp_has_failed p (Q : _ -> _ -> Prop) : Q (failed p) p -> wp has_failed p Q.
Proof. done. Qed.
Lemma wp_position p (Q : _ -> _ -> Prop) : Q (i p) p -> wp position p Q.
Proof. done. Qed.
Lemma wp_advance n p (Q : _ -> _ -> Prop) : Q tt (MkJsonParser (i p + n) (err p) (failed p)) -> wp (advance n) p Q.
Proof. done. Qed.
Lemma wp_retreat p (Q : _ -> _ -> Prop) : (0 < i p)%nat -> Q tt (MkJsonParser (i p - 1) (err p) (failed p)) -> wp retreat p Q.
Proof. unfold wp, retreat. destruct p as [[|k] e f]; cbn; [lia|]. by rewrite Nat.sub_0_r. Qed.

Section Total.
Variable str : list Z.
Variable strategy : JsonParse.

Lemma wp_peek p (Q : _ -> _ -> Prop) : (i p <= length str)%nat ->
  (forall c, str !! i p = Some c -> (i p < length str)%nat -> Q c p) -> (i p = length str -> Q 0 p) -> wp (peek str) p Q.
Proof.
  intros Hi H1 H2. unfold peek. apply wp_bind, wp_position. unfold wp, lift, char_at.
  destruct (str !! i p) as [c|] eqn:E; cbn.
  - apply H1; [done|]. by apply lookup_lt_Some in E.
  - apply lookup_ge_None in E. unfold Parser.size. rewrite (proj2 (Nat.eqb_eq _ _)) by lia. cbn. apply H2. lia.
Qed.
Lemma wp_peek_next p (Q : _ -> _ -> Prop) : (i p < length str)%nat -> (forall c, Q c p) -> wp (peek_next str) p Q.
Proof.
  intros Hi H. unfold peek_next. apply wp_bind, wp_position. unfold wp, lift, char_at.
  destruct (str !! S (i p)) as [c|] eqn:E; [apply H|].
  apply lookup_ge_None in E. unfold Parser.size. rewrite (proj2 (Nat.eqb_eq _ _)) by lia. apply H.
Qed.
Lemma wp_at_end p (Q : _ -> _ -> Prop) : (i p = length str -> Q true p) -> (i p <> length str -> Q false p) -> wp (at_end str) p Q.
Proof.
  intros H1 H2. unfold at_end. apply wp_bind, wp_position, wp_ret. unfold Parser.size.
  destruct (Nat.eqb_spec (i p) (length str)); auto.
Qed.
Lemma wp_next p (Q : _ -> _ -> Prop) : (i p < length str)%nat ->
  (forall c, str !! i p = Some c -> Q c (MkJsonParser (S (i p)) (err p) (failed p))) -> wp (next str) p Q.
Proof.
  intros Hi H. unfold next. apply wp_bind, wp_peek; [lia| |lia]. intros c Hc _.
  apply wp_bind, wp_advance, wp_ret. rewrite Nat.add_1_r. by apply H.
Qed.

(** There is a message exactly if there was a failure. *)
Definition err_ok (p : JsonParser) : Prop := if failed p then err p <> [] else err p = [].
Arguments err_ok : simpl never.

Lemma err_ok_fail p msg k : msg <> [] -> err_ok p -> err_ok (MkJsonParser k (if failed p then err p else msg) true).
Proof. unfold err_ok. cbn. by destruct (failed p). Qed.

Lemma err_ok_move p k : err_ok p -> err_ok (MkJsonParser k (err p) (failed p)).
Proof. done. Qed.
Create HintDb json.
#[local] Hint Resolve err_ok_fail err_ok_move : json.
#[local] Hint Extern 1 (_ <> []) => discriminate : json.

(** The parser moved on inside the text and forgot no failure. *)
Definition moved (p q : JsonParser) : Prop :=
  (i p <= i q <= length str)%nat /\ (failed p = true -> failed q = true) /\ (err_ok p -> err_ok q).

Lemma moved_trans p q r : moved p q -> moved q r -> moved p r.
Proof. unfold moved. intros (? & ? & ?) (? & ? & ?). split_and!; [lia|lia|auto|auto]. Qed.
Lemma moved_fail p q msg : moved p q -> msg <> [] -> moved p (MkJsonParser (i q) (if failed q then err q else msg) true).
Proof. intros (? & ? & ?) Hm. split_and!; cbn; [lia|lia|done|]. intros He. apply (err_ok_fail q msg (i q)); auto. Qed.

Ltac wp_steps := repeat lazymatch goal with
  | |- wp (_ ≫= _) _ _ => apply wp_bind
  | |- wp (mret _) _ _ => apply wp_ret
  | |- wp (fail _ _) _ _ => apply wp_fail
  | |- wp has_failed _ _ => apply wp_has_failed
  | |- wp position _ _ => apply wp_position
  | |- wp (advance _) _ _ => apply wp_advance
  end.
Ltac moved_done := unfold moved in *; cbn in *;
  intuition (first [lia | congruence | discriminate | solve [eauto with json]]).

Lemma whitespace_moved n p : (i p <= length str)%nat -> (length str - i p < n)%nat ->
  wp (whitespace_loop str n) p (fun _ q => moved p q /\ failed q = failed p).
Proof.
  revert p. induction n as [|n IH]; intros p Hi Hn; [lia|]. cbn [whitespace_loop]. apply wp_bind, wp_peek; [done|..].
  - intros c _ Hc. destruct (whitespace c); wp_steps; [|moved_done].
    eapply wp_mono; [apply IH; cbn; lia|]. intros [] q [Hm Hf]. moved_done.
  - intros Hc. wp_steps. moved_done.
Qed.
Lemma drop_peek k c : str !! k = Some c -> drop k str = c :: drop (S k) str.
Proof. apply drop_S. Qed.
Lemma digits_at k : (length (digits_prefix (drop k str)) <= length str - k)%nat.
Proof. rewrite <- length_drop. apply digits_prefix_length. Qed.

(** The state behind [n] more characters. *)
Definition ahead (n : nat) (p : JsonParser) : JsonParser := MkJsonParser (i p + n) (err p) (failed p).

Lemma digits_exact n p : (i p <= length str)%nat -> (length str - i p < n)%nat ->
  wp (digits_loop str n) p (fun _ q => q = ahead (length (digits_prefix (drop (i p) str))) p).
Proof.
  revert p. induction n as [|n IH]; intros p Hi Hn; [lia|]. cbn [digits_loop]. apply wp_bind, wp_peek; [done|..].
  - intros c Hs Hc. rewrite (drop_peek _ _ Hs). cbn [digits_prefix]. change (isdigit c) with (in_range c 48 57).
    destruct (in_range c 48 57); wp_steps.
    + eapply wp_mono; [apply IH; cbn; lia|]. intros [] q ->. unfold ahead. cbn. rewrite (Nat.add_1_r (i p)). f_equal. lia.
    + destruct p. unfold ahead. cbn. by rewrite Nat.add_0_r.
  - intros Hc. wp_steps. rewrite drop_ge by lia. destruct p. unfold ahead. cbn. by rewrite Nat.add_0_r.
Qed.
Lemma inline_moved n p : (i p < length str)%nat -> (length str - i p < n)%nat -> wp (inline_loop str n) p (fun _ q => moved p q).
Proof.
  revert p. induction n as [|n IH]; intros p Hi Hn; [lia|]. cbn [inline_loop]. apply wp_bind, wp_peek; [lia| |lia].
  intros c _ Hc. destruct (c =? 10); wp_steps; [moved_done|]. apply wp_at_end; cbn [i err failed]; intros He; wp_steps; [moved_done|].
  eapply wp_mono; [apply IH; cbn; lia|]. intros b q Hm. moved_done.
Qed.

Lemma wp_multiline_end p (Q : _ -> _ -> Prop) :
  ((length str - 2 < i p)%nat -> Q true p) -> ((i p <= length str - 2)%nat -> Q false p) -> wp (multiline_end str) p Q.
Proof.
  intros H1 H2. unfold multiline_end. wp_steps. unfold Parser.size. destruct (Nat.ltb_spec (length str - 2) (i p)); auto.
Qed.
Lemma multiline_moved n p : (2 <= length str)%nat -> (i p <= length str - 2)%nat -> (length str - i p < n)%nat ->
  wp (multiline_loop str n) p (fun _ q => moved p q).
Proof.
  intros H2. revert p. induction n as [|n IH]; intros p Hi Hn; [lia|]. cbn [multiline_loop].
  apply wp_bind, wp_peek; [lia| |lia]. intros c _ Hc.
  assert (forall d, wp (if (c =? 42) && (d =? 47) then
      _ ← advance 2; e ← at_end str; if (e : bool) then fail multiline_error false else mret true
    else _ ← advance 1; e ← multiline_end str; if (e : bool) then fail multiline_error false else multiline_loop str n)
    p (fun _ q => moved p q)) as H.
  { intros d. destruct (_ && _); wp_steps.
    - apply wp_at_end; cbn [i err failed]; intros He; wp_steps; moved_done.
    - apply wp_multiline_end; cbn [i err failed]; intros He; wp_steps; [moved_done|]. eapply wp_mono; [apply IH; cbn; lia|].
      intros b q Hm. moved_done. }
  apply wp_bind. destruct (c =? 42); [apply wp_peek_next; [lia|]; intros d; apply (H d)|apply wp_ret, (H 0)].
Qed.

Lemma comment_moved p : (i p <= length str)%nat ->
  wp (consume_comment str) p (fun b q => moved p q /\ (b = true -> (i p < i q)%nat)).
Proof.
  intros Hi. unfold consume_comment. assert (fuel str = S (length str)) as Hf by done.
  apply wp_bind, wp_peek; [done| |]; [intros c _ Hc|intros _; wp_steps; moved_done].
  destruct (negb (c =? 47)); wp_steps; [moved_done|].
  apply wp_at_end; cbn [i err failed]; intros He; wp_steps; [moved_done|].
  apply wp_peek; cbn [i err failed]; [lia| |lia]. intros d _ Hd. destruct (d =? 47); wp_steps.
  - apply wp_at_end; cbn [i err failed]; intros He'; wp_steps; [moved_done|].
    eapply wp_mono; [apply inline_moved; cbn; lia|]. intros b q Hm. moved_done.
  - destruct (d =? 42); wp_steps; [|moved_done]. apply wp_multiline_end; cbn [i err failed]; intros He'; wp_steps; [moved_done|].
    eapply wp_mono; [apply multiline_moved; cbn; lia|]. intros b q Hm. moved_done.
Qed.

Lemma whitespace_fuel p : (i p <= length str)%nat ->
  wp (consume_whitespace str) p (fun _ q => moved p q /\ failed q = failed p).
Proof. intros. apply whitespace_moved; unfold fuel, Parser.size; lia. Qed.

Lemma comments_moved n p : (i p <= length str)%nat -> (length str - i p < n)%nat -> wp (comments_loop str n) p (fun _ q => moved p q).
Proof.
  revert p. induction n as [|n IH]; intros p Hi Hn; [lia|]. cbn [comments_loop]. apply wp_bind.
  eapply wp_mono; [by apply comment_moved|]. intros b q [Hq Hb]. apply wp_bind.
  eapply wp_mono; [apply whitespace_fuel, Hq|]. intros [] r [Hr _]. destruct b; wp_steps.
  - specialize (Hb eq_refl). eapply wp_mono; [apply IH; moved_done|]. intros [] s Hs. by do 2 (eapply moved_trans; [done|]).
  - by eapply moved_trans.
Qed.

Lemma garbage_moved p : (i p <= length str)%nat -> wp (consume_garbage str strategy) p (fun _ q => moved p q).
Proof.
  intros Hi. unfold consume_garbage. apply wp_bind. eapply wp_mono; [by apply whitespace_fuel|]. intros [] q [Hq _].
  destruct strategy; wp_steps; [done|]. eapply wp_mono; [apply comments_moved; unfold fuel, Parser.size; moved_done|].
  intros [] r Hr. by eapply moved_trans.
Qed.

Lemma token_moved p : (i p <= length str)%nat ->
  wp (get_next_token str strategy) p (fun c q => moved p q /\
    (failed q = false -> (i p < i q)%nat /\ str !! (i q - 1)%nat = Some c)).
Proof.
  intros Hi. unfold get_next_token. apply wp_bind. eapply wp_mono; [by apply garbage_moved|]. intros [] q Hq.
  apply wp_bind, wp_at_end; intros He; wp_steps; [moved_done|].
  apply wp_next; [moved_done|]. intros c Hc. cbn [i failed err]. split; [moved_done|]. intros _.
  split; [moved_done|]. by rewrite Nat.sub_succ, Nat.sub_0_r.
Qed.

(** *** Strings *)
Hypothesis Hstr : bytes_ok str.

Lemma encode_utf8_bytes pt : bytes_ok (encode_utf8 pt).
Proof. unfold encode_utf8. repeat case_match; repeat constructor; apply u8_byte. Qed.

Lemma lookup_byte k c : str !! k = Some c -> byte_ok c.
Proof. intros H. eapply Forall_lookup_1; [exact Hstr|exact H]. Qed.

Lemma add_codepoint_bytes last cp out : bytes_ok out -> bytes_ok (add_codepoint last cp out).1.
Proof. intros Ho. unfold add_codepoint. case_match; cbn; apply bytes_ok_app; split; try done; apply encode_utf8_bytes. Qed.

Lemma escape_char_byte ch c : byte_ok ch -> escape_char ch = Some c -> byte_ok c.
Proof. intros Hc. unfold escape_char, byte_ok. repeat case_match; try done; intros [= <-]; done || lia. Qed.

Lemma string_moved n out last p : (i p <= length str)%nat -> (length str - i p < n)%nat -> bytes_ok out ->
  wp (string_loop str n out last) p (fun s q => moved p q /\ bytes_ok s).
Proof.
  revert out last p. induction n as [|n IH]; intros out last p Hi Hn Ho; [lia|]. cbn [string_loop].
  apply wp_bind, wp_at_end; intros He; wp_steps; [split; [moved_done|constructor]|].
  apply wp_next; [lia|]. intros ch Hch%lookup_byte.
  assert (forall q o l, (i p < i q <= length str)%nat -> (failed p = true -> failed q = true) -> (err_ok p -> err_ok q) -> bytes_ok o ->
    wp (string_loop str n o l) q (fun s q => moved p q /\ bytes_ok s)) as Hgo.
  { intros q o l Hq Hf He' Hb. eapply wp_mono; [apply IH; [lia|lia|done]|]. intros s r [Hr Hs]. split; [|done]. moved_done. }
  pose proof (encode_utf8_bytes last) as Hu.
  destruct (ch =? 34); wp_steps; [split; [moved_done|by apply bytes_ok_app]|].
  destruct (in_range (s8 ch) 0 31); wp_steps; [split; [moved_done|constructor]|].
  destruct (negb (ch =? 92)).
  { apply Hgo; cbn; [lia|done|done|]. apply bytes_ok_app. split; [done|]. apply bytes_ok_app. split; [done|by repeat constructor; apply Hch]. }
  wp_steps. apply wp_at_end; cbn [i err failed]; intros He'; wp_steps; [split; [moved_done|constructor]|].
  apply wp_next; cbn [i err failed]; [lia|]. intros ch' Hch'%lookup_byte. destruct (ch' =? 117); wp_steps.
  - cbn [i err failed]. destruct (_ || _) eqn:El; wp_steps; [split; [moved_done|constructor]|].
    apply orb_false_elim in El as [El _]. apply Nat.ltb_ge in El. rewrite length_take, length_drop in El.
    destruct (add_codepoint last _ out) as [o l] eqn:Ea. wp_steps. apply Hgo; cbn; [lia|done|done|].
    replace o with (add_codepoint last (strtol16 (take 4 (drop (S (S (i p))) str))) out).1 by (by rewrite Ea).
    by apply add_codepoint_bytes.
  - destruct (escape_char ch') as [c|] eqn:Ec; wp_steps; [|split; [moved_done|constructor]].
    apply Hgo; cbn; [lia|done|done|]. rewrite !bytes_ok_app. split_and!; [done|done|].
    repeat constructor; by eapply escape_char_byte.
Qed.

Lemma parse_string_moved p : (i p <= length str)%nat -> wp (parse_string str) p (fun s q => moved p q /\ bytes_ok s).
Proof. intros. apply string_moved; [done|unfold fuel, Parser.size; lia|constructor]. Qed.

(** *** Numbers *)
Lemma digits_fuel p : (i p <= length str)%nat ->
  wp (digits_loop str (fuel str)) p (fun _ q => q = ahead (length (digits_prefix (drop (i p) str))) p).
Proof. intros. apply digits_exact; [done|]. unfold fuel, Parser.size. lia. Qed.

Lemma ahead_moved n p : (i p + n <= length str)%nat -> moved p (ahead n p).
Proof. unfold moved, ahead. cbn. intros. split_and!; [lia|lia|done|done]. Qed.
Lemma digits_moved p : (i p <= length str)%nat -> wp (digits_loop str (fuel str)) p (fun _ q => moved p q).
Proof.
  intros Hi. eapply wp_mono; [by apply digits_fuel|]. intros [] q ->. apply ahead_moved.
  pose proof (digits_at (i p)). lia.
Qed.

(** A well-formed integer part is a run of digits. *)
Lemma integer_part_exact p : (i p <= length str)%nat ->
  wp (integer_part str) p (fun e q => moved p q /\ e <> Some [] /\
    (e = None -> digits_prefix (drop (i p) str) <> [] /\ q = ahead (length (digits_prefix (drop (i p) str))) p)).
Proof.
  intros Hi. unfold integer_part. apply wp_bind, wp_peek; [done|..]; cycle 1.
  { intros _. cbn. moved_done. }
  intros c Hc Hlt. rewrite (drop_peek _ _ Hc). destruct (c =? 48) eqn:E0; wp_steps.
  - apply wp_peek; cbn [i err failed]; [lia|..].
    + intros d Hd Hd'. apply Z.eqb_eq in E0 as ->. rewrite Nat.add_1_r in Hd. rewrite (drop_peek _ _ Hd).
      cbn [digits_prefix]. change (isdigit d) with (in_range d 48 57). change (isdigit 48) with true. cbn [ahead].
      destruct (in_range d 48 57); wp_steps; moved_done.
    + intros He. apply Z.eqb_eq in E0 as ->. wp_steps. rewrite (drop_ge str (S (i p))) by lia. cbn. moved_done.
  - destruct (in_range c 49 57) eqn:E1; wp_steps; [|moved_done].
    eapply wp_mono; [apply digits_fuel; cbn; lia|]. intros [] q ->. wp_steps. cbn [i err failed].
    cbn [digits_prefix]. assert (isdigit c = true) as -> by (unfold in_range, isdigit in *; lia).
    rewrite Nat.add_1_r. unfold ahead. cbn [i err failed length]. pose proof (digits_at (S (i p))).
    split; [moved_done|]. split; [done|]. intros _. split; [done|]. f_equal. lia.
Qed.

Lemma decimal_part_moved p : (i p <= length str)%nat -> wp (decimal_part str) p (fun e q => moved p q /\ e <> Some []).
Proof.
  intros Hi. unfold decimal_part. apply wp_bind, wp_peek; [done|..]; [|intros _; wp_steps; moved_done].
  intros c Hc Hlt. destruct (c =? 46); wp_steps; [|moved_done].
  apply wp_peek; cbn [i err failed]; [lia|..]; [|intros _; wp_steps; moved_done].
  intros d Hd Hd'. destruct (negb _); wp_steps; [moved_done|].
  eapply wp_mono; [apply digits_moved; cbn; lia|]. intros [] q Hq. wp_steps. moved_done.
Qed.

Lemma exponent_part_moved p : (i p <= length str)%nat -> wp (exponent_part str) p (fun e q => moved p q /\ e <> Some []).
Proof.
  intros Hi. unfold exponent_part. apply wp_bind, wp_peek; [done|..]; [|intros _; wp_steps; moved_done].
  intros c Hc Hlt. destruct (_ || _); wp_steps; [|moved_done].
  set (p1 := MkJsonParser (i p + 1) (err p) (failed p)). assert (moved p p1) as H1 by (subst p1; moved_done).
  assert (forall q, moved p q -> wp (c ← peek str; if negb (in_range c 48 57)
    then mret (Some (bytes_of "at least one digit required in exponent")) else _ ← digits_loop str (fuel str); mret None)
    q (fun e q => moved p q /\ e <> Some [])) as Hd.
  { intros q Hq. apply wp_bind, wp_peek; [moved_done|..]; [intros d Hd Hd'|intros _; wp_steps; moved_done].
    destruct (negb _); wp_steps; [moved_done|]. eapply wp_mono; [apply digits_moved; moved_done|]. intros [] r Hr. wp_steps.
    split; [by eapply moved_trans|done]. }
  apply wp_peek; [apply H1|..]; [intros d Hdl Hdlt|intros _; apply wp_bind, wp_ret; by apply Hd].
  apply wp_bind. destruct (_ || _); [apply wp_advance|apply wp_ret]; apply Hd; [|done]. subst p1. cbn in *. moved_done.
Qed.

(** The value of an [atoi] on at most nine digits. *)
Lemma short_value s : (length (digits_prefix s) <= digits10)%nat -> 0 <= decimal_value (digits_prefix s) < 2^31.
Proof.
  intros Hl. pose proof (decimal_value_prefix s) as [H0 H1]. split; [done|]. unfold digits10 in Hl.
  apply (Z.lt_le_trans _ _ _ H1). apply (Z.le_trans _ (10 ^ 9)); [|done]. apply Z.pow_le_mono_r; unfold zlen; lia.
Qed.
Lemma atoi_short s : (digits_prefix s <> [] /\ (length (digits_prefix s) <= digits10)%nat) \/
  (exists t, s = 45 :: t /\ (length (digits_prefix t) <= digits10)%nat) -> exists v, atoi s = Ok v /\ - 2^31 <= v < 2^31.
Proof.
  intros [[Hn Hl]|(t & -> & Hl)]; pose proof (short_value _ Hl) as [H0 H1].
  - eexists. split; [by apply atoi_digits|]. lia.
  - eexists. split; [by apply atoi_minus|]. lia.
Qed.

Lemma wp_lift {A} (r : result A) a p (Q : _ -> _ -> Prop) : r = Ok a -> Q a p -> wp (lift r) p Q.
Proof. intros ->. done. Qed.

(** What is behind the integer part. *)
Definition number_rest (start_pos : nat) : M Json :=
  c ← peek str;
  k ← position;
  if negb (c =? 46) && negb (c =? 101) && negb (c =? 69) && (k - start_pos <=? digits10)%nat then
    v ← lift (atoi (drop start_pos str)); mret (JNumber (NInt v))
  else
    e ← decimal_part str;
    match e with
    | Some msg => fail msg JNull
    | None =>
        e ← exponent_part str;
        match e with
        | Some msg => fail msg JNull
        | None => mret (JNumber (NDouble (Double.strtod (drop start_pos str))))
        end
    end.

Lemma number_rest_moved start p : (i p <= length str)%nat ->
  ((i p - start <= digits10)%nat -> exists v, atoi (drop start str) = Ok v /\ - 2^31 <= v < 2^31) ->
  wp (number_rest start) p (fun j q => moved p q /\ (failed q = false -> json_ok j /\ nest j = O)).
Proof.
  intros Hi Ha. assert (forall c, wp (k ← position; if negb (c =? 46) && negb (c =? 101) && negb (c =? 69) && (k - start <=? digits10)%nat then
    v ← lift (atoi (drop start str)); mret (JNumber (NInt v)) else
    e ← decimal_part str; match e with Some msg => fail msg JNull | None => e ← exponent_part str;
    match e with Some msg => fail msg JNull | None => mret (JNumber (NDouble (Double.strtod (drop start str)))) end end)
    p (fun j q => moved p q /\ (failed q = false -> json_ok j /\ nest j = O))) as H.
  { intros c. wp_steps. destruct (_ && _) eqn:E; wp_steps.
    - apply andb_prop in E as [_ E%Nat.leb_le]. destruct (Ha E) as (v & Ev & Hv).
      apply (wp_lift _ v); [done|]. wp_steps. split; [moved_done|]. by intros _.
    - eapply wp_mono; [by apply decimal_part_moved|]. intros e q [Hq He]. destruct e as [msg|]; wp_steps; [split; [apply moved_fail; [done|congruence]|done]|].
      eapply wp_mono; [apply exponent_part_moved, Hq|]. intros e r [Hr He']. pose proof (moved_trans _ _ _ Hq Hr).
      destruct e as [msg|]; wp_steps; [split; [apply moved_fail; [done|congruence]|done]|]. split; [done|]. by intros _. }
  unfold number_rest. apply wp_bind, wp_peek; [done|intros c _ _; apply H|intros _; apply H].
Qed.

Lemma number_moved p : (i p <= length str)%nat ->
  wp (parse_number str) p (fun j q => moved p q /\ (failed q = false -> (i p < i q)%nat /\ json_ok j /\ nest j = O)).
Proof.
  intros Hi. unfold parse_number. apply wp_bind, wp_position.
  assert (forall neg q, (i q <= length str)%nat -> moved p q -> i q = (i p + if neg : bool then 1 else 0)%nat ->
    (neg = true -> str !! i p = Some 45) ->
    wp (e ← integer_part str; match e with Some msg => fail msg JNull | None => number_rest (i p) end) q
      (fun j q => moved p q /\ (failed q = false -> (i p < i q)%nat /\ json_ok j /\ nest j = O))) as H.
  { intros neg q Hq Hpq Hn Hs. apply wp_bind. eapply wp_mono; [by apply integer_part_exact|].
    intros e r (Hr & Hf & He). destruct e as [msg|]; [wp_steps; split; [apply moved_fail; [by eapply moved_trans|congruence]|done]|]. destruct (He eq_refl) as [Hne ->].
    eapply wp_mono; [apply number_rest_moved; [apply Hr|]|].
    - cbn [ahead i]. intros Hl. apply atoi_short. destruct neg.
      + right. exists (drop (i q) str). rewrite (drop_peek _ _ (Hs eq_refl)), Hn, Nat.add_1_r. split; [done|]. rewrite Hn in Hl.
        rewrite <- (Nat.add_1_r (i p)). lia.
      + left. rewrite Nat.add_0_r in Hn. rewrite Hn in *. split; [done|]. lia.
    - intros j s [Hm Hj]. split; [by do 2 (eapply moved_trans; [done|])|]. intros Hs'. destruct (Hj Hs') as [H1 H2].
      split_and!; try done. destruct (digits_prefix (drop (i q) str)) eqn:E; [done|]. unfold moved, ahead in *. cbn in *. lia. }
  apply wp_bind, wp_peek; [done|..].
  - intros c Hc Hlt. apply wp_bind. destruct (Z.eqb_spec c 45) as [->|].
    + apply wp_advance. apply (H true); cbn; try done; try lia; moved_done.
    + apply wp_ret. apply (H false); try done; try lia; moved_done.
  - intros He. apply wp_bind, wp_ret. apply (H false); try done; try lia; moved_done.
Qed.

Lemma expect_moved s j p : (0 < i p <= length str)%nat -> json_ok j -> nest j = O -> (0 < length (bytes_of s))%nat ->
  wp (expect str s j) p (fun k q => (i q <= length str)%nat /\ (err_ok p -> err_ok q) /\
    (failed q = false -> (i p <= i q)%nat /\ json_ok k /\ nest k = O)).
Proof.
  intros Hi Hj Hn Hs. unfold expect. apply wp_bind, wp_retreat; [lia|]. wp_steps. cbn [i err failed].
  case_bool_decide as E; wp_steps; cbn [i err failed].
  - apply (f_equal length) in E. rewrite length_take, length_drop in E. split_and!; [lia|done|]. intros _. split_and!; [lia|done|done].
  - split_and!; [lia|moved_done|done].
Qed.

(** *** Values *)

(** What a call leaves: it stays inside the text, forgets no failure, and
    without one it has advanced and its value is well formed and nested within
    the limit. *)
Definition returned (depth : Z) (from : nat) (p : JsonParser) (j : Json) (q : JsonParser) : Prop :=
  (i q <= length str)%nat /\ (failed p = true -> failed q = true) /\ (err_ok p -> err_ok q) /\
  (failed q = false -> (from < i q)%nat /\ json_ok j /\ Z.of_nat (nest j) <= max_depth - depth).

Definition array_ok (depth : Z) (data : list Json) : Prop :=
  Forall (fun j => json_ok j /\ Z.of_nat (nest j) < max_depth - depth) data.
Definition object_ok (depth : Z) (data : list (list Z * Json)) : Prop :=
  StronglySorted key_lt data /\ Forall (fun e => bytes_ok e.1 /\ json_ok e.2 /\ Z.of_nat (nest e.2) < max_depth - depth) data.

Lemma array_ok_value depth data : depth <= max_depth -> array_ok depth data ->
  json_ok (JArray data) /\ Z.of_nat (nest (JArray data)) <= max_depth - depth.
Proof.
  intros Hd Ho. split.
  - apply ok_array. eapply Forall_impl; [exact Ho|]. by intros j [].
  - enough (nest (JArray data) <= Z.to_nat (max_depth - depth))%nat by lia. apply nest_array.
    eapply Forall_impl; [exact Ho|]. intros j [_ Hn]. cbn beta. lia.
Qed.
Lemma object_ok_value depth data : depth <= max_depth -> object_ok depth data ->
  json_ok (JObject data) /\ Z.of_nat (nest (JObject data)) <= max_depth - depth.
Proof.
  intros Hd [Hs Ho]. split.
  - apply ok_object. split; [done|]. eapply Forall_impl; [exact Ho|]. by intros e (? & ? & ?).
  - enough (nest (JObject data) <= Z.to_nat (max_depth - depth))%nat by lia. apply nest_object.
    eapply Forall_impl; [exact Ho|]. intros e (_ & _ & Hn). cbn beta. lia.
Qed.
Lemma object_ok_insert depth data key v : object_ok depth data -> bytes_ok key -> json_ok v ->
  Z.of_nat (nest v) < max_depth - depth -> object_ok depth (JsonValue.map_insert key v data).
Proof.
  intros [Hs Ho] Hk Hv Hn. split; [by apply map_insert_sorted|]. apply map_insert_Forall; [done| |done].
  intros k w (Hk' & _ & _) _ _. done.
Qed.

(** Enough fuel: one call suffices behind a failure. *)
Definition json_fuel (p : JsonParser) : nat := if failed p then 1 else (2 * (length str - i p) + 2)%nat.
Definition object_fuel (p : JsonParser) : nat := if failed p then 1 else (2 * (length str - i p) + 3)%nat.
Definition array_fuel (p : JsonParser) : nat := if failed p then 2 else (2 * (length str - i p) + 5)%nat.

Definition json_spec (n : nat) : Prop := forall depth p, (i p <= length str)%nat -> (json_fuel p <= n)%nat ->
  wp (parse_json str strategy n depth) p (returned depth (i p) p).
Definition object_spec (n : nat) : Prop := forall depth data ch p, (i p <= length str)%nat -> (object_fuel p <= n)%nat ->
  depth <= max_depth -> object_ok depth data ->
  wp (object_loop str strategy n depth data ch) p (returned depth (i p) p).
Definition array_spec (n : nat) : Prop := forall depth data p, (0 < i p <= length str)%nat -> (array_fuel p <= n)%nat ->
  depth <= max_depth -> array_ok depth data ->
  wp (array_loop str strategy n depth data) p (returned depth (i p - 1) p).

Lemma returned_failed depth from p j q : (i q <= length str)%nat -> failed q = true -> (err_ok p -> err_ok q) ->
  returned depth from p j q.
Proof. intros Hi Hf He. split_and!; [done|done|done|]. by rewrite Hf. Qed.
Lemma returned_ok depth from p j q : failed p = false -> (i q <= length str)%nat -> (err_ok p -> err_ok q) ->
  (failed q = false -> (from < i q)%nat /\ json_ok j /\ Z.of_nat (nest j) <= max_depth - depth) ->
  returned depth from p j q.
Proof. intros Hf Hi He Hj. split_and!; [done| |done|done]. by rewrite Hf. Qed.
Lemma returned_later depth from from' p p' j q : returned depth from p j q -> (from' <= from)%nat ->
  failed p' = false -> (err_ok p' -> err_ok p) -> returned depth from' p' j q.
Proof. intros (H1 & H2 & H3 & H4) Hf Hp He. apply returned_ok; auto. intros H%H4. intuition lia. Qed.
Ltac not_failed p := destruct (failed p) eqn:?; [exfalso|done]; unfold moved in *; intuition congruence.
Ltac fail_done := apply returned_failed; [moved_done | done | moved_done].

Lemma array_step n : json_spec n -> array_spec n -> array_spec (S n).
Proof.
  intros Hj Ha depth data p Hi Hn Hd Ho. cbn [array_loop]. apply wp_bind, wp_retreat; [lia|].
  apply wp_bind. eapply wp_mono; [apply Hj; cbn [i]; [lia|unfold array_fuel, json_fuel in *; cbn; destruct (failed p); lia]|].
  intros v q (Hq & Hf & Hqe & Hv). cbn [i failed] in *. wp_steps. destruct (failed q) eqn:Eq; wp_steps; [fail_done|].
  destruct (Hv eq_refl) as (Hlt & Hok & Hnest). assert (array_ok depth (data ++ [v])) as Ho'.
  { apply Forall_snoc; [done|]. split; [done|]. lia. }
  assert (failed p = false) as Ep by not_failed p.
  eapply wp_mono; [by apply token_moved|]. intros ch r [Hr Hr2]. unfold array_fuel in Hn. rewrite Ep in Hn.
  destruct (ch =? 93); wp_steps.
  { apply returned_ok; [done|moved_done|moved_done|]. intros _. split; [unfold moved in Hr; lia|]. by apply array_ok_value. }
  destruct (negb (ch =? 44)); wp_steps; [fail_done|].
  eapply wp_mono; [apply token_moved, Hr|]. intros ch' s [Hs Hs2].
  pose proof (moved_trans _ _ _ Hr Hs) as Hqs. destruct Hs as (Hs & Hs1 & Hs3), Hr as (Hr & Hr1 & Hr3).
  eapply wp_mono; [apply Ha; [lia| |done|done]|].
  - unfold array_fuel. destruct (failed s) eqn:Es; [lia|]. destruct (Hs2 eq_refl) as [? _].
    assert (failed r = false) as Er by not_failed r. destruct (Hr2 Er) as [? _]. lia.
  - intros j t Ht. eapply returned_later; [exact Ht|lia|done|moved_done].
Qed.

Lemma object_step n : json_spec n -> object_spec n -> object_spec (S n).
Proof.
  intros Hj Ha depth data ch p Hi Hn Hd Ho. cbn [object_loop].
  destruct (negb (ch =? 34)); wp_steps; [fail_done|].
  eapply wp_mono; [by apply parse_string_moved|]. intros key q [Hq Hkey]. wp_steps.
  destruct (failed q) eqn:Eq; wp_steps; [fail_done|].
  assert (failed p = false) as Ep by not_failed p.
  unfold object_fuel in Hn. rewrite Ep in Hn. eapply wp_mono; [apply token_moved, Hq|]. intros c r [Hr Hr2].
  destruct (negb (c =? 58)); wp_steps; [fail_done|].
  pose proof (moved_trans _ _ _ Hq Hr) as Hpr. destruct Hr as (Hr & Hr1 & Hr3), Hq as (Hq & _ & Hq3).
  eapply wp_mono; [apply Hj; [lia|unfold json_fuel; destruct (failed r); lia]|].
  intros v s (Hs & Hf & Hse & Hv). wp_steps. destruct (failed s) eqn:Es; wp_steps; [fail_done|].
  destruct (Hv eq_refl) as (Hlt & Hok & Hnest).
  assert (object_ok depth (JsonValue.map_insert key v data)) as Ho' by (apply object_ok_insert; [done..|lia]).
  eapply wp_mono; [by apply token_moved|]. intros c' t [(Ht & Ht1 & Ht3) Ht2]. destruct (c' =? 125); wp_steps.
  { apply returned_ok; [done|lia|moved_done|]. intros _. split; [lia|]. by apply object_ok_value. }
  destruct (negb (c' =? 44)); wp_steps; [fail_done|].
  eapply wp_mono; [apply token_moved; lia|]. intros c'' u [(Hu & Hu1 & Hu3) Hu2].
  eapply wp_mono; [apply Ha; [lia| |done|done]|].
  - unfold object_fuel. destruct (failed u) eqn:Eu; [lia|]. destruct (Hu2 eq_refl) as [? _]. lia.
  - intros j w Hw. eapply returned_later; [exact Hw|lia|done|moved_done].
Qed.

Lemma json_step n : object_spec n -> array_spec n -> json_spec (S n).
Proof.
  intros Ho Ha depth p Hi Hn. cbn [parse_json]. destruct (Z.ltb_spec max_depth depth) as [|Hd]; [wp_steps; fail_done|].
  apply wp_bind. eapply wp_mono; [by apply token_moved|]. intros ch q [(Hq & Hq1 & Hq3) Hq2]. wp_steps.
  destruct (failed q) eqn:Eq; wp_steps; [fail_done|]. destruct (Hq2 eq_refl) as [Hlt _].
  assert (failed p = false) as Ep by not_failed p.
  unfold json_fuel in Hn. rewrite Ep in Hn.
  assert (forall s j, json_ok j -> nest j = O -> (0 < length (bytes_of s))%nat -> wp (expect str s j) q (returned depth (i p) p)) as Hx.
  { intros s j Hj Hnj Hs. eapply wp_mono; [apply expect_moved; [lia|done..]|]. intros k r (Hr & Hr3 & Hr1).
    apply returned_ok; [done|done|moved_done|]. intros H%Hr1. intuition lia. }
  destruct (_ || _); wp_steps.
  { apply wp_retreat; [lia|]. eapply wp_mono; [apply number_moved; cbn; lia|]. intros j r [(Hr & Hr1 & Hr3) Hr2]. cbn in *.
    apply returned_ok; [done|lia|moved_done|]. intros H%Hr2. intuition lia. }
  destruct (ch =? 116); [by apply Hx; cbn; try lia|]. destruct (ch =? 102); [by apply Hx; cbn; try lia|].
  destruct (ch =? 110); [by apply Hx; cbn; try lia|]. destruct (ch =? 34); wp_steps.
  { eapply wp_mono; [apply parse_string_moved; lia|]. intros s r [(Hr & Hr1 & Hr3) Hs]. wp_steps.
    apply returned_ok; [done|lia|moved_done|]. intros H. split_and!; [lia|done|cbn; lia]. }
  assert (forall j, json_ok j -> nest j = O -> wp (get_next_token str strategy) q (fun c r => returned depth (i p) p j r)) as He.
  { intros j Hj Hnj. eapply wp_mono; [apply token_moved; lia|]. intros c r [(Hr & Hr1 & Hr3) Hr2].
    apply returned_ok; [done|lia|moved_done|]. intros H. split_and!; [lia|done|lia]. }
  destruct (ch =? 123); wp_steps.
  { eapply wp_mono; [apply token_moved; lia|]. intros c r [(Hr & Hr1 & Hr3) Hr2]. destruct (c =? 125); wp_steps.
    - apply returned_ok; [done|lia|moved_done|]. intros H. split_and!; [lia|apply ok_object; by repeat constructor|cbn; lia].
    - eapply wp_mono; [apply Ho; [lia| |done|by repeat constructor]|].
      + unfold object_fuel. destruct (failed r); [lia|]. destruct (Hr2 eq_refl). lia.
      + intros j s Hs. eapply returned_later; [exact Hs|lia|done|moved_done]. }
  destruct (ch =? 91); wp_steps; [|fail_done].
  eapply wp_mono; [apply token_moved; lia|]. intros c r [(Hr & Hr1 & Hr3) Hr2]. destruct (c =? 93); wp_steps.
  - apply returned_ok; [done|lia|moved_done|]. intros H. split_and!; [lia|done|cbn; lia].
  - eapply wp_mono; [apply Ha; [lia| |done|by constructor]|].
    + unfold array_fuel. destruct (failed r); [lia|]. destruct (Hr2 eq_refl). lia.
    + intros j s Hs. eapply returned_later; [exact Hs|lia|done|moved_done].
Qed.

Lemma specs n : json_spec n /\ object_spec n /\ array_spec n.
Proof.
  induction n as [|n (Hj & Ho & Ha)].
  - unfold json_spec, object_spec, array_spec, json_fuel, object_fuel, array_fuel.
    split_and!; intros; exfalso; destruct (failed p); lia.
  - split_and!; [by apply json_step|by apply object_step|by apply array_step].
Qed.

Lemma json_returns depth p : (i p <= length str)%nat ->
  wp (parse_json str strategy (parse_fuel str) depth) p (returned depth (i p) p).
Proof.
  intros Hi. destruct (specs (parse_fuel str)) as [Hj _]. apply Hj; [done|].
  unfold json_fuel, parse_fuel, Parser.size. destruct (failed p); lia.
Qed.

(** The parser returns on every text, and a value without a message is well
    formed. *)
Lemma parse_returns : exists j e, parse str strategy = Ok (j, e) /\
  (e = [] -> json_ok j /\ Z.of_nat (nest j) <= max_depth).
Proof.
  unfold parse. pose proof (json_returns 0 (MkJsonParser 0 [] false) ltac:(cbn; lia)) as H.
  unfold wp in H. destruct (parse_json _ _ _ _ _) as [[j p]| | |]; try done. destruct H as (Hp & _ & He & Hv).
  cbn [i failed] in *. rewrite bind_Ok. specialize (He eq_refl).
  pose proof (garbage_moved p Hp) as H. unfold wp in H. destruct (consume_garbage _ _ _) as [[[] q]| | |]; try done.
  destruct H as (Hq & Hf & Hqe). rewrite bind_Ok. specialize (Hqe He). unfold Parser.size.
  destruct (Nat.eqb_spec (i q) (length str)) as [E|E]; cbn [negb].
  - do 2 eexists. split; [done|]. intros Hq0. unfold err_ok in Hqe. destruct (failed q); [done|].
    destruct (failed p) eqn:Ep; [by specialize (Hf eq_refl)|]. destruct (Hv eq_refl) as (_ & Hj & Hn). split; [done|lia].
  - unfold char_at. destruct (lookup_lt_is_Some_2 str (i q)) as [c Hc]; [lia|]. rewrite Hc. cbn.
    do 2 eexists. split; [done|]. unfold err_ok in Hqe. intros E'. destruct (failed q); done.
Qed.

(** So does the parser of several values: each of them takes a character. *)
Lemma multi_returns n vec stop p : (i p <= length str)%nat -> (length str - i p < n)%nat -> (stop <= length str)%nat ->
  exists vec' stop' e, multi_loop str strategy n vec stop p = Ok (vec', stop', e) /\ (stop' <= length str)%nat.
Proof.
  revert vec stop p. induction n as [|n IH]; intros vec stop p Hi Hn Hs; [lia|]. cbn [multi_loop]. unfold Parser.size.
  destruct (Nat.eqb_spec (i p) (length str)) as [E|E]; [by do 3 eexists|]. cbn [orb].
  destruct (failed p) eqn:Ep; [by do 3 eexists|].
  pose proof (json_returns 0 p Hi) as H. unfold wp in H. destruct (parse_json _ _ _ _ _) as [[j q]| | |]; try done.
  destruct H as (Hq & _ & _ & Hv). rewrite bind_Ok.
  pose proof (garbage_moved q Hq) as H. unfold wp in H. destruct (consume_garbage _ _ _) as [[[] r]| | |]; try done.
  destruct H as (Hr & Hf & _). rewrite bind_Ok. destruct (failed r) eqn:Er.
  - destruct n as [|n]; [lia|]. cbn [multi_loop]. rewrite Er, orb_true_r. by do 3 eexists.
  - destruct (failed q) eqn:Eq; [by specialize (Hf eq_refl)|]. destruct (Hv eq_refl) as [? _]. apply IH; lia.
Qed.
End Total.
