(* ===== verification/JsonRoundTrip.v ===== *)
(** The JSON parser reads back what the printer wrote. *)
From stdpp Require Import base list numbers option strings sorting.
From Stdlib Require Import ZArith Lia SpecFloat.
From S2P Require Import Prelude Encode HwAddr Text Json JsonFacts.
Import Parser.

(** Values whose numbers are integers. *)
Fixpoint integral (j : Json) : Prop :=
  match j with
  | JNumber (NDouble _) => False
  | JArray l => foldr (fun j P => integral j /\ P) True l
  | JObject m => foldr (fun e P => integral e.2 /\ P) True m
  | _ => True
  end.

(** What is read back: an integer of more than nine characters is read as a
    [double]. *)
Definition renumber (v : Z) : number :=
  if (length (int_text v) <=? digits10)%nat then NInt v else NDouble (Double.of_int v).
Fixpoint reparse (j : Json) : Json :=
  match j with
  | JNumber (NInt v) => JNumber (renumber v)
  | JArray l => JArray (reparse <$> l)
  | JObject m => JObject ((fun e => (e.1, reparse e.2)) <$> m)
  | j => j
  end.

Lemma integral_array l : integral (JArray l) <-> Forall integral l.
Proof. cbn [integral]. induction l as [|j l IH]; cbn [foldr]; [by rewrite Forall_nil|]. by rewrite Forall_cons, IH. Qed.
Lemma integral_object m : integral (JObject m) <-> Forall (fun e => integral e.2) m.
Proof. cbn [integral]. induction m as [|j m IH]; cbn [foldr]; [by rewrite Forall_nil|]. by rewrite Forall_cons, IH. Qed.

Definition st (k : nat) : JsonParser := MkJsonParser k [] false.

Lemma st_eq {A} (x : A) a b : a = b -> Ok (x, st a) = Ok (x, st b).
Proof. by intros ->. Qed.

Lemma bind_run {A B} (m : M A) (k : A -> M B) p a q : m p = Ok (a, q) -> (m ≫= k) p = k a q.
Proof. intros H. unfold mbind, M_bind. by rewrite H. Qed.

Section Text.
Variable str : list Z.
Variable strategy : JsonParse.

(** ** Reading a text that is known at the position *)
Lemma drop_lookup k c r : drop k str = c :: r -> str !! k = Some c.
Proof. intros H. pose proof (lookup_drop str k 0) as E. rewrite H, Nat.add_0_r in E. by rewrite <- E. Qed.
Lemma drop_length_cons k c r : drop k str = c :: r -> (k < length str)%nat.
Proof. intros H%drop_lookup. by apply lookup_lt_Some in H. Qed.
Lemma drop_past k t r : drop k str = t ++ r -> drop (k + length t) str = r.
Proof. intros H. by rewrite <- drop_drop, H, drop_app_length. Qed.
Lemma drop_next k c r : drop k str = c :: r -> drop (S k) str = r.
Proof. intros H. rewrite <- Nat.add_1_r. by apply (drop_past k [c]). Qed.
Lemma drop_len k r : drop k str = r -> r <> [] -> (length str = k + length r)%nat.
Proof. intros <- H. rewrite length_drop. destruct (decide (k <= length str)%nat); [lia|]. by rewrite drop_ge in H by lia. Qed.

Lemma peek_run k c r : drop k str = c :: r -> peek str (st k) = Ok (c, st k).
Proof. intros H%drop_lookup. unfold peek. erewrite bind_run by reflexivity. unfold lift, char_at. cbn [i st]. by rewrite H. Qed.
Lemma peek_end k : k = length str -> peek str (st k) = Ok (0, st k).
Proof.
  intros ->. unfold peek. erewrite bind_run by reflexivity. unfold lift, char_at. cbn [i st]. rewrite lookup_ge_None_2 by done.
  unfold Parser.size. by rewrite Nat.eqb_refl.
Qed.
Lemma next_run k c r : drop k str = c :: r -> next str (st k) = Ok (c, st (S k)).
Proof. intros H. unfold next. erewrite bind_run by (by eapply peek_run). erewrite bind_run by reflexivity. unfold st. cbn. by rewrite Nat.add_1_r. Qed.
Lemma at_end_run k c r : drop k str = c :: r -> at_end str (st k) = Ok (false, st k).
Proof.
  intros H%drop_length_cons. unfold at_end. erewrite bind_run by reflexivity. unfold Parser.size. cbn [i st].
  by rewrite (proj2 (Nat.eqb_neq _ _)) by lia.
Qed.

Lemma whitespace_run n k w c r : drop k str = w ++ c :: r -> forallb whitespace w = true -> whitespace c = false -> (length w < n)%nat ->
  whitespace_loop str n (st k) = Ok (tt, st (k + length w)).
Proof.
  intros H Hw Hc. revert k n H. induction w as [|x w IH]; intros k n H Hn; (destruct n as [|n]; [cbn in Hn; lia|]); cbn [whitespace_loop].
  - erewrite bind_run by (by eapply peek_run). rewrite Hc. cbn. by rewrite Nat.add_0_r.
  - apply andb_prop in Hw as [Hx Hw]. erewrite bind_run by (by eapply peek_run). rewrite Hx.
    erewrite bind_run by reflexivity. cbn [length] in *. change (MkJsonParser (i (st k) + 1) _ _) with (st (k + 1)).
    rewrite Nat.add_1_r. rewrite IH; [|done| |lia].
    + do 3 f_equal. lia.
    + by eapply drop_next.
Qed.

Lemma garbage_run k w c r : drop k str = w ++ c :: r -> forallb whitespace w = true -> whitespace c = false -> c <> 47 ->
  consume_garbage str strategy (st k) = Ok (tt, st (k + length w)).
Proof.
  intros H Hw Hc H47. assert (length w < fuel str)%nat as Hf.
  { apply drop_len in H; [|by destruct w]. rewrite length_app in H. cbn in H. unfold fuel, Parser.size. lia. }
  pose proof (drop_past _ _ _ H) as H'. unfold consume_garbage, consume_whitespace.
  erewrite bind_run by (by eapply whitespace_run). destruct strategy; [done|]. unfold fuel at 1. cbn [comments_loop].
  erewrite bind_run.
  2:{ unfold consume_comment. erewrite bind_run by (by eapply peek_run). rewrite (proj2 (Z.eqb_neq _ _)) by done. reflexivity. }
  erewrite bind_run.
  2:{ apply (whitespace_run _ _ [] c r); [done|done|done|]. cbn. unfold fuel. lia. }
  cbn. by rewrite Nat.add_0_r.
Qed.

Lemma token_run k w c r : drop k str = w ++ c :: r -> forallb whitespace w = true -> whitespace c = false -> c <> 47 ->
  get_next_token str strategy (st k) = Ok (c, st (S (k + length w))).
Proof.
  intros H Hw Hc H47. pose proof (drop_past _ _ _ H) as H'. unfold get_next_token.
  erewrite bind_run by (by eapply garbage_run). erewrite bind_run by (by eapply at_end_run). by eapply next_run.
Qed.

Ltac run lem := erewrite bind_run by (by eapply lem); cbv beta iota.

(** ** Strings *)
Lemma hex4_checked : forallb (fun k => let t := Dump.hex4 (Z.of_nat k) in
  (length t =? 4)%nat && forallb hex_char t && (strtol16 t =? Z.of_nat k)) (seq 0 32) = true.
Proof. vm_compute. reflexivity. Qed.
Lemma hex4_ok c : 0 <= c <= 31 -> length (Dump.hex4 c) = 4%nat /\ forallb hex_char (Dump.hex4 c) = true /\ strtol16 (Dump.hex4 c) = c.
Proof.
  intros Hc. pose proof hex4_checked as H. rewrite forallb_forall in H. specialize (H (Z.to_nat c)).
  rewrite Z2Nat.id in H by lia. rewrite in_seq in H. specialize (H ltac:(lia)). cbn zeta in H.
  apply andb_prop in H as [[H1%Nat.eqb_eq H2]%andb_prop H3%Z.eqb_eq]. done.
Qed.

(** A pending code point that starts no surrogate pair. *)
Definition quiet (last : Z) : Prop := in_range last 0xD800 0xDBFF = false.

(** The loop reads [t], adding [add] to the text and what is pending. *)
Definition reads (t add : list Z) : Prop := forall n k r out last, drop k str = t ++ r -> quiet last ->
  exists out' last', quiet last' /\ out' ++ encode_utf8 last' = out ++ encode_utf8 last ++ add /\
    string_loop str (S n) out last (st k) = string_loop str n out' last' (st (k + length t)).

Lemma reads_plain c : 32 <= c < 256 -> c <> 34 -> c <> 92 -> reads [c] [c].
Proof.
  intros Hc H34 H92 n k r out last H Hl. exists (out ++ encode_utf8 last ++ [c]), (-1). split; [done|].
  split; [by rewrite <- !app_assoc|]. cbn [app] in H. cbn [string_loop].
  run at_end_run. run next_run.
  rewrite (proj2 (Z.eqb_neq c 34)), (proj2 (Z.eqb_neq c 92)) by done.
  assert (in_range (s8 c) 0 31 = false) as ->. { unfold in_range, s8. zdiv. }
  cbn [length]. by rewrite Nat.add_1_r.
Qed.

Lemma reads_escape e c : escape_char e = Some c -> e <> 117 -> reads [92; e] [c].
Proof.
  intros He Hu n k r out last H Hl. exists ((out ++ encode_utf8 last) ++ [c]), (-1). split; [done|].
  split; [by rewrite <- !app_assoc|]. cbn [app] in H. cbn [string_loop]. pose proof (drop_next _ _ _ H) as H'.
  run at_end_run. run next_run. cbn [Z.eqb Pos.eqb].
  change (in_range (s8 92) 0 31) with false. cbn [negb].
  run at_end_run. run next_run.
  rewrite (proj2 (Z.eqb_neq e 117)), He by done. cbn [length]. do 2 f_equal. lia.
Qed.

Lemma reads_codepoint t cp u : length t = 4%nat -> forallb hex_char t = true -> strtol16 t = cp -> quiet cp ->
  encode_utf8 cp = u -> reads (92 :: 117 :: t) u.
Proof.
  intros Hl Hh Ht Hq Hu n k r out last H Hla. exists (out ++ encode_utf8 last), cp. split; [done|].
  split; [by rewrite <- !app_assoc, Hu|]. cbn [app] in H. cbn [string_loop]. pose proof (drop_next _ _ _ H) as H'.
  run at_end_run. run next_run. cbn [Z.eqb Pos.eqb].
  change (in_range (s8 92) 0 31) with false. cbn [negb].
  run at_end_run. run next_run. cbn [Z.eqb Pos.eqb].
  erewrite bind_run by reflexivity; cbv beta iota. cbn [i st]. pose proof (drop_next _ _ _ H') as ->. rewrite take_app_length' by done.
  rewrite Hl, Hh. cbn [Nat.ltb Nat.leb negb orb]. unfold add_codepoint. unfold quiet in Hla. rewrite Hla. cbn [andb].
  erewrite bind_run by reflexivity; cbv beta iota. rewrite Ht. unfold st. cbn [i err failed length]. rewrite Hl. do 2 f_equal. lia.
Qed.

Lemma reads_char c : byte_ok c -> reads (Dump.dump_char c) [c].
Proof.
  intros Hc. unfold Dump.dump_char, byte_ok in *.
  destruct (Z.eqb_spec c 92) as [->|]; [by apply reads_escape|]. destruct (Z.eqb_spec c 34) as [->|]; [by apply reads_escape|].
  destruct (Z.eqb_spec c 8) as [->|]; [by apply reads_escape|]. destruct (Z.eqb_spec c 12) as [->|]; [by apply reads_escape|].
  destruct (Z.eqb_spec c 10) as [->|]; [by apply reads_escape|]. destruct (Z.eqb_spec c 13) as [->|]; [by apply reads_escape|].
  destruct (Z.eqb_spec c 9) as [->|]; [by apply reads_escape|].
  destruct (Z.leb_spec c 31); [|apply reads_plain; lia || done].
  destruct (hex4_ok c) as (H1 & H2 & H3); [lia|]. eapply reads_codepoint; [done|done|done| |].
  - unfold quiet, in_range. lia.
  - unfold encode_utf8. rewrite (proj2 (Z.ltb_ge c 0)), (proj2 (Z.ltb_lt c 0x80)) by lia. by rewrite u8_small by (unfold byte_ok; lia).
Qed.

Lemma dump_chars_cons c s :
  (exists d s', (d = 168 \/ d = 169) /\ c :: s = 226 :: 128 :: d :: s' /\
     Dump.dump_chars (c :: s) = (92 :: 117 :: 50 :: 48 :: 50 :: (d - 112) :: Dump.dump_chars s')) \/
  Dump.dump_chars (c :: s) = Dump.dump_char c ++ Dump.dump_chars s.
Proof.
  destruct (Z.eq_dec c 226) as [->|Hc]; [|right; cbn; repeat (case_match; try done)].
  destruct s as [|b s]; [by right|]. destruct (Z.eq_dec b 128) as [->|Hb]; [|right; cbn; repeat (case_match; try done)].
  destruct s as [|d s]; [by right|]. destruct (Z.eq_dec d 168) as [->|H1]; [left; exists 168, s; auto|].
  destruct (Z.eq_dec d 169) as [->|H2]; [left; exists 169, s; auto|]. right. cbn. repeat (case_match; try done).
Qed.

Lemma reads_separator d : d = 168 \/ d = 169 -> reads [92; 117; 50; 48; 50; d - 112] [226; 128; d].
Proof. intros [-> | ->]; by eapply reads_codepoint. Qed.

(** The text of [s] is a sequence of readable pieces. *)
Inductive pieces : list Z -> list Z -> Prop :=
| pieces_nil : pieces [] []
| pieces_cons t add ts s : reads t add -> (0 < length t)%nat -> pieces ts s -> pieces (t ++ ts) (add ++ s).

Lemma dump_char_length c : (0 < length (Dump.dump_char c))%nat.
Proof. unfold Dump.dump_char. repeat case_match; cbn; lia. Qed.

Lemma chars_pieces s : bytes_ok s -> pieces (Dump.dump_chars s) s.
Proof.
  induction s as [s IH] using (induction_ltof1 _ length). unfold ltof in IH. intros Hs.
  destruct s as [|c s]; [constructor|]. destruct (dump_chars_cons c s) as [(d & s' & Hd & E & ->)| ->].
  - rewrite E in *. apply Forall_app with (l1 := [226; 128; d]) in Hs as [_ Hs].
    apply (pieces_cons [92; 117; 50; 48; 50; d - 112] [226; 128; d]); [by apply reads_separator|cbn; lia|].
    apply IH; [cbn; lia|done].
  - apply Forall_cons in Hs as [Hc Hs]. apply (pieces_cons (Dump.dump_char c) [c]); [by apply reads_char|apply dump_char_length|].
    apply IH; [cbn; lia|done].
Qed.

Lemma pieces_run t s : pieces t s -> forall n k r out last, drop k str = t ++ 34 :: r -> quiet last -> (length t < n)%nat ->
  string_loop str n out last (st k) = Ok (out ++ encode_utf8 last ++ s, st (S (k + length t))).
Proof.
  induction 1 as [|t add ts s Ht Hl Hp IH]; intros n k r out last H Hq Hn.
  - destruct n as [|n]; [cbn in Hn; lia|]. cbn [string_loop app] in *. run at_end_run. run next_run. cbn.
    by rewrite app_nil_r, Nat.add_0_r.
  - rewrite length_app in Hn. destruct n as [|n]; [lia|]. rewrite <- app_assoc in H.
    destruct (Ht n k _ out last H Hq) as (out' & last' & Hq' & Ho & ->). erewrite IH; [|by eapply drop_past|done|lia].
    rewrite app_assoc, Ho, <- !app_assoc, length_app. do 4 f_equal. lia.
Qed.

Lemma string_run s k r : bytes_ok s -> drop k str = Dump.dump_chars s ++ 34 :: r ->
  parse_string str (st k) = Ok (s, st (S (k + length (Dump.dump_chars s)))).
Proof.
  intros Hs H. unfold parse_string. erewrite pieces_run; [done|by apply chars_pieces|exact H|done|].
  apply drop_len in H; [|by destruct (Dump.dump_chars s)]. rewrite length_app in H. unfold fuel, Parser.size. cbn in H. lia.
Qed.

(** ** Numbers *)

(** The text behind a value: its end or a delimiter. *)
Definition delim (r : list Z) : Prop := match r with [] => True | c :: _ => c = 44 \/ c = 93 \/ c = 125 end.

Lemma digits_prefix_app t r : forallb isdigit t = true -> delim r -> digits_prefix (t ++ r) = t.
Proof.
  intros Ht Hr. induction t as [|c t IH]; cbn.
  - destruct r as [|c r]; [done|]. cbn in *. by destruct Hr as [-> |[-> | ->]].
  - apply andb_prop in Ht as [-> Ht]. by rewrite IH.
Qed.

Lemma peek_delim k t r : drop k str = t ++ r -> t <> [] -> delim r -> exists c, peek str (st (k + length t)) = Ok (c, st (k + length t)) /\
  (c = 0 \/ c = 44 \/ c = 93 \/ c = 125).
Proof.
  intros H Ht Hr. pose proof (drop_past _ _ _ H) as H'. destruct r as [|c r].
  - exists 0. split; [|auto]. apply peek_end. rewrite app_nil_r in H. apply drop_len in H; [lia|done].
  - exists c. split; [by eapply peek_run|]. auto.
Qed.

Lemma digits_run n k t r : drop k str = t ++ r -> forallb isdigit t = true -> t <> [] -> delim r -> (length t < n)%nat ->
  digits_loop str n (st k) = Ok (tt, st (k + length t)).
Proof.
  intros H Ht Hne Hr Hn. assert (k <= length str)%nat as Hk by (apply drop_len in H; [lia|by destruct t]).
  revert k n H Hn Hk. induction t as [|c t IH]; intros k n H Hn Hk; [done|]. destruct n as [|n]; [cbn in Hn; lia|].
  cbn [digits_loop]. cbn in Ht. apply andb_prop in Ht as [Hc Ht]. cbn [app] in H. run peek_run.
  change (in_range c 48 57) with (isdigit c). rewrite Hc. erewrite bind_run by reflexivity. cbv beta iota.
  change (MkJsonParser (i (st k) + 1) _ _) with (st (k + 1)). rewrite Nat.add_1_r. cbn [length] in *.
  destruct t as [|d t].
  - destruct n as [|n]; [cbn in Hn; lia|]. cbn [digits_loop]. destruct (peek_delim k [c] r) as (x & Hx & Hx'); [done|done|done|].
    cbn [length] in Hx. rewrite Nat.add_1_r in Hx. erewrite bind_run by exact Hx. rewrite Nat.add_1_r.
    destruct Hx' as [-> |[-> |[-> | ->]]]; done.
  - rewrite IH; [do 3 f_equal; lia|done|done|by eapply drop_next|lia|]. apply drop_next, drop_len in H; [lia|done].
Qed.

Lemma integer_part_run k t r : drop k str = t ++ r -> forallb isdigit t = true -> (t = [48] \/ exists c u, t = c :: u /\ c <> 48) ->
  delim r -> integer_part str (st k) = Ok (None, st (k + length t)).
Proof.
  intros H Ht Hh Hr. unfold integer_part. assert (length t < fuel str)%nat as Hf.
  { unfold fuel, Parser.size. assert (t ++ r <> []) as Hne by (destruct Hh as [-> |(c & u & -> & _)]; done).
    apply drop_len in H; [|done]. rewrite length_app in H. lia. }
  destruct Hh as [-> |(c & u & -> & Hc)].
  - run peek_run. cbn [Z.eqb Pos.eqb]. erewrite bind_run by reflexivity.
    destruct (peek_delim k [48] r) as (x & Hx & Hx'); [done|done|done|]. cbn [length] in Hx. erewrite bind_run by exact Hx.
    destruct Hx' as [-> |[-> |[-> | ->]]]; done.
  - cbn [app] in H. run peek_run. rewrite (proj2 (Z.eqb_neq c 48)) by done. cbn in Ht. apply andb_prop in Ht as [Hd Hu].
    assert (in_range c 49 57 = true) as -> by (unfold isdigit, in_range in *; lia). erewrite bind_run by reflexivity. cbv beta iota.
    change (MkJsonParser (i (st k) + 1) _ _) with (st (k + 1)). cbn [length] in *. destruct u as [|d u].
    + destruct (peek_delim k [c] r) as (x & Hx & Hx'); [done|done|done|]. cbn [length] in Hx. erewrite bind_run.
      2:{ unfold fuel at 1. cbn [digits_loop]. erewrite bind_run by exact Hx. destruct Hx' as [-> |[-> |[-> | ->]]]; reflexivity. }
      done.
    + assert (digits_loop str (fuel str) (st (k + 1)) = Ok (tt, st (k + 1 + length (d :: u)))) as Hrun.
      { apply (digits_run _ _ _ r); [|done|done|done|cbn [length] in *; lia]. rewrite Nat.add_1_r. by eapply drop_next. }
      erewrite bind_run by exact Hrun. cbn [length]. by rewrite <- (Nat.add_assoc k 1).
Qed.

Lemma decimal_part_none k c : peek str (st k) = Ok (c, st k) -> c <> 46 -> decimal_part str (st k) = Ok (None, st k).
Proof. intros Hp Hc. unfold decimal_part. erewrite bind_run by exact Hp. by rewrite (proj2 (Z.eqb_neq c 46)) by done. Qed.
Lemma exponent_part_none k c : peek str (st k) = Ok (c, st k) -> c <> 101 -> c <> 69 -> exponent_part str (st k) = Ok (None, st k).
Proof.
  intros Hp H1 H2. unfold exponent_part. erewrite bind_run by exact Hp.
  by rewrite (proj2 (Z.eqb_neq c 101)), (proj2 (Z.eqb_neq c 69)) by done.
Qed.

Lemma number_rest_run start k c v : peek str (st k) = Ok (c, st k) -> (c = 0 \/ c = 44 \/ c = 93 \/ c = 125) ->
  ((k - start <= digits10)%nat -> atoi (drop start str) = Ok v) ->
  ((digits10 < k - start)%nat -> Double.strtod (drop start str) = Double.of_int v) ->
  number_rest str start (st k) = Ok (JNumber (if (k - start <=? digits10)%nat then NInt v else NDouble (Double.of_int v)), st k).
Proof.
  intros Hp Hc Ha Hs. assert (c <> 46 /\ c <> 101 /\ c <> 69) as (H1 & H2 & H3) by lia. unfold number_rest.
  erewrite bind_run by exact Hp. erewrite bind_run by reflexivity. cbn [i st].
  rewrite (proj2 (Z.eqb_neq c 46)), (proj2 (Z.eqb_neq c 101)), (proj2 (Z.eqb_neq c 69)) by done. cbn [negb andb].
  destruct (Nat.leb_spec (k - start) digits10) as [Hl|Hl].
  - erewrite bind_run by (unfold lift; by rewrite Ha). done.
  - change (MkJsonParser k [] false) with (st k). erewrite bind_run by (by eapply decimal_part_none). cbv iota beta.
    erewrite bind_run by (by eapply exponent_part_none). cbv iota beta. by rewrite Hs.
Qed.

(** [strtod] of an integer *)
Lemma strtod_digits t r : forallb isdigit t = true -> t <> [] -> delim r ->
  Double.strtod (t ++ r) = Double.of_decimal false (decimal_value t) 0.
Proof.
  intros Ht Hn Hr. unfold Double.strtod. destruct t as [|c t]; [done|].
  assert (match (c :: t) ++ r with 45 :: s => (true, s) | _ => (false, (c :: t) ++ r) end = (false, (c :: t) ++ r)) as ->.
  { cbn in *. apply andb_prop in Ht as [Hc _]. unfold isdigit in Hc. repeat (case_match; try done). }
  rewrite digits_prefix_app, drop_app_length by done.
  destruct r as [|x r]; [by rewrite app_nil_r|]. destruct Hr as [-> |[-> | ->]]; by rewrite app_nil_r.
Qed.
Lemma strtod_minus t r : forallb isdigit t = true -> delim r ->
  Double.strtod (45 :: t ++ r) = Double.of_decimal true (decimal_value t) 0.
Proof.
  intros Ht Hr. unfold Double.strtod. rewrite digits_prefix_app, drop_app_length by done.
  destruct r as [|x r]; [by rewrite app_nil_r|]. destruct Hr as [-> |[-> | ->]]; by rewrite app_nil_r.
Qed.
Lemma of_decimal_int s z : 0 < z -> Double.of_decimal s z 0 = Double.of_int (if s then - z else z).
Proof.
  intros Hz. destruct z as [|p|p]; [lia| |lia]. unfold Double.of_decimal. change (0 <=? 0) with true.
  change (10 ^ 0) with 1. rewrite Z.mul_1_r. by destruct s.
Qed.

Lemma unsigned_shape z : 0 <= z -> forallb isdigit (unsigned_text 10 z) = true /\ unsigned_text 10 z <> [] /\
  (unsigned_text 10 z = [48] \/ exists c u, unsigned_text 10 z = c :: u /\ c <> 48).
Proof.
  intros Hz. pose proof (unsigned_text_decimal z Hz) as [Hn Hd]%andb_prop. split; [done|].
  split; [by intros E; rewrite E in Hn|]. destruct (decide (z = 0)) as [->|]; [by left|right]. apply unsigned_text_head. lia.
Qed.

Lemma number_run v k r : - 2^31 <= v < 2^31 -> drop k str = int_text v ++ r -> delim r ->
  parse_number str (st k) = Ok (JNumber (renumber v), st (k + length (int_text v))).
Proof.
  intros Hv H Hr. unfold parse_number. erewrite bind_run by reflexivity. cbn [i st]. unfold renumber, int_text in *.
  destruct (Z.ltb_spec v 0) as [Hneg|Hpos].
  - destruct (unsigned_shape (- v)) as (Hd & Hne & Hh); [lia|]. pose proof (unsigned_text_value (- v) ltac:(lia)) as Hval.
    set (t := unsigned_text 10 (- v)) in *. cbn [app] in H. change (MkJsonParser k [] false) with (st k). run peek_run. cbn [Z.eqb Pos.eqb].
    erewrite bind_run by reflexivity. cbv beta. change (MkJsonParser (i (st k) + 1) _ _) with (st (k + 1)).
    pose proof (drop_next _ _ _ H) as H'. rewrite <- (Nat.add_1_r k) in H'.
    erewrite bind_run by (by eapply integer_part_run). cbv beta iota. destruct (peek_delim _ _ _ H') as (c & Hc & Hc'); [done|done|].
    etransitivity; [apply (number_rest_run k _ c v Hc Hc')|]; rewrite ?H.
    + intros Hl. rewrite atoi_minus; [by rewrite digits_prefix_app, Hval, Z.opp_involutive by done|].
      apply short_value. rewrite digits_prefix_app by done. lia.
    + intros _. rewrite strtod_minus, Hval, of_decimal_int by (done || lia). by rewrite Z.opp_involutive.
    + cbn [length]. replace (k + 1 + length t - k)%nat with (S (length t)) by lia. by rewrite <- (Nat.add_assoc k 1).
  - destruct (unsigned_shape v) as (Hd & Hne & Hh); [lia|]. pose proof (unsigned_text_value v ltac:(lia)) as Hval.
    set (t := unsigned_text 10 v) in *. change (MkJsonParser k [] false) with (st k).
    assert (exists c0 u, drop k str = c0 :: u /\ c0 <> 45) as (c0 & u & H0 & H45).
    { rewrite H. destruct t as [|c0 u]; [done|]. exists c0, (u ++ r). split; [done|]. cbn in Hd. apply andb_prop in Hd as [Hd _].
      unfold isdigit in Hd. lia. }
    run peek_run. rewrite (proj2 (Z.eqb_neq c0 45)) by done.
    erewrite bind_run by reflexivity. cbv beta.
    erewrite bind_run by (by eapply integer_part_run). cbv beta iota. destruct (peek_delim _ _ _ H) as (c & Hc & Hc'); [done|done|].
    etransitivity; [apply (number_rest_run k _ c v Hc Hc')|]; rewrite ?H.
    + intros _. rewrite atoi_digits; rewrite digits_prefix_app, ?Hval by done; [done|done|lia].
    + replace (k + length t - k)%nat with (length t) by lia. intros Hl. rewrite strtod_digits, Hval, of_decimal_int; try done.
      destruct (decide (v = 0)) as [->|]; [|lia]. cbn in Hl. unfold digits10 in Hl. lia.
    + by replace (k + length t - k)%nat with (length t) by lia.
Qed.

(** ** Values *)
Lemma expect_run s j c t k r : bytes_of s = c :: t -> drop k str = bytes_of s ++ r ->
  expect str s j (st (S k)) = Ok (j, st (k + length (bytes_of s))).
Proof.
  intros Hs H. unfold expect. erewrite bind_run by reflexivity. erewrite bind_run by reflexivity. cbn [i st].
  rewrite H, take_app_length. rewrite bool_decide_true by done. by erewrite bind_run by reflexivity.
Qed.

Definition opening (c : Z) : Prop := whitespace c = false /\ c <> 47 /\ c <> 93 /\ c <> 125.
Lemma dump_opening j : json_ok j -> integral j -> exists c t, Dump.dump j = c :: t /\ opening c.
Proof.
  unfold opening. destruct j as [|[v|v]|[]|s|l|m]; intros Hok Hi; try done; try (by eexists _, _; split; [reflexivity|]; split_and!).
  cbn [Dump.dump]. unfold Dump.dump_int, int_text. destruct (Z.ltb_spec v 0); [by eexists _, _; split; [reflexivity|]; split_and!|].
  destruct (unsigned_shape v) as (Hd & Hne & _); [lia|]. destruct (unsigned_text 10 v) as [|c t]; [done|]. exists c, t. split; [done|].
  cbn in Hd. apply andb_prop in Hd as [Hd _]. unfold isdigit in Hd. unfold whitespace.
  assert (48 <= c <= 57) by lia. split_and!; lia.
Qed.

(** [j] is read back from its text. *)
Definition round (j : Json) : Prop := forall n depth k w r, drop k str = w ++ Dump.dump j ++ r -> forallb whitespace w = true ->
  delim r -> depth + Z.of_nat (nest j) <= max_depth -> (2 * (length str - k) + 2 <= n)%nat ->
  parse_json str strategy n depth (st k) = Ok (reparse j, st (k + length w + length (Dump.dump j))).

(** The text of what follows the first element. *)
Definition more (l : list (list Z)) : list Z := Dump.comma_separated false l.
Lemma more_cons t l : more (t :: l) = 44 :: 32 :: t ++ more l.
Proof. done. Qed.
Lemma delim_more c l r : c = 93 \/ c = 125 -> delim (more l ++ c :: r).
Proof. intros Hc. destruct l; cbn; lia. Qed.

Lemma array_run j l : round j -> Forall round l -> Forall (fun j => json_ok j /\ integral j) l ->
  forall n depth k r data, drop k str = Dump.dump j ++ more (Dump.dump <$> l) ++ 93 :: r ->
  depth + Z.of_nat (nest j) < max_depth -> Forall (fun j => depth + Z.of_nat (nest j) < max_depth) l -> (2 * (length str - k) + 3 <= n)%nat ->
  array_loop str strategy n depth data (st (S k)) =
    Ok (JArray (data ++ (reparse <$> (j :: l))), st (S (k + length (Dump.dump j) + length (more (Dump.dump <$> l))))).
Proof.
  intros Hj Hl. revert j Hj. induction Hl as [|j' l Hj' Hl IH]; intros j Hj Hok n depth k r data H Hn Hnl Hf;
    (destruct n as [|n]; [lia|]); cbn [array_loop]; erewrite bind_run by reflexivity; cbv beta; change (MkJsonParser k _ _) with (st k).
  - assert (parse_json str strategy n (depth + 1) (st k) = Ok (reparse j, st (k + length (Dump.dump j)))) as Hrun.
    { rewrite (Hj n _ k [] (93 :: r)); [by rewrite Nat.add_0_r|done|done|cbn; auto|lia|lia]. }
    erewrite bind_run by exact Hrun. erewrite bind_run by reflexivity. cbn [st failed]. cbv iota beta.
    change (MkJsonParser ?k _ _) with (st k). erewrite bind_run by (apply (token_run _ [] 93 r); [by apply drop_past in H|done..]).
    cbn. by rewrite !Nat.add_0_r.
  - apply Forall_cons in Hok as [[Hok1 Hok2] Hok]. apply Forall_cons in Hnl as [Hnj Hnl]. cbn [fmap list_fmap] in *. rewrite more_cons in *.
    assert (parse_json str strategy n (depth + 1) (st k) = Ok (reparse j, st (k + length (Dump.dump j)))) as Hrun.
    { erewrite (Hj n _ k []); [by rewrite Nat.add_0_r|exact H|done|cbn; auto|lia|lia]. }
    pose proof (drop_past _ _ _ H) as H1. cbn [app] in H1.
    erewrite bind_run by exact Hrun. erewrite bind_run by reflexivity. cbn [st failed]. cbv iota beta.
    change (MkJsonParser ?k _ _) with (st k). erewrite bind_run by (eapply (token_run _ []); [exact H1|done..]). cbn [Z.eqb Pos.eqb negb].
    destruct (dump_opening j' Hok1 Hok2) as (c & t & Et & (Hc1 & Hc2 & _)). pose proof (drop_next _ _ _ H1) as H2.
    erewrite bind_run.
    2:{ eapply (token_run _ [32] c); [|done|done|done]. cbn [length]. rewrite Nat.add_0_r, H2, Et. reflexivity. }
    pose proof (drop_next _ _ _ H2) as H3. cbn [length]. rewrite Nat.add_0_r, Nat.add_1_r. set (k' := S (S (k + length (Dump.dump j)))) in *.
    rewrite <- app_assoc in H3. pose proof (drop_length_cons _ _ _ H1) as Hlen.
    rewrite (IH j' Hj' Hok n depth k' r (data ++ [reparse j])); [|exact H3|done|done|subst k'; lia].
    do 2 f_equal; [by rewrite <- app_assoc|]. cbn [length]. rewrite length_app. subst k'. f_equal. lia.
Qed.

Definition entry_text (e : list Z * Json) : list Z := Dump.dump_entry e.1 (Dump.dump e.2).
Definition reparse_entry (e : list Z * Json) : list Z * Json := (e.1, reparse e.2).

Lemma entry_text_split e r : entry_text e ++ r = 34 :: Dump.dump_chars e.1 ++ 34 :: 58 :: 32 :: Dump.dump e.2 ++ r.
Proof. unfold entry_text, Dump.dump_entry, Dump.dump_string. cbn. by rewrite <- !app_assoc. Qed.
Lemma entry_text_length e : length (entry_text e) = (4 + length (Dump.dump_chars e.1) + length (Dump.dump e.2))%nat.
Proof. unfold entry_text, Dump.dump_entry, Dump.dump_string. cbn. rewrite !length_app. cbn. lia. Qed.

(** One entry, up to the character behind its value. *)
Lemma entry_run e n depth k r : bytes_ok e.1 -> round e.2 -> drop k str = entry_text e ++ r -> delim r -> r <> [] ->
  depth + Z.of_nat (nest e.2) < max_depth -> (2 * (length str - k) + 3 <= S n)%nat -> forall data,
  object_loop str strategy (S n) depth data 34 (st (S k)) =
    (ch ← get_next_token str strategy;
     if ch =? 125 then mret (JObject (JsonValue.map_insert e.1 (reparse e.2) data))
     else if negb (ch =? 44) then fail (bytes_of "expected ',' in object, got " ++ esc ch) JNull
     else ch ← get_next_token str strategy; object_loop str strategy n depth (JsonValue.map_insert e.1 (reparse e.2) data) ch)
    (st (k + length (entry_text e))).
Proof.
  intros Hb Hr H Hd Hne Hn Hf data. rewrite entry_text_split in H. pose proof (drop_length_cons _ _ _ H) as Hlen.
  pose proof (drop_next _ _ _ H) as H1. cbn [object_loop]. cbn [Z.eqb Pos.eqb negb].
  erewrite bind_run by (by eapply string_run). erewrite bind_run by reflexivity. cbn [st failed]. cbv beta iota.
  change (MkJsonParser ?k _ _) with (st k).
  pose proof (drop_next _ _ _ (drop_past _ _ _ H1)) as H2. erewrite bind_run by (eapply (token_run _ []); [exact H2|done..]).
  cbn [Z.eqb Pos.eqb negb]. pose proof (drop_next _ _ _ H2) as H3. cbn [length]. rewrite Nat.add_0_r.
  erewrite bind_run by (eapply (Hr n _ _ [32]); [exact H3|done|done|lia|lia]).
  erewrite bind_run by reflexivity. cbn [st failed]. cbv beta iota zeta. change (MkJsonParser ?k _ _) with (st k). f_equal.
  rewrite entry_text_length. cbn [length]. f_equal. lia.
Qed.

Lemma object_run e m : bytes_ok e.1 -> round e.2 -> Forall (fun e => bytes_ok e.1 /\ round e.2) m ->
  forall n depth k r data, drop k str = entry_text e ++ more (entry_text <$> m) ++ 125 :: r ->
  depth + Z.of_nat (nest e.2) < max_depth -> Forall (fun e => depth + Z.of_nat (nest e.2) < max_depth) m ->
  (2 * (length str - k) + 3 <= n)%nat -> StronglySorted key_lt (data ++ e :: m) ->
  object_loop str strategy n depth (reparse_entry <$> data) 34 (st (S k)) =
    Ok (JObject (reparse_entry <$> data ++ e :: m), st (S (k + length (entry_text e) + length (more (entry_text <$> m))))).
Proof.
  intros Hb He Hm. revert e Hb He. induction Hm as [|e' m [Hb' He'] Hm IH]; intros e Hb He n depth k r data H Hn Hnm Hf Hs;
    (destruct n as [|n]; [lia|]); assert (JsonValue.map_insert e.1 (reparse e.2) (reparse_entry <$> data) = reparse_entry <$> data ++ [e]) as Hins
    by (rewrite fmap_app; apply map_insert_last, Forall_fmap, Forall_forall; intros x Hx;
        apply (StronglySorted_app_1_elem_of _ _ _ x e Hs Hx); by left).
  - rewrite (entry_run e n depth k (125 :: r)), Hins by (done || (cbn; lia)).
    erewrite bind_run by (apply (token_run _ [] 125 r); [by apply drop_past in H|done..]). cbn. by rewrite !Nat.add_0_r.
  - apply Forall_cons in Hnm as [Hne Hnm]. cbn [fmap list_fmap] in *. rewrite more_cons in *.
    erewrite (entry_run e n depth k), Hins by (exact H || done || (cbn; lia)).
    pose proof (drop_past _ _ _ H) as H1. cbn [app] in H1. pose proof (drop_length_cons _ _ _ H1) as Hlen.
    erewrite bind_run by (eapply (token_run _ []); [exact H1|done..]). cbn [Z.eqb Pos.eqb negb]. cbn [length]. rewrite Nat.add_0_r.
    pose proof (drop_next _ _ _ H1) as H2. erewrite bind_run.
    2:{ eapply (token_run _ [32] 34); [|done|done|done]. rewrite H2, <- app_assoc, entry_text_split. reflexivity. }
    pose proof (drop_next _ _ _ H2) as H3. cbn [length]. rewrite Nat.add_1_r. set (k' := S (S (k + length (entry_text e)))) in *.
    rewrite <- app_assoc in H3. rewrite (IH e' Hb' He' n depth k' r (data ++ [e])); [|exact H3|done|done|subst k'; lia|by rewrite <- app_assoc].
    do 2 f_equal; [by rewrite <- app_assoc|]. cbn [length]. rewrite length_app. subst k'. f_equal. lia.
Qed.

(** The beginning of [parse_json]: the first character is read. *)
Lemma json_token n depth k w c r : drop k str = w ++ c :: r -> forallb whitespace w = true -> opening c -> depth <= max_depth ->
  parse_json str strategy (S n) depth (st k) =
    (if (c =? 45) || in_range c 48 57 then retreat;; parse_number str
     else if c =? 116 then expect str "true" (JBool true)
     else if c =? 102 then expect str "false" (JBool false)
     else if c =? 110 then expect str "null" JNull
     else if c =? 34 then s ← parse_string str; mret (JString s)
     else if c =? 123 then
       ch ← get_next_token str strategy;
       if ch =? 125 then mret (JObject []) else object_loop str strategy n depth [] ch
     else if c =? 91 then
       ch ← get_next_token str strategy;
       if ch =? 93 then mret (JArray []) else array_loop str strategy n depth []
     else fail (bytes_of "expected value, got " ++ esc c) JNull) (st (S (k + length w))).
Proof.
  intros H Hw (Hc & H47 & _) Hd. cbn [parse_json]. rewrite (proj2 (Z.ltb_ge _ _)) by lia. run token_run.
  erewrite bind_run by reflexivity. done.
Qed.

Lemma nest_array_below depth l : depth + Z.of_nat (nest (JArray l)) <= max_depth ->
  Forall (fun j => depth + Z.of_nat (nest j) < max_depth) l.
Proof.
  intros H. eapply Forall_impl; [apply (nest_array l (nest (JArray l))); lia|]. intros j Hj. cbn beta in *. lia.
Qed.
Lemma nest_object_below depth m : depth + Z.of_nat (nest (JObject m)) <= max_depth ->
  Forall (fun e => depth + Z.of_nat (nest e.2) < max_depth) m.
Proof.
  intros H. eapply Forall_impl; [apply (nest_object m (nest (JObject m))); lia|]. intros j Hj. cbn beta in *. lia.
Qed.

Lemma round_number v : - 2^31 <= v < 2^31 -> round (JNumber (NInt v)).
Proof.
  intros Hv [|n] depth k w r H Hw Hr Hd Hf; [lia|]. destruct (dump_opening (JNumber (NInt v))) as (c & t & Et & Ho); [done|done|].
  pose proof (drop_past _ _ _ H) as H'. rewrite Et in H. cbn [app] in H. rewrite (json_token n depth k w c _ H Hw Ho) by (cbn in Hd; lia).
  assert ((c =? 45) || in_range c 48 57 = true) as ->.
  { cbn in Et. unfold Dump.dump_int, int_text in Et. destruct (Z.ltb_spec v 0); [by injection Et as <- _|].
    destruct (unsigned_shape v) as (Hdg & _); [lia|]. rewrite Et in Hdg. cbn in Hdg. apply andb_prop in Hdg as [Hdg _].
    change (in_range c 48 57) with (isdigit c). by rewrite Hdg, orb_true_r. }
  erewrite bind_run by reflexivity. change (MkJsonParser ?k _ _) with (st k). by apply (number_run v _ r).
Qed.

Lemma round_string s : bytes_ok s -> round (JString s).
Proof.
  intros Hs [|n] depth k w r H Hw Hr Hd Hf; [lia|]. cbn [Dump.dump] in H. unfold Dump.dump_string in H. cbn [app] in H.
  rewrite <- app_assoc in H. cbn [app] in H. rewrite (json_token n depth k w 34 _ H Hw) by (done || (cbn in Hd; lia)).
  cbn [Z.eqb Pos.eqb orb in_range Z.leb Z.compare Pos.compare Pos.compare_cont andb].
  apply drop_past, drop_next in H. erewrite bind_run by (by eapply string_run). cbn [Dump.dump reparse]. unfold Dump.dump_string. cbn.
  rewrite length_app. apply st_eq. cbn. lia.
Qed.

Lemma round_word s c t j : bytes_of s = c :: t -> Dump.dump j = bytes_of s -> reparse j = j -> nest j = O -> opening c ->
  (forall p, (if (c =? 45) || in_range c 48 57 then retreat;; parse_number str
     else if c =? 116 then expect str "true" (JBool true)
     else if c =? 102 then expect str "false" (JBool false)
     else if c =? 110 then expect str "null" JNull else mret JNull) p = expect str s j p) ->
  (c = 116 \/ c = 102 \/ c = 110) -> round j.
Proof.
  intros Es Ed Er En Ho He Hc [|n] depth k w r H Hw Hr Hd Hf; [lia|]. pose proof (drop_past _ _ _ H) as H'.
  rewrite Ed, Es in H. cbn [app] in H. rewrite (json_token n depth k w c _ H Hw Ho) by lia. rewrite Er.
  transitivity (expect str s j (st (S (k + length w)))).
  - rewrite <- He. by destruct Hc as [-> |[-> | ->]].
  - rewrite Ed in *. by apply (expect_run s j c t _ r).
Qed.

Lemma round_array l : Forall round l -> Forall (fun j => json_ok j /\ integral j) l -> round (JArray l).
Proof.
  intros Hl Hok [|n] depth k w r H Hw Hr Hd Hf; [lia|]. cbn [Dump.dump] in H. rewrite <- !app_assoc in H. cbn [app] in H.
  rewrite (json_token n depth k w 91 _ H Hw) by (done || lia).
  cbn [Z.eqb Pos.eqb orb in_range Z.leb Z.compare Pos.compare Pos.compare_cont andb].
  pose proof (drop_length_cons _ _ _ (drop_past _ _ _ H)) as Hlen. apply drop_past, drop_next in H.
  destruct l as [|j l].
  - erewrite bind_run by (eapply (token_run _ []); [exact H|done..]). apply st_eq. cbn. lia.
  - apply nest_array_below in Hd. apply Forall_cons in Hl as [Hj Hl], Hok as [[Hok1 Hok2] Hok], Hd as [Hd1 Hd2].
    destruct (dump_opening j Hok1 Hok2) as (c & t & Et & (Hc1 & Hc2 & Hc3 & _)).
    cbn [fmap list_fmap Dump.comma_separated app] in H. rewrite <- app_assoc in H.
    erewrite bind_run by (eapply (token_run _ [] c); [rewrite H, Et; reflexivity|done..]).
    rewrite (proj2 (Z.eqb_neq c 93)) by done. cbn [length]. rewrite Nat.add_0_r.
    rewrite (array_run j l Hj Hl Hok n depth _ r []); [|exact H|done|done|lia]. apply st_eq.
    cbn [Dump.dump fmap list_fmap Dump.comma_separated app length]. rewrite !length_app. cbn [length].
    unfold more. lia.
Qed.

Lemma round_object m : Forall (fun e => bytes_ok e.1 /\ round e.2) m -> StronglySorted key_lt m -> round (JObject m).
Proof.
  intros Hm Hs [|n] depth k w r H Hw Hr Hd Hf; [lia|]. cbn [Dump.dump] in H. rewrite <- !app_assoc in H. cbn [app] in H.
  change ((fun kv => Dump.dump_entry kv.1 (Dump.dump kv.2)) <$> m) with (entry_text <$> m) in H.
  rewrite (json_token n depth k w 123 _ H Hw) by (done || lia).
  cbn [Z.eqb Pos.eqb orb in_range Z.leb Z.compare Pos.compare Pos.compare_cont andb].
  pose proof (drop_length_cons _ _ _ (drop_past _ _ _ H)) as Hlen. apply drop_past, drop_next in H.
  destruct m as [|e m].
  - erewrite bind_run by (eapply (token_run _ []); [exact H|done..]). apply st_eq. cbn. lia.
  - apply nest_object_below in Hd. apply Forall_cons in Hm as [[Hb He] Hm], Hd as [Hd1 Hd2].
    cbn [fmap list_fmap Dump.comma_separated app] in H. rewrite <- app_assoc in H.
    erewrite bind_run by (eapply (token_run _ [] 34); [rewrite H, entry_text_split; reflexivity|done..]).
    cbn [length Z.eqb Pos.eqb]. rewrite Nat.add_0_r.
    rewrite (object_run e m Hb He Hm n depth _ r []); [|exact H|done|done|lia|done]. apply st_eq.
    cbn [Dump.dump fmap list_fmap Dump.comma_separated app length]. rewrite !length_app. cbn [length].
    change (Dump.dump_entry e.1 (Dump.dump e.2)) with (entry_text e). unfold more.
    change ((fun kv => Dump.dump_entry kv.1 (Dump.dump kv.2)) <$> m) with (entry_text <$> m). lia.
Qed.

Lemma round_value j : json_ok j -> integral j -> round j.
Proof.
  induction j as [|[v|v]|[]|s|l IH|m IH] using Json_nested_ind; intros Hok Hi.
  - by apply (round_word "null" 110 (bytes_of "ull")); auto.
  - by apply round_number.
  - done.
  - by apply (round_word "true" 116 (bytes_of "rue")); auto.
  - by apply (round_word "false" 102 (bytes_of "alse")); auto.
  - by apply round_string.
  - apply ok_array in Hok. apply integral_array in Hi. assert (Forall (fun j => json_ok j /\ integral j) l) as Hl by (by apply Forall_and).
    apply round_array; [|done]. apply Forall_forall. intros j Hj. rewrite Forall_forall in IH, Hl. destruct (Hl j Hj). by apply IH.
  - apply ok_object in Hok as [Hs Hok]. apply integral_object in Hi. apply round_object; [|done]. apply Forall_forall. intros e He.
    rewrite Forall_forall in IH, Hok, Hi. destruct (Hok e He). split; [done|]. apply IH; [done|done|by apply Hi].
Qed.
End Text.

Lemma dump_nonempty j : json_ok j -> integral j -> Dump.dump j <> [].
Proof. intros H1 H2. by destruct (dump_opening j H1 H2) as (c & t & -> & _). Qed.

Lemma garbage_end str strategy : consume_garbage str strategy (st (length str)) = Ok (tt, st (length str)).
Proof.
  assert (whitespace_loop str (fuel str) (st (length str)) = Ok (tt, st (length str))) as Hw.
  { unfold fuel. cbn [whitespace_loop]. by erewrite bind_run by (by apply peek_end). }
  unfold consume_garbage, consume_whitespace. erewrite bind_run by exact Hw. destruct strategy; [done|].
  unfold fuel at 1. cbn [comments_loop]. erewrite bind_run.
  2:{ unfold consume_comment. by erewrite bind_run by (by apply peek_end). }
  by erewrite bind_run by exact Hw.
Qed.

(** The printed text is parsed as the value itself, up to the representation
    of long integers. *)
Lemma parse_dump j strategy : json_ok j -> integral j -> Z.of_nat (nest j) <= max_depth ->
  parse (Dump.dump j) strategy = Ok (reparse j, []).
Proof.
  intros Hok Hi Hn. unfold parse. change (MkJsonParser 0 [] false) with (st 0).
  rewrite (round_value (Dump.dump j) strategy j Hok Hi (parse_fuel (Dump.dump j)) 0 0%nat [] []);
    [|by rewrite app_nil_r|done|done|lia|unfold parse_fuel, Parser.size; lia].
  rewrite bind_Ok. cbn [length Nat.add]. rewrite garbage_end, bind_Ok. cbn [i st]. unfold Parser.size. by rewrite Nat.eqb_refl.
Qed.

(** ** The values that are read back *)
Lemma digits2_bound p : 2 ^ (Zpos (digits2_pos p) - 1) <= Zpos p < 2 ^ Zpos (digits2_pos p).
Proof.
  induction p as [p IH|p IH|]; [| |done]; cbn [digits2_pos]; rewrite Pos2Z.inj_succ;
    replace (Z.succ (Zpos (digits2_pos p)) - 1) with (Z.succ (Zpos (digits2_pos p) - 1)) by lia;
    rewrite !Z.pow_succ_r by lia; lia.
Qed.
Lemma iter_xO_value p n : Zpos (Pos.iter xO p n) = Zpos p * 2 ^ Zpos n.
Proof.
  induction n as [|n IH] using Pos.peano_ind; [cbn; lia|]. rewrite Pos.iter_succ, Pos2Z.inj_xO, IH, Pos2Z.inj_succ, Z.pow_succ_r by lia. lia.
Qed.
Lemma digits2_iter p n : digits2_pos (Pos.iter xO p n) = (digits2_pos p + n)%positive.
Proof. induction n as [|n IH] using Pos.peano_ind; [cbn; lia|]. rewrite Pos.iter_succ. cbn [digits2_pos]. rewrite IH. lia. Qed.

(** A mantissa of 53 bits is not rounded. *)
Lemma round_exact s m e : Zpos (digits2_pos m) = 53 -> -1074 <= e <= 0 ->
  binary_round_aux Double.prec Double.emax s (Zpos m) e loc_Exact = S754_finite s m e.
Proof.
  intros Hm He. unfold binary_round_aux. assert (shr_fexp Double.prec Double.emax (Zpos m) e loc_Exact = (Build_shr_record (Zpos m) false false, e)) as Hs.
  { unfold shr_fexp, Zdigits2. rewrite Hm. unfold fexp, emin, Double.prec, Double.emax.
    replace (Z.max (53 + e - 53) (3 - 1024 - 53) - e) with 0 by lia. done. }
  rewrite Hs. cbn [shr_m loc_of_shr_record round_nearest_even]. rewrite Hs. cbn [shr_m]. unfold Double.emax, Double.prec.
  by rewrite (proj2 (Z.leb_le _ _)) by lia.
Qed.

(** An integer below 2^53 is a [double]. *)
Lemma of_pos_exact s p : Zpos p < 2 ^ 53 -> exists m e, binary_round Double.prec Double.emax s p 0 = S754_finite s m e /\
  -53 <= e <= 0 /\ Zpos m = Zpos p * 2 ^ (- e).
Proof.
  intros Hp. pose proof (digits2_bound p) as [Hd _]. assert (Zpos (digits2_pos p) <= 53) as Hle.
  { destruct (Z.le_gt_cases (Zpos (digits2_pos p)) 53); [done|]. assert (2 ^ 53 <= 2 ^ (Zpos (digits2_pos p) - 1)) by (apply Z.pow_le_mono_r; lia). lia. }
  unfold binary_round, shl_align. rewrite Z.add_0_r, Z.sub_0_r.
  assert (fexp Double.prec Double.emax (Zpos (digits2_pos p)) = Zpos (digits2_pos p) - 53) as ->.
  { unfold fexp, emin, Double.prec, Double.emax. lia. }
  destruct (Zpos (digits2_pos p) - 53) as [|x|x] eqn:E; [|lia|].
  - exists p, 0. split; [apply round_exact; lia|]. split; [lia|]. cbn. lia.
  - exists (Pos.iter xO p x), (Zneg x). split; [apply round_exact; [rewrite digits2_iter|]; lia|]. split; [lia|]. apply iter_xO_value.
Qed.

Lemma of_int_exact z : Z.abs z < 2 ^ 53 -> Double.to_int64 (Double.of_int z) = Ok z /\ SFeqb (Double.of_int z) (Double.of_int z) = true.
Proof.
  intros Hz. assert (forall s p, Zpos p < 2 ^ 53 -> Double.to_int64 (binary_round Double.prec Double.emax s p 0) = Ok (if s then Zneg p else Zpos p) /\
    SFeqb (binary_round Double.prec Double.emax s p 0) (binary_round Double.prec Double.emax s p 0) = true) as H.
  { intros s p Hp. destruct (of_pos_exact s p Hp) as (m & e & -> & He & Hm). split.
    - unfold Double.to_int64. assert ((if 0 <=? e then Zpos m * 2 ^ e else Zpos m / 2 ^ (- e)) = Zpos p) as ->.
      { destruct (Z.leb_spec 0 e); [replace e with 0 in * by lia; rewrite Hm; cbn; lia|]. rewrite Hm. apply Z.div_mul.
        apply Z.pow_nonzero; lia. }
      destruct s; cbn zeta; (rewrite (proj2 (Z.leb_le _ _)), (proj2 (Z.ltb_lt _ _)) by lia); done.
    - unfold SFeqb, SFcompare. rewrite Z.compare_refl. rewrite Pos.compare_cont_refl. by destruct s. }
  destruct z as [|p|p]; [done|apply (H false); lia|apply (H true); lia].
Qed.

Lemma renumber_value v : - 2^31 <= v < 2^31 ->
  JsonValue.number_int (renumber v) = Ok v /\ SFeqb (Double.of_int v) (JsonValue.number_double (renumber v)) = true.
Proof. intros Hv. destruct (of_int_exact v) as [H1 H2]; [lia|]. unfold renumber. by destruct (_ <=? _)%nat. Qed.

(** [operator==] holds between a value and what is read back. *)
Lemma reparse_equal j : json_ok j -> integral j -> JsonValue.equal j (reparse j) = true.
Proof.
  induction j as [|[v|v]|[]|s|l IH|m IH] using Json_nested_ind; intros Hok Hi; try done.
  - cbn [reparse JsonValue.equal JsonValue.number_double]. by apply renumber_value.
  - cbn. by rewrite bool_decide_true.
  - apply ok_array in Hok. apply integral_array in Hi. cbn [reparse JsonValue.equal].
    induction l as [|j l IHl]; [done|]. cbn [fmap list_fmap]. apply Forall_cons in IH as [Hj IH], Hok as [Hoj Hok], Hi as [Hij Hi].
    rewrite Hj by done. cbn [andb]. by apply IHl.
  - apply ok_object in Hok as [_ Hok]. apply integral_object in Hi. cbn [reparse JsonValue.equal].
    induction m as [|[k j] m IHm]; [done|]. cbn [fmap list_fmap fst snd].
    apply Forall_cons in IH as [Hj IH], Hok as [[_ Hoj] Hok], Hi as [Hij Hi].
    cbn [fst snd] in *. rewrite Hj, bool_decide_true by done. cbn [andb]. by apply IHm.
Qed.
