(* ===== verification/Logging.v ===== *)
(** The log: logging/*.cpp and log/kea_log.cpp.

    A message passes the level of the logger and goes to its targets, a file
    that is rotated and the system log. *)
From stdpp Require Import base list numbers option strings gmap.
From Stdlib Require Import ZArith Lia.
From S2P Require Import Prelude Encode HwAddr Text.

(** ** Levels *)
Module LogLevel.
Definition kEmergency : Z := 9000.
Definition kAlert : Z := 8000.
Definition kCritical : Z := 7000.
Definition kError : Z := 6000.
Definition kWarning : Z := 5000.
Definition kNotice : Z := 4000.
Definition kInfo : Z := 3000.
Definition kDebug : Z := 2000.
Definition kTrace : Z := 1000.

Definition logLevelToStr (l : Z) : list Z :=
  if l =? kError then bytes_of "EROR"
  else if l =? kWarning then bytes_of "WARN"
  else if l =? kInfo then bytes_of "INFO"
  else if l =? kDebug then bytes_of "DEBG"
  else bytes_of "CUST".

Definition strToLogLevel (s : list Z) : result Z :=
  if bool_decide (s = bytes_of "error") then Ok kError
  else if bool_decide (s = bytes_of "info") then Ok kInfo
  else if bool_decide (s = bytes_of "warn") then Ok kWarning
  else if bool_decide (s = bytes_of "debug") then Ok kDebug
  else Throw LogIllegalArgument.
End LogLevel.

(** ** Formats *)
Module StringUtil.

(** The rest of [s] behind [pattern], if [s] starts with it. *)
Fixpoint strip (pattern s : list Z) : option (list Z) :=
  match pattern, s with
  | [], _ => Some s
  | p :: pattern, c :: s => if p =? c then strip pattern s else None
  | _ :: _, [] => None
  end.

(** [replaceAll] for a pattern that is not empty: the search goes on behind
    each replacement. *)
Fixpoint replace_loop (fuel : nat) (pattern replacement s : list Z) : result (list Z) :=
  match fuel with
  | O => NoFuel
  | S fuel =>
      match strip pattern s with
      | Some rest => r ← replace_loop fuel pattern replacement rest; Ok (replacement ++ r)
      | None =>
          match s with
          | [] => Ok []
          | c :: s => r ← replace_loop fuel pattern replacement s; Ok (c :: r)
          end
      end
  end.
Definition replaceAll (s pattern replacement : list Z) : result (list Z) :=
  replace_loop (S (length s)) pattern replacement s.

(** [formatImpl]: "$0", "$1", ... are replaced one after the other. *)
Fixpoint formatImpl (scratch : list Z) (argn : Z) (values : list (list Z)) : result (list Z) :=
  match values with
  | [] => Ok scratch
  | v :: values =>
      scratch ← replaceAll scratch (36 :: int_text argn) v;
      formatImpl scratch (argn + 1) values
  end.
Definition format (fmt : list Z) (values : list (list Z)) : result (list Z) := formatImpl fmt 0 values.
End StringUtil.

(** ** The system log *)
Module Syslog.

(** What [vsyslog] makes of a format without arguments: a conversion reads an
    argument that was not passed.  [errtext] is the text of [%m]. *)
Fixpoint printf (errtext fmt : list Z) : result (list Z) :=
  match fmt with
  | [] => Ok []
  | 37 :: 37 :: fmt => r ← printf errtext fmt; Ok (37 :: r)
  | 37 :: 109 :: fmt => r ← printf errtext fmt; Ok (errtext ++ r)
  | 37 :: _ => Crash
  | c :: fmt => r ← printf errtext fmt; Ok (c :: r)
  end.

(** The C string of a message ends at its first NUL. *)
Fixpoint c_str (s : list Z) : list Z := match s with [] => [] | c :: s => if c =? 0 then [] else c :: c_str s end.

(** [log_error] .. [log_debug], with the priorities of syslog.h. *)
Definition priority (level : Z) : option Z :=
  if level =? LogLevel.kError then Some 3
  else if level =? LogLevel.kWarning then Some 4
  else if level =? LogLevel.kNotice then Some 5
  else if level =? LogLevel.kInfo then Some 6
  else if (level =? LogLevel.kDebug) || (level =? LogLevel.kTrace) then Some 7
  else None.
Definition log (errtext : list Z) (level : Z) (message : list Z) (written : list (Z * list Z)) : result (list (Z * list Z)) :=
  match priority level with
  | None => Ok written
  | Some p => t ← printf errtext (c_str message); Ok (written ++ [(p, t)])
  end.
End Syslog.

(** ** Files *)

(** The directory of the log: contents by name.  Whether the system lets a file
    be opened or renamed is up to the environment. *)
Abbreviation Files := (gmap (list Z) (list Z)).
Record FileSystem := MkFileSystem { can_open : list Z -> bool; can_rename : list Z -> list Z -> bool }.

Record FileOutputStream := MkFile {
  fd_open : bool; file_name_ : list Z; max_file_count_ : Z; max_file_size_ : Z; current_file_size_ : Z }.
#[global] Instance FileOutputStream_eta : Eta FileOutputStream := fun f =>
  MkFile (fd_open f) (file_name_ f) (max_file_count_ f) (max_file_size_ f) (current_file_size_ f).

Module FileOut.
Section FileOut.
Variable sys : FileSystem.

Definition DefaultMaxFileCount : Z := 10.
Definition DefaultMaxFileSize : Z := 100 * 1000 * 1000.

(** [open(name, O_CREAT | O_APPEND | O_WRONLY)] *)
Definition open (name : list Z) (fs : Files) : option Files :=
  if can_open sys name then Some (match fs !! name with Some _ => fs | None => <[name := []]> fs end) else None.

Definition openFile (name : list Z) (fs : Files) : result (FileOutputStream * Files) :=
  match open name fs with
  | None => Throw LogIOError
  | Some fs => Ok (MkFile true name DefaultMaxFileCount DefaultMaxFileSize (zlen (default [] (fs !! name))), fs)
  end.

(** [rename] *)
Definition rename (old new : list Z) (fs : Files) : option Files :=
  match fs !! old with
  | Some c => if can_rename sys old new then Some (<[new := c]> (delete old fs)) else None
  | None => None
  end.

(** [%s.%03d] *)
Definition numbered (name : list Z) (k : Z) : list Z := name ++ 46 :: setw 3 48 (int_text k).

(** The loop over the older files, from number [k] down to 1: whether every
    renaming succeeded, and the files that are left. *)
Fixpoint shift_loop (k : nat) (name : list Z) (fs : Files) : bool * Files :=
  match k with
  | O => (true, fs)
  | S k' =>
      let fname := numbered name (Z.of_nat k) in
      match fs !! fname with
      | None => shift_loop k' name fs
      | Some _ =>
          match rename fname (numbered name (Z.of_nat k + 1)) fs with
          | None => (false, fs)
          | Some fs => shift_loop k' name fs
          end
      end
  end.

Definition rotate_names (f : FileOutputStream) (fs : Files) : bool * Files :=
  let '(ok, fs) :=
    if 2 <? max_file_count_ f then shift_loop (Z.to_nat (max_file_count_ f - 2)) (file_name_ f) fs else (true, fs) in
  if (ok : bool) && (1 <? max_file_count_ f) then
    match fs !! file_name_ f with
    | None => (true, fs)
    | Some _ =>
        match rename (file_name_ f) (numbered (file_name_ f) 1) fs with
        | None => (false, fs)
        | Some fs => (true, fs)
        end
    end
  else (ok, fs).

(** [fileRotate]: the outcome with the stream and the files it leaves. *)
Definition fileRotate (f : FileOutputStream) (fs : Files) : result (bool * FileOutputStream * Files) :=
  let f := f <| fd_open := false |> in
  let '(ok, fs) := rotate_names f fs in
  if (ok : bool) then
    match open (file_name_ f) fs with
    | None => Throw LogIOError
    | Some fs => Ok (true, f <| fd_open := true |> <| current_file_size_ := 0 |>, fs)
    end
  else Ok (false, f, fs).

(** [::write] appends; with a closed descriptor it fails. *)
Definition write_fd (f : FileOutputStream) (data : list Z) (fs : Files) : result (FileOutputStream * Files) :=
  if fd_open f then
    Ok (f <| current_file_size_ := current_file_size_ f + zlen data |>,
        <[file_name_ f := default [] (fs !! file_name_ f) ++ data]> fs)
  else Throw LogIOError.
Definition write (f : FileOutputStream) (data : list Z) (fs : Files) : result (FileOutputStream * Files) :=
  if (0 <? max_file_size_ f) && (max_file_size_ f <? current_file_size_ f) then
    '(ok, f, fs) ← fileRotate f fs;
    if (ok : bool) then write_fd f data fs else Ok (f, fs)
  else write_fd f data fs.
End FileOut.
End FileOut.

(** ** Targets and the logger *)
Inductive LogTarget : Type :=
| TFile (program_name_ : list Z) (target_ : FileOutputStream)
| TSyslog.

(** [listeners_]: the slots of the array that are in use. *)
Record Logger := MkLogger { min_level_ : Z; listeners_ : list LogTarget }.

(** What the targets write to. *)
Record LogOutput := MkLogOutput { files : Files; syslog_ : list (Z * list Z) }.

Module Log.
Section Log.
Variables (sys : FileSystem) (errtext : list Z).

Definition STX_LOGGER_MAX_LISTENERS : Z := 64.
Definition make : Logger := MkLogger LogLevel.kNotice [].

Definition addTarget (target : LogTarget) (l : Logger) : result Logger :=
  if zlen (listeners_ l) <? STX_LOGGER_MAX_LISTENERS then Ok (MkLogger (min_level_ l) (listeners_ l ++ [target])) else Crash.
Definition setMinimumLogLevel (level : Z) (l : Logger) : Logger := MkLogger level (listeners_ l).

(** The lines of a message in a file, each behind the prefix with the time
    [now]. *)
Definition file_lines (now program component : list Z) (level : Z) (message : list Z) : result (list Z) :=
  prefix ← StringUtil.format (bytes_of "$0 $1 [$2] ")
             [now; if bool_decide (component = []) then program else component; LogLevel.logLevelToStr level];
  lines ← StringUtil.replaceAll (prefix ++ message) [10] (10 :: prefix);
  Ok (lines ++ [10]).

Definition target_log (now component : list Z) (level : Z) (message : list Z) (t : LogTarget) (o : LogOutput)
    : result (LogTarget * LogOutput) :=
  match t with
  | TFile program f =>
      lines ← file_lines now program component level message;
      '(f, fs) ← FileOut.write sys f lines (files o);
      Ok (TFile program f, MkLogOutput fs (syslog_ o))
  | TSyslog =>
      w ← Syslog.log errtext level message (syslog_ o); Ok (TSyslog, MkLogOutput (files o) w)
  end.

Fixpoint listeners_log (now component : list Z) (level : Z) (message : list Z) (ts : list LogTarget) (o : LogOutput)
    : result (list LogTarget * LogOutput) :=
  match ts with
  | [] => Ok ([], o)
  | t :: ts =>
      '(t, o) ← target_log now component level message t o;
      '(ts, o) ← listeners_log now component level message ts o;
      Ok (t :: ts, o)
  end.

(** [log] without arguments, and with some: only then the message is a
    format. *)
Definition log (now : list Z) (level : Z) (component message : list Z) (l : Logger) (o : LogOutput) : result (Logger * LogOutput) :=
  if level <? min_level_ l then Ok (l, o)
  else
    '(ts, o) ← listeners_log now component level message (listeners_ l) o;
    Ok (MkLogger (min_level_ l) ts, o).
Definition log_args (now : list Z) (level : Z) (component message : list Z) (args : list (list Z)) (l : Logger) (o : LogOutput)
    : result (Logger * LogOutput) :=
  if min_level_ l <=? level then
    m ← StringUtil.format message args; log now level component m l o
  else Ok (l, o).

Definition open_log (log_file_path program_name : list Z) (min_log_level : Z) (log_enable : bool) (l : Logger) (o : LogOutput)
    : result (Logger * LogOutput) :=
  let l := setMinimumLogLevel min_log_level l in
  '(l, o) ← (if log_enable && negb (bool_decide (log_file_path = [])) then
      '(f, fs) ← FileOut.openFile sys log_file_path (files o);
      l ← addTarget (TFile program_name f) l;
      Ok (l, MkLogOutput fs (syslog_ o))
    else Ok (l, o));
  l ← addTarget TSyslog l;
  Ok (l, o).
End Log.
End Log.
