(* ===== verification/LoggingFacts.v ===== *)
(** Facts about the log: formats substitute their arguments, rotation keeps
    the latest files, a file gets every line of a message behind the prefix. *)
From stdpp Require Import base list numbers option strings gmap.
From Stdlib Require Import ZArith Lia.
From S2P Require Import Prelude Encode HwAddr Text Logging.

(** ** Formats *)

(** A format as literal characters and places for arguments. *)
Inductive tok : Set := Lit (c : Z) | Hole (k : nat).
Definition tok_text (t : tok) : list Z := match t with Lit c => [c] | Hole k => [36; 48 + Z.of_nat k] end.
Definition text (ts : list tok) : list Z := concat (tok_text <$> ts).
Definition tok_ok (n : nat) (t : tok) : Prop := match t with Lit c => c <> 36 | Hole k => (k < n)%nat end.

Definition fill (vs : list (list Z)) (t : tok) : list Z :=
  match t with Lit c => [c] | Hole k => default [] (vs !! k) end.
Definition fill_one (k : nat) (v : list Z) (t : tok) : list tok :=
  match t with Hole j => if decide (j = k) then Lit <$> v else [t] | _ => [t] end.

Lemma text_app ts us : text (ts ++ us) = text ts ++ text us.
Proof. unfold text. by rewrite fmap_app, concat_app. Qed.
Lemma text_lits v : text (Lit <$> v) = v.
Proof. unfold text. induction v as [|c v IH]; [done|]. cbn in *. by rewrite IH. Qed.

Lemma int_text_digit k : (k < 10)%nat -> int_text (Z.of_nat k) = [48 + Z.of_nat k].
Proof. intros Hk. do 10 (destruct k as [|k]; [done|]). lia. Qed.

(** One argument is put in its places. *)
Lemma replace_one ts k v fuel : (k < 10)%nat -> Forall (tok_ok 10) ts -> (length (text ts) < fuel)%nat ->
  StringUtil.replace_loop fuel (36 :: int_text (Z.of_nat k)) v (text ts) = Ok (text (concat (fill_one k v <$> ts))).
Proof.
  intros Hk Hts. rewrite int_text_digit by done. revert fuel. induction Hts as [|t ts Ht Hts IH]; intros fuel Hf;
    (destruct fuel as [|fuel]; [lia|]); [done|]. change (text (t :: ts)) with (tok_text t ++ text ts) in *.
  rewrite length_app in Hf. cbn [fmap list_fmap concat]. rewrite text_app. destruct t as [c|j]; cbn [tok_text app fill_one] in *.
  - cbn [StringUtil.replace_loop StringUtil.strip]. rewrite (proj2 (Z.eqb_neq 36 c)) by (cbn in Ht; lia).
    rewrite IH by (cbn in Hf; lia). done.
  - cbn in Hf, Ht. destruct (decide (j = k)) as [->|Hn].
    + cbn [StringUtil.replace_loop StringUtil.strip]. rewrite !Z.eqb_refl. rewrite IH by lia. rewrite text_lits. done.
    + destruct fuel as [|fuel]; [lia|]. cbn [StringUtil.replace_loop StringUtil.strip]. rewrite Z.eqb_refl.
      rewrite (proj2 (Z.eqb_neq (48 + Z.of_nat k) (48 + Z.of_nat j))) by lia. rewrite (proj2 (Z.eqb_neq 36 (48 + Z.of_nat j))) by lia.
      rewrite IH by lia. done.
Qed.

Lemma fill_one_ok n k v ts : ~ In 36 v -> Forall (tok_ok n) ts -> Forall (tok_ok n) (concat (fill_one k v <$> ts)).
Proof.
  intros Hv. induction 1 as [|t ts Ht Hts IH]; [constructor|]. cbn [fmap list_fmap concat]. apply Forall_app. split; [|done].
  destruct t as [c|j]; [by repeat constructor|]. cbn. case_decide; [|by repeat constructor].
  apply Forall_fmap, Forall_forall. intros c Hc -> . apply Hv. by apply list_elem_of_In.
Qed.

(** The arguments from number [argn] on are put in. *)
Definition fill_from (argn : nat) (vs : list (list Z)) (t : tok) : list Z :=
  match t with
  | Lit c => [c]
  | Hole k => if decide (argn <= k < argn + length vs)%nat then default [] (vs !! (k - argn)%nat) else tok_text t
  end.

Lemma format_from ts argn vs : (argn + length vs <= 10)%nat -> Forall (tok_ok 10) ts -> Forall (fun v => ~ In 36 v) vs ->
  StringUtil.formatImpl (text ts) (Z.of_nat argn) vs = Ok (concat (fill_from argn vs <$> ts)).
Proof.
  intros Hn Hts Hvs. revert ts argn Hn Hts. induction Hvs as [|v vs Hv Hvs IH]; intros ts argn Hn Hts; cbn [StringUtil.formatImpl].
  - f_equal. unfold text. f_equal. apply list_fmap_ext. intros i t _. destruct t as [c|k]; [done|]. cbn [fill_from].
    rewrite decide_False; [done|]. cbn. lia.
  - cbn [length] in Hn. unfold StringUtil.replaceAll. rewrite replace_one by (done || lia). rewrite bind_Ok.
    replace (Z.of_nat argn + 1) with (Z.of_nat (S argn)) by lia. rewrite IH; [|lia|by apply fill_one_ok]. f_equal. clear IH.
    induction Hts as [|t ts Ht Hts IHt]; [done|]. cbn [fmap list_fmap concat]. rewrite fmap_app, concat_app, IHt. f_equal. clear IHt.
    destruct t as [c|k]; [done|]. cbn [fill_one fill_from length]. destruct (decide (k = argn)) as [->|Hk].
    + rewrite decide_True by lia. rewrite Nat.sub_diag. cbn. clear. induction v as [|c v IH]; [done|]. cbn in *. by f_equal.
    + cbn [fmap list_fmap concat fill_from]. rewrite app_nil_r.
      destruct (decide (S argn <= k < S argn + length vs)%nat).
      * rewrite decide_True by lia. replace (k - argn)%nat with (S (k - S argn)) by lia. done.
      * by rewrite decide_False by lia.
Qed.

Lemma format_fills ts vs : (length vs <= 10)%nat -> Forall (tok_ok (length vs)) ts -> Forall (fun v => ~ In 36 v) vs ->
  StringUtil.format (text ts) vs = Ok (concat (fill vs <$> ts)).
Proof.
  intros Hn Hts Hvs. unfold StringUtil.format. change 0 with (Z.of_nat 0). rewrite format_from; [|lia| |done].
  - f_equal. f_equal. apply list_fmap_ext. intros i t Ht. destruct t as [c|k]; [done|]. cbn.
    eapply Forall_lookup_1 in Hts; [|exact Ht]. cbn in Hts. rewrite decide_True by lia. by rewrite Nat.sub_0_r.
  - eapply Forall_impl; [exact Hts|]. intros [c|k]; cbn; [done|lia].
Qed.

(** ** Lines *)
Fixpoint lines_of (cur s : list Z) : list (list Z) :=
  match s with [] => [cur] | c :: s => if c =? 10 then cur :: lines_of [] s else lines_of (cur ++ [c]) s end.
Definition prefixed (prefix : list Z) (ls : list (list Z)) : list Z := concat ((fun l => prefix ++ l ++ [10]) <$> ls).

Lemma replace_plain fuel p r s t : ~ In 10 s -> p = [10] -> (length s + length t < fuel)%nat ->
  StringUtil.replace_loop fuel p r (s ++ t) = (u ← StringUtil.replace_loop (fuel - length s) p r t; Ok (s ++ u)).
Proof.
  intros Hs ->. revert fuel. induction s as [|c s IH]; intros fuel Hf.
  - cbn. rewrite Nat.sub_0_r. by destruct (StringUtil.replace_loop fuel [10] r t).
  - destruct fuel as [|fuel]; [cbn in Hf; lia|]. cbn [app StringUtil.replace_loop StringUtil.strip length].
    rewrite (proj2 (Z.eqb_neq 10 c)) by (intros <-; apply Hs; by left). rewrite IH; [|intros H; apply Hs; by right|cbn in Hf; lia].
    cbn [Nat.sub]. by destruct (StringUtil.replace_loop _ _ _ _).
Qed.

Lemma replace_lines prefix s cur fuel : ~ In 10 cur -> (length s < fuel)%nat ->
  exists u, StringUtil.replace_loop fuel [10] (10 :: prefix) s = Ok u /\ prefix ++ cur ++ u ++ [10] = prefixed prefix (lines_of cur s).
Proof.
  revert cur fuel. induction s as [|c s IH]; intros cur fuel Hc Hf; (destruct fuel as [|fuel]; [cbn in Hf; lia|]).
  - exists []. split; [done|]. unfold prefixed. cbn. by rewrite app_nil_r.
  - cbn [StringUtil.replace_loop StringUtil.strip lines_of]. cbn in Hf. destruct (Z.eqb_spec c 10) as [->|Hn].
    + rewrite Z.eqb_refl. destruct (IH [] fuel) as (u & -> & Hu); [intros []|lia|]. eexists. split; [reflexivity|].
      unfold prefixed in *. cbn [fmap list_fmap concat]. rewrite <- Hu. cbn [app]. by rewrite <- !app_assoc.
    + rewrite (proj2 (Z.eqb_neq 10 c)) by congruence. destruct (IH (cur ++ [c]) fuel) as (u & -> & Hu); [|lia|].
      { intros [H|[H|[]]]%in_app_or; [done|congruence]. }
      eexists. split; [reflexivity|]. rewrite <- Hu. by rewrite <- !app_assoc.
Qed.

Definition log_prefix (now who : list Z) (level : Z) : list Z :=
  now ++ [32] ++ who ++ [32; 91] ++ LogLevel.logLevelToStr level ++ [93; 32].

Lemma level_text level : ~ In 36 (LogLevel.logLevelToStr level) /\ ~ In 10 (LogLevel.logLevelToStr level).
Proof.
  unfold LogLevel.logLevelToStr. repeat case_match; (split; intros Hin; cbn in Hin; intuition discriminate).
Qed.

Lemma file_lines_exact now program component level message :
  ~ In 36 now -> ~ In 10 now -> ~ In 36 program -> ~ In 10 program -> ~ In 36 component -> ~ In 10 component ->
  Log.file_lines now program component level message =
    Ok (prefixed (log_prefix now (if bool_decide (component = []) then program else component) level) (lines_of [] message)).
Proof.
  intros Hn1 Hn2 Hp1 Hp2 Hc1 Hc2. unfold Log.file_lines. destruct (level_text level) as [Hl1 Hl2].
  set (who := if bool_decide (component = []) then program else component).
  assert (~ In 36 who /\ ~ In 10 who) as [Hw1 Hw2] by (subst who; by case_bool_decide).
  change (bytes_of "$0 $1 [$2] ") with (text [Hole 0; Lit 32; Hole 1; Lit 32; Lit 91; Hole 2; Lit 93; Lit 32]).
  rewrite format_fills; [|cbn; lia|repeat constructor; cbn; lia|by repeat constructor].
  rewrite bind_Ok. assert (concat (fill [now; who; LogLevel.logLevelToStr level] <$> [Hole 0; Lit 32; Hole 1; Lit 32; Lit 91; Hole 2; Lit 93; Lit 32])
    = log_prefix now who level) as ->.
  { unfold log_prefix. cbn. by rewrite <- ?app_assoc. }
  assert (~ In 10 (log_prefix now who level)) as Hpre.
  { unfold log_prefix. rewrite !in_app_iff. cbn. intuition lia. }
  unfold StringUtil.replaceAll. rewrite length_app, replace_plain by (done || lia).
  destruct (replace_lines (log_prefix now who level) message [] (S (length (log_prefix now who level) + length message) - length (log_prefix now who level)))
    as (u & -> & Hu); [intros []|lia|]. cbn. by rewrite <- Hu, <- app_assoc.
Qed.

(** ** Rotation *)
Lemma decimal_value_zeros n t : decimal_value (replicate n 48 ++ t) = decimal_value t.
Proof. unfold decimal_value. rewrite foldl_app. f_equal. induction n as [|n IH]; [done|]. cbn. done. Qed.

Lemma numbered_inj name j k : 0 <= j -> 0 <= k -> FileOut.numbered name j = FileOut.numbered name k -> j = k.
Proof.
  intros Hj Hk E. unfold FileOut.numbered in E. apply app_inv_head in E. injection E as E. unfold setw in E.
  apply (f_equal decimal_value) in E. rewrite !decimal_value_zeros in E. unfold int_text in E.
  rewrite !(proj2 (Z.ltb_ge _ _)), !unsigned_text_value in E by lia. done.
Qed.
Lemma numbered_name name k : FileOut.numbered name k <> name.
Proof. intros E. apply (f_equal length) in E. unfold FileOut.numbered in E. rewrite length_app in E. cbn in E. lia. Qed.

Section Rotate.
Variable sys : FileSystem.
Hypothesis Hrename : forall a b, can_rename sys a b = true.
Variables (name : list Z) (h : list (list Z)).
Abbreviation num j := (FileOut.numbered name (Z.of_nat j)).

Lemma num_ne j k : j <> k -> num j <> num k.
Proof. intros H E. apply numbered_inj in E; lia. Qed.

(** The older files move up by one. *)
Lemma shift_loop_spec k fs :
  (forall j, (1 <= j <= k)%nat -> fs !! num j = h !! (j - 1)%nat) -> (h !! (k - 1)%nat = None -> (0 < k)%nat -> fs !! num (S k) = None) ->
  exists fs', FileOut.shift_loop sys k name fs = (true, fs') /\
    ((0 < k)%nat -> fs' !! num 1 = None) /\ (forall j, (2 <= j <= S k)%nat -> fs' !! num j = h !! (j - 2)%nat) /\
    (forall n, (forall j, (1 <= j <= S k)%nat -> n <> num j) -> fs' !! n = fs !! n).
Proof.
  revert fs. induction k as [|k IH]; intros fs Hk Hx.
  - exists fs. split; [done|]. split; [lia|]. split; [lia|done].
  - cbn [FileOut.shift_loop]. pose proof (Hk (S k) ltac:(lia)) as Hf. rewrite Hf. replace (S k - 1)%nat with k in * by lia.
    replace (Z.of_nat (S k) + 1) with (Z.of_nat (S (S k))) by lia. destruct (h !! k) as [c|] eqn:Ec.
    + unfold FileOut.rename. rewrite Hf, Hrename. set (fs1 := <[num (S (S k)) := c]> (delete (num (S k)) fs)).
      destruct (IH fs1) as (fs' & Hs & H1 & H2 & H3).
      { intros j Hj. subst fs1. rewrite lookup_insert_ne, lookup_delete_ne by (apply num_ne; lia). apply Hk. lia. }
      { intros _ _. subst fs1. rewrite lookup_insert_ne by (apply num_ne; lia). apply lookup_delete_eq. }
      exists fs'. split; [done|]. split_and!.
      * intros _. destruct k as [|k]; [|apply H1; lia]. cbn in Hs. injection Hs as <-. subst fs1.
        rewrite lookup_insert_ne by (apply num_ne; lia). apply lookup_delete_eq.
      * intros j Hj. destruct (decide (j = S (S k))) as [->|]; [|apply H2; lia].
        rewrite H3 by (intros j' Hj'; apply num_ne; lia). subst fs1. rewrite lookup_insert_eq. rewrite <- Ec. f_equal. lia.
      * intros n Hn. rewrite H3 by (intros j Hj; apply Hn; lia). subst fs1.
        rewrite lookup_insert_ne, lookup_delete_ne by (apply not_eq_sym, Hn; lia). done.
    + destruct (IH fs) as (fs' & Hs & H1 & H2 & H3); [intros j Hj; apply Hk; lia|done|].
      exists fs'. split; [done|]. split_and!.
      * intros _. destruct k as [|k]; [|apply H1; lia]. cbn in Hs. by injection Hs as <-.
      * intros j Hj. destruct (decide (j = S (S k))) as [->|]; [|apply H2; lia].
        rewrite H3 by (intros j' Hj'; apply num_ne; lia). rewrite Hx by (done || lia). rewrite <- Ec. f_equal. lia.
      * intros n Hn. apply H3. intros j Hj. apply Hn. lia.
Qed.
End Rotate.

(** The files of a log: the current one and the older ones, newest first. *)
Definition log_files (f : FileOutputStream) (fs : Files) (main : list Z) (old : list (list Z)) : Prop :=
  fs !! file_name_ f = Some main /\ (Z.of_nat (length old) < max_file_count_ f) /\
  forall j, (1 <= j)%nat -> Z.of_nat j < max_file_count_ f -> fs !! FileOut.numbered (file_name_ f) (Z.of_nat j) = old !! (j - 1)%nat.

(** A rotation starts an empty file and keeps the latest older ones. *)
Lemma rotate_spec sys f fs main old : (forall a b, can_rename sys a b = true) -> (forall a, can_open sys a = true) ->
  2 < max_file_count_ f -> log_files f fs main old -> exists fs',
  FileOut.fileRotate sys f fs = Ok (true, MkFile true (file_name_ f) (max_file_count_ f) (max_file_size_ f) 0, fs') /\
  log_files f fs' [] (take (Z.to_nat (max_file_count_ f) - 1) (main :: old)).
Proof.
  intros Hr Ho Hc (Hm & Hl & Hf). set (k := Z.to_nat (max_file_count_ f - 2)).
  destruct (shift_loop_spec sys Hr (file_name_ f) old k fs) as (fs1 & Hs & H1 & H2 & H3).
  { intros j Hj. apply Hf; lia. }
  { intros Hn Hk. replace (Z.of_nat (S k)) with (max_file_count_ f - 1) by lia.
    specialize (Hf (S k) ltac:(lia) ltac:(lia)). replace (Z.of_nat (S k)) with (max_file_count_ f - 1) in Hf by lia.
    rewrite Hf. apply lookup_ge_None. apply lookup_ge_None in Hn. lia. }
  assert (fs1 !! file_name_ f = Some main) as Hm1.
  { rewrite H3; [done|]. intros j _ E. by apply (numbered_name (file_name_ f) (Z.of_nat j)). }
  set (fs2 := <[FileOut.numbered (file_name_ f) 1 := main]> (delete (file_name_ f) fs1)).
  assert (fs2 !! file_name_ f = None) as Hm2.
  { subst fs2. rewrite lookup_insert_ne by apply numbered_name. apply lookup_delete_eq. }
  exists (<[file_name_ f := []]> fs2). split.
  - unfold FileOut.fileRotate, FileOut.rotate_names. cbn [max_file_count_ file_name_ set fd_open].
    change (max_file_count_ (f <| fd_open := false |>)) with (max_file_count_ f). change (file_name_ (f <| fd_open := false |>)) with (file_name_ f).
    rewrite (proj2 (Z.ltb_lt _ _)) by lia. fold k. rewrite Hs. cbn [andb]. rewrite (proj2 (Z.ltb_lt _ _)) by lia. rewrite Hm1.
    unfold FileOut.rename. rewrite Hm1, Hr. fold fs2. unfold FileOut.open. rewrite Ho, Hm2. by destruct f.
  - assert (max_file_count_ f = Z.of_nat (S (S k))) as Hmax by lia. split_and!.
    + by rewrite lookup_insert_eq.
    + rewrite length_take. lia.
    + intros j Hj1 Hj2. rewrite lookup_insert_ne by (apply not_eq_sym, numbered_name). rewrite lookup_take_lt by lia.
      destruct (decide (j = 1%nat)) as [->|Hn]; [by subst fs2; rewrite lookup_insert_eq|].
      subst fs2. rewrite lookup_insert_ne by (intros E; apply numbered_inj in E; lia).
      rewrite lookup_delete_ne by (apply not_eq_sym, numbered_name). rewrite H2 by lia.
      destruct j as [|[|j]]; [lia|lia|]. cbn. by rewrite Nat.sub_0_r.
Qed.

(** What [write] does to the files of a log. *)
Definition written (f : FileOutputStream) (data main : list Z) (old : list (list Z)) : list Z * list (list Z) :=
  if (0 <? max_file_size_ f) && (max_file_size_ f <? current_file_size_ f)
  then (data, take (Z.to_nat (max_file_count_ f) - 1) (main :: old)) else (main ++ data, old).

Definition file_ok (f : FileOutputStream) (main : list Z) : Prop :=
  fd_open f = true /\ 2 < max_file_count_ f /\ current_file_size_ f = zlen main.

Lemma write_spec sys f fs data main old : (forall a b, can_rename sys a b = true) -> (forall a, can_open sys a = true) ->
  file_ok f main -> log_files f fs main old -> exists f' fs',
  FileOut.write sys f data fs = Ok (f', fs') /\ file_ok f' (written f data main old).1 /\
  file_name_ f' = file_name_ f /\ max_file_size_ f' = max_file_size_ f /\ max_file_count_ f' = max_file_count_ f /\
  log_files f' fs' (written f data main old).1 (written f data main old).2.
Proof.
  intros Hr Ho (Hfd & Hc & Hsz) Hl.
  assert (forall g gs m o, fd_open g = true -> current_file_size_ g = zlen m -> log_files g gs m o -> exists g' gs',
    FileOut.write_fd g data gs = Ok (g', gs') /\ fd_open g' = true /\ current_file_size_ g' = zlen (m ++ data) /\
    file_name_ g' = file_name_ g /\ max_file_size_ g' = max_file_size_ g /\ max_file_count_ g' = max_file_count_ g /\
    log_files g' gs' (m ++ data) o) as Hw.
  { intros g gs m o Hg Hz (Hm & Hn & Hj). unfold FileOut.write_fd. rewrite Hg, Hm. do 2 eexists. split; [reflexivity|].
    destruct g as [gf gn gc gm gz]. cbn in *. split_and!; try done; [zlia|]. split_and!; cbn; [by rewrite lookup_insert_eq|done|].
    intros j Hj1 Hj2. rewrite lookup_insert_ne by (apply not_eq_sym, numbered_name). by apply Hj. }
  unfold FileOut.write, written. destruct (_ && _) eqn:E.
  - destruct (rotate_spec sys f fs main old Hr Ho Hc Hl) as (fs' & -> & Hl'). rewrite bind_Ok.
    destruct (Hw (MkFile true (file_name_ f) (max_file_count_ f) (max_file_size_ f) 0) fs' [] _ eq_refl eq_refl Hl')
      as (g' & gs' & -> & ? & ? & ? & ? & Hmc & ?). do 2 eexists. cbn [fst snd app file_name_ max_file_count_ max_file_size_] in *. split; [done|].
    split_and!; try done. unfold file_ok in *. split_and!; done || lia.
  - destruct (Hw f fs main old Hfd Hsz Hl) as (g' & gs' & -> & ? & ? & ? & ? & Hmc & ?). do 2 eexists. cbn [fst snd] in *.
    split; [done|]. split_and!; try done. unfold file_ok in *. split_and!; done || lia.
Qed.

(** ** The system log *)

(** A conversion that takes an argument: a percent sign before anything but
    another one and [m]. *)
Fixpoint has_conversion (s : list Z) : bool :=
  match s with
  | [] => false
  | 37 :: 37 :: s => has_conversion s
  | 37 :: 109 :: s => has_conversion s
  | 37 :: _ => true
  | _ :: s => has_conversion s
  end.

Lemma printf_outcome err s : if has_conversion s then Syslog.printf err s = Crash else is_ok (Syslog.printf err s) = true.
Proof.
  assert (forall n s, (length s < n)%nat -> if has_conversion s then Syslog.printf err s = Crash else is_ok (Syslog.printf err s) = true) as H.
  { clear. induction n as [|n IH]; [lia|]. intros s Hn. destruct s as [|c s]; [done|]. cbn [length] in Hn.
    pose proof (IH s ltac:(lia)) as IHs. destruct (Z.eq_dec c 37) as [->|Hc].
    - destruct s as [|d s]; [done|]. cbn [length] in Hn. pose proof (IH s ltac:(lia)) as IHs'. clear IHs.
      destruct (Z.eq_dec d 37) as [->|Hd]; [|destruct (Z.eq_dec d 109) as [->|Hd']].
      + cbn. destruct (has_conversion s); [by rewrite IHs'|]. by destruct (Syslog.printf err s).
      + cbn. destruct (has_conversion s); [by rewrite IHs'|]. by destruct (Syslog.printf err s).
      + cbn. repeat (case_match; try done).
    - assert (has_conversion (c :: s) = has_conversion s) as -> by (cbn; repeat (case_match; try done)).
      assert (Syslog.printf err (c :: s) = (r ← Syslog.printf err s; Ok (c :: r))) as -> by (cbn; repeat (case_match; try done)).
      destruct (has_conversion s); [by rewrite IHs|]. by destruct (Syslog.printf err s). }
  apply (H (S (length s))). lia.
Qed.

Lemma printf_conversion err s : Syslog.printf err s = Crash <-> has_conversion s = true.
Proof. pose proof (printf_outcome err s) as H. destruct (has_conversion s); [done|]. split; [|done]. intros E. by rewrite E in H. Qed.

(** ** A log *)
Record entry := MkEntry { e_now : list Z; e_level : Z; e_component : list Z; e_message : list Z }.

(** What is logged: times, components and texts as the program writes them. *)
Definition entry_ok (min : Z) (e : entry) : Prop :=
  min <= e_level e /\ (~ In 36 (e_now e) /\ ~ In 10 (e_now e)) /\ (~ In 36 (e_component e) /\ ~ In 10 (e_component e)) /\
  has_conversion (Syslog.c_str (e_message e)) = false.

Definition entry_lines (program : list Z) (e : entry) : list Z :=
  prefixed (log_prefix (e_now e) (if bool_decide (e_component e = []) then program else e_component e) (e_level e)) (lines_of [] (e_message e)).

(** The files of a log after some more text: a new file is begun when the
    current one has grown beyond its limit. *)
Definition append_lines (max_size count : Z) (fs : list Z * list (list Z)) (data : list Z) : list Z * list (list Z) :=
  if (0 <? max_size) && (max_size <? zlen fs.1) then (data, take (Z.to_nat count - 1) (fs.1 :: fs.2)) else (fs.1 ++ data, fs.2).

Definition log_all (sys : FileSystem) (err : list Z) (es : list entry) (l : Logger) (o : LogOutput) : result (Logger * LogOutput) :=
  foldM (fun '(l, o) e => Log.log sys err (e_now e) (e_level e) (e_component e) (e_message e) l o) (l, o) es.

(** The logger writes to a file and to the system log. *)
Definition logs_to (program : list Z) (max_size count : Z) (l : Logger) (o : LogOutput) (main : list Z) (old : list (list Z)) : Prop :=
  exists f, listeners_ l = [TFile program f; TSyslog] /\ file_ok f main /\ max_file_size_ f = max_size /\ max_file_count_ f = count /\
    log_files f (files o) main old.

Lemma syslog_ok err level m w : has_conversion (Syslog.c_str m) = false -> exists w', Syslog.log err level m w = Ok w'.
Proof.
  intros Hc. unfold Syslog.log. destruct (Syslog.priority level) as [z|]; [|by exists w].
  pose proof (printf_outcome err (Syslog.c_str m)) as Hp. rewrite Hc in Hp.
  destruct (Syslog.printf err (Syslog.c_str m)) as [t| | |]; try done. by exists (w ++ [(z, t)]).
Qed.

Section LogFile.
Variables (sys : FileSystem) (err program : list Z) (max_size count : Z).
Hypotheses (Hr : forall a b, can_rename sys a b = true) (Ho : forall a, can_open sys a = true).
Hypothesis Hprog : ~ In 36 program /\ ~ In 10 program.

Lemma log_one e l o main old : logs_to program max_size count l o main old -> entry_ok (min_level_ l) e ->
  exists l' o', Log.log sys err (e_now e) (e_level e) (e_component e) (e_message e) l o = Ok (l', o') /\ min_level_ l' = min_level_ l /\
    let fs := append_lines max_size count (main, old) (entry_lines program e) in logs_to program max_size count l' o' fs.1 fs.2.
Proof.
  intros (f & El & Hf & Hsz & Hct & Hlf) (Hlv & [Hn1 Hn2] & [Hc1 Hc2] & Hm). unfold Log.log. rewrite (proj2 (Z.ltb_ge _ _)) by lia.
  rewrite El. cbn [Log.listeners_log Log.target_log]. rewrite file_lines_exact by apply Hprog || done. rewrite bind_Ok.
  destruct (write_spec sys f (files o) (entry_lines program e) main old Hr Ho Hf Hlf) as (f' & fs' & Ew & Hf' & _ & Hsz' & Hct' & Hlf').
  unfold entry_lines in Ew. rewrite Ew, !bind_Ok. cbn [syslog_ files]. destruct (syslog_ok err (e_level e) (e_message e) (syslog_ o) Hm) as [w' ->].
  rewrite !bind_Ok. eexists _, _. split; [done|]. split; [done|]. cbv zeta. exists f'.
  assert (written f (entry_lines program e) main old = append_lines max_size count (main, old) (entry_lines program e)) as <-.
  { unfold written, append_lines. destruct Hf as (_ & _ & ->). by rewrite Hsz, Hct. }
  split_and!; try done; congruence.
Qed.

Lemma log_all_spec es l o main old : logs_to program max_size count l o main old -> Forall (entry_ok (min_level_ l)) es ->
  exists l' o', log_all sys err es l o = Ok (l', o') /\
    let fs := foldl (append_lines max_size count) (main, old) (entry_lines program <$> es) in logs_to program max_size count l' o' fs.1 fs.2.
Proof.
  revert l o main old. induction es as [|e es IH]; intros l o main old Hl He; [by exists l, o|]. apply Forall_cons in He as [He Hes].
  destruct (log_one e l o main old Hl He) as (l1 & o1 & E & Hmin & Hl1). unfold log_all. cbn [foldM]. rewrite E, bind_Ok.
  cbn [fmap list_fmap foldl]. rewrite <- Hmin in Hes. specialize (IH l1 o1 _ _ Hl1 Hes). by rewrite <- surjective_pairing in IH.
Qed.
End LogFile.

(** The system log alone: a message ends the process exactly when it holds a
    conversion. *)
Lemma c_str_twice s : Syslog.c_str (Syslog.c_str s) = Syslog.c_str s.
Proof. induction s as [|c s IH]; [done|]. cbn. destruct (c =? 0) eqn:E; [done|]. cbn. by rewrite E, IH. Qed.

Lemma syslog_crash err m now component sys l o : listeners_ l = [TSyslog] -> min_level_ l <= LogLevel.kInfo ->
  Log.log sys err now LogLevel.kInfo component m l o = Crash <-> has_conversion (Syslog.c_str m) = true.
Proof.
  intros El Hl. unfold Log.log. rewrite (proj2 (Z.ltb_ge _ _)) by lia. rewrite El. cbn [Log.listeners_log Log.target_log].
  unfold Syslog.log. change (Syslog.priority LogLevel.kInfo) with (Some 6). cbv iota.
  pose proof (printf_outcome err (Syslog.c_str m)) as Hp. destruct (has_conversion (Syslog.c_str m)); [by rewrite Hp|].
  by destruct (Syslog.printf err (Syslog.c_str m)).
Qed.
