(* ===== verification/Pkt.v ===== *)
(** DHCPv4 messages: class [Pkt] of dhcp++/pkt.h and pkt.cpp.

    The record has the members of the class except [timestamp_], which no
    operation reads.  [pack] writes into the [OutputBuffer] model and
    [unpack] reads through the [InputBuffer] model, call by call as the
    source does; an exception leaves a packet that the callers drop, so only
    the exception is kept. *)
From stdpp Require Import base list numbers option strings gmap.
From Stdlib Require Import ZArith Lia.
From S2P Require Import Prelude Buffer HwAddr Address DnsName OptionDef Options.

(** ** Constants of dhcp4.h and pkt.h *)
Definition BOOTREQUEST : Z := 1.
Definition BOOTREPLY : Z := 2.

Definition DHCP_NOTYPE : Z := 0.
Definition DHCPDISCOVER : Z := 1.
Definition DHCPOFFER : Z := 2.
Definition DHCPREQUEST : Z := 3.
Definition DHCPDECLINE : Z := 4.
Definition DHCPACK : Z := 5.
Definition DHCPNAK : Z := 6.
Definition DHCPRELEASE : Z := 7.
Definition DHCPINFORM : Z := 8.
Definition DHCPLEASEQUERY : Z := 10.
Definition DHCPLEASEUNASSIGNED : Z := 11.
Definition DHCPLEASEUNKNOWN : Z := 12.
Definition DHCPLEASEACTIVE : Z := 13.
Definition DHCPBULKLEASEQUERY : Z := 14.
Definition DHCPLEASEQUERYDONE : Z := 15.
Definition DHCPCONFLICTIP : Z := 16.

Definition DHCP4_CLIENT_PORT : Z := 68.
Definition DHCP4_SERVER_PORT : Z := 67.
Definition DHCP_OPTIONS_COOKIE : Z := 0x63825363.

Definition MAX_CHADDR_LEN : Z := 16.
Definition MAX_SNAME_LEN : Z := 64.
Definition MAX_FILE_LEN : Z := 128.
Definition DHCPV4_PKT_HDR_LEN : Z := 236.
Definition FLAG_BROADCAST_MASK : Z := 0x8000.

(** ** The message *)
Record Pkt := MkPkt {
  ifindex_ : Z; transid_ : Z; iface_ : string;
  local_addr_ : IOAddress; remote_addr_ : IOAddress;
  buffer_out_ : OutputBuffer.t; copy_retrieved_options_ : bool;
  chaddr_ : HWAddr; local_hwaddr_ : HWAddr; remote_hwaddr_ : HWAddr;
  pdata_ : list Z; classes_ : gset string; poptions_ : coll;
  op_ : Z; hops_ : Z; secs_ : Z; flags_ : Z; local_port_ : Z; remote_port_ : Z;
  ciaddr_ : IOAddress; yiaddr_ : IOAddress; siaddr_ : IOAddress; giaddr_ : IOAddress;
  sname_ : list Z; file_ : list Z }.

#[global] Instance Pkt_eta : Eta Pkt := fun p =>
  MkPkt (ifindex_ p) (transid_ p) (iface_ p) (local_addr_ p) (remote_addr_ p)
    (buffer_out_ p) (copy_retrieved_options_ p) (chaddr_ p) (local_hwaddr_ p) (remote_hwaddr_ p)
    (pdata_ p) (classes_ p) (poptions_ p) (op_ p) (hops_ p) (secs_ p) (flags_ p)
    (local_port_ p) (remote_port_ p) (ciaddr_ p) (yiaddr_ p) (siaddr_ p) (giaddr_ p)
    (sname_ p) (file_ p).

(** Overwriting the option [find] returns, in place. *)
Fixpoint mreplace (k : Z) (o : opt) (c : coll) : coll :=
  match c with
  | [] => []
  | (k', o') :: c' => if k' =? k then (k', o) :: c' else (k', o') :: mreplace k o c'
  end.

(** [OptionInt<T>(type, value)]: the encapsulated space is always "dhcp4". *)
Definition OptionInt_make (t : int_type) (type value : Z) : result opt :=
  o ← Option_.make type;
  Ok (setEncapsulatedSpace DHCP4_OPTION_SPACE (set_body (BInt t (cast t value)) o)).

Module P.

Definition DHCPTypeToBootpType (dhcpType : Z) : result Z :=
  if bool_decide (dhcpType ∈ [DHCPDISCOVER; DHCPREQUEST; DHCPDECLINE; DHCPRELEASE; DHCPINFORM;
                              DHCPLEASEQUERY; DHCPBULKLEASEQUERY; DHCPCONFLICTIP])
  then Ok BOOTREQUEST
  else if bool_decide (dhcpType ∈ [DHCPACK; DHCPNAK; DHCPOFFER; DHCPLEASEUNASSIGNED;
                                   DHCPLEASEUNKNOWN; DHCPLEASEACTIVE; DHCPLEASEQUERYDONE])
  then Ok BOOTREPLY
  else Throw OutOfRange.

Definition getOption (type : Z) (p : Pkt) : option opt := mfind type (poptions_ p).

Definition addOption (o : opt) (p : Pkt) : result Pkt :=
  throw_if (match getOption (type_ o) p with Some _ => true | None => false end) BadValue;;
  Ok (p <| poptions_ := minsert (type_ o) o (poptions_ p) |>).

Definition delOption (type : Z) (p : Pkt) : Pkt * bool :=
  let '(c, b) := merase type (poptions_ p) in (p <| poptions_ := c |>, b).

Definition addClass (client_class : string) (p : Pkt) : Pkt :=
  if bool_decide (client_class ∈ classes_ p) then p
  else p <| classes_ := {[client_class]} ∪ classes_ p |>.

Definition inClass (client_class : string) (p : Pkt) : bool := bool_decide (client_class ∈ classes_ p).

(** [dynamic_cast<OptionInt<uint8_t>*>] succeeds on [BInt Uint8] only. *)
Definition getType (p : Pkt) : result Z :=
  match getOption DHO_DHCP_MESSAGE_TYPE p with
  | None => Ok DHCP_NOTYPE
  | Some o =>
      match body_ o with
      | BInt Uint8 value => Ok value
      | _ => Option_.getUint8 o
      end
  end.

Definition setType (dhcp_type : Z) (p : Pkt) : result Pkt :=
  match getOption DHO_DHCP_MESSAGE_TYPE p with
  | Some o =>
      o' ← match body_ o with
           | BInt Uint8 _ => Ok (set_body (BInt Uint8 (u8 dhcp_type)) o)
           | _ => Option_.setUint8 dhcp_type o
           end;
      Ok (p <| poptions_ := mreplace DHO_DHCP_MESSAGE_TYPE o' (poptions_ p) |>)
  | None =>
      o ← OptionInt_make Uint8 DHO_DHCP_MESSAGE_TYPE dhcp_type;
      addOption o p
  end.

Definition blank (op transid : Z) : Pkt :=
  MkPkt (-1) transid "" IOAddr.IPV4_ZERO_ADDRESS IOAddr.IPV4_ZERO_ADDRESS
    (OutputBuffer.Mk [] 0 0) false HW.empty HW.empty HW.empty [] ∅ []
    op 0 0 0 DHCP4_SERVER_PORT DHCP4_CLIENT_PORT
    IOAddr.IPV4_ZERO_ADDRESS IOAddr.IPV4_ZERO_ADDRESS IOAddr.IPV4_ZERO_ADDRESS
    IOAddr.IPV4_ZERO_ADDRESS (replicate 64 0) (replicate 128 0).

(** [Pkt(msg_type, transid)] *)
Definition make (msg_type transid : Z) : result Pkt :=
  op ← DHCPTypeToBootpType msg_type;
  setType msg_type (blank op transid).

(** [Pkt(data, len)] *)
Definition make_data (data : list Z) : result Pkt :=
  throw_if (zlen data <? DHCPV4_PKT_HDR_LEN) OutOfRange;;
  Ok ((blank BOOTREQUEST 0) <| pdata_ := data |>).

(** [length += it.second->len()] over the options. *)
Definition len (p : Pkt) : result Z :=
  l ← sum_results (map (fun q => Options.len q.2) (poptions_ p));
  Ok (DHCPV4_PKT_HDR_LEN + l).

Section Pack.
Variable alloc_ok : Z -> bool.

Definition w8 := OutputBuffer.writeUint8 alloc_ok.
Definition w16 := OutputBuffer.writeUint16 alloc_ok.
Definition w32 := OutputBuffer.writeUint32 alloc_ok.
Definition wdata := OutputBuffer.writeData alloc_ok.
Definition waddr (a : IOAddress) (b : OutputBuffer.t) : result OutputBuffer.t :=
  v ← IOAddr.to_uint32 a; w32 v b.

(** The body of the [try] block of [pack]: the fixed fields and the cookie,
    then the options. *)
Definition pack_head (p : Pkt) (b : OutputBuffer.t) : result OutputBuffer.t :=
  let hw_len := zlen (hwaddr_ (chaddr_ p)) in
  b ← w8 (op_ p) b;
  b ← w8 (htype_ (chaddr_ p)) b;
  b ← w8 (if hw_len <? MAX_CHADDR_LEN then hw_len else MAX_CHADDR_LEN) b;
  b ← w8 (hops_ p) b;
  b ← w32 (transid_ p) b;
  b ← w16 (secs_ p) b;
  b ← w16 (flags_ p) b;
  b ← waddr (ciaddr_ p) b;
  b ← waddr (yiaddr_ p) b;
  b ← waddr (siaddr_ p) b;
  b ← waddr (giaddr_ p) b;
  '(b, hw_len) ←
    (if (0 <? hw_len) && (hw_len <=? MAX_CHADDR_LEN) then
       b ← wdata (hwaddr_ (chaddr_ p)) b; Ok (b, MAX_CHADDR_LEN - hw_len)
     else Ok (b, MAX_CHADDR_LEN));
  b ← (if 0 <? hw_len then wdata (replicate (Z.to_nat hw_len) 0) b else Ok b);
  b ← wdata (sname_ p) b;
  b ← wdata (file_ p) b;
  w32 DHCP_OPTIONS_COOKIE b.

Definition pack_body (p : Pkt) (b : OutputBuffer.t) : result OutputBuffer.t :=
  b ← pack_head p b;
  os ← packOptions4 (poptions_ p);
  b ← wdata os b;
  w8 DHO_END b.

Definition pack (p : Pkt) : result Pkt :=
  b ← try_kea (pack_body p (OutputBuffer.clear (buffer_out_ p))) (fun _ => Throw InvalidOperation);
  Ok (p <| buffer_out_ := b |>).

End Pack.

Section Unpack.
Variable lib : LibDHCP.
Import InputBuffer.

Definition raddr (b : InputBuffer.t) : result (IOAddress * InputBuffer.t) :=
  '(v, b) ← readUint32 b; Ok (IOAddr.of_uint32 v, b).

Definition unpack (p : Pkt) : result Pkt :=
  let b := InputBuffer.make (pdata_ p) in
  throw_if (getLength b <? DHCPV4_PKT_HDR_LEN) OutOfRange;;
  '(op, b) ← readUint8 b;
  '(htype, b) ← readUint8 b;
  '(hlen, b) ← readUint8 b;
  '(hops, b) ← readUint8 b;
  '(transid, b) ← readUint32 b;
  '(secs, b) ← readUint16 b;
  '(flags, b) ← readUint16 b;
  '(ciaddr, b) ← raddr b;
  '(yiaddr, b) ← raddr b;
  '(siaddr, b) ← raddr b;
  '(giaddr, b) ← raddr b;
  '(hw_addr, b) ← readVector MAX_CHADDR_LEN b;
  '(sname, b) ← readData MAX_SNAME_LEN b;
  '(file, b) ← readData MAX_FILE_LEN b;
  hwaddr ← HW.make (resize hw_addr hlen) htype;
  throw_if (getLength b =? getPosition b) InvalidOperation;;
  throw_if (getLength b - getPosition b <? 4) Unexpected;;
  '(magic, b) ← readUint32 b;
  throw_if (negb (magic =? DHCP_OPTIONS_COOKIE)) Unexpected;;
  let opts_len := getLength b - getPosition b in
  '(opts_buffer, b) ← readVector opts_len b;
  '(_, options) ← unpackOptions4 lib opts_buffer DHCP4_OPTION_SPACE (poptions_ p);
  Ok (p <| op_ := op |> <| hops_ := hops |> <| transid_ := transid |> <| secs_ := secs |>
        <| flags_ := flags |> <| ciaddr_ := ciaddr |> <| yiaddr_ := yiaddr |>
        <| siaddr_ := siaddr |> <| giaddr_ := giaddr |> <| sname_ := sname |>
        <| file_ := file |> <| chaddr_ := hwaddr |> <| poptions_ := options |>).

End Unpack.

Definition getName_of (type : Z) : string :=
  if type =? DHCPDISCOVER then "DHCPDISCOVER"
  else if type =? DHCPOFFER then "DHCPOFFER"
  else if type =? DHCPREQUEST then "DHCPREQUEST"
  else if type =? DHCPDECLINE then "DHCPDECLINE"
  else if type =? DHCPACK then "DHCPACK"
  else if type =? DHCPNAK then "DHCPNAK"
  else if type =? DHCPRELEASE then "DHCPRELEASE"
  else if type =? DHCPINFORM then "DHCPINFORM"
  else "UNKNOWN".

Definition getName (p : Pkt) : result string := t ← getType p; Ok (getName_of t).

Definition checked_hwaddr (htype hlen : Z) (mac_addr : list Z) : result HWAddr :=
  throw_if (MAX_CHADDR_LEN <? hlen) OutOfRange;;
  throw_if (bool_decide (mac_addr = []) && (0 <? hlen)) OutOfRange;;
  HW.make mac_addr htype.

Definition setHWAddr (htype hlen : Z) (mac_addr : list Z) (p : Pkt) : result Pkt :=
  a ← checked_hwaddr htype hlen mac_addr; Ok (p <| chaddr_ := a |>).
Definition setLocalHWAddr (htype hlen : Z) (mac_addr : list Z) (p : Pkt) : result Pkt :=
  a ← checked_hwaddr htype hlen mac_addr; Ok (p <| local_hwaddr_ := a |>).

Definition getHlen (p : Pkt) : Z :=
  let len := u8 (zlen (hwaddr_ (chaddr_ p))) in if len <=? MAX_CHADDR_LEN then len else MAX_CHADDR_LEN.

(** A C pointer is [None] when null and otherwise the bytes behind it. *)
Definition fixed_field (max : Z) (src : option (list Z)) (srcLen : Z) : result (list Z) :=
  throw_if (max <? srcLen) OutOfRange;;
  match src with
  | None => Throw InvalidParameter
  | Some s => d ← slice s 0 srcLen; Ok (d ++ replicate (Z.to_nat (max - srcLen)) 0)
  end.

Definition setSname (sname : option (list Z)) (snameLen : Z) (p : Pkt) : result Pkt :=
  s ← fixed_field MAX_SNAME_LEN sname snameLen; Ok (p <| sname_ := s |>).
Definition setFile (file : option (list Z)) (fileLen : Z) (p : Pkt) : result Pkt :=
  s ← fixed_field MAX_FILE_LEN file fileLen; Ok (p <| file_ := s |>).

Definition isRelayed (p : Pkt) : bool :=
  negb (IOAddr.isV4Zero (giaddr_ p)) && negb (IOAddr.isV4Bcast (giaddr_ p)).

End P.
