(* ===== verification/Lru.v ===== *)
(** The least-recently-used cache: util/lru_cache.h.

    [cache_items_list_] is a list of nodes with identities: an iterator of the
    [std::list] is the identity of its node, which stays valid when nodes are
    spliced or others are erased.  Using an iterator whose node is gone is a
    [Crash].  The abstract cache is the list of entries, the most recent
    first. *)
From stdpp Require Import base list numbers option gmap.
From Stdlib Require Import ZArith Lia.
From S2P Require Import Prelude.

Lemma NoDup_fmap_filter {A B} (f : A -> B) (P : A -> Prop) `{!forall x, Decision (P x)} l :
  NoDup (f <$> l) -> NoDup (f <$> filter P l).
Proof.
  induction l as [|x l IH]; [done|]. rewrite filter_cons. cbn [fmap list_fmap]. intros [Hx Hl]%NoDup_cons.
  case_decide; [|by apply IH]. cbn [fmap list_fmap]. apply NoDup_cons. split; [|by apply IH].
  intros (y & E & Hy)%list_elem_of_fmap. apply list_elem_of_filter in Hy as [_ Hy]. apply Hx. rewrite E.
  by apply list_elem_of_fmap_2.
Qed.

Definition MAX_CACHE_ITEM_COUNT : Z := 10240.
Abbreviation iter := nat.

Record LruCache (K V : Type) `{Countable K} := MkLruCache {
  cache_items_list_ : list (iter * (K * V));
  cache_items_map_ : gmap K iter;
  max_size_ : Z;
  (** the identity of the next node *)
  next_node : iter }.
Arguments MkLruCache {K V _ _}.
Arguments cache_items_list_ {K V _ _}.
Arguments cache_items_map_ {K V _ _}.
Arguments max_size_ {K V _ _}.
Arguments next_node {K V _ _}.

Module Lru.
Section Lru.
Context {K V : Type} `{Countable K}.
Implicit Types (c : LruCache K V) (key : K) (l : list (iter * (K * V))).

Definition make (max_size : Z) : LruCache K V :=
  let max_size := u64 max_size in
  MkLruCache [] ∅ (if max_size =? 0 then MAX_CACHE_ITEM_COUNT else max_size) 0%nat.

(** [*it], and the list without the node. *)
Fixpoint node (it : iter) l : result (K * V) :=
  match l with
  | [] => Crash
  | (i, p) :: l => if decide (i = it) then Ok p else node it l
  end.
Fixpoint erase (it : iter) l : result (list (iter * (K * V))) :=
  match l with
  | [] => Crash
  | (i, p) :: l => if decide (i = it) then Ok l else l ← erase it l; Ok ((i, p) :: l)
  end.

Definition pop_back l : result (K * list (iter * (K * V))) :=
  match last l with None => Crash | Some (_, (k, _)) => Ok (k, take (length l - 1) l) end.

Definition put key (value : V) c : result (LruCache K V) :=
  let l := (next_node c, (key, value)) :: cache_items_list_ c in
  '(l, m) ← match cache_items_map_ c !! key with
            | Some it => l ← erase it l; Ok (l, delete key (cache_items_map_ c))
            | None => Ok (l, cache_items_map_ c)
            end;
  let m := <[key := next_node c]> m in
  '(l, m) ← (if max_size_ c <? Z.of_nat (size m) then
               '(last_key, l) ← pop_back l; Ok (l, delete last_key m)
             else Ok (l, m));
  Ok (MkLruCache l m (max_size_ c) (S (next_node c))).

(** [splice(begin(), list, it)] *)
Definition splice_front (it : iter) c : result (LruCache K V) :=
  p ← node it (cache_items_list_ c);
  l ← erase it (cache_items_list_ c);
  Ok (MkLruCache ((it, p) :: l) (cache_items_map_ c) (max_size_ c) (next_node c)).

(** The reference that is returned is the node. *)
Definition get key c : result (iter * LruCache K V) :=
  match cache_items_map_ c !! key with
  | None => Throw RangeError
  | Some it => c ← splice_front it c; Ok (it, c)
  end.
Definition find key c : result (option iter * LruCache K V) :=
  match cache_items_map_ c !! key with
  | None => Ok (None, c)
  | Some it => c ← splice_front it c; Ok (Some it, c)
  end.

Definition exists_ key c : bool := bool_decide (is_Some (cache_items_map_ c !! key)).
Definition size c : Z := Z.of_nat (base.size (cache_items_map_ c)).

(** Reading and writing through a reference to the value of a node. *)
Definition read (it : iter) c : result V := p ← node it (cache_items_list_ c); Ok p.2.
Definition write (it : iter) (v : V) c : result (LruCache K V) :=
  node it (cache_items_list_ c);;
  Ok (MkLruCache ((fun n => if decide (n.1 = it) then (it, (n.2.1, v)) else n) <$> cache_items_list_ c)
        (cache_items_map_ c) (max_size_ c) (next_node c)).
End Lru.
End Lru.

(** ** The abstract cache *)
Section Spec.
Context {K V : Type} `{Countable K}.

Definition drop_key (k : K) (es : list (K * V)) : list (K * V) := filter (fun e => e.1 <> k) es.
Definition touch (k : K) (v : V) (es : list (K * V)) : list (K * V) := (k, v) :: drop_key k es.
Definition entry (k : K) (es : list (K * V)) : option V := snd <$> List.find (fun e => bool_decide (e.1 = k)) es.

Definition spec_put (max : Z) (k : K) (v : V) (es : list (K * V)) : list (K * V) := take (Z.to_nat max) (touch k v es).

(** The map finds exactly the nodes of the list. *)
Definition indexed (l : list (iter * (K * V))) (m : gmap K iter) : Prop :=
  forall k it, m !! k = Some it <-> exists v, (it, (k, v)) ∈ l.
Definition keys (l : list (iter * (K * V))) : list K := (fun n => n.2.1) <$> l.

(** The cache [c] holds [es]. *)
Record holds (c : LruCache K V) (es : list (K * V)) : Prop := MkHolds {
  ho_list : snd <$> cache_items_list_ c = es;
  ho_keys : NoDup (fst <$> es);
  ho_iters : NoDup (fst <$> cache_items_list_ c);
  ho_fresh : Forall (fun n => n.1 < next_node c)%nat (cache_items_list_ c);
  ho_map : indexed (cache_items_list_ c) (cache_items_map_ c);
  ho_max : 0 < max_size_ c;
  ho_size : zlen es <= max_size_ c }.
End Spec.

Section Facts.
Context {K V : Type} `{Countable K}.
Implicit Types (c : LruCache K V) (l : list (iter * (K * V))) (es : list (K * V)).

Lemma keys_snd l : fst <$> (snd <$> l) = keys l.
Proof. unfold keys. by rewrite <- list_fmap_compose. Qed.

Lemma node_unique l it p p' : NoDup (fst <$> l) -> (it, p) ∈ l -> (it, p') ∈ l -> p = p'.
Proof.
  induction l as [|[i q] l IH]; cbn [fmap list_fmap]; [by intros _ ?%elem_of_nil|].
  intros [Hi Hn]%NoDup_cons [E1|H1]%elem_of_cons [E2|H2]%elem_of_cons; simplify_eq/=; [done| | |by apply IH].
  - by apply (list_elem_of_fmap_2 fst) in H2.
  - by apply (list_elem_of_fmap_2 fst) in H1.
Qed.

Lemma key_unique l it it' k v v' : NoDup (keys l) -> (it, (k, v)) ∈ l -> (it', (k, v')) ∈ l -> it = it' /\ v = v'.
Proof.
  unfold keys. induction l as [|[i q] l IH]; cbn [fmap list_fmap]; [by intros _ ?%elem_of_nil|].
  intros [Hi Hn]%NoDup_cons [E1|H1]%elem_of_cons [E2|H2]%elem_of_cons; simplify_eq/=; [done| | |by apply IH].
  - by apply (list_elem_of_fmap_2 (fun n => n.2.1)) in H2.
  - by apply (list_elem_of_fmap_2 (fun n => n.2.1)) in H1.
Qed.

Lemma node_ok l it p : NoDup (fst <$> l) -> (it, p) ∈ l -> Lru.node it l = Ok p.
Proof.
  induction l as [|[i q] l IH]; [by intros _ ?%elem_of_nil|]. intros Hn Hin. cbn [Lru.node].
  case_decide as E; [|].
  - subst i. f_equal. eapply node_unique; [exact Hn|by left|done].
  - cbn in Hn. apply NoDup_cons in Hn as [_ Hn]. apply IH; [done|].
    apply elem_of_cons in Hin as [[= <- _]|]; done.
Qed.

Lemma erase_ok l it p : NoDup (fst <$> l) -> (it, p) ∈ l -> Lru.erase it l = Ok (filter (fun n => n.1 <> it) l).
Proof.
  induction l as [|[i q] l IH]; [by intros _ ?%elem_of_nil|]. cbn [fmap list_fmap fst]. intros [Hi Hn]%NoDup_cons Hin.
  cbn [Lru.erase]. rewrite filter_cons. cbn [fst]. case_decide as E.
  - subst i. rewrite decide_False by tauto. f_equal. symmetry. apply filter_all, Forall_forall. intros n Hn' E'. apply Hi.
    rewrite <- E'. by apply list_elem_of_fmap_2.
  - rewrite decide_True by done. apply elem_of_cons in Hin as [[= <- _]|Hin]; [done|]. by rewrite IH.
Qed.

(** Erasing the node of a key drops the key. *)
Lemma erase_drops l it k v : NoDup (fst <$> l) -> NoDup (keys l) -> (it, (k, v)) ∈ l ->
  snd <$> filter (fun n => n.1 <> it) l = drop_key k (snd <$> l).
Proof.
  intros Hi Hk Hin. unfold drop_key.
  assert (forall n, n ∈ l -> n.1 = it <-> n.2.1 = k) as Hiff.
  { intros [i [j w]] Hn. cbn. split; intros ->.
    - by pose proof (node_unique _ _ _ _ Hi Hn Hin) as [= -> _].
    - by destruct (key_unique _ _ _ _ _ _ Hk Hn Hin). }
  clear Hi Hk Hin. induction l as [|n l IH]; [done|]. cbn [fmap list_fmap]. rewrite !filter_cons.
  assert (n.1 = it <-> n.2.1 = k) as Hn by (apply Hiff; by left).
  specialize (IH (fun n Hn => Hiff n (list_elem_of_further _ _ _ Hn))).
  destruct (decide (n.1 = it)) as [E|E].
  - rewrite !decide_False by tauto. done.
  - rewrite !decide_True by tauto. cbn [fmap list_fmap]. by rewrite IH.
Qed.

Lemma drop_absent k es : k ∉ fst <$> es -> drop_key k es = es.
Proof.
  intros Hk. apply filter_all, Forall_forall. intros e He E. apply Hk. rewrite <- E. by apply list_elem_of_fmap_2.
Qed.

Lemma indexed_size l m : NoDup (keys l) -> indexed l m -> base.size m = length l.
Proof.
  intros Hk Hm. assert (m = list_to_map ((fun n => (n.2.1, n.1)) <$> l)) as ->.
  { apply map_eq. intros k. apply option_eq. intros it. unfold indexed in Hm. rewrite (Hm k it).
    rewrite <- elem_of_list_to_map by (rewrite <- list_fmap_compose; exact Hk).
    rewrite list_elem_of_fmap. split.
    - intros (v & Hv). by exists (it, (k, v)).
    - intros ([i [j v]] & [= -> ->] & Hv). by exists v. }
  rewrite map_size_list_to_map by (rewrite <- list_fmap_compose; exact Hk). by rewrite length_fmap.
Qed.

(** *** Moving and removing nodes *)
Lemma indexed_drop l m it k v : NoDup (fst <$> l) -> NoDup (keys l) -> indexed l m -> (it, (k, v)) ∈ l ->
  indexed (filter (fun n => n.1 <> it) l) (delete k m).
Proof.
  intros Hi Hk Hm Hin j i. rewrite lookup_delete_Some, (Hm j i). setoid_rewrite list_elem_of_filter. cbn [fst]. split.
  - intros (Hj & w & Hw). exists w. split; [|done]. intros ->. by pose proof (node_unique _ _ _ _ Hi Hw Hin) as [= -> _].
  - intros (w & Hne & Hw). split; [|by exists w]. intros ->. by destruct (key_unique _ _ _ _ _ _ Hk Hw Hin).
Qed.

Lemma indexed_push l m it k v : indexed l m -> k ∉ keys l -> indexed ((it, (k, v)) :: l) (<[k := it]> m).
Proof.
  intros Hm Hk j i. setoid_rewrite elem_of_cons. rewrite lookup_insert_Some, (Hm j i). split.
  - intros [[<- <-]|(Hj & w & Hw)]; [exists v; by left|exists w; by right].
  - intros (w & [[= -> -> ->]|Hw]); [by left|]. right. split; [|by exists w]. intros ->. apply Hk.
    by apply (list_elem_of_fmap_2 (fun n => n.2.1)) in Hw.
Qed.

Lemma keys_drop l it k v : NoDup (fst <$> l) -> NoDup (keys l) -> (it, (k, v)) ∈ l ->
  k ∉ keys (filter (fun n => n.1 <> it) l).
Proof.
  intros Hi Hk Hin (n & -> & Hn)%list_elem_of_fmap. apply list_elem_of_filter in Hn as [Hne Hn].
  destruct n as [i [j w]]. cbn in *. by destruct (key_unique _ _ _ _ _ _ Hk Hn Hin).
Qed.

(** What moving or storing an entry in front leaves: the list without the
    node of the key, if it had one. *)
Lemma holds_rest c es k : holds c es -> exists l m,
  (match cache_items_map_ c !! k with
  | Some it => (exists v, (it, (k, v)) ∈ cache_items_list_ c) /\
      l = filter (fun n => n.1 <> it) (cache_items_list_ c) /\ m = delete k (cache_items_map_ c)
  | None => l = cache_items_list_ c /\ m = cache_items_map_ c
  end) /\
  (snd <$> l) = drop_key k es /\ (k ∉ keys l) /\ NoDup (keys l) /\ NoDup (fst <$> l) /\ indexed l m /\
  Forall (fun n => n.1 < next_node c)%nat l /\ (forall n, n ∈ l -> n ∈ cache_items_list_ c).
Proof.
  intros [El Hk Hi Hf Hm _ _]. rewrite <- El, keys_snd in Hk.
  destruct (cache_items_map_ c !! k) as [it|] eqn:E.
  - apply Hm in E as (v & Hv). eexists _, _. split; [split; [by exists v|done]|]. split_and!.
    + rewrite <- El. by eapply erase_drops.
    + by eapply keys_drop.
    + by apply NoDup_fmap_filter.
    + by apply NoDup_fmap_filter.
    + by eapply indexed_drop.
    + rewrite Forall_forall in *. intros n [_ ?]%list_elem_of_filter. by apply Hf.
    + by intros n [_ ?]%list_elem_of_filter.
  - eexists _, _. split; [done|]. assert (k ∉ keys (cache_items_list_ c)) as Hno.
    { intros ([i [j v]] & -> & Hin)%list_elem_of_fmap. cbn in E.
      assert (cache_items_map_ c !! j = Some i) as E' by (apply Hm; by exists v). by rewrite E in E'. }
    split_and!; try done. rewrite <- El. symmetry. apply drop_absent. by rewrite keys_snd.
Qed.

Lemma zlen_drop_key k es : zlen (drop_key k es) <= zlen es.
Proof. unfold zlen, drop_key. pose proof (length_filter (fun e : K * V => e.1 <> k) es). lia. Qed.

(** *** The operations *)
Lemma make_size n : 0 < max_size_ (Lru.make n : LruCache K V).
Proof.
  unfold Lru.make, u64. cbn [max_size_]. pose proof (Z.mod_pos_bound n (2^64) ltac:(lia)).
  destruct (Z.eqb_spec (n mod 2^64) 0); [done|lia].
Qed.

Lemma holds_make n : holds (Lru.make n : LruCache K V) [].
Proof.
  pose proof (make_size n). split; try done; try constructor; try done.
  - by intros (v & ?%elem_of_nil).
  - change (zlen []) with 0. lia.
Qed.

Lemma entry_find k es v : entry k es = Some v -> (k, v) ∈ es.
Proof.
  unfold entry. destruct (List.find _ es) as [[j w]|] eqn:E; [|done]. intros [= <-].
  apply List.find_some in E as [Hin Hj%bool_decide_eq_true]. cbn in Hj. subst j. by apply list_elem_of_In.
Qed.

Lemma entry_none k es : entry k es = None -> k ∉ fst <$> es.
Proof.
  unfold entry. destruct (List.find _ es) eqn:E; [done|]. intros _ (e & -> & He)%list_elem_of_fmap.
  apply list_elem_of_In, (List.find_none _ _ E), bool_decide_eq_false in He. done.
Qed.

Lemma NoDup_take {A} n (l : list A) : NoDup l -> NoDup (take n l).
Proof. rewrite <- (take_drop n l) at 1. by intros [? _]%NoDup_app. Qed.

(** Removing the last node and its key. *)
Lemma pop_back_ok l m : l <> [] -> NoDup (keys l) -> indexed l m ->
  exists k, Lru.pop_back l = Ok (k, take (length l - 1) l) /\ indexed (take (length l - 1) l) (delete k m).
Proof.
  intros Hne Hk Hm. destruct l as [|[it [k v]] l _] using rev_ind; [done|].
  unfold Lru.pop_back. rewrite last_snoc. exists k. split; [done|].
  rewrite length_app, Nat.add_sub, take_app_length.
  unfold keys in Hk. rewrite fmap_app in Hk. apply NoDup_app in Hk as (_ & Hkd & _).
  intros j i. rewrite lookup_delete_Some, (Hm j i). setoid_rewrite elem_of_app. setoid_rewrite list_elem_of_singleton. split.
  - intros (Hj & w & [Hw|[= -> -> ->]]); [by exists w|done].
  - intros (w & Hw). split; [|exists w; by left]. intros <-.
    apply (Hkd k); [|by left]. by apply (list_elem_of_fmap_2 (fun n => n.2.1)) in Hw.
Qed.

Lemma put_holds c es k v : holds c es -> exists c',
  Lru.put k v c = Ok c' /\ holds c' (spec_put (max_size_ c) k v es) /\ max_size_ c' = max_size_ c.
Proof.
  intros Hc. destruct (holds_rest c es k Hc) as (l & m & Hrest & El & Hk & Hkl & Hil & Hml & Hf & Hsub).
  pose proof Hc as [Ec _ Hi Hfc _ Hmax Hsz]. set (n := next_node c) in *.
  assert (n ∉ fst <$> l) as Hn.
  { intros (x & Ex & Hx)%list_elem_of_fmap. rewrite Forall_forall in Hf. specialize (Hf x Hx). cbn in Hf. lia. }
  unfold Lru.put. fold n.
  assert ((match cache_items_map_ c !! k with
    | Some it => l ← Lru.erase it ((n, (k, v)) :: cache_items_list_ c); Ok (l, delete k (cache_items_map_ c))
    | None => Ok ((n, (k, v)) :: cache_items_list_ c, cache_items_map_ c)
    end) = Ok ((n, (k, v)) :: l, m)) as ->.
  { destruct (cache_items_map_ c !! k) as [it|]; [|by destruct Hrest as [-> ->]].
    destruct Hrest as ((w & Hw) & -> & ->). cbn [Lru.erase].
    rewrite decide_False by (rewrite Forall_forall in Hfc; specialize (Hfc _ Hw); cbn in Hfc; lia).
    by rewrite (erase_ok _ _ _ Hi Hw). }
  rewrite bind_Ok. pose proof (indexed_push l m n k v Hml Hk) as Hm2.
  assert (NoDup (keys ((n, (k, v)) :: l))) as Hk2 by (by apply NoDup_cons).
  rewrite (indexed_size _ _ Hk2 Hm2). cbn [length].
  assert (length l = length (drop_key k es)) as Elen by (by rewrite <- El, length_fmap).
  pose proof (zlen_drop_key k es) as Hle. unfold zlen in Hle, Hsz.
  assert (snd <$> ((n, (k, v)) :: l) = touch k v es) as E2 by (cbn; by rewrite El).
  assert (Forall (fun x => x.1 < S n)%nat ((n, (k, v)) :: l)) as Hf2.
  { constructor; [cbn; lia|]. eapply Forall_impl; [exact Hf|]. cbn. lia. }
  destruct (Z.ltb_spec (max_size_ c) (Z.of_nat (S (length l)))) as [Hbig|Hsmall].
  - destruct (pop_back_ok ((n, (k, v)) :: l) (<[k := n]> m)) as (j & Ej & Hj); [done..|].
    rewrite Ej. cbn [mbind result_bind]. eexists. split; [reflexivity|]. split; [|done].
    assert (length ((n, (k, v)) :: l) - 1 = Z.to_nat (max_size_ c))%nat as Et by (cbn [length]; lia). rewrite Et in *.
    unfold spec_put. rewrite <- E2.
    split; cbn [cache_items_list_ cache_items_map_ max_size_ next_node]; try done.
    + by rewrite fmap_take.
    + rewrite fmap_take. apply NoDup_take. by rewrite keys_snd.
    + rewrite fmap_take. apply NoDup_take. by apply NoDup_cons.
    + by apply Forall_take.
    + unfold zlen. rewrite length_take. lia.
  - rewrite bind_Ok. eexists. split; [reflexivity|]. split; [|done].
    assert (spec_put (max_size_ c) k v es = touch k v es) as ->.
    { unfold spec_put. apply take_ge. unfold touch. cbn [length]. lia. }
    rewrite <- E2. split; cbn [cache_items_list_ cache_items_map_ max_size_ next_node]; try done.
    + by rewrite keys_snd.
    + by apply NoDup_cons.
    + unfold zlen. rewrite length_fmap. cbn [length]. lia.
Qed.

Lemma lookup_entry c es k : holds c es ->
  match entry k es with
  | Some v => exists it, cache_items_map_ c !! k = Some it /\ (it, (k, v)) ∈ cache_items_list_ c
  | None => cache_items_map_ c !! k = None
  end.
Proof.
  intros [El Hk Hi _ Hm _ _]. destruct (entry k es) as [v|] eqn:E.
  - apply entry_find in E. rewrite <- El in E. apply list_elem_of_fmap in E as ([it p] & Ep & Hin). cbn in Ep. subst p.
    exists it. split; [|done]. apply Hm. by exists v.
  - apply entry_none in E. destruct (cache_items_map_ c !! k) as [it|] eqn:Em; [|done].
    apply Hm in Em as (v & Hv). exfalso. apply E. rewrite <- El, keys_snd.
    by apply (list_elem_of_fmap_2 (fun n => n.2.1)) in Hv.
Qed.

Lemma touch_length k v es : NoDup (fst <$> es) -> (k, v) ∈ es -> zlen (touch k v es) = zlen es.
Proof.
  intros Hn (l1 & l2 & ->)%list_elem_of_split. unfold touch, drop_key, zlen.
  rewrite fmap_app in Hn. cbn [fmap list_fmap fst] in Hn. apply NoDup_app in Hn as (_ & H1 & [H2 _]%NoDup_cons).
  rewrite filter_app, filter_cons. cbn [fst]. rewrite decide_False by tauto.
  rewrite !filter_all; [cbn [length]; rewrite !length_app; cbn [length]; lia| |];
    apply Forall_forall; intros e He E; subst k.
  - apply H2. by apply list_elem_of_fmap_2.
  - apply (H1 e.1); [by apply list_elem_of_fmap_2|by left].
Qed.

(** A node in front, with whatever value it has. *)
Lemma front_holds c es k v w it l :
  holds c es -> (it, (k, v)) ∈ cache_items_list_ c -> l = filter (fun n => n.1 <> it) (cache_items_list_ c) ->
  holds (MkLruCache ((it, (k, w)) :: l) (cache_items_map_ c) (max_size_ c) (next_node c)) (touch k w es).
Proof.
  intros [El Hk Hi Hf Hm Hmax Hsz] Hin ->. rewrite <- El, keys_snd in Hk.
  pose proof (erase_drops _ _ _ _ Hi Hk Hin) as Ed. rewrite El in Ed.
  pose proof (keys_drop _ _ _ _ Hi Hk Hin) as Hkd.
  assert (snd <$> (it, (k, w)) :: filter (fun n => n.1 <> it) (cache_items_list_ c) = touch k w es) as E2
    by (cbn; by rewrite Ed).
  split; cbn [cache_items_list_ cache_items_map_ max_size_ next_node]; try done.
  - rewrite <- E2, keys_snd. apply NoDup_cons. split; [done|]. by apply NoDup_fmap_filter.
  - cbn. apply NoDup_cons. split; [|by apply NoDup_fmap_filter].
    intros (n & En & [Hne _]%list_elem_of_filter)%list_elem_of_fmap. done.
  - rewrite Forall_forall in *. intros n [->|[_ Hn]%list_elem_of_filter]%elem_of_cons; [|by apply Hf].
    exact (Hf _ Hin).
  - intros j i. rewrite (Hm j i). setoid_rewrite elem_of_cons. setoid_rewrite list_elem_of_filter. cbn [fst]. split.
    + intros (x & Hx). destruct (decide (i = it)) as [->|]; [|exists x; by right].
      pose proof (node_unique _ _ _ _ Hi Hx Hin) as [= -> ->]. exists w. by left.
    + intros (x & [[= -> -> ->]|[_ Hx]]); [by exists v|by exists x].
  - assert (zlen (touch k w es) = zlen (touch k v es)) as -> by done.
    rewrite touch_length; [done|by rewrite <- El, keys_snd|]. rewrite <- El.
    by apply (list_elem_of_fmap_2 snd) in Hin.
Qed.

Lemma write_front it p v l m mx nx : it ∉ fst <$> l ->
  Lru.write it v (MkLruCache ((it, p) :: l) m mx nx) = Ok (MkLruCache ((it, (p.1, v)) :: l) m mx nx).
Proof.
  intros Hn. unfold Lru.write. cbn [cache_items_list_ Lru.node cache_items_map_ max_size_ next_node].
  rewrite decide_True by done. rewrite bind_Ok. do 2 f_equal. cbn [fmap list_fmap fst snd]. rewrite decide_True by done.
  f_equal. rewrite <- (list_fmap_id l) at 2. apply list_fmap_ext. intros i n Hi%list_elem_of_lookup_2.
  rewrite decide_False; [done|]. intros <-. apply Hn. by apply list_elem_of_fmap_2.
Qed.

(** [find] moves the entry to the front; what is written through the pointer
    replaces its value. *)
Lemma find_holds c es k : holds c es ->
  match entry k es with
  | Some v => exists it c', Lru.find k c = Ok (Some it, c') /\ holds c' (touch k v es) /\ max_size_ c' = max_size_ c /\
      Lru.read it c' = Ok v /\
      forall w, exists c'', Lru.write it w c' = Ok c'' /\ holds c'' (touch k w es) /\ max_size_ c'' = max_size_ c
  | None => Lru.find k c = Ok (None, c)
  end.
Proof.
  intros Hc. pose proof (lookup_entry c es k Hc) as Hl. unfold Lru.find. destruct (entry k es) as [v|]; [|by rewrite Hl].
  destruct Hl as (it & -> & Hin). unfold Lru.splice_front.
  rewrite (node_ok _ _ _ (ho_iters _ _ Hc) Hin), bind_Ok, (erase_ok _ _ _ (ho_iters _ _ Hc) Hin), !bind_Ok.
  eexists it, _. split; [reflexivity|]. split; [by eapply front_holds|]. split; [done|]. split.
  - unfold Lru.read. cbn [cache_items_list_ Lru.node]. by rewrite decide_True.
  - intros w. rewrite write_front; [eexists; split; [reflexivity|]|].
    + split; [by eapply front_holds|done].
    + by intros (n & En & [Hne _]%list_elem_of_filter)%list_elem_of_fmap.
Qed.

Lemma size_holds c es : holds c es -> Lru.size c = zlen es.
Proof.
  intros [El Hk _ _ Hm _ _]. unfold Lru.size. rewrite <- El, keys_snd in Hk. rewrite (indexed_size _ _ Hk Hm), <- El.
  unfold zlen. by rewrite length_fmap.
Qed.
End Facts.

(** ** Runs of operations *)
Inductive lru_op (K V : Type) : Type :=
| OpPut (k : K) (v : V) | OpGet (k : K) | OpFind (k : K) | OpAssign (k : K) (v : V) | OpExists (k : K) | OpSize.
Arguments OpPut {K V}.
Arguments OpGet {K V}.
Arguments OpFind {K V}.
Arguments OpAssign {K V}.
Arguments OpExists {K V}.
Arguments OpSize {K V}.

(** What an operation shows of the cache. *)
Inductive lru_obs (V : Type) : Type :=
| ODone | OValue (o : option V) | OBool (b : bool) | OCount (n : Z).
Arguments ODone {V}.
Arguments OValue {V}.
Arguments OBool {V}.
Arguments OCount {V}.

Section Runs.
Context {K V : Type} `{Countable K}.

(** [OpAssign] is [find] and, when the key is there, an assignment through
    the pointer. *)
Definition lru_step (o : lru_op K V) (c : LruCache K V) : result (lru_obs V * LruCache K V) :=
  match o with
  | OpPut k v => c ← Lru.put k v c; Ok (ODone, c)
  | OpGet k => '(it, c) ← Lru.get k c; v ← Lru.read it c; Ok (OValue (Some v), c)
  | OpFind k =>
      '(r, c) ← Lru.find k c;
      match r with
      | Some it => v ← Lru.read it c; Ok (OValue (Some v), c)
      | None => Ok (OValue None, c)
      end
  | OpAssign k v =>
      '(r, c) ← Lru.find k c;
      match r with Some it => c ← Lru.write it v c; Ok (OBool true, c) | None => Ok (OBool false, c) end
  | OpExists k => Ok (OBool (Lru.exists_ k c), c)
  | OpSize => Ok (OCount (Lru.size c), c)
  end.

Definition spec_step (max : Z) (o : lru_op K V) (es : list (K * V)) : result (lru_obs V * list (K * V)) :=
  match o with
  | OpPut k v => Ok (ODone, spec_put max k v es)
  | OpGet k => match entry k es with Some v => Ok (OValue (Some v), touch k v es) | None => Throw RangeError end
  | OpFind k => match entry k es with Some v => Ok (OValue (Some v), touch k v es) | None => Ok (OValue None, es) end
  | OpAssign k v => match entry k es with Some _ => Ok (OBool true, touch k v es) | None => Ok (OBool false, es) end
  | OpExists k => Ok (OBool (bool_decide (is_Some (entry k es))), es)
  | OpSize => Ok (OCount (zlen es), es)
  end.

Fixpoint runs {S} (step : lru_op K V -> S -> result (lru_obs V * S)) (os : list (lru_op K V)) (s : S)
    : result (list (lru_obs V)) :=
  match os with
  | [] => Ok []
  | o :: os => '(x, s) ← step o s; xs ← runs step os s; Ok (x :: xs)
  end.

Lemma step_refines c es o : holds c es ->
  match spec_step (max_size_ c) o es with
  | Ok (x, es') => exists c', lru_step o c = Ok (x, c') /\ holds c' es' /\ max_size_ c' = max_size_ c
  | r => lru_step o c = (_ ← r; Crash)
  end.
Proof.
  intros Hc. pose proof (lookup_entry c es) as Hl. destruct o as [k v|k|k|k v|k|]; cbn [spec_step lru_step].
  - destruct (put_holds c es k v Hc) as (c' & -> & Hc' & Em). by exists c'.
  - pose proof (find_holds c es k Hc) as Hf. specialize (Hl k Hc). unfold Lru.find in Hf. unfold Lru.get.
    destruct (entry k es) as [v|]; [|by rewrite Hl].
    destruct Hl as (it & E & _). rewrite E in *. destruct Hf as (it' & c' & Hf & Hc' & Em & Hr & _).
    destruct (Lru.splice_front it c) as [c1| | |]; [|done..]. cbn in Hf. simplify_eq. cbn. rewrite Hr. by exists c'.
  - pose proof (find_holds c es k Hc) as Hf. destruct (entry k es) as [v|]; [|by rewrite Hf; exists c].
    destruct Hf as (it & c' & -> & Hc' & Em & Hr & _). rewrite bind_Ok, Hr. by exists c'.
  - pose proof (find_holds c es k Hc) as Hf. destruct (entry k es) as [v'|]; [|by rewrite Hf; exists c].
    destruct Hf as (it & c' & -> & _ & _ & _ & Hw). rewrite bind_Ok. destruct (Hw v) as (c'' & -> & Hc'' & Em). by exists c''.
  - exists c. split; [|done]. specialize (Hl k Hc). unfold Lru.exists_. do 3 f_equal.
    destruct (entry k es); [destruct Hl as (it & -> & _); by rewrite !bool_decide_true|by rewrite Hl].
  - exists c. by rewrite (size_holds _ _ Hc).
Qed.

Lemma runs_refine os c es : holds c es -> runs lru_step os c = runs (spec_step (max_size_ c)) os es.
Proof.
  revert c es. induction os as [|o os IH]; intros c es Hc; [done|]. cbn [runs].
  pose proof (step_refines c es o Hc) as Hs. destruct (spec_step (max_size_ c) o es) as [[x es']| | |].
  - destruct Hs as (c' & -> & Hc' & Em). rewrite !bind_Ok. rewrite (IH c' es' Hc'), Em. done.
  - by rewrite Hs.
  - by rewrite Hs.
  - by rewrite Hs.
Qed.
End Runs.
