(* ===== verification/Hooks.v ===== *)
(** Hooks and callouts: hooks/server_hooks, callout_manager, callout_handle,
    library_manager, library_manager_collection and hooks_manager.

    A callout is a C function in a loaded library.  It may change the state of
    its library, the packets it has pointers to and the handle, and it may
    throw.  The dynamic loader is modelled by the number of times each library
    is open; using a library that is closed, or the callout manager after it
    was released, is a [Crash]. *)
From stdpp Require Import base list numbers option strings gmap.
From Stdlib Require Import ZArith Lia.
From S2P Require Import Prelude Buffer HwAddr Address DnsName OptionDef Options Pkt.

(** ** The registry of hooks *)
Definition CONTEXT_CREATE : Z := 0.
Definition CONTEXT_DESTROY : Z := 1.

(** [hooks_] in the order of [std::map]. *)
Record ServerHooks := MkServerHooks { hooks_ : list (string * Z); inverse_hooks_ : gmap Z string }.

Module SHooks.

Fixpoint map_find (name : string) (l : list (string * Z)) : option Z :=
  match l with [] => None | (n, i) :: l => if String.eqb n name then Some i else map_find name l end.
Fixpoint map_insert (name : string) (i : Z) (l : list (string * Z)) : list (string * Z) :=
  match l with
  | [] => [(name, i)]
  | (k, v) :: l => if String.ltb name k then (name, i) :: (k, v) :: l else (k, v) :: map_insert name i l
  end.

Definition registerHook (name : string) (h : ServerHooks) : result (Z * ServerHooks) :=
  let index := zlen (hooks_ h) in
  match map_find name (hooks_ h) with
  | Some _ => Throw DuplicateHook
  | None => Ok (index, MkServerHooks (map_insert name index (hooks_ h)) (<[index := name]> (inverse_hooks_ h)))
  end.

Definition initialize : result ServerHooks :=
  '(create, h) ← registerHook "context_create" (MkServerHooks [] ∅);
  '(destroy, h) ← registerHook "context_destroy" h;
  throw_if (negb (create =? CONTEXT_CREATE) || negb (destroy =? CONTEXT_DESTROY)) Unexpected;;
  Ok h.

Definition getName (index : Z) (h : ServerHooks) : result string :=
  match inverse_hooks_ h !! index with None => Throw NoSuchHook | Some n => Ok n end.
Definition getIndex (name : string) (h : ServerHooks) : result Z :=
  match map_find name (hooks_ h) with None => Throw NoSuchHook | Some i => Ok i end.
Definition getCount (h : ServerHooks) : Z := zlen (hooks_ h).
Definition getHookNames (h : ServerHooks) : list string := fst <$> hooks_ h.
End SHooks.

(** ** Handles *)
Inductive CalloutNextStep : Set := NEXT_STEP_CONTINUE | NEXT_STEP_SKIP | NEXT_STEP_DROP.

#[global] Instance CalloutNextStep_eq_dec : EqDecision CalloutNextStep.
Proof. solve_decision. Defined.

(** [boost::any]: a pointer to a packet, or a value of another type. *)
Inductive any : Set := AnyPkt (p : option nat) | AnyOther.

Record CalloutHandle := MkCalloutHandle { arguments_ : gmap string any; next_step_ : CalloutNextStep }.

(** What a callout sees: the state of the libraries, the packets by address,
    the handle. *)
Record CalloutState (W : Type) := MkCalloutState { lib_state : W; packets : gmap nat Pkt; handle : CalloutHandle }.
Arguments MkCalloutState {W}.
Arguments lib_state {W}.
Arguments packets {W}.
Arguments handle {W}.

(** The state a callout leaves, and the exception that ended it. *)
Definition Callout (W : Type) : Type := CalloutState W -> result (CalloutState W * option exn).

Module Handle.

Definition empty : CalloutHandle := MkCalloutHandle ∅ NEXT_STEP_CONTINUE.
Definition setArgument (name : string) (value : any) (h : CalloutHandle) : CalloutHandle :=
  MkCalloutHandle (<[name := value]> (arguments_ h)) (next_step_ h).
(** [getArgument<Pkt*>] *)
Definition getArgument (name : string) (h : CalloutHandle) : result (option nat) :=
  match arguments_ h !! name with
  | None => Throw NoSuchArgument
  | Some (AnyPkt p) => Ok p
  | Some AnyOther => Throw BadAnyCast
  end.
Definition deleteArgument (name : string) (h : CalloutHandle) : CalloutHandle :=
  MkCalloutHandle (delete name (arguments_ h)) (next_step_ h).
Definition deleteAllArguments (h : CalloutHandle) : CalloutHandle := MkCalloutHandle ∅ (next_step_ h).
Definition setStatus (next : CalloutNextStep) (h : CalloutHandle) : CalloutHandle :=
  MkCalloutHandle (arguments_ h) next.
Definition getStatus (h : CalloutHandle) : CalloutNextStep := next_step_ h.
End Handle.

(** ** The callout manager *)

(** A callout is registered by the address of its function. *)
Definition CalloutPtr : Set := Z.
Definition CalloutEntry : Set := Z * CalloutPtr.
Record CalloutManager := MkCalloutManager { hook_vector_ : list (list CalloutEntry) }.

Module Callouts.

Definition make (sh : ServerHooks) : CalloutManager :=
  MkCalloutManager (replicate (Z.to_nat (SHooks.getCount sh)) []).

Fixpoint insert_callout (library_index : Z) (callout : CalloutPtr) (v : list CalloutEntry) : list CalloutEntry :=
  match v with
  | [] => [(library_index, callout)]
  | e :: v => if library_index <? e.1 then (library_index, callout) :: e :: v
              else e :: insert_callout library_index callout v
  end.

Definition registerCallout (sh : ServerHooks) (library_index : Z) (name : string) (callout : CalloutPtr)
    (m : CalloutManager) : result CalloutManager :=
  hook_index ← SHooks.getIndex name sh;
  v ← zget (hook_vector_ m) hook_index;
  hv ← zset (hook_vector_ m) hook_index (insert_callout library_index callout v);
  Ok (MkCalloutManager hv).

Definition calloutsPresent (hook_index : Z) (m : CalloutManager) : bool :=
  if (hook_index <? 0) || (zlen (hook_vector_ m) <=? hook_index) then false
  else match hook_vector_ m !! Z.to_nat hook_index with Some (_ :: _) => true | _ => false end.
Definition calloutsPresent_name (sh : ServerHooks) (name : string) (m : CalloutManager) : result bool :=
  i ← SHooks.getIndex name sh; Ok (calloutsPresent i m).

(** Removing entries from a vector; whether there were some. *)
Definition remove_entries (sh : ServerHooks) (name : string) (p : CalloutEntry -> bool) (m : CalloutManager)
    : result (bool * CalloutManager) :=
  hook_index ← SHooks.getIndex name sh;
  v ← zget (hook_vector_ m) hook_index;
  let v' := filter (fun e => p e = false) v in
  hv ← zset (hook_vector_ m) hook_index v';
  Ok (negb (zlen v =? zlen v'), MkCalloutManager hv).

Definition deregisterCallout (sh : ServerHooks) (library_index : Z) (name : string) (callout : CalloutPtr)
    : CalloutManager -> result (bool * CalloutManager) :=
  remove_entries sh name (fun e => (e.1 =? library_index) && (e.2 =? callout)).
Definition deregisterAllCallouts (sh : ServerHooks) (library_index : Z) (name : string)
    : CalloutManager -> result (bool * CalloutManager) :=
  remove_entries sh name (fun e => e.1 =? library_index).

Section Calls.
Context {W : Type}.
(** The code at an address. *)
Variable code : CalloutPtr -> Callout W.

Definition on_handle (f : CalloutHandle -> CalloutHandle) (s : CalloutState W) : CalloutState W :=
  MkCalloutState (lib_state s) (packets s) (f (handle s)).

(** Exceptions of a callout are caught; what it did stays. *)
Definition run_callouts (v : list CalloutEntry) (s : CalloutState W) : result (CalloutState W) :=
  foldM (fun s e => '(s, _) ← code e.2 s; Ok s) s v.

Definition callCallouts (hook_index : Z) (m : CalloutManager) (s : CalloutState W) : result (CalloutState W) :=
  let s := on_handle (Handle.setStatus NEXT_STEP_CONTINUE) s in
  if calloutsPresent hook_index m
  then v ← zget (hook_vector_ m) hook_index; run_callouts v s
  else Ok s.
Definition callCallouts_name (sh : ServerHooks) (name : string) (m : CalloutManager) (s : CalloutState W)
    : result (CalloutState W) :=
  i ← SHooks.getIndex name sh; callCallouts i m s.

(** [CalloutHandle(manager)] and [~CalloutHandle] *)
Definition create_handle (m : CalloutManager) (w : W) (ps : gmap nat Pkt) : result (CalloutState W) :=
  callCallouts CONTEXT_CREATE m (MkCalloutState w ps Handle.empty).
Definition destroy_handle (m : CalloutManager) (s : CalloutState W) : result (CalloutState W) :=
  s ← callCallouts CONTEXT_DESTROY m s; Ok (on_handle Handle.deleteAllArguments s).
End Calls.
End Callouts.

(** ** The calls of the server *)
Section Packets.
Context {W : Type}.
Variables (code : CalloutPtr -> Callout W) (m : CalloutManager).

Definition is_skip (s : CalloutState W) : bool := bool_decide (Handle.getStatus (handle s) = NEXT_STEP_SKIP).

(** [*p] *)
Definition packet_at (p : nat) (s : CalloutState W) : result Pkt :=
  match packets s !! p with Some q => Ok q | None => Crash end.

(** The part of [Dhcpv4Srv::processPacket] between admission and dispatch:
    the state of the libraries, the query, and whether to skip it. *)
Definition call_pkt4_receive (hook_index_pkt4_receive_ : Z) (w : W) (query : Pkt) : result (W * Pkt * bool) :=
  if Callouts.calloutsPresent hook_index_pkt4_receive_ m then
    s ← Callouts.create_handle code m w {[0%nat := query]};
    let s := Callouts.on_handle (Handle.setArgument "query4" (AnyPkt (Some 0%nat))) s in
    s ← Callouts.callCallouts code hook_index_pkt4_receive_ m s;
    let skip := is_skip s in
    s ← Callouts.destroy_handle code m s;
    q ← packet_at 0%nat s;
    Ok (lib_state s, q, skip)
  else Ok (w, query, false).

(** [Dhcpv4Srv::beforePktSent]: the answer, and whether it is counted. *)
Definition call_pkt4_send (hook_index_pkt4_send_ : Z) (w : W) (query rsp : Pkt) : result (W * Pkt * bool) :=
  if Callouts.calloutsPresent hook_index_pkt4_send_ m then
    s ← Callouts.create_handle code m w (<[1%nat := rsp]> {[0%nat := query]});
    let s := Callouts.on_handle (Handle.setArgument "query4" (AnyPkt (Some 0%nat))) s in
    let s := Callouts.on_handle (Handle.setArgument "response4" (AnyPkt (Some 1%nat))) s in
    s ← Callouts.callCallouts code hook_index_pkt4_send_ m s;
    let skip := is_skip s in
    s ← Callouts.destroy_handle code m s;
    r ← packet_at 1%nat s;
    Ok (lib_state s, r, negb skip)
  else Ok (w, rsp, true).
End Packets.

(** ** Libraries *)
Definition KEA_HOOKS_VERSION : Z := 3.

(** A library on disk: its functions and the callouts it exports; [J] is the
    type of the parameters it is loaded with. *)
Record Library (J : Type) := MkLibrary {
  version_function : option (result Z);
  load_function : option (J -> result Z);
  unload_function : option (result Z);
  symbol : string -> option CalloutPtr }.
Arguments MkLibrary {J}.
Arguments version_function {J}.
Arguments load_function {J}.
Arguments unload_function {J}.
Arguments symbol {J}.

(** The loader and the callout manager, [None] once it is released. *)
Record Loader := MkLoader { open_count : gmap string nat; callout_manager_ : option CalloutManager }.

Record LibraryManager := MkLibraryManager { dl_handle_ : option string; lm_index_ : Z; library_name_ : string }.

Module Libs.
Section Libs.
Context {J : Type}.
Variables (disk : string -> option (Library J)) (sh : ServerHooks).

Definition make (name : string) (index : Z) : LibraryManager := MkLibraryManager None index name.

(** [dlopen] *)
Definition openLibrary (name : string) (ld : Loader) : option string * Loader :=
  match disk name with
  | None => (None, ld)
  | Some _ => (Some name, MkLoader (<[name := S (default 0%nat (open_count ld !! name))]> (open_count ld)) (callout_manager_ ld))
  end.

(** A handle may be used while its library is open. *)
Definition loaded (handle : string) (ld : Loader) : result (Library J) :=
  match open_count ld !! handle, disk handle with
  | Some (S _), Some lib => Ok lib
  | _, _ => Crash
  end.

(** [dlclose] of an open library succeeds. *)
Definition closeLibrary (handle : string) (ld : Loader) : result Loader :=
  loaded handle ld;;
  Ok (MkLoader (<[handle := pred (default 0%nat (open_count ld !! handle))]> (open_count ld)) (callout_manager_ ld)).

(** The status of a library function; [None] when it throws. *)
Definition status (f : result Z) : result (option Z) :=
  match f with Ok v => Ok (Some v) | Throw _ => Ok None | Crash => Crash | NoFuel => NoFuel end.

Definition checkVersion (handle : string) (ld : Loader) : result bool :=
  lib ← loaded handle ld;
  match version_function lib with
  | None => Ok false
  | Some f => v ← status f; Ok (bool_decide (v = Some KEA_HOOKS_VERSION))
  end.

Definition manager (ld : Loader) : result CalloutManager :=
  match callout_manager_ ld with Some m => Ok m | None => Crash end.
Definition set_manager (m : CalloutManager) (ld : Loader) : Loader := MkLoader (open_count ld) (Some m).

Definition registerStandardCallouts (handle : string) (index : Z) (ld : Loader) : result Loader :=
  foldM (fun ld name =>
    lib ← loaded handle ld;
    match symbol lib name with
    | None => Ok ld
    | Some call_out => m ← manager ld; m ← Callouts.registerCallout sh index name call_out m; Ok (set_manager m ld)
    end) ld (SHooks.getHookNames sh).

(** Whether a library function is missing or returns 0. *)
Definition succeeds (f : option (result Z)) : result bool :=
  match f with None => Ok true | Some g => s ← status g; Ok (bool_decide (s = Some 0)) end.
Definition runLoad (parameters : J) (handle : string) (ld : Loader) : result bool :=
  lib ← loaded handle ld; succeeds ((fun f => f parameters) <$> load_function lib).
Definition runUnload (handle : string) (ld : Loader) : result bool :=
  lib ← loaded handle ld; succeeds (unload_function lib).

(** [dl_handle_] is not reset. *)
Definition unloadLibrary (lm : LibraryManager) (ld : Loader) : result Loader :=
  match dl_handle_ lm with
  | None => Ok ld
  | Some handle =>
      runUnload handle ld;;
      ld ← foldM (fun ld name =>
             m ← manager ld;
             '(_, m) ← Callouts.deregisterAllCallouts sh (lm_index_ lm) name m;
             Ok (set_manager m ld)) ld (SHooks.getHookNames sh);
      closeLibrary handle ld
  end.

Definition loadLibrary (parameters : J) (lm : LibraryManager) (ld : Loader) : result (bool * LibraryManager * Loader) :=
  let '(handle, ld) := openLibrary (library_name_ lm) ld in
  match handle with
  | None => Ok (false, lm, ld)
  | Some handle =>
      v ← checkVersion handle ld;
      if (v : bool) then
        let lm := MkLibraryManager (Some handle) (lm_index_ lm) (library_name_ lm) in
        ld ← registerStandardCallouts handle (lm_index_ lm) ld;
        r ← runLoad parameters handle ld;
        if (r : bool) then Ok (true, lm, ld)
        else ld ← unloadLibrary lm ld; ld ← closeLibrary handle ld; Ok (false, lm, ld)
      else ld ← closeLibrary handle ld; Ok (false, lm, ld)
  end.

Definition validateLibrary (name : string) (ld : Loader) : result (bool * Loader) :=
  let '(handle, ld) := openLibrary name ld in
  match handle with
  | None => Ok (false, ld)
  | Some handle => v ← checkVersion handle ld; ld ← closeLibrary handle ld; Ok (v, ld)
  end.

(** *** The collection *)

(** [lib_managers_[i].reset()] from the last to the first, then the manager. *)
Definition unloadLibraries (lms : list LibraryManager) (ld : Loader) : result Loader :=
  ld ← foldM (fun ld lm => unloadLibrary lm ld) ld (reverse lms);
  Ok (MkLoader (open_count ld) None).

Fixpoint load_loop (infos : list (string * J)) (i : Z) (lms : list LibraryManager) (ld : Loader)
    : result (bool * list LibraryManager * Loader) :=
  match infos with
  | [] => Ok (true, lms, ld)
  | (name, parameters) :: infos =>
      '(ok, lm, ld) ← loadLibrary parameters (make name i) ld;
      if (ok : bool) then load_loop infos (i + 1) (lms ++ [lm]) ld
      else
        ld ← unloadLibraries lms ld;
        (** the manager of the library that failed is destroyed *)
        ld ← unloadLibrary lm ld;
        Ok (false, [], ld)
  end.

Definition loadLibraries (infos : list (string * J)) (lms : list LibraryManager) (ld : Loader)
    : result (bool * list LibraryManager * Loader) :=
  ld ← unloadLibraries lms ld;
  load_loop infos 0 [] (set_manager (Callouts.make sh) ld).

Definition validateLibraries (names : list string) (ld : Loader) : result (list string * Loader) :=
  foldM (fun '(failures, ld) name =>
    '(ok, ld) ← validateLibrary name ld; Ok (if (ok : bool) then failures else failures ++ [name], ld)) ([], ld) names.

(** *** The hooks manager: the collection and its loader *)
Definition hooks_init : list LibraryManager * Loader := ([], MkLoader ∅ (Some (Callouts.make sh))).

(** The new collection replaces the old one, which unloads its libraries. *)
Definition hooks_loadLibraries (infos : list (string * J)) (hm : list LibraryManager * Loader)
    : result (bool * (list LibraryManager * Loader)) :=
  ld ← unloadLibraries hm.1 hm.2;
  '(status, lms, ld) ← loadLibraries infos [] (set_manager (Callouts.make sh) ld);
  if (status : bool) then Ok (true, (lms, ld))
  else ld ← unloadLibraries lms ld; Ok (false, ([], set_manager (Callouts.make sh) ld)).
Definition hooks_unloadLibraries (hm : list LibraryManager * Loader) : result (list LibraryManager * Loader) :=
  ld ← unloadLibraries hm.1 hm.2; Ok ([], set_manager (Callouts.make sh) ld).
End Libs.
End Libs.
