(* ===== verification/HooksFacts.v ===== *)
(** Facts about hooks: the registry is a bijection, callouts run in the order
    of their libraries, and loading libraries. *)
From stdpp Require Import base list numbers option strings gmap.
From Stdlib Require Import ZArith Lia Sorted.
From S2P Require Import Prelude Buffer HwAddr Address DnsName OptionDef Options Pkt.
From S2P Require Import Hooks.

(** ** The registry *)
Record hooks_inv (h : ServerHooks) : Prop := MkHooksInv {
  hi_names : NoDup (SHooks.getHookNames h);
  hi_inverse : forall n i, SHooks.map_find n (hooks_ h) = Some i <-> inverse_hooks_ h !! i = Some n;
  hi_range : forall n i, SHooks.map_find n (hooks_ h) = Some i -> 0 <= i < SHooks.getCount h }.

Lemma find_insert n name i l : SHooks.map_find name l = None ->
  SHooks.map_find n (SHooks.map_insert name i l) = if String.eqb n name then Some i else SHooks.map_find n l.
Proof.
  induction l as [|[k v] l IH]; cbn [SHooks.map_find SHooks.map_insert].
  - intros _. by rewrite String.eqb_sym.
  - destruct (String.eqb_spec k name) as [->|Hk]; [done|]. intros Hn.
    destruct (String.ltb name k); cbn [SHooks.map_find].
    + rewrite (String.eqb_sym name n). done.
    + rewrite (IH Hn). destruct (String.eqb_spec k n) as [->|]; [|done].
      by destruct (String.eqb_spec n name).
Qed.

Lemma insert_perm name i l : SHooks.map_insert name i l ≡ₚ (name, i) :: l.
Proof.
  induction l as [|[k v] l IH]; [done|]. cbn. destruct (String.ltb name k); [done|]. rewrite IH. apply Permutation_swap.
Qed.

Lemma find_none n l : SHooks.map_find n l = None <-> n ∉ fst <$> l.
Proof.
  induction l as [|[k v] l IH]; cbn; [split; [by intros _ ?%elem_of_nil|done]|]. rewrite not_elem_of_cons.
  destruct (String.eqb_spec k n) as [->|]; [|rewrite IH; split; [intros ?; split; [by intros ->|done]|by intros []]].
  split; [done|by intros []].
Qed.

Lemma register_inv name h i h' : hooks_inv h -> SHooks.registerHook name h = Ok (i, h') ->
  hooks_inv h' /\ i = SHooks.getCount h /\ SHooks.getIndex name h' = Ok i /\
  forall n, n <> name -> SHooks.getIndex n h' = SHooks.getIndex n h.
Proof.
  intros [Hn Hi Hr]. unfold SHooks.registerHook. destruct (SHooks.map_find name (hooks_ h)) eqn:E; [done|].
  intros [= <- <-]. unfold SHooks.getIndex, SHooks.getCount. cbn [hooks_].
  split; [|split_and!; [done|by rewrite find_insert, String.eqb_refl|]].
  - split; unfold SHooks.getHookNames, SHooks.getCount in *; cbn [hooks_ inverse_hooks_].
    + rewrite insert_perm. cbn. apply NoDup_cons. split; [by apply find_none|done].
    + intros n i. rewrite find_insert by done. rewrite lookup_insert_Some.
      destruct (String.eqb_spec n name) as [->|Hne].
      * split; [intros [= <-]; by left|]. intros [[<- _]|[_ Hx]]; [done|].
        apply Hi in Hx. by rewrite E in Hx.
      * rewrite Hi. split; [|by intros [[_ ->]|[_ ?]]]. intros Hx. right. split; [|done]. intros <-.
        apply Hi, Hr in Hx. unfold SHooks.getCount in Hx. lia.
    + intros n i. rewrite find_insert by done. unfold zlen. rewrite insert_perm. cbn [length].
      destruct (String.eqb n name); [intros [= <-]; unfold zlen; lia|]. intros Hx%Hr. unfold zlen in Hx. lia.
  - intros n Hne. rewrite find_insert by done. by destruct (String.eqb_spec n name).
Qed.

Lemma empty_inv : hooks_inv (MkServerHooks [] ∅).
Proof. split; [constructor|by split|done]. Qed.

Lemma initialize_ok : exists h, SHooks.initialize = Ok h /\ hooks_inv h /\
  SHooks.getHookNames h = ["context_create"; "context_destroy"]%string.
Proof.
  destruct (SHooks.registerHook "context_create" (MkServerHooks [] ∅)) as [[i h]| | |] eqn:E; [|done..].
  destruct (register_inv _ _ _ _ empty_inv E) as (Hh & _).
  destruct (SHooks.registerHook "context_destroy" h) as [[j h']| | |] eqn:E'; [|by injection E as <- <-..].
  destruct (register_inv _ _ _ _ Hh E') as (Hh' & _). injection E as <- <-. injection E' as <- <-.
  eexists. split; [reflexivity|]. by split.
Qed.

(** ** The callout manager

    A manager is a list of callouts per hook. *)
Definition upd {A} (f : string -> A) (name : string) (a : A) : string -> A := fun n => if decide (n = name) then a else f n.

Lemma upd_eq {A} (f : string -> A) name a : upd f name a name = a.
Proof. unfold upd. by rewrite decide_True. Qed.
Lemma upd_ne {A} (f : string -> A) name a n : n <> name -> upd f name a n = f n.
Proof. intros. unfold upd. by rewrite decide_False. Qed.

Section Managers.
Variable sh : ServerHooks.
Hypothesis Hsh : hooks_inv sh.
Implicit Types (m : CalloutManager) (vec : string -> list CalloutEntry).

Definition reflects m vec : Prop :=
  zlen (hook_vector_ m) = SHooks.getCount sh /\
  forall n i, SHooks.getIndex n sh = Ok i -> hook_vector_ m !! Z.to_nat i = Some (vec n).

Lemma reflects_ext m vec vec' : reflects m vec ->
  (forall n, n ∈ SHooks.getHookNames sh -> vec n = vec' n) -> reflects m vec'.
Proof.
  intros [Hl Hm] He. split; [done|]. intros n i Hi. rewrite (Hm n i Hi), He; [done|].
  unfold SHooks.getIndex in Hi. destruct (SHooks.map_find n (hooks_ sh)) eqn:E; [|done].
  destruct (decide (n ∈ SHooks.getHookNames sh)) as [|Hn]; [done|]. apply find_none in Hn. by rewrite Hn in E.
Qed.

Lemma index_known n : n ∈ SHooks.getHookNames sh -> exists i, SHooks.getIndex n sh = Ok i /\ 0 <= i < SHooks.getCount sh.
Proof.
  intros Hn. unfold SHooks.getIndex. destruct (SHooks.map_find n (hooks_ sh)) as [i|] eqn:E.
  - exists i. split; [done|]. by apply (hi_range _ Hsh) in E.
  - by apply find_none in E.
Qed.

Lemma index_inj n n' i : SHooks.getIndex n sh = Ok i -> SHooks.getIndex n' sh = Ok i -> n = n'.
Proof.
  unfold SHooks.getIndex. destruct (SHooks.map_find n (hooks_ sh)) as [j|] eqn:E; [|done].
  destruct (SHooks.map_find n' (hooks_ sh)) as [j'|] eqn:E'; [|done]. intros [= ->] [= ->].
  apply (hi_inverse _ Hsh) in E, E'. congruence.
Qed.

Lemma index_range n i : SHooks.getIndex n sh = Ok i -> 0 <= i < SHooks.getCount sh.
Proof.
  unfold SHooks.getIndex. destruct (SHooks.map_find n (hooks_ sh)) as [j|] eqn:E; [|done]. intros [= <-].
  by apply (hi_range _ Hsh) in E.
Qed.

(** What every operation on the callouts of a hook does. *)
Lemma update_hook m vec name v' : reflects m vec -> name ∈ SHooks.getHookNames sh -> exists i hv,
  SHooks.getIndex name sh = Ok i /\ zget (hook_vector_ m) i = Ok (vec name) /\
  zset (hook_vector_ m) i v' = Ok hv /\ reflects (MkCalloutManager hv) (upd vec name v').
Proof.
  intros [Hl Hm] Hn. destruct (index_known name Hn) as (i & Hi & Hr). exists i, (<[Z.to_nat i := v']> (hook_vector_ m)).
  split; [done|]. split; [|split; [|split]].
  - unfold zget. by rewrite decide_True, (Hm _ _ Hi) by lia.
  - unfold zset. by rewrite decide_True by lia.
  - cbn [hook_vector_]. unfold zlen in *. by rewrite length_insert.
  - intros n j Hj. cbn [hook_vector_]. unfold upd. case_decide as E.
    + subst n. assert (i = j) as <- by congruence. apply list_lookup_insert_eq. unfold zlen in *. lia.
    + assert (i <> j) by (intros ->; apply E; by eapply index_inj).
      pose proof (index_range n j Hj).
      rewrite list_lookup_insert_ne by lia. by apply Hm.
Qed.

Lemma register_reflects m vec i name c : reflects m vec -> name ∈ SHooks.getHookNames sh -> exists m',
  Callouts.registerCallout sh i name c m = Ok m' /\
  reflects m' (upd vec name (Callouts.insert_callout i c (vec name))).
Proof.
  intros Hm Hn. destruct (update_hook m vec name (Callouts.insert_callout i c (vec name)) Hm Hn) as (j & hv & E1 & E2 & E3 & Hr).
  unfold Callouts.registerCallout. rewrite E1, bind_Ok, E2, bind_Ok, E3. by eexists.
Qed.

Lemma remove_reflects m vec name p : reflects m vec -> name ∈ SHooks.getHookNames sh -> exists b m',
  Callouts.remove_entries sh name p m = Ok (b, m') /\ reflects m' (upd vec name (filter (fun e => p e = false) (vec name))).
Proof.
  intros Hm Hn. destruct (update_hook m vec name (filter (fun e => p e = false) (vec name)) Hm Hn) as (j & hv & E1 & E2 & E3 & Hr).
  unfold Callouts.remove_entries. rewrite E1, bind_Ok, E2, bind_Ok, E3. by eexists _, _.
Qed.

Lemma make_reflects : reflects (Callouts.make sh) (fun _ => []).
Proof.
  split; cbn [Callouts.make hook_vector_].
  - unfold zlen. rewrite length_replicate. unfold SHooks.getCount, zlen. lia.
  - intros n i Hi%index_range. unfold SHooks.getCount, zlen in Hi. apply lookup_replicate_2. unfold SHooks.getCount, zlen. lia.
Qed.
End Managers.

(** *** The order of the callouts of a hook *)
Definition library_order (v : list CalloutEntry) : Prop := StronglySorted (fun a b => a.1 <= b.1) v.

Lemma insert_last i c v : Forall (fun e => e.1 <= i) v -> Callouts.insert_callout i c v = v ++ [(i, c)].
Proof.
  induction 1 as [|e v He _ IH]; [done|]. cbn [Callouts.insert_callout]. rewrite (proj2 (Z.ltb_ge _ _)) by lia. by rewrite IH.
Qed.

Lemma insert_in i c v e : e ∈ Callouts.insert_callout i c v <-> e = (i, c) \/ e ∈ v.
Proof.
  induction v as [|x v IH]; cbn [Callouts.insert_callout]; [by rewrite elem_of_cons|].
  destruct (i <? x.1); rewrite !elem_of_cons; [done|]. rewrite IH. tauto.
Qed.

Lemma insert_order i c v : library_order v -> library_order (Callouts.insert_callout i c v).
Proof.
  induction 1 as [|e v Hv IH He]; cbn [Callouts.insert_callout]; [repeat constructor|].
  destruct (Z.ltb_spec i e.1).
  - constructor; [by constructor|]. constructor; [cbn; lia|]. eapply Forall_impl; [exact He|]. cbn. lia.
  - constructor; [done|]. rewrite Forall_forall in *. intros x [->|?]%insert_in; [cbn; lia|by apply He].
Qed.

(** The callouts of a library stay in the order of their registration. *)
Lemma insert_stable j i c v : library_order v ->
  filter (fun e => e.1 = j) (Callouts.insert_callout i c v)
  = filter (fun e => e.1 = j) v ++ (if decide (i = j) then [(i, c)] else []).
Proof.
  induction 1 as [|e v Hv IH He]; cbn [Callouts.insert_callout].
  - rewrite filter_cons. cbn. by case_decide.
  - destruct (Z.ltb_spec i e.1); rewrite filter_cons; cbn [fst].
    + case_decide as E; [subst j|by rewrite app_nil_r].
      assert (Forall (fun x : CalloutEntry => x.1 <> i) (e :: v)) as Hn; [|by rewrite !filter_none].
      constructor; [cbn; lia|]. eapply Forall_impl; [exact He|]. cbn. lia.
    + rewrite (filter_cons _ e v). destruct (decide (e.1 = j)); [|exact IH]. cbn [app]. f_equal. exact IH.
Qed.

(** The callouts registered for a hook, in any order. *)
Definition registered (rs : list CalloutEntry) : list CalloutEntry :=
  foldl (fun v r => Callouts.insert_callout r.1 r.2 v) [] rs.

Lemma registered_order rs : library_order (registered rs) /\
  forall j, filter (fun e => e.1 = j) (registered rs) = filter (fun e => e.1 = j) rs.
Proof.
  induction rs as [|[i c] rs [IHo IHs]] using rev_ind; [split; [constructor|done]|].
  unfold registered. rewrite foldl_app. cbn [foldl fst snd]. fold (registered rs). split; [by apply insert_order|].
  intros j. rewrite insert_stable, IHs, filter_app, filter_cons by done. cbn [fst]. by case_decide.
Qed.

(** ** Libraries *)
Section Libraries.
Context {J : Type}.
Variables (disk : string -> option (Library J)) (sh : ServerHooks).
Hypothesis Hsh : hooks_inv sh.
Implicit Types (ld : Loader) (lm : LibraryManager) (vec : string -> list CalloutEntry).

(** The functions of a library return or throw. *)
Definition returns (f : option (result Z)) : Prop := match f with Some Crash | Some NoFuel => False | _ => True end.
Record library_returns (lib : Library J) : Prop := MkLibraryReturns {
  lr_version : returns (version_function lib);
  lr_load : forall p, returns ((fun f => f p) <$> load_function lib);
  lr_unload : returns (unload_function lib) }.
Hypothesis Hdisk : forall name lib, disk name = Some lib -> library_returns lib.

(** What becomes of a library that is to be loaded. *)
Inductive verdict : Set := Loads | Refused | LoadFails.
Definition judge (info : string * J) : verdict :=
  match disk info.1 with
  | None => Refused
  | Some lib =>
      match version_function lib with
      | Some (Ok v) => if v =? KEA_HOOKS_VERSION then
          match load_function lib with
          | None => Loads
          | Some f => match f info.2 with Ok s => if s =? 0 then Loads else LoadFails | _ => LoadFails end
          end
        else Refused
      | _ => Refused
      end
  end.
(** The first library that is not loaded decides. *)
Fixpoint outcome (infos : list (string * J)) : verdict :=
  match infos with
  | [] => Loads
  | info :: infos => match judge info with Loads => outcome infos | v => v end
  end.

Definition opens ld (name : string) : nat := default 0%nat (open_count ld !! name).
(** The callouts a library exports for a hook. *)
Definition exports (i : Z) (name hook : string) : list CalloutEntry :=
  match disk name with
  | Some lib => match symbol lib hook with Some c => [(i, c)] | None => [] end
  | None => []
  end.
Definition times (name : string) (lms : list LibraryManager) : nat := length (filter (fun lm => library_name_ lm = name) lms).

(** A manager of an open library. *)
Definition manages lm : Prop := dl_handle_ lm = Some (library_name_ lm) /\ is_Some (disk (library_name_ lm)).
Definition managed ld vec : Prop := exists m, callout_manager_ ld = Some m /\ reflects sh m vec.

Lemma returns_status f : returns (Some f) -> exists s, Libs.status f = Ok s.
Proof. destruct f; cbn; [by eexists|by eexists|done|done]. Qed.

Lemma returns_succeeds f : returns f -> exists b, Libs.succeeds f = Ok b.
Proof.
  destruct f as [f|]; [|by eexists]. intros [s Hs]%returns_status. unfold Libs.succeeds. rewrite Hs. by eexists.
Qed.

Lemma loaded_open ld name lib : disk name = Some lib ->
  Libs.loaded disk name ld = if decide (opens ld name = 0%nat) then Crash else Ok lib.
Proof.
  intros E. unfold Libs.loaded, opens. rewrite E. destruct (open_count ld !! name) as [[|]|]; cbn; by case_decide.
Qed.

Lemma close_open ld name : is_Some (disk name) ->
  Libs.closeLibrary disk name ld = if decide (opens ld name = 0%nat) then Crash
    else Ok (MkLoader (<[name := pred (opens ld name)]> (open_count ld)) (callout_manager_ ld)).
Proof. intros [lib E]. unfold Libs.closeLibrary. rewrite (loaded_open _ _ _ E). by case_decide. Qed.

(** *** Registering and removing the callouts of a library *)
Lemma managed_ext ld vec vec' : managed ld vec ->
  (forall n, n ∈ SHooks.getHookNames sh -> vec n = vec' n) -> managed ld vec'.
Proof. intros (m & E & Hm) He. exists m. split; [done|]. by eapply reflects_ext. Qed.

(** A loop over all hooks that changes the callouts of one at a time. *)
Lemma each_hook (f : Loader -> string -> result Loader) (g : string -> list CalloutEntry -> list CalloutEntry) vec ld :
  (forall ld' vec' n, n ∈ SHooks.getHookNames sh -> open_count ld' = open_count ld -> managed ld' vec' ->
    exists ld1, f ld' n = Ok ld1 /\ open_count ld1 = open_count ld /\ managed ld1 (upd vec' n (g n (vec' n)))) ->
  managed ld vec ->
  exists ld', foldM f ld (SHooks.getHookNames sh) = Ok ld' /\ open_count ld' = open_count ld /\
    managed ld' (fun n => g n (vec n)).
Proof.
  intros Hf Hmg.
  assert (forall ns ld' vec', NoDup ns -> (forall n, n ∈ ns -> n ∈ SHooks.getHookNames sh) ->
    open_count ld' = open_count ld -> managed ld' vec' ->
    exists ld'', foldM f ld' ns = Ok ld'' /\ open_count ld'' = open_count ld /\
      managed ld'' (fun n => if decide (n ∈ ns) then g n (vec' n) else vec' n)) as Hloop.
  { induction ns as [|n ns IH]; intros ld' vec' Hnd Hsub Hoc Hm.
    - exists ld'. split; [done|]. split; [done|]. eapply managed_ext; [done|]. intros x _. cbn beta.
      by rewrite decide_False by apply not_elem_of_nil.
    - apply NoDup_cons in Hnd as [Hn Hnd]. cbn [foldM].
      destruct (Hf ld' vec' n) as (ld1 & -> & Hoc1 & Hm1); [apply Hsub; by left|done|done|]. rewrite bind_Ok.
      destruct (IH ld1 _ Hnd (fun x Hx => Hsub x (list_elem_of_further _ _ _ Hx)) Hoc1 Hm1) as (ld2 & E2 & Hoc2 & Hm2).
      exists ld2. split; [done|]. split; [done|]. eapply managed_ext; [exact Hm2|]. intros x _. cbn beta.
      destruct (decide (x = n)) as [->|Hne].
      + rewrite decide_False, upd_eq, decide_True by (done || by left). done.
      + rewrite upd_ne by done. destruct (decide (x ∈ ns)) as [Hx|Hx].
        * by rewrite decide_True by (by right).
        * by rewrite decide_False by (by intros [?|?]%elem_of_cons). }
  destruct (Hloop (SHooks.getHookNames sh) ld vec) as (ld' & E & Hoc & Hm); [apply Hsh|done|done|done|].
  exists ld'. split; [done|]. split; [done|]. eapply managed_ext; [exact Hm|]. intros n Hn. cbn beta. by rewrite decide_True.
Qed.

Lemma register_standard name lib i vec ld :
  disk name = Some lib -> opens ld name <> 0%nat -> managed ld vec ->
  (forall n, Forall (fun e => e.1 <= i) (vec n)) ->
  exists ld', Libs.registerStandardCallouts disk sh name i ld = Ok ld' /\ open_count ld' = open_count ld /\
    managed ld' (fun n => vec n ++ exports i name n).
Proof.
  intros E Ho Hm Hi. unfold Libs.registerStandardCallouts.
  edestruct (each_hook (fun ld name0 => lib ← Libs.loaded disk name ld;
      match symbol lib name0 with
      | None => Ok ld
      | Some call_out => m ← Libs.manager ld; m ← Callouts.registerCallout sh i name0 call_out m; Ok (Libs.set_manager m ld)
      end)
    (fun n v => match symbol lib n with Some c => Callouts.insert_callout i c v | None => v end) vec ld)
    as (ld' & E' & Hoc & Hm'); [|done|].
  - intros ld1 vec1 n Hn Hoc (m1 & Em1 & Hm1).
    assert (opens ld1 name <> 0%nat) as Ho1 by (unfold opens in *; by rewrite Hoc).
    rewrite (loaded_open _ _ _ E), decide_False, bind_Ok by done. destruct (symbol lib n) as [c|].
    + unfold Libs.manager. rewrite Em1, bind_Ok.
      destruct (register_reflects sh Hsh m1 vec1 i n c Hm1 Hn) as (m2 & -> & Hm2). rewrite bind_Ok.
      eexists. split; [done|]. split; [done|]. by exists m2.
    + exists ld1. split; [done|]. split; [done|]. exists m1. split; [done|]. eapply reflects_ext; [done|].
      intros x _. unfold upd. case_decide; [by subst|done].
  - exists ld'. split; [exact E'|]. split; [done|]. eapply managed_ext; [exact Hm'|]. intros n _. cbn beta. unfold exports.
    rewrite E. destruct (symbol lib n); [by apply insert_last|by rewrite app_nil_r].
Qed.

Lemma unload_one lm vec ld : manages lm -> managed ld vec ->
  if decide (opens ld (library_name_ lm) = 0%nat) then Libs.unloadLibrary disk sh lm ld = Crash
  else exists ld', Libs.unloadLibrary disk sh lm ld = Ok ld' /\
    (forall n, opens ld' n = (opens ld n - (if decide (n = library_name_ lm) then 1 else 0))%nat) /\
    managed ld' (fun n => filter (fun e => e.1 <> lm_index_ lm) (vec n)).
Proof.
  intros [Eh [lib El]] Hm. unfold Libs.unloadLibrary. rewrite Eh. unfold Libs.runUnload. rewrite (loaded_open _ _ _ El).
  case_decide as Eo; [done|]. rewrite bind_Ok.
  destruct (returns_succeeds _ (lr_unload _ (Hdisk _ _ El))) as [b ->]. rewrite bind_Ok.
  edestruct (each_hook (fun ld name => m ← Libs.manager ld;
      '(_, m) ← Callouts.deregisterAllCallouts sh (lm_index_ lm) name m; Ok (Libs.set_manager m ld))
    (fun _ v => filter (fun e => (e.1 =? lm_index_ lm) = false) v) vec ld) as (ld' & -> & Hoc & Hm'); [|done|].
  - intros ld1 vec1 n Hn Hoc (m1 & Em1 & Hm1). unfold Libs.manager. rewrite Em1, bind_Ok.
    destruct (remove_reflects sh Hsh m1 vec1 n (fun e => e.1 =? lm_index_ lm) Hm1 Hn) as (b' & m2 & E2 & Hm2).
    unfold Callouts.deregisterAllCallouts. rewrite E2, bind_Ok. eexists. split; [done|]. split; [done|]. by exists m2.
  - rewrite bind_Ok, close_open by (by exists lib).
    assert (opens ld' = opens ld) as Eo' by (unfold opens; by rewrite Hoc). rewrite Eo', decide_False by done.
    eexists. split; [done|]. split.
    + intros n. unfold opens at 1. cbn [open_count]. case_decide as En.
      * subst n. rewrite lookup_insert_eq. cbn. lia.
      * rewrite lookup_insert_ne by done. rewrite Nat.sub_0_r. by rewrite <- Eo'.
    + eapply managed_ext; [exact Hm'|]. intros n _. cbn beta. apply list_filter_iff. intros e. by rewrite Z.eqb_neq.
Qed.

Lemma open_one name vec ld : is_Some (disk name) -> managed ld vec -> exists ld',
  Libs.openLibrary disk name ld = (Some name, ld') /\
  (forall n, opens ld' n = (opens ld n + (if decide (n = name) then 1 else 0))%nat) /\ managed ld' vec.
Proof.
  intros [lib E] (m & Em & Hm). unfold Libs.openLibrary. rewrite E. eexists. split; [done|]. split; [|by exists m].
  intros n. unfold opens at 1. cbn [open_count]. case_decide as En.
  - subst n. rewrite lookup_insert_eq. cbn. unfold opens. lia.
  - rewrite lookup_insert_ne by done. unfold opens. lia.
Qed.

(** *** Unloading a collection *)
Lemma times_cons n lm lms : times n (lm :: lms) = ((if decide (n = library_name_ lm) then 1 else 0) + times n lms)%nat.
Proof. unfold times. rewrite filter_cons. repeat case_decide; congruence || done. Qed.

Lemma times_app n k l : times n (k ++ l) = (times n k + times n l)%nat.
Proof. unfold times. by rewrite filter_app, length_app. Qed.

Lemma times_reverse n lms : times n (reverse lms) = times n lms.
Proof. unfold times. by rewrite reverse_Permutation. Qed.

Lemma unload_all lms vec ld : Forall manages lms -> managed ld vec -> (forall n, times n lms <= opens ld n)%nat ->
  exists ld' vec', foldM (fun ld lm => Libs.unloadLibrary disk sh lm ld) ld lms = Ok ld' /\
    (forall n, opens ld' n = opens ld n - times n lms)%nat /\ managed ld' vec'.
Proof.
  revert vec ld. induction lms as [|lm lms IH]; intros vec ld Hl Hm Ho; cbn [foldM].
  { exists ld, vec. split; [done|]. split; [|done]. intros n. change (times n []) with 0%nat. lia. }
  apply Forall_cons in Hl as [Hlm Hl]. pose proof (unload_one lm vec ld Hlm Hm) as Hu.
  pose proof (Ho (library_name_ lm)) as Hn. rewrite times_cons, decide_True in Hn by done. rewrite decide_False in Hu by lia.
  destruct Hu as (ld1 & -> & Ho1 & Hm1). rewrite bind_Ok.
  destruct (IH _ ld1 Hl Hm1) as (ld2 & vec2 & -> & Ho2 & Hm2).
  { intros n. rewrite Ho1. specialize (Ho n). rewrite times_cons in Ho. case_decide; lia. }
  exists ld2, vec2. split; [done|]. split; [|done]. intros n. rewrite Ho2, Ho1, times_cons. lia.
Qed.

(** A library that is open fewer times than it is managed. *)
Lemma unload_short lms vec ld name : Forall manages lms -> managed ld vec -> (opens ld name < times name lms)%nat ->
  foldM (fun ld lm => Libs.unloadLibrary disk sh lm ld) ld lms = Crash.
Proof.
  revert vec ld. induction lms as [|lm lms IH]; intros vec ld Hl Hm Ho; [unfold times in Ho; cbn in Ho; lia|].
  apply Forall_cons in Hl as [Hlm Hl]. cbn [foldM]. pose proof (unload_one lm vec ld Hlm Hm) as Hu.
  rewrite times_cons in Ho. destruct (decide (opens ld (library_name_ lm) = 0%nat)) as [En|En]; [by rewrite Hu|].
  destruct Hu as (ld1 & -> & Ho1 & Hm1). rewrite bind_Ok. eapply IH; [done|exact Hm1|]. rewrite Ho1.
  destruct (decide (name = library_name_ lm)) as [->|]; lia.
Qed.

Lemma unload_collection lms vec ld : Forall manages lms -> managed ld vec -> (forall n, opens ld n = times n lms) ->
  exists ld', Libs.unloadLibraries disk sh lms ld = Ok ld' /\ forall n, opens ld' n = 0%nat.
Proof.
  intros Hl Hm Ho. unfold Libs.unloadLibraries.
  destruct (unload_all (reverse lms) vec ld) as (ld' & vec' & -> & Ho' & _).
  - by apply Forall_reverse.
  - done.
  - intros n. by rewrite times_reverse, Ho.
  - rewrite bind_Ok. eexists. split; [done|]. intros n. change (opens ld' n = 0%nat). rewrite Ho', times_reverse, Ho. lia.
Qed.

(** *** Loading one library *)
Definition loaded_manager (i : Z) (name : string) : LibraryManager := MkLibraryManager (Some name) i name.

Lemma check_version ld name lib : disk name = Some lib -> opens ld name <> 0%nat ->
  Libs.checkVersion disk name ld = Ok (match version_function lib with Some (Ok v) => v =? KEA_HOOKS_VERSION | _ => false end).
Proof.
  intros E Ho. unfold Libs.checkVersion. rewrite (loaded_open _ _ _ E), decide_False, bind_Ok by done.
  pose proof (lr_version _ (Hdisk _ _ E)) as Hr. destruct (version_function lib) as [[v| | |]|]; try done.
  cbn. f_equal. destruct (Z.eqb_spec v KEA_HOOKS_VERSION); [by rewrite bool_decide_true by congruence|].
  rewrite bool_decide_false; congruence.
Qed.

Lemma run_load ld name lib p : disk name = Some lib -> opens ld name <> 0%nat ->
  Libs.runLoad disk p name ld = Ok (match load_function lib with
    | None => true | Some f => match f p with Ok s => s =? 0 | _ => false end end).
Proof.
  intros E Ho. unfold Libs.runLoad. rewrite (loaded_open _ _ _ E), decide_False, bind_Ok by done.
  pose proof (lr_load _ (Hdisk _ _ E) p) as Hr. destruct (load_function lib) as [f|]; [|done]. cbn in *.
  destruct (f p) as [s| | |]; try done. cbn. f_equal.
  destruct (Z.eqb_spec s 0); [by rewrite bool_decide_true by congruence|]. rewrite bool_decide_false; congruence.
Qed.

Lemma load_one name p i vec ld : managed ld vec -> (forall n, Forall (fun e => e.1 <= i) (vec n)) ->
  match judge (name, p) with
  | Loads => exists ld', Libs.loadLibrary disk sh p (Libs.make name i) ld = Ok (true, loaded_manager i name, ld') /\
      (forall n, opens ld' n = (opens ld n + (if decide (n = name) then 1 else 0))%nat) /\
      managed ld' (fun n => vec n ++ exports i name n) /\ manages (loaded_manager i name)
  | Refused => exists ld', Libs.loadLibrary disk sh p (Libs.make name i) ld = Ok (false, Libs.make name i, ld') /\
      (forall n, opens ld' n = opens ld n) /\ managed ld' vec
  | LoadFails =>
      if decide (opens ld name = 0%nat) then Libs.loadLibrary disk sh p (Libs.make name i) ld = Crash
      else exists ld' vec', Libs.loadLibrary disk sh p (Libs.make name i) ld = Ok (false, loaded_manager i name, ld') /\
        opens ld' name = pred (opens ld name) /\ managed ld' vec'
  end.
Proof.
  intros Hm Hi. unfold judge, Libs.loadLibrary, Libs.make. cbn [fst snd library_name_ lm_index_].
  destruct (disk name) as [lib|] eqn:E.
  2: { exists ld. unfold Libs.openLibrary. by rewrite E. }
  destruct (open_one name vec ld) as (ld1 & -> & Ho1 & Hm1); [by exists lib|done|].
  assert (opens ld1 name = S (opens ld name)) as Hn1 by (rewrite Ho1, decide_True by done; lia).
  rewrite (check_version _ _ _ E), bind_Ok by lia.
  assert (exists ld', (ld ← Libs.closeLibrary disk name ld1; Ok (false, MkLibraryManager None i name, ld))
      = Ok (false, MkLibraryManager None i name, ld') /\ (forall n, opens ld' n = opens ld n) /\ managed ld' vec) as Href.
  { rewrite close_open, decide_False, bind_Ok by (done || lia). eexists. split; [done|]. split.
    - intros n. unfold opens at 1. cbn [open_count]. destruct (decide (n = name)) as [->|Hne].
      + rewrite lookup_insert_eq. cbn. lia.
      + rewrite lookup_insert_ne by done. change (opens ld1 n = opens ld n). rewrite Ho1, decide_False by done. lia.
    - destruct Hm1 as (m1 & ? & ?). by exists m1. }
  destruct (version_function lib) as [[v| | |]|]; try exact Href. destruct (v =? KEA_HOOKS_VERSION); [|exact Href].
  destruct (register_standard name lib i vec ld1) as (ld2 & -> & Hoc2 & Hm2); [done|lia|done|done|].
  assert (opens ld2 = opens ld1) as Ho2 by (unfold opens; by rewrite Hoc2).
  assert (manages (loaded_manager i name)) as Hman by (split; [done|by exists lib]).
  rewrite bind_Ok, (run_load _ _ _ _ E), bind_Ok by (rewrite Ho2; lia).
  assert (exists ld' : Loader, Ok (true, loaded_manager i name, ld2) = Ok (true, loaded_manager i name, ld') /\
      (forall n, opens ld' n = (opens ld n + (if decide (n = name) then 1 else 0))%nat) /\
      managed ld' (fun n => vec n ++ exports i name n) /\ manages (loaded_manager i name)) as Hload.
  { exists ld2. rewrite Ho2. done. }
  assert (if decide (opens ld name = 0%nat)
    then (ld ← Libs.unloadLibrary disk sh (loaded_manager i name) ld2; ld ← Libs.closeLibrary disk name ld;
          Ok (false, loaded_manager i name, ld)) = Crash
    else exists ld' vec', (ld ← Libs.unloadLibrary disk sh (loaded_manager i name) ld2;
          ld ← Libs.closeLibrary disk name ld; Ok (false, loaded_manager i name, ld)) = Ok (false, loaded_manager i name, ld') /\
        opens ld' name = pred (opens ld name) /\ managed ld' vec') as Hfail.
  { pose proof (unload_one (loaded_manager i name) _ _ Hman Hm2) as Hu. cbn [library_name_ loaded_manager] in Hu.
    rewrite Ho2, decide_False in Hu by lia. destruct Hu as (ld3 & -> & Ho3 & m3 & Em3 & Hm3).
    assert (opens ld3 name = opens ld name) as Hn3 by (rewrite Ho3, decide_True by done; lia).
    rewrite bind_Ok, close_open by done. rewrite Hn3. case_decide; [done|]. rewrite bind_Ok. eexists _, _. split; [done|].
    split; [|by exists m3]. unfold opens at 1. cbn [open_count]. by rewrite lookup_insert_eq. }
  destruct (load_function lib) as [f|]; [|exact Hload].
  destruct (f p) as [s| | |]; [destruct (s =? 0); [exact Hload|exact Hfail]|exact Hfail..].
Qed.

(** *** Loading a collection *)
Fixpoint collection (i : Z) (infos : list (string * J)) : list LibraryManager :=
  match infos with [] => [] | info :: infos => loaded_manager i info.1 :: collection (i + 1) infos end.
Fixpoint exported (i : Z) (infos : list (string * J)) (hook : string) : list CalloutEntry :=
  match infos with [] => [] | info :: infos => exports i info.1 hook ++ exported (i + 1) infos hook end.

Lemma exports_index i name hook : Forall (fun e => e.1 = i) (exports i name hook).
Proof. unfold exports. destruct (disk name) as [lib|]; [|done]. destruct (symbol lib hook); [by repeat constructor|done]. Qed.

Lemma loaded_index i name vec : (forall n, Forall (fun e => e.1 < i) (vec n)) ->
  forall n, Forall (fun e => e.1 < i + 1) (vec n ++ exports i name n).
Proof.
  intros Hi n. apply Forall_app. split; [eapply Forall_impl; [apply Hi|]; cbn; lia|].
  eapply Forall_impl; [apply exports_index|]. cbn. lia.
Qed.

Lemma loaded_times ld ld1 lms i name : (forall n, opens ld n = times n lms) ->
  (forall n, opens ld1 n = (opens ld n + (if decide (n = name) then 1 else 0))%nat) ->
  forall n, opens ld1 n = times n (lms ++ [loaded_manager i name]).
Proof. intros Ho Ho1 n. rewrite Ho1, times_app, times_cons, Ho. cbn [library_name_ loaded_manager]. by rewrite Nat.add_0_r. Qed.

Lemma load_loop_outcome infos i lms vec ld :
  managed ld vec -> Forall manages lms -> (forall n, opens ld n = times n lms) -> (forall n, Forall (fun e => e.1 < i) (vec n)) ->
  match outcome infos with
  | Loads => exists ld', Libs.load_loop disk sh infos i lms ld = Ok (true, lms ++ collection i infos, ld') /\
      (forall n, opens ld' n = times n (lms ++ collection i infos)) /\
      Forall manages (lms ++ collection i infos) /\ managed ld' (fun n => vec n ++ exported i infos n)
  | Refused => exists ld', Libs.load_loop disk sh infos i lms ld = Ok (false, [], ld') /\ forall n, opens ld' n = 0%nat
  | LoadFails => Libs.load_loop disk sh infos i lms ld = Crash
  end.
Proof.
  revert i lms vec ld. induction infos as [|[name p] infos IH]; intros i lms vec ld Hm Hl Ho Hi.
  { exists ld. cbn [Libs.load_loop collection exported]. rewrite app_nil_r. split_and!; try done.
    eapply managed_ext; [done|]. intros n _. by rewrite app_nil_r. }
  cbn [outcome Libs.load_loop collection exported fst].
  assert (forall n, Forall (fun e => e.1 <= i) (vec n)) as Hle by (intros n; eapply Forall_impl; [apply Hi|]; cbn; lia).
  pose proof (load_one name p i vec ld Hm Hle) as H1. destruct (judge (name, p)).
  - destruct H1 as (ld1 & -> & Ho1 & Hm1 & Hman). rewrite bind_Ok.
    assert (lms ++ loaded_manager i name :: collection (i + 1) infos
      = (lms ++ [loaded_manager i name]) ++ collection (i + 1) infos) as -> by (by rewrite <- app_assoc).
    assert (Forall manages (lms ++ [loaded_manager i name])) as Hl1.
    { apply Forall_app. split; [done|]. by apply Forall_singleton. }
    specialize (IH (i + 1) _ _ ld1 Hm1 Hl1). destruct (outcome infos).
    + destruct IH as (ld2 & E2 & Ho2 & Hl2 & Hm2); [by apply (loaded_times ld)|by apply loaded_index|].
      exists ld2. split_and!; try done. eapply managed_ext; [exact Hm2|]. intros n _. cbn beta. by rewrite <- app_assoc.
    + apply IH; [by apply (loaded_times ld)|by apply loaded_index].
    + apply IH; [by apply (loaded_times ld)|by apply loaded_index].
  - destruct H1 as (ld1 & -> & Ho1 & Hm1). rewrite bind_Ok.
    destruct (unload_collection lms vec ld1 Hl Hm1) as (ld2 & -> & Ho2); [intros n; by rewrite Ho1|]. rewrite bind_Ok.
    exists ld2. split; [done|]. done.
  - destruct (decide (opens ld name = 0%nat)) as [E0|E0]; [by rewrite H1|].
    destruct H1 as (ld1 & vec1 & -> & Ho1 & Hm1). rewrite bind_Ok. unfold Libs.unloadLibraries.
    rewrite (unload_short (reverse lms) vec1 ld1 name); [done|by apply Forall_reverse|done|].
    rewrite times_reverse, Ho1, <- Ho. lia.
Qed.

(** The hooks manager serves the libraries [infos]: each is open once per
    entry, and every hook has their callouts in the order of the entries. *)
Definition serves (infos : list (string * J)) (hm : list LibraryManager * Loader) : Prop :=
  hm.1 = collection 0 infos /\ Forall manages hm.1 /\
  (forall n, opens hm.2 n = times n hm.1) /\ managed hm.2 (exported 0 infos).

Lemma init_serves : serves [] (Libs.hooks_init sh).
Proof.
  split_and!; try done. exists (Callouts.make sh). split; [done|]. by apply make_reflects.
Qed.

Lemma fresh_manager ld : managed (Libs.set_manager (Callouts.make sh) ld) (fun _ => []).
Proof. exists (Callouts.make sh). split; [done|]. by apply make_reflects. Qed.

Lemma unload_served infos hm : serves infos hm -> exists ld,
  Libs.unloadLibraries disk sh hm.1 hm.2 = Ok ld /\ forall n, opens ld n = 0%nat.
Proof. intros (_ & Hl & Ho & Hm). by eapply unload_collection. Qed.

Lemma load_outcome old infos hm : serves old hm ->
  match outcome infos with
  | Loads => exists hm', Libs.hooks_loadLibraries disk sh infos hm = Ok (true, hm') /\ serves infos hm'
  | Refused => exists hm', Libs.hooks_loadLibraries disk sh infos hm = Ok (false, hm') /\ serves [] hm'
  | LoadFails => Libs.hooks_loadLibraries disk sh infos hm = Crash
  end.
Proof.
  intros Hs. unfold Libs.hooks_loadLibraries. destruct (unload_served _ _ Hs) as (ld & -> & Ho). rewrite bind_Ok.
  assert (Libs.loadLibraries disk sh infos [] (Libs.set_manager (Callouts.make sh) ld)
    = Libs.load_loop disk sh infos 0 [] (Libs.set_manager (Callouts.make sh) ld)) as -> by done.
  pose proof (load_loop_outcome infos 0 [] (fun _ => []) (Libs.set_manager (Callouts.make sh) ld)) as Hlo.
  destruct (outcome infos).
  - destruct Hlo as (ld' & -> & Ho' & Hl' & Hm'); [apply fresh_manager|done|done|done|]. rewrite bind_Ok.
    eexists. split; [done|]. by split_and!.
  - destruct Hlo as (ld' & -> & Ho'); [apply fresh_manager|done|done|done|]. rewrite bind_Ok.
    eexists. split; [done|]. split_and!; try done. apply fresh_manager.
  - rewrite Hlo; [done|apply fresh_manager|done|done|done].
Qed.

Lemma unload_outcome old hm : serves old hm -> exists hm', Libs.hooks_unloadLibraries disk sh hm = Ok hm' /\ serves [] hm'.
Proof.
  intros Hs. unfold Libs.hooks_unloadLibraries. destruct (unload_served _ _ Hs) as (ld & -> & Ho). rewrite bind_Ok.
  eexists. split; [done|]. split_and!; try done. apply fresh_manager.
Qed.
End Libraries.

(** Registrations in any order on a fresh manager. *)
Definition register_all (sh : ServerHooks) (rs : list (Z * string * CalloutPtr)) (m : CalloutManager) : result CalloutManager :=
  foldM (fun m '(i, name, c) => Callouts.registerCallout sh i name c m) m rs.
Definition for_hook (name : string) (rs : list (Z * string * CalloutPtr)) : list CalloutEntry :=
  (fun r => (r.1.1, r.2)) <$> filter (fun r => r.1.2 = name) rs.

Lemma register_all_ok sh rs : hooks_inv sh -> Forall (fun r => r.1.2 ∈ SHooks.getHookNames sh) rs ->
  exists m, register_all sh rs (Callouts.make sh) = Ok m /\ reflects sh m (fun n => registered (for_hook n rs)).
Proof.
  intros Hsh. induction rs as [|[[i name] c] rs IH] using rev_ind; intros Hr.
  { exists (Callouts.make sh). split; [done|]. by apply make_reflects. }
  apply Forall_app in Hr as [Hr Hn]. rewrite Forall_singleton in Hn. cbn in Hn. destruct (IH Hr) as (m & E & Hm).
  destruct (register_reflects sh Hsh m _ i name c Hm Hn) as (m' & E' & Hm'). exists m'. split.
  - unfold register_all in *. rewrite foldM_app, E, bind_Ok. cbn [foldM]. by rewrite E'.
  - eapply reflects_ext; [exact Hm'|]. intros n _. unfold upd, for_hook. rewrite filter_app, fmap_app, filter_cons. cbn [fst snd].
    case_decide as En.
    + subst n. rewrite decide_True by done. unfold registered. by rewrite foldl_app.
    + rewrite decide_False by congruence. by rewrite app_nil_r.
Qed.

(** ** Callouts that leave the packets alone *)
Section Keepers.
Context {W : Type}.
Variable I : W -> Prop.

(** The libraries are consistent, and the handle points to packets. *)
Definition consistent (s : CalloutState W) : Prop :=
  I (lib_state s) /\
  forall n p, arguments_ (handle s) !! n = Some (AnyPkt (Some p)) -> is_Some (packets s !! p).

Definition keeper (c : Callout W) : Prop :=
  forall s, consistent s -> exists s' e, c s = Ok (s', e) /\ packets s' = packets s /\ consistent s'.

Variables (code : CalloutPtr -> Callout W) (m : CalloutManager).
Hypothesis Hcode : forall v e, v ∈ hook_vector_ m -> e ∈ v -> keeper (code e.2).

Lemma run_keeps v s : v ∈ hook_vector_ m -> consistent s -> exists s',
  Callouts.run_callouts code v s = Ok s' /\ packets s' = packets s /\ consistent s'.
Proof.
  intros Hv. assert (forall e, e ∈ v -> keeper (code e.2)) as Hk by (intros e; by apply Hcode). clear Hv.
  unfold Callouts.run_callouts. revert s. induction v as [|e v IH]; intros s Hs; [by exists s|]. cbn [foldM].
  destruct (Hk e ltac:(by left) s Hs) as (s1 & ex & -> & Ep & Hs1). rewrite !bind_Ok.
  destruct (IH (fun e He => Hk e (list_elem_of_further _ _ _ He)) s1 Hs1) as (s2 & -> & Ep2 & Hs2).
  exists s2. by rewrite Ep2, Ep.
Qed.

Lemma call_keeps i s : consistent s -> exists s',
  Callouts.callCallouts code i m s = Ok s' /\ packets s' = packets s /\ consistent s'.
Proof.
  intros Hs. unfold Callouts.callCallouts. set (s0 := Callouts.on_handle _ s).
  assert (consistent s0) as Hs0 by exact Hs. unfold Callouts.calloutsPresent.
  destruct ((i <? 0) || (zlen (hook_vector_ m) <=? i)) eqn:E; [by exists s0|].
  apply orb_false_iff in E as [E1%Z.ltb_ge E2%Z.leb_gt]. destruct (zget_ok (hook_vector_ m) i) as (v & -> & Hl); [lia|].
  rewrite Hl. destruct v as [|e v]; [by exists s0|]. rewrite bind_Ok.
  apply (run_keeps (e :: v) s0); [by eapply list_elem_of_lookup_2|done].
Qed.

(** The server gets its packet back. *)
Lemma receive_keeps i w q : I w -> exists w' skip, call_pkt4_receive code m i w q = Ok (w', q, skip) /\ I w'.
Proof.
  intros Hw. unfold call_pkt4_receive. destruct (Callouts.calloutsPresent i m); [|by exists w, false].
  unfold Callouts.create_handle.
  destruct (call_keeps CONTEXT_CREATE (MkCalloutState w {[0%nat := q]} Handle.empty)) as (s1 & -> & Ep1 & Hs1).
  { split; [done|]. intros n p. cbn. by rewrite lookup_empty. }
  rewrite bind_Ok. set (s2 := Callouts.on_handle _ s1).
  assert (packets s2 !! 0%nat = Some q) as Eq by (change (packets s1 !! 0%nat = Some q); rewrite Ep1; apply lookup_singleton_eq).
  assert (consistent s2) as Hs2.
  { destruct Hs1 as [Hi Ha]. split; [done|]. intros n p. change (arguments_ (handle s2)) with (<["query4"%string := AnyPkt (Some 0%nat)]> (arguments_ (handle s1))).
    intros [[_ [= <-]]|[_ Hn]]%lookup_insert_Some; [by exists q|]. by apply (Ha n). }
  destruct (call_keeps i s2 Hs2) as (s3 & -> & Ep3 & Hs3). rewrite bind_Ok. unfold Callouts.destroy_handle.
  destruct (call_keeps CONTEXT_DESTROY s3 Hs3) as (s4 & -> & Ep4 & Hs4). rewrite !bind_Ok. unfold packet_at.
  change (packets (Callouts.on_handle Handle.deleteAllArguments s4)) with (packets s4). rewrite Ep4, Ep3, Eq, bind_Ok.
  eexists _, _. split; [done|]. apply Hs4.
Qed.
End Keepers.

(** What the pkt4_receive callouts may do to a packet, whatever state their
    libraries are in. *)
Definition hook_outcomes {W} (I : W -> Prop) (code : CalloutPtr -> Callout W) (m : CalloutManager) (i : Z)
    (q : Pkt) (r : result (Pkt * bool)) : Prop :=
  exists w, I w /\ r = ('(_, q', skip) ← call_pkt4_receive code m i w q; Ok (q', skip)).

Lemma outcomes_keep {W} (I : W -> Prop) code m i q r :
  (forall v e, v ∈ hook_vector_ m -> e ∈ v -> keeper I (code e.2)) -> hook_outcomes I code m i q r ->
  exists skip, r = Ok (q, skip).
Proof.
  intros Hk (w & Hw & ->). destruct (receive_keeps I code m Hk i w q Hw) as (w' & skip & -> & _). by exists skip.
Qed.
