(* ===== verification/RateLimit.v ===== *)
(** The rate-limit extension: extensions/rate_limit.cpp.

    Time is in the ticks of [std::chrono::system_clock], nanoseconds.  The
    record a pointer of the cache refers to is read and written through the
    cache. *)
From stdpp Require Import base list numbers option strings gmap.
From Stdlib Require Import ZArith Lia.
From S2P Require Import Prelude Buffer HwAddr Address DnsName OptionDef Options Pkt.
From S2P Require Import Lru Hooks HooksFacts.

Definition MAX_REQUEST_COUNT_PER_SEC : Z := 100.

Record RequestRecord := MkRequestRecord { queryCount_ : Z; lastRequestTime_ : Z }.

Record RequestThrottle := MkRequestThrottle {
  cache_ : LruCache Z RequestRecord;
  max_request_count_per_sec_ : Z }.

Module Throttle.

Definition make (max_mac_count max_request_count_per_sec : Z) : RequestThrottle :=
  MkRequestThrottle (Lru.make max_mac_count)
    (if max_request_count_per_sec <=? 0 then MAX_REQUEST_COUNT_PER_SEC else max_request_count_per_sec).

(** The first six bytes as a number. *)
Definition mac (a : list Z) : Z :=
  match a with
  | a0 :: a1 :: a2 :: a3 :: a4 :: a5 :: _ =>
      Z.lor (Z.lor (Z.lor (Z.lor (Z.lor (Z.shiftl a0 40) (Z.shiftl a1 32)) (Z.shiftl a2 24)) (Z.shiftl a3 16))
        (Z.shiftl a4 8)) a5
  | _ => 0
  end.

(** [duration_cast<seconds>(d).count()] *)
Definition seconds (d : Z) : Z := Z.quot d (10^9).

Definition isRequestAllowed (now : Z) (query : Pkt) (t : RequestThrottle) : result (bool * RequestThrottle) :=
  let addr := chaddr_ query in
  if negb (htype_ addr =? HTYPE_ETHER) then Ok (true, t)
  else if negb (zlen (hwaddr_ addr) =? 6) then Ok (false, t)
  else
    let mac := mac (hwaddr_ addr) in
    let with_cache c := MkRequestThrottle c (max_request_count_per_sec_ t) in
    '(r, c) ← Lru.find mac (cache_ t);
    match r with
    | Some it =>
        record ← Lru.read it c;
        if 1 <? seconds (now - lastRequestTime_ record) then
          c ← Lru.write it (MkRequestRecord 1 now) c; Ok (true, with_cache c)
        else if queryCount_ record + 1 <? max_request_count_per_sec_ t then
          c ← Lru.write it (MkRequestRecord (queryCount_ record + 1) (lastRequestTime_ record)) c;
          Ok (true, with_cache c)
        else Ok (false, with_cache c)
    | None => c ← Lru.put mac (MkRequestRecord 1 now) c; Ok (true, with_cache c)
    end.

(** The decisions on a sequence of requests with their times. *)
Fixpoint decisions (rs : list (Z * Pkt)) (t : RequestThrottle) : result (list bool) :=
  match rs with
  | [] => Ok []
  | (now, q) :: rs => '(b, t) ← isRequestAllowed now q t; bs ← decisions rs t; Ok (b :: bs)
  end.

(** The functions of the library; [load] gets the two numbers of its
    parameters if they are there. *)
Definition load (max_mac_count max_request_count_per_sec : option Z) : RequestThrottle :=
  make (default 0 max_mac_count) (default 0 max_request_count_per_sec).

(** It has no return statement. *)
Definition context_create : Callout RequestThrottle := fun _ : CalloutState RequestThrottle => Crash.

Definition pkt4_receive (now : Z) : Callout RequestThrottle := fun s : CalloutState RequestThrottle =>
  match Handle.getArgument "query4" (handle s) with
  | Ok (Some p) =>
      query ← packet_at p s;
      '(b, t) ← isRequestAllowed now query (lib_state s);
      let s := MkCalloutState t (packets s) (handle s) in
      Ok (if (b : bool) then s else Callouts.on_handle (Handle.setStatus NEXT_STEP_SKIP) s, None)
  | Ok None => Ok (s, None)
  | Throw e => Ok (s, Some e)
  | Crash => Crash
  | NoFuel => NoFuel
  end.
Definition pkt4_send : Callout RequestThrottle := fun s : CalloutState RequestThrottle => Ok (s, None).

(** Which of the requests the callouts of a hook make the server skip. *)
Fixpoint skips (m : CalloutManager) (hook_index : Z) (rs : list (Z * Pkt)) (t : RequestThrottle) : result (list bool) :=
  match rs with
  | [] => Ok []
  | (now, q) :: rs =>
      let s := MkCalloutState t {[0%nat := q]} (Handle.setArgument "query4" (AnyPkt (Some 0%nat)) Handle.empty) in
      s ← Callouts.callCallouts (fun _ => pkt4_receive now) hook_index m s;
      bs ← skips m hook_index rs (lib_state s);
      Ok (is_skip s :: bs)
  end.
End Throttle.

(** A hook with the limiter as its only callout skips what it does not allow. *)
Lemma skips_decisions m hook_index e rs t : 0 <= hook_index -> hook_vector_ m !! Z.to_nat hook_index = Some [e] ->
  Throttle.skips m hook_index rs t = (bs ← Throttle.decisions rs t; Ok (map negb bs)).
Proof.
  intros H0 He. revert t. induction rs as [|[now q] rs IH]; intros t; [done|].
  cbn [Throttle.skips Throttle.decisions]. unfold Callouts.callCallouts, Callouts.calloutsPresent.
  assert (Z.to_nat hook_index < length (hook_vector_ m))%nat as Hl by (by apply lookup_lt_is_Some; eexists).
  rewrite (proj2 (Z.ltb_ge _ _)), (proj2 (Z.leb_gt _ _)) by (unfold zlen; lia). cbn [orb]. rewrite He.
  unfold zget. rewrite decide_True, He, bind_Ok by lia. unfold Callouts.run_callouts. cbn [foldM].
  unfold Throttle.pkt4_receive, Handle.getArgument. cbn. rewrite lookup_insert_eq. unfold packet_at. cbn [packets].
  cbn [Callouts.on_handle packets]. rewrite lookup_singleton_eq, bind_Ok.
  destruct (Throttle.isRequestAllowed now q t) as [[b t']| | |]; [|done..]. rewrite !bind_Ok.
  destruct b; cbn -[Throttle.skips]; rewrite IH; by destruct (Throttle.decisions rs t').
Qed.

(** ** Addresses *)
Lemma mac_value a0 a1 a2 a3 a4 a5 : bytes_ok [a0; a1; a2; a3; a4; a5] ->
  Throttle.mac [a0; a1; a2; a3; a4; a5]
  = ((((a0 * 2^8 + a1) * 2^8 + a2) * 2^8 + a3) * 2^8 + a4) * 2^8 + a5.
Proof.
  unfold bytes_ok. rewrite !Forall_cons_iff. unfold byte_ok. intros (H0 & H1 & H2 & H3 & H4 & H5 & _).
  assert (forall x y k, 0 <= k -> 0 <= y < 2^8 -> Z.lor (x * 2^(k + 8)) (y * 2^k) = (x * 2^8 + y) * 2^k) as Hstep.
  { intros x y k Hk Hy. rewrite Z.pow_add_r, (Z.mul_comm (2^k)), Z.mul_assoc by lia.
    rewrite <- (Z.shiftl_mul_pow2 _ k), <- (Z.shiftl_mul_pow2 y k), <- Z.shiftl_lor, <- (Z.shiftl_mul_pow2 x 8) by lia.
    rewrite lor_shiftl_add, !Z.shiftl_mul_pow2 by lia. done. }
  unfold Throttle.mac. rewrite !Z.shiftl_mul_pow2 by lia.
  pose proof (Hstep a0 a1 32) as E1. change (32 + 8) with 40 in E1. rewrite E1 by lia.
  pose proof (Hstep (a0 * 2^8 + a1) a2 24) as E2. change (24 + 8) with 32 in E2. rewrite E2 by lia.
  pose proof (Hstep ((a0 * 2^8 + a1) * 2^8 + a2) a3 16) as E3. change (16 + 8) with 24 in E3. rewrite E3 by lia.
  pose proof (Hstep (((a0 * 2^8 + a1) * 2^8 + a2) * 2^8 + a3) a4 8) as E4. change (8 + 8) with 16 in E4. rewrite E4 by lia.
  pose proof (Hstep ((((a0 * 2^8 + a1) * 2^8 + a2) * 2^8 + a3) * 2^8 + a4) a5 0) as E5.
  change (0 + 8) with 8 in E5. rewrite !Z.mul_1_r in E5. by rewrite E5 by lia.
Qed.

Lemma mac_inj a b : bytes_ok a -> bytes_ok b -> zlen a = 6 -> zlen b = 6 -> Throttle.mac a = Throttle.mac b -> a = b.
Proof.
  intros Ha Hb La Lb.
  destruct a as [|a0 [|a1 [|a2 [|a3 [|a4 [|a5 [|]]]]]]]; try done; try (unfold zlen in La; cbn in La; lia).
  destruct b as [|b0 [|b1 [|b2 [|b3 [|b4 [|b5 [|]]]]]]]; try done; try (unfold zlen in Lb; cbn in Lb; lia).
  rewrite !mac_value by done. unfold bytes_ok in *. rewrite !Forall_cons_iff in Ha, Hb. unfold byte_ok in *.
  intros E. repeat f_equal; lia.
Qed.

(** ** Entries of the abstract cache *)
Section Entries.
Context {K V : Type} `{Countable K}.
Implicit Types (es : list (K * V)).

Lemma entry_cons k j v es : entry j ((k, v) :: es) = if decide (k = j) then Some v else entry j es.
Proof.
  unfold entry. cbn [List.find fst]. destruct (decide (k = j)) as [->|].
  - by rewrite bool_decide_true.
  - by rewrite bool_decide_false.
Qed.

Lemma entry_drop k j es : k <> j -> entry j (drop_key k es) = entry j es.
Proof.
  intros Hkj. unfold drop_key. induction es as [|[i v] es IH]; [done|]. rewrite filter_cons, entry_cons. cbn [fst].
  destruct (decide (i = j)) as [->|].
  - by rewrite decide_True, entry_cons, decide_True by done.
  - destruct (decide (i <> k)); [|done]. by rewrite entry_cons, decide_False.
Qed.

Lemma entry_touch k j v es : entry j (touch k v es) = if decide (k = j) then Some v else entry j es.
Proof. unfold touch. rewrite entry_cons. case_decide; [done|]. by apply entry_drop. Qed.

Lemma touch_keys k v es j : j ∈ fst <$> touch k v es -> j = k \/ j ∈ fst <$> es.
Proof.
  unfold touch. cbn [fmap list_fmap fst]. intros [->|(e & -> & [_ He]%list_elem_of_filter)%list_elem_of_fmap]%elem_of_cons;
    [by left|right; by apply list_elem_of_fmap_2].
Qed.

Lemma touch_NoDup k v es : NoDup (fst <$> es) -> NoDup (fst <$> touch k v es).
Proof.
  intros Hn. unfold touch. cbn [fmap list_fmap fst]. apply NoDup_cons. split; [|by apply NoDup_fmap_filter].
  by intros (e & -> & [? _]%list_elem_of_filter)%list_elem_of_fmap.
Qed.
End Entries.

(** ** A burst of requests *)
Section Burst.
Variables (max start : Z) (clients : list (list Z)).
Hypothesis Hmax : 0 < max.

Definition window : Z := 2 * 10^9.
Definition quota : Z := Z.max 1 (max - 1).
Definition client (q : Pkt) : list Z := hwaddr_ (chaddr_ q).

(** A request of a known Ethernet client in the window. *)
Definition in_burst (r : Z * Pkt) : Prop :=
  start <= r.1 < start + window /\ htype_ (chaddr_ r.2) = HTYPE_ETHER /\ client r.2 ∈ clients.
Definition ethernet (a : list Z) : Prop := bytes_ok a /\ zlen a = 6.
Hypothesis Hclients : Forall ethernet clients.

Definition asked (a : list Z) (seen : list (list Z)) : Z := zlen (filter (fun b => b = a) seen).

(** The decisions that grant every client its quota. *)
Fixpoint granted (rs : list (Z * Pkt)) (seen : list (list Z)) : list bool :=
  match rs with
  | [] => []
  | (_, q) :: rs => (asked (client q) seen <? quota) :: granted rs (seen ++ [client q])
  end.

Record counts (seen : list (list Z)) (es : list (Z * RequestRecord)) : Prop := MkCounts {
  co_record : forall a, a ∈ clients ->
    match entry (Throttle.mac a) es with
    | None => asked a seen = 0
    | Some r => queryCount_ r = Z.min (asked a seen) quota /\ 1 <= asked a seen /\
        start <= lastRequestTime_ r < start + window
    end;
  co_keys : forall k, k ∈ fst <$> es -> k ∈ Throttle.mac <$> clients }.

Lemma asked_snoc a b seen : asked a (seen ++ [b]) = asked a seen + (if decide (b = a) then 1 else 0).
Proof.
  unfold asked. rewrite filter_app, zlen_app. f_equal. rewrite filter_cons. case_decide; by rewrite ?filter_nil.
Qed.

Lemma client_ethernet a : a ∈ clients -> ethernet a.
Proof. intros Ha. rewrite Forall_forall in Hclients. by apply Hclients. Qed.

(** One more request of [a] that leaves the record [r]. *)
Lemma counts_touch seen es a r :
  counts seen es -> a ∈ clients ->
  queryCount_ r = Z.min (asked a seen + 1) quota -> start <= lastRequestTime_ r < start + window ->
  counts (seen ++ [a]) (touch (Throttle.mac a) r es).
Proof.
  intros [Hr Hk] Ha Hc Ht. split.
  - intros b Hb. rewrite entry_touch, asked_snoc. destruct (decide (Throttle.mac a = Throttle.mac b)) as [E|E].
    + assert (a = b) as ->.
      { destruct (client_ethernet a Ha), (client_ethernet b Hb). by apply mac_inj. }
      rewrite decide_True by done. unfold asked in *. pose proof (zlen_nonneg (filter (fun c => c = b) seen)). lia.
    + rewrite decide_False by congruence. rewrite Z.add_0_r. by apply Hr.
  - intros k [->|?]%touch_keys; [by apply list_elem_of_fmap_2|by apply Hk].
Qed.

Lemma counts_room seen es a r (c : LruCache Z RequestRecord) :
  counts seen es -> holds c es -> a ∈ clients -> zlen (remove_dups clients) <= max_size_ c ->
  spec_put (max_size_ c) (Throttle.mac a) r es = touch (Throttle.mac a) r es.
Proof.
  intros [_ Hk] Hc Ha Hroom. unfold spec_put. apply take_ge.
  assert (length (touch (Throttle.mac a) r es) <= length (remove_dups clients))%nat as Hlen; [|unfold zlen in Hroom; lia].
  rewrite <- (length_fmap fst), <- (length_fmap Throttle.mac (remove_dups clients)).
  apply submseteq_length, NoDup_submseteq; [apply touch_NoDup, (ho_keys _ _ Hc)|].
  intros k Hin. assert (k ∈ Throttle.mac <$> clients) as (b & -> & Hb)%list_elem_of_fmap.
  { apply touch_keys in Hin as [->|?]; [by apply list_elem_of_fmap_2|by apply Hk]. }
  apply list_elem_of_fmap_2. by apply elem_of_remove_dups.
Qed.

Lemma in_window now last : start <= now < start + window -> start <= last < start + window ->
  (1 <? Throttle.seconds (now - last)) = false.
Proof. unfold window, Throttle.seconds. intros. zdiv. Qed.

(** One decision. *)
Lemma decision c es seen now q :
  holds c es -> counts seen es -> in_burst (now, q) -> zlen (remove_dups clients) <= max_size_ c ->
  exists c' es', Throttle.isRequestAllowed now q (MkRequestThrottle c max)
    = Ok (asked (client q) seen <? quota, MkRequestThrottle c' max) /\
    holds c' es' /\ counts (seen ++ [client q]) es' /\ max_size_ c' = max_size_ c.
Proof.
  intros Hc Hn (Ht & Hh & Hq) Hroom. cbn [fst snd] in *. unfold Throttle.isRequestAllowed.
  cbn [cache_ max_request_count_per_sec_]. rewrite Hh. cbn [negb Z.eqb]. fold (client q).
  destruct (client_ethernet _ Hq) as [_ Hl]. rewrite Hl. cbn [negb Z.eqb].
  pose proof (find_holds c es (Throttle.mac (client q)) Hc) as Hf. pose proof (co_record _ _ Hn _ Hq) as Hr.
  unfold quota in *. destruct (entry (Throttle.mac (client q)) es) as [r|].
  - destruct Hf as (it & c' & -> & Hc' & Em & Hread & Hw). destruct Hr as (Hcnt & Hone & Hlast).
    rewrite bind_Ok, Hread, bind_Ok, in_window by done.
    destruct (Z.ltb_spec (queryCount_ r + 1) max) as [Hlt|Hge].
    + destruct (Hw (MkRequestRecord (queryCount_ r + 1) (lastRequestTime_ r))) as (c'' & -> & Hc'' & Em'').
      rewrite bind_Ok. eexists _, _. split; [|split_and!; [exact Hc''| |done]].
      * rewrite (proj2 (Z.ltb_lt _ _)) by lia. done.
      * apply counts_touch; [done|done|cbn; unfold quota; lia|done].
    + eexists _, _. split; [|split_and!; [exact Hc'| |done]].
      * rewrite (proj2 (Z.ltb_ge _ _)) by lia. done.
      * apply counts_touch; [done|done|unfold quota; lia|done].
  - rewrite Hf, bind_Ok. destruct (put_holds c es (Throttle.mac (client q)) (MkRequestRecord 1 now) Hc) as (c' & -> & Hc' & Em).
    rewrite (counts_room seen) in Hc' by done. rewrite bind_Ok. eexists _, _. split; [|split_and!; [exact Hc'| |done]].
    + rewrite Hr. by rewrite (proj2 (Z.ltb_lt _ _)) by lia.
    + apply counts_touch; [done|done|cbn; unfold quota; lia|done].
Qed.

Lemma burst c es seen rs :
  holds c es -> counts seen es -> zlen (remove_dups clients) <= max_size_ c -> Forall in_burst rs ->
  Throttle.decisions rs (MkRequestThrottle c max) = Ok (granted rs seen).
Proof.
  intros Hc Hn Hroom Hrs. revert c es seen Hc Hn Hroom. induction Hrs as [|[now q] rs Hr Hrs IH]; intros c es seen Hc Hn Hroom; [done|].
  cbn [Throttle.decisions granted].
  destruct (decision c es seen now q Hc Hn Hr Hroom) as (c' & es' & -> & Hc' & Hn' & Em).
  rewrite bind_Ok, (IH c' es' (seen ++ [client q])) by (done || lia). done.
Qed.

Lemma counts_init : counts [] [].
Proof. split; [done|]. by intros k ?%elem_of_nil. Qed.
End Burst.

(** ** The limiter as a callout of the server *)
Definition throttle_ok (t : RequestThrottle) : Prop := exists es, holds (cache_ t) es.

Lemma allowed_ok now q t : throttle_ok t -> exists b t', Throttle.isRequestAllowed now q t = Ok (b, t') /\ throttle_ok t'.
Proof.
  intros [es Hc]. unfold Throttle.isRequestAllowed.
  destruct (negb (htype_ (chaddr_ q) =? HTYPE_ETHER)); [eexists _, _; split; [done|]; by exists es|].
  destruct (negb (zlen (hwaddr_ (chaddr_ q)) =? 6)); [eexists _, _; split; [done|]; by exists es|].
  set (k := Throttle.mac _). pose proof (find_holds (cache_ t) es k Hc) as Hf. destruct (entry k es) as [r|].
  - destruct Hf as (it & c & -> & Hh & _ & Hr & Hw). rewrite bind_Ok, Hr, bind_Ok.
    assert (forall r', exists b t', (c ← Lru.write it r' c; Ok (true, MkRequestThrottle c (max_request_count_per_sec_ t))) = Ok (b, t')
      /\ throttle_ok t') as Hwr.
    { intros r'. destruct (Hw r') as (c' & -> & Hh' & _). eexists _, _. split; [done|]. by eexists. }
    destruct (1 <? _); [apply Hwr|]. destruct (_ <? max_request_count_per_sec_ t); [apply Hwr|].
    eexists _, _. split; [done|]. by eexists.
  - rewrite Hf, bind_Ok. destruct (put_holds (cache_ t) es k (MkRequestRecord 1 now) Hc) as (c & -> & Hh & _).
    eexists _, _. split; [done|]. by eexists.
Qed.

Lemma limiter_keeps now : keeper throttle_ok (Throttle.pkt4_receive now).
Proof.
  intros s [Hi Ha]. unfold Throttle.pkt4_receive, Handle.getArgument.
  destruct (arguments_ (handle s) !! "query4"%string) as [[[p|]|]|] eqn:E; try by eexists _, _.
  destruct (Ha _ _ E) as [q Eq]. unfold packet_at. rewrite Eq, bind_Ok.
  destruct (allowed_ok now q (lib_state s) Hi) as (b & t & -> & Ht). rewrite bind_Ok. eexists _, _. split; [done|].
  destruct b; (split; [done|]); by split.
Qed.
