(* ===== verification/PktFacts.v ===== *)
(** The message codec: what [Pkt::unpack] does with every datagram, what
    [Pkt::pack] writes, and that the two are inverse to each other. *)
From stdpp Require Import base list numbers option strings gmap.
From Stdlib Require Import ZArith Lia.
From S2P Require Import Prelude Buffer HwAddr Address DnsName DnsNameFacts OptionDef Options.
From S2P Require Import OptionsFacts OptionsPack OptionsRoundTrip Pkt.

(** ** The fixed part of a message *)
Record header := MkHeader {
  h_op : Z; h_htype : Z; h_hlen : Z; h_hops : Z; h_xid : Z; h_secs : Z; h_flags : Z;
  h_ci : Z; h_yi : Z; h_si : Z; h_gi : Z;
  h_chaddr : list Z; h_sname : list Z; h_file : list Z }.

Definition head_fields (h : header) : list field :=
  [F8 (h_op h); F8 (h_htype h); F8 (h_hlen h); F8 (h_hops h); F32 (h_xid h); F16 (h_secs h);
   F16 (h_flags h); F32 (h_ci h); F32 (h_yi h); F32 (h_si h); F32 (h_gi h);
   FData (h_chaddr h); FData (h_sname h); FData (h_file h)].

Definition header_ok (h : header) : Prop :=
  Forall field_ok (head_fields h) /\
  zlen (h_chaddr h) = 16 /\ zlen (h_sname h) = 64 /\ zlen (h_file h) = 128.

Lemma zlen_header h : header_ok h -> zlen (wire (head_fields h)) = 236.
Proof.
  intros (_ & H1 & H2 & H3). unfold wire, head_fields. cbn [fmap list_fmap concat field_bytes].
  rewrite !zlen_app, !zlen_bytes16, !zlen_bytes32, H1, H2, H3. done.
Qed.

(** What [unpack] stores once header and cookie are read. *)
Definition unpacked (h : header) (hw : HWAddr) (os : coll) (p : Pkt) : Pkt :=
  p <| op_ := h_op h |> <| hops_ := h_hops h |> <| transid_ := h_xid h |> <| secs_ := h_secs h |>
    <| flags_ := h_flags h |> <| ciaddr_ := IOAddr.of_uint32 (h_ci h) |>
    <| yiaddr_ := IOAddr.of_uint32 (h_yi h) |> <| siaddr_ := IOAddr.of_uint32 (h_si h) |>
    <| giaddr_ := IOAddr.of_uint32 (h_gi h) |> <| sname_ := h_sname h |>
    <| file_ := h_file h |> <| chaddr_ := hw |> <| poptions_ := os |>.

(** [unpack] on a datagram split into header, cookie and options. *)
Definition unpack_rest (lib : LibDHCP) (h : header) (rest : list Z) (p : Pkt) : result Pkt :=
  hw ← HW.make (resize (h_chaddr h) (h_hlen h)) (h_htype h);
  throw_if (zlen rest =? 0) InvalidOperation;;
  throw_if (zlen rest <? 4) Unexpected;;
  magic ← IOUtil.readUint32 rest;
  throw_if (negb (magic =? DHCP_OPTIONS_COOKIE)) Unexpected;;
  '(_, os) ← unpackOptions4 lib (drop 4 rest) DHCP4_OPTION_SPACE (poptions_ p);
  Ok (unpacked h hw os p).

Section Unpack.
Variable lib : LibDHCP.
Import InputBuffer InputBufferFacts.

Lemma view_make data : make data = view [] data.
Proof. done. Qed.

Lemma raddr_view pre v rest :
  0 <= v < 2^32 -> small (pre ++ bytes32 v ++ rest) ->
  P.raddr (view pre (bytes32 v ++ rest)) = Ok (IOAddr.of_uint32 v, view (pre ++ bytes32 v) rest).
Proof. intros. unfold P.raddr. by rewrite readUint32_view. Qed.

Lemma readUint8_F8 pre v rest :
  0 <= v < 2^8 -> small (pre ++ [u8 v] ++ rest) ->
  readUint8 (view pre ([u8 v] ++ rest)) = Ok (v, view (pre ++ [u8 v]) rest).
Proof.
  intros Hv Hs. rewrite u8_small in * by done. by apply readUint8_view.
Qed.

(** The four bytes of the cookie, read in the middle of the datagram. *)
Lemma readUint32_split pre a b c d rest :
  small (pre ++ [a; b; c; d] ++ rest) -> bytes_ok [a; b; c; d] ->
  readUint32 (view pre ([a; b; c; d] ++ rest))
  = Ok (be32 a b c d, view (pre ++ [a; b; c; d]) rest).
Proof.
  intros Hs Hb. rewrite !bytes_ok_cons in Hb. destruct Hb as (?&?&?&?&_).
  rewrite <- (bytes32_be32 a b c d) in * by done.
  rewrite readUint32_view; [done|by apply be32_range|done].
Qed.

Lemma readVector_all pre rest :
  small (pre ++ rest) ->
  readVector (getLength (view pre rest) - getPosition (view pre rest)) (view pre rest)
  = Ok (rest, view (pre ++ rest) []).
Proof.
  intros Hs. rewrite <- (app_nil_r rest) at 3. apply readVector_view; [|by rewrite app_nil_r].
  cbn. zlia.
Qed.

Lemma cookie_view {A} pre rest (k : list Z -> result A) :
  small (pre ++ rest) -> bytes_ok (take 4 rest) ->
  (throw_if (getLength (view pre rest) =? getPosition (view pre rest)) InvalidOperation;;
   throw_if (getLength (view pre rest) - getPosition (view pre rest) <? 4) Unexpected;;
   '(magic, b) ← readUint32 (view pre rest);
   throw_if (negb (magic =? DHCP_OPTIONS_COOKIE)) Unexpected;;
   '(opts_buffer, b) ← readVector (getLength b - getPosition b) b;
   k opts_buffer)
  = (throw_if (zlen rest =? 0) InvalidOperation;;
     throw_if (zlen rest <? 4) Unexpected;;
     magic ← IOUtil.readUint32 rest;
     throw_if (negb (magic =? DHCP_OPTIONS_COOKIE)) Unexpected;;
     k (drop 4 rest)).
Proof.
  intros Hs Hb.
  replace (getLength (view pre rest) =? getPosition (view pre rest)) with (zlen rest =? 0)
    by (cbn; rewrite zlen_app; lia).
  replace (getLength (view pre rest) - getPosition (view pre rest)) with (zlen rest)
    by (cbn; rewrite zlen_app; lia).
  destruct (zlen rest =? 0); [done|]. destruct (Z.ltb_spec (zlen rest) 4) as [|H4]; [done|].
  destruct rest as [|a [|b [|c [|d rest]]]]; try (exfalso; zlia).
  change (a :: b :: c :: d :: rest) with ([a; b; c; d] ++ rest) in *.
  cbn [throw_if]. rewrite !bind_Ok.
  rewrite readUint32_split by done. rewrite bind_Ok. unfold IOUtil.readUint32.
  rewrite (proj2 (Z.ltb_ge _ _)) by lia. cbn [throw_if app]. rewrite bind_Ok.
  change (zget (a :: b :: c :: d :: rest) _ ≫= _) with
    (Ok (be32 a b c d) : result Z). rewrite bind_Ok.
  destruct (negb _); [done|]. cbn [throw_if]. rewrite !bind_Ok.
  rewrite readVector_all by (by rewrite <- app_assoc). done.
Qed.

Local Ltac small_pre Hs := rewrite <- ?app_assoc; cbn [app] in *; exact Hs.
Local Ltac rd Hs lem := rewrite bind_Ok || idtac; rewrite lem; [|first [lia|symmetry; eassumption]|small_pre Hs]; rewrite bind_Ok; cbn beta iota.

Lemma unpack_view p h rest :
  header_ok h -> bytes_ok (take 4 rest) -> zlen rest < 2^32 ->
  pdata_ p = wire (head_fields h) ++ rest ->
  P.unpack lib p = unpack_rest lib h rest p.
Proof.
  intros Hh Hrest Hlen Hd. pose proof (zlen_header h Hh) as H236.
  assert (small (wire (head_fields h) ++ rest)) as Hs by (unfold small; zlia).
  unfold P.unpack. rewrite Hd, view_make.
  replace (getLength _ <? DHCPV4_PKT_HDR_LEN) with false
    by (cbn [getLength view len_ app]; rewrite zlen_app; unfold DHCPV4_PKT_HDR_LEN; zlia).
  destruct h as [op htype hlen hops xid secs flags ci yi si gi ch sn fl].
  destruct Hh as (Hf & Hch & Hsn & Hfl). unfold head_fields, wire in *.
  cbn [fmap list_fmap concat field_bytes h_op h_htype h_hlen h_hops h_xid h_secs h_flags
       h_ci h_yi h_si h_gi h_chaddr h_sname h_file] in *.
  rewrite !Forall_cons_iff in Hf. cbn [field_ok] in Hf.
  destruct Hf as (?&?&?&?&?&?&?&?&?&?&?&_).
  rewrite <- !app_assoc in *. cbn [throw_if].
  rd Hs readUint8_F8. do 3 rd Hs readUint8_F8.
  rd Hs readUint32_view. do 2 rd Hs readUint16_view. do 4 rd Hs raddr_view.
  rd Hs readVector_view. do 2 rd Hs readData_view.
  unfold unpack_rest. cbn [h_chaddr h_hlen h_htype].
  destruct (HW.make _ _); [rewrite !bind_Ok|done..].
  by rewrite cookie_view by (done || small_pre Hs).
Qed.

End Unpack.

(** ** Every datagram has a header *)
Lemma split_at {A} n (l : list A) : 0 <= n <= zlen l -> exists a b, l = a ++ b /\ zlen a = n.
Proof.
  intros Hn. exists (take (Z.to_nat n) l), (drop (Z.to_nat n) l). rewrite take_drop. split; [done|].
  unfold zlen in *. rewrite length_take. lia.
Qed.

Lemma byte_u8 b : byte_ok b -> [b] = [u8 b] /\ 0 <= b < 2^8.
Proof. intros Hb. by rewrite u8_small. Qed.

Lemma header_split data :
  bytes_ok data -> 236 <= zlen data ->
  exists h rest, data = wire (head_fields h) ++ rest /\ header_ok h /\ bytes_ok rest /\
    zlen rest = zlen data - 236.
Proof.
  intros Hb Hlen.
  destruct (split_at 28 data) as (l & r & -> & Hl); [lia|].
  do 28 (destruct l as [|? l]; [exfalso; zlia|]). destruct l; [|exfalso; zlia].
  destruct (split_at 16 r) as (ch & r1 & -> & H1); [zlia|].
  destruct (split_at 64 r1) as (sn & r2 & -> & H2); [zlia|].
  destruct (split_at 128 r2) as (fl & rest & -> & H3); [zlia|].
  rewrite !bytes_ok_app in Hb. destruct Hb as (Hb & _ & _ & _ & Hr).
  unfold bytes_ok in Hb. rewrite !Forall_cons_iff in Hb.
  exists (MkHeader z z0 z1 z2 (be32 z3 z4 z5 z6) (be16 z7 z8) (be16 z9 z10)
            (be32 z11 z12 z13 z14) (be32 z15 z16 z17 z18) (be32 z19 z20 z21 z22)
            (be32 z23 z24 z25 z26) ch sn fl), rest.
  split_and!; [| |done|zlia].
  - unfold wire, head_fields. cbn [fmap list_fmap concat field_bytes h_op h_htype h_hlen h_hops
      h_xid h_secs h_flags h_ci h_yi h_si h_gi h_chaddr h_sname h_file].
    rewrite !bytes32_be32, !bytes16_be16, !u8_small by (apply Hb).
    rewrite app_nil_r, <- !app_assoc. done.
  - unfold header_ok, head_fields. cbn [h_chaddr h_sname h_file]. split_and!; [|done..].
    repeat constructor; cbn [field_ok h_op h_htype h_hlen h_hops h_xid h_secs h_flags h_ci h_yi
      h_si h_gi]; first [apply be32_range|apply be16_range|apply Hb]; apply Hb.
Qed.

(** The outcome of [unpack], branch by branch. *)
Definition has_cookie (rest : list Z) : bool := bool_decide (take 4 rest = bytes32 DHCP_OPTIONS_COOKIE).

Definition unpack_error (h : header) (rest : list Z) : option exn :=
  if HW.MAX_HWADDR_LEN <? h_hlen h then Some BadValue
  else if zlen rest =? 0 then Some InvalidOperation
  else if zlen rest <? 4 then Some Unexpected
  else if has_cookie rest then None
  else Some Unexpected.

Lemma readUint32_cookie rest :
  bytes_ok rest -> 4 <= zlen rest ->
  exists magic, IOUtil.readUint32 rest = Ok magic /\ (magic =? DHCP_OPTIONS_COOKIE) = has_cookie rest.
Proof.
  intros Hb H4. destruct rest as [|a [|b [|c [|d rest]]]]; try (exfalso; zlia).
  rewrite !bytes_ok_cons in Hb. destruct Hb as (?&?&?&?&_).
  exists (be32 a b c d). unfold IOUtil.readUint32.
  rewrite (proj2 (Z.ltb_ge _ _)) by lia. split; [done|].
  unfold has_cookie. change (take 4 (a :: b :: c :: d :: rest)) with [a; b; c; d].
  destruct (Z.eqb_spec (be32 a b c d) DHCP_OPTIONS_COOKIE) as [E|E].
  - rewrite bool_decide_true; [done|]. rewrite <- E. by rewrite bytes32_be32.
  - rewrite bool_decide_false; [done|]. intros E'. apply E.
    rewrite <- (bytes32_be32 a b c d) in E' by done.
    destruct (be32_bytes32 (be32 a b c d)) as (?&?&?&?&E1&<-); [by apply be32_range|].
    destruct (be32_bytes32 DHCP_OPTIONS_COOKIE) as (?&?&?&?&E2&<-); [done|].
    rewrite E1, E2 in E'. by simplify_eq.
Qed.

Lemma unpack_rest_outcome lib h rest p :
  lib_safe lib -> header_ok h -> bytes_ok rest -> zlen rest < 2^32 ->
  match unpack_error h rest with
  | Some e => unpack_rest lib h rest p = Throw e
  | None => exists os off,
      unpackOptions4 lib (drop 4 rest) DHCP4_OPTION_SPACE (poptions_ p) = Ok (off, os) /\
      0 <= off <= zlen rest - 4 /\
      unpack_rest lib h rest p
      = Ok (unpacked h (MkHWAddr (resize (h_chaddr h) (h_hlen h)) (h_htype h) 0) os p)
  end.
Proof.
  intros Hlib Hh Hb Hlen. unfold unpack_error, unpack_rest.
  assert (0 <= h_hlen h) as Hhl.
  { destruct Hh as [Hf _]. unfold head_fields in Hf. rewrite !Forall_cons_iff in Hf. apply Hf. }
  unfold HW.make. rewrite zlen_resize by done.
  destruct (HW.MAX_HWADDR_LEN <? h_hlen h); [done|]. cbn [throw_if]. rewrite !bind_Ok.
  destruct (zlen rest =? 0); [done|]. destruct (Z.ltb_spec (zlen rest) 4) as [|H4]; [done|].
  cbn [throw_if]. rewrite !bind_Ok.
  destruct (readUint32_cookie rest Hb H4) as (magic & -> & Em).
  rewrite bind_Ok, Em. destruct (has_cookie rest); [|done]. cbn [negb throw_if]. rewrite bind_Ok.
  destruct (unpackOptions4_total lib Hlib (drop 4 rest) DHCP4_OPTION_SPACE (poptions_ p))
    as (off & os & -> & Hoff); [by apply bytes_ok_drop|pose proof (zlen_drop_le rest 4); lia|].
  exists os, off. split_and!; [done|lia| |done].
  pose proof (zlen_drop rest 4) as E. change (Z.to_nat 4) with 4%nat in E. lia.
Qed.

(** ** Packing *)
Definition addr_value (a : IOAddress) : Z := match a with V4 v => v | V6 _ => 0 end.
Definition v4_ok (a : IOAddress) : Prop := exists v, a = V4 v /\ addr_ok v.

Lemma of_uint32_v4 v : v4_ok (IOAddr.of_uint32 v).
Proof. exists (u32 v). split; [done|]. apply u32_range. Qed.

(** The CHADDR field [pack] writes. *)
Definition chaddr_field (hw : list Z) : list Z :=
  if (0 <? zlen hw) && (zlen hw <=? MAX_CHADDR_LEN)
  then hw ++ replicate (Z.to_nat (MAX_CHADDR_LEN - zlen hw)) 0
  else replicate (Z.to_nat MAX_CHADDR_LEN) 0.

Definition header_of (p : Pkt) : header :=
  MkHeader (op_ p) (htype_ (chaddr_ p))
    (if zlen (hwaddr_ (chaddr_ p)) <? MAX_CHADDR_LEN then zlen (hwaddr_ (chaddr_ p)) else MAX_CHADDR_LEN)
    (hops_ p) (transid_ p) (secs_ p) (flags_ p)
    (addr_value (ciaddr_ p)) (addr_value (yiaddr_ p)) (addr_value (siaddr_ p)) (addr_value (giaddr_ p))
    (chaddr_field (hwaddr_ (chaddr_ p))) (sname_ p) (file_ p).

(** The members a message on the wire can carry. *)
Record packable (p : Pkt) : Prop := MkPackable {
  pk_addrs : Forall v4_ok [ciaddr_ p; yiaddr_ p; siaddr_ p; giaddr_ p];
  pk_sname : zlen (sname_ p) = MAX_SNAME_LEN;
  pk_file : zlen (file_ p) = MAX_FILE_LEN;
  pk_buffer : OutputBuffer.inv (buffer_out_ p) }.

Definition packet_bytes (p : Pkt) (os : list Z) : list Z :=
  wire (head_fields (header_of p) ++ [F32 DHCP_OPTIONS_COOKIE; FData os; F8 DHO_END]).

Lemma zlen_chaddr_field hw : zlen (chaddr_field hw) = 16.
Proof.
  unfold chaddr_field. destruct ((0 <? zlen hw) && (zlen hw <=? MAX_CHADDR_LEN)) eqn:E; [|done].
  unfold MAX_CHADDR_LEN in *. rewrite zlen_app. unfold zlen in *. rewrite length_replicate. lia.
Qed.

Lemma wire_app fs gs : wire (fs ++ gs) = wire fs ++ wire gs.
Proof. unfold wire. by rewrite fmap_app, concat_app. Qed.

Section Pack.
Variable alloc_ok : Z -> bool.
Hypothesis alloc_total : forall n, alloc_ok n = true.

Definition holds (b : OutputBuffer.t) (l : list Z) : Prop :=
  OutputBuffer.inv b /\ OutputBuffer.contents b = Some <$> l /\ zlen l <= 2^32.

Definition ends (l : list Z) (r : result OutputBuffer.t) : Prop :=
  match r with Ok b => holds b l | _ => False end.

Lemma wdata_holds {A} (k : OutputBuffer.t -> result A) (Q : result A -> Prop) b l bs :
  holds b l -> zlen l + zlen bs <= 2^32 ->
  (forall b', holds b' (l ++ bs) -> Q (k b')) -> Q (P.wdata alloc_ok bs b ≫= k).
Proof.
  intros (Hi & Hc & Hl) Hs HQ. pose proof (OutputBufferFacts.length_contents b Hi) as Hsz.
  rewrite Hc, zlen_fmap in Hsz.
  destruct (OutputBufferFacts.writeData_spec alloc_ok alloc_total bs b Hi) as (b' & E & Hi' & Hc');
    [lia|].
  unfold P.wdata. rewrite E, bind_Ok. apply HQ. split_and!; [done| |zlia].
  by rewrite Hc', Hc, fmap_app.
Qed.

Lemma waddr_wdata a b :
  v4_ok a -> P.waddr alloc_ok a b = P.wdata alloc_ok (bytes32 (addr_value a)) b.
Proof. by intros (v & -> & Hv). Qed.

Lemma bind_ret {A} (m : result A) : m ≫= Ok = m.
Proof. by destruct m. Qed.

(** One write of the sequence. *)
Ltac wr :=
  match goal with
  | |- context [mbind _ (P.w8 alloc_ok ?v ?b)] =>
      change (P.w8 alloc_ok v b) with (P.wdata alloc_ok [u8 v] b)
  | |- context [mbind _ (P.w16 alloc_ok ?v ?b)] =>
      change (P.w16 alloc_ok v b) with (P.wdata alloc_ok (bytes16 v) b)
  | |- context [mbind _ (P.w32 alloc_ok ?v ?b)] =>
      change (P.w32 alloc_ok v b) with (P.wdata alloc_ok (bytes32 v) b)
  | |- context [mbind _ (P.waddr alloc_ok ?a ?b)] => rewrite (waddr_wdata a b) by assumption
  | _ => idtac
  end;
  (eapply (wdata_holds _ _ _ _ _); [eassumption| |]).

Lemma chaddr_write {A} p b l (k : OutputBuffer.t -> result A) (Q : result A -> Prop) :
  let hw := hwaddr_ (chaddr_ p) in
  holds b l -> zlen l + 16 <= 2^32 ->
  (forall b', holds b' (l ++ chaddr_field hw) -> Q (k b')) ->
  Q ('(b, hw_len) ←
       (if (0 <? zlen hw) && (zlen hw <=? MAX_CHADDR_LEN) then
          b ← P.wdata alloc_ok hw b; Ok (b, MAX_CHADDR_LEN - zlen hw)
        else Ok (b, MAX_CHADDR_LEN));
     b ← (if 0 <? hw_len then P.wdata alloc_ok (replicate (Z.to_nat hw_len) 0) b else Ok b);
     k b).
Proof.
  intros hw Hb Hl HQ. unfold chaddr_field in HQ. unfold MAX_CHADDR_LEN in *.
  destruct ((0 <? zlen hw) && (zlen hw <=? 16)) eqn:E.
  - rewrite bind_assoc. wr; [lia|]. intros b1 H1. rewrite bind_Ok.
    destruct (Z.ltb_spec 0 (16 - zlen hw)).
    + wr; [unfold zlen in *; rewrite length_app, length_replicate; lia|]. intros b2 H2. apply HQ.
      by rewrite app_assoc.
    + rewrite bind_Ok. apply HQ. replace (16 - zlen hw) with 0 by lia.
      cbn [Z.to_nat replicate]. by rewrite app_nil_r.
  - rewrite bind_Ok. cbn [Z.ltb Z.compare]. wr; [done|]. done.
Qed.

Local Ltac sz := rewrite ?zlen_app, ?zlen_bytes16, ?zlen_bytes32; zlia.

Lemma pack_head_spec p b :
  packable p -> holds b [] ->
  ends (wire (head_fields (header_of p) ++ [F32 DHCP_OPTIONS_COOKIE])) (P.pack_head alloc_ok p b).
Proof.
  intros [Ha Hsn Hfl _] Hb. rewrite !Forall_cons_iff in Ha. destruct Ha as (?&?&?&?&_).
  pose proof (zlen_chaddr_field (hwaddr_ (chaddr_ p))) as Hch.
  unfold P.pack_head, MAX_SNAME_LEN, MAX_FILE_LEN in *. cbv zeta.
  do 11 (wr; [sz|]; intros ? ?).
  eapply chaddr_write; [eassumption|sz|]. intros ? ?. do 2 (wr; [sz|]; intros ? ?).
  rewrite <- (bind_ret (P.w32 _ _ _)). wr; [sz|]; intros c Hc. cbn [ends]. unfold wire.
  cbn [head_fields header_of app fmap list_fmap field_bytes concat h_op h_htype h_hlen h_hops h_xid
       h_secs h_flags h_ci h_yi h_si h_gi h_chaddr h_sname h_file].
  rewrite <- !app_assoc in Hc. exact Hc.
Qed.

Lemma holds_clear p : packable p -> holds (OutputBuffer.clear (buffer_out_ p)) [].
Proof.
  intros [_ _ _ [Hs Ha Hb]]. split_and!; [|done|done]. split; cbn; [lia|done..].
Qed.

Lemma header_of_ok_size p : packable p -> zlen (wire (head_fields (header_of p))) = 236.
Proof.
  intros [_ Hsn Hfl _]. unfold wire, head_fields, header_of.
  cbn [fmap list_fmap concat field_bytes h_op h_htype h_hlen h_hops h_xid
       h_secs h_flags h_ci h_yi h_si h_gi h_chaddr h_sname h_file].
  rewrite !zlen_app, !zlen_bytes16, !zlen_bytes32, Hsn, Hfl, zlen_chaddr_field. done.
Qed.

Lemma pack_spec p os :
  packable p -> packOptions4 (poptions_ p) = Ok os -> zlen os < 2^31 ->
  exists p', P.pack alloc_ok p = Ok p' /\
    OutputBuffer.contents (buffer_out_ p') = Some <$> packet_bytes p os /\
    p' = p <| buffer_out_ := buffer_out_ p' |>.
Proof.
  intros Hp Hos Hlen. unfold P.pack.
  unfold P.pack_body.
  pose proof (pack_head_spec p _ Hp (holds_clear p Hp)) as H.
  destruct (P.pack_head _ _ _) as [b| | |]; cbn [ends] in H; try done.
  rewrite bind_Ok, Hos, bind_Ok.
  pose proof (header_of_ok_size p Hp) as H236.
  assert (ends (packet_bytes p os) (b ← P.wdata alloc_ok os b; P.w8 alloc_ok DHO_END b)) as He.
  { wr; [rewrite wire_app; change (wire [F32 _]) with (bytes32 DHCP_OPTIONS_COOKIE); sz|].
    intros b1 H1. rewrite <- (bind_ret (P.w8 _ _ _)).
    wr; [rewrite wire_app; change (wire [F32 _]) with (bytes32 DHCP_OPTIONS_COOKIE); sz|].
    intros b2 H2. cbn [ends]. unfold packet_bytes. rewrite !wire_app in *.
    rewrite <- !app_assoc in H2. exact H2. }
  destruct (mbind _ _) as [b'| | |]; cbn [ends] in He; try done.
  cbn [try_kea]. rewrite bind_Ok. eexists. split; [done|]. cbn. split; [|done]. apply He.
Qed.

(** A failure of the options is reported as [InvalidOperation]. *)
Lemma pack_error p e :
  packable p -> packOptions4 (poptions_ p) = Throw e -> is_kea e = true ->
  P.pack alloc_ok p = Throw InvalidOperation.
Proof.
  intros Hp Hos He. unfold P.pack, P.pack_body.
  pose proof (pack_head_spec p _ Hp (holds_clear p Hp)) as H.
  destruct (P.pack_head _ _ _) as [b| | |]; cbn [ends] in H; try done.
  rewrite bind_Ok, Hos. cbn. by rewrite He.
Qed.

End Pack.

Lemma packet_bytes_split p os :
  packet_bytes p os = wire (head_fields (header_of p)) ++ bytes32 DHCP_OPTIONS_COOKIE ++ os ++ [DHO_END].
Proof.
  unfold packet_bytes. by rewrite wire_app.
Qed.

(** ** Options that differ in the encapsulated space only

    [setType] labels the message-type option with the space "dhcp4", the
    parser with the space of its definition.  The label is not on the wire. *)
Fixpoint strip (o : opt) : opt :=
  match o with Opt t d b os _ => Opt t d b (map (fun p => (p.1, strip p.2)) os) "" end.
Definition strip_coll (c : coll) : coll := map (fun p => (p.1, strip p.2)) c.

#[global] Instance opt_equiv : Equiv opt := fun a b => strip a = strip b.
#[global] Instance opt_equivalence : Equivalence (≡@{opt}).
Proof.
  split; unfold Reflexive, Symmetric, Transitive, equiv, opt_equiv; congruence.
Qed.

Definition same_wire (c c' : coll) : Prop := strip_coll c = strip_coll c'.
#[global] Instance same_wire_equivalence : Equivalence same_wire.
Proof. split; unfold Reflexive, Symmetric, Transitive, same_wire; congruence. Qed.

Lemma len_strip o : Options.len (strip o) = Options.len o.
Proof.
  induction o as [t d b os s IH] using opt_nested_ind. cbn [strip Options.len].
  rewrite map_map. cbn [snd].
  replace (map (fun x => Options.len (strip x.2)) os) with (map (fun p => Options.len p.2) os); [done|].
  induction IH as [|x os Hx _ IHos]; [done|]. cbn. by rewrite Hx, IHos.
Qed.

Lemma packHeader_strip o : packHeader (strip o) = packHeader o.
Proof. unfold packHeader. rewrite len_strip. by destruct o. Qed.

Lemma pack_strip o : Options.pack (strip o) = Options.pack o.
Proof.
  induction o as [t d b os s IH] using opt_nested_ind.
  pose proof (packHeader_strip (Opt t d b os s)) as Hh. pose proof (len_strip (Opt t d b os s)) as Hl.
  cbn [strip] in Hh, Hl. cbn [strip Options.pack]. rewrite Hh, Hl, map_map.
  replace (map (fun x => (fst (x.1, strip x.2), Options.pack (snd (x.1, strip x.2)))) os)
    with (map (fun p => (p.1, Options.pack p.2)) os); [done|].
  clear Hh Hl. induction IH as [|x os Hx _ IHos]; [done|]. cbn. by rewrite Hx, IHos.
Qed.

Lemma packOptions4_strip c : packOptions4 (strip_coll c) = packOptions4 c.
Proof.
  unfold packOptions4, strip_coll. rewrite map_map. f_equal. apply map_ext.
  intros [k o]. cbn. by rewrite pack_strip.
Qed.

#[global] Instance pack_proper : Proper ((≡) ==> (=)) Options.pack.
Proof. intros a b H. by rewrite <- (pack_strip a), <- (pack_strip b), H. Qed.
#[global] Instance len_proper : Proper ((≡) ==> (=)) Options.len.
Proof. intros a b H. by rewrite <- (len_strip a), <- (len_strip b), H. Qed.
#[global] Instance packOptions4_proper : Proper (same_wire ==> (=)) packOptions4.
Proof. intros a b H. by rewrite <- (packOptions4_strip a), <- (packOptions4_strip b), H. Qed.

(** ** The round trip *)
Record same_message (p q : Pkt) : Prop := MkSame {
  sm_op : op_ q = op_ p;
  sm_htype : htype_ (chaddr_ q) = htype_ (chaddr_ p);
  sm_chaddr : hwaddr_ (chaddr_ q) = hwaddr_ (chaddr_ p);
  sm_hops : hops_ q = hops_ p;
  sm_xid : transid_ q = transid_ p;
  sm_secs : secs_ q = secs_ p;
  sm_flags : flags_ q = flags_ p;
  sm_ciaddr : ciaddr_ q = ciaddr_ p;
  sm_yiaddr : yiaddr_ q = yiaddr_ p;
  sm_siaddr : siaddr_ q = siaddr_ p;
  sm_giaddr : giaddr_ q = giaddr_ p;
  sm_sname : sname_ q = sname_ p;
  sm_file : file_ q = file_ p;
  sm_options : same_wire (poptions_ q) (poptions_ p) }.

(** The integer members are in the range of their types and the hardware
    address fits the CHADDR field. *)
Record in_range (p : Pkt) : Prop := MkInRange {
  ir_bytes : Forall (fun v => 0 <= v < 2^8) [op_ p; htype_ (chaddr_ p); hops_ p];
  ir_words : Forall (fun v => 0 <= v < 2^16) [secs_ p; flags_ p];
  ir_xid : 0 <= transid_ p < 2^32;
  ir_hw : zlen (hwaddr_ (chaddr_ p)) <= MAX_CHADDR_LEN }.

Lemma of_uint32_value a : v4_ok a -> IOAddr.of_uint32 (addr_value a) = a.
Proof. intros (v & -> & Hv). unfold IOAddr.of_uint32. cbn. by rewrite u32_small. Qed.

Lemma v4_range a : v4_ok a -> 0 <= addr_value a < 2^32.
Proof. by intros (v & -> & Hv). Qed.

Lemma header_of_ok p : packable p -> in_range p -> header_ok (header_of p).
Proof.
  intros [Ha Hsn Hfl _] [Hb Hw Hx Hh]. unfold MAX_CHADDR_LEN in Hh.
  rewrite !Forall_cons_iff in Ha. rewrite !Forall_cons_iff in Hb. rewrite !Forall_cons_iff in Hw.
  destruct Ha as (?&?&?&?&_), Hb as (?&?&?&_), Hw as (?&?&_).
  split_and!; [|apply zlen_chaddr_field|done|done].
  unfold head_fields, header_of. cbn [h_op h_htype h_hlen h_hops h_xid
       h_secs h_flags h_ci h_yi h_si h_gi h_chaddr h_sname h_file].
  repeat constructor; cbn [field_ok]; try first [lia|by apply v4_range].
  all: unfold MAX_CHADDR_LEN; case_match; zlen_facts; lia.
Qed.

Lemma resize_app hw n : resize (hw ++ replicate n 0) (zlen hw) = hw.
Proof.
  unfold resize. rewrite to_nat_zlen, take_app_length, length_app.
  rewrite (proj2 (Nat.sub_0_le _ _)) by lia. apply app_nil_r.
Qed.

Lemma chaddr_back hw :
  zlen hw <= MAX_CHADDR_LEN ->
  resize (chaddr_field hw) (if zlen hw <? MAX_CHADDR_LEN then zlen hw else MAX_CHADDR_LEN) = hw.
Proof.
  unfold chaddr_field, MAX_CHADDR_LEN. intros Hh. pose proof (zlen_nonneg hw).
  replace (if zlen hw <? 16 then zlen hw else 16) with (zlen hw) by (case_match; lia).
  destruct (Z.ltb_spec 0 (zlen hw)).
  - replace (zlen hw <=? 16) with true by lia. apply resize_app.
  - destruct hw; [done|exfalso; zlia].
Qed.

Lemma pkt_roundtrip lib alloc_ok p c os :
  (forall n, alloc_ok n = true) -> packable p -> in_range p ->
  same_wire (poptions_ p) c -> wf_coll lib DHCP4_OPTION_SPACE c ->
  packOptions4 c = Ok os -> zlen os < 2^16 ->
  exists p' data q q',
    P.pack alloc_ok p = Ok p' /\
    OutputBuffer.contents (buffer_out_ p') = Some <$> data /\
    P.make_data data = Ok q /\ P.unpack lib q = Ok q' /\
    same_message p q' /\ poptions_ q' = c.
Proof.
  intros Ha Hp Hr Hc Hw Hos Hlen.
  assert (packOptions4 (poptions_ p) = Ok os) as Hos' by (by rewrite Hc).
  destruct (pack_spec alloc_ok Ha p os Hp Hos') as (p' & Hpack & Hcont & _); [lia|].
  exists p', (packet_bytes p os). rewrite packet_bytes_split in *.
  pose proof (header_of_ok p Hp Hr) as Hh. pose proof (zlen_header _ Hh) as H236.
  set (rest := bytes32 DHCP_OPTIONS_COOKIE ++ os ++ [DHO_END]) in *.
  set (q := (P.blank BOOTREQUEST 0) <| pdata_ := wire (head_fields (header_of p)) ++ rest |>).
  exists q, (unpacked (header_of p) (MkHWAddr (hwaddr_ (chaddr_ p)) (htype_ (chaddr_ p)) 0) c q).
  split_and!; [done|done| | | |done].
  - unfold P.make_data. rewrite zlen_app, H236.
    replace (236 + zlen rest <? DHCPV4_PKT_HDR_LEN) with false
      by (unfold DHCPV4_PKT_HDR_LEN; zlen_facts; lia). done.
  - rewrite (unpack_view lib q (header_of p) rest);
      [|done|by repeat constructor|unfold rest; rewrite !zlen_app, zlen_bytes32; zlia|done].
    destruct Hr as [_ _ _ Hhw].
    unfold unpack_rest. cbn [header_of h_chaddr h_hlen h_htype]. rewrite chaddr_back by done.
    unfold HW.make. replace (HW.MAX_HWADDR_LEN <? zlen (hwaddr_ (chaddr_ p))) with false
      by (unfold HW.MAX_HWADDR_LEN, MAX_CHADDR_LEN in *; lia).
    unfold rest. rewrite !zlen_app, zlen_bytes32, !readUint32_bytes by done.
    replace (4 + _ =? 0) with false by (zlen_facts; lia).
    replace (4 + _ <? 4) with false by (zlen_facts; lia).
    cbn [throw_if]. rewrite !bind_Ok, Z.eqb_refl. cbn [negb throw_if]. rewrite bind_Ok.
    change (drop 4 (bytes32 DHCP_OPTIONS_COOKIE ++ os ++ [DHO_END])) with (os ++ [DHO_END]).
    change (poptions_ q) with (@nil (Z * opt)).
    rewrite (wf_coll_roundtrip lib _ c); [done|done| |done|lia]. right. by exists [].
  - destruct Hp as [Hads _ _ _]. rewrite !Forall_cons_iff in Hads.
    destruct Hads as (?&?&?&?&_).
    split; try done; cbn; by apply of_uint32_value.
Qed.
