(* ===== verification/Nic.v ===== *)
(** Network interfaces: [Iface] and [IfaceMgr] of nic/iface.cpp and
    nic/iface_mgr.cpp.

    The manager keeps the interfaces, their addresses and the sockets opened
    on them.  The packet filter is the interface [PktFilter] of
    nic/pkt_filter.h: whether it can answer a client that has no address yet,
    and the outcome of opening a socket, which is the operating system's. *)
From stdpp Require Import base list numbers option strings pretty.
From Stdlib Require Import ZArith Lia.
From S2P Require Import Prelude Buffer HwAddr Address Options Pkt.

Record SocketInfo := MkSocketInfo { so_addr_ : IOAddress; port_ : Z; sockfd_ : Z; fallbackfd_ : Z }.

#[global] Instance SocketInfo_eq_dec : EqDecision SocketInfo.
Proof. solve_decision. Defined.

Record Iface := MkIface {
  if_sockets_ : list SocketInfo; if_name_ : string; if_index_ : Z;
  if_addrs_ : list IOAddress; unicasts_ : list IOAddress;
  if_mac_ : list Z; mac_len_ : Z; hardware_type_ : Z; if_flags_ : Z; inactive4_ : bool }.

#[global] Instance Iface_eta : Eta Iface := fun i =>
  MkIface (if_sockets_ i) (if_name_ i) (if_index_ i) (if_addrs_ i) (unicasts_ i) (if_mac_ i) (mac_len_ i)
    (hardware_type_ i) (if_flags_ i) (inactive4_ i).

Record PktFilter := MkPktFilter {
  isDirectResponseSupported : bool;
  pf_openSocket : Iface -> IOAddress -> Z -> bool -> bool -> result SocketInfo }.

Module If.

Definition MAX_MAC_LEN : Z := 20.
(** The flag bits of <net/if.h>. *)
Definition IFF_UP : Z := 1.
Definition IFF_BROADCAST : Z := 2.
Definition IFF_LOOPBACK : Z := 8.
Definition IFF_RUNNING : Z := 64.
Definition IFF_MULTICAST : Z := 4096.

Definition make (name : string) (ifindex : Z) : Iface :=
  MkIface [] name ifindex [] [] (replicate 20 0) 0 0 0 false.

(** The sockets kept, whether any was closed, and the descriptors closed. *)
Definition closeSockets_if (filt : SocketInfo -> bool) (i : Iface) : Iface * bool * list Z :=
  let closed := List.filter filt (if_sockets_ i) in
  let left_sockets := List.filter (fun s => negb (filt s)) (if_sockets_ i) in
  let fds := concat ((fun s => sockfd_ s :: (if 0 <? fallbackfd_ s then [fallbackfd_ s] else [])) <$> closed) in
  if negb (length (if_sockets_ i) =? length left_sockets)%nat
  then (i <| if_sockets_ := left_sockets |>, true, fds)
  else (i, false, fds).
Definition closeSockets (i : Iface) : Iface * bool * list Z := closeSockets_if (fun _ => true) i.
Definition delSocket (sockfd : Z) (i : Iface) : Iface * bool * list Z :=
  closeSockets_if (fun s => sockfd_ s =? sockfd) i.

Definition getFullName (i : Iface) : string := (if_name_ i +:+ "/" +:+ pretty (if_index_ i))%string.

Definition setMac (mac : list Z) (i : Iface) : result Iface :=
  throw_if (MAX_MAC_LEN <? zlen mac) OutOfRange;;
  Ok (i <| mac_len_ := zlen mac |> <| if_mac_ := mac ++ drop (length mac) (if_mac_ i) |>).

Definition hasAddress (a : IOAddress) (i : Iface) : bool := bool_decide (a ∈ if_addrs_ i).
Definition addAddress (a : IOAddress) (i : Iface) : result Iface :=
  throw_if (hasAddress a i) BadValue;; Ok (i <| if_addrs_ := if_addrs_ i ++ [a] |>).

Fixpoint erase_first (a : IOAddress) (l : list IOAddress) : option (list IOAddress) :=
  match l with
  | [] => None
  | x :: l => if IOAddr.equals x a then Some l else (cons x) <$> erase_first a l
  end.
Definition delAddress (a : IOAddress) (i : Iface) : Iface * bool :=
  match erase_first a (if_addrs_ i) with
  | Some l => (i <| if_addrs_ := l |>, true)
  | None => (i, false)
  end.

Definition getAddress (i : Iface) : option IOAddress := head (if_addrs_ i).

Definition addUnicast (a : IOAddress) (i : Iface) : result Iface :=
  throw_if (bool_decide (a ∈ unicasts_ i)) BadValue;; Ok (i <| unicasts_ := unicasts_ i ++ [a] |>).

Definition addSocket (s : SocketInfo) (i : Iface) : Iface := i <| if_sockets_ := if_sockets_ i ++ [s] |>.

Definition flag (i : Iface) (bit : Z) : bool := negb (Z.land (if_flags_ i) bit =? 0).
Definition isLoopBack (i : Iface) : bool := flag i IFF_LOOPBACK.
Definition isUp (i : Iface) : bool := flag i IFF_UP.
Definition isRunning (i : Iface) : bool := flag i IFF_RUNNING.
Definition isMulticast (i : Iface) : bool := flag i IFF_MULTICAST.
Definition isBroadcast (i : Iface) : bool := flag i IFF_BROADCAST.

Definition isActive (i : Iface) : bool := negb (inactive4_ i).
Definition setActive (active : bool) (i : Iface) : Iface := i <| inactive4_ := active |>.
Definition getIndex (i : Iface) : Z := u16 (if_index_ i).

End If.

Record IfaceMgr := MkIfaceMgr { ifaces_ : list Iface; packet_filter_ : PktFilter }.

#[global] Instance IfaceMgr_eta : Eta IfaceMgr := fun m => MkIfaceMgr (ifaces_ m) (packet_filter_ m).

Module Mgr.

Definition getIface_index (ifindex : Z) (m : IfaceMgr) : option Iface :=
  List.find (fun i => If.getIndex i =? ifindex) (ifaces_ m).
Definition getIface (ifname : string) (m : IfaceMgr) : option Iface :=
  List.find (fun i => String.eqb (if_name_ i) ifname) (ifaces_ m).

(** Writing through the pointer [getIface] returns. *)
Fixpoint update (ifname : string) (f : Iface -> Iface) (l : list Iface) : list Iface :=
  match l with
  | [] => []
  | i :: l => if String.eqb (if_name_ i) ifname then f i :: l else i :: update ifname f l
  end.

Definition hasOpenSocket (m : IfaceMgr) : bool :=
  existsb (fun i => negb (bool_decide (if_sockets_ i = []))) (ifaces_ m).

Definition hasOpenSocket_addr (a : IOAddress) (m : IfaceMgr) : bool :=
  existsb (fun i => existsb (fun s =>
    if IOAddr.equals (so_addr_ s) a then true
    else IOAddr.isV4Zero (so_addr_ s) && existsb (fun x => IOAddr.equals x a) (if_addrs_ i))
    (if_sockets_ i)) (ifaces_ m).

Definition setPacketFilter (pf : option PktFilter) (m : IfaceMgr) : result IfaceMgr :=
  match pf with
  | None => Throw InvalidPacketFilter
  | Some pf => throw_if (hasOpenSocket m) PacketFilterChangeDenied;; Ok (m <| packet_filter_ := pf |>)
  end.

Definition addInterface (i : Iface) (m : IfaceMgr) : IfaceMgr := m <| ifaces_ := ifaces_ m ++ [i] |>.
Definition clearIfaces (m : IfaceMgr) : IfaceMgr := m <| ifaces_ := [] |>.
Definition clearUnicasts (m : IfaceMgr) : IfaceMgr :=
  m <| ifaces_ := (fun i => i <| unicasts_ := [] |>) <$> ifaces_ m |>.
Definition closeSockets (m : IfaceMgr) : IfaceMgr :=
  m <| ifaces_ := (fun i => (If.closeSockets i).1.1) <$> ifaces_ m |>.

(** [openSocket] with [openSocket4]: the descriptor and the manager with the
    socket recorded on the interface. *)
Definition openSocket (ifname : string) (a : IOAddress) (port : Z) (receive_bcast send_bcast : bool)
    (m : IfaceMgr) : result (Z * IfaceMgr) :=
  match getIface ifname m with
  | None => Throw BadValue
  | Some i =>
      info ← pf_openSocket (packet_filter_ m) i a port receive_bcast send_bcast;
      Ok (sockfd_ info, m <| ifaces_ := update ifname (If.addSocket info) (ifaces_ m) |>)
  end.

(** [IFACEMGR_ERROR]: without an error handler the error is thrown. *)
Definition report (handler : bool) : result unit := throw_if (negb handler) SocketConfigError.

(** One address of one interface: the counters and the manager after it. *)
Definition open_address (port : Z) (use_bcast handler : bool) (i : Iface)
    (st : Z * Z * IfaceMgr) (a : IOAddress) : result (Z * Z * IfaceMgr) :=
  let '(count, bcast_num, m) := st in
  if If.isBroadcast i && use_bcast then
    if negb (isDirectResponseSupported (packet_filter_ m)) && (0 <? bcast_num) then
      report handler;; Ok st
    else
      match openSocket (if_name_ i) a port true true m with
      | Ok (_, m') => Ok (count + 1, bcast_num + 1, m')
      | Throw e => if is_kea e then report handler;; Ok st else Throw e
      | Crash => Crash
      | NoFuel => NoFuel
      end
  else
    match openSocket (if_name_ i) a port false false m with
    | Ok (_, m') => Ok (count + 1, bcast_num, m')
    | Throw e => if is_kea e then report handler;; Ok st else Throw e
    | Crash => Crash
    | NoFuel => NoFuel
    end.

Definition usable (i : Iface) : bool :=
  If.isUp i && If.isRunning i && match If.getAddress i with Some _ => true | None => false end.

Definition open_iface (port : Z) (use_bcast handler : bool) (st : Z * Z * IfaceMgr) (i : Iface)
    : result (Z * Z * IfaceMgr) :=
  if negb (If.isActive i) then Ok st
  else if If.isLoopBack i then report handler;; Ok st
  else if negb (usable i) then report handler;; Ok st
  else foldM (open_address port use_bcast handler i) st (if_addrs_ i).

(** The outer loop runs over the interfaces; opening sockets changes neither
    their number nor what the loop reads of them. *)
Definition openSockets4 (port : Z) (use_bcast handler : bool) (m : IfaceMgr) : result (bool * IfaceMgr) :=
  '(count, _, m') ← foldM (open_iface port use_bcast handler) (0, 0, m) (ifaces_ m);
  Ok (0 <? count, m').

Fixpoint first_address (ifname : string) (l : list Iface) : result (string * IOAddress) :=
  match l with
  | [] => Throw BadValue
  | i :: l =>
      if String.eqb (If.getFullName i) ifname || String.eqb (if_name_ i) ifname then
        match if_addrs_ i with [] => Throw SocketConfigError | a :: _ => Ok (if_name_ i, a) end
      else first_address ifname l
  end.

Definition openSocketFromIface (ifname : string) (port : Z) (m : IfaceMgr) : result (Z * IfaceMgr) :=
  '(n, a) ← first_address ifname (ifaces_ m); openSocket n a port false false m.

Fixpoint iface_with_address (a : IOAddress) (l : list Iface) : result string :=
  match l with
  | [] => Throw BadValue
  | i :: l => if existsb (fun x => IOAddr.equals x a) (if_addrs_ i) then Ok (if_name_ i) else iface_with_address a l
  end.

Definition openSocketFromAddress (a : IOAddress) (port : Z) (m : IfaceMgr) : result (Z * IfaceMgr) :=
  n ← iface_with_address a (ifaces_ m); openSocket n a port false false m.

(** [getLocalAddress] is "0.0.0.0". *)
Definition openSocketFromRemoteAddress (port : Z) (m : IfaceMgr) : result (Z * IfaceMgr) :=
  try_kea (openSocketFromAddress IOAddr.IPV4_ZERO_ADDRESS port m) (fun _ => Throw SocketConfigError).

Fixpoint pick_socket (local : IOAddress) (candidate : option SocketInfo) (l : list SocketInfo) : option SocketInfo :=
  match l with
  | [] => candidate
  | s :: l =>
      if IOAddr.equals (so_addr_ s) local then Some s
      else pick_socket local (match candidate with None => Some s | Some c => Some c end) l
  end.

Definition getSocket (p : Pkt) (m : IfaceMgr) : result SocketInfo :=
  match getIface (iface_ p) m with
  | None => Throw IfaceNotFound
  | Some i =>
      match pick_socket (local_addr_ p) None (if_sockets_ i) with
      | Some s => Ok s
      | None => Throw SocketNotFound
      end
  end.

(** The descriptor a packet is sent on. *)
Definition send_socket (p : Pkt) (m : IfaceMgr) : result Z :=
  match getIface (iface_ p) m with
  | None => Throw BadValue
  | Some _ => s ← getSocket p m; Ok (u16 (sockfd_ s))
  end.

End Mgr.

(** ** Facts *)
Lemma pick_socket_in local c l s :
  Mgr.pick_socket local c l = Some s -> c = Some s \/ s ∈ l.
Proof.
  revert c. induction l as [|x l IH]; intros c; cbn; [by left|].
  destruct (IOAddr.equals _ _).
  - intros [= <-]. right. by left.
  - intros [H|H]%IH; [|right; by right]. destruct c; simplify_eq; [by left|right; by left].
Qed.

Lemma equals_true a b : IOAddr.equals a b = true <-> a = b.
Proof. unfold IOAddr.equals. apply bool_decide_eq_true. Qed.

Lemma pick_socket_local local c l :
  match Mgr.pick_socket local c l with
  | Some s => so_addr_ s = local \/ Forall (fun x => so_addr_ x <> local) l
  | None => c = None /\ l = []
  end.
Proof.
  revert c. induction l as [|x l IH]; intros c; cbn.
  - destruct c; [right; constructor|done].
  - destruct (IOAddr.equals (so_addr_ x) local) eqn:E; [left; by apply equals_true|].
    assert (so_addr_ x <> local) as Hx by (intros H; apply equals_true in H; congruence).
    specialize (IH (match c with Some c => Some c | None => Some x end)).
    destruct (Mgr.pick_socket local _ l); [|by destruct IH as [? _]; destruct c].
    destruct IH as [?|?]; [by left|right; by constructor].
Qed.

(** Sockets are only ever added to an interface that exists. *)
Definition total_sockets (l : list Iface) : Z := foldr (fun i n => zlen (if_sockets_ i) + n) 0 l.

Lemma update_total n s l :
  List.find (fun i => String.eqb (if_name_ i) n) l <> None ->
  total_sockets (Mgr.update n (If.addSocket s) l) = total_sockets l + 1.
Proof.
  induction l as [|i l IH]; [done|]. cbn. destruct (String.eqb (if_name_ i) n).
  - intros _. cbn [foldr total_sockets].
    change (if_sockets_ (If.addSocket s i)) with (if_sockets_ i ++ [s]). zlia.
  - intros H. fold (total_sockets l) in *. cbn [total_sockets foldr].
    fold (total_sockets (Mgr.update n (If.addSocket s) l)). fold (total_sockets l). rewrite IH by done. lia.
Qed.

Lemma update_names n f l :
  (forall i, if_name_ (f i) = if_name_ i) -> if_name_ <$> Mgr.update n f l = if_name_ <$> l.
Proof.
  intros Hf. induction l as [|i l IH]; [done|]. cbn. destruct (String.eqb _ _); cbn; [by rewrite Hf|].
  f_equal. exact IH.
Qed.

Lemma find_name n l : n ∈ (if_name_ <$> l) -> List.find (fun i => String.eqb (if_name_ i) n) l <> None.
Proof.
  induction l as [|i l IH]; [by intros ?%elem_of_nil|]. cbn. destruct (String.eqb (if_name_ i) n) eqn:E; [done|].
  intros [->|H]%elem_of_cons; [by rewrite String.eqb_refl in E|]. by apply IH.
Qed.

Section Open.
Variables (port : Z) (use_bcast : bool) (names : list string).
(** The addresses that the filter can open sockets for. *)
Variable usable : IOAddress -> Prop.

(** What the loops of [openSockets4] maintain. *)
Definition open_inv (m0 : IfaceMgr) (st : Z * Z * IfaceMgr) : Prop :=
  let '(count, bcast, m) := st in
  0 <= bcast <= count /\
  if_name_ <$> ifaces_ m = names /\ packet_filter_ m = packet_filter_ m0 /\
  total_sockets (ifaces_ m) = total_sockets (ifaces_ m0) + count /\
  (isDirectResponseSupported (packet_filter_ m0) = false -> bcast <= 1).

Lemma openSocket_inv m n a p rb sb :
  (forall i a p rb sb, usable a -> kea_ok (pf_openSocket (packet_filter_ m) i a p rb sb)) -> usable a ->
  n ∈ (if_name_ <$> ifaces_ m) ->
  match Mgr.openSocket n a p rb sb m with
  | Ok (_, m') => total_sockets (ifaces_ m') = total_sockets (ifaces_ m) + 1 /\
      if_name_ <$> ifaces_ m' = if_name_ <$> ifaces_ m /\ packet_filter_ m' = packet_filter_ m
  | Throw e => is_kea e = true
  | _ => False
  end.
Proof.
  intros Hpf Ha Hn. unfold Mgr.openSocket, Mgr.getIface.
  pose proof (find_name n _ Hn) as Hf.
  destruct (List.find _ _) as [i|] eqn:E; [|done].
  specialize (Hpf i a p rb sb Ha). destruct (pf_openSocket _ _ _ _ _ _) as [s|e| |]; try done.
  rewrite bind_Ok. cbn. split_and!; [|by apply update_names|done].
  apply update_total. by rewrite E.
Qed.

Lemma open_address_inv m0 i st a :
  (forall i a p rb sb, usable a -> kea_ok (pf_openSocket (packet_filter_ m0) i a p rb sb)) -> usable a ->
  if_name_ i ∈ names -> open_inv m0 st ->
  exists st', Mgr.open_address port use_bcast true i st a = Ok st' /\ open_inv m0 st'.
Proof.
  intros Hpf Ha Hi. destruct st as [[count bcast] m]. intros Hst0. pose proof Hst0 as (Hb & Hn & Hp & Ht & Hd).
  unfold Mgr.open_address. rewrite <- Hp in Hpf.
  assert (forall rb sb, exists st', (match Mgr.openSocket (if_name_ i) a port rb sb m with
      | Ok (_, m') => Ok (count + 1, bcast + (if rb then 1 else 0), m')
      | Throw e => if is_kea e then Mgr.report true;; Ok (count, bcast, m) else Throw e
      | Crash => Crash | NoFuel => NoFuel end) = Ok st' /\
      ((rb = true -> isDirectResponseSupported (packet_filter_ m0) = false -> bcast <= 0) -> open_inv m0 st'))
    as Hopen.
  { intros rb sb. pose proof (openSocket_inv m (if_name_ i) a port rb sb Hpf Ha) as H.
    specialize (H ltac:(by rewrite Hn)).
    destruct (Mgr.openSocket _ _ _ _ _ _) as [[fd m']|e| |]; try done.
    - destruct H as (H1 & H2 & H3). eexists. split; [done|]. intros Hrb.
      split_and!; [destruct rb; lia|destruct rb; lia|congruence|congruence|lia|]. intros Hf.
      specialize (Hd Hf). destruct rb; [specialize (Hrb eq_refl Hf); lia|lia].
    - rewrite H. eexists. split; [done|]. by intros _. }
  destruct (If.isBroadcast i && use_bcast).
  - destruct (negb (isDirectResponseSupported (packet_filter_ m)) && (0 <? bcast)) eqn:E.
    + by eexists.
    + destruct (Hopen true true) as (st' & E' & Hst). exists st'. split; [exact E'|].
      apply Hst. intros _ Hf. rewrite Hp, Hf in E. cbn in E. lia.
  - destruct (Hopen false false) as (st' & E' & Hst). exists st'. split.
    + rewrite <- E'. destruct (Mgr.openSocket _ _ _ _ _ _) as [[fd m']|e| |]; try done.
      do 3 f_equal. lia.
    + by apply Hst.
Qed.

Lemma open_iface_inv m0 i st :
  (forall i a p rb sb, usable a -> kea_ok (pf_openSocket (packet_filter_ m0) i a p rb sb)) -> Forall usable (if_addrs_ i) ->
  if_name_ i ∈ names -> open_inv m0 st ->
  exists st', Mgr.open_iface port use_bcast true st i = Ok st' /\ open_inv m0 st'.
Proof.
  intros Hpf Hus Hi Hst. unfold Mgr.open_iface.
  destruct (negb (If.isActive i)); [eauto|]. destruct (If.isLoopBack i); [eauto|].
  destruct (negb (Mgr.usable i)); [eauto|].
  revert st Hst. induction Hus as [|a l Ha _ IH]; intros st Hst; cbn [foldM]; [eauto|].
  destruct (open_address_inv m0 i st a Hpf Ha Hi Hst) as (st1 & -> & H1). rewrite bind_Ok. by apply IH.
Qed.

End Open.

Lemma openSockets4_spec usable m port use_bcast :
  (forall i a p rb sb, usable a -> kea_ok (pf_openSocket (packet_filter_ m) i a p rb sb)) ->
  Forall (fun i => Forall usable (if_addrs_ i)) (ifaces_ m) ->
  exists m' count, Mgr.openSockets4 port use_bcast true m = Ok (0 <? count, m') /\ 0 <= count /\
    total_sockets (ifaces_ m') = total_sockets (ifaces_ m) + count /\
    if_name_ <$> ifaces_ m' = if_name_ <$> ifaces_ m.
Proof.
  intros Hpf Hus. unfold Mgr.openSockets4. set (names := if_name_ <$> ifaces_ m).
  assert (forall l st, Forall (fun i => if_name_ i ∈ names /\ Forall usable (if_addrs_ i)) l -> open_inv names m st ->
    exists st', foldM (Mgr.open_iface port use_bcast true) st l = Ok st' /\ open_inv names m st') as Hl.
  { induction l as [|i l IH]; intros st Hall Hst; cbn [foldM]; [eauto|].
    apply Forall_cons_iff in Hall as [[Hi Hu] Hall].
    destruct (open_iface_inv port use_bcast names usable m i st Hpf Hu Hi Hst) as (st1 & -> & H1).
    rewrite bind_Ok. by apply IH. }
  destruct (Hl (ifaces_ m) (0, 0, m)) as ([[count bcast] m'] & -> & (Hb & Hn & Hp & Ht & _)).
  - rewrite Forall_forall in Hus |- *. intros i Hi. split; [by apply list_elem_of_fmap_2|by apply Hus].
  - unfold open_inv. split_and!; done || lia.
  - rewrite bind_Ok. exists m', count. split_and!; [done|lia|lia|done].
Qed.
