(* ===== verification/Netlink.v ===== *)
(** The detection of interfaces: nic/iface_mgr_linux.cpp.

    The kernel is asked over a netlink socket for its links and its addresses
    and answers with datagrams of messages, whose structures are read where
    they lie.  A pointer into a message is the rest of the message it points
    to, so a read behind the message is undefined ([Crash]). *)
From stdpp Require Import base list numbers option strings.
From Stdlib Require Import ZArith Lia.
From S2P Require Import Prelude Buffer HwAddr Address Options Pkt Nic.

(** ** Structures and macros of the kernel headers; the host is little-endian *)
Definition bytes16_le (v : Z) : list Z := [u8 v; u8 (Z.shiftr v 8)].
Definition bytes32_le (v : Z) : list Z := [u8 v; u8 (Z.shiftr v 8); u8 (Z.shiftr v 16); u8 (Z.shiftr v 24)].
Definition get16 (p : list Z) (off : Z) : result Z := a ← zget p off; b ← zget p (off + 1); Ok (a + 2^8 * b).
Definition get32 (p : list Z) (off : Z) : result Z := a ← get16 p off; b ← get16 p (off + 2); Ok (a + 2^16 * b).

Definition ALIGN (len : Z) : Z := Z.land (len + 3) (Z.lnot 3).

(** [nlmsghdr]: length, type, flags, sequence number, port. *)
Definition NLMSG_HDRLEN : Z := 16.
Definition NLMSG_LENGTH (len : Z) : Z := len + NLMSG_HDRLEN.
Definition nlmsg_len (h : list Z) : result Z := get32 h 0.
Definition nlmsg_type (h : list Z) : result Z := get16 h 4.
Definition nlmsg_seq (h : list Z) : result Z := get32 h 8.
Definition nlmsg_pid (h : list Z) : result Z := get32 h 12.
Definition NLMSG_DATA (h : list Z) : list Z := drop 16 h.
Definition NLMSG_OK (h : list Z) (len : Z) : result bool :=
  if len <? NLMSG_HDRLEN then Ok false else l ← nlmsg_len h; Ok ((NLMSG_HDRLEN <=? l) && (l <=? len)).
Definition NLMSG_NEXT (h : list Z) (len : Z) : result (list Z * Z) :=
  l ← nlmsg_len h; Ok (drop (Z.to_nat (ALIGN l)) h, len - ALIGN l).

Definition NLMSG_ERROR : Z := 2.
Definition NLMSG_DONE : Z := 3.

(** [rtattr]: length and type, then the payload. *)
Definition rta_len (rta : list Z) : result Z := get16 rta 0.
Definition rta_type (rta : list Z) : result Z := get16 rta 2.
Definition RTA_DATA (rta : list Z) : list Z := drop 4 rta.
Definition RTA_OK (rta : list Z) (len : Z) : result bool :=
  if len <? 4 then Ok false else l ← rta_len rta; Ok ((4 <=? l) && (l <=? len)).
Definition RTA_NEXT (rta : list Z) (len : Z) : result (list Z * Z) :=
  l ← rta_len rta; Ok (drop (Z.to_nat (ALIGN l)) rta, len - ALIGN l).

Definition IFLA_ADDRESS : nat := 1.
Definition IFLA_IFNAME : nat := 3.
Definition IFA_ADDRESS : nat := 1.
Definition IFA_LOCAL : nat := 2.
Definition RTM_GETLINK : Z := 18.
Definition RTM_GETADDR : Z := 22.
Definition AF_UNSPEC : Z := 0.
Definition AF_PACKET : Z := 17.
Definition AF_NETLINK : Z := 16.
Definition NLM_F : Z := 0x301. (** [NLM_F_ROOT | NLM_F_MATCH | NLM_F_REQUEST] *)
Definition EINTR : Z := 4.
Definition RCVBUF_SIZE : Z := 32768.

(** What [recvmsg] gives: an error, or a datagram and the port it is from. *)
Inductive reply : Type := RecvError (errno : Z) | Received (nl_pid : Z) (data : list Z).

(** The results of the system calls, and the datagrams that a request makes
    the kernel send. *)
Record NlSystem := MkNlSystem {
  nl_socket : Z; nl_fcntl : Z; nl_sndbuf : Z; nl_rcvbuf : Z; nl_bind : Z; nl_getsockname : Z;
  nl_addr_len : Z; nl_local_family : Z; nl_local_pid : Z; nl_sendto : list Z -> Z; nl_answers : list Z -> list reply }.

(** [inbox]: the datagrams that wait at the socket. *)
Record Netlink := MkNetlink { fd_ : Z; local_pid : Z; seq_ : Z; dump_ : Z; inbox : list reply }.
#[global] Instance Netlink_eta : Eta Netlink := fun nl =>
  MkNetlink (fd_ nl) (local_pid nl) (seq_ nl) (dump_ nl) (inbox nl).

(** The table of attributes: pointers into the message, or null. *)
Abbreviation RTattribVec := (list (option (list Z))) (only parsing).

Module Nl.
Section Nl.
Variable sys : NlSystem.
(** The constant of linux/if_link.h, which grows with its version. *)
Variable IFLA_MAX : nat.

Definition make : Netlink := MkNetlink (-1) 0 0 0 [].

(** The socket is left in [fd_] when something fails. *)
Definition rtnl_open_socket (nl : Netlink) : Netlink * result unit :=
  let nl := nl <| fd_ := nl_socket sys |> in
  if fd_ nl <? 0 then (nl, Throw Unexpected)
  else if nl_fcntl sys <? 0 then (nl, Throw Unexpected)
  else if nl_sndbuf sys <? 0 then (nl, Throw Unexpected)
  else if nl_rcvbuf sys <? 0 then (nl, Throw Unexpected)
  else if nl_bind sys <? 0 then (nl, Throw Unexpected)
  else if nl_getsockname sys <? 0 then (nl, Throw Unexpected)
  else let nl := nl <| local_pid := nl_local_pid sys |> in
  if negb (nl_addr_len sys =? 12) || negb (nl_local_family sys =? AF_NETLINK) then (nl, Throw Unexpected)
  else (nl, Ok tt).

(** The descriptors that are closed. *)
Definition rtnl_close_socket (nl : Netlink) : list Z := if fd_ nl =? -1 then [] else [fd_ nl].

(** The request: a header and the family, padded. *)
Definition request (family type seq : Z) : list Z :=
  bytes32_le 20 ++ bytes16_le type ++ bytes16_le NLM_F ++ bytes32_le seq ++ bytes32_le 0 ++ [family; 0; 0; 0].

Definition rtnl_send_request (family type : Z) (nl : Netlink) : result Netlink :=
  let nl := nl <| seq_ := u32 (seq_ nl + 1) |> in
  let nl := nl <| dump_ := seq_ nl |> in
  let req := request family type (seq_ nl) in
  throw_if (nl_sendto sys req <? 0) Unexpected;;
  Ok (nl <| inbox := inbox nl ++ nl_answers sys req |>).

(** The stored messages with a copy of one more. *)
Definition rtnl_store_reply (storage : list (list Z)) (msg : list Z) : result (list (list Z)) :=
  l ← nlmsg_len msg; copy ← slice msg 0 l; Ok (storage ++ [copy]).

(** The messages of one datagram: whether the last of all was among them, what
    is left of the datagram, and the messages stored. *)
Fixpoint messages_loop (fuel : nat) (nl : Netlink) (from : Z) (header : list Z) (status : Z) (info : list (list Z))
    : result (bool * Z * list (list Z)) :=
  match fuel with
  | O => NoFuel
  | S fuel =>
      ok ← NLMSG_OK header status;
      if negb ok then Ok (false, status, info)
      else
        pid ← nlmsg_pid header; seq ← nlmsg_seq header;
        if negb (from =? 0) || negb (pid =? local_pid nl) || negb (seq =? dump_ nl) then
          '(header, status) ← NLMSG_NEXT header status; messages_loop fuel nl from header status info
        else
          type ← nlmsg_type header;
          if type =? NLMSG_DONE then Ok (true, status, info)
          else if type =? NLMSG_ERROR then Throw Unexpected
          else
            info ← rtnl_store_reply info header;
            '(header, status) ← NLMSG_NEXT header status; messages_loop fuel nl from header status info
  end.

(** One datagram after the other until the last message; without one it waits
    for ever ([NoFuel]). *)
Fixpoint process_loop (nl : Netlink) (inbox : list reply) (info : list (list Z)) : result (list (list Z) * list reply) :=
  match inbox with
  | [] => NoFuel
  | RecvError errno :: inbox => if errno =? EINTR then process_loop nl inbox info else Throw Unexpected
  | Received from data :: inbox =>
      let buf := take (Z.to_nat RCVBUF_SIZE) data in
      throw_if (zlen buf =? 0) Unexpected;;
      '(done, status, info) ← messages_loop (S (length buf)) nl from buf (zlen buf) info;
      if done : bool then Ok (info, inbox)
      else
        throw_if (RCVBUF_SIZE <? zlen data) Unexpected;; (** [MSG_TRUNC] *)
        throw_if (negb (status =? 0)) Unexpected;;
        process_loop nl inbox info
  end.
Definition rtnl_process_reply (nl : Netlink) : result (list (list Z) * Netlink) :=
  '(info, rest) ← process_loop nl (inbox nl) []; Ok (info, nl <| inbox := rest |>).

Fixpoint rtattr_loop (fuel : nat) (table : RTattribVec) (rta : list Z) (len : Z) : result (RTattribVec * Z) :=
  match fuel with
  | O => NoFuel
  | S fuel =>
      ok ← RTA_OK rta len;
      if negb ok then Ok (table, len)
      else
        type ← rta_type rta;
        let table := if type <? zlen table then <[Z.to_nat type := Some rta]> table else table in
        '(rta, len) ← RTA_NEXT rta len; rtattr_loop fuel table rta len
  end.
Definition parse_rtattr (rta : list Z) (len : Z) : result RTattribVec :=
  '(table, len) ← rtattr_loop (S (length rta)) (replicate (S IFLA_MAX) None) rta len;
  throw_if (negb (len =? 0)) Unexpected;; Ok table.

(** [table[i]], dereferenced. *)
Definition attribute (table : RTattribVec) (i : nat) : result (list Z) :=
  match table !! i with Some (Some rta) => Ok rta | _ => Crash end.

(** [ifaddrmsg]: family, prefix length, flags, scope and index, 8 bytes. *)
Definition ipaddrs_get (iface : Iface) (addr_info : list (list Z)) : result Iface :=
  foldM (fun iface msg =>
    let ifa := NLMSG_DATA msg in
    index ← get32 ifa 4;
    if negb (index =? If.getIndex iface) then Ok iface
    else
      family ← zget ifa 0;
      if negb (family =? IOAddr.AF_INET) then Ok iface
      else
        l ← nlmsg_len msg;
        rta_tb ← parse_rtattr (drop 8 ifa) (s32 (l - NLMSG_LENGTH 8));
        let rta_tb := match rta_tb !! IFA_LOCAL with
          | Some (Some _) => rta_tb
          | _ => <[IFA_LOCAL := default None (rta_tb !! IFA_ADDRESS)]> rta_tb end in
        let rta_tb := match rta_tb !! IFA_ADDRESS with
          | Some (Some _) => rta_tb
          | _ => <[IFA_ADDRESS := default None (rta_tb !! IFA_LOCAL)]> rta_tb end in
        rta ← attribute rta_tb IFLA_ADDRESS;
        addr ← slice (RTA_DATA rta) 0 4;
        a ← IOAddr.fromBytes family addr;
        If.addAddress a iface) iface addr_info.

(** [ifinfomsg]: family, type, index, flags and change mask, 16 bytes. *)
Definition detect_iface (addr_info : list (list Z)) (msg : list Z) : result Iface :=
  let interface_info := NLMSG_DATA msg in
  l ← nlmsg_len msg;
  attribs_table ← parse_rtattr (drop 16 interface_info) (s32 (l - NLMSG_LENGTH 16));
  rta ← attribute attribs_table IFLA_IFNAME;
  iface_name ← c_string (RTA_DATA rta);
  ifi_index ← get32 interface_info 4;
  ifi_type ← get16 interface_info 2;
  ifi_flags ← get32 interface_info 8;
  let iface := (If.make (string_of iface_name) (s32 ifi_index)) <| hardware_type_ := ifi_type |> <| if_flags_ := ifi_flags |> in
  iface ← match attribs_table !! IFLA_ADDRESS with
    | Some (Some rta) => l ← rta_len rta; mac ← slice (RTA_DATA rta) 0 (l - 4); If.setMac mac iface
    | _ => Ok iface
    end;
  ipaddrs_get iface addr_info.

(** The descriptors closed by the destructor of [nl], and the manager. *)
Definition detectIfaces (m : IfaceMgr) : list Z * result IfaceMgr :=
  let '(nl, opened) := rtnl_open_socket make in
  (rtnl_close_socket nl,
   opened;;
   nl ← rtnl_send_request AF_PACKET RTM_GETLINK nl;
   '(link_info, nl) ← rtnl_process_reply nl;
   nl ← rtnl_send_request AF_UNSPEC RTM_GETADDR nl;
   '(addr_info, _) ← rtnl_process_reply nl;
   foldM (fun m msg => i ← detect_iface addr_info msg; Ok (Mgr.addInterface i m)) m link_info).

(** The constructor of [IfaceMgr]. *)
Definition IfaceMgr_make (inet : PktFilter) : list Z * result IfaceMgr :=
  let '(closed, r) := detectIfaces (MkIfaceMgr [] inet) in (closed, try_std r (fun _ => Throw IfaceDetectError)).
End Nl.

Definition setMatchingPacketFilter (inet : PktFilter) (direct_response_desired : bool) (m : IfaceMgr) : result IfaceMgr :=
  if direct_response_desired then Ok m else Mgr.setPacketFilter (Some inet) m.

(** Whether the socket was opened, and the manager. *)
Definition openMulticastSocket (i : Iface) (a : IOAddress) (port : Z) (handler : bool) (m : IfaceMgr) : result (bool * IfaceMgr) :=
  match Mgr.openSocket (if_name_ i) a port (If.isMulticast i) false m with
  | Ok (_, m) => Ok (true, m)
  | Throw e => if is_kea e then Mgr.report handler;; Ok (false, m) else Throw e
  | Crash => Crash
  | NoFuel => NoFuel
  end.
End Nl.
