(* ===== verification/NetlinkFacts.v ===== *)
(** Facts about the detection of interfaces: the walks over attributes and
    messages read back what the kernel wrote. *)
From stdpp Require Import base list numbers option strings.
From Stdlib Require Import ZArith Lia.
From S2P Require Import Prelude Buffer HwAddr Address Options Pkt Nic Netlink.

(** ** Integers *)
Lemma zlen_bytes16_le v : zlen (bytes16_le v) = 2.
Proof. done. Qed.
Lemma zlen_bytes32_le v : zlen (bytes32_le v) = 4.
Proof. done. Qed.

Lemma get16_app p v r off : off = zlen p -> 0 <= v < 2^16 -> get16 (p ++ bytes16_le v ++ r) off = Ok v.
Proof.
  intros -> Hv. unfold get16, bytes16_le. cbn [app]. rewrite zget_app, bind_Ok.
  change (p ++ ?a :: ?b :: r) with (p ++ [a] ++ b :: r). rewrite app_assoc.
  replace (zlen p + 1) with (zlen (p ++ [u8 v])) by (by rewrite zlen_app). rewrite zget_app, bind_Ok.
  f_equal. unfold u8. rewrite Z.shiftr_div_pow2 by lia. zdiv.
Qed.

Lemma bytes32_halves v : bytes32_le v = bytes16_le (u16 v) ++ bytes16_le (Z.shiftr v 16).
Proof.
  unfold bytes32_le, bytes16_le, u8, u16. cbn [app]. rewrite !Z.shiftr_div_pow2 by lia.
  assert ((v mod 2^16) mod 2^8 = v mod 2^8) as -> by zdiv.
  assert ((v mod 2^16) / 2^8 mod 2^8 = v / 2^8 mod 2^8) as -> by zdiv.
  by rewrite Z.div_div by lia.
Qed.

Lemma get32_app p v r off : off = zlen p -> 0 <= v < 2^32 -> get32 (p ++ bytes32_le v ++ r) off = Ok v.
Proof.
  intros Ho Hv. assert (0 <= Z.shiftr v 16 < 2^16) as Hh by (rewrite Z.shiftr_div_pow2 by lia; zdiv).
  unfold get32. rewrite bytes32_halves, <- app_assoc, (get16_app _ _ _ _ Ho (u16_range v)), bind_Ok.
  rewrite app_assoc, (get16_app _ _ _ _) by (rewrite ?zlen_app, ?zlen_bytes16_le; lia). rewrite bind_Ok.
  f_equal. unfold u16. rewrite Z.shiftr_div_pow2 by lia. zdiv.
Qed.

Lemma ALIGN_spec n : ALIGN n = (n + 3) / 4 * 4.
Proof.
  unfold ALIGN. change 3 with (Z.ones 2) at 2. rewrite <- Z.ldiff_land, Z.ldiff_ones_r by lia.
  by rewrite Z.shiftr_div_pow2, Z.shiftl_mul_pow2 by lia.
Qed.
Lemma ALIGN_bound n : n <= ALIGN n < n + 4.
Proof. rewrite ALIGN_spec. zdiv. Qed.

(** What the kernel adds behind [n] bytes. *)
Definition pad (n : Z) : list Z := replicate (Z.to_nat (ALIGN n - n)) 0.
Lemma zlen_pad n : zlen (pad n) = ALIGN n - n.
Proof. unfold pad, zlen. rewrite length_replicate. pose proof (ALIGN_bound n). lia. Qed.

(** ** Attributes *)
Definition attr_bytes (x : Z * list Z) : list Z :=
  bytes16_le (4 + zlen x.2) ++ bytes16_le x.1 ++ x.2 ++ pad (4 + zlen x.2).
Definition attr_ok (x : Z * list Z) : Prop := 0 <= x.1 < 2^16 /\ 4 + zlen x.2 < 2^16.
Definition attrs_bytes (l : list (Z * list Z)) : list Z := concat (attr_bytes <$> l).

(** The payload of the last attribute with a type. *)
Fixpoint last_attr (t : Z) (l : list (Z * list Z)) : option (list Z) :=
  match l with
  | [] => None
  | x :: l => match last_attr t l with Some p => Some p | None => if x.1 =? t then Some x.2 else None end
  end.

Lemma zlen_attr x : zlen (attr_bytes x) = ALIGN (4 + zlen x.2).
Proof. unfold attr_bytes. rewrite !zlen_app, zlen_pad, !zlen_bytes16_le. lia. Qed.

Lemma attr_len x rest : attr_ok x -> rta_len (attr_bytes x ++ rest) = Ok (4 + zlen x.2).
Proof.
  intros [_ H]. pose proof (zlen_nonneg x.2). unfold rta_len, attr_bytes. rewrite <- app_assoc. apply (get16_app []); [done|lia].
Qed.
Lemma attr_type x rest : attr_ok x -> rta_type (attr_bytes x ++ rest) = Ok x.1.
Proof. intros [H _]. unfold rta_type, attr_bytes. rewrite <- !app_assoc. by apply get16_app. Qed.
Lemma attr_data x rest : RTA_DATA (attr_bytes x ++ rest) = x.2 ++ pad (4 + zlen x.2) ++ rest.
Proof. unfold RTA_DATA, attr_bytes. by rewrite <- !app_assoc. Qed.
Lemma attr_payload x rest n : 0 <= n <= zlen x.2 -> slice (RTA_DATA (attr_bytes x ++ rest)) 0 n = Ok (take (Z.to_nat n) x.2).
Proof.
  intros Hn. rewrite attr_data, slice_ok; [|lia|lia|rewrite zlen_app; pose proof (zlen_nonneg (pad (4 + zlen x.2) ++ rest)); lia].
  rewrite drop_0. f_equal. apply take_app_le. unfold zlen in Hn. lia.
Qed.

Lemma rta_ok_attr x rest len : attr_ok x -> zlen (attr_bytes x) <= len -> RTA_OK (attr_bytes x ++ rest) len = Ok true.
Proof.
  intros Hx Hl. rewrite zlen_attr in Hl. pose proof (ALIGN_bound (4 + zlen x.2)). pose proof (zlen_nonneg x.2).
  unfold RTA_OK. destruct (Z.ltb_spec len 4); [lia|]. rewrite attr_len, bind_Ok by done. f_equal. lia.
Qed.
Lemma rta_next_attr x rest len : attr_ok x -> RTA_NEXT (attr_bytes x ++ rest) len = Ok (rest, len - zlen (attr_bytes x)).
Proof.
  intros Hx. unfold RTA_NEXT. rewrite attr_len, bind_Ok, <- zlen_attr, to_nat_zlen by done. by rewrite drop_app_length.
Qed.

Lemma rtattr_loop_spec l : Forall attr_ok l -> forall fuel table, (length (attrs_bytes l) < fuel)%nat ->
  exists table', Nl.rtattr_loop fuel table (attrs_bytes l) (zlen (attrs_bytes l)) = Ok (table', 0) /\
    forall t e, table !! t = Some e -> exists e', table' !! t = Some e' /\
      match last_attr (Z.of_nat t) l with
      | Some p => exists rest, e' = Some (attr_bytes (Z.of_nat t, p) ++ rest)
      | None => e' = e
      end.
Proof.
  induction 1 as [|x l Hx Hl IH]; intros fuel table Hf; (destruct fuel as [|fuel]; [cbn in Hf; lia|]).
  { exists table. split; [done|]. intros t e He. exists e. done. }
  change (attrs_bytes (x :: l)) with (attr_bytes x ++ attrs_bytes l) in *. rewrite zlen_app.
  pose proof (zlen_nonneg (attrs_bytes l)). pose proof (ALIGN_bound (4 + zlen x.2)). pose proof (zlen_nonneg x.2).
  cbn [Nl.rtattr_loop]. rewrite rta_ok_attr, bind_Ok by (done || lia). cbn [negb]. rewrite attr_type, bind_Ok by done.
  rewrite rta_next_attr, bind_Ok by done. replace (zlen (attr_bytes x) + zlen (attrs_bytes l) - zlen (attr_bytes x)) with (zlen (attrs_bytes l)) by lia.
  set (table1 := if x.1 <? zlen table then _ else _).
  destruct (IH fuel table1) as (table' & E & Ht).
  { rewrite length_app in Hf. assert (4 <= zlen (attr_bytes x)) by (rewrite zlen_attr; lia). unfold zlen in *. lia. }
  exists table'. split; [exact E|]. intros t e He.
  assert (exists e1, table1 !! t = Some e1 /\ if x.1 =? Z.of_nat t then e1 = Some (attr_bytes x ++ attrs_bytes l) else e1 = e) as (e1 & He1 & Hx1).
  { assert (t < length table)%nat as Hlt by (eapply lookup_lt_Some; exact He). unfold table1. destruct Hx as [Hx _].
    destruct (Z.eqb_spec x.1 (Z.of_nat t)) as [Et|Ht'].
    - destruct (Z.ltb_spec x.1 (zlen table)); [|unfold zlen in *; lia]. eexists. split; [|done].
      replace (Z.to_nat x.1) with t by lia. by apply list_lookup_insert_eq.
    - exists e. split; [|done]. destruct (x.1 <? zlen table); [|done]. rewrite list_lookup_insert_ne by lia. exact He. }
  destruct (Ht t e1 He1) as (e' & He' & Hl'). exists e'. split; [done|]. cbn [last_attr].
  destruct (last_attr (Z.of_nat t) l); [done|]. subst e'. destruct (Z.eqb_spec x.1 (Z.of_nat t)) as [Et|]; [|done].
  subst e1. rewrite <- Et. exists (attrs_bytes l). by destruct x.
Qed.

Lemma parse_rtattr_spec max l : Forall attr_ok l -> exists table, Nl.parse_rtattr max (attrs_bytes l) (zlen (attrs_bytes l)) = Ok table /\
  forall t, (t <= max)%nat -> match last_attr (Z.of_nat t) l with
    | Some p => exists rest, table !! t = Some (Some (attr_bytes (Z.of_nat t, p) ++ rest))
    | None => table !! t = Some None
    end.
Proof.
  intros Hl. destruct (rtattr_loop_spec l Hl (S (length (attrs_bytes l))) (replicate (S max) None)) as (table & E & Ht); [lia|].
  exists table. unfold Nl.parse_rtattr. rewrite E, bind_Ok. split; [done|]. intros t Hmax.
  destruct (Ht t None) as (e' & He' & Hm); [apply lookup_replicate; split; [done|lia]|].
  rewrite He'. destruct (last_attr _ _); [|by subst]. destruct Hm as [rest ->]. by exists rest.
Qed.

(** ** Messages *)
Record NlMsg := MkNlMsg { m_type : Z; m_flags : Z; m_seq : Z; m_pid : Z; m_body : list Z }.

Definition message (m : NlMsg) : list Z :=
  bytes32_le (16 + zlen (m_body m)) ++ bytes16_le (m_type m) ++ bytes16_le (m_flags m) ++ bytes32_le (m_seq m) ++ bytes32_le (m_pid m) ++ m_body m.
Definition padded (m : NlMsg) : list Z := message m ++ pad (16 + zlen (m_body m)).
Definition datagram (ms : list NlMsg) : list Z := concat (padded <$> ms).
Definition msg_ok (m : NlMsg) : Prop :=
  0 <= m_type m < 2^16 /\ 0 <= m_seq m < 2^32 /\ 0 <= m_pid m < 2^32 /\ 16 + zlen (m_body m) <= RCVBUF_SIZE.

(** Whether a message that came [from] a port answers the request. *)
Definition mine (pid seq from : Z) (m : NlMsg) : bool := (from =? 0) && (m_pid m =? pid) && (m_seq m =? seq).

Section Message.
Variable m : NlMsg.
Hypothesis Hm : msg_ok m.

Lemma zlen_message : zlen (message m) = 16 + zlen (m_body m).
Proof. unfold message. rewrite !zlen_app, !zlen_bytes32_le, !zlen_bytes16_le. lia. Qed.
Lemma zlen_padded : zlen (padded m) = ALIGN (16 + zlen (m_body m)).
Proof. unfold padded. rewrite zlen_app, zlen_message, zlen_pad. lia. Qed.
Lemma message_len rest : nlmsg_len (message m ++ rest) = Ok (16 + zlen (m_body m)).
Proof.
  destruct Hm as (_ & _ & _ & Hl). unfold RCVBUF_SIZE in Hl. pose proof (zlen_nonneg (m_body m)).
  unfold nlmsg_len, message. rewrite <- app_assoc. apply (get32_app []); [done|lia].
Qed.
Lemma message_type rest : nlmsg_type (message m ++ rest) = Ok (m_type m).
Proof. destruct Hm as (Ht & _). unfold nlmsg_type, message. rewrite <- !app_assoc. by apply get16_app. Qed.
Lemma message_seq rest : nlmsg_seq (message m ++ rest) = Ok (m_seq m).
Proof.
  destruct Hm as (_ & Hs & _). unfold nlmsg_seq, message. rewrite <- !app_assoc.
  rewrite 2!(app_assoc _ _ (bytes32_le _ ++ _)). by apply get32_app.
Qed.
Lemma message_pid rest : nlmsg_pid (message m ++ rest) = Ok (m_pid m).
Proof.
  destruct Hm as (_ & _ & Hp & _). unfold nlmsg_pid, message. rewrite <- !app_assoc.
  rewrite 3!(app_assoc _ _ (bytes32_le _ ++ _)). by apply get32_app.
Qed.
Lemma message_body : NLMSG_DATA (message m) = m_body m.
Proof. done. Qed.
Lemma message_ok rest len : 16 + zlen (m_body m) <= len -> NLMSG_OK (message m ++ rest) len = Ok true.
Proof.
  intros Hl. unfold NLMSG_OK. pose proof (zlen_nonneg (m_body m)). unfold NLMSG_HDRLEN. destruct (Z.ltb_spec len 16); [lia|].
  rewrite message_len, bind_Ok. f_equal. lia.
Qed.
Lemma message_next rest len : NLMSG_NEXT (padded m ++ rest) len = Ok (rest, len - zlen (padded m)).
Proof.
  unfold NLMSG_NEXT, padded. rewrite <- app_assoc, message_len, bind_Ok, app_assoc. fold (padded m).
  by rewrite <- zlen_padded, to_nat_zlen, drop_app_length.
Qed.
Lemma store_message storage rest : Nl.rtnl_store_reply storage (message m ++ rest) = Ok (storage ++ [message m]).
Proof.
  unfold Nl.rtnl_store_reply. rewrite message_len, bind_Ok, <- zlen_message.
  pose proof (slice_app [] (message m) rest) as E. cbn [app] in E. change (zlen (@nil Z)) with 0 in E. by rewrite E, bind_Ok.
Qed.
End Message.

(** One turn of the loop on a message. *)
Lemma messages_turn m nl from fuel rest len info : msg_ok m -> 16 + zlen (m_body m) <= len ->
  Nl.messages_loop (S fuel) nl from (padded m ++ rest) len info =
  if negb (mine (local_pid nl) (dump_ nl) from m) then Nl.messages_loop fuel nl from rest (len - zlen (padded m)) info
  else if m_type m =? NLMSG_DONE then Ok (true, len, info)
  else if m_type m =? NLMSG_ERROR then Throw Unexpected
  else Nl.messages_loop fuel nl from rest (len - zlen (padded m)) (info ++ [message m]).
Proof.
  intros Hm Hl. cbn [Nl.messages_loop]. rewrite (message_next m Hm), bind_Ok. unfold padded. rewrite <- app_assoc.
  rewrite (message_ok m Hm), bind_Ok by done. cbn [negb].
  rewrite (message_pid m Hm), bind_Ok, (message_seq m Hm), bind_Ok, (message_type m Hm), bind_Ok, (store_message m Hm), bind_Ok.
  unfold mine. destruct (from =? 0), (m_pid m =? local_pid nl), (m_seq m =? dump_ nl); reflexivity.
Qed.

(** Messages that do not end the reply. *)
Definition ordinary (pid seq from : Z) (m : NlMsg) : Prop :=
  mine pid seq from m = true -> m_type m <> NLMSG_DONE /\ m_type m <> NLMSG_ERROR.
Definition stored (pid seq from : Z) (ms : list NlMsg) : list (list Z) :=
  message <$> List.filter (mine pid seq from) ms.

Lemma messages_loop_spec nl from ms : Forall msg_ok ms -> Forall (ordinary (local_pid nl) (dump_ nl) from) ms -> forall fuel tail info,
  (length (datagram ms ++ tail) < fuel)%nat -> exists fuel', (length tail < fuel')%nat /\
  Nl.messages_loop fuel nl from (datagram ms ++ tail) (zlen (datagram ms ++ tail)) info =
  Nl.messages_loop fuel' nl from tail (zlen tail) (info ++ stored (local_pid nl) (dump_ nl) from ms).
Proof.
  induction ms as [|m ms IH]; intros Hms Hor fuel tail info Hf.
  { exists fuel. split; [exact Hf|]. unfold stored. cbn. by rewrite app_nil_r. }
  apply Forall_cons_iff in Hms as [Hm Hms]. apply Forall_cons_iff in Hor as [Ho Hor].
  change (datagram (m :: ms)) with (padded m ++ datagram ms) in *. rewrite <- app_assoc in *.
  set (rest := datagram ms ++ tail) in *. pose proof (zlen_padded m) as Hp. pose proof (ALIGN_bound (16 + zlen (m_body m))).
  pose proof (zlen_nonneg (m_body m)). pose proof (zlen_nonneg rest). rewrite zlen_app.
  destruct fuel as [|fuel]; [lia|]. rewrite messages_turn by (done || lia).
  replace (zlen (padded m) + zlen rest - zlen (padded m)) with (zlen rest) by lia.
  assert (length rest < fuel)%nat as Hr by (rewrite length_app in Hf; unfold zlen in *; lia).
  unfold stored. cbn [List.filter]. destruct (mine (local_pid nl) (dump_ nl) from m) eqn:Em; cbn [negb].
  - destruct (Ho Em) as [Hd%Z.eqb_neq He%Z.eqb_neq]. rewrite Hd, He.
    destruct (IH Hms Hor fuel tail (info ++ [message m]) Hr) as (fuel' & Hf' & E). exists fuel'. split; [done|].
    unfold rest. rewrite E, <- app_assoc. done.
  - exact (IH Hms Hor fuel tail info Hr).
Qed.

(** ** Replies

    The datagrams of a reply with the messages that are stored: receiving may
    be interrupted, messages for others are among them, and the rest of the
    datagram with the last message does not matter. *)
Inductive carries (pid seq : Z) : list reply -> list (list Z) -> Prop :=
| carries_interrupted rs info : carries pid seq rs info -> carries pid seq (RecvError EINTR :: rs) info
| carries_datagram from ms rs info :
    ms <> [] -> Forall msg_ok ms -> Forall (ordinary pid seq from) ms -> zlen (datagram ms) <= RCVBUF_SIZE ->
    carries pid seq rs info -> carries pid seq (Received from (datagram ms) :: rs) (stored pid seq from ms ++ info)
| carries_last ms done garbage :
    Forall msg_ok ms -> Forall (ordinary pid seq 0) ms -> msg_ok done -> mine pid seq 0 done = true -> m_type done = NLMSG_DONE ->
    zlen (datagram ms ++ padded done ++ garbage) <= RCVBUF_SIZE ->
    carries pid seq [Received 0 (datagram ms ++ padded done ++ garbage)] (stored pid seq 0 ms).

Lemma datagram_nonempty ms : ms <> [] -> 0 < zlen (datagram ms).
Proof.
  destruct ms as [|m ms]; [done|]. intros _. change (datagram (m :: ms)) with (padded m ++ datagram ms).
  rewrite zlen_app, zlen_padded. pose proof (ALIGN_bound (16 + zlen (m_body m))). pose proof (zlen_nonneg (m_body m)).
  pose proof (zlen_nonneg (datagram ms)). lia.
Qed.

Lemma take_whole (data : list Z) : zlen data <= RCVBUF_SIZE -> take (Z.to_nat RCVBUF_SIZE) data = data.
Proof. intros H. apply take_ge. unfold zlen in H. lia. Qed.

Lemma process_loop_spec nl rs info : carries (local_pid nl) (dump_ nl) rs info -> forall acc, Nl.process_loop nl rs acc = Ok (acc ++ info, []).
Proof.
  remember (local_pid nl) as pid eqn:Epid. remember (dump_ nl) as seq eqn:Eseq.
  induction 1 as [rs info _ IH|from ms rs info Hne Hms Hor Hsz _ IH|ms done garbage Hms Hor Hd Hmine Ht Hsz]; intros acc;
    subst pid seq; cbn [Nl.process_loop].
  - by apply IH.
  - pose proof (datagram_nonempty ms Hne). rewrite take_whole by done.
    destruct (messages_loop_spec nl from ms Hms Hor (S (length (datagram ms))) [] acc) as (fuel' & Hf & E); [rewrite app_nil_r; lia|].
    rewrite app_nil_r in E. rewrite E, (proj2 (Z.eqb_neq _ _)) by lia. cbn [throw_if]. rewrite !bind_Ok.
    destruct fuel' as [|fuel']; [cbn in Hf; lia|]. change (Nl.messages_loop (S fuel') nl from [] (zlen []) ?i) with (Ok (false, 0, i)).
    rewrite bind_Ok, (proj2 (Z.ltb_ge _ _)) by done. cbn [throw_if negb Z.eqb]. rewrite !bind_Ok, IH by done. by rewrite app_assoc.
  - rewrite take_whole by done. rewrite (proj2 (Z.eqb_neq _ _)).
    2:{ rewrite !zlen_app, zlen_padded. pose proof (ALIGN_bound (16 + zlen (m_body done))). pose proof (zlen_nonneg (m_body done)).
        pose proof (zlen_nonneg (datagram ms)). pose proof (zlen_nonneg garbage). lia. }
    cbn [throw_if]. rewrite bind_Ok.
    destruct (messages_loop_spec nl 0 ms Hms Hor (S (length (datagram ms ++ padded done ++ garbage))) (padded done ++ garbage) acc)
      as (fuel' & Hf & ->); [lia|].
    destruct fuel' as [|fuel']; [lia|]. rewrite messages_turn, Hmine, Ht; [|done|].
    + reflexivity.
    + rewrite zlen_app, zlen_padded. pose proof (ALIGN_bound (16 + zlen (m_body done))). pose proof (zlen_nonneg garbage). lia.
Qed.

(** ** Links and addresses *)
Record LinkInfo := MkLinkInfo { l_family : Z; l_type : Z; l_index : Z; l_flags : Z; l_change : Z; l_attrs : list (Z * list Z) }.
Record AddrInfo := MkAddrInfo { a_family : Z; a_prefix : Z; a_flags : Z; a_scope : Z; a_index : Z; a_attrs : list (Z * list Z) }.

Definition link_body (l : LinkInfo) : list Z :=
  [l_family l; 0] ++ bytes16_le (l_type l) ++ bytes32_le (l_index l) ++ bytes32_le (l_flags l) ++ bytes32_le (l_change l) ++ attrs_bytes (l_attrs l).
Definition addr_body (x : AddrInfo) : list Z :=
  [a_family x; a_prefix x; a_flags x; a_scope x] ++ bytes32_le (a_index x) ++ attrs_bytes (a_attrs x).

(** A message with a body, as it is stored. *)
Definition sent_as (body : list Z) (msg : list Z) : Prop := exists m, msg_ok m /\ m_body m = body /\ msg = message m.

Definition link_name (l : LinkInfo) : list Z :=
  match last_attr 3 (l_attrs l) with Some p => match c_string p with Ok name => name | _ => [] end | None => [] end.
Definition link_mac (l : LinkInfo) : list Z := default [] (last_attr 1 (l_attrs l)).
Definition link_ok (l : LinkInfo) : Prop :=
  0 <= l_type l < 2^16 /\ 0 <= l_index l < 2^32 /\ 0 <= l_flags l < 2^32 /\ Forall attr_ok (l_attrs l) /\
  (exists p, last_attr 3 (l_attrs l) = Some p /\ 0 ∈ p) /\ zlen (link_mac l) <= If.MAX_MAC_LEN.

(** The address that is taken: [IFA_ADDRESS], else [IFA_LOCAL]. *)
Definition addr_payload (x : AddrInfo) : option (list Z) :=
  match last_attr 1 (a_attrs x) with Some p => Some p | None => last_attr 2 (a_attrs x) end.
Definition addr_value (x : AddrInfo) : IOAddress :=
  match addr_payload x with Some (a :: b :: c :: d :: _) => V4 (be32 a b c d) | _ => V4 0 end.
Definition addr_info_ok (x : AddrInfo) : Prop :=
  0 <= a_index x < 2^32 /\ Forall attr_ok (a_attrs x) /\
  (a_family x = IOAddr.AF_INET -> exists p, addr_payload x = Some p /\ 4 <= zlen p /\ bytes_ok p).

(** The IPv4 addresses that are given to the interface with an index. *)
Definition addresses_of (index : Z) (xs : list AddrInfo) : list IOAddress :=
  addr_value <$> List.filter (fun x => (a_index x =? u16 index) && (a_family x =? IOAddr.AF_INET)) xs.

Definition iface_of (xs : list AddrInfo) (l : LinkInfo) : Iface :=
  MkIface [] (string_of (link_name l)) (s32 (l_index l)) (addresses_of (l_index l) xs) []
    (link_mac l ++ replicate (20 - length (link_mac l)) 0) (zlen (link_mac l)) (l_type l) (l_flags l) false.

Lemma c_string_prefix p rest t : c_string p = Ok t -> c_string (p ++ rest) = Ok t.
Proof.
  revert t. induction p as [|b p IH]; intros t; [done|]. cbn [app c_string]. destruct (b =? 0); [done|].
  intros (t' & E & [= <-])%bind_ok. by rewrite (IH _ E).
Qed.

Lemma s32_small v : 0 <= v < 2^31 -> s32 v = v.
Proof. unfold s32. intros. zdiv. Qed.

Lemma u16_s32 v : u16 (s32 v) = u16 v.
Proof. unfold u16, s32. zdiv. Qed.

Section Detect.
Variable max : nat.
Hypothesis Hmax : (3 <= max)%nat.

(** The attributes behind the fixed part of a body. *)
Lemma body_attributes body n attrs msg : sent_as body msg -> Forall attr_ok attrs ->
  drop n body = attrs_bytes attrs -> zlen body = Z.of_nat n + zlen (attrs_bytes attrs) ->
  exists table, (l ← nlmsg_len msg; Nl.parse_rtattr max (drop n (NLMSG_DATA msg)) (s32 (l - NLMSG_LENGTH (Z.of_nat n)))) = Ok table /\
  forall t, (t <= max)%nat -> match last_attr (Z.of_nat t) attrs with
    | Some p => exists rest, table !! t = Some (Some (attr_bytes (Z.of_nat t, p) ++ rest))
    | None => table !! t = Some None
    end.
Proof.
  intros (m & Hm & <- & ->) Ha Hd Hl. destruct (parse_rtattr_spec max attrs Ha) as (table & E & Ht). exists table. split; [|exact Ht].
  pose proof (message_len m Hm []) as El. rewrite app_nil_r in El. rewrite El, bind_Ok, message_body, Hd.
  destruct Hm as (_ & _ & _ & Hsz). unfold RCVBUF_SIZE in Hsz. pose proof (zlen_nonneg (attrs_bytes attrs)).
  unfold NLMSG_LENGTH, NLMSG_HDRLEN. rewrite s32_small by lia.
  replace (16 + zlen (m_body m) - (Z.of_nat n + 16)) with (zlen (attrs_bytes attrs)) by lia. exact E.
Qed.

(** The address attribute after the two of them were made equal. *)
Lemma address_attribute x table : addr_info_ok x -> a_family x = IOAddr.AF_INET ->
  (forall t, (t <= max)%nat -> match last_attr (Z.of_nat t) (a_attrs x) with
    | Some p => exists rest, table !! t = Some (Some (attr_bytes (Z.of_nat t, p) ++ rest))
    | None => table !! t = Some None
    end) ->
  exists p t rest, addr_payload x = Some p /\
    (let tb := match table !! IFA_LOCAL with Some (Some _) => table | _ => <[IFA_LOCAL := default None (table !! IFA_ADDRESS)]> table end in
     let tb := match tb !! IFA_ADDRESS with Some (Some _) => tb | _ => <[IFA_ADDRESS := default None (tb !! IFA_LOCAL)]> tb end in
     Nl.attribute tb IFLA_ADDRESS) = Ok (attr_bytes (t, p) ++ rest).
Proof.
  intros (_ & _ & Hp) Hf Ht. destruct (Hp Hf) as (p & Ep & _). unfold addr_payload in Ep.
  pose proof (Ht 1%nat ltac:(lia)) as H1. pose proof (Ht 2%nat ltac:(lia)) as H2. change (Z.of_nat 1) with 1 in H1. change (Z.of_nat 2) with 2 in H2.
  unfold IFA_LOCAL, IFA_ADDRESS, IFLA_ADDRESS, addr_payload. destruct (last_attr 1 (a_attrs x)) as [p1|].
  - injection Ep as ->. destruct H1 as [r1 H1]. exists p, 1, r1. split; [done|].
    destruct (last_attr 2 (a_attrs x)) as [p2|]; [destruct H2 as [r2 H2]|]; rewrite H2; cbn [default].
    + cbv zeta. rewrite H1. unfold Nl.attribute. by rewrite H1.
    + rewrite H1. cbv zeta. cbn [default from_option id]. rewrite list_lookup_insert_ne, H1 by done. unfold Nl.attribute.
      by rewrite list_lookup_insert_ne, H1 by done.
  - rewrite Ep in H2. destruct H2 as [r2 H2]. exists p, 2, r2. split; [done|]. rewrite H2. cbv zeta. rewrite H1. unfold Nl.attribute.
    rewrite list_lookup_insert_eq; [by rewrite H2|]. eapply lookup_lt_Some. exact H1.
Qed.

Lemma four_bytes p : 4 <= zlen p -> bytes_ok p -> exists a b c d rest, p = a :: b :: c :: d :: rest /\ byte_ok a /\ byte_ok b /\ byte_ok c /\ byte_ok d.
Proof.
  intros Hl Hb. destruct p as [|a [|b [|c [|d rest]]]]; try (unfold zlen in Hl; cbn [length] in Hl; lia). exists a, b, c, d, rest.
  by repeat match goal with H : bytes_ok (_ :: _) |- _ => apply bytes_ok_cons in H; destruct H as [? H] end.
Qed.

Definition addr_step (iface : Iface) (msg : list Z) : result Iface := Nl.ipaddrs_get max iface [msg].

Lemma addr_step_spec x msg iface : addr_info_ok x -> sent_as (addr_body x) msg ->
  addr_step iface msg =
  if (a_index x =? If.getIndex iface) && (a_family x =? IOAddr.AF_INET) then If.addAddress (addr_value x) iface else Ok iface.
Proof.
  intros Hx Hs. pose proof Hx as (Hi & Ha & Hp).
  destruct (body_attributes (addr_body x) 8 (a_attrs x) msg Hs Ha eq_refl ltac:(unfold addr_body; rewrite !zlen_app, zlen_bytes32_le; unfold zlen; cbn [length]; lia)) as (table & Et & Ht).
  unfold addr_step, Nl.ipaddrs_get. cbn [foldM]. destruct Hs as (m & Hm & Eb & ->). rewrite message_body, Eb in *.
  assert (get32 (addr_body x) 4 = Ok (a_index x)) as -> by (by apply (get32_app [a_family x; a_prefix x; a_flags x; a_scope x])).
  rewrite bind_Ok.
  destruct (a_index x =? If.getIndex iface); cbn [negb andb]; [|done].
  change (zget (addr_body x) 0) with (Ok (a_family x)). rewrite bind_Ok.
  destruct (Z.eqb_spec (a_family x) IOAddr.AF_INET) as [Ef|]; cbn [negb]; [|done].
  destruct (nlmsg_len (message m)) as [len| | |]; [rewrite bind_Ok in Et|discriminate Et..].
  rewrite bind_Ok. change (Z.of_nat 8) with 8 in Et. rewrite Et, bind_Ok.
  destruct (address_attribute x table Hx Ef Ht) as (p & t & rest & Ep & Er). cbv zeta in Er. rewrite Er, bind_Ok.
  destruct (Hp Ef) as (p' & Ep' & Hl & Hb). rewrite Ep in Ep'. injection Ep' as <-.
  rewrite (attr_payload (t, p)), bind_Ok by (cbn [snd]; lia). cbn [snd].
  destruct (four_bytes p Hl Hb) as (a & b & c & d & q & -> & Ba & Bb & Bc & Bd).
  change (take (Z.to_nat 4) (a :: b :: c :: d :: q)) with [a; b; c; d]. rewrite Ef, fromBytes_ok, bind_Ok by done.
  unfold addr_value. rewrite Ep. by destruct (If.addAddress _ iface).
Qed.

Lemma ipaddrs_get_cons iface msg msgs : Nl.ipaddrs_get max iface (msg :: msgs) = (i ← addr_step iface msg; Nl.ipaddrs_get max i msgs).
Proof. unfold addr_step, Nl.ipaddrs_get. exact (foldM_app _ iface [msg] msgs). Qed.

(** The messages about addresses, one after the other. *)
Lemma ipaddrs_get_spec xs : Forall addr_info_ok xs -> forall msgs iface, Forall2 sent_as (addr_body <$> xs) msgs ->
  NoDup (if_addrs_ iface ++ addresses_of (if_index_ iface) xs) ->
  Nl.ipaddrs_get max iface msgs = Ok (iface <| if_addrs_ := if_addrs_ iface ++ addresses_of (if_index_ iface) xs |>).
Proof.
  induction 1 as [|x xs Hx _ IH]; intros msgs iface Hs Hn; cbn [fmap list_fmap] in Hs.
  { apply Forall2_nil_inv_l in Hs as ->. unfold addresses_of. cbn. rewrite app_nil_r. by destruct iface. }
  apply Forall2_cons_inv_l in Hs as (msg & msgs' & Hm & Hs & ->).
  rewrite ipaddrs_get_cons, (addr_step_spec x) by done. unfold addresses_of in Hn |- *. cbn [List.filter] in Hn |- *. unfold If.getIndex.
  destruct ((a_index x =? u16 (if_index_ iface)) && (a_family x =? IOAddr.AF_INET)); [|rewrite bind_Ok; by apply IH].
  cbn [fmap list_fmap] in Hn |- *. unfold If.addAddress, If.hasAddress.
  rewrite bool_decide_false by (apply NoDup_app in Hn as (_ & Hd & _); intros Hin; apply (Hd _ Hin); by left).
  cbn [throw_if]. rewrite !bind_Ok. set (iface' := iface <| if_addrs_ := _ |>).
  rewrite (IH msgs' iface' Hs).
  - change (if_index_ iface') with (if_index_ iface). change (if_addrs_ iface') with (if_addrs_ iface ++ [addr_value x]). by rewrite <- app_assoc.
  - change (if_index_ iface') with (if_index_ iface). change (if_addrs_ iface') with (if_addrs_ iface ++ [addr_value x]). by rewrite <- app_assoc.
Qed.

Lemma detect_iface_spec l xs msg msgs : link_ok l -> Forall addr_info_ok xs -> sent_as (link_body l) msg ->
  Forall2 sent_as (addr_body <$> xs) msgs -> NoDup (addresses_of (l_index l) xs) ->
  Nl.detect_iface max msgs msg = Ok (iface_of xs l).
Proof.
  intros (Ht & Hi & Hf & Ha & (p & Ep & Hz) & Hmac) Hxs Hs Hms Hn.
  destruct (body_attributes (link_body l) 16 (l_attrs l) msg Hs Ha eq_refl) as (table & Et & Htb).
  { unfold link_body. rewrite !zlen_app, !zlen_bytes32_le, zlen_bytes16_le. unfold zlen. cbn [length]. lia. }
  unfold Nl.detect_iface. destruct Hs as (m & Hm & Eb & ->). rewrite message_body, Eb in *.
  destruct (nlmsg_len (message m)) as [len| | |]; [rewrite bind_Ok in Et|discriminate Et..].
  rewrite bind_Ok. change (Z.of_nat 16) with 16 in Et. rewrite Et, bind_Ok. clear Et.
  pose proof (Htb 3%nat ltac:(lia)) as H3. pose proof (Htb 1%nat ltac:(lia)) as H1.
  change (Z.of_nat 3) with 3 in H3. change (Z.of_nat 1) with 1 in H1. rewrite Ep in H3. destruct H3 as [r3 H3].
  unfold Nl.attribute, IFLA_IFNAME. rewrite H3, bind_Ok, attr_data. cbn [snd].
  destruct (c_string_outcome p) as [[? _]|[name En]]; [done|]. rewrite (c_string_prefix _ _ _ En), bind_Ok.
  assert (get32 (link_body l) 4 = Ok (l_index l)) as -> by (by apply (get32_app ([l_family l; 0] ++ bytes16_le (l_type l)))).
  assert (get16 (link_body l) 2 = Ok (l_type l)) as -> by (by apply (get16_app [l_family l; 0])).
  assert (get32 (link_body l) 8 = Ok (l_flags l)) as -> by (by apply (get32_app ([l_family l; 0] ++ bytes16_le (l_type l) ++ bytes32_le (l_index l)))).
  rewrite !bind_Ok. unfold IFLA_ADDRESS. unfold iface_of, link_name. rewrite Ep, En. unfold link_mac in *.
  assert (forall mac, zlen mac <= 20 -> Nl.ipaddrs_get max (MkIface [] (string_of name) (s32 (l_index l)) [] [] (mac ++ replicate (20 - length mac) 0) (zlen mac) (l_type l) (l_flags l) false) msgs
    = Ok (MkIface [] (string_of name) (s32 (l_index l)) (addresses_of (l_index l) xs) [] (mac ++ replicate (20 - length mac) 0) (zlen mac) (l_type l) (l_flags l) false)) as Hg.
  { intros mac _. assert (addresses_of (s32 (l_index l)) xs = addresses_of (l_index l) xs) as Es by (unfold addresses_of; by rewrite u16_s32).
    rewrite (ipaddrs_get_spec xs Hxs) by (done || (cbn [if_addrs_ if_index_ app]; by rewrite Es)). cbn [if_index_]. by rewrite Es. }
  destruct (last_attr 1 (l_attrs l)) as [mac|] eqn:Em; cbn [default from_option id] in *.
  - destruct H1 as [r1 ->].
    assert (attr_ok (1, mac)) as Hok.
    { split; [done|]. unfold If.MAX_MAC_LEN in Hmac. cbn [snd]. lia. }
    rewrite (attr_len _ _ Hok), bind_Ok. cbn [snd]. replace (4 + zlen mac - 4) with (zlen mac) by lia.
    rewrite (attr_payload (1, mac)) by (cbn [snd]; pose proof (zlen_nonneg mac); lia). cbn [snd].
    rewrite to_nat_zlen, take_ge, bind_Ok by done. unfold If.setMac. rewrite (proj2 (Z.ltb_ge _ _)) by done. cbn [throw_if]. rewrite !bind_Ok.
    rewrite <- (Hg mac Hmac), <- drop_replicate. reflexivity.
  - rewrite H1, bind_Ok. exact (Hg [] ltac:(done)).
Qed.
End Detect.

(** ** Detection *)

(** The datagrams that answer the request with a sequence number carry
    messages with these bodies. *)
Definition kernel_answers (pid seq : Z) (rs : list reply) (bodies : list (list Z)) : Prop :=
  exists info, carries pid seq rs info /\ Forall2 sent_as bodies info.

(** Every system call succeeds. *)
Definition sys_ok (sys : NlSystem) : Prop :=
  0 <= nl_socket sys /\ 0 <= nl_fcntl sys /\ 0 <= nl_sndbuf sys /\ 0 <= nl_rcvbuf sys /\ 0 <= nl_bind sys /\
  0 <= nl_getsockname sys /\ nl_addr_len sys = 12 /\ nl_local_family sys = AF_NETLINK /\ forall req, 0 <= nl_sendto sys req.

Lemma open_ok sys : sys_ok sys -> Nl.rtnl_open_socket sys Nl.make = (MkNetlink (nl_socket sys) (nl_local_pid sys) 0 0 [], Ok tt).
Proof.
  intros (H1 & H2 & H3 & H4 & H5 & H6 & H7 & H8 & _). unfold Nl.rtnl_open_socket. cbn.
  by rewrite H7, H8, !(proj2 (Z.ltb_ge _ _)) by done.
Qed.

Lemma send_ok sys family type nl : sys_ok sys -> Nl.rtnl_send_request sys family type nl =
  Ok (MkNetlink (fd_ nl) (local_pid nl) (u32 (seq_ nl + 1)) (u32 (seq_ nl + 1)) (inbox nl ++ nl_answers sys (Nl.request family type (u32 (seq_ nl + 1))))).
Proof.
  intros (_ & _ & _ & _ & _ & _ & _ & _ & Hs). unfold Nl.rtnl_send_request. cbn [seq_].
  by rewrite (proj2 (Z.ltb_ge _ _) (Hs _)).
Qed.

Lemma process_ok nl bodies : kernel_answers (local_pid nl) (dump_ nl) (inbox nl) bodies ->
  exists info, Nl.rtnl_process_reply nl = Ok (info, nl <| inbox := [] |>) /\ Forall2 sent_as bodies info.
Proof.
  intros (info & Hc & Hb). exists info. split; [|done]. unfold Nl.rtnl_process_reply. by rewrite (process_loop_spec _ _ _ Hc), bind_Ok.
Qed.

Lemma detect_ifaces_spec max xs msgs : (3 <= max)%nat -> Forall addr_info_ok xs -> Forall2 sent_as (addr_body <$> xs) msgs ->
  forall links link_msgs m, Forall (fun l => link_ok l /\ NoDup (addresses_of (l_index l) xs)) links -> Forall2 sent_as (link_body <$> links) link_msgs ->
  foldM (fun m msg => i ← Nl.detect_iface max msgs msg; Ok (Mgr.addInterface i m)) m link_msgs =
  Ok (m <| ifaces_ := ifaces_ m ++ (iface_of xs <$> links) |>).
Proof.
  intros Hmax Hxs Hms. induction links as [|l links IH]; intros link_msgs m Hl Hs; cbn [fmap list_fmap] in Hs.
  { apply Forall2_nil_inv_l in Hs as ->. cbn. rewrite app_nil_r. by destruct m. }
  apply Forall2_cons_inv_l in Hs as (msg & link_msgs' & Hm & Hs & ->). apply Forall_cons_iff in Hl as [[Hl Hn] Hls].
  cbn [foldM]. rewrite (detect_iface_spec max Hmax l xs) by done. rewrite !bind_Ok, IH by done.
  unfold Mgr.addInterface. f_equal. destruct m. cbn. by rewrite <- app_assoc.
Qed.

Lemma detect_exact sys max m links xs : (3 <= max)%nat -> sys_ok sys ->
  kernel_answers (nl_local_pid sys) 1 (nl_answers sys (Nl.request AF_PACKET RTM_GETLINK 1)) (link_body <$> links) ->
  kernel_answers (nl_local_pid sys) 2 (nl_answers sys (Nl.request AF_UNSPEC RTM_GETADDR 2)) (addr_body <$> xs) ->
  Forall (fun l => link_ok l /\ NoDup (addresses_of (l_index l) xs)) links -> Forall addr_info_ok xs ->
  Nl.detectIfaces sys max m = ([nl_socket sys], Ok (m <| ifaces_ := ifaces_ m ++ (iface_of xs <$> links) |>)).
Proof.
  intros Hmax Hsys Hlinks Haddrs Hl Hx. unfold Nl.detectIfaces. rewrite open_ok by done. f_equal.
  { unfold Nl.rtnl_close_socket. cbn [fd_]. destruct Hsys as [H _]. by rewrite (proj2 (Z.eqb_neq _ _)) by lia. }
  rewrite bind_Ok, send_ok, bind_Ok by done. cbn [fd_ local_pid seq_ dump_ inbox app]. change (u32 (0 + 1)) with 1.
  destruct (process_ok (MkNetlink (nl_socket sys) (nl_local_pid sys) 1 1 (nl_answers sys (Nl.request AF_PACKET RTM_GETLINK 1))) _ Hlinks) as (li & -> & Hli).
  rewrite bind_Ok, send_ok, bind_Ok by done. cbn. change (u32 (1 + 1)) with 2.
  destruct (process_ok (MkNetlink (nl_socket sys) (nl_local_pid sys) 2 2 (nl_answers sys (Nl.request AF_UNSPEC RTM_GETADDR 2))) _ Haddrs) as (ai & E & Hai).
  cbn in E |- *. rewrite E, bind_Ok. by apply detect_ifaces_spec.
Qed.

(** ** Whatever arrives, nothing is read outside of it *)
Definition returns {A} (P : A -> Prop) (r : result A) : Prop :=
  match r with Ok a => P a | Throw e => e = Unexpected | _ => False end.

Lemma returns_bind {A B} (P : A -> Prop) (Q : B -> Prop) m k : returns P m -> (forall a, P a -> returns Q (k a)) -> returns Q (m ≫= k).
Proof. destruct m; cbn; auto. Qed.

Lemma get16_inside p off : 0 <= off -> off + 2 <= zlen p -> exists v, get16 p off = Ok v.
Proof.
  intros H1 H2. destruct (zget_ok p off) as (a & Ea & _); [lia|]. destruct (zget_ok p (off + 1)) as (b & Eb & _); [lia|].
  eexists. unfold get16. by rewrite Ea, bind_Ok, Eb, bind_Ok.
Qed.
Lemma get32_inside p off : 0 <= off -> off + 4 <= zlen p -> exists v, get32 p off = Ok v.
Proof.
  intros H1 H2. destruct (get16_inside p off) as (a & Ea); [lia..|]. destruct (get16_inside p (off + 2)) as (b & Eb); [lia..|].
  eexists. unfold get32. by rewrite Ea, bind_Ok, Eb, bind_Ok.
Qed.
Lemma zget_take {A} (p : list A) n i : i < Z.of_nat n -> zget (take n p) i = zget p i.
Proof. intros H. unfold zget. case_decide; [|done]. by rewrite lookup_take_lt by lia. Qed.
Lemma len_take p n : (4 <= n)%nat -> nlmsg_len (take n p) = nlmsg_len p.
Proof. intros H. unfold nlmsg_len, get32, get16. by rewrite !zget_take by lia. Qed.

(** A pointer and the length that is left: behind the end the length is
    negative. *)
Definition pointing (p : list Z) (len : Z) : Prop := len = zlen p \/ (p = [] /\ len < 0).

Lemma pointing_next p len l : pointing p len -> 0 < l <= len -> pointing (drop (Z.to_nat (ALIGN l)) p) (len - ALIGN l) /\ (length (drop (Z.to_nat (ALIGN l)) p) < length p)%nat.
Proof.
  intros [->|[-> H]] Hl; [|lia]. pose proof (ALIGN_bound l). rewrite length_drop. unfold zlen in *. split; [|lia].
  destruct (decide (ALIGN l <= Z.of_nat (length p))).
  - left. unfold zlen. rewrite length_drop. lia.
  - right. split; [|lia]. apply drop_ge. lia.
Qed.

(** A stored message: its length is the one in its header. *)
Definition self_sized (msg : list Z) : Prop := nlmsg_len msg = Ok (zlen msg) /\ 16 <= zlen msg <= RCVBUF_SIZE.

Lemma messages_loop_safe nl from fuel : forall h len info, pointing h len -> len <= RCVBUF_SIZE -> (length h < fuel)%nat -> Forall self_sized info ->
  returns (fun r => Forall self_sized r.2) (Nl.messages_loop fuel nl from h len info).
Proof.
  induction fuel as [|fuel IH]; intros h len info Hp Hsz Hf Hi; [lia|]. cbn [Nl.messages_loop].
  unfold NLMSG_OK, NLMSG_HDRLEN. destruct (Z.ltb_spec len 16) as [|H16]; [by cbn|].
  assert (len = zlen h) as El by (destruct Hp as [?|[-> ?]]; [done|lia]).
  destruct (get32_inside h 0) as (l & Hl); [lia..|]. change (get32 h 0) with (nlmsg_len h) in Hl. rewrite Hl, bind_Ok, bind_Ok.
  destruct (Z.leb_spec 16 l) as [Hl16|]; [|by cbn]. destruct (Z.leb_spec l len) as [Hll|]; [|by cbn]. cbn [andb negb].
  destruct (get32_inside h 12) as (pid & Epid); [lia..|]. destruct (get32_inside h 8) as (seq & Eseq); [lia..|].
  destruct (get16_inside h 4) as (type & Etype); [lia..|].
  unfold nlmsg_pid, nlmsg_seq, nlmsg_type. rewrite Epid, bind_Ok, Eseq, bind_Ok.
  destruct (pointing_next h len l Hp ltac:(lia)) as [Hp' Hlt]. pose proof (ALIGN_bound l).
  assert (forall info, Forall self_sized info -> returns (fun r => Forall self_sized r.2)
    ('(header, status) ← NLMSG_NEXT h len; Nl.messages_loop fuel nl from header status info)) as Hnext.
  { intros info' Hi'. unfold NLMSG_NEXT. rewrite Hl, !bind_Ok. apply IH; [done|lia|lia|done]. }
  destruct (_ || _); [by apply Hnext|]. rewrite Etype, bind_Ok. destruct (type =? NLMSG_DONE); [by cbn|]. destruct (type =? NLMSG_ERROR); [by cbn|].
  unfold Nl.rtnl_store_reply. rewrite Hl, bind_Ok, slice_ok by lia. rewrite !bind_Ok, drop_0. apply Hnext.
  apply Forall_snoc; [done|]. assert (zlen (take (Z.to_nat l) h) = l) as E by (unfold zlen in *; rewrite length_take; lia).
  split; [|lia]. by rewrite len_take, Hl, E by lia.
Qed.

Lemma process_loop_safe nl rs : forall info, Forall self_sized info ->
  match Nl.process_loop nl rs info with NoFuel => True | r => returns (fun r => Forall self_sized r.1) r end.
Proof.
  induction rs as [|r rs IH]; intros info Hi; [done|]. cbn [Nl.process_loop]. destruct r as [errno|from data].
  { destruct (errno =? EINTR); [by apply IH|done]. }
  set (buf := take _ data). destruct (zlen buf =? 0); [done|]. cbn [throw_if]. rewrite bind_Ok.
  assert (zlen buf <= RCVBUF_SIZE) as Hb by (unfold buf, zlen, RCVBUF_SIZE; rewrite length_take; lia).
  pose proof (messages_loop_safe nl from (S (length buf)) buf (zlen buf) info (or_introl eq_refl) Hb ltac:(lia) Hi) as H.
  destruct (Nl.messages_loop _ _ _ _ _ _) as [[[fin status] info']|e| |]; [|by rewrite H|done|done]. rewrite bind_Ok. cbn [snd returns] in H.
  destruct fin; [done|]. destruct (RCVBUF_SIZE <? zlen data); [done|]. cbn [throw_if]. rewrite bind_Ok.
  destruct (negb (status =? 0)); [done|]. cbn [throw_if]. rewrite bind_Ok. by apply IH.
Qed.

Lemma rtattr_loop_safe fuel : forall table rta len, pointing rta len -> (length rta < fuel)%nat ->
  returns (fun r => length r.1 = length table) (Nl.rtattr_loop fuel table rta len).
Proof.
  induction fuel as [|fuel IH]; intros table rta len Hp Hf; [lia|]. cbn [Nl.rtattr_loop]. unfold RTA_OK.
  destruct (Z.ltb_spec len 4); [by cbn|]. assert (len = zlen rta) as El by (destruct Hp as [?|[-> ?]]; [done|lia]).
  destruct (get16_inside rta 0) as (l & Hl); [lia..|]. destruct (get16_inside rta 2) as (t & Ht); [lia..|].
  unfold rta_type, RTA_NEXT, rta_len. rewrite Hl, !bind_Ok. destruct (Z.leb_spec 4 l); [|by cbn]. destruct (Z.leb_spec l len); [|by cbn]. cbn [andb negb].
  rewrite Ht, bind_Ok. destruct (pointing_next rta len l Hp ltac:(lia)) as [Hp' Hlt].
  set (table1 := if t <? zlen table then _ else _). assert (length table1 = length table) as Hlen by (unfold table1; destruct (t <? zlen table); [apply length_insert|done]).
  pose proof (IH table1 _ _ Hp' ltac:(lia)) as H'. rewrite <- Hlen. exact H'.
Qed.

Lemma parse_rtattr_safe max msg n : self_sized msg -> (n <= 16)%nat ->
  returns (fun table => length table = S max) (Nl.parse_rtattr max (drop n (NLMSG_DATA msg)) (s32 (zlen msg - NLMSG_LENGTH (Z.of_nat n)))).
Proof.
  intros [_ Hs] Hn. unfold RCVBUF_SIZE in Hs. unfold Nl.parse_rtattr, NLMSG_DATA, NLMSG_LENGTH, NLMSG_HDRLEN. rewrite drop_drop.
  assert (s32 (zlen msg - (Z.of_nat n + 16)) = zlen msg - (Z.of_nat n + 16)) as -> by (unfold s32; zdiv).
  eapply returns_bind.
  - apply rtattr_loop_safe; [|lia]. destruct (decide (Z.of_nat n + 16 <= zlen msg)).
    + left. unfold zlen in *. rewrite length_drop. lia.
    + right. split; [|lia]. apply drop_ge. unfold zlen in *. lia.
  - intros [table len] E. cbn [fst] in E. destruct (negb (len =? 0)); [done|]. cbn [throw_if]. rewrite bind_Ok. cbn. rewrite E. apply length_replicate.
Qed.
