(* ===== verification/Subnet.v ===== *)
(** Subnets and their selection: [Subnet] of dhcp++/subnet.cpp, the
    [SubnetSelector] and the [SubnetMgr] of server/subnet_mgr.cpp. *)
From stdpp Require Import base list numbers option strings gmap.
From Stdlib Require Import ZArith Lia.
From S2P Require Import Prelude Buffer Address Options Pkt Nic.

Inductive HostResvMode : Set := HR_DISABLED | HR_OUT_OF_POOL | HR_ALL.

Record Subnet := MkSubnet {
  sid_ : Z; pools_ : list Pool; prefix_ : IOAddress; prefix_len_ : Z;
  t1_ : Triplet; t2_ : Triplet; valid_ : Triplet; last_allocated_ia_ : IOAddress;
  siface_ : string; relay_ : IOAddress;
  black_list_ : gset string; white_list_ : gset string;
  host_reservation_mode_ : HostResvMode;
  siaddr4_ : IOAddress; match_client_id_ : bool; opt_data_ : coll }.

#[global] Instance Subnet_eta : Eta Subnet := fun s =>
  MkSubnet (sid_ s) (pools_ s) (prefix_ s) (prefix_len_ s) (t1_ s) (t2_ s) (valid_ s)
    (last_allocated_ia_ s) (siface_ s) (relay_ s) (black_list_ s) (white_list_ s)
    (host_reservation_mode_ s) (siaddr4_ s) (match_client_id_ s) (opt_data_ s).

Module Sub.

(** The public constructor, through the delegating private one. *)
Definition make (prefix : IOAddress) (len : Z) (t1 t2 valid_lifetime : Triplet) (id : Z) : result Subnet :=
  last ← lastAddrInNetwork prefix len;
  assert_ (IOAddr.isV4 prefix && (len <=? 32));;
  throw_if (negb (IOAddr.isV4 prefix)) BadValue;;
  Ok (MkSubnet id [] prefix len t1 t2 valid_lifetime last "" IOAddr.IPV4_ZERO_ADDRESS
        ∅ ∅ HR_ALL IOAddr.IPV4_ZERO_ADDRESS true []).

Definition inRange (s : Subnet) (addr : IOAddress) : result bool :=
  first ← firstAddrInNetwork (prefix_ s) (prefix_len_ s);
  last ← lastAddrInNetwork (prefix_ s) (prefix_len_ s);
  le ← IOAddr.smallerEqual first addr;
  if (le : bool) then IOAddr.smallerEqual addr last else Ok false.

(** The loops look for a common element. *)
Definition clientSupported (s : Subnet) (classes : gset string) : bool :=
  if negb (bool_decide (white_list_ s = ∅)) then
    existsb (fun c => bool_decide (c ∈ classes)) (elements (white_list_ s))
  else if negb (bool_decide (black_list_ s = ∅)) then
    negb (existsb (fun c => bool_decide (c ∈ classes)) (elements (black_list_ s)))
  else true.

Definition allowClientClass (c : string) (s : Subnet) : Subnet := s <| white_list_ := {[c]} ∪ white_list_ s |>.
Definition denyClientClass (c : string) (s : Subnet) : Subnet := s <| black_list_ := {[c]} ∪ black_list_ s |>.

Definition setLastAllocated (a : IOAddress) (s : Subnet) : Subnet := s <| last_allocated_ia_ := a |>.
Definition setRelayInfo (a : IOAddress) (s : Subnet) : Subnet := s <| relay_ := a |>.
Definition setIface (n : string) (s : Subnet) : Subnet := s <| siface_ := n |>.
Definition setSiaddr (a : IOAddress) (s : Subnet) : result Subnet :=
  throw_if (negb (IOAddr.isV4 a)) BadValue;; Ok (s <| siaddr4_ := a |>).

(** [sumPoolCapacity]: saturates at the maximum of [uint64_t]. *)
Fixpoint sumPoolCapacity (sum : Z) (pools : list Pool) : Z :=
  match pools with
  | [] => sum
  | p :: pools =>
      if (2^64 - 1) - sum <? capacity_ p then 2^64 - 1 else sumPoolCapacity (sum + capacity_ p) pools
  end.
Definition getPoolCapacity (s : Subnet) : Z := sumPoolCapacity 0 (pools_ s).

Fixpoint getPool_loop (anypool : bool) (hint : IOAddress) (candidate : option Pool) (pools : list Pool)
    : result (option Pool) :=
  match pools with
  | [] => Ok candidate
  | p :: pools =>
      let candidate := if anypool && bool_decide (candidate = None) then Some p else candidate in
      r ← PoolOps.inRange p hint;
      if (r : bool) then Ok (Some p) else getPool_loop anypool hint candidate pools
  end.
Definition getPool (hint : IOAddress) (anypool : bool) (s : Subnet) : result (option Pool) :=
  getPool_loop anypool hint None (pools_ s).

Definition addPool (p : Pool) (s : Subnet) : result Subnet :=
  r1 ← inRange s (first_ p);
  r2 ← (if (r1 : bool) then inRange s (last_ p) else Ok false);
  throw_if (negb (r1 && r2)) BadValue;;
  Ok (s <| pools_ := pools_ s ++ [p] |>).

Definition delPools (s : Subnet) : Subnet := s <| pools_ := [] |>.

Fixpoint inPools (a : IOAddress) (pools : list Pool) : result bool :=
  match pools with
  | [] => Ok false
  | p :: pools => r ← PoolOps.inRange p a; if (r : bool) then Ok true else inPools a pools
  end.
Definition inPool (a : IOAddress) (s : Subnet) : result bool :=
  r ← inRange s a;
  if negb r then Ok false else inPools a (pools_ s).

End Sub.

Record SubnetSelector := MkSelector {
  sel_ciaddr_ : IOAddress; sel_giaddr_ : IOAddress; option_select_ : IOAddress;
  local_address_ : IOAddress; remote_address_ : IOAddress;
  client_classes_ : gset string; iface_name_ : string }.

Record SubnetMgr := MkSubnetMgr { subnets_ : list Subnet }.

Module SMgr.

Definition isDuplicate (s : Subnet) (m : SubnetMgr) : bool :=
  existsb (fun x => sid_ x =? sid_ s) (subnets_ m).

Definition add (s : Subnet) (m : SubnetMgr) : SubnetMgr * bool :=
  if isDuplicate s m then (m, false) else (MkSubnetMgr (subnets_ m ++ [s]), true).

Definition getSubnet (id : Z) (m : SubnetMgr) : option Subnet :=
  List.find (fun s => sid_ s =? id) (subnets_ m).

(** [selectSubnet(address, classes)] *)
Fixpoint select_addr (a : IOAddress) (classes : gset string) (l : list Subnet) : result (option Subnet) :=
  match l with
  | [] => Ok None
  | s :: l =>
      r ← Sub.inRange s a;
      if negb r then select_addr a classes l
      else if Sub.clientSupported s classes then Ok (Some s) else select_addr a classes l
  end.
Definition selectSubnet_addr (a : IOAddress) (classes : gset string) (m : SubnetMgr) : result (option Subnet) :=
  select_addr a classes (subnets_ m).

(** [selectSubnet(iface, classes)] *)
Definition selectSubnet_iface (iface : string) (classes : gset string) (m : SubnetMgr) : option Subnet :=
  List.find (fun s => String.eqb (siface_ s) iface && Sub.clientSupported s classes) (subnets_ m).

(** The loop over the relay addresses. *)
Definition select_relay (giaddr : IOAddress) (classes : gset string) (m : SubnetMgr) : option Subnet :=
  List.find (fun s => IOAddr.equals giaddr (relay_ s) && Sub.clientSupported s classes) (subnets_ m).

(** [selectSubnet(selector)]; [ifmgr] is the interface manager singleton. *)
Definition selectSubnet (ifmgr : IfaceMgr) (sel : SubnetSelector) (m : SubnetMgr) : result (option Subnet) :=
  let classes := client_classes_ sel in
  if negb (IOAddr.isV4Zero (option_select_ sel)) then selectSubnet_addr (option_select_ sel) classes m
  else
    match (if negb (IOAddr.isV4Zero (sel_giaddr_ sel)) then select_relay (sel_giaddr_ sel) classes m else None) with
    | Some s => Ok (Some s)
    | None =>
        let by_address (address : IOAddress) :=
          if IOAddr.isV4Zero address then Ok None else selectSubnet_addr address classes m in
        if negb (IOAddr.isV4Zero (sel_giaddr_ sel)) then by_address (sel_giaddr_ sel)
        else if negb (IOAddr.isV4Zero (sel_ciaddr_ sel)) && negb (IOAddr.isV4Bcast (local_address_ sel))
        then by_address (sel_ciaddr_ sel)
        else if negb (IOAddr.isV4Zero (remote_address_ sel)) && negb (IOAddr.isV4Bcast (local_address_ sel))
        then by_address (remote_address_ sel)
        else if negb (bool_decide (iface_name_ sel = ""%string)) then
          match Mgr.getIface (iface_name_ sel) ifmgr with
          | None => Throw BadValue
          | Some i =>
              match selectSubnet_iface (iface_name_ sel) classes m with
              | Some s => Ok (Some s)
              | None => by_address (default (IOAddr.of_uint32 0) (If.getAddress i))
              end
          end
        else by_address IOAddr.IPV4_ZERO_ADDRESS
    end.

End SMgr.

(** ** Facts *)

(** A configured subnet: an IPv4 prefix of 1 to 32 bits. *)
Definition net_ok (s : Subnet) : Prop :=
  exists p, prefix_ s = V4 p /\ addr_ok p /\ 1 <= prefix_len_ s <= 32.

(** Whether the address has the prefix of the subnet. *)
Definition covers (s : Subnet) (a : Z) : bool :=
  match prefix_ s with
  | V4 p => a / 2^(32 - prefix_len_ s) =? p / 2^(32 - prefix_len_ s)
  | V6 _ => false
  end.

Lemma sub_inRange_spec s a : net_ok s -> addr_ok a -> Sub.inRange s (V4 a) = Ok (covers s a).
Proof.
  intros (p & Hp & Hok & Hl) Ha. unfold Sub.inRange, covers. rewrite Hp.
  rewrite firstAddr_spec, bind_Ok, lastAddr_spec, bind_Ok by done.
  rewrite !smallerEqual_v4, bind_Ok.
  pose proof (same_prefix p (prefix_len_ s) Hl a Ha) as H.
  set (b := 2^(32 - prefix_len_ s)) in *.
  destruct (Z.leb_spec (p / b * b) a); [|f_equal; symmetry; apply Z.eqb_neq; intros E; apply H in E; lia].
  f_equal. destruct (Z.leb_spec a (p / b * b + (b - 1))).
  - symmetry. apply Z.eqb_eq. apply H. lia.
  - symmetry. apply Z.eqb_neq. intros E. apply H in E. lia.
Qed.

Lemma make_net_ok p len t1 t2 v id s :
  addr_ok p -> 0 <= len -> Sub.make (V4 p) len t1 t2 v id = Ok s -> net_ok s /\ pools_ s = [].
Proof.
  intros Hp Hlen. unfold Sub.make. intros (last & Hl & H)%bind_ok.
  unfold lastAddrInNetwork in Hl. apply bind_ok in Hl as ([] & Ha & _).
  unfold assert_ in Ha. destruct (negb (len =? 0) && (len <=? 32)) eqn:E; [|done].
  apply bind_ok in H as ([] & _ & H). cbn in H. injection H as <-. split; [|done].
  exists p. cbn. split_and!; [done|done|lia|lia].
Qed.

(** *** Pools *)
Definition pool_ok (s : Subnet) (p : Pool) : Prop :=
  exists f l, first_ p = V4 f /\ last_ p = V4 l /\ addr_ok f /\ addr_ok l /\
    covers s f = true /\ covers s l = true.
Record subnet_inv (s : Subnet) : Prop := MkSubnetInv {
  si_net : net_ok s;
  si_pools : Forall (pool_ok s) (pools_ s) }.

Definition v4_pool (p : Pool) : Prop :=
  exists f l, first_ p = V4 f /\ last_ p = V4 l /\ addr_ok f /\ addr_ok l.

Lemma addPool_spec p s :
  net_ok s -> v4_pool p ->
  exists f l, first_ p = V4 f /\ last_ p = V4 l /\ addr_ok f /\ addr_ok l /\
    Sub.addPool p s = (if covers s f && covers s l then Ok (s <| pools_ := pools_ s ++ [p] |>) else Throw BadValue).
Proof.
  intros Hs (f & l & Hf & Hl & Hfo & Hlo). exists f, l. split_and!; [done..|].
  unfold Sub.addPool. rewrite Hf, Hl, (sub_inRange_spec s f), bind_Ok by done.
  destruct (covers s f); cbn [andb]; [|done].
  rewrite sub_inRange_spec, bind_Ok by done. by destruct (covers s l).
Qed.

Lemma addPool_inv p s s' : subnet_inv s -> v4_pool p -> Sub.addPool p s = Ok s' -> subnet_inv s'.
Proof.
  intros [Hn Hp] Hv. destruct (addPool_spec p s Hn Hv) as (f & l & Hf & Hl & Hfo & Hlo & ->).
  destruct (covers s f && covers s l) eqn:E; [|done]. intros [= <-].
  apply andb_true_iff in E as [E1 E2].
  split; [exact Hn|]. cbn [pools_ set]. apply Forall_app. split; [exact Hp|].
  constructor; [|constructor]. exists f, l. split_and!; assumption.
Qed.

(** A prefix block is convex. *)
Lemma covers_between s f x l :
  net_ok s -> covers s f = true -> covers s l = true -> f <= x <= l -> covers s x = true.
Proof.
  intros (p & Hp & _ & Hl) Hf Hla Hx. unfold covers in *. rewrite Hp in *.
  set (b := 2^(32 - prefix_len_ s)) in *.
  assert (0 < b) by (apply Z.pow_pos_nonneg; lia).
  apply Z.eqb_eq in Hf, Hla. apply Z.eqb_eq.
  pose proof (Z.div_le_mono f x b ltac:(done) ltac:(lia)).
  pose proof (Z.div_le_mono x l b ltac:(done) ltac:(lia)). lia.
Qed.

Definition in_pool (p : Pool) (a : Z) : bool :=
  match first_ p, last_ p with V4 f, V4 l => (f <=? a) && (a <=? l) | _, _ => false end.

Lemma pool_inRange s p a : pool_ok s p -> PoolOps.inRange p (V4 a) = Ok (in_pool p a).
Proof.
  intros (f & l & Hf & Hl & _). unfold in_pool. rewrite Hf, Hl. by apply inRange_spec.
Qed.

Lemma inPools_spec s a l : Forall (pool_ok s) l -> Sub.inPools (V4 a) l = Ok (existsb (fun p => in_pool p a) l).
Proof.
  induction 1 as [|p l Hp _ IH]; [done|]. cbn [Sub.inPools existsb].
  rewrite (pool_inRange s), bind_Ok by done. by destruct (in_pool p a).
Qed.

(** [inPool] is membership in some pool; the range test is implied. *)
Lemma inPool_spec s a :
  subnet_inv s -> addr_ok a -> Sub.inPool (V4 a) s = Ok (existsb (fun p => in_pool p a) (pools_ s)).
Proof.
  intros [Hn Hp] Ha. unfold Sub.inPool. rewrite sub_inRange_spec, bind_Ok by done.
  rewrite (inPools_spec s) by done. destruct (covers s a) eqn:E; [done|]. cbn [negb].
  f_equal. symmetry. apply not_true_iff_false. intros (p & Hin & Hpa)%existsb_exists.
  rewrite Forall_forall in Hp. apply list_elem_of_In in Hin. destruct (Hp p Hin) as (f & l & Hf & Hl & _ & _ & Cf & Cl).
  unfold in_pool in Hpa. rewrite Hf, Hl in Hpa.
  rewrite (covers_between s f a l) in E; [done|done|done|done|lia].
Qed.

Lemma getPool_loop_spec s any a c l :
  Forall (pool_ok s) l ->
  Sub.getPool_loop any (V4 a) c l
  = Ok (match List.find (fun p => in_pool p a) l with
        | Some p => Some p
        | None => if any then match c with Some _ => c | None => head l end else c
        end).
Proof.
  intros Hl. revert c. induction Hl as [|p l Hp _ IH]; intros c; cbn [Sub.getPool_loop List.find head].
  - destruct any, c; done.
  - rewrite (pool_inRange s), bind_Ok by done. destruct (in_pool p a); [done|]. rewrite IH.
    f_equal. destruct (List.find _ l); [done|]. destruct any; [|done]. destruct c; done.
Qed.

Lemma sumPoolCapacity_spec sum l :
  0 <= sum < 2^64 -> Forall (fun p => 0 <= capacity_ p) l ->
  Sub.sumPoolCapacity sum l = Z.min (2^64 - 1) (sum + foldr (fun p n => capacity_ p + n) 0 l).
Proof.
  intros Hs Hl. revert sum Hs. induction Hl as [|p l Hp Hl IH]; intros sum Hs; cbn [Sub.sumPoolCapacity foldr].
  - lia.
  - assert (0 <= foldr (fun p n => capacity_ p + n) 0 l).
    { clear IH. induction Hl; cbn; lia. }
    destruct (Z.ltb_spec ((2^64 - 1) - sum) (capacity_ p)); [lia|]. rewrite IH by lia. lia.
Qed.

(** *** The manager *)
Definition mgr_inv (m : SubnetMgr) : Prop := NoDup (sid_ <$> subnets_ m) /\ Forall net_ok (subnets_ m).

Lemma isDuplicate_spec s m : SMgr.isDuplicate s m = true <-> sid_ s ∈ (sid_ <$> subnets_ m).
Proof.
  unfold SMgr.isDuplicate. rewrite existsb_exists, list_elem_of_fmap. split.
  - intros (x & Hx & E%Z.eqb_eq). exists x. split; [done|by apply list_elem_of_In].
  - intros (x & E & Hx). exists x. split; [by apply list_elem_of_In|by apply Z.eqb_eq].
Qed.

Lemma add_inv s m : mgr_inv m -> net_ok s -> mgr_inv (SMgr.add s m).1.
Proof.
  intros [Hd Hn] Hs. unfold SMgr.add. destruct (SMgr.isDuplicate s m) eqn:E; [done|].
  split; cbn [fst subnets_].
  - rewrite fmap_app. apply NoDup_app. split_and!; [done| |apply NoDup_singleton].
    intros x Hx ->%list_elem_of_singleton. apply isDuplicate_spec in Hx. congruence.
  - by apply Forall_app_2; [|constructor].
Qed.

(** The first matching element: what the selection loops return. *)
Lemma select_addr_find a classes l :
  addr_ok a -> Forall net_ok l ->
  SMgr.select_addr (V4 a) classes l
  = Ok (List.find (fun s => covers s a && Sub.clientSupported s classes) l).
Proof.
  intros Ha. induction 1 as [|s l Hs _ IH]; [done|]. cbn [SMgr.select_addr List.find].
  rewrite sub_inRange_spec, bind_Ok by done. destruct (covers s a); cbn [negb andb]; [|done].
  by destruct (Sub.clientSupported s classes).
Qed.

Lemma isV4Zero_v4 a : IOAddr.isV4Zero (V4 a) = (a =? 0).
Proof. unfold IOAddr.isV4Zero, IOAddr.IPV4_ZERO_ADDRESS, IOAddr.of_uint32. apply equals_v4. Qed.

(** *** Specification of the selection

    [basis ifmgr sel m P]: by RFC precedence, [P] is the criterion the query
    has to be matched with.  The subnet chosen is the first one that meets it
    and admits the client's classes. *)
Section Selection.
Variables (ifmgr : IfaceMgr) (sel : SubnetSelector) (m : SubnetMgr).
Definition supported (s : Subnet) : bool := Sub.clientSupported s (client_classes_ sel).
Definition some_supported (P : Subnet -> bool) : bool := existsb (fun s => P s && supported s) (subnets_ m).

Definition first_match (P : Subnet -> bool) : option Subnet :=
  List.find (fun s => P s && Sub.clientSupported s (client_classes_ sel)) (subnets_ m).

(** A unicast query carries a usable ciaddr or source address. *)
Definition usable_addr (a : IOAddress) : bool :=
  negb (IOAddr.isV4Zero a) && negb (IOAddr.isV4Bcast (local_address_ sel)).
Definition direct : Prop := option_select_ sel = V4 0 /\ sel_giaddr_ sel = V4 0.
Definition local_only : Prop :=
  direct /\ usable_addr (sel_ciaddr_ sel) = false /\ usable_addr (remote_address_ sel) = false.

Inductive basis : (Subnet -> bool) -> Prop :=
| basis_link a : option_select_ sel = V4 a -> a <> 0 -> basis (fun s => covers s a)
| basis_relay a : option_select_ sel = V4 0 -> sel_giaddr_ sel = V4 a -> a <> 0 ->
    some_supported (fun s => IOAddr.equals (V4 a) (relay_ s)) = true ->
    basis (fun s => IOAddr.equals (V4 a) (relay_ s))
| basis_giaddr a : option_select_ sel = V4 0 -> sel_giaddr_ sel = V4 a -> a <> 0 ->
    some_supported (fun s => IOAddr.equals (V4 a) (relay_ s)) = false -> basis (fun s => covers s a)
| basis_ciaddr a : direct -> sel_ciaddr_ sel = V4 a -> usable_addr (V4 a) = true -> basis (fun s => covers s a)
| basis_remote a : direct -> usable_addr (sel_ciaddr_ sel) = false ->
    remote_address_ sel = V4 a -> usable_addr (V4 a) = true -> basis (fun s => covers s a)
| basis_iface i : local_only -> iface_name_ sel <> ""%string -> Mgr.getIface (iface_name_ sel) ifmgr = Some i ->
    some_supported (fun s => String.eqb (siface_ s) (iface_name_ sel)) = true ->
    basis (fun s => String.eqb (siface_ s) (iface_name_ sel))
| basis_iface_addr i a : local_only -> iface_name_ sel <> ""%string -> Mgr.getIface (iface_name_ sel) ifmgr = Some i ->
    some_supported (fun s => String.eqb (siface_ s) (iface_name_ sel)) = false ->
    If.getAddress i = Some (V4 a) -> a <> 0 -> basis (fun s => covers s a)
| basis_none : local_only ->
    (iface_name_ sel = ""%string \/
     exists i, Mgr.getIface (iface_name_ sel) ifmgr = Some i /\
       some_supported (fun s => String.eqb (siface_ s) (iface_name_ sel)) = false /\
       default (V4 0) (If.getAddress i) = V4 0) ->
    basis (fun _ => false).

(** The addresses are IPv4 and a named interface exists. *)
Record selector_ok : Prop := MkSelectorOk {
  so_addrs : Forall (fun a => exists v, a = V4 v /\ addr_ok v)
    [sel_ciaddr_ sel; sel_giaddr_ sel; option_select_ sel; remote_address_ sel];
  so_iface : iface_name_ sel <> ""%string -> exists i, Mgr.getIface (iface_name_ sel) ifmgr = Some i /\
    Forall (fun a => exists v, a = V4 v /\ addr_ok v) (if_addrs_ i) }.

Lemma find_existsb {A} (P : A -> bool) l :
  match List.find P l with Some _ => existsb P l = true | None => existsb P l = false end.
Proof. induction l as [|x l IH]; cbn; [done|]. by destruct (P x). Qed.

Lemma find_false {A} (P : A -> bool) l : (forall x, P x = false) -> List.find P l = None.
Proof. intros H. induction l as [|x l IH]; cbn; [done|]. by rewrite H. Qed.

Lemma by_address_spec a :
  mgr_inv m -> addr_ok a -> a <> 0 ->
  (if IOAddr.isV4Zero (V4 a) then Ok None else SMgr.selectSubnet_addr (V4 a) (client_classes_ sel) m)
  = Ok (first_match (fun s => covers s a)).
Proof.
  intros [_ Hn] Ha H0. rewrite isV4Zero_v4, (proj2 (Z.eqb_neq _ _)) by done. by apply select_addr_find.
Qed.

Lemma select_local :
  mgr_inv m -> selector_ok -> local_only ->
  exists P, basis P /\
    (if negb (bool_decide (iface_name_ sel = ""%string)) then
       match Mgr.getIface (iface_name_ sel) ifmgr with
       | None => Throw BadValue
       | Some i =>
           match SMgr.selectSubnet_iface (iface_name_ sel) (client_classes_ sel) m with
           | Some s => Ok (Some s)
           | None => if IOAddr.isV4Zero (default (IOAddr.of_uint32 0) (If.getAddress i)) then Ok None
                     else SMgr.selectSubnet_addr (default (IOAddr.of_uint32 0) (If.getAddress i)) (client_classes_ sel) m
           end
       end
     else if IOAddr.isV4Zero IOAddr.IPV4_ZERO_ADDRESS then Ok None
          else SMgr.selectSubnet_addr IOAddr.IPV4_ZERO_ADDRESS (client_classes_ sel) m)
    = Ok (first_match P).
Proof.
  intros Hm [_ Hi] Hlo. unfold first_match. case_bool_decide as Hn.
  - exists (fun _ => false). split; [apply basis_none; [done|by left]|]. by rewrite find_false.
  - destruct (Hi Hn) as (i & Ei & Ha). cbn [negb]. rewrite Ei. unfold SMgr.selectSubnet_iface.
    pose proof (find_existsb (fun s => String.eqb (siface_ s) (iface_name_ sel) &&
      Sub.clientSupported s (client_classes_ sel)) (subnets_ m)) as Hf.
    destruct (List.find _ _) as [s|] eqn:E.
    + exists (fun s => String.eqb (siface_ s) (iface_name_ sel)). split; [by eapply basis_iface|]. by rewrite E.
    + unfold If.getAddress. destruct (if_addrs_ i) as [|x l] eqn:El; cbn [head default].
      * exists (fun _ => false). split; [|by rewrite find_false].
        apply basis_none; [done|]. right. exists i. split_and!; [done..|]. unfold If.getAddress. by rewrite El.
      * apply Forall_cons_iff in Ha as [(v & -> & Hv) _]. change (default _ (Some (V4 v))) with (V4 v).
        destruct (decide (v = 0)) as [->|H0].
        -- exists (fun _ => false). split; [|by rewrite find_false].
           apply basis_none; [done|]. right. exists i. split_and!; [done..|]. unfold If.getAddress. by rewrite El.
        -- exists (fun s => covers s v). split; [|by apply by_address_spec].
           eapply basis_iface_addr; try done. unfold If.getAddress. by rewrite El.
Qed.

Lemma selectSubnet_spec :
  mgr_inv m -> selector_ok -> exists P, basis P /\ SMgr.selectSubnet ifmgr sel m = Ok (first_match P).
Proof.
  intros Hm Hok. pose proof Hok as [Ha _]. rewrite !Forall_cons_iff in Ha.
  destruct Ha as ((ci & Eci & Hci) & (gi & Egi & Hgi) & (os & Eos & Hos) & (re & Ere & Hre) & _).
  unfold SMgr.selectSubnet. rewrite Eos, isV4Zero_v4. destruct (Z.eqb_spec os 0) as [->|H0]; cbn [negb].
  2:{ exists (fun s => covers s os). split; [by apply basis_link|]. destruct Hm as [_ Hn]. by apply select_addr_find. }
  rewrite Egi, isV4Zero_v4. destruct (Z.eqb_spec gi 0) as [->|H0]; cbn [negb].
  - change (negb (IOAddr.isV4Zero (sel_ciaddr_ sel)) && negb (IOAddr.isV4Bcast (local_address_ sel)))
      with (usable_addr (sel_ciaddr_ sel)).
    change (negb (IOAddr.isV4Zero (remote_address_ sel)) && negb (IOAddr.isV4Bcast (local_address_ sel)))
      with (usable_addr (remote_address_ sel)).
    destruct (usable_addr (sel_ciaddr_ sel)) eqn:Uc.
    { rewrite Eci in *. exists (fun s => covers s ci). split; [by apply basis_ciaddr|].
      apply by_address_spec; [done|done|]. intros ->. by unfold usable_addr in Uc. }
    destruct (usable_addr (remote_address_ sel)) eqn:Ur.
    { rewrite Ere in *. exists (fun s => covers s re). split; [by apply basis_remote|].
      apply by_address_spec; [done|done|]. intros ->. by unfold usable_addr in Ur. }
    by apply select_local.
  - unfold SMgr.select_relay. pose proof (find_existsb (fun s => IOAddr.equals (V4 gi) (relay_ s) &&
      Sub.clientSupported s (client_classes_ sel)) (subnets_ m)) as Hf.
    destruct (List.find _ _) as [s|] eqn:E.
    + exists (fun s => IOAddr.equals (V4 gi) (relay_ s)). split; [by apply basis_relay|].
      unfold first_match. by rewrite E.
    + exists (fun s => covers s gi). split; [by apply basis_giaddr|].
      destruct Hm as [_ Hn]. by apply select_addr_find.
Qed.

End Selection.
