(* ===== verification/ResponseGen.v ===== *)
(** Building the answer to a query: server/response_gen.cpp.

    The functions that take [Pkt& resp] return the changed packet; the
    interface manager singleton is an argument. *)
From stdpp Require Import base list numbers option strings gmap.
From Stdlib Require Import ZArith Lia.
From S2P Require Import Prelude Buffer HwAddr Address DnsName OptionDef Options Pkt.
From S2P Require Import Nic Subnet.

Definition BOOTP_BROADCAST : Z := 32768.

(** [Option4AddrLst(type, addr)] *)
Definition Option4AddrLst_make (type : Z) (addr : IOAddress) : result opt :=
  o ← Option_.make type;
  throw_if (negb (IOAddr.isV4 addr)) BadValue;;
  Ok (set_body (BAddrLst [addr]) o).

(** [OptionCustom::readAddress(index)] of an option whose dynamic class is
    [OptionCustom]. *)
Definition readAddress (bufs : list (list Z)) (index : Z) : result IOAddress :=
  throw_if (zlen bufs <=? index) OutOfRange;;
  b ← zget bufs index;
  if zlen b =? V4ADDRESS_LEN then OptionDataTypeUtil.readAddress b IOAddr.AF_INET
  else Throw BadDataTypeCast.

(** [dynamic_cast<const OptionCustom*>] *)
Definition as_custom (o : opt) : option (list (list Z)) :=
  match body_ o with BCustom _ bufs => Some bufs | _ => None end.

Module Resp.

Definition copy_option (code : Z) (req resp : Pkt) : result Pkt :=
  match P.getOption code req with
  | Some o => P.addOption (Option_.clone o) resp
  | None => Ok resp
  end.

(** The setters [initResponse] calls on the new packet. *)
Definition copy_header (req resp : Pkt) : Pkt :=
  resp <| iface_ := iface_ req |> <| ifindex_ := ifindex_ req |>
       <| siaddr_ := IOAddr.of_uint32 0 |> <| ciaddr_ := IOAddr.of_uint32 0 |>
       <| hops_ := hops_ req |> <| chaddr_ := chaddr_ req |> <| giaddr_ := giaddr_ req |>
       <| local_hwaddr_ := local_hwaddr_ req |> <| remote_hwaddr_ := remote_hwaddr_ req |>
       <| flags_ := flags_ req |>.

Definition initResponse (req : Pkt) : result Pkt :=
  t ← P.getType req;
  resp_type ←
    (if t =? DHCPDISCOVER then Ok DHCPOFFER
     else if (t =? DHCPREQUEST) || (t =? DHCPINFORM) then Ok DHCPACK
     else Crash);
  resp ← P.make resp_type (transid_ req);
  let resp := copy_header req resp in
  resp ← copy_option DHO_DHCP_CLIENT_IDENTIFIER req resp;
  resp ← copy_option DHO_DHCP_AGENT_OPTIONS req resp;
  copy_option DHO_SUBNET_SELECTION req resp.

(** [int valid_lft]: an [int] made from the [uint32_t] lifetime. *)
Definition valid_lifetime (query : Pkt) (subnet : Subnet) : Z :=
  s32 (match P.getOption DHO_DHCP_LEASE_TIME query with
       | Some o => match body_ o with
                   | BInt Uint32 v => Trip.get_hint (valid_ subnet) v
                   | _ => Trip.get (valid_ subnet)
                   end
       | None => Trip.get (valid_ subnet)
       end).

(** [valid_lft*3/4]: a signed overflow is undefined. *)
Definition three_quarters (v : Z) : result Z :=
  if (-(2^31) <=? v * 3) && (v * 3 <? 2^31) then Ok (Z.quot (v * 3) 4) else Crash.

Definition add_uint32 (code v : Z) (resp : Pkt) : result Pkt :=
  o ← OptionInt_make Uint32 code v; P.addOption o resp.

(** Copies the configured option unless the answer already has it. *)
Definition add_configured (opt_data : coll) (resp : Pkt) (code : Z) : result Pkt :=
  match P.getOption code resp with
  | Some _ => Ok resp
  | None => match mfind code opt_data with
            | Some o => P.addOption (Option_.clone o) resp
            | None => Ok resp
            end
  end.

Definition required_options : list Z :=
  [DHO_ROUTERS; DHO_DOMAIN_NAME_SERVERS; DHO_DOMAIN_NAME; DHO_VENDOR_CLASS_IDENTIFIER].

Definition append_times (query resp : Pkt) (subnet : Subnet) : result Pkt :=
  let valid_lft := valid_lifetime query subnet in
  resp ← add_uint32 DHO_DHCP_LEASE_TIME valid_lft resp;
  resp ← (if negb (unspecified_ (t1_ subnet))
          then add_uint32 DHO_DHCP_RENEWAL_TIME (Z.quot valid_lft 2) resp else Ok resp);
  if negb (unspecified_ (t2_ subnet))
  then q ← three_quarters valid_lft; add_uint32 DHO_DHCP_REBINDING_TIME q resp
  else Ok resp.

Definition appendBasicOptions (query resp : Pkt) (subnet : Subnet) : result Pkt :=
  let resp := resp <| siaddr_ := siaddr4_ subnet |> in
  t ← P.getType query;
  let resp := if negb (t =? DHCPDISCOVER) then resp <| ciaddr_ := ciaddr_ query |> else resp in
  resp ← (if negb (t =? DHCPINFORM) then append_times query resp subnet else Ok resp);
  mask ← getNetmask4 (prefix_len_ subnet);
  netmask ← IOAddr.to_uint32 mask;
  resp ← add_uint32 DHO_SUBNET_MASK netmask resp;
  foldM (add_configured (opt_data_ subnet)) resp required_options.

Definition appendRequestedOptions (query resp : Pkt) (subnet : Subnet) : result Pkt :=
  match P.getOption DHO_DHCP_PARAMETER_REQUEST_LIST query with
  | Some o =>
      match body_ o with
      | BIntArray Uint8 requested_opts => foldM (add_configured (opt_data_ subnet)) resp requested_opts
      | _ => Ok resp
      end
  | None => Ok resp
  end.

Definition BCAST : IOAddress := IOAddr.of_uint32 0xFFFFFFFF.

Definition adjustRemoteAddr (direct_response : bool) (query resp : Pkt) : result Pkt :=
  qt ← P.getType query;
  if qt =? DHCPINFORM then
    Ok (if negb (IOAddr.isV4Zero (ciaddr_ query)) then resp <| remote_addr_ := ciaddr_ query |>
        else if P.isRelayed query then
          resp <| remote_addr_ := giaddr_ query |> <| flags_ := u16 (Z.lor (flags_ resp) BOOTP_BROADCAST) |>
        else resp <| remote_addr_ := remote_addr_ query |>)
  else if P.isRelayed query then
    let resp := if (qt =? DHCPINFORM) && IOAddr.isV4Zero (ciaddr_ query)
                then resp <| flags_ := BOOTP_BROADCAST |> else resp in
    Ok (resp <| remote_addr_ := giaddr_ query |>)
  else if negb (IOAddr.isV4Zero (ciaddr_ query)) then Ok (resp <| remote_addr_ := ciaddr_ query |>)
  else
    rt ← P.getType resp;
    Ok (if rt =? DHCPNAK then resp <| remote_addr_ := BCAST |>
        else if negb (IOAddr.isV4Zero (yiaddr_ resp)) then
          let bcast_flag := negb (Z.land (flags_ query) FLAG_BROADCAST_MASK =? 0) in
          if negb direct_response || bcast_flag then resp <| remote_addr_ := BCAST |>
          else resp <| remote_addr_ := yiaddr_ resp |>
        else resp <| remote_addr_ := remote_addr_ query |>).

Definition appendIfaceData (ifmgr : IfaceMgr) (query resp : Pkt) : result Pkt :=
  resp ← adjustRemoteAddr (isDirectResponseSupported (packet_filter_ ifmgr)) query resp;
  let resp := resp <| remote_port_ := if P.isRelayed query then DHCP4_SERVER_PORT else DHCP4_CLIENT_PORT |> in
  local_addr ← (if IOAddr.isV4Bcast (local_addr_ query)
                then sock_info ← Mgr.getSocket query ifmgr; Ok (so_addr_ sock_info)
                else Ok (local_addr_ query));
  let resp := resp <| local_addr_ := local_addr |> <| local_port_ := local_port_ query |>
                   <| iface_ := iface_ query |> <| ifindex_ := ifindex_ query |> in
  opt_srvid ← Option4AddrLst_make DHO_DHCP_SERVER_IDENTIFIER (local_addr_ resp);
  P.addOption opt_srvid resp.

Definition genNakResponse (ifmgr : IfaceMgr) (query : Pkt) : result Pkt :=
  resp ← initResponse query;
  resp ← P.setType DHCPNAK resp;
  appendIfaceData ifmgr query (resp <| yiaddr_ := IOAddr.of_uint32 0 |>).

Definition genAckResponse (ifmgr : IfaceMgr) (query : Pkt) (ip_addr : IOAddress) (subnet : Subnet) : result Pkt :=
  resp ← initResponse query;
  let resp := resp <| yiaddr_ := ip_addr |> in
  resp ← appendBasicOptions query resp subnet;
  resp ← appendRequestedOptions query resp subnet;
  appendIfaceData ifmgr query resp.

End Resp.
