(* ===== verification/ResponseFacts.v ===== *)
(** What the generated answers contain: message type, header fields,
    destination and the option under every code. *)
From stdpp Require Import base list numbers option strings gmap.
From Stdlib Require Import ZArith Lia.
From S2P Require Import Prelude Buffer HwAddr Address DnsName OptionDef Options OptionsRoundTrip.
From S2P Require Import Pkt Nic Subnet ResponseGen.

(** ** Options by code *)
Lemma mfind_minsert k o c k' :
  mfind k c = None -> mfind k' (minsert k o c) = if k' =? k then Some o else mfind k' c.
Proof.
  induction c as [|[j x] c IH]; cbn [mfind minsert]; intros Hc.
  - by rewrite (Z.eqb_sym k k').
  - destruct (Z.eqb_spec j k) as [|Hjk]; [done|]. destruct (k <? j); cbn [mfind].
    + by rewrite (Z.eqb_sym k k').
    + rewrite IH by done. destruct (Z.eqb_spec j k') as [->|]; [|done].
      by rewrite (proj2 (Z.eqb_neq k' k)).
Qed.

(** The header of a packet: everything but the options. *)
Definition same_header (p q : Pkt) : Prop := q = p <| poptions_ := poptions_ q |>.

#[global] Instance same_header_preorder : PreOrder same_header.
Proof.
  split.
  - intros []. done.
  - intros p q r Hq Hr. unfold same_header in *. rewrite Hr, Hq. by destruct p, r.
Qed.

Lemma same_header_get {A} (f : Pkt -> A) p q :
  same_header p q -> (forall c, f (p <| poptions_ := c |>) = f p) -> f q = f p.
Proof. unfold same_header. intros -> H. apply H. Qed.

Ltac hdr Hh :=
  match goal with |- ?f ?r = _ => rewrite (same_header_get f _ r Hh) by done end; try done.

(** Adding an option whose code is free. *)
Lemma addOption_new o p :
  P.getOption (type_ o) p = None ->
  exists q, P.addOption o p = Ok q /\ same_header p q /\
    forall k, P.getOption k q = if k =? type_ o then Some o else P.getOption k p.
Proof.
  intros Hn. unfold P.addOption. rewrite Hn. cbn [throw_if]. rewrite bind_Ok. eexists.
  split; [done|]. split; [by destruct p|]. intros k. unfold P.getOption in *. cbn [poptions_ set].
  by apply mfind_minsert.
Qed.

Lemma type_clone o : type_ (Option_.clone o) = type_ o.
Proof. by destruct o. Qed.

Definition typed (c : coll) : Prop := Forall (fun p => type_ p.2 = p.1) c.

Lemma typed_find k c o : typed c -> mfind k c = Some o -> type_ o = k.
Proof.
  induction 1 as [|[j x] c Hx _ IH]; cbn [mfind]; [done|].
  destruct (Z.eqb_spec j k) as [<-|]; [intros [= <-]; done|done].
Qed.

Lemma copy_option_spec code req resp :
  typed (poptions_ req) -> P.getOption code resp = None ->
  exists q, Resp.copy_option code req resp = Ok q /\ same_header resp q /\
    forall k, P.getOption k q
      = if k =? code then Option_.clone <$> P.getOption code req else P.getOption k resp.
Proof.
  intros Ht Hn. unfold Resp.copy_option. destruct (P.getOption code req) as [o|] eqn:E.
  - pose proof (typed_find _ _ _ Ht E) as Ho.
    destruct (addOption_new (Option_.clone o) resp) as (q & Hq & Hh & Hk); [by rewrite type_clone, Ho|].
    exists q. split_and!; [done|done|]. intros k. by rewrite Hk, type_clone, Ho.
  - exists resp. split_and!; [done|done|]. intros k. destruct (Z.eqb_spec k code) as [->|]; done.
Qed.

(** ** The common part *)
Definition msg_type_opt (t : Z) : opt :=
  Opt DHO_DHCP_MESSAGE_TYPE [] (BInt Uint8 t) [] DHCP4_OPTION_SPACE.

Definition answers (t : Z) : option Z :=
  if t =? DHCPDISCOVER then Some DHCPOFFER
  else if (t =? DHCPREQUEST) || (t =? DHCPINFORM) then Some DHCPACK else None.

Definition echoed (k : Z) : bool :=
  (k =? DHO_DHCP_CLIENT_IDENTIFIER) || (k =? DHO_DHCP_AGENT_OPTIONS) || (k =? DHO_SUBNET_SELECTION).

(** The header fields an answer takes over from the query. *)
Record answers_query (req resp : Pkt) : Prop := MkAnswers {
  aq_op : op_ resp = BOOTREPLY;
  aq_xid : transid_ resp = transid_ req;
  aq_hops : hops_ resp = hops_ req;
  aq_chaddr : chaddr_ resp = chaddr_ req;
  aq_giaddr : giaddr_ resp = giaddr_ req;
  aq_iface : iface_ resp = iface_ req;
  aq_ifindex : ifindex_ resp = ifindex_ req;
  aq_secs : secs_ resp = 0;
  aq_sname : sname_ resp = replicate 64 0;
  aq_file : file_ resp = replicate 128 0;
  aq_buffer : buffer_out_ resp = OutputBuffer.Mk [] 0 0 }.

Lemma answers_make t rt x :
  answers t = Some rt -> P.make rt x = Ok ((P.blank BOOTREPLY x) <| poptions_ := [(DHO_DHCP_MESSAGE_TYPE, msg_type_opt rt)] |>).
Proof.
  unfold answers. intros H.
  assert (rt = DHCPOFFER \/ rt = DHCPACK) as [-> | ->]; [|done|done].
  destruct (t =? DHCPDISCOVER); [simplify_eq; auto|]. destruct (_ || _); simplify_eq; auto.
Qed.

Lemma copy_header_answers req rt x :
  let r := Resp.copy_header req
             ((P.blank BOOTREPLY x) <| poptions_ := [(DHO_DHCP_MESSAGE_TYPE, msg_type_opt rt)] |>) in
  x = transid_ req ->
  answers_query req r /\ flags_ r = flags_ req /\ siaddr_ r = V4 0 /\ ciaddr_ r = V4 0 /\
  yiaddr_ r = V4 0 /\
  (forall k, P.getOption k r = if k =? DHO_DHCP_MESSAGE_TYPE then Some (msg_type_opt rt) else None).
Proof.
  intros r ->. split; [split; reflexivity|]. split_and!; try reflexivity.
  intros k. unfold P.getOption. change (poptions_ r) with [(DHO_DHCP_MESSAGE_TYPE, msg_type_opt rt)].
  cbn [mfind]. by rewrite Z.eqb_sym.
Qed.

Lemma same_header_answers req p q : same_header p q -> answers_query req p -> answers_query req q.
Proof.
  intros Hh []. split; match goal with |- ?f ?r = _ => rewrite (same_header_get f _ r Hh) by done end; done.
Qed.

Lemma initResponse_spec req t rt :
  typed (poptions_ req) -> P.getType req = Ok t -> answers t = Some rt ->
  exists resp, Resp.initResponse req = Ok resp /\ answers_query req resp /\ flags_ resp = flags_ req /\
    siaddr_ resp = V4 0 /\ ciaddr_ resp = V4 0 /\ yiaddr_ resp = V4 0 /\
    forall k, P.getOption k resp
      = if k =? DHO_DHCP_MESSAGE_TYPE then Some (msg_type_opt rt)
        else if echoed k then Option_.clone <$> P.getOption k req else None.
Proof.
  intros Hty Ht Hrt. unfold Resp.initResponse. rewrite Ht, bind_Ok.
  assert ((if t =? DHCPDISCOVER then Ok DHCPOFFER
           else if (t =? DHCPREQUEST) || (t =? DHCPINFORM) then Ok DHCPACK else Crash) = Ok rt) as ->.
  { unfold answers in Hrt. destruct (t =? DHCPDISCOVER); [congruence|].
    destruct (_ || _); [congruence|done]. }
  rewrite bind_Ok, (answers_make t) by done. rewrite bind_Ok. cbv zeta.
  destruct (copy_header_answers req rt (transid_ req) eq_refl) as (Hr0 & Hf0 & Hs0 & Hc0 & Hy0 & H0).
  generalize dependent (Resp.copy_header req ((P.blank BOOTREPLY (transid_ req))
    <| poptions_ := [(DHO_DHCP_MESSAGE_TYPE, msg_type_opt rt)] |>)). intros r0 Hr0 Hf0 Hs0 Hc0 Hy0 H0.
  destruct (copy_option_spec DHO_DHCP_CLIENT_IDENTIFIER req r0 Hty) as (r1 & -> & Hh1 & H1); [by rewrite H0|].
  rewrite bind_Ok.
  destruct (copy_option_spec DHO_DHCP_AGENT_OPTIONS req r1 Hty) as (r2 & -> & Hh2 & H2); [by rewrite H1, H0|].
  rewrite bind_Ok.
  destruct (copy_option_spec DHO_SUBNET_SELECTION req r2 Hty) as (r3 & -> & Hh3 & H3); [by rewrite H2, H1, H0|].
  exists r3. assert (same_header r0 r3) as Hh by (etrans; [exact Hh1|]; etrans; [exact Hh2|done]).
  split; [done|].
  split; [by eapply same_header_answers|]. split_and!; try (hdr Hh).
  intros k. rewrite H3, H2, H1, H0. unfold echoed.
  destruct (Z.eqb_spec k DHO_DHCP_MESSAGE_TYPE) as [->|]; [done|].
  destruct (Z.eqb_spec k DHO_SUBNET_SELECTION) as [->|]; [done|].
  destruct (Z.eqb_spec k DHO_DHCP_AGENT_OPTIONS) as [->|]; [done|].
  destruct (Z.eqb_spec k DHO_DHCP_CLIENT_IDENTIFIER) as [->|]; done.
Qed.

(** ** Adding to the answer *)
Definition uint32_opt (code v : Z) : opt := Opt code [] (BInt Uint32 (u32 v)) [] DHCP4_OPTION_SPACE.

Lemma add_uint32_spec code v p :
  1 <= code <= 254 -> P.getOption code p = None ->
  exists q, Resp.add_uint32 code v p = Ok q /\ same_header p q /\
    forall k, P.getOption k q = if k =? code then Some (uint32_opt code v) else P.getOption k p.
Proof.
  intros Hc Hn. unfold Resp.add_uint32, OptionInt_make. rewrite make_ok, !bind_Ok by done.
  exact (addOption_new (uint32_opt code v) p Hn).
Qed.

Lemma add_configured_spec opt_data p code :
  typed opt_data ->
  exists q, Resp.add_configured opt_data p code = Ok q /\ same_header p q /\
    forall k, P.getOption k q
      = match P.getOption k p with
        | Some o => Some o
        | None => if k =? code then Option_.clone <$> mfind code opt_data else None
        end.
Proof.
  intros Ht. unfold Resp.add_configured. destruct (P.getOption code p) as [x|] eqn:E.
  - exists p. split_and!; [done|done|]. intros k. destruct (Z.eqb_spec k code) as [->|]; [by rewrite E|].
    by destruct (P.getOption k p).
  - destruct (mfind code opt_data) as [o|] eqn:Em.
    + pose proof (typed_find _ _ _ Ht Em) as Ho.
      destruct (addOption_new (Option_.clone o) p) as (q & Hq & Hh & Hk); [by rewrite type_clone, Ho|].
      exists q. split_and!; [done|done|]. intros k. rewrite Hk, type_clone, Ho.
      destruct (Z.eqb_spec k code) as [->|]; [by rewrite E|]. by destruct (P.getOption k p).
    + exists p. split_and!; [done|done|]. intros k. destruct (P.getOption k p); [done|].
      by destruct (k =? code).
Qed.

Lemma configured_fold_spec opt_data codes p :
  typed opt_data ->
  exists q, foldM (Resp.add_configured opt_data) p codes = Ok q /\ same_header p q /\
    forall k, P.getOption k q
      = match P.getOption k p with
        | Some o => Some o
        | None => if bool_decide (k ∈ codes) then Option_.clone <$> mfind k opt_data else None
        end.
Proof.
  intros Ht. revert p. induction codes as [|c codes IH]; intros p; cbn [foldM].
  - exists p. split_and!; [done|done|]. intros k. by destruct (P.getOption k p).
  - destruct (add_configured_spec opt_data p c Ht) as (q & -> & Hh & Hk). rewrite bind_Ok.
    destruct (IH q) as (r & -> & Hhr & Hkr). exists r. split_and!; [done|by etrans|].
    intros k. rewrite Hkr, Hk. destruct (P.getOption k p); [done|].
    destruct (Z.eqb_spec k c) as [->|Hne].
    + rewrite (bool_decide_true (c ∈ c :: codes)) by constructor. destruct (mfind c opt_data); cbn; [done|].
      by destruct (bool_decide _).
    + assert (bool_decide (k ∈ c :: codes) = bool_decide (k ∈ codes)) as ->; [|done].
      apply bool_decide_ext. rewrite elem_of_cons. split; [intros [?|?]; [congruence|done]|by right].
Qed.

(** *** Lease times *)
Definition times_view (v : Z) (subnet : Subnet) (k : Z) : option opt :=
  if k =? DHO_DHCP_LEASE_TIME then Some (uint32_opt k v)
  else if (k =? DHO_DHCP_RENEWAL_TIME) && negb (unspecified_ (t1_ subnet)) then Some (uint32_opt k (Z.quot v 2))
  else if (k =? DHO_DHCP_REBINDING_TIME) && negb (unspecified_ (t2_ subnet)) then Some (uint32_opt k (Z.quot (v * 3) 4))
  else None.

(** The times are computed without overflow. *)
Definition lifetime_ok (v : Z) : Prop := 0 <= v * 3 < 2^31.

Lemma append_times_spec query p subnet :
  let v := Resp.valid_lifetime query subnet in
  lifetime_ok v ->
  (forall k, k ∈ [DHO_DHCP_LEASE_TIME; DHO_DHCP_RENEWAL_TIME; DHO_DHCP_REBINDING_TIME] -> P.getOption k p = None) ->
  exists q, Resp.append_times query p subnet = Ok q /\ same_header p q /\
    forall k, P.getOption k q
      = match times_view v subnet k with Some o => Some o | None => P.getOption k p end.
Proof.
  intros v Hv Hn. unfold Resp.append_times. fold v.
  destruct (add_uint32_spec DHO_DHCP_LEASE_TIME v p) as (q1 & -> & Hh1 & H1); [done|apply Hn; set_solver|].
  rewrite bind_Ok.
  assert (exists q2, (if negb (unspecified_ (t1_ subnet))
      then Resp.add_uint32 DHO_DHCP_RENEWAL_TIME (Z.quot v 2) q1 else Ok q1) = Ok q2 /\ same_header q1 q2 /\
      forall k, P.getOption k q2 = if (k =? DHO_DHCP_RENEWAL_TIME) && negb (unspecified_ (t1_ subnet))
        then Some (uint32_opt DHO_DHCP_RENEWAL_TIME (Z.quot v 2)) else P.getOption k q1) as (q2 & -> & Hh2 & H2).
  { destruct (unspecified_ (t1_ subnet)); cbn [negb].
    - exists q1. split_and!; [done|done|]. intros k. by rewrite andb_false_r.
    - destruct (add_uint32_spec DHO_DHCP_RENEWAL_TIME (Z.quot v 2) q1) as (q2 & -> & Hh2 & H2);
        [done|rewrite H1; apply Hn; set_solver|]. exists q2. split_and!; [done|done|].
      intros k. by rewrite andb_true_r. }
  rewrite bind_Ok. unfold times_view.
  assert (Resp.three_quarters v = Ok (Z.quot (v * 3) 4)) as H34.
  { unfold Resp.three_quarters, lifetime_ok in *.
    replace ((-(2^31) <=? v * 3) && (v * 3 <? 2^31)) with true by lia. done. }
  destruct (unspecified_ (t2_ subnet)); cbn [negb].
  - exists q2. split_and!; [done|by etrans|]. intros k. rewrite H2, H1, andb_false_r.
    destruct (Z.eqb_spec k DHO_DHCP_LEASE_TIME) as [->|]; [done|].
    destruct (Z.eqb_spec k DHO_DHCP_RENEWAL_TIME) as [->|]; [by destruct (unspecified_ _)|done].
  - rewrite H34, bind_Ok.
    destruct (add_uint32_spec DHO_DHCP_REBINDING_TIME (Z.quot (v * 3) 4) q2) as (q3 & -> & Hh3 & H3);
      [done|rewrite H2, H1; apply Hn; set_solver|].
    exists q3. split_and!; [done|etrans; [exact Hh1|]; by etrans|]. intros k. rewrite H3, H2, H1, andb_true_r.
    destruct (Z.eqb_spec k DHO_DHCP_LEASE_TIME) as [->|]; [done|].
    destruct (Z.eqb_spec k DHO_DHCP_RENEWAL_TIME) as [->|]; [by destruct (unspecified_ _)|].
    destruct (Z.eqb_spec k DHO_DHCP_REBINDING_TIME) as [->|]; done.
Qed.

(** ** The destination (RFC 2131, section 4.1) *)
Section Destination.
Variables (direct : bool) (query : Pkt) (qt rt : Z) (yiaddr : IOAddress).

Definition broadcast_flag : bool := negb (Z.land (flags_ query) FLAG_BROADCAST_MASK =? 0).

Inductive goes_to : IOAddress -> Prop :=
| to_inform_client : qt = DHCPINFORM -> ciaddr_ query <> V4 0 -> goes_to (ciaddr_ query)
| to_relay : P.isRelayed query = true -> (qt = DHCPINFORM -> ciaddr_ query = V4 0) -> goes_to (giaddr_ query)
| to_renewing : qt <> DHCPINFORM -> P.isRelayed query = false -> ciaddr_ query <> V4 0 ->
    goes_to (ciaddr_ query)
| to_all_nak : qt <> DHCPINFORM -> P.isRelayed query = false -> ciaddr_ query = V4 0 -> rt = DHCPNAK ->
    goes_to Resp.BCAST
| to_all : qt <> DHCPINFORM -> P.isRelayed query = false -> ciaddr_ query = V4 0 -> rt <> DHCPNAK ->
    yiaddr <> V4 0 -> direct = false \/ broadcast_flag = true -> goes_to Resp.BCAST
| to_new_address : qt <> DHCPINFORM -> P.isRelayed query = false -> ciaddr_ query = V4 0 -> rt <> DHCPNAK ->
    yiaddr <> V4 0 -> direct = true -> broadcast_flag = false -> goes_to yiaddr
| to_sender : P.isRelayed query = false -> ciaddr_ query = V4 0 ->
    (qt <> DHCPINFORM -> rt <> DHCPNAK /\ yiaddr = V4 0) -> goes_to (remote_addr_ query).

End Destination.

Lemma isV4Zero_spec a : IOAddr.isV4Zero a = true <-> a = V4 0.
Proof. unfold IOAddr.isV4Zero. apply equals_true. Qed.

Lemma isV4Zero_false a : IOAddr.isV4Zero a = false <-> a <> V4 0.
Proof. rewrite <- isV4Zero_spec. by destruct (IOAddr.isV4Zero a). Qed.

(** Only the destination and, for a relayed INFORM, the broadcast bit change. *)
Lemma adjustRemoteAddr_spec direct query resp qt rt :
  P.getType query = Ok qt -> P.getType resp = Ok rt ->
  exists a f, Resp.adjustRemoteAddr direct query resp = Ok (resp <| remote_addr_ := a |> <| flags_ := f |>) /\
    goes_to direct query qt rt (yiaddr_ resp) a /\
    (f = flags_ resp \/ f = u16 (Z.lor (flags_ resp) BOOTP_BROADCAST)).
Proof.
  intros Hq Hr. unfold Resp.adjustRemoteAddr. rewrite Hq, bind_Ok.
  assert (forall a, resp <| remote_addr_ := a |> <| flags_ := flags_ resp |> = resp <| remote_addr_ := a |>) as Hid
    by done.
  assert (forall a, goes_to direct query qt rt (yiaddr_ resp) a ->
    exists a0 f, Ok (resp <| remote_addr_ := a |>) = Ok (resp <| remote_addr_ := a0 |> <| flags_ := f |>) /\
      goes_to direct query qt rt (yiaddr_ resp) a0 /\
      (f = flags_ resp \/ f = u16 (Z.lor (flags_ resp) BOOTP_BROADCAST))) as Hk.
  { intros a Ha. exists a, (flags_ resp). rewrite Hid. auto. }
  destruct (Z.eqb_spec qt DHCPINFORM) as [Hi|Hi].
  - destruct (IOAddr.isV4Zero (ciaddr_ query)) eqn:Ec; cbn [negb].
    + apply isV4Zero_spec in Ec. destruct (P.isRelayed query) eqn:Er.
      * exists (giaddr_ query), (u16 (Z.lor (flags_ resp) BOOTP_BROADCAST)). split; [done|]. split; [|by right].
        by apply to_relay.
      * apply Hk. apply to_sender; [done..|]. by intros.
    + apply isV4Zero_false in Ec. apply Hk. by apply to_inform_client.
  - destruct (P.isRelayed query) eqn:Er; cbn [andb].
    { apply Hk. by apply to_relay. }
    destruct (IOAddr.isV4Zero (ciaddr_ query)) eqn:Ec; cbn [negb].
    2:{ apply isV4Zero_false in Ec. apply Hk. by apply to_renewing. }
    apply isV4Zero_spec in Ec. rewrite Hr, bind_Ok. destruct (Z.eqb_spec rt DHCPNAK) as [Hn|Hn].
    { apply Hk. by apply to_all_nak. }
    destruct (IOAddr.isV4Zero (yiaddr_ resp)) eqn:Ey; cbn [negb].
    { apply isV4Zero_spec in Ey. apply Hk. by apply to_sender. }
    apply isV4Zero_false in Ey. fold (broadcast_flag query).
    destruct direct, (broadcast_flag query) eqn:Eb; cbn [negb orb]; apply Hk;
      [apply to_all|apply to_new_address|apply to_all|apply to_all]; auto.
Qed.

(** ** Whole answers *)
Definition local_of (ifmgr : IfaceMgr) (query : Pkt) : result IOAddress :=
  if IOAddr.isV4Bcast (local_addr_ query)
  then sock_info ← Mgr.getSocket query ifmgr; Ok (so_addr_ sock_info)
  else Ok (local_addr_ query).

Definition server_id_opt (a : IOAddress) : opt := Opt DHO_DHCP_SERVER_IDENTIFIER [] (BAddrLst [a]) [] "".

(** The transport part of an answer. *)
Record addressed (ifmgr : IfaceMgr) (query : Pkt) (qt rt : Z) (local : IOAddress) (resp : Pkt) : Prop := MkAddressed {
  ad_remote : goes_to (isDirectResponseSupported (packet_filter_ ifmgr)) query qt rt (yiaddr_ resp) (remote_addr_ resp);
  ad_rport : remote_port_ resp = if P.isRelayed query then DHCP4_SERVER_PORT else DHCP4_CLIENT_PORT;
  ad_local : local_addr_ resp = local;
  ad_lport : local_port_ resp = local_port_ query }.

Lemma answers_query_set req p a f po la lp i n :
  answers_query req p -> iface_ req = i -> ifindex_ req = n ->
  answers_query req (p <| remote_addr_ := a |> <| flags_ := f |> <| remote_port_ := po |>
    <| local_addr_ := la |> <| local_port_ := lp |> <| iface_ := i |> <| ifindex_ := n |>).
Proof. intros [] Hi Hn. split; done. Qed.

Lemma appendIfaceData_spec ifmgr req query resp qt rt v :
  P.getType query = Ok qt -> P.getType resp = Ok rt ->
  local_of ifmgr query = Ok (V4 v) ->
  P.getOption DHO_DHCP_SERVER_IDENTIFIER resp = None ->
  answers_query req resp -> iface_ query = iface_ req -> ifindex_ query = ifindex_ req ->
  exists q, Resp.appendIfaceData ifmgr query resp = Ok q /\ answers_query req q /\
    addressed ifmgr query qt rt (V4 v) q /\
    yiaddr_ q = yiaddr_ resp /\ ciaddr_ q = ciaddr_ resp /\ siaddr_ q = siaddr_ resp /\
    forall k, P.getOption k q = if k =? DHO_DHCP_SERVER_IDENTIFIER then Some (server_id_opt (V4 v)) else P.getOption k resp.
Proof.
  intros Hq Hr Hl Hn Ha Hi Hx. unfold Resp.appendIfaceData.
  destruct (adjustRemoteAddr_spec (isDirectResponseSupported (packet_filter_ ifmgr)) query resp qt rt Hq Hr)
    as (a & f & -> & Hto & Hf). rewrite bind_Ok. unfold local_of in Hl.
  match goal with |- context [mbind _ (if _ then ?x else ?y)] => change (if IOAddr.isV4Bcast (local_addr_ query) then x else y)
    with (if IOAddr.isV4Bcast (local_addr_ query)
      then sock_info ← Mgr.getSocket query ifmgr; Ok (so_addr_ sock_info) else Ok (local_addr_ query)) end.
  rewrite Hl, bind_Ok. cbv zeta.
  match goal with |- context [P.addOption _ ?p] => set (r := p) end.
  assert (Option4AddrLst_make DHO_DHCP_SERVER_IDENTIFIER (local_addr_ r) = Ok (server_id_opt (V4 v))) as -> by done.
  rewrite bind_Ok.
  assert (forall k, P.getOption k r = P.getOption k resp) as Hk by done.
  assert (answers_query req r) as Hra by (apply answers_query_set; done).
  assert (yiaddr_ r = yiaddr_ resp /\ ciaddr_ r = ciaddr_ resp /\ siaddr_ r = siaddr_ resp /\
    remote_addr_ r = a /\ local_addr_ r = V4 v /\ local_port_ r = local_port_ query /\
    remote_port_ r = (if P.isRelayed query then DHCP4_SERVER_PORT else DHCP4_CLIENT_PORT))
    as (E1 & E2 & E3 & E4 & E5 & E6 & E7) by done.
  clearbody r.
  destruct (addOption_new (server_id_opt (V4 v)) r) as (q & -> & Hh & Hkq); [by rewrite Hk|].
  exists q. split_and!; [done|by eapply same_header_answers| | | | |].
  - split.
    + rewrite (same_header_get remote_addr_ _ q Hh), (same_header_get yiaddr_ _ q Hh), E4, E1 by done. done.
    + hdr Hh.
    + hdr Hh.
    + hdr Hh.
  - rewrite <- E1. hdr Hh.
  - rewrite <- E2. hdr Hh.
  - rewrite <- E3. hdr Hh.
  - intros k. rewrite Hkq. cbn [server_id_opt type_]. by rewrite Hk.
Qed.

Lemma getType_of_opt p t :
  P.getOption DHO_DHCP_MESSAGE_TYPE p = Some (msg_type_opt t) -> P.getType p = Ok t.
Proof. intros H. unfold P.getType. by rewrite H. Qed.

Lemma mfind_mreplace k o c k' :
  mfind k' (mreplace k o c) = if (k' =? k) && match mfind k c with Some _ => true | None => false end
                              then Some o else mfind k' c.
Proof.
  induction c as [|[j x] c IH]; cbn [mfind mreplace]; [by rewrite andb_false_r|].
  destruct (Z.eqb_spec j k) as [->|Hjk]; cbn [mfind].
  - rewrite andb_true_r, (Z.eqb_sym k k'). by destruct (k' =? k).
  - rewrite IH. destruct (Z.eqb_spec j k') as [->|]; [|done].
    by rewrite (proj2 (Z.eqb_neq k' k)).
Qed.

Lemma setType_spec p t t' :
  P.getOption DHO_DHCP_MESSAGE_TYPE p = Some (msg_type_opt t) -> 0 <= t' < 256 ->
  exists q, P.setType t' p = Ok q /\ same_header p q /\
    forall k, P.getOption k q = if k =? DHO_DHCP_MESSAGE_TYPE then Some (msg_type_opt t') else P.getOption k p.
Proof.
  intros Hm Ht. unfold P.setType. rewrite Hm. cbn [body_ msg_type_opt set_body].
  rewrite bind_Ok, u8_small by done. eexists. split; [done|]. split; [by destruct p|].
  intros k. unfold P.getOption in *. etrans; [apply mfind_mreplace|]. by rewrite Hm, andb_true_r.
Qed.

Lemma genNakResponse_spec ifmgr query qt rt v :
  typed (poptions_ query) -> P.getType query = Ok qt -> answers qt = Some rt ->
  local_of ifmgr query = Ok (V4 v) ->
  exists q, Resp.genNakResponse ifmgr query = Ok q /\ answers_query query q /\
    addressed ifmgr query qt DHCPNAK (V4 v) q /\
    yiaddr_ q = V4 0 /\ ciaddr_ q = V4 0 /\ siaddr_ q = V4 0 /\
    forall k, P.getOption k q
      = if k =? DHO_DHCP_SERVER_IDENTIFIER then Some (server_id_opt (V4 v))
        else if k =? DHO_DHCP_MESSAGE_TYPE then Some (msg_type_opt DHCPNAK)
        else if echoed k then Option_.clone <$> P.getOption k query else None.
Proof.
  intros Hty Hq Hrt Hl. unfold Resp.genNakResponse.
  destruct (initResponse_spec query qt rt Hty Hq Hrt) as (r & -> & Ha & _ & Hs & Hc & _ & Hk). rewrite bind_Ok.
  destruct (setType_spec r rt DHCPNAK) as (r1 & -> & Hh & Hk1); [by rewrite Hk|done|]. rewrite bind_Ok.
  assert (answers_query query r1) as Ha1 by (by eapply same_header_answers).
  assert (ciaddr_ r1 = V4 0 /\ siaddr_ r1 = V4 0) as [Hc1 Hs1] by (split; hdr Hh). clear Hh.
  destruct (appendIfaceData_spec ifmgr query query (r1 <| yiaddr_ := IOAddr.of_uint32 0 |>) qt DHCPNAK v)
    as (q & -> & Haq & Had & Ey & Ec & Es & Hkq); [done| |done| | |done..|].
  - apply getType_of_opt. change (P.getOption DHO_DHCP_MESSAGE_TYPE r1 = Some (msg_type_opt DHCPNAK)). by rewrite Hk1.
  - change (P.getOption DHO_DHCP_SERVER_IDENTIFIER r1 = None). rewrite Hk1, Hk. done.
  - destruct Ha1. by split.
  - exists q. split_and!; [done|done|done|by rewrite Ey|by rewrite Ec|by rewrite Es|].
    intros k. rewrite Hkq.
    change (P.getOption k (r1 <| yiaddr_ := IOAddr.of_uint32 0 |>)) with (P.getOption k r1). rewrite Hk1, Hk.
    destruct (k =? DHO_DHCP_SERVER_IDENTIFIER); [done|]. by destruct (k =? DHO_DHCP_MESSAGE_TYPE).
Qed.

(** *** Positive answers *)
Definition requested (query : Pkt) : list Z :=
  match P.getOption DHO_DHCP_PARAMETER_REQUEST_LIST query with
  | Some o => match body_ o with BIntArray Uint8 l => l | _ => [] end
  | None => []
  end.

Definition netmask (len : Z) : Z := 2^32 - 2^(32 - len).

Lemma getNetmask4_spec len : 0 <= len <= 32 -> getNetmask4 len = Ok (V4 (netmask len)).
Proof.
  intros Hl. unfold getNetmask4, netmask. rewrite (proj2 (Z.leb_le _ _)) by lia. cbn [assert_].
  rewrite bind_Ok, bitMask4_spec, bind_Ok by done. unfold IOAddr.of_uint32. do 2 f_equal.
  assert (0 < 2^(32 - len)) by (apply Z.pow_pos_nonneg; lia).
  assert (2^(32 - len) <= 2^32) by (apply Z.pow_le_mono_r; lia).
  unfold u32, Z.lnot. rewrite Z.mod_mod by lia.
  replace (Z.pred (- (2^(32 - len) - 1))) with (2^32 - 2^(32-len) + (-1) * 2^32) by lia.
  rewrite Z.mod_add by lia. apply Z.mod_small. lia.
Qed.

(** What the subnet must satisfy for every answer to be built: its options are
    stored under their own codes, do not preset the server identifier, and the
    lifetime can be multiplied by three in an [int]. *)
Record subnet_serves (query : Pkt) (subnet : Subnet) : Prop := MkServes {
  sv_len : 0 <= prefix_len_ subnet <= 32;
  sv_typed : typed (opt_data_ subnet);
  sv_no_id : mfind DHO_DHCP_SERVER_IDENTIFIER (opt_data_ subnet) = None;
  sv_time : lifetime_ok (Resp.valid_lifetime query subnet) }.

(** The option under code [k] of a positive answer. *)
Definition ack_view (query : Pkt) (subnet : Subnet) (qt rt k : Z) : option opt :=
  if k =? DHO_DHCP_MESSAGE_TYPE then Some (msg_type_opt rt)
  else if echoed k && bool_decide (is_Some (P.getOption k query)) then Option_.clone <$> P.getOption k query
  else if negb (qt =? DHCPINFORM) && bool_decide (is_Some (times_view (Resp.valid_lifetime query subnet) subnet k))
  then times_view (Resp.valid_lifetime query subnet) subnet k
  else if k =? DHO_SUBNET_MASK then Some (uint32_opt k (netmask (prefix_len_ subnet)))
  else if bool_decide (k ∈ Resp.required_options ++ requested query) then Option_.clone <$> mfind k (opt_data_ subnet)
  else None.

Lemma appendRequested_fold query resp subnet :
  Resp.appendRequestedOptions query resp subnet
  = foldM (Resp.add_configured (opt_data_ subnet)) resp (requested query).
Proof.
  unfold Resp.appendRequestedOptions, requested. destruct (P.getOption _ query) as [o|]; [|done].
  destruct (body_ o); try done. by destruct t.
Qed.

(** What [initResponse] leaves under a code. *)
Definition init_view (query : Pkt) (rt k : Z) : option opt :=
  if k =? DHO_DHCP_MESSAGE_TYPE then Some (msg_type_opt rt)
  else if echoed k then Option_.clone <$> P.getOption k query else None.

Definition basic_view (query : Pkt) (subnet : Subnet) (qt rt k : Z) : option opt :=
  if k =? DHO_SUBNET_MASK then Some (uint32_opt k (netmask (prefix_len_ subnet)))
  else if negb (qt =? DHCPINFORM) && bool_decide (is_Some (times_view (Resp.valid_lifetime query subnet) subnet k))
  then times_view (Resp.valid_lifetime query subnet) subnet k
  else init_view query rt k.

Lemma times_view_code v s k :
  is_Some (times_view v s k) -> k = DHO_DHCP_LEASE_TIME \/ k = DHO_DHCP_RENEWAL_TIME \/ k = DHO_DHCP_REBINDING_TIME.
Proof.
  unfold times_view. intros [o H].
  destruct (Z.eqb_spec k DHO_DHCP_LEASE_TIME); [auto|].
  destruct (Z.eqb_spec k DHO_DHCP_RENEWAL_TIME); [auto|].
  destruct (Z.eqb_spec k DHO_DHCP_REBINDING_TIME); [auto|done].
Qed.

Lemma appendBasicOptions_spec query resp subnet qt rt :
  P.getType query = Ok qt -> subnet_serves query subnet -> answers_query query resp ->
  (forall k, P.getOption k resp = init_view query rt k) ->
  exists q, Resp.appendBasicOptions query resp subnet = Ok q /\ answers_query query q /\
    yiaddr_ q = yiaddr_ resp /\ siaddr_ q = siaddr4_ subnet /\
    ciaddr_ q = (if qt =? DHCPDISCOVER then ciaddr_ resp else ciaddr_ query) /\
    forall k, P.getOption k q
      = match basic_view query subnet qt rt k with
        | Some o => Some o
        | None => if bool_decide (k ∈ Resp.required_options) then Option_.clone <$> mfind k (opt_data_ subnet) else None
        end.
Proof.
  intros Hq [Hlen Hty Hid Hv] Ha Hk. unfold Resp.appendBasicOptions. rewrite Hq, bind_Ok. cbv zeta.
  set (r := if negb (qt =? DHCPDISCOVER) then _ else _).
  assert (answers_query query r) as Har by (unfold r; destruct (negb _); destruct Ha; by split).
  assert (yiaddr_ r = yiaddr_ resp /\ siaddr_ r = siaddr4_ subnet /\
    ciaddr_ r = (if qt =? DHCPDISCOVER then ciaddr_ resp else ciaddr_ query)) as (Ey & Es & Ec)
    by (unfold r; by destruct (qt =? DHCPDISCOVER)).
  assert (forall k, P.getOption k r = init_view query rt k) as Hkr
    by (intros k; rewrite <- Hk; unfold r; by destruct (negb _)).
  clearbody r.
  assert (exists r1, (if negb (qt =? DHCPINFORM) then Resp.append_times query r subnet else Ok r) = Ok r1 /\
    same_header r r1 /\ forall k, P.getOption k r1
      = if negb (qt =? DHCPINFORM) && bool_decide (is_Some (times_view (Resp.valid_lifetime query subnet) subnet k))
        then times_view (Resp.valid_lifetime query subnet) subnet k else init_view query rt k) as (r1 & -> & Hh1 & H1).
  { destruct (negb (qt =? DHCPINFORM)); cbn [andb]; [|by exists r].
    destruct (append_times_spec query r subnet Hv) as (r1 & -> & Hh1 & H1).
    - intros k Hin. rewrite Hkr. unfold init_view, echoed.
      repeat (apply elem_of_cons in Hin as [->|Hin]; [done|]). by apply elem_of_nil in Hin.
    - exists r1. split_and!; [done|done|]. intros k. rewrite H1, Hkr.
      destruct (times_view _ _ k) eqn:E.
      + by rewrite bool_decide_true by eauto.
      + rewrite bool_decide_false; [done|]. by intros [? ?]. }
  rewrite bind_Ok, getNetmask4_spec, bind_Ok by done. cbn [IOAddr.to_uint32]. rewrite bind_Ok.
  destruct (add_uint32_spec DHO_SUBNET_MASK (netmask (prefix_len_ subnet)) r1) as (r2 & -> & Hh2 & H2); [done| |].
  { rewrite H1. destruct (negb (qt =? DHCPINFORM)); cbn [andb]; done. }
  rewrite bind_Ok.
  destruct (configured_fold_spec (opt_data_ subnet) Resp.required_options r2 Hty) as (q & -> & Hh3 & H3).
  assert (same_header r q) as Hh by (etrans; [exact Hh1|]; by etrans).
  exists q. split_and!; [done|by eapply same_header_answers|rewrite <- Ey; hdr Hh|rewrite <- Es; hdr Hh|rewrite <- Ec; hdr Hh|].
  intros k. rewrite H3, H2, H1. unfold basic_view. destruct (Z.eqb_spec k DHO_SUBNET_MASK) as [->|]; done.
Qed.

Lemma times_view_other v s k :
  ~ (k = DHO_DHCP_LEASE_TIME \/ k = DHO_DHCP_RENEWAL_TIME \/ k = DHO_DHCP_REBINDING_TIME) ->
  bool_decide (is_Some (times_view v s k)) = false.
Proof. intros Hk. apply bool_decide_false. by intros ?%times_view_code. Qed.

(** The three layers of options amount to [ack_view]. *)
Lemma ack_view_layers query subnet qt rt k :
  match match basic_view query subnet qt rt k with
        | Some o => Some o
        | None => if bool_decide (k ∈ Resp.required_options) then Option_.clone <$> mfind k (opt_data_ subnet) else None
        end with
  | Some o => Some o
  | None => if bool_decide (k ∈ requested query) then Option_.clone <$> mfind k (opt_data_ subnet) else None
  end = ack_view query subnet qt rt k.
Proof.
  assert (forall m : option opt,
    match (if bool_decide (k ∈ Resp.required_options) then m else None) with
    | Some o => Some o | None => if bool_decide (k ∈ requested query) then m else None end
    = if bool_decide (k ∈ Resp.required_options ++ requested query) then m else None) as Hor.
  { intros m. case_bool_decide as H1; case_bool_decide as H2; case_bool_decide as H3; rewrite elem_of_app in *;
      destruct m; try done; exfalso; tauto. }
  unfold ack_view, basic_view, init_view.
  destruct (Z.eqb_spec k DHO_DHCP_MESSAGE_TYPE) as [->|H53].
  { by rewrite times_view_other, andb_false_r by (by intros [?|[?|?]]). }
  destruct (echoed k) eqn:Ee; cbn [andb].
  - assert (k = DHO_DHCP_CLIENT_IDENTIFIER \/ k = DHO_DHCP_AGENT_OPTIONS \/ k = DHO_SUBNET_SELECTION) as Hk
      by (unfold echoed in Ee; lia).
    rewrite (times_view_other _ _ k), andb_false_r by (destruct Hk as [->|[->| ->]]; by intros [?|[?|?]]).
    rewrite (proj2 (Z.eqb_neq k DHO_SUBNET_MASK)) by (destruct Hk as [->|[->| ->]]; done).
    destruct (P.getOption k query); cbn [fmap option_fmap option_map]; [by rewrite bool_decide_true by eauto|].
    rewrite (bool_decide_false (is_Some None)) by (by intros [? ?]). apply Hor.
  - destruct (Z.eqb_spec k DHO_SUBNET_MASK) as [->|].
    { by rewrite times_view_other, andb_false_r by (by intros [?|[?|?]]). }
    destruct (negb (qt =? DHCPINFORM) && bool_decide (is_Some _)) eqn:Et; [|apply Hor].
    apply andb_true_iff in Et as [_ [o Ho]%bool_decide_eq_true]. by rewrite Ho.
Qed.

Lemma genAckResponse_spec ifmgr query ip subnet qt rt v :
  typed (poptions_ query) -> P.getType query = Ok qt -> answers qt = Some rt ->
  subnet_serves query subnet -> local_of ifmgr query = Ok (V4 v) ->
  exists q, Resp.genAckResponse ifmgr query ip subnet = Ok q /\ answers_query query q /\
    addressed ifmgr query qt rt (V4 v) q /\
    yiaddr_ q = ip /\ siaddr_ q = siaddr4_ subnet /\
    ciaddr_ q = (if qt =? DHCPDISCOVER then V4 0 else ciaddr_ query) /\
    forall k, P.getOption k q
      = if k =? DHO_DHCP_SERVER_IDENTIFIER then Some (server_id_opt (V4 v)) else ack_view query subnet qt rt k.
Proof.
  intros Hty Hq Hrt Hs Hl. pose proof (sv_typed _ _ Hs) as Hsty. unfold Resp.genAckResponse.
  destruct (initResponse_spec query qt rt Hty Hq Hrt) as (r & -> & Ha & _ & _ & Hc & _ & Hk). rewrite bind_Ok. cbv zeta.
  destruct (appendBasicOptions_spec query (r <| yiaddr_ := ip |>) subnet qt rt Hq Hs)
    as (r1 & -> & Ha1 & Ey & Es & Ec & H1); [destruct Ha; by split|exact Hk|]. rewrite bind_Ok, appendRequested_fold.
  change (yiaddr_ (r <| yiaddr_ := ip |>)) with ip in Ey.
  change (ciaddr_ (r <| yiaddr_ := ip |>)) with (ciaddr_ r) in Ec. rewrite Hc in Ec.
  destruct (configured_fold_spec (opt_data_ subnet) (requested query) r1 Hsty) as (r2 & -> & Hh2 & H2).
  rewrite bind_Ok.
  destruct (appendIfaceData_spec ifmgr query query r2 qt rt v) as (q & -> & Haq & Had & Ey' & Ec' & Es' & Hkq);
    [done| |done| |by eapply same_header_answers|done..|].
  - apply getType_of_opt. rewrite H2, H1. unfold basic_view.
    by rewrite times_view_other, andb_false_r by (by intros [?|[?|?]]).
  - rewrite H2, H1, (sv_no_id _ _ Hs). unfold basic_view.
    rewrite times_view_other, andb_false_r by (by intros [?|[?|?]]). cbn. by repeat case_bool_decide.
  - exists q. split_and!; [done|done|done| | | |].
    + rewrite Ey', <- Ey. hdr Hh2.
    + rewrite Es', <- Es. hdr Hh2.
    + rewrite Ec', <- Ec. hdr Hh2.
    + intros k. rewrite Hkq. destruct (k =? DHO_DHCP_SERVER_IDENTIFIER); [done|]. rewrite H2, H1. apply ack_view_layers.
Qed.
