(* ===== verification/QueryFacts.v ===== *)
(** What is known of a query once [Pkt::unpack] has accepted it: every option
    is filed under its own code, and the options the server reads (message
    type, requested address, server identifier, subnet selection) have the
    shape their standard definitions promise. *)
From stdpp Require Import base list numbers option strings gmap.
From Stdlib Require Import ZArith Lia.
From S2P Require Import Prelude Buffer HwAddr Address DnsName DnsNameFacts OptionDef Options.
From S2P Require Import OptionsFacts OptionsPack OptionsRoundTrip Pkt PktFacts Nic Subnet ResponseGen.
From S2P Require Import ResponseFacts.

(** ** Where parsed options come from *)
Section Origin.
Variables (lib : LibDHCP) (space : string) (Q : Z * opt -> Prop).
Hypothesis parsed : forall fuel k data o,
  byte_ok k -> bytes_ok data -> zlen data <= 255 -> parse_one lib fuel space k data = Ok o -> Q (k, o).

Lemma Forall_minsert k o c : Q (k, o) -> Forall Q c -> Forall Q (minsert k o c).
Proof.
  intros Hk. induction 1 as [|[j x] c Hx Hc IH]; cbn [minsert]; [by constructor|].
  destruct (k <? j); by repeat constructor.
Qed.

Lemma options4_all fuel buf off c off' c' :
  bytes_ok buf -> options4_loop lib fuel buf space off c = Ok (off', c') -> Forall Q c -> Forall Q c'.
Proof.
  intros Hb. revert off c. induction fuel as [|fuel IH]; intros off c H Hc; [done|]. cbn [options4_loop] in H.
  destruct (negb _); [by simplify_eq|]. apply bind_ok in H as (k & Hk & H). cbv zeta in H.
  apply zget_byte in Hk; [|done].
  destruct (k =? DHO_END); [by simplify_eq|]. destruct (k =? DHO_PAD); [by apply IH in H|].
  destruct (_ <? _); [by simplify_eq|]. apply bind_ok in H as (n & Hn & H). apply zget_byte in Hn; [|done].
  destruct (_ <? _); [by simplify_eq|]. apply bind_ok in H as (data & Hd & H).
  apply bind_ok in H as (c1 & H1 & H). apply IH in H; [done|]. clear H.
  assert (bytes_ok data /\ zlen data <= 255) as [Hdb Hdl].
  { pose proof (slice_facts _ _ _ _ Hd). unfold byte_ok in *. intuition lia. }
  match type of H1 with try_kea (?m ≫= _) _ = _ => change m with (parse_one lib fuel space k data) in H1 end.
  destruct (parse_one lib fuel space k data) as [o|e| |] eqn:Ep; cbn in H1; simplify_eq; try done.
  - apply Forall_minsert; [|done]. by eapply parsed.
  - destruct (is_kea e); by simplify_eq.
Qed.

Lemma unpackOptions4_all buf off c :
  bytes_ok buf -> unpackOptions4 lib buf space [] = Ok (off, c) -> Forall Q c.
Proof. intros Hb H. by eapply options4_all. Qed.

End Origin.

(** ** The dynamic class a factory builds *)
Section FactoryShape.
Variables (U : list Z -> string -> coll -> result (Z * coll)) (V : Z -> list Z -> coll -> result (Z * coll)).

Ltac inv_ok H :=
  repeat first
    [ apply bind_ok in H; destruct H as (? & ? & H)
    | match type of H with (let '(_, _) := ?p in _) = _ => destruct p end ];
  simplify_eq/=.

Lemma make_type t o : Option_.make t = Ok o -> type_ o = t.
Proof. unfold Option_.make. intros H. inv_ok H. done. Qed.

Lemma make_data_type t d o : Option_.make_data t d = Ok o -> type_ o = t.
Proof. unfold Option_.make_data. intros H. inv_ok H. done. Qed.

Lemma factoryInteger_type it t s d o : factoryInteger U it t s d = Ok o -> type_ o = t.
Proof. unfold factoryInteger. intros H. inv_ok H. by eapply make_type. Qed.

Lemma custom_type def d o : OptionCustom_make U def d = Ok o -> type_ o = code_ def.
Proof. unfold OptionCustom_make. intros H. inv_ok H. by eapply make_data_type. Qed.

Lemma factoryIntegerArray_type it t d o : factoryIntegerArray it t d = Ok o -> type_ o = t.
Proof. unfold factoryIntegerArray. intros H. inv_ok H. by eapply make_type. Qed.

Lemma factoryAddrList4_type t d o : 0 <= t < 256 -> factoryAddrList4 t d = Ok o -> type_ o = t.
Proof.
  intros Ht. unfold factoryAddrList4. rewrite u8_small by done. intros H. inv_ok H. by eapply make_type.
Qed.

Lemma factoryString_type t d o : factoryString t d = Ok o -> type_ o = t.
Proof. unfold factoryString. intros H. inv_ok H. by eapply make_type. Qed.

Lemma special_type def d r o :
  factorySpecialFormatOption V def d = Some r -> r = Ok o -> type_ o = code_ def.
Proof.
  unfold factorySpecialFormatOption. intros H ->.
  destruct (Z.eqb_spec (code_ def) DHO_FQDN) as [->|]; cbn [andb] in H.
  - destruct (OptionDef.haveFqdn4Format def); cbn [andb] in H; [|done]. injection H as H.
    unfold Fqdn.make in H. inv_ok H. match goal with E : Option_.make_data _ _ = Ok ?x |- _ => apply make_data_type in E; by destruct x end.
  - destruct (Z.eqb_spec (code_ def) DHO_VIVCO_SUBOPTIONS) as [->|]; cbn [andb] in H.
    + destruct (OptionDef.haveVendorClass4Format def); cbn [andb] in H; [|done]. injection H as H.
      unfold OptionVendorClass_make in H. inv_ok H. by eapply make_type.
    + destruct (Z.eqb_spec (code_ def) DHO_VIVSO_SUBOPTIONS) as [->|]; cbn [andb] in H; [|done].
      destruct (OptionDef.haveVendor4Format def); cbn [andb] in H; [|done]. injection H as H.
      unfold OptionVendor_make in H. inv_ok H. by eapply make_type.
Qed.

Lemma optionFactory_type def k d o :
  code_ def = k -> 0 <= k < 256 -> optionFactory U V def k d = Ok o -> type_ o = k.
Proof.
  intros Hc Hk. unfold optionFactory. destruct (factorySpecialFormatOption V def d) as [r|] eqn:Es.
  { intros ->. rewrite <- Hc. by eapply special_type. }
  cbv zeta. intros H.
  destruct (otype_ def); repeat (match type of H with (if ?b then _ else _) = _ => destruct b end);
    first [by apply factoryInteger_type in H|by apply factoryIntegerArray_type in H|
           by apply make_data_type in H|apply custom_type in H; congruence|
           by apply make_type in H|by apply factoryAddrList4_type in H|by apply factoryString_type in H].
Qed.

(** The raw data an option keeps are bytes of the message. *)
Lemma make_data_nil t o : Option_.make t = Ok o -> data_ o = [].
Proof. unfold Option_.make. intros H. by inv_ok H. Qed.

Lemma make_data_data t d o : Option_.make_data t d = Ok o -> o = Opt t d BPlain [] "" /\ zlen d <= 255.
Proof.
  unfold Option_.make_data, Option_.check. intros H. inv_ok H. split; [done|].
  match goal with E : (if _ then _ else _) = Ok _ |- _ => revert E end.
  cbn [type_ data_]. destruct (255 <? t); [done|]. intros E%throw_if_ok. lia.
Qed.

Lemma factory_data (R : list Z -> Prop) def k d o :
  R [] -> R d -> optionFactory U V def k d = Ok o -> R (data_ o).
Proof.
  intros Hn Hd. unfold optionFactory, factorySpecialFormatOption. cbv zeta. intros H.
  repeat (match type of H with
          | match (if ?b then _ else _) with _ => _ end = _ => destruct b
          | (if ?b then _ else _) = _ => destruct b
          | match otype_ def with _ => _ end = _ => destruct (otype_ def)
          end);
  unfold Fqdn.make, OptionVendorClass_make, OptionVendor_make, factoryInteger, factoryIntegerArray,
    factoryAddrList4, factoryString, factoryEmpty, factoryGeneric, OptionCustom_make in H; inv_ok H;
  try done;
  try (match goal with E : Option_.make_data _ _ = Ok _ |- _ => apply make_data_data in E as [-> _] end; done).
  all: match goal with E : Option_.make _ = Ok _ |- _ => by rewrite (make_data_nil _ _ E) end.
Qed.

End FactoryShape.

(** ** Queries under the standard definitions *)

(** The store agrees with the standard table (runtime definitions are free). *)
Definition std_defs (lib : LibDHCP) : Prop :=
  forall code, Lib.getStdOptionDef code lib = Lib.getStdOptionDef code std_lib.

Lemma std_code code d : Lib.getStdOptionDef code std_lib = Some d -> code_ d = code.
Proof.
  assert (map_Forall (fun k d => code_ d = k) (code_to_def_ (v4_option_meta_ std_lib))) as H.
  { apply (bool_decide_eq_true_1 _). vm_compute. reflexivity. }
  apply H.
Qed.

Definition def_53 : OptionDefinition :=
  MkOptionDefinition "dhcp-message-type" 53 OPT_UINT8_TYPE false "" [].
Definition def_addr (name : string) (code : Z) : OptionDefinition :=
  MkOptionDefinition name code OPT_IPV4_ADDRESS_TYPE false "" [].

Lemma std_defs_read :
  Lib.getStdOptionDef DHO_DHCP_MESSAGE_TYPE std_lib = Some def_53 /\
  Lib.getStdOptionDef DHO_DHCP_REQUESTED_ADDRESS std_lib = Some (def_addr "dhcp-requested-address" 50) /\
  Lib.getStdOptionDef DHO_DHCP_SERVER_IDENTIFIER std_lib = Some (def_addr "dhcp-server-identifier" 54) /\
  Lib.getStdOptionDef DHO_SUBNET_SELECTION std_lib = Some (def_addr "subnet-selection" 118) /\
  Lib.getStdOptionDef DHO_DHCP_CLIENT_IDENTIFIER std_lib
  = Some (MkOptionDefinition "dhcp-client-identifier" 61 OPT_BINARY_TYPE false "" []) /\
  Lib.getStdOptionDef DHO_DHCP_AGENT_OPTIONS std_lib
  = Some (MkOptionDefinition "dhcp-agent-options" 82 OPT_EMPTY_TYPE false "dhcp-agent-options-space" []) /\
  Lib.getStdOptionDef DHO_DHCP_PARAMETER_REQUEST_LIST std_lib
  = Some (MkOptionDefinition "dhcp-parameter-request-list" 55 OPT_UINT8_TYPE true "" []).
Proof. split_and!; vm_compute; reflexivity. Qed.

(** The codes whose option is a single IPv4 address. *)
Definition address_code (k : Z) : bool :=
  (k =? DHO_DHCP_REQUESTED_ADDRESS) || (k =? DHO_DHCP_SERVER_IDENTIFIER) || (k =? DHO_SUBNET_SELECTION).

(** What holds of an option parsed from the "dhcp4" space. *)
Definition parsed_ok (p : Z * opt) : Prop :=
  type_ p.2 = p.1 /\
  bytes_ok (data_ p.2) /\ zlen (data_ p.2) <= 255 /\
  (p.1 = DHO_DHCP_MESSAGE_TYPE -> exists v, body_ p.2 = BInt Uint8 v /\ byte_ok v) /\
  (address_code p.1 = true -> exists def b, body_ p.2 = BCustom def [b] /\ zlen b = 4 /\ bytes_ok b) /\
  (p.1 = DHO_DHCP_AGENT_OPTIONS -> Forall (fun s => bytes_ok (data_ s.2)) (options_ p.2)) /\
  (p.1 = DHO_DHCP_PARAMETER_REQUEST_LIST -> forall t l, body_ p.2 = BIntArray t l -> zlen l <= 255) /\
  (p.1 = DHO_DHCP_CLIENT_IDENTIFIER -> body_ p.2 = BPlain /\ options_ p.2 = []).

Lemma read_ints_length fuel t buf vs : read_ints fuel t buf = Ok vs -> zlen vs <= zlen buf.
Proof.
  revert buf vs. induction fuel as [|fuel IH]; intros buf vs H; [done|]. cbn [read_ints] in H.
  destruct buf as [|b buf]; [by simplify_eq|]. apply bind_ok in H as (v & _ & H).
  apply bind_ok in H as (vs' & H & [= <-]). apply IH in H. rewrite !zlen_cons.
  assert (zlen (drop (Z.to_nat (sizeof t)) (b :: buf)) <= zlen buf); [|lia].
  unfold zlen. rewrite length_drop. cbn [length]. destruct t; cbn; lia.
Qed.

Lemma address_value U name code d o :
  bytes_ok d ->
  OptionCustom_make U (def_addr name code) d = Ok o ->
  exists def b, body_ o = BCustom def [b] /\ zlen b = 4 /\ bytes_ok b.
Proof.
  intros Hd. unfold OptionCustom_make. intros (o' & _ & H)%bind_ok.
  apply bind_ok in H as ([bufs subs] & H & [= <-]). unfold createBuffers in H.
  apply bind_ok in H as ([] & _ & H). cbn in H. unfold value_buffers in H.
  apply bind_ok in H as ([] & Hg & H). cbn in H.
  apply bind_ok in H as (b & Hb & H). cbn in H.
  unfold custom_subs in H. rewrite andb_false_r in H. cbn in H. simplify_eq.
  exists (def_addr name code), b. cbn. pose proof (slice_facts _ _ _ _ Hb Hd). intuition.
Qed.

Lemma parse_one_data (R : list Z -> Prop) lib fuel space k d o :
  R [] -> R d -> parse_one lib fuel space k d = Ok o -> R (data_ o).
Proof.
  intros Hn Hd. unfold parse_one. destruct (lookup_def lib space k) as [def|].
  - by apply factory_data.
  - intros (o' & H & [= <-])%bind_ok. apply make_data_data in H as [-> _]. done.
Qed.

(** The sub-options of a custom option are parsed from its own data. *)
Lemma custom_subs_bytes lib fuel def d o :
  bytes_ok d ->
  OptionCustom_make (fun b s c => options4_loop lib fuel b s 0 c) def d = Ok o ->
  otype_ def = OPT_EMPTY_TYPE -> Forall (fun s => bytes_ok (data_ s.2)) (options_ o).
Proof.
  intros Hd. unfold OptionCustom_make. intros (o' & _ & H)%bind_ok Ht.
  apply bind_ok in H as ([bufs subs] & H & [= <-]). unfold createBuffers in H.
  apply bind_ok in H as ([] & _ & H). rewrite Ht in H.
  apply bind_ok in H as (subs' & H & [= <- <-]). cbn [options_]. unfold custom_subs in H.
  destruct (_ && _); [|simplify_eq; constructor].
  apply bind_ok in H as ([off c] & H & [= <-]). eapply options4_all; [|exact Hd|exact H|constructor].
  intros fuel' k data o Hk Hdata Hlen Hp. eapply parse_one_data; [constructor|exact Hdata|exact Hp].
Qed.

Lemma parsed_ok_std lib fuel k d o :
  std_defs lib -> byte_ok k -> bytes_ok d -> zlen d <= 255 ->
  parse_one lib fuel DHCP4_OPTION_SPACE k d = Ok o -> parsed_ok (k, o).
Proof.
  intros Hstd Hk Hd Hl Hp. unfold parsed_ok. cbn [fst snd].
  split_and!;
    [|eapply parse_one_data; [constructor|exact Hd|exact Hp]
     |eapply (parse_one_data (fun l => zlen l <= 255)); [done|exact Hl|exact Hp]| | | | |];
    unfold parse_one, lookup_def in Hp; rewrite bool_decide_true in Hp by done; rewrite Hstd in Hp.
  - destruct (Lib.getStdOptionDef k std_lib) as [def|] eqn:E.
    + apply std_code in E. by eapply optionFactory_type.
    + apply bind_ok in Hp as (o' & H & [= <-]). apply make_data_data in H as [-> _]. done.
  - destruct std_defs_read as (E & _). intros ->. rewrite E in Hp.
    change (factoryInteger (fun b s c => options4_loop lib fuel b s 0 c) Uint8 DHO_DHCP_MESSAGE_TYPE "" d = Ok o) in Hp.
    unfold factoryInteger in Hp. apply bind_ok in Hp as (o' & _ & Hp). apply bind_ok in Hp as ([] & _ & Hp).
    apply bind_ok in Hp as (v & Hv & Hp). apply bind_ok in Hp as ([off subs] & _ & [= <-]).
    exists v. split; [done|]. unfold read_int in Hv. apply bind_ok in Hv as (b & Hb & [= <-]). apply u8_byte.
  - destruct std_defs_read as (_ & E1 & E2 & E3 & _). unfold address_code. intros Hc.
    assert (exists name, Lib.getStdOptionDef k std_lib = Some (def_addr name k) /\ k <> DHO_VIVSO_SUBOPTIONS /\ k <> DHO_FQDN /\ k <> DHO_VIVCO_SUBOPTIONS) as (name & En & H1 & H2 & H3).
    { destruct (Z.eqb_spec k DHO_DHCP_REQUESTED_ADDRESS) as [->|]; [exists "dhcp-requested-address"%string; split; [exact E1|split_and!; discriminate]|].
      destruct (Z.eqb_spec k DHO_DHCP_SERVER_IDENTIFIER) as [->|]; [exists "dhcp-server-identifier"%string; split; [exact E2|split_and!; discriminate]|].
      destruct (Z.eqb_spec k DHO_SUBNET_SELECTION) as [->|]; [exists "subnet-selection"%string; split; [exact E3|split_and!; discriminate]|discriminate Hc]. }
    rewrite En in Hp. unfold optionFactory, factorySpecialFormatOption in Hp. cbn [code_ def_addr] in Hp.
    rewrite !(proj2 (Z.eqb_neq _ _)) in Hp by done. cbn [andb otype_ array_type_ def_addr] in Hp.
    by eapply address_value.
  - destruct std_defs_read as (_ & _ & _ & _ & _ & E & _). intros ->. rewrite E in Hp.
    unfold optionFactory, factorySpecialFormatOption in Hp. cbn in Hp.
    eapply custom_subs_bytes; [exact Hd|exact Hp|done].
  - destruct std_defs_read as (_ & _ & _ & _ & _ & _ & E). intros ->. rewrite E in Hp.
    change (factoryIntegerArray Uint8 DHO_DHCP_PARAMETER_REQUEST_LIST d = Ok o) in Hp.
    unfold factoryIntegerArray in Hp. apply bind_ok in Hp as (o' & _ & Hp). apply bind_ok in Hp as ([] & _ & Hp).
    apply bind_ok in Hp as ([] & _ & Hp). apply bind_ok in Hp as (vs & Hv & [= <-]).
    intros t l [= <- <-]. apply read_ints_length in Hv. lia.
  - destruct std_defs_read as (_ & _ & _ & _ & E & _). intros ->. rewrite E in Hp.
    change (factoryGeneric DHO_DHCP_CLIENT_IDENTIFIER d = Ok o) in Hp.
    clear E Hstd. apply make_data_data in Hp as [-> _]. split; reflexivity.
Qed.
