(* ===== verification/OptionTyping.v ===== *)
(** The types of parsed options: every option the parser builds, at every
    depth, belongs to the class its definition prescribes and holds values of
    the declared types. *)
From stdpp Require Import base list numbers option strings gmap.
From Stdlib Require Import ZArith Lia.
From S2P Require Import Prelude Buffer HwAddr Address DnsName DnsNameFacts DnsWireFacts OptionDef Options OptionsFacts.
From S2P Require Import OptionsPack OptionsRoundTrip Pkt PktFacts Subnet ResponseFacts QueryFacts.

Set Warnings "-register-all".

(** ** Values *)
Definition int_in (t : int_type) (v : Z) : Prop :=
  match t with
  | Int8 => - 2^7 <= v < 2^7 | Int16 => - 2^15 <= v < 2^15 | Int32 => - 2^31 <= v < 2^31
  | Uint8 => 0 <= v < 2^8 | Uint16 => 0 <= v < 2^16 | Uint32 => 0 <= v < 2^32
  end.

(** The integer class of a single value, and of an array: arrays of signed 16
    and 32 bit integers are built as arrays of unsigned ones. *)
Definition single_int (t : OptionDataType) : option int_type :=
  match t with
  | OPT_UINT8_TYPE => Some Uint8 | OPT_INT8_TYPE => Some Int8 | OPT_UINT16_TYPE => Some Uint16
  | OPT_INT16_TYPE => Some Int16 | OPT_UINT32_TYPE => Some Uint32 | OPT_INT32_TYPE => Some Int32
  | _ => None
  end.
Definition array_int (t : OptionDataType) : option int_type :=
  match t with
  | OPT_INT16_TYPE => Some Uint16 | OPT_INT32_TYPE => Some Uint32 | _ => single_int t
  end.

(** A field of a fixed width fills it. *)
Definition field_ok (t : OptionDataType) (b : list Z) : Prop :=
  bytes_ok b /\ zlen b <= 255 /\ (OptionDataTypeUtil.getDataTypeLen t <> 0 -> zlen b = OptionDataTypeUtil.getDataTypeLen t).

Definition fields_ok (def : OptionDefinition) (bufs : list (list Z)) : Prop :=
  match otype_ def with
  | OPT_RECORD_TYPE => Forall2 field_ok (record_fields_ def) bufs
  | OPT_EMPTY_TYPE => bufs = []
  | t => Forall (field_ok t) bufs /\ (array_type_ def = false -> length bufs = 1%nat)
  end.

Definition body_typed (def : OptionDefinition) (o : opt) : Prop :=
  match body_ o with
  | BPlain => otype_ def = OPT_EMPTY_TYPE \/ otype_ def = OPT_BINARY_TYPE
  | BInt t v => single_int (otype_ def) = Some t /\ array_type_ def = false /\ int_in t v
  | BIntArray t vs => array_int (otype_ def) = Some t /\ array_type_ def = true /\ Forall (int_in t) vs
  | BString => otype_ def = OPT_STRING_TYPE /\ data_ o <> []
  | BAddrLst l => otype_ def = OPT_IPV4_ADDRESS_TYPE /\ array_type_ def = true /\ Forall v4_ok l
  | BCustom d bufs => d = def /\ fields_ok def bufs
  | BFqdn flags _ _ name _ =>
      code_ def = DHO_FQDN /\ Z.land flags (Z.lor Fqdn.FLAG_N Fqdn.FLAG_S) <> Z.lor Fqdn.FLAG_N Fqdn.FLAG_S /\
      match name with Some n => name_wf n | None => True end
  | BVendor vid => code_ def = DHO_VIVSO_SUBOPTIONS /\ int_in Uint32 vid
  | BVendorClass vid _ => code_ def = DHO_VIVCO_SUBOPTIONS /\ int_in Uint32 vid
  | BTuples _ => False
  end.

(** ** Options and their sub-options *)
Section Typing.
Variable lib : LibDHCP.

(** The definitions the sub-options of an option are looked up in. *)
Definition sub_defs (def : OptionDefinition) (o : opt) (k : Z) : option OptionDefinition :=
  match body_ o with
  | BVendor vid => Lib.getVendorOptionDef vid k lib
  | _ => lookup_def lib (encapsulated_space_ def) k
  end.

Inductive opt_typed : (Z -> option OptionDefinition) -> Z * opt -> Prop :=
| ot_unknown defs k o :
    defs k = None -> type_ o = k -> body_ o = BPlain -> options_ o = [] -> opt_typed defs (k, o)
| ot_known (defs : Z -> option OptionDefinition) k o def :
    defs k = Some def -> type_ o = k -> body_typed def o ->
    Forall (opt_typed (sub_defs def o)) (options_ o) -> opt_typed defs (k, o).

(** Definitions are stored under their codes. *)
Definition meta_keyed (m : OptionMeta) : Prop := map_Forall (fun k d => code_ d = k) (code_to_def_ m).
Record lib_keyed : Prop := MkLibKeyed {
  lk_std : meta_keyed (v4_option_meta_ lib);
  lk_vendor : map_Forall (fun _ => meta_keyed) (vendor_v4_options_ lib);
  lk_runtime : map_Forall (fun _ => meta_keyed) (runtime_options_ lib) }.
End Typing.

(** *** The stores the library builds are keyed *)
Lemma add_keyed d m : meta_keyed m -> meta_keyed (Meta.addOptionDef d m).
Proof.
  intros Hm. unfold Meta.addOptionDef, Meta.insert_new, meta_keyed. cbn [code_to_def_].
  destruct (code_to_def_ m !! code_ d); [done|]. by apply map_Forall_insert_2.
Qed.

Lemma descriptions_keyed ds m m' : Lib.add_descriptions ds m = Ok m' -> meta_keyed m -> meta_keyed m'.
Proof.
  unfold Lib.add_descriptions. revert m. induction ds as [|d ds IH]; intros m; [by intros [= <-]|]. cbn [foldM].
  intros (m1 & (def & _ & [= <-])%bind_ok & H)%bind_ok Hm. eapply IH; [exact H|]. by apply add_keyed.
Qed.

Lemma init_keyed l l' : Lib.initOptions l = Ok l' -> map_Forall (fun _ => meta_keyed) (runtime_options_ l) -> lib_keyed l'.
Proof.
  unfold Lib.initOptions. intros (std & Hs & (ven & Hv & [= <-])%bind_ok)%bind_ok Hr.
  split; [by eapply descriptions_keyed| |done]. apply map_Forall_singleton. by eapply descriptions_keyed.
Qed.

Lemma runtime_keyed space d l : lib_keyed l -> lib_keyed (Lib.addRuntimeOptionDef space d l).
Proof.
  intros [Hs Hv Hr]. split; cbn; [done|done|]. apply map_Forall_insert_2; [|done]. apply add_keyed.
  destruct (runtime_options_ l !! space) eqn:E; cbn; [by apply (Hr _ _ E)|done].
Qed.

Section Keyed.
Variable lib : LibDHCP.
Hypothesis Hkeyed : lib_keyed lib.

Lemma lookup_keyed space k def : lookup_def lib space k = Some def -> code_ def = k.
Proof.
  unfold lookup_def, Lib.getStdOptionDef, Lib.getRuntimeOptionDef. case_bool_decide; [apply (lk_std _ Hkeyed)|].
  destruct (runtime_options_ lib !! space) as [m|] eqn:E; [|done]. apply (lk_runtime _ Hkeyed _ _ E).
Qed.

Lemma vendor_keyed vid k def : Lib.getVendorOptionDef vid k lib = Some def -> code_ def = k.
Proof.
  unfold Lib.getVendorOptionDef. destruct (vendor_v4_options_ lib !! vid) as [m|] eqn:E; [|done].
  apply (lk_vendor _ Hkeyed _ _ E).
Qed.
End Keyed.

(** ** Reading values *)
Lemma cast_in t v : int_in t (cast t v).
Proof. destruct t; unfold cast, int_in, u8, u16, u32, s8, s16, s32; zdiv. Qed.

Lemma read_int_in t buf v : read_int t buf = Ok v -> int_in t v.
Proof. unfold read_int. intros (x & _ & [= <-])%bind_ok. apply cast_in. Qed.

Lemma read_ints_in fuel t buf vs : read_ints fuel t buf = Ok vs -> Forall (int_in t) vs.
Proof.
  revert buf vs. induction fuel as [|fuel IH]; intros buf vs H; [done|]. cbn [read_ints] in H.
  destruct buf; [by simplify_eq|]. apply bind_ok in H as (v & Hv & H). apply bind_ok in H as (vs' & H & [= <-]).
  constructor; [by eapply read_int_in|by eapply IH].
Qed.

Lemma read_addrs_v4 fuel buf l : read_addrs fuel buf = Ok l -> Forall v4_ok l.
Proof.
  revert buf l. induction fuel as [|fuel IH]; intros buf l H; [done|]. cbn [read_addrs] in H.
  destruct buf; [by simplify_eq|]. apply bind_ok in H as (v & _ & H). apply bind_ok in H as (l' & H & [= <-]).
  constructor; [apply of_uint32_v4|by eapply IH].
Qed.

(** *** The fields of a custom option *)
Lemma record_fields_ok fields data bufs rest pre tys :
  bytes_ok data -> zlen data <= 255 -> record_buffers fields data pre = Ok (bufs, rest) -> Forall2 field_ok tys pre ->
  Forall2 field_ok (tys ++ fields) bufs /\ bytes_ok rest.
Proof.
  revert data pre tys. induction fields as [|f fields IH]; intros data pre tys Hb Hd H Hpre; cbn [record_buffers] in H.
  { simplify_eq. by rewrite app_nil_r. }
  cbv zeta in H. apply bind_ok in H as (n & Hn & H). apply bind_ok in H as (b & Hs & H).
  destruct (slice_facts _ _ _ _ Hs Hb) as (_ & Hl & Hle & Hbb).
  rewrite (app_assoc tys [f] fields : tys ++ f :: fields = _). eapply IH; [| |exact H|].
  - by apply bytes_ok_drop.
  - unfold zlen in *. rewrite length_drop. lia.
  - apply Forall2_app; [done|]. constructor; [|constructor]. split; [done|]. split; [lia|]. intros Hne.
    destruct (Z.eqb_spec (OptionDataTypeUtil.getDataTypeLen f) 0); [done|].
    apply bind_ok in Hn as ([] & _ & [= <-]). done.
Qed.

Lemma array_fields_ok fuel t n data pre bufs :
  bytes_ok data -> zlen data <= 255 -> (t <> OPT_FQDN_TYPE -> n = OptionDataTypeUtil.getDataTypeLen t) ->
  array_buffers fuel t n data pre = Ok bufs -> Forall (field_ok t) pre -> Forall (field_ok t) bufs.
Proof.
  intros Hb Hd Hn. revert n data pre Hb Hd Hn. induction fuel as [|fuel IH]; intros n data pre Hb Hd Hn H Hpre; [done|].
  cbn [array_buffers] in H. destruct data as [|x data]; [by simplify_eq|].
  apply bind_ok in H as (m & Hm & H). apply bind_ok in H as ([] & _ & H).
  destruct (_ <? _); [by simplify_eq|]. apply bind_ok in H as (b & Hs & H).
  assert (t <> OPT_FQDN_TYPE -> m = OptionDataTypeUtil.getDataTypeLen t) as Hm'.
  { intros Ht. rewrite bool_decide_false in Hm by done. apply Ok_inj in Hm. subst m. by apply Hn. }
  destruct (slice_facts _ _ _ _ Hs Hb) as (_ & Hl & Hle & Hbb).
  eapply IH; [| |exact Hm'|exact H|]; [by apply bytes_ok_drop|unfold zlen in *; rewrite length_drop; lia|]. apply Forall_snoc; [done|]. split; [done|]. split; [lia|]. intros Hne.
  rewrite Hl. apply Hm'. by intros ->.
Qed.

Lemma readUint32_in buf v : bytes_ok buf -> IOUtil.readUint32 buf = Ok v -> int_in Uint32 v.
Proof.
  intros Hb. unfold IOUtil.readUint32. intros (_ & _ & (a & Ha & (b & Hb' & (c & Hc & (d & Hd & [= <-])%bind_ok)
    %bind_ok)%bind_ok)%bind_ok)%bind_ok.
  apply be32_range; repeat constructor; by eapply zget_byte.
Qed.

(** ** Factories *)
Section Factory.
Variable lib : LibDHCP.
Variables (U : list Z -> string -> coll -> result (Z * coll)) (V : Z -> list Z -> coll -> result (Z * coll)).
Hypothesis HU : forall buf space off c,
  bytes_ok buf -> U buf space [] = Ok (off, c) -> Forall (opt_typed lib (lookup_def lib space)) c.
Hypothesis HV : forall vid buf off c, bytes_ok buf -> V vid buf [] = Ok (off, c) ->
  Forall (opt_typed lib (fun k => Lib.getVendorOptionDef vid k lib)) c.

(** The subject of the factories' lemmas. *)
Definition built (def : OptionDefinition) (o : opt) : Prop :=
  body_typed def o /\ Forall (opt_typed lib (sub_defs lib def o)) (options_ o).

Lemma integer_built def t k d o :
  bytes_ok d -> single_int (otype_ def) = Some t -> array_type_ def = false ->
  factoryInteger U t k (encapsulated_space_ def) d = Ok o -> built def o.
Proof.
  intros Hd Ht Ha. unfold factoryInteger. intros (o' & _ & (_ & _ & (v & Hv & H)%bind_ok)%bind_ok)%bind_ok.
  apply bind_ok in H as ([off subs] & Hs & [= <-]). split; cbn.
  - split_and!; [done|done|by eapply read_int_in].
  - eapply HU; [|exact Hs]. by apply bytes_ok_drop.
Qed.

Lemma array_built def t k d o :
  array_int (otype_ def) = Some t -> array_type_ def = true -> factoryIntegerArray t k d = Ok o -> built def o.
Proof.
  intros Ht Ha. unfold factoryIntegerArray.
  intros (o' & _ & (_ & _ & (_ & _ & (vs & Hv & [= <-])%bind_ok)%bind_ok)%bind_ok)%bind_ok.
  split; cbn; [|constructor]. split_and!; [done|done|by eapply read_ints_in].
Qed.

Lemma subs_typed space d subs :
  bytes_ok d -> custom_subs U space d = Ok subs -> Forall (opt_typed lib (lookup_def lib space)) subs.
Proof.
  intros Hd. unfold custom_subs. destruct (_ && _); [|intros [= <-]; constructor].
  intros ([off c] & H & [= <-])%bind_ok. by eapply HU.
Qed.

Lemma value_built def t d bufs subs :
  bytes_ok d -> zlen d <= 255 -> value_buffers U def t d = Ok (bufs, subs) ->
  (Forall (field_ok t) bufs /\ (array_type_ def = false -> length bufs = 1%nat)) /\
  Forall (opt_typed lib (lookup_def lib (encapsulated_space_ def))) subs.
Proof.
  intros Hd Hld. unfold value_buffers. intros (_ & _ & H)%bind_ok. destruct (array_type_ def).
  { apply bind_ok in H as (bs & H & [= <- <-]). split; [|constructor]. split; [|done].
    by eapply array_fields_ok; [| |done|exact H|]. }
  apply bind_ok in H as (n & Hn & H). destruct (0 <? n); [|done].
  apply bind_ok in H as (b & Hs & H). apply bind_ok in H as (ss & Hss & [= <- <-]).
  destruct (slice_facts _ _ _ _ Hs Hd) as (_ & Hl & Hle & Hb). split; [split; [|done]|].
  - constructor; [|constructor]. split; [done|]. split; [lia|]. intros Hne. rewrite (proj2 (Z.eqb_neq _ _)) in Hn by done. by simplify_eq.
  - eapply subs_typed; [|exact Hss]. by apply bytes_ok_drop.
Qed.

Lemma custom_built def d o : bytes_ok d -> zlen d <= 255 -> OptionCustom_make U def d = Ok o -> built def o.
Proof.
  intros Hd Hld. unfold OptionCustom_make. intros (o' & _ & ([bufs subs] & H & [= <-])%bind_ok)%bind_ok.
  unfold createBuffers in H. apply bind_ok in H as (_ & _ & H). unfold built, body_typed, fields_ok. cbn.
  destruct (otype_ def) eqn:Et;
    try (destruct (value_built _ _ _ _ _ Hd Hld H) as [? ?]; by split).
  - apply bind_ok in H as (ss & H & [= <- <-]). split; [done|]. by eapply subs_typed.
  - apply bind_ok in H as ([bs rest] & H & (ss & Hss & [= <- <-])%bind_ok).
    destruct (record_fields_ok _ _ _ _ [] [] Hd Hld H) as [Hf Hr]; [constructor|]. split; [done|]. by eapply subs_typed.
Qed.

Lemma plain_built def k d o :
  otype_ def = OPT_EMPTY_TYPE \/ otype_ def = OPT_BINARY_TYPE -> Option_.make_data k d = Ok o -> built def o.
Proof. intros Ht [-> _]%make_data_data. by split. Qed.

Lemma vendor_built def d o :
  bytes_ok d -> code_ def = DHO_VIVSO_SUBOPTIONS -> OptionVendor_make V d = Ok o -> built def o.
Proof.
  intros Hd Hc. unfold OptionVendor_make. intros (o' & _ & (_ & _ & (vid & Hv & H)%bind_ok)%bind_ok)%bind_ok.
  apply bind_ok in H as ([off subs] & H & [= <-]). split; cbn.
  - split; [done|]. by eapply readUint32_in.
  - eapply HV; [|exact H]. by apply bytes_ok_drop.
Qed.

Lemma vendor_class_built def d o :
  bytes_ok d -> code_ def = DHO_VIVCO_SUBOPTIONS -> OptionVendorClass_make d = Ok o -> built def o.
Proof.
  intros Hd Hc. unfold OptionVendorClass_make. intros (o' & _ & (_ & _ & (vid & Hv & H)%bind_ok)%bind_ok)%bind_ok.
  apply bind_ok in H as (ts & _ & [= <-]). split; cbn; [|constructor]. split; [done|]. by eapply readUint32_in.
Qed.

(** The domain name of an FQDN option is a well-formed name. *)
Lemma canonical_wf d r : bytes_ok d -> zlen d <= 255 -> Fqdn.parseCanonicalDomainName d = Ok r ->
  match fst <$> r with Some n => name_wf n | None => True end.
Proof.
  intros Hd Hl. unfold Fqdn.parseCanonicalDomainName. destruct (last d) as [z|]; [|by intros [= <-]].
  assert (forall b, bytes_ok b -> zlen b <= 256 -> forall n b', Name_from_wire (InputBuffer.make b) false = Ok (n, b') -> name_wf n) as Hw.
  { intros b Hb Hlb n b' H. pose proof (Name_from_wire_total (InputBuffer.make b) false) as Ht. rewrite H in Ht.
    apply Ht; [by apply InputBufferFacts.inv_make; unfold InputBufferFacts.small; lia|cbn; lia|done]. }
  destruct (negb _); intros ((n & b') & H & [= <-])%bind_ok; (eapply Hw; [| |exact H]); try done; try lia.
  - apply bytes_ok_app. split; [done|]. by repeat constructor.
  - zlia.
Qed.
Lemma ascii_wf d r : bytes_ok d -> Fqdn.parseASCIIDomainName d = Ok r -> match fst <$> r with Some n => name_wf n | None => True end.
Proof.
  intros Hd. unfold Fqdn.parseASCIIDomainName. destruct (last d) as [z|]; [|by intros [= <-]].
  intros (n & H & [= <-])%bind_ok. by eapply Name_from_text_wf.
Qed.

Lemma fqdn_built def d o : bytes_ok d -> zlen d <= 255 -> code_ def = DHO_FQDN -> Fqdn.make d = Ok o -> built def o.
Proof.
  intros Hbd Hld Hc. unfold Fqdn.make. intros (o' & [-> _]%make_data_data & (b & Hb & ([] & Hf & [= <-])%bind_ok)%bind_ok)%bind_ok.
  unfold Fqdn.parseWireData in Hb. apply bind_ok in Hb as ([] & _ & Hb). destruct d as [|fl [|r1 [|r2 d]]]; [done..|].
  apply bind_ok in Hb as (r & Hr & [= <-]). split; cbn; [|constructor]. split; [done|]. split.
  - unfold Fqdn.checkFlags in Hf. apply bind_ok in Hf as ([] & _ & Hf%throw_if_ok). by apply Z.eqb_neq in Hf.
  - apply Forall_app with (l1 := [fl; r1; r2]) in Hbd as [_ Hbd]. rewrite !zlen_cons in Hld.
    destruct (negb _); unfold try_kea in Hr.
    + destruct (Fqdn.parseCanonicalDomainName d) as [r'|e| |] eqn:E; try done; [injection Hr as ->; eapply canonical_wf; [exact Hbd|lia|exact E]|].
      by destruct (is_kea e).
    + destruct (Fqdn.parseASCIIDomainName d) as [r'|e| |] eqn:E; try done; [injection Hr as ->; by eapply ascii_wf|].
      by destruct (is_kea e).
Qed.

Lemma string_built def k d o : otype_ def = OPT_STRING_TYPE -> factoryString k d = Ok o -> built def o.
Proof.
  intros Ht. unfold factoryString. intros (o' & _ & ([] & Hn%throw_if_ok & [= <-])%bind_ok)%bind_ok.
  split; cbn; [|constructor]. split; [done|]. by intros ->.
Qed.

Lemma addresses_built def k d o :
  otype_ def = OPT_IPV4_ADDRESS_TYPE -> array_type_ def = true -> factoryAddrList4 k d = Ok o -> built def o.
Proof.
  intros Ht Ha. unfold factoryAddrList4. intros (o' & _ & ([] & _ & (l & Hl & [= <-])%bind_ok)%bind_ok)%bind_ok.
  split; cbn; [|constructor]. split_and!; [done|done|by eapply read_addrs_v4].
Qed.

Lemma factory_built def k d o : bytes_ok d -> zlen d <= 255 -> optionFactory U V def k d = Ok o -> built def o.
Proof.
  intros Hd Hl. unfold optionFactory, factorySpecialFormatOption. cbv zeta.
  destruct ((code_ def =? DHO_FQDN) && _) eqn:E1.
  { apply andb_true_iff in E1 as [E1%Z.eqb_eq _]. by apply fqdn_built. }
  destruct ((code_ def =? DHO_VIVCO_SUBOPTIONS) && _) eqn:E2.
  { apply andb_true_iff in E2 as [E2%Z.eqb_eq _]. by apply vendor_class_built. }
  destruct ((code_ def =? DHO_VIVSO_SUBOPTIONS) && _) eqn:E3.
  { apply andb_true_iff in E3 as [E3%Z.eqb_eq _]. by apply vendor_built. }
  destruct (otype_ def) eqn:Et; try (by apply custom_built); try (by apply string_built);
    try (destruct (array_type_ def) eqn:Ea;
      [by apply array_built; rewrite ?Et|by apply integer_built; rewrite ?Et]).
  - case_bool_decide; [|by apply custom_built]. unfold factoryEmpty, Option_.make.
    intros ([] & _ & [= <-])%bind_ok. split; [|constructor]. cbn. by left.
  - apply plain_built. by right.
  - destruct (array_type_ def) eqn:Ea; [by apply addresses_built|by apply custom_built].
Qed.
End Factory.

(** ** The parsers *)
Section Parsers.
Variable lib : LibDHCP.
Hypothesis Hkeyed : lib_keyed lib.

Definition vendor_defs (vid k : Z) : option OptionDefinition := Lib.getVendorOptionDef vid k lib.

Definition options4_typed (fuel : nat) : Prop := forall buf space off c off' c',
  bytes_ok buf -> options4_loop lib fuel buf space off c = Ok (off', c') ->
  Forall (opt_typed lib (lookup_def lib space)) c -> Forall (opt_typed lib (lookup_def lib space)) c'.
Definition vendor_typed (fuel : nat) : Prop := forall vid buf off c,
  bytes_ok buf -> vendor_unpack lib fuel vid buf [] = Ok (off, c) -> Forall (opt_typed lib (vendor_defs vid)) c.

(** One option, by its definition or as an unknown one. *)
Lemma known_typed fuel defs k d o def :
  options4_typed fuel -> vendor_typed fuel ->
  defs k = Some def -> code_ def = k -> byte_ok k -> bytes_ok d -> zlen d <= 255 ->
  optionFactory (fun b s c => options4_loop lib fuel b s 0 c) (fun v b c => vendor_unpack lib fuel v b c) def k d = Ok o ->
  opt_typed lib defs (k, o).
Proof.
  intros HU HV Hdef Hc Hk Hd Hl Ho. assert (type_ o = k) as Ht by (by eapply optionFactory_type).
  apply (factory_built lib) in Ho as [Hb Hs]; [|intros; by eapply HU; [..|constructor]|exact HV|done|done].
  by eapply ot_known.
Qed.

Lemma one_typed fuel space k d o :
  options4_typed fuel -> vendor_typed fuel -> byte_ok k -> bytes_ok d -> zlen d <= 255 ->
  parse_one lib fuel space k d = Ok o -> opt_typed lib (lookup_def lib space) (k, o).
Proof.
  intros HU HV Hk Hd Hl. unfold parse_one. destruct (lookup_def lib space k) as [def|] eqn:E.
  - apply known_typed; try done. exact (lookup_keyed lib Hkeyed space k def E).
  - intros (o' & [-> _]%make_data_data & [= <-])%bind_ok. by apply ot_unknown.
Qed.

Lemma options4_step_typed fuel : options4_typed fuel -> vendor_typed fuel -> options4_typed (S fuel).
Proof.
  intros HU HV buf space off c off' c' Hb H Hc. cbn [options4_loop] in H.
  destruct (negb _); [by simplify_eq|]. apply bind_ok in H as (k & Hk & H). cbv zeta in H.
  apply zget_byte in Hk; [|done].
  destruct (k =? DHO_END); [by simplify_eq|]. destruct (k =? DHO_PAD); [by eapply HU|].
  destruct (_ <? _); [by simplify_eq|]. apply bind_ok in H as (n & Hn & H).
  destruct (_ <? _); [by simplify_eq|]. apply bind_ok in H as (data & Hd & H).
  apply bind_ok in H as (c1 & H1 & H). eapply HU; [exact Hb|exact H|]. clear H.
  apply zget_byte in Hn; [|done]. pose proof (slice_facts _ _ _ _ Hd Hb) as (_ & Hdl & _ & Hdb).
  assert (zlen data <= 255) as Hdl' by (unfold byte_ok in Hn; lia).
  match type of H1 with try_kea (?m ≫= _) _ = _ => change m with (parse_one lib fuel space k data) in H1 end.
  destruct (parse_one lib fuel space k data) as [o|e| |] eqn:Ep; cbn in H1; simplify_eq; try done.
  - apply Forall_minsert; [|done]. by eapply one_typed.
  - destruct (is_kea e); by simplify_eq.
Qed.

Definition vendor_loop_typed (fuel : nat) : Prop := forall vid buf off stop c off' c',
  bytes_ok buf -> vendor_loop lib fuel vid buf off stop c = Ok (off', c') ->
  Forall (opt_typed lib (vendor_defs vid)) c -> Forall (opt_typed lib (vendor_defs vid)) c'.

Lemma vendor_loop_step_typed fuel :
  options4_typed fuel -> vendor_typed fuel -> vendor_loop_typed fuel -> vendor_loop_typed (S fuel).
Proof.
  intros HU HV HL vid buf off stop c off' c' Hb H Hc. cbn [vendor_loop] in H.
  destruct (negb _); [by simplify_eq|]. apply bind_ok in H as (k & Hk & H). cbv zeta in H.
  apply zget_byte in Hk; [|done]. apply bind_ok in H as ([] & _ & H). apply bind_ok in H as (n & Hn & H).
  apply bind_ok in H as ([] & _ & H). apply bind_ok in H as (data & Hd & H). apply bind_ok in H as (o & Ho & H).
  eapply HL; [exact Hb|exact H|]. apply Forall_minsert; [|done].
  apply zget_byte in Hn; [|done]. pose proof (slice_facts _ _ _ _ Hd Hb) as (_ & Hdl & _ & Hdb).
  assert (zlen data <= 255) as Hdl' by (unfold byte_ok in Hn; lia).
  destruct (Lib.getVendorOptionDef vid k lib) as [def|] eqn:E.
  - eapply known_typed; [exact HU|exact HV|exact E| |done|exact Hdb|exact Hdl'|exact Ho].
    by eapply (vendor_keyed lib Hkeyed vid).
  - apply make_data_data in Ho as [-> _]. by apply ot_unknown.
Qed.

Lemma parsers_typed fuel : options4_typed fuel /\ vendor_typed fuel /\ vendor_loop_typed fuel.
Proof.
  induction fuel as [|fuel (HU & HV & HL)]; [by split_and!|]. split_and!.
  - by apply options4_step_typed.
  - intros vid buf off c Hb H. cbn [vendor_unpack] in H. destruct buf as [|n buf]; [simplify_eq; constructor|].
    apply bind_ok in H as ([] & _ & H). eapply HL; [exact Hb|exact H|constructor].
  - by apply vendor_loop_step_typed.
Qed.

Lemma unpackOptions4_typed buf space off c :
  bytes_ok buf -> unpackOptions4 lib buf space [] = Ok (off, c) -> Forall (opt_typed lib (lookup_def lib space)) c.
Proof. intros Hb H. eapply (parsers_typed _); [exact Hb|exact H|constructor]. Qed.
End Parsers.

(** The standard tables. *)
Lemma std_lib_keyed : lib_keyed std_lib.
Proof.
  apply (init_keyed Lib.no_defs); [|done]. unfold std_lib. destruct (Lib.initOptions Lib.no_defs) eqn:E; [done|..].
  all: assert (is_ok (Lib.initOptions Lib.no_defs) = true) as H by (vm_compute; reflexivity); by rewrite E in H.
Qed.
