(* ===== verification/OptionText.v ===== *)
(** Options as text: the typed fields of [OptionCustom], the [toText] and
    [toString] of the option classes, and the options that
    dhcp++/option_definition.cpp makes from configured values. *)
From stdpp Require Import base list numbers option strings gmap.
From Stdlib Require Import ZArith Lia.
From S2P Require Import Prelude Buffer Address DnsName OptionDef Options HwAddr Encode.
From S2P Require Import Text Pkt ResponseGen OptionsFacts OptionsPack OptionsRoundTrip.

(** The C library's conversions of IPv6 addresses. *)
Class Inet6 := MkInet6 { inet_pton6 : list Z -> option (list Z); inet_ntop6 : list Z -> list Z }.

(** [IOAddress(const std::string&)]: IPv6 is tried first. *)
Definition IOAddress_of_text `{Inet6} (s : list Z) : IOAddress :=
  match inet_pton6 s with Some b => V6 b | None => IOAddr.of_string4 s end.

(** [os << address] *)
Definition address_text `{Inet6} (a : IOAddress) : list Z :=
  match a with
  | V4 v => inet_ntop4 (v / 2^24) ((v / 2^16) mod 256) ((v / 2^8) mod 256) (v mod 256)
  | V6 b => inet_ntop6 b
  end.

(** ** The fields of an [OptionCustom] *)
Module Custom.

(** [OptionDataTypeTraits<T>::type] *)
Definition traits_type (t : int_type) : OptionDataType :=
  match t with
  | Int8 => OPT_INT8_TYPE | Int16 => OPT_INT16_TYPE | Int32 => OPT_INT32_TYPE
  | Uint8 => OPT_UINT8_TYPE | Uint16 => OPT_UINT16_TYPE | Uint32 => OPT_UINT32_TYPE
  end.

Section Fields.
Variables (definition : OptionDefinition) (buffers : list (list Z)).

Definition checkIndex (index : Z) : result unit := throw_if (zlen buffers <=? index) OutOfRange.
Definition checkArrayType : result unit := throw_if (negb (array_type_ definition)) InvalidOperation.

Definition checkDataType (t : int_type) (index : Z) : result unit :=
  data_type ←
    (if bool_decide (otype_ definition = OPT_RECORD_TYPE) then
       assert_ (index <? zlen (record_fields_ definition));; zget (record_fields_ definition) index
     else Ok (otype_ definition));
  throw_if (negb (bool_decide (traits_type t = data_type))) InvalidDataType.

Definition readBinary (index : Z) : result (list Z) := checkIndex index;; zget buffers index.
Definition readBoolean (index : Z) : result bool :=
  checkIndex index;; b ← zget buffers index; OptionDataTypeUtil.readBool b.
Definition readInteger (t : int_type) (index : Z) : result Z :=
  checkIndex index;; checkDataType t index;; b ← zget buffers index; OptionDataTypeUtil.readInt t b.
Definition readFqdn (index : Z) : result (list Z) :=
  checkIndex index;; b ← zget buffers index; OptionDataTypeUtil.readFqdn b.
Definition readString (index : Z) : result (list Z) :=
  checkIndex index;; b ← zget buffers index; Ok (OptionDataTypeUtil.readString b).

(** The writers: the buffers with the field replaced. *)
Definition writeAddress (address : IOAddress) (index : Z) : result (list (list Z)) :=
  checkIndex index;;
  b ← zget buffers index;
  throw_if (IOAddr.isV4 address && negb (zlen b =? V4ADDRESS_LEN)) BadDataTypeCast;;
  buf ← OptionDataTypeUtil.writeAddress address [];
  zset buffers index buf.
Definition writeBinary (buf : list Z) (index : Z) : result (list (list Z)) :=
  checkIndex index;; zset buffers index buf.
Definition writeBoolean (value : bool) (index : Z) : result (list (list Z)) :=
  checkIndex index;; zset buffers index (OptionDataTypeUtil.writeBool value []).
Definition writeFqdn (fqdn : list Z) (index : Z) : result (list (list Z)) :=
  checkIndex index;; buf ← OptionDataTypeUtil.writeFqdn fqdn [] false; zset buffers index buf.
Definition writeInteger (t : int_type) (value index : Z) : result (list (list Z)) :=
  checkIndex index;; zset buffers index (OptionDataTypeUtil.writeInt t value []).
Definition writeString (text : list Z) (index : Z) : result (list (list Z)) :=
  checkIndex index;; zset buffers index (OptionDataTypeUtil.writeString text []).

Definition addArrayDataField_address (address : IOAddress) : result (list (list Z)) :=
  checkArrayType;;
  throw_if (IOAddr.isV4 address && negb (bool_decide (otype_ definition = OPT_IPV4_ADDRESS_TYPE))) BadDataTypeCast;;
  buf ← OptionDataTypeUtil.writeAddress address [];
  Ok (buffers ++ [buf]).
Definition addArrayDataField_bool (value : bool) : result (list (list Z)) :=
  checkArrayType;; Ok (buffers ++ [OptionDataTypeUtil.writeBool value []]).
Definition addArrayDataField_int (t : int_type) (value : Z) : result (list (list Z)) :=
  checkArrayType;; Ok (buffers ++ [OptionDataTypeUtil.writeInt t value []]).

Context `{Inet6} `{TransformWidth}.

Definition text (s : string) : list Z := bytes_of s.
Definition quoted (t : list Z) : list Z := [34] ++ t ++ [34].

Definition dataFieldToString (data_type : OptionDataType) (index : Z) : result (list Z) :=
  let int (t : int_type) := v ← readInteger t index; Ok (int_text v) in
  match data_type with
  | OPT_BINARY_TYPE => b ← readBinary index; encodeHex b
  | OPT_BOOLEAN_TYPE => b ← readBoolean index; Ok (text (if (b : bool) then "true" else "false"))
  | OPT_INT8_TYPE => int Int8
  | OPT_INT16_TYPE => int Int16
  | OPT_INT32_TYPE => int Int32
  | OPT_UINT8_TYPE => int Uint8
  | OPT_UINT16_TYPE => int Uint16
  | OPT_UINT32_TYPE => int Uint32
  | OPT_IPV4_ADDRESS_TYPE => a ← readAddress buffers index; Ok (address_text a)
  | OPT_FQDN_TYPE => n ← readFqdn index; Ok (quoted n)
  | OPT_STRING_TYPE => s ← readString index; Ok (quoted s)
  | _ => Ok []
  end.

Definition dataFieldToText (data_type : OptionDataType) (index : Z) : result (list Z) :=
  t ← dataFieldToString data_type index;
  Ok (t ++ text " (" ++ text (OptionDataTypeUtil.getDataTypeName data_type) ++ text ")").

(** The loop over the fields: record fields by their own types, the buffers of
    other options by the type of the definition. *)
Definition field_types : list OptionDataType :=
  if bool_decide (otype_ definition = OPT_RECORD_TYPE) then record_fields_ definition
  else replicate (length buffers) (otype_ definition).

Fixpoint fields_text (to_text : OptionDataType -> Z -> result (list Z)) (separator : bool -> list Z)
    (types : list OptionDataType) (index : Z) : result (list Z) :=
  match types with
  | [] => Ok []
  | t :: types =>
      a ← to_text t index;
      b ← fields_text to_text separator types (index + 1);
      Ok (separator (index =? 0) ++ a ++ b)
  end.

End Fields.

(** [OptionCustom(def)]: the empty buffers of a new option. *)
Definition empty_buffer (field : OptionDataType) : result (list Z) :=
  let data_size := OptionDataTypeUtil.getDataTypeLen field in
  if (data_size =? 0) && bool_decide (field = OPT_FQDN_TYPE) then OptionDataTypeUtil.writeFqdn [46] [] false
  else Ok (replicate (Z.to_nat data_size) 0).

Definition createBuffers (def : OptionDefinition) : result (list (list Z)) :=
  OptionDef.validate def;;
  if bool_decide (otype_ def = OPT_RECORD_TYPE) then mapM_ empty_buffer (record_fields_ def)
  else if negb (array_type_ def) && negb (bool_decide (otype_ def = OPT_EMPTY_TYPE)) then
    b ← empty_buffer (otype_ def); Ok [b]
  else Ok [].

Definition make (def : OptionDefinition) : result opt :=
  o ← Option_.make_data (code_ def) [];
  buffers ← createBuffers def;
  Ok (Opt (type_ o) [] (BCustom def buffers) [] (encapsulated_space_ def)).

End Custom.

(** ** Text of options *)
Module OText.
Section OText.
Context `{Inet6} `{TransformWidth}.

Definition spaces (indent : Z) : list Z := replicate (Z.to_nat indent) 32.
Definition eol : list Z := [10].

Definition headerToText (o : opt) (indent : Z) (type_name : list Z) : result (list Z) :=
  l ← Options.len o;
  Ok (spaces indent ++ bytes_of "type=" ++ setw 3 48 (int_text (type_ o)) ++
      (if bool_decide (type_name = []) then [] else bytes_of "(" ++ type_name ++ bytes_of ")") ++
      bytes_of ", len=" ++ setw 3 48 (int_text (l - OPTION4_HDR_LEN))).

(** [suboptionsToText] given the texts of the suboptions. *)
Definition suboptionsToText (texts : list (result (list Z))) : result (list Z) :=
  match texts with
  | [] => Ok []
  | _ => t ← concat_results ((fun r => x ← r; Ok (eol ++ x)) <$> texts);
         Ok (bytes_of "," ++ eol ++ bytes_of "options:" ++ t)
  end.

Definition int_type_name (t : int_type) : list Z :=
  bytes_of (OptionDataTypeUtil.getDataTypeName (Custom.traits_type t)).

(** The tuples of the two classes that hold some, numbered. *)
Fixpoint tuples_text (prefix : Z -> list Z) (name : list Z) (i : Z) (tuples : list (list Z)) : list Z :=
  match tuples with
  | [] => []
  | t :: rest =>
      prefix i ++ bytes_of ", data-len" ++ int_text i ++ bytes_of "=" ++ int_text (zlen t) ++
      bytes_of ", " ++ name ++ int_text i ++ bytes_of "='" ++ t ++ bytes_of "'" ++ tuples_text prefix name (i + 1) rest
  end.

Definition flag_text (flags flag : Z) : result (list Z) :=
  b ← Fqdn.getFlag flags flag; Ok (bytes_of (if (b : bool) then "1" else "0")).

Definition fqdn_text (type flags : Z) (name : option Name) (nt : option DomainNameType) (indent : Z)
    : result (list Z) :=
  fn ← flag_text flags Fqdn.FLAG_N;
  fe ← flag_text flags Fqdn.FLAG_E;
  fo ← flag_text flags Fqdn.FLAG_O;
  fs ← flag_text flags Fqdn.FLAG_S;
  d ← Fqdn.getDomainName name nt;
  Ok (spaces indent ++ bytes_of "type=" ++ int_text type ++ bytes_of " (CLIENT_FQDN), flags: (" ++
      bytes_of "N=" ++ fn ++ bytes_of ", E=" ++ fe ++ bytes_of ", O=" ++ fo ++ bytes_of ", S=" ++ fs ++
      bytes_of "), domain-name='" ++ d ++ bytes_of "' (" ++
      bytes_of (if bool_decide (nt = Some PARTIAL) then "partial" else "full") ++ bytes_of ")").

Definition enterprise (vendor_id : Z) : list Z := bytes_of " enterprise id=0x" ++ unsigned_text 16 vendor_id.

Fixpoint toText (indent : Z) (o : opt) : result (list Z) :=
  match o with
  | Opt ty data b os _ =>
      let subs := suboptionsToText (map (fun p => toText (indent + 2) (snd p)) os) in
      match b with
      | BPlain =>
          h ← headerToText o indent []; s ← subs; Ok (h ++ bytes_of ": " ++ Hex.toText data ++ s)
      | BInt t v =>
          h ← headerToText o indent []; s ← subs;
          Ok (h ++ bytes_of ": " ++ int_text v ++ bytes_of " (" ++ int_type_name t ++ bytes_of ")" ++ s)
      | BIntArray t vs =>
          h ← headerToText o indent [];
          Ok (h ++ bytes_of ":" ++
              concat ((fun v => bytes_of " " ++ int_text v ++ bytes_of "(" ++ int_type_name t ++ bytes_of ")") <$> vs))
      | BString =>
          h ← headerToText o indent [];
          Ok (h ++ bytes_of ": " ++ Custom.quoted data ++ bytes_of " (string)")
      | BAddrLst addrs =>
          h ← headerToText o indent [];
          Ok (h ++ bytes_of ":" ++ concat ((fun a => bytes_of " " ++ address_text a) <$> addrs))
      | BCustom def bufs =>
          h ← headerToText o indent [];
          f ← Custom.fields_text (Custom.dataFieldToText def bufs) (fun _ => [32]) (Custom.field_types def bufs) 0;
          s ← subs;
          Ok (h ++ bytes_of ":" ++ f ++ s)
      | BFqdn fl _ _ n nt => fqdn_text ty fl n nt indent
      | BVendor vid =>
          h ← headerToText o indent [];
          l ← Options.len o;
          s ← subs;
          Ok (h ++ bytes_of ": " ++ int_text vid ++ bytes_of " (uint32) " ++
              int_text (u8 (l - OPTION4_HDR_LEN - 4 - 1)) ++ bytes_of " (uint8)" ++ s)
      | BVendorClass vid ts =>
          l ← Options.len o;
          Ok (spaces indent ++ bytes_of "type=" ++ int_text ty ++ bytes_of ", len=" ++ int_text (l - OPTION4_HDR_LEN) ++
              bytes_of ", " ++ enterprise vid ++
              tuples_text (fun i => if 0 <? i then bytes_of "," ++ enterprise vid else []) (bytes_of "vendor-class-data") 0 ts)
      | BTuples ts =>
          l ← Options.len o;
          Ok (spaces indent ++ bytes_of "type=" ++ int_text ty ++ bytes_of ", len=" ++ int_text (l - OPTION4_HDR_LEN) ++
              tuples_text (fun _ => []) (bytes_of "data") 0 ts)
      end
  end.

Definition toHexString (o : opt) (include_header : bool) : result (list Z) :=
  b ← Options.toBinary o include_header;
  match b with [] => Ok [] | _ => t ← encodeHex b; Ok (bytes_of "0x" ++ t) end.

Fixpoint join (ts : list (list Z)) : list Z :=
  match ts with [] => [] | [t] => t | t :: ts => t ++ [44] ++ join ts end.

(** [toString]: the classes that do not override it print their bytes. *)
Definition toString (o : opt) : result (list Z) :=
  match body_ o with
  | BIntArray _ vs => Ok (join (int_text <$> vs))
  | BString => Ok (data_ o)
  | BAddrLst addrs => Ok (join (address_text <$> addrs))
  | BCustom def bufs =>
      let comma := bool_decide (otype_ def = OPT_RECORD_TYPE) in
      f ← Custom.fields_text (Custom.dataFieldToString def bufs)
            (fun first => if comma && negb first then [44] else []) (Custom.field_types def bufs) 0;
      s ← suboptionsToText (map (fun p => toText 2 (snd p)) (options_ o));
      Ok (f ++ s)
  | _ => toHexString o false
  end.
End OText.
End OText.

(** ** Options from configured values *)
Module FromText.
Section FromText.
Context `{Inet6} `{TransformWidth} `{LexicalCast}.
Variable lib : LibDHCP.

Definition INT_MIN : Z := - 2^31.
Definition INT_MAX : Z := 2^31 - 1.
Definition INT64_MIN : Z := - 2^63.
Definition INT64_MAX : Z := 2^63 - 1.

(** [numeric_limits<T>] *)
Definition lower_limit (t : int_type) : Z :=
  match t with Int8 => - 2^7 | Int16 => - 2^15 | Int32 => - 2^31 | _ => 0 end.
Definition upper_limit (t : int_type) : Z :=
  match t with
  | Int8 => 2^7 - 1 | Int16 => 2^15 - 1 | Int32 => 2^31 - 1
  | Uint8 => 2^8 - 1 | Uint16 => 2^16 - 1 | Uint32 => 2^32 - 1
  end.

Definition iequals (a b : list Z) : bool := bool_decide (Str.uppercase a = Str.uppercase b).

Definition convertToBool (value_str : list Z) : result bool :=
  if iequals value_str (bytes_of "true") then Ok true
  else if iequals value_str (bytes_of "false") then Ok false
  else
    match lexical_cast INT_MIN INT_MAX value_str with
    | None => Throw BadDataTypeCast
    | Some result => throw_if (negb (result =? 1) && negb (result =? 0)) BadDataTypeCast;; Ok (negb (result =? 0))
    end.

Definition lexicalCastWithRangeCheck (t : int_type) (value_str : list Z) : result Z :=
  match lexical_cast INT64_MIN INT64_MAX value_str with
  | None => Throw BadDataTypeCast
  | Some result =>
      throw_if ((upper_limit t <? result) || (result <? lower_limit t)) BadDataTypeCast;;
      Ok (cast t result)
  end.

Definition writeBinary (hex_str buf : list Z) : result (list Z) :=
  b ← try_kea (decodeHex hex_str) (fun _ => Throw BadDataTypeCast); Ok (buf ++ b).

(** The buffer after the value was appended; signed values are written with
    the bytes of the unsigned type. *)
Definition writeToBuffer (value : list Z) (type : OptionDataType) (buf : list Z) : result (list Z) :=
  let int (t : int_type) := v ← lexicalCastWithRangeCheck t value; Ok (OptionDataTypeUtil.writeInt t v buf) in
  match type with
  | OPT_BINARY_TYPE => writeBinary value buf
  | OPT_BOOLEAN_TYPE => b ← convertToBool value; Ok (OptionDataTypeUtil.writeBool b buf)
  | OPT_INT8_TYPE => int Int8
  | OPT_INT16_TYPE => int Int16
  | OPT_INT32_TYPE => int Int32
  | OPT_UINT8_TYPE => int Uint8
  | OPT_UINT16_TYPE => int Uint16
  | OPT_UINT32_TYPE => int Uint32
  | OPT_IPV4_ADDRESS_TYPE =>
      let address := IOAddress_of_text value in
      throw_if (negb (IOAddr.isV4 address)) BadDataTypeCast;;
      OptionDataTypeUtil.writeAddress address buf
  | OPT_STRING_TYPE => Ok (OptionDataTypeUtil.writeString value buf)
  | OPT_FQDN_TYPE => OptionDataTypeUtil.writeFqdn value buf false
  | _ => Throw BadValue
  end.

(** Write the values in order, each with its type. *)
Definition write_values (values : list (list Z * OptionDataType)) : result (list Z) :=
  foldM (fun buf v => writeToBuffer (Str.trim v.1) v.2 buf) [] values.

Definition values_buffer (def : OptionDefinition) (values : list (list Z)) : result (list Z) :=
  if bool_decide (otype_ def = OPT_RECORD_TYPE) then
    throw_if (zlen values <? zlen (record_fields_ def)) InvalidOptionValue;;
    write_values (zip values (record_fields_ def))
  else if array_type_ def then write_values ((fun v => (v, otype_ def)) <$> values)
  else
    match values with
    | [] => throw_if (negb (bool_decide (otype_ def = OPT_EMPTY_TYPE))) InvalidOptionValue;; Ok []
    | v :: _ => write_values [(v, otype_ def)]
    end.

Definition optionFactory (def : OptionDefinition) (type : Z) (values : list (list Z)) : result opt :=
  buf ← values_buffer def values;
  Options.optionFactory (unpackOptions4 lib) (unpackVendorOptions4 lib) def type buf.
End FromText.
End FromText.

(** ** Configured values print back *)

(** The C library takes no text without a colon for an IPv6 address. *)
Class Inet6Laws `{Inet6} : Prop := inet_pton6_colon : forall s, 58 ∉ s -> inet_pton6 s = None.

Lemma trim_solid s : forallb (fun c => negb (Str.blank c)) s = true -> Str.trim s = s.
Proof.
  intros Hs. destruct s as [|c s]; [done|]. rewrite <- (app_nil_r (c :: s)), <- (app_nil_l ((c :: s) ++ [])) at 1.
  rewrite forallb_forall in Hs.
  assert (forall x, x ∈ c :: s -> Str.blank x = false) as Hb.
  { intros x Hx. apply negb_true_iff, Hs. by apply list_elem_of_In. }
  apply trim_middle; [done|done| |].
  - exists c, s. split; [done|]. apply Hb. by left.
  - destruct (exists_last (l := c :: s)) as (m & d & E); [done|]. exists m, d. split; [done|]. apply Hb.
    rewrite E. apply elem_of_app. right. by left.
Qed.

Lemma digits_solid s : forallb isdigit s = true -> forallb (fun c => negb (Str.blank c)) s = true.
Proof.
  rewrite !forallb_forall. intros H x Hx%H. unfold isdigit, Str.blank in *. lia.
Qed.

Lemma int_text_solid v : forallb (fun c => negb (Str.blank c)) (int_text v) = true.
Proof.
  assert (forall z, 0 <= z -> forallb isdigit (unsigned_text 10 z) = true) as H.
  { intros z Hz%unsigned_text_decimal. unfold decimal in Hz. by apply andb_true_iff in Hz as [_ Hz]. }
  unfold int_text. destruct (Z.ltb_spec v 0); cbn [forallb];
    [apply andb_true_iff; split; [done|]|]; apply digits_solid, H; lia.
Qed.

Section Configured.
Context `{Inet6Laws} `{TransformWidth} `{LexicalCastLaws}.
Variable lib : LibDHCP.

Lemma cast_in_limits t v : FromText.lower_limit t <= v <= FromText.upper_limit t -> cast t v = v.
Proof.
  unfold FromText.lower_limit, FromText.upper_limit, cast, s8, s16, s32, u8, u16, u32.
  destruct t; intros; rewrite Z.mod_small; lia.
Qed.

Lemma write_int_text t v buf :
  FromText.lower_limit t <= v <= FromText.upper_limit t ->
  FromText.writeToBuffer (Str.trim (int_text v)) (Custom.traits_type t) buf = Ok (buf ++ int_bytes t v).
Proof.
  intros Hv. rewrite trim_solid by apply int_text_solid.
  assert (FromText.lexicalCastWithRangeCheck t (int_text v) = Ok v) as E.
  { unfold FromText.lexicalCastWithRangeCheck. rewrite lexical_cast_text.
    - rewrite !(proj2 (Z.ltb_ge _ _)) by lia. cbn [orb throw_if]. rewrite bind_Ok. by rewrite cast_in_limits.
    - unfold FromText.INT64_MIN, FromText.INT64_MAX. lia.
    - unfold FromText.INT64_MIN, FromText.INT64_MAX, FromText.lower_limit, FromText.upper_limit in *. destruct t; lia. }
  unfold FromText.writeToBuffer. destruct t; cbn [Custom.traits_type]; rewrite E, bind_Ok; reflexivity.
Qed.

Lemma write_texts {A} (to_text : A -> list Z) (to_bytes : A -> list Z) ty vs :
  (forall v buf, v ∈ vs -> FromText.writeToBuffer (Str.trim (to_text v)) ty buf = Ok (buf ++ to_bytes v)) ->
  FromText.write_values ((fun t => (t, ty)) <$> (to_text <$> vs)) = Ok (concat (to_bytes <$> vs)).
Proof.
  unfold FromText.write_values. intros Hw. rewrite <- (app_nil_l (concat _)). generalize (@nil Z) as acc.
  induction vs as [|v vs IH]; intros acc; cbn; [by rewrite app_nil_r|].
  cbn in Hw. rewrite Hw by (by left). rewrite bind_Ok, IH by (intros; apply Hw; by right). by rewrite app_assoc.
Qed.

(** An array of integers in the limits of its type.  (Arrays of [int16] and
    [int32] are kept as unsigned arrays.) *)
Lemma int_array_configured t def code vs :
  generic def -> array_type_ def = true -> otype_ def = Custom.traits_type t -> t <> Int16 -> t <> Int32 ->
  1 <= code <= 254 -> vs <> [] -> Forall (fun v => FromText.lower_limit t <= v <= FromText.upper_limit t) vs ->
  FromText.optionFactory lib def code (int_text <$> vs) = Ok (Opt code [] (BIntArray t vs) [] "").
Proof.
  intros Hg Ha Ho H16 H32 Hc Hne Hv. rewrite Forall_forall in Hv.
  assert (FromText.values_buffer def (int_text <$> vs) = Ok (concat (int_bytes t <$> vs))) as E.
  { unfold FromText.values_buffer. rewrite bool_decide_false by (rewrite Ho; by destruct t). rewrite Ha, Ho.
    apply write_texts. intros v buf Hin. by apply write_int_text, Hv. }
  unfold FromText.optionFactory. rewrite E, bind_Ok. unfold optionFactory. rewrite generic_factory by done. rewrite Ho, Ha. cbv zeta.
  assert (factoryIntegerArray t code (concat (int_bytes t <$> vs)) = Ok (Opt code [] (BIntArray t vs) [] "")) as Hf.
  { apply factoryIntegerArray_ok; [done|done|]. apply Forall_forall. intros v Hin. by apply cast_in_limits, Hv. }
  destruct t; cbn [Custom.traits_type]; done || exact Hf.
Qed.

Lemma octet_digits b : byte_ok b -> forallb isdigit (octet_text b) = true.
Proof.
  intros Hb. unfold byte_ok, octet_text in *. destruct (Z.ltb_spec b 10); [|destruct (Z.ltb_spec b 100)]; cbn [forallb];
    rewrite ?andb_true_r; unfold isdigit; zdiv.
Qed.

Lemma v4_octets v : addr_ok v ->
  byte_ok (v / 2^24) /\ byte_ok ((v / 2^16) mod 256) /\ byte_ok ((v / 2^8) mod 256) /\ byte_ok (v mod 256).
Proof. intros Hv. unfold addr_ok in Hv. unfold byte_ok; split_and!; zdiv. Qed.

(** The text of an address is made of digits and dots. *)
Lemma address_text_chars v x : addr_ok v -> x ∈ address_text (V4 v) -> x = 46 \/ isdigit x = true.
Proof.
  intros (Ha & Hb & Hc & Hd)%v4_octets. unfold address_text, inet_ntop4. rewrite !elem_of_app, !list_elem_of_singleton.
  assert (forall b, byte_ok b -> x ∈ octet_text b -> isdigit x = true) as Ho.
  { intros b Hok%octet_digits Hx. rewrite forallb_forall in Hok. apply Hok. by apply list_elem_of_In. }
  intros [?|[?|[?|[?|[?|[?|?]]]]]]; eauto.
Qed.

Lemma address_text_v4 v : addr_ok v ->
  IOAddress_of_text (address_text (V4 v)) = V4 v /\ forallb (fun c => negb (Str.blank c)) (address_text (V4 v)) = true.
Proof.
  intros Hv. pose proof (fun x => address_text_chars v x Hv) as Hch. destruct (v4_octets v Hv) as (Ha & Hb & Hc & Hd).
  unfold addr_ok in Hv. unfold address_text, IOAddress_of_text in *.
  rewrite inet_pton6_colon.
  - split; [|rewrite forallb_forall; intros x Hx%list_elem_of_In%Hch; unfold isdigit, Str.blank in *; lia].
    unfold IOAddr.of_string4. rewrite inet_roundtrip by done. f_equal. rewrite be32_add by done. zdiv.
  - intros [|]%Hch; [done|]. unfold isdigit in *. lia.
Qed.

Lemma addresses_configured def code vs :
  generic def -> array_type_ def = true -> otype_ def = OPT_IPV4_ADDRESS_TYPE -> 1 <= code <= 254 ->
  Forall addr_ok vs ->
  FromText.optionFactory lib def code (address_text <$> (V4 <$> vs)) = Ok (Opt code [] (BAddrLst (V4 <$> vs)) [] "").
Proof.
  intros Hg Ha Ho Hc Hv. rewrite Forall_forall in Hv.
  assert (FromText.values_buffer def (address_text <$> (V4 <$> vs)) = Ok (concat (bytes32 <$> vs))) as E.
  { unfold FromText.values_buffer. rewrite bool_decide_false by (by rewrite Ho). rewrite Ha, Ho.
    rewrite <- (list_fmap_compose V4 address_text). apply write_texts. intros v buf Hin. cbn [compose].
    destruct (address_text_v4 v (Hv v Hin)) as [Hr Hs]. rewrite trim_solid by done. cbn [FromText.writeToBuffer].
    rewrite Hr. done. }
  unfold FromText.optionFactory. rewrite E, bind_Ok. unfold optionFactory. rewrite generic_factory by done. rewrite Ho, Ha. cbv zeta.
  apply factoryAddrList4_ok; [done| |].
  - clear -vs. induction vs as [|v vs IH]; [done|]. cbn [fmap list_fmap pack_addrs IOAddr.to_uint32 concat]. by rewrite bind_Ok, IH.
  - apply Forall_fmap, Forall_forall. intros v Hin. exists v. split; [done|by apply Hv].
Qed.
End Configured.
