(* ===== verification/OptionEdit.v ===== *)
(** Building and editing options in memory: the constructors and setters of
    dhcp++/option4_client_fqdn, dhcp++/option4_addrlst,
    dhcp++/opaque_data_tuple, dhcp++/option_opaque_data_tuples and
    dhcp++/option_vendor_class, and what a receiver reads from the options they
    make.

    A method is only called on an object of its class; the definitions give
    [Crash] for an option of another one.  The setters that throw leave the
    option as it was, except [setAddresses], which gives an outcome and the
    option. *)
From stdpp Require Import base list numbers option strings.
From Stdlib Require Import ZArith Lia.
From S2P Require Import Prelude Buffer DnsName DnsNameFacts DnsWireFacts Address OptionDef Options OptionsPack OptionsRoundTrip Encode Text ResponseGen.

(** ** DHCPv4 Client FQDN *)
Module FqdnEdit.

Definition RCODE_SERVER : Z := 255.
Definition RCODE_CLIENT : Z := 0.

(** The value [setDomainName] gives [domain_name_]. *)
Definition domain_name_value (domain_name : list Z) (name_type : DomainNameType) : result (option Name) :=
  let name := Str.trim domain_name in
  if bool_decide (name = []) then
    throw_if (bool_decide (name_type = FULL)) InvalidOption4FqdnDomainName;; Ok None
  else
    n ← try_kea (Name_from_text name false) (fun _ => Throw InvalidOption4FqdnDomainName);
    Ok (Some n).

Definition setDomainName (domain_name : list Z) (name_type : DomainNameType) (o : opt) : result opt :=
  match body_ o with
  | BFqdn flags rcode1 rcode2 _ _ =>
      n ← domain_name_value domain_name name_type;
      Ok (set_body (BFqdn flags rcode1 rcode2 n (Some name_type)) o)
  | _ => Crash
  end.

Definition resetDomainName (o : opt) : result opt := setDomainName [] PARTIAL o.

(** [Option4ClientFqdn(flag, rcode, domain_name, domain_name_type)] *)
Definition make_name (flag rcode : Z) (domain_name : list Z) (domain_name_type : DomainNameType) : result opt :=
  o ← Option_.make DHO_FQDN;
  let o := set_body (BFqdn flag rcode rcode None (Some domain_name_type)) o in
  Fqdn.checkFlags flag true;;
  setDomainName domain_name domain_name_type o.

(** [Option4ClientFqdn(flag, rcode)] *)
Definition make_empty (flag rcode : Z) : result opt :=
  o ← Option_.make DHO_FQDN;
  let o := set_body (BFqdn flag rcode rcode None (Some PARTIAL)) o in
  Fqdn.checkFlags flag true;;
  setDomainName [] PARTIAL o.

Definition setFlag (flag : Z) (set_flag : bool) (o : opt) : result opt :=
  match body_ o with
  | BFqdn flags rcode1 rcode2 n nt =>
      flags ← Fqdn.setFlag flags flag set_flag; Ok (set_body (BFqdn flags rcode1 rcode2 n nt) o)
  | _ => Crash
  end.

Definition resetFlags (o : opt) : result opt :=
  match body_ o with
  | BFqdn _ rcode1 rcode2 n nt => Ok (set_body (BFqdn 0 rcode1 rcode2 n nt) o)
  | _ => Crash
  end.

Definition getRcode (o : opt) : result (Z * Z) :=
  match body_ o with BFqdn _ rcode1 rcode2 _ _ => Ok (rcode1, rcode2) | _ => Crash end.

Definition setRcode (rcode : Z) (o : opt) : result opt :=
  match body_ o with
  | BFqdn flags _ _ n nt => Ok (set_body (BFqdn flags rcode rcode n nt) o)
  | _ => Crash
  end.

(** [unpack]: it parses into the object, so the flags and codes have changed
    when the domain name is rejected, and an empty domain name field leaves the
    name the object had. *)
Definition unpack (buf : list Z) (o : opt) : result unit * opt :=
  match body_ o with
  | BFqdn flags rcode1 rcode2 n nt =>
      let o := set_data buf o in
      match buf with
      | fl :: r1 :: r2 :: d =>
          match Fqdn.parseWireData buf with
          | Ok (BFqdn _ _ _ None _) => (Fqdn.checkFlags fl false, set_body (BFqdn fl r1 r2 n nt) o)
          | Ok b => (Fqdn.checkFlags fl false, set_body b o)
          | Throw e => (Throw e, set_body (BFqdn fl r1 r2 n nt) o)
          | Crash => (Crash, o)
          | NoFuel => (NoFuel, o)
          end
      | _ => (Throw OutOfRange, o)
      end
  | _ => (Crash, o)
  end.

(** What the holder of an option may do to it. *)
Inductive edit : Type :=
| SetFlag (flag : Z) (set_flag : bool)
| ResetFlags
| SetRcode (rcode : Z)
| SetDomainName (domain_name : list Z) (name_type : DomainNameType)
| ResetDomainName.

Definition apply (e : edit) (o : opt) : result opt :=
  match e with
  | SetFlag flag set_flag => setFlag flag set_flag o
  | ResetFlags => resetFlags o
  | SetRcode rcode => setRcode rcode o
  | SetDomainName domain_name name_type => setDomainName domain_name name_type o
  | ResetDomainName => resetDomainName o
  end.

(** A caller that goes on after an exception has the option it had. *)
Fixpoint apply_all (es : list edit) (o : opt) : result opt :=
  match es with
  | [] => Ok o
  | e :: es => match apply e o with Ok o' => apply_all es o' | Throw _ => apply_all es o | r => r end
  end.

End FqdnEdit.

(** ** Address lists *)
Module AddrLst.

Definition make (type : Z) : result opt := o ← Option_.make type; Ok (set_body (BAddrLst []) o).

Definition addAddress (addr : IOAddress) (o : opt) : result opt :=
  match body_ o with
  | BAddrLst addrs => throw_if (negb (IOAddr.isV4 addr)) BadValue;; Ok (set_body (BAddrLst (addrs ++ [addr])) o)
  | _ => Crash
  end.

Definition setAddress (addr : IOAddress) (o : opt) : result opt :=
  throw_if (negb (IOAddr.isV4 addr)) BadValue;; addAddress addr (set_body (BAddrLst []) o).

Fixpoint add_all (addrs : list IOAddress) (o : opt) : result unit * opt :=
  match addrs with
  | [] => (Ok tt, o)
  | addr :: addrs =>
      match addAddress addr o with
      | Ok o => add_all addrs o
      | Throw e => (Throw e, o)
      | Crash => (Crash, o)
      | NoFuel => (NoFuel, o)
      end
  end.

Definition setAddresses (addrs : list IOAddress) (o : opt) : result unit * opt := add_all addrs (set_body (BAddrLst []) o).

(** [Option4AddrLst(type, addrs)] *)
Definition make_addrs (type : Z) (addrs : list IOAddress) : result opt :=
  o ← Option_.make type;
  let '(r, o) := setAddresses addrs (set_body (BAddrLst []) o) in r;; Ok o.

End AddrLst.

(** ** Opaque data tuples, as the bytes they hold *)
Module TupleEdit.

Definition append (text t : list Z) : list Z := t ++ text.
Definition clear : list Z := [].
Definition assign (text : list Z) : list Z := if bool_decide (text = []) then clear else text.
Definition getText (t : list Z) : list Z := t.
Definition equals (t other : list Z) : bool := bool_decide (getText t = other).

(** [operator>>] on a good stream that delivers [input]: a block of 256 characters
    at a time, until one comes up short. *)
Fixpoint read_blocks (fuel : nat) (input t : list Z) : result (list Z) :=
  match fuel with
  | O => NoFuel
  | S fuel =>
      let t := append (take 256 input) t in
      if zlen input <? 256 then Ok t else read_blocks fuel (drop 256 input) t
  end.

Definition extract (input : list Z) : result (list Z) := read_blocks (S (length input)) input clear.

End TupleEdit.

(** [tuples_[at]] behind its guard. *)
Definition tuple_at (at_ : Z) (tuples : list (list Z)) : result (list Z) :=
  throw_if (zlen tuples <=? at_) OutOfRange;; zget tuples at_.
Definition tuple_set (at_ : Z) (tuple : list Z) (tuples : list (list Z)) : result (list (list Z)) :=
  throw_if (zlen tuples <=? at_) OutOfRange;; zset tuples at_ tuple.

Module DataTuples.

Definition make (type : Z) : result opt := o ← Option_.make type; Ok (set_body (BTuples []) o).
Definition addTuple (tuple : list Z) (o : opt) : result opt :=
  match body_ o with BTuples ts => Ok (set_body (BTuples (ts ++ [tuple])) o) | _ => Crash end.
Definition setTuple (at_ : Z) (tuple : list Z) (o : opt) : result opt :=
  match body_ o with BTuples ts => ts ← tuple_set at_ tuple ts; Ok (set_body (BTuples ts) o) | _ => Crash end.
Definition getTuple (at_ : Z) (o : opt) : result (list Z) :=
  match body_ o with BTuples ts => tuple_at at_ ts | _ => Crash end.
Definition hasTuple (tuple_str : list Z) (o : opt) : result bool :=
  match body_ o with BTuples ts => Ok (existsb (fun t => TupleEdit.equals t tuple_str) ts) | _ => Crash end.

End DataTuples.

Module VendorClass.

(** [OptionVendorClass(vendor_id)] starts with one empty tuple. *)
Definition addTuple (tuple : list Z) (o : opt) : result opt :=
  match body_ o with BVendorClass vid ts => Ok (set_body (BVendorClass vid (ts ++ [tuple])) o) | _ => Crash end.
Definition make (vendor_id : Z) : result opt :=
  o ← Option_.make DHO_VIVCO_SUBOPTIONS;
  addTuple [] (set_body (BVendorClass vendor_id []) o).
Definition setTuple (at_ : Z) (tuple : list Z) (o : opt) : result opt :=
  match body_ o with
  | BVendorClass vid ts => ts ← tuple_set at_ tuple ts; Ok (set_body (BVendorClass vid ts) o)
  | _ => Crash
  end.
Definition getTuple (at_ : Z) (o : opt) : result (list Z) :=
  match body_ o with BVendorClass _ ts => tuple_at at_ ts | _ => Crash end.
Definition hasTuple (tuple_str : list Z) (o : opt) : result bool :=
  match body_ o with BVendorClass _ ts => Ok (existsb (fun t => TupleEdit.equals t tuple_str) ts) | _ => Crash end.

End VendorClass.

(** ** The flags and the domain name stay valid *)
Definition flags_ok (fl : Z) : Prop := 0 <= fl < 16 /\ Z.land fl 9 <> 9.
#[global] Instance flags_ok_dec fl : Decision (flags_ok fl) := ltac:(unfold flags_ok; apply _).

Definition fqdn_ok (o : opt) : Prop :=
  exists fl r n nt, o = Opt DHO_FQDN [] (BFqdn fl r r n (Some nt)) [] "" /\ flags_ok fl /\ byte_ok r /\
    match n with Some n => name_wf n | None => nt = PARTIAL end.

(** An edit whose arguments are values of their C++ types. *)
Definition edit_ok (e : FqdnEdit.edit) : Prop :=
  match e with
  | FqdnEdit.SetFlag flag _ => byte_ok flag
  | FqdnEdit.SetRcode rcode => byte_ok rcode
  | FqdnEdit.SetDomainName name _ => bytes_ok name /\ zlen name <= 254
  | _ => True
  end.

Lemma checkFlags_ok fl : 0 <= fl ->
  Fqdn.checkFlags fl true = if decide (flags_ok fl) then Ok tt else Throw InvalidOption4FqdnFlags.
Proof.
  intros H. unfold Fqdn.checkFlags, Fqdn.FLAG_MASK. change (Z.lor Fqdn.FLAG_N Fqdn.FLAG_S) with 9.
  assert (Z.land fl (Z.lnot 15) = 0 <-> fl < 16) as E.
  { change (Z.land fl (Z.lnot 15)) with (Z.ldiff fl (Z.ones 4)) || rewrite <- Z.ldiff_land.
    rewrite Z.ldiff_ones_r, Z.shiftl_mul_pow2, Z.shiftr_div_pow2 by lia. change (2 ^ 4) with 16. zdiv. }
  unfold flags_ok. destruct (Z.eqb_spec (Z.land fl (Z.lnot 15)) 0), (Z.eqb_spec (Z.land fl 9) 9); simpl;
    case_decide; try done; exfalso; tauto || lia.
Qed.

Lemma trim_part s : bytes_ok s -> bytes_ok (Str.trim s) /\ zlen (Str.trim s) <= zlen s.
Proof.
  intros H. unfold Str.trim. repeat case_match; try (split; [constructor|unfold zlen; simpl; lia]).
  unfold substr. split; [by apply Forall_take, Forall_drop|]. unfold zlen. rewrite length_take, length_drop. lia.
Qed.

Lemma domain_name_value_ok s nt : bytes_ok s -> zlen s <= 254 ->
  match FqdnEdit.domain_name_value s nt with
  | Ok n => match n with Some n => name_wf n | None => nt = PARTIAL end
  | Throw e => e = InvalidOption4FqdnDomainName
  | _ => False
  end.
Proof.
  intros Hs Hl. destruct (trim_part s Hs) as [Ht Hlt]. unfold FqdnEdit.domain_name_value. case_bool_decide.
  - by destruct nt.
  - pose proof (Name_from_text_kea (Str.trim s) false Ht ltac:(lia)) as Hk.
    destruct (Name_from_text (Str.trim s) false) as [n|e| |] eqn:E; try done; simpl in *.
    + by eapply Name_from_text_wf.
    + by rewrite Hk.
Qed.

(** Every edit keeps the option valid, or throws. *)
Lemma apply_ok e o : fqdn_ok o -> edit_ok e ->
  match FqdnEdit.apply e o with
  | Ok o' => fqdn_ok o'
  | Throw x => x = InvalidOption4FqdnFlags \/ x = InvalidOption4FqdnDomainName
  | _ => False
  end.
Proof.
  intros (fl & r & n & nt & -> & Hf & Hr & Hn) He. destruct e as [flag b| |rc|name t|]; simpl in *.
  - unfold FqdnEdit.setFlag, Fqdn.setFlag; simpl. destruct (negb _ || _); [by left|]. simpl. cbv zeta.
    rewrite checkFlags_ok; [case_decide|]; [|by left|].
    + simpl. by eexists _, r, n, nt.
    + destruct Hf, He. destruct b; [apply Z.lor_nonneg; lia|apply Z.land_nonneg; lia].
  - by eexists 0, r, n, nt.
  - by eexists fl, rc, n, nt.
  - destruct He as [Hb Hl]. unfold FqdnEdit.setDomainName; simpl. pose proof (domain_name_value_ok name t Hb Hl) as H.
    destruct (FqdnEdit.domain_name_value name t) as [n'|x| |]; simpl; [|by right|done..]. by eexists fl, r, n', t.
  - by eexists fl, r, None, PARTIAL.
Qed.

Lemma make_name_ok fl r name nt : byte_ok fl -> byte_ok r -> bytes_ok name -> zlen name <= 254 ->
  match FqdnEdit.make_name fl r name nt with
  | Ok o => fqdn_ok o
  | Throw x => x = InvalidOption4FqdnFlags \/ x = InvalidOption4FqdnDomainName
  | _ => False
  end.
Proof.
  intros [Hf _] Hr Hb Hl. unfold FqdnEdit.make_name. simpl. rewrite checkFlags_ok by done. case_decide; [|by left]. simpl.
  unfold FqdnEdit.setDomainName; simpl. pose proof (domain_name_value_ok name nt Hb Hl) as Hv.
  destruct (FqdnEdit.domain_name_value name nt) as [n'|x| |]; simpl; [|by right|done..]. by eexists fl, r, n', nt.
Qed.

Lemma apply_all_ok es : forall o, fqdn_ok o -> Forall edit_ok es -> exists o', FqdnEdit.apply_all es o = Ok o' /\ fqdn_ok o'.
Proof.
  induction es as [|e es IH]; intros o Ho He; [by exists o|]. apply Forall_cons in He as [He Hes]. cbn [FqdnEdit.apply_all].
  pose proof (apply_ok e o Ho He) as H. destruct (FqdnEdit.apply e o); try done; by apply IH.
Qed.

(** ** What the receiver of the option reads *)

(** The wire form of a partial name is that of a full one if its last byte is
    the one that ends full names, the root label or, in ASCII, the dot. *)
Definition ends_clear (fl : Z) (n : option Name) (nt : DomainNameType) : bool :=
  match n, nt with
  | Some n, PARTIAL =>
      match last (take (length (ndata_ n) - 1) (ndata_ n)) with
      | Some c => negb (c =? if Z.land fl Fqdn.FLAG_E =? 0 then 46 else 0)
      | None => false
      end
  | _, _ => true
  end.

Lemma low_false ls : TextRoundTrip.low false ls = ls.
Proof.
  unfold TextRoundTrip.low. rewrite (list_fmap_ext _ id); [apply list_fmap_id|]. intros i x _. apply list_fmap_id.
Qed.

Lemma wire_name_back ls : labels_ok ls -> exists b,
  Name_from_wire (InputBuffer.make (labels_wire ls ++ [0])) false = Ok (of_labels ls, b).
Proof.
  intros H. destruct H as [Hls Hw]. assert (zlen (labels_wire ls ++ [0]) < 2 ^ 32) as Hz by (unfold MAX_WIRE in Hw; zlia).
  pose proof (wire_roundtrip false ls [] [] (conj Hls Hw)) as E. rewrite !app_nil_r in E. cbn [app] in E.
  rewrite low_false in E. eexists. apply E, Hz.
Qed.

Lemma dotted_end ls : ls <> [] -> Forall label_ok ls ->
  exists w t c, labels_wire ls = w ++ [c] /\ dotted ls = t ++ LabelSequence.char_text c.
Proof.
  induction ls as [|l ls IH]; [done|]. intros _ [[Hl _] Hls]%Forall_cons.
  destruct (exists_last (l := l)) as (l' & c & ->); [intros ->; unfold zlen in Hl; simpl in Hl; lia|].
  destruct ls as [|l2 ls].
  - exists (zlen (l' ++ [c]) :: l'), (LabelSequence.label_text l'), c. cbn [labels_wire dotted]. rewrite app_nil_r. split; [done|].
    unfold LabelSequence.label_text. rewrite fmap_app, concat_app. simpl. by rewrite app_nil_r.
  - destruct IH as (w & t & d & E1 & E2); [done..|].
    exists ((zlen (l' ++ [c]) :: l' ++ [c]) ++ w), ((LabelSequence.label_text (l' ++ [c]) ++ [46]) ++ t), d.
    cbn [labels_wire]. cbn [labels_wire] in E1. rewrite E1.
    change (dotted ((l' ++ [c]) :: l2 :: ls)) with (LabelSequence.label_text (l' ++ [c]) ++ [46] ++ dotted (l2 :: ls)).
    rewrite E2, <- !app_assoc. done.
Qed.

Lemma char_text_end c : exists t x, LabelSequence.char_text c = t ++ [x] /\ (x = 46 -> c = 46).
Proof.
  unfold LabelSequence.char_text. repeat case_match.
  - by exists [92], c.
  - by exists [], c.
  - exists [92; 48 + (c / 100) mod 10; 48 + (c / 10) mod 10], (48 + c mod 10). split; [done|]. intros. zdiv.
Qed.

(** A domain name is packed, and the field parses to it. *)
Lemma wire_field_back fl ls nt : labels_ok ls -> (Z.land fl Fqdn.FLAG_E =? 0) = false -> ends_clear fl (Some (of_labels ls)) nt = true ->
  exists d, Fqdn.packDomainName fl (Some (of_labels ls)) (Some nt) = Ok d /\ Fqdn.parseCanonicalDomainName d = Ok (Some (of_labels ls, nt)).
Proof.
  intros Hls E Hc. destruct (wire_name_back ls Hls) as [b Hb]. unfold Fqdn.packDomainName.
  change (Fqdn.getFlag fl Fqdn.FLAG_E) with (Ok (negb (Z.land fl Fqdn.FLAG_E =? 0))). rewrite bind_Ok, E. cbn [negb].
  rewrite of_name_dataLength, bind_Ok, (proj2 (Z.ltb_lt _ _)), of_name_data, bind_Ok by (apply Hls || zlia).
  eexists; split; [done|]. unfold Fqdn.parseCanonicalDomainName. destruct nt.
  - rewrite bool_decide_eq_true_2 by done. cbn [ends_clear ndata_ of_labels] in Hc. rewrite E in Hc.
    rewrite length_app in *. cbn [length] in *. rewrite Nat.add_sub, take_app_length in *.
    destruct (last (labels_wire ls)) as [c|]; [|done]. rewrite Hc. by rewrite Hb, bind_Ok.
  - rewrite bool_decide_eq_false_2, last_snoc by done. by rewrite Hb, bind_Ok.
Qed.

Lemma text_field_back fl ls nt : labels_ok ls -> (Z.land fl Fqdn.FLAG_E =? 0) = true -> ends_clear fl (Some (of_labels ls)) nt = true ->
  exists d, Fqdn.packDomainName fl (Some (of_labels ls)) (Some nt) = Ok d /\ Fqdn.parseASCIIDomainName d = Ok (Some (of_labels ls, nt)).
Proof.
  intros Hls E Hc. unfold Fqdn.packDomainName.
  change (Fqdn.getFlag fl Fqdn.FLAG_E) with (Ok (negb (Z.land fl Fqdn.FLAG_E =? 0))). rewrite bind_Ok, E. cbn [negb].
  unfold Fqdn.getDomainName. rewrite of_labels_toText by apply Hls. eexists; split; [done|].
  assert (exists x, last (labels_text ls (bool_decide (Some nt = Some PARTIAL))) = Some x /\ (if x =? 46 then FULL else PARTIAL) = nt)
    as (x & Hx & Hnt).
  { destruct nt.
    - cbn [ends_clear ndata_ of_labels] in Hc. rewrite E, length_app in Hc. cbn [length] in Hc. rewrite Nat.add_sub, take_app_length in Hc.
      assert (ls <> []) as Hne by (by intros ->). destruct (dotted_end ls Hne (proj1 Hls)) as (w & t & c & E1 & E2).
      rewrite E1, last_snoc in Hc. destruct (char_text_end c) as (t' & x & Ec & Hx). rewrite bool_decide_eq_true_2 by done.
      exists x. destruct ls as [|l ls]; [done|]. cbn [labels_text]. rewrite E2, Ec, app_nil_r, app_assoc, last_snoc. split; [done|].
      destruct (Z.eqb_spec x 46) as [e|]; [|done]. rewrite (Hx e) in Hc. done.
    - rewrite bool_decide_eq_false_2 by done. exists 46. destruct ls; [done|]. cbn [labels_text]. by rewrite last_snoc. }
  unfold Fqdn.parseASCIIDomainName. rewrite Hx, labels_text_parse, bind_Ok, low_false, Hnt by done. done.
Qed.

Lemma domain_name_back fl n nt : match n with Some n => name_wf n | None => nt = PARTIAL end -> ends_clear fl n nt = true ->
  exists d, Fqdn.packDomainName fl n (Some nt) = Ok d /\
    (if negb (Z.land fl Fqdn.FLAG_E =? 0) then Fqdn.parseCanonicalDomainName d else Fqdn.parseASCIIDomainName d)
      = Ok ((fun n => (n, nt)) <$> n).
Proof.
  intros Hn Hc. destruct n as [n|]; [|exists []; split; [done|]; by case_match]. destruct Hn as (ls & Hls & ->).
  destruct (Z.land fl Fqdn.FLAG_E =? 0) eqn:E; cbn [negb]; [by apply text_field_back|by apply wire_field_back].
Qed.

Lemma char_text_bound c : (length (LabelSequence.char_text c) <= 4)%nat.
Proof. unfold LabelSequence.char_text. repeat case_match; simpl; lia. Qed.

Lemma label_text_bound l : (length (LabelSequence.label_text l) <= 4 * length l)%nat.
Proof.
  induction l as [|c l IH]; [done|]. change (LabelSequence.label_text (c :: l)) with (LabelSequence.char_text c ++ LabelSequence.label_text l).
  rewrite length_app. pose proof (char_text_bound c). simpl. lia.
Qed.

Lemma dotted_bound ls : (length (dotted ls) <= 4 * length (labels_wire ls))%nat.
Proof.
  induction ls as [|l ls IH]; [done|]. pose proof (label_text_bound l). destruct ls as [|l2 ls].
  - simpl. rewrite length_app. simpl. lia.
  - change (dotted (l :: l2 :: ls)) with (LabelSequence.label_text l ++ [46] ++ dotted (l2 :: ls)).
    change (labels_wire (l :: l2 :: ls)) with ((zlen l :: l) ++ labels_wire (l2 :: ls)). rewrite !length_app. cbn [length]. lia.
Qed.

Lemma field_bound fl n nt d : match n with Some n => name_wf n | None => True end ->
  Fqdn.packDomainName fl n nt = Ok d -> zlen d <= 1100.
Proof.
  intros Hn H. destruct n as [n|]; [|by simplify_eq/=]. destruct Hn as (ls & [Hls Hw] & ->). unfold MAX_WIRE in Hw.
  unfold Fqdn.packDomainName in H. apply bind_ok in H as (e & _ & H). destruct e.
  - rewrite of_name_dataLength, bind_Ok, (proj2 (Z.ltb_lt _ _)), of_name_data, bind_Ok in H by (done || zlia). simplify_eq.
    case_bool_decide; [|zlia]. unfold zlen in *. rewrite length_take, length_app. cbn [length]. lia.
  - unfold Fqdn.getDomainName in H. rewrite of_labels_toText in H by done. simplify_eq. pose proof (dotted_bound ls).
    unfold zlen in *. destruct ls; cbn [labels_text]; [done|]. rewrite length_app. case_match; cbn [length]; lia.
Qed.

Lemma checkFlags_received fl : flags_ok fl -> Fqdn.checkFlags fl false = Ok tt.
Proof.
  intros [_ H]. unfold Fqdn.checkFlags. change (Z.lor Fqdn.FLAG_N Fqdn.FLAG_S) with 9. by rewrite (proj2 (Z.eqb_neq _ _)).
Qed.

(** The bytes of an option, and what the constructor from wire data makes of
    its payload. *)
Lemma fqdn_wire fl r n nt : flags_ok fl -> byte_ok r -> match n with Some n => name_wf n | None => nt = PARTIAL end ->
  ends_clear fl n nt = true -> exists d, Fqdn.packDomainName fl n (Some nt) = Ok d /\
    pack (Opt DHO_FQDN [] (BFqdn fl r r n (Some nt)) [] "") =
      (if 250 <? zlen d then Throw OutOfRange else Ok ([DHO_FQDN; 3 + zlen d; fl; r; r] ++ d)) /\
    (zlen d <= 250 -> Fqdn.make ([fl; r; r] ++ d) =
       Ok (Opt DHO_FQDN ([fl; r; r] ++ d) (BFqdn fl r r n ((fun _ => nt) <$> n)) [] "")).
Proof.
  intros Hf Hr Hn Hc. destruct (domain_name_back fl n nt Hn Hc) as (d & Hd & Hp). exists d. split; [done|].
  assert (zlen d <= 1100) as Hb by (eapply field_bound, Hd; by destruct n). pose proof (zlen_nonneg d).
  assert (Fqdn.domain_name_length fl n (Some nt) = Ok (zlen d)) as Hl by (eapply domain_name_size; [by destruct n|done|lia]).
  destruct (proj1 Hf) as [Hf0 Hf16]. unfold byte_ok in Hr. split.
  - assert (len (Opt DHO_FQDN [] (BFqdn fl r r n (Some nt)) [] "") = Ok (u16 (5 + zlen d))) as El by (cbn [len]; rewrite Hl; done).
    cbn [pack]. unfold packHeader. rewrite El, bind_Ok. unfold OPTION4_HDR_LEN.
    destruct (Z.ltb_spec 250 (zlen d)) as [Hlt|Hlt].
    + unfold throw_if. destruct (Z.ltb_spec 255 (u16 (5 + zlen d))) as [|Hx]; [done|]. exfalso. rewrite u16_small in Hx by lia. lia.
    + rewrite (u16_small (5 + zlen d)) by lia. rewrite (proj2 (Z.ltb_ge _ _)) by lia. cbn [throw_if]. rewrite !bind_Ok, Hd, bind_Ok.
      rewrite !u8_small by (cbn [type_]; unfold byte_ok, DHO_FQDN; lia). cbn [type_ app]. do 3 f_equal; lia.
  - intros Hs. unfold Fqdn.make, Option_.make_data, Option_.check. cbn [type_ data_ app]. rewrite !zlen_cons.
    rewrite (proj2 (Z.ltb_ge 255 DHO_FQDN)), (proj2 (Z.ltb_ge 255 (1 + _))) by (unfold DHO_FQDN; lia). cbn [throw_if]. rewrite !bind_Ok.
    unfold Fqdn.parseWireData. rewrite !zlen_cons, (proj2 (Z.ltb_ge _ _)) by (unfold Fqdn.FIXED_FIELDS_LEN; lia). cbn [throw_if].
    rewrite bind_Ok, Hp. cbn [try_kea]. rewrite !bind_Ok. cbn [Fqdn.flags_of]. rewrite checkFlags_received, bind_Ok by done. by destruct n.
Qed.

(** However an option is made and edited, with exceptions caught in between,
    its flags are valid; and unless the name has an end that is taken for that
    of a full name, the option is refused if the name takes more than 250 bytes
    and otherwise the receiver reads its flags, codes, name and kind of name. *)
Theorem fqdn_edited_read_back fl r name nt es o :
  byte_ok fl -> byte_ok r -> bytes_ok name -> zlen name <= 254 -> Forall edit_ok es ->
  FqdnEdit.make_name fl r name nt = Ok o ->
  exists fl r n nt, FqdnEdit.apply_all es o = Ok (Opt DHO_FQDN [] (BFqdn fl r r n (Some nt)) [] "") /\ flags_ok fl /\
    (ends_clear fl n nt = true -> exists d, Fqdn.packDomainName fl n (Some nt) = Ok d /\
       pack (Opt DHO_FQDN [] (BFqdn fl r r n (Some nt)) [] "") =
         (if 250 <? zlen d then Throw OutOfRange else Ok ([DHO_FQDN; 3 + zlen d; fl; r; r] ++ d)) /\
       (zlen d <= 250 -> Fqdn.make ([fl; r; r] ++ d) =
          Ok (Opt DHO_FQDN ([fl; r; r] ++ d) (BFqdn fl r r n ((fun _ => nt) <$> n)) [] ""))).
Proof.
  intros Hf Hr Hb Hl He Ho. pose proof (make_name_ok fl r name nt Hf Hr Hb Hl) as H. rewrite Ho in H.
  destruct (apply_all_ok es o H He) as (o' & E & fl' & r' & n & nt' & -> & Hf' & Hr' & Hn). exists fl', r', n, nt'.
  split; [done|]. split; [done|]. intros Hc. by apply fqdn_wire.
Qed.

(** A partial name that ends in a zero byte cannot be parsed from the option it
    is sent in, one that ends in a dot comes back as a full name, and the root
    is lost. *)
Example partial_name_ends :
  (o ← FqdnEdit.make_name 4 0 (bytes_of "a\000") PARTIAL; bs ← pack o; Fqdn.make (drop 2 bs)) = Throw InvalidOption4FqdnDomainName /\
  (o ← FqdnEdit.make_name 0 0 (bytes_of "a\.") PARTIAL; bs ← pack o; o ← Fqdn.make (drop 2 bs); Ok (body_ o)) =
    Ok (BFqdn 0 0 0 (Some (of_labels [[97; 46]])) (Some FULL)) /\
  (o ← FqdnEdit.make_name 4 0 (bytes_of ".") PARTIAL; bs ← pack o; o ← Fqdn.make (drop 2 bs); Ok (body_ o)) =
    Ok (BFqdn 4 0 0 None None).
Proof. repeat split; vm_compute; reflexivity. Qed.

(** ** Address lists *)
Fixpoint v4_prefix (addrs : list IOAddress) : list IOAddress :=
  match addrs with a :: addrs => if IOAddr.isV4 a then a :: v4_prefix addrs else [] | [] => [] end.

Lemma add_all_spec addrs : forall acc o, body_ o = BAddrLst acc ->
  AddrLst.add_all addrs o =
    (if forallb IOAddr.isV4 addrs then Ok tt else Throw BadValue, set_body (BAddrLst (acc ++ v4_prefix addrs)) o).
Proof.
  induction addrs as [|a addrs IH]; intros acc o Hb; simpl.
  - rewrite app_nil_r. destruct o; simpl in *. by subst.
  - unfold AddrLst.addAddress. rewrite Hb. destruct (IOAddr.isV4 a); simpl.
    + rewrite (IH (acc ++ [a])) by by destruct o. rewrite <- app_assoc. by destruct o.
    + rewrite app_nil_r. destruct o; simpl in *. by subst.
Qed.

(** [setAddresses] stores the addresses; when one is not an IPv4 address it
    throws, and the option has lost its addresses for those before it. *)
Theorem setAddresses_exact addrs o :
  AddrLst.setAddresses addrs o =
    (if forallb IOAddr.isV4 addrs then Ok tt else Throw BadValue, set_body (BAddrLst (v4_prefix addrs)) o).
Proof. unfold AddrLst.setAddresses. rewrite (add_all_spec _ []) by by destruct o. by destruct o. Qed.

(** ** Tuples *)
Lemma read_blocks_all fuel : forall input t, (length input < fuel)%nat -> TupleEdit.read_blocks fuel input t = Ok (t ++ input).
Proof.
  induction fuel as [|fuel IH]; intros input t Hf; [lia|]. cbn [TupleEdit.read_blocks]. unfold TupleEdit.append, zlen.
  destruct (Z.ltb_spec (Z.of_nat (length input)) 256).
  - by rewrite take_ge by lia.
  - rewrite IH by (rewrite length_drop; lia). by rewrite <- app_assoc, take_drop.
Qed.

(** Reading a tuple from a stream reads all of it. *)
Theorem extract_all input : TupleEdit.extract input = Ok input.
Proof. unfold TupleEdit.extract. rewrite read_blocks_all by lia. done. Qed.

Lemma tuple_back t x rest : Tuple.pack t = Ok x -> Tuple.unpack (x ++ rest) = Ok t /\ zlen x = Tuple.getTotalLength t /\ 1 <= zlen t.
Proof.
  intros H. pose proof (tuple_pack_len t x H) as (Hx & H1 & H2). split; [|lia]. unfold Tuple.pack in H. repeat case_match; try done.
  simplify_eq. rewrite u8_small by (split; [apply zlen_nonneg|done]). cbn [app Tuple.unpack].
  rewrite (proj2 (Z.ltb_ge _ _)) by zlia. cbn [throw_if]. rewrite bind_Ok. exact (slice_app [] t rest).
Qed.

Lemma opaque_tuples_back ts : forall fuel pre bs, pack_tuples ts = Ok bs -> (length bs < fuel)%nat ->
  opaque_tuples fuel (pre ++ bs) (zlen pre) = Ok ts.
Proof.
  induction ts as [|t ts IH]; intros fuel pre bs H Hf; (destruct fuel as [|fuel]; [lia|]); cbn [pack_tuples opaque_tuples] in *.
  - simplify_eq. by rewrite app_nil_r, Z.ltb_irrefl.
  - apply bind_ok in H as (x & Hx & H). apply bind_ok in H as (r & Hr & <-%Ok_inj).
    destruct (tuple_back t x r Hx) as (Hu & El & Ht). rewrite (proj2 (Z.ltb_lt _ _)) by (unfold Tuple.getTotalLength, Tuple.getDataFieldSize in El; zlia).
    rewrite to_nat_zlen, drop_app_length, Hu, bind_Ok, <- El, <- zlen_app, app_assoc, (IH fuel (pre ++ x) r); [done..|].
    unfold Tuple.getTotalLength, Tuple.getDataFieldSize, zlen in *. rewrite length_app in Hf. lia.
Qed.

Lemma vendor_tuples_first vid ts bs : pack_vendor_tuples vid false ts = Ok bs -> ts <> [] ->
  exists r, bs = bytes32 vid ++ r /\ pack_vendor_tuples vid true ts = Ok r /\ 2 <= zlen r.
Proof.
  intros H Hne. destruct ts as [|t ts]; [done|]. cbn [pack_vendor_tuples] in *. apply bind_ok in H as (x & Hx & H).
  apply bind_ok in H as (r & Hr & <-%Ok_inj). exists (x ++ r). rewrite Hx, bind_Ok, Hr, bind_Ok. repeat split.
  apply tuple_pack_len in Hx as [El ?]. unfold Tuple.getTotalLength, Tuple.getDataFieldSize in El. zlia.
Qed.

Lemma vendor_tuples_back vid ts : forall fuel pre bs, pack_vendor_tuples vid true ts = Ok bs -> (length bs < fuel)%nat ->
  vendor_tuples fuel (pre ++ bs) (zlen pre) = Ok ts.
Proof.
  induction ts as [|t ts IH]; intros fuel pre bs H Hf; (destruct fuel as [|fuel]; [lia|]); cbn [pack_vendor_tuples vendor_tuples] in *.
  - simplify_eq. by rewrite app_nil_r, Z.ltb_irrefl.
  - apply bind_ok in H as (x & Hx & H). apply bind_ok in H as (r & Hr & <-%Ok_inj). cbn [app] in *.
    destruct (tuple_back t x r Hx) as (Hu & El & Ht). pose proof El as El'. unfold Tuple.getTotalLength, Tuple.getDataFieldSize in El'.
    rewrite (proj2 (Z.ltb_lt _ _)) by zlia. rewrite to_nat_zlen, drop_app_length, Hu, bind_Ok, <- El. cbv zeta.
    destruct (decide (ts = [])) as [->|Hne].
    + cbn [pack_vendor_tuples] in Hr. simplify_eq. rewrite app_nil_r, <- zlen_app, Z.eqb_refl. cbn [negb].
      destruct fuel as [|fuel]; [unfold zlen in *; rewrite length_app in Hf; lia|]. cbn [vendor_tuples]. by rewrite Z.ltb_irrefl.
    + destruct (vendor_tuples_first vid ts r Hr Hne) as (r' & -> & Hr' & Hz). pose proof (zlen_bytes32 vid) as H4.
      rewrite (proj2 (Z.eqb_neq _ _)) by zlia. cbn [negb]. rewrite (proj2 (Z.leb_gt _ _)) by zlia. cbn [throw_if]. rewrite bind_Ok.
      pose proof (IH fuel (pre ++ x ++ bytes32 vid) r' Hr') as E. rewrite <- !app_assoc in E.
      replace (zlen (pre ++ x ++ bytes32 vid)) with (zlen pre + zlen x + 4) in E by zlia. rewrite E; [done|].
      unfold zlen in *. rewrite !length_app in Hf. lia.
Qed.

(** An option of opaque tuples that can be packed is read back with its
    tuples. *)
Theorem tuples_read_back type ts bs : 1 <= type <= 254 -> ts <> [] ->
  pack (Opt type [] (BTuples ts) [] "") = Ok bs ->
  OptionOpaqueDataTuples_make type (drop 2 bs) = Ok (Opt type [] (BTuples ts) [] "").
Proof.
  intros Ht Hne H. cbn [pack] in H. apply bind_ok in H as (h & Hh & H). apply bind_ok in H as (r & Hr & <-%Ok_inj).
  unfold packHeader in Hh. apply bind_ok in Hh as (l & _ & Hh). apply bind_ok in Hh as (_ & _ & <-%Ok_inj). cbn [app drop].
  unfold OptionOpaqueDataTuples_make, Option_.make.
  rewrite (proj2 (Z.eqb_neq type 0)), (proj2 (Z.ltb_ge 254 type)) by lia. cbn [orb throw_if]. rewrite !bind_Ok.
  assert (2 <= zlen r) as Hz.
  { destruct ts as [|t ts]; [done|]. cbn [pack_tuples] in Hr. apply bind_ok in Hr as (x & Hx & Hr). apply bind_ok in Hr as (y & _ & <-%Ok_inj).
    apply tuple_pack_len in Hx as [El ?]. unfold Tuple.getTotalLength, Tuple.getDataFieldSize in El. zlia. }
  rewrite (proj2 (Z.ltb_ge (zlen r) _)) by (unfold OPTION4_HDR_LEN; lia). cbn [throw_if]. rewrite bind_Ok.
  pose proof (opaque_tuples_back ts (S (length r)) [] r Hr ltac:(lia)) as E. cbn [app] in E. change (zlen []) with 0 in E. cbn [app type_]. by setoid_rewrite E.
Qed.

(** The same for the vendor class option; as it is constructed, with one empty
    tuple, it cannot be packed. *)
Theorem vendor_class_read_back vid ts bs : 0 <= vid < 2 ^ 32 -> ts <> [] ->
  pack (Opt DHO_VIVCO_SUBOPTIONS [] (BVendorClass vid ts) [] "") = Ok bs ->
  OptionVendorClass_make (drop 2 bs) = Ok (Opt DHO_VIVCO_SUBOPTIONS [] (BVendorClass vid ts) [] "").
Proof.
  intros Hv Hne H. cbn [pack] in H. apply bind_ok in H as (h & Hh & H). apply bind_ok in H as (r & Hr & <-%Ok_inj).
  unfold packHeader in Hh. apply bind_ok in Hh as (l & _ & Hh). apply bind_ok in Hh as (_ & _ & <-%Ok_inj). cbn [app drop].
  unfold OptionVendorClass_make. change (Option_.make DHO_VIVCO_SUBOPTIONS) with (Ok (Opt DHO_VIVCO_SUBOPTIONS [] BPlain [] "")).
  rewrite bind_Ok. assert (2 <= zlen r) as Hz.
  { destruct ts as [|t ts]; [done|]. cbn [pack_vendor_tuples] in Hr. apply bind_ok in Hr as (x & Hx & Hr). apply bind_ok in Hr as (y & _ & <-%Ok_inj).
    apply tuple_pack_len in Hx as [El ?]. unfold Tuple.getTotalLength, Tuple.getDataFieldSize in El. cbn [app]. zlia. }
  pose proof (zlen_bytes32 vid) as H4. rewrite !drop_0, (proj2 (Z.ltb_ge _ _)) by (unfold OPTION4_HDR_LEN; zlia). cbn [throw_if].
  rewrite bind_Ok, readUint32_bytes, bind_Ok by done. change (drop 4 (bytes32 vid ++ r)) with r. cbv zeta.
  pose proof (vendor_tuples_back vid ts (S (length r)) [] r Hr ltac:(lia)) as E. cbn [app] in E. change (zlen []) with 0 in E. cbn [app type_]. by setoid_rewrite E.
Qed.

Example vendor_class_as_made : (o ← VendorClass.make 9; pack o) = Throw OpaqueDataTupleError /\
  (o ← VendorClass.make 9; o ← VendorClass.setTuple 0 [97; 98] o; pack o) = Ok [124; 7; 0; 0; 0; 9; 2; 97; 98].
Proof. split; vm_compute; reflexivity. Qed.
