(* ===== verification/PktText.v ===== *)
(** The text of a packet, as it is logged: [toText] and the labels of
    dhcp++/pkt.cpp. *)
From stdpp Require Import base list numbers option strings gmap.
From Stdlib Require Import ZArith Lia.
From S2P Require Import Prelude Buffer HwAddr Encode Text Address DnsName DnsNameFacts DnsWireFacts OptionDef Options OptionsFacts.
From S2P Require Import OptionsPack OptionsRoundTrip Pkt PktFacts ResponseGen QueryFacts OptionTyping OptionText.

Module PText.
Section PText.
Context `{Inet6} `{TransformWidth}.

(** [HWAddr::toText(true)] *)
Definition hwaddr_text (a : HWAddr) : list Z :=
  bytes_of "hwtype=" ++ int_text (htype_ a) ++ [32] ++ HW.toText a.

(** [makeLabel] without and with a transaction id *)
Definition makeLabel (hwaddr : option HWAddr) (client_id : option (list Z)) : list Z :=
  bytes_of "[" ++ match hwaddr with Some a => hwaddr_text a | None => bytes_of "no hwaddr info" end ++
  bytes_of "], cid=[" ++ match client_id with Some c => ClientId.toText c | None => bytes_of "no info" end ++ bytes_of "]".
Definition makeLabel_tid (hwaddr : option HWAddr) (client_id : option (list Z)) (transid : Z) : list Z :=
  makeLabel hwaddr client_id ++ bytes_of ", tid=0x" ++ unsigned_text 16 transid.
Definition getLabel (p : Pkt) : result (list Z) :=
  match P.getOption DHO_DHCP_CLIENT_IDENTIFIER p with
  | Some client_opt => client_id ← ClientId.make (data_ client_opt); Ok (makeLabel_tid (Some (chaddr_ p)) (Some client_id) (transid_ p))
  | None => Ok (makeLabel_tid (Some (chaddr_ p)) None (transid_ p))
  end.

(** [try { output << std::endl << opt.toText(2); } catch (...) { ... }]:
    [endl_first] is whether the line is ended before the text is made, which
    the language leaves open. *)
Variable endl_first : bool.
Definition option_text (o : opt) : result (list Z) :=
  match OText.toText 2 o with
  | Ok t => Ok (10 :: t)
  | Throw _ => Ok ((if endl_first then [10] else []) ++ bytes_of "(unknown)" ++ [10])
  | Crash => Crash
  | NoFuel => NoFuel
  end.

Definition toText (p : Pkt) : result (list Z) :=
  let head := bytes_of "local_address=" ++ address_text (local_addr_ p) ++ [58] ++ int_text (local_port_ p) ++
              bytes_of ", remote_adress=" ++ address_text (remote_addr_ p) ++
              bytes_of ", client_adress=" ++ address_text (ciaddr_ p) ++ [58] ++ int_text (remote_port_ p) ++
              bytes_of ", msg_type=" in
  msg_type ← P.getType p;
  let type := if negb (msg_type =? DHCP_NOTYPE)
              then bytes_of (P.getName_of msg_type) ++ bytes_of " (" ++ int_text msg_type ++ bytes_of ")"
              else bytes_of "(missing)" in
  let addr := bytes_of ", " ++ hwaddr_text (chaddr_ p) ++
              (if IOAddr.isV4Zero (yiaddr_ p) then [] else bytes_of ", yiaddr=" ++ address_text (yiaddr_ p)) ++
              bytes_of ", transid=0x" ++ unsigned_text 16 (transid_ p) in
  match poptions_ p with
  | [] => Ok (head ++ type ++ addr ++ bytes_of ", message contains no options")
  | os => t ← concat_results (map (fun o => option_text (snd o)) os);
          Ok (head ++ type ++ addr ++ bytes_of "," ++ [10] ++ bytes_of "options:" ++ t)
  end.
End PText.
End PText.

(** ** The text of typed options *)
Section Safe.
Context `{Inet6} `{TransformWidthLaws}.

Lemma hex_ok b : bytes_ok b -> safe (encodeHex b).
Proof. intros Hb. destruct (encode_shape Base16 Base16_ok b Hb) as (text & values & p & z & E & _). unfold encodeHex. by rewrite E. Qed.

(** The buffer of a field, and where its type comes from. *)
Definition field_at (def : OptionDefinition) (bufs : list (list Z)) (t : OptionDataType) (i : Z) : Prop :=
  (exists b, zget bufs i = Ok b /\ field_ok t b) /\
  (otype_ def = OPT_RECORD_TYPE -> i < zlen (record_fields_ def) /\ zget (record_fields_ def) i = Ok t).

Lemma safe_checkDataType def bufs t i ty : field_at def bufs ty i -> safe (Custom.checkDataType def t i).
Proof.
  intros [_ Hr]. unfold Custom.checkDataType. case_bool_decide as E.
  - destruct (Hr E) as [Hi ->]. rewrite (proj2 (Z.ltb_lt _ _) Hi). cbn [assert_]. rewrite !bind_Ok. apply safe_throw_if.
  - rewrite bind_Ok. apply safe_throw_if.
Qed.

Lemma safe_integer def bufs t i ty : field_at def bufs ty i -> safe (Custom.readInteger def bufs t i).
Proof.
  intros Hf. unfold Custom.readInteger, Custom.checkIndex. apply safe_bind; [apply safe_throw_if|]. intros _ _.
  apply safe_bind; [by eapply safe_checkDataType|]. intros _ _. destruct Hf as [(b & -> & Hb & Hl & _) _]. rewrite bind_Ok.
  unfold OptionDataTypeUtil.readInt. apply safe_bind; [apply safe_throw_if|]. intros [] Hs%throw_if_ok.
  apply safe_bind; [|done]. assert (1 <= sizeof t) by (by destruct t). destruct t; cbn [sizeof];
    first [apply kea_safe, kea_zget; cbn in Hs; lia|apply kea_safe, kea_readUint16|apply kea_safe, kea_readUint32].
Qed.

Lemma safe_field def bufs t i : field_at def bufs t i -> safe (Custom.dataFieldToText def bufs t i).
Proof.
  intros Hf. pose proof Hf as [(b & Eb & Hb & Hl & _) _]. unfold Custom.dataFieldToText. apply safe_bind; [|done].
  assert (safe (Custom.checkIndex bufs i)) as Hci by apply safe_throw_if.
  destruct t; cbn [Custom.dataFieldToString]; try done;
    try (apply safe_bind; [by eapply safe_integer|done]).
  - apply safe_bind; [|]. 2: intros b' E'.
    + unfold Custom.readBinary. rewrite Eb. by apply safe_bind.
    + apply hex_ok. unfold Custom.readBinary in E'. apply bind_ok in E' as (_ & _ & E'). congruence.
  - apply safe_bind; [|done]. unfold Custom.readBoolean. rewrite Eb. apply safe_bind; [done|]. intros _ _. rewrite bind_Ok.
    unfold OptionDataTypeUtil.readBool. destruct b as [|x b]; [done|]. by destruct (x =? 1), (x =? 0).
  - apply safe_bind; [|done]. unfold readAddress. apply safe_bind; [apply safe_throw_if|]. intros _ _. rewrite Eb, bind_Ok.
    destruct (zlen b =? V4ADDRESS_LEN) eqn:E; [|done].
    destruct b as [|b0 [|b1 [|b2 [|b3 b]]]]; try done. rewrite !bytes_ok_cons in Hb. destruct Hb as (? & ? & ? & ? & _).
    unfold OptionDataTypeUtil.readAddress. cbn [Z.eqb]. rewrite Z.eqb_refl. apply safe_bind; [apply safe_throw_if|]. intros _ _.
    by rewrite fromBytes_ok.
  - apply safe_bind; [|done]. unfold Custom.readString. rewrite Eb. by apply safe_bind.
  - apply safe_bind; [|done]. unfold Custom.readFqdn. rewrite Eb. apply safe_bind; [done|]. intros _ _. rewrite bind_Ok.
    apply kea_safe, kea_readFqdn; [done|lia].
Qed.

Lemma safe_fields def bufs sep types i :
  (forall k t, types !! k = Some t -> field_at def bufs t (i + Z.of_nat k)) ->
  safe (Custom.fields_text (Custom.dataFieldToText def bufs) sep types i).
Proof.
  revert i. induction types as [|t types IH]; intros i Hf; [done|]. cbn [Custom.fields_text].
  apply safe_bind; [apply safe_field; replace i with (i + Z.of_nat 0) by lia; by apply Hf|]. intros x _.
  apply safe_bind; [|done]. apply IH. intros k ty Hk. replace (i + 1 + Z.of_nat k) with (i + Z.of_nat (S k)) by lia. by apply Hf.
Qed.

Lemma zget_lookup {A} (l : list A) k a : l !! k = Some a -> zget l (Z.of_nat k) = Ok a.
Proof. intros E. unfold zget. by rewrite decide_True, Nat2Z.id, E by lia. Qed.

(** The fields of a well-typed custom option. *)
Lemma typed_fields def bufs k t : fields_ok def bufs -> Custom.field_types def bufs !! k = Some t -> field_at def bufs t (0 + Z.of_nat k).
Proof.
  unfold fields_ok, Custom.field_types. intros Hf Hk. rewrite Z.add_0_l. case_bool_decide as E.
  - rewrite E in Hf. destruct (Forall2_lookup_l _ _ _ _ _ Hf Hk) as (b & Eb & Hb). split; [exists b; by split; [apply zget_lookup|]|].
    intros _. split; [apply lookup_lt_Some in Hk; unfold zlen; lia|by apply zget_lookup].
  - apply lookup_replicate in Hk as [-> Hlt]. destruct (lookup_lt_is_Some_2 _ _ Hlt) as [b Eb]. split; [|done].
    exists b. split; [by apply zget_lookup|]. destruct (otype_ def) eqn:Et; try done; try (by subst bufs);
      (rewrite Forall_lookup in Hf; eapply (proj1 Hf); done).
Qed.

Lemma safe_flag flags flag : safe (Fqdn.getFlag flags flag).
Proof. unfold Fqdn.getFlag. apply safe_bind; [apply safe_throw_if|done]. Qed.

Lemma safe_domain_name (name : option Name) nt : match name with Some n => name_wf n | None => True end -> safe (Fqdn.getDomainName name nt).
Proof. destruct name as [n|]; [|done]. intros Hn. cbn. by destruct (name_wf_toText n (bool_decide (nt = Some PARTIAL)) Hn) as [t ->]. Qed.

Lemma safe_sum (l : list (result Z)) : Forall safe l -> safe (sum_results l).
Proof. induction 1 as [|r l Hr Hl IH]; [done|]. cbn. apply safe_bind; [done|]. intros x _. by apply safe_bind. Qed.
Lemma safe_concat (l : list (result (list Z))) : Forall safe l -> safe (concat_results l).
Proof. induction 1 as [|r l Hr Hl IH]; [done|]. cbn. apply safe_bind; [done|]. intros x _. by apply safe_bind. Qed.

Lemma typed_parts lib defs k t d b os s : opt_typed lib defs (k, Opt t d b os s) ->
  (forall (P : opt -> Prop), Forall (fun p => forall defs k, opt_typed lib defs (k, p.2) -> P p.2) os -> Forall (fun p => P p.2) os) /\
  match b with
  | BFqdn _ _ _ name _ => match name with Some n => name_wf n | None => True end
  | BCustom def bufs => fields_ok def bufs
  | _ => True
  end.
Proof.
  inversion 1 as [defs' k' o' Hd Ht Hb Hos|defs' k' o' def Hd Ht Hb Hos]; cbn in *; subst; [done|]. split.
  - intros P HP. apply Forall_forall. intros [k' o'] Hin. rewrite Forall_forall in HP, Hos. eapply (HP (k', o') Hin), (Hos (k', o') Hin).
  - unfold body_typed in Hb. cbn in Hb. destruct b; try done; [by destruct Hb as [-> ?]|apply Hb].
Qed.

(** Nothing of a typed option prevents its length and its text. *)
Lemma typed_len lib defs k o : opt_typed lib defs (k, o) -> safe (Options.len o).
Proof.
  revert defs k. induction o as [t d b os s IH] using opt_nested_ind. intros defs k [Hs Hb]%typed_parts.
  specialize (Hs (fun o => safe (Options.len o)) IH). cbn [Options.len].
  assert (safe (sum_results (map (fun p => Options.len (snd p)) os))) as Hsum by (apply safe_sum, Forall_map; done).
  destruct b as [| | | | | |? ? ? name ?| | |]; try done; try (by apply safe_bind).
  apply safe_bind; [|done]. unfold Fqdn.domain_name_length. destruct name as [n|]; [|done]. apply safe_bind; [apply safe_flag|].
  intros [] _; [done|]. apply safe_bind; [|done]. by apply safe_domain_name.
Qed.

Lemma typed_text lib defs k o : opt_typed lib defs (k, o) -> forall indent, safe (OText.toText indent o).
Proof.
  revert defs k. induction o as [t d b os s IH] using opt_nested_ind. intros defs k Ho indent.
  assert (safe (Options.len (Opt t d b os s))) as Hl by (by eapply typed_len). apply typed_parts in Ho as [Hs Hb].
  specialize (Hs (fun o => forall indent, safe (OText.toText indent o)) IH).
  assert (forall i, safe (OText.suboptionsToText (map (fun p => OText.toText i (snd p)) os))) as Hsub.
  { intros i. unfold OText.suboptionsToText. destruct os as [|p os]; [done|]. apply safe_bind; [|done]. apply safe_concat.
    apply Forall_fmap, Forall_map. eapply Forall_impl; [exact Hs|]. cbn. intros q Hq. by apply safe_bind. }
  assert (forall name, safe (OText.headerToText (Opt t d b os s) indent name)) as Hh by (intros name; by apply safe_bind).
  cbn [OText.toText]. destruct b as [| | | | |def bufs|flags ? ? name nt| | |]; cbn [OText.toText] in *.
  all: try (apply safe_bind; [first [exact Hl|apply Hh]|done]).
  all: try (apply safe_bind; [apply Hh|]; intros x _; apply safe_bind; [apply Hsub|done]).
  - apply safe_bind; [apply Hh|]. intros x _. apply safe_bind; [|intros y _; by apply safe_bind; [apply Hsub|]].
    apply safe_fields. intros j ty. by apply typed_fields.
  - unfold OText.fqdn_text, OText.flag_text.
    do 4 (apply safe_bind; [apply safe_bind; [apply safe_flag|done]|]; intros ? _). apply safe_bind; [by apply safe_domain_name|done].
  - apply safe_bind; [apply Hh|]. intros x _. apply safe_bind; [exact Hl|]. intros y _. apply safe_bind; [apply Hsub|done].
Qed.

(** The text of a packet whose options are typed. *)
Lemma text_total lib defs endl p : Forall (opt_typed lib defs) (poptions_ p) -> is_ok (P.getType p) = true ->
  exists t, PText.toText endl p = Ok t.
Proof.
  intros Ho Ht. unfold PText.toText. destruct (P.getType p) as [ty| | |]; try done. rewrite bind_Ok. cbv zeta.
  destruct (poptions_ p) as [|e os] eqn:E; [by eexists|]. rewrite <- E in *.
  assert (exists t, concat_results (map (fun o => PText.option_text endl (snd o)) (poptions_ p)) = Ok t) as [t ->]; [|by eexists].
  clear E. induction Ho as [|[k o] l Ho Hl IH]; [by eexists|]. destruct IH as [t E]. cbn [map snd concat_results foldr].
  change (foldr _ _ ?l) with (concat_results l). rewrite E. pose proof (typed_text _ _ _ _ Ho 2) as Hs. unfold PText.option_text.
  destruct (OText.toText 2 o); try done; rewrite !bind_Ok; by eexists.
Qed.
End Safe.

(** The options of an unpacked packet are typed. *)
Lemma unpack_typed lib p p' :
  lib_safe lib -> lib_keyed lib -> bytes_ok (pdata_ p) -> zlen (pdata_ p) < 2^32 -> poptions_ p = [] ->
  P.unpack lib p = Ok p' -> Forall (opt_typed lib (lookup_def lib DHCP4_OPTION_SPACE)) (poptions_ p').
Proof.
  intros Hsafe Hkey Hb Hl Ho Hu. destruct (decide (zlen (pdata_ p) < 236)) as [H|H].
  { unfold P.unpack in Hu. apply bind_ok in Hu as ([] & Ht%throw_if_ok & _). unfold DHCPV4_PKT_HDR_LEN in Ht.
    change (InputBuffer.getLength _) with (zlen (pdata_ p)) in Ht. lia. }
  destruct (header_split (pdata_ p) Hb) as (h & rest & E & Hh & Hbr & Hlr); [lia|].
  rewrite (unpack_view lib p h rest) in Hu by (done || by apply Forall_take || lia).
  pose proof (unpack_rest_outcome lib h rest p Hsafe Hh Hbr ltac:(lia)) as Hr.
  destruct (unpack_error h rest); [congruence|]. destruct Hr as (os & off & Hos & _ & Hr).
  rewrite Hr in Hu. apply Ok_inj in Hu. subst p'. change (poptions_ (unpacked _ _ os p)) with os.
  rewrite Ho in Hos. eapply unpackOptions4_typed; [done|by apply bytes_ok_drop|exact Hos].
Qed.
