(* ===== verification/ClientClass.v ===== *)
(** Client classes: server/client_class_matcher.cpp, client_class_parser.cpp
    and client_class_manager.cpp, with the PEGTL rules the grammar uses.

    A rule is a function from the parser state to whether it matched and the
    state it leaves.  A rule that fails gives its input back; what its actions
    did to the builder and to the tokens stays. *)
From stdpp Require Import base list numbers option strings gmap.
From Stdlib Require Import ZArith Lia.
From S2P Require Import Prelude Buffer Address DnsName OptionDef Options HwAddr Encode.
From S2P Require Import Text Pkt ResponseGen OptionText.

(** ** Matchers *)
Definition PktOptionMatcher : Type := Pkt -> result bool.

Inductive MatcherOperator : Set := And | Or | LeftBracket | RightBracket.

#[global] Instance MatcherOperator_eq_dec : EqDecision MatcherOperator.
Proof. solve_decision. Defined.

(** The stacks, the top first. *)
Record Builder := MkBuilder { matcher_stack_ : list PktOptionMatcher; operator_stack_ : list MatcherOperator }.

Module Match.
Section Match.
Context `{Inet6} `{TransformWidth} `{LexicalCast}.
Variable std : OptionMeta.

(** [std::string::substr] throws beyond the end. *)
Definition std_substr (s : list Z) (pos count : Z) : result (list Z) :=
  throw_if (zlen s <? pos) StdOutOfRange;; Ok (take (Z.to_nat count) (drop (Z.to_nat pos) s)).

Definition substringMatcherGenerator (code start_pos end_pos : Z) (equal_or_not : bool) (expect_value : list Z)
    : PktOptionMatcher := fun pkt =>
  match P.getOption code pkt with
  | None => Ok false
  | Some option =>
      s ← OText.toString option;
      sub ← std_substr s start_pos end_pos;
      Ok (Bool.eqb (bool_decide (sub = expect_value)) equal_or_not)
  end.

Definition optionExistsMatcherGenerator (code : Z) (expect_value : bool) : PktOptionMatcher := fun pkt =>
  let exists_ := match P.getOption code pkt with Some _ => true | None => false end in
  Ok (if expect_value then exists_ else negb exists_).

Definition optionValueMatcherGenerator (code : Z) (equal_or_not : bool) (expect_value : list Z)
    : PktOptionMatcher := fun pkt =>
  match P.getOption code pkt with
  | None => Ok false
  | Some option => s ← OText.toString option; Ok (Bool.eqb (bool_decide (s = expect_value)) equal_or_not)
  end.

Definition andMatcher (f1 f2 : PktOptionMatcher) : PktOptionMatcher := fun pkt =>
  b ← f1 pkt; if (b : bool) then f2 pkt else Ok false.
Definition orMatcher (f1 f2 : PktOptionMatcher) : PktOptionMatcher := fun pkt =>
  b ← f1 pkt; if (b : bool) then Ok true else f2 pkt.

(** ** The builder *)
Definition UINT16_MAX : Z := 2^16 - 1.

Definition getOptionCode (opt_name : list Z) : result Z :=
  let def := match lexical_cast 0 UINT16_MAX opt_name with
             | Some code => Meta.getOptionDef_code code std
             | None => Meta.getOptionDef_name (string_of opt_name) std
             end in
  match def with None => Throw UnknownOptionError | Some d => Ok (code_ d) end.

(** [top()] and [pop()] of an empty stack are undefined behaviour. *)
Definition addMatcher (new_matcher : PktOptionMatcher) (b : Builder) : result Builder :=
  match matcher_stack_ b with
  | [] => Ok (MkBuilder [new_matcher] (operator_stack_ b))
  | m :: ms =>
      match operator_stack_ b with
      | [] => Crash
      | And :: ops => Ok (MkBuilder (andMatcher m new_matcher :: ms) ops)
      | Or :: ops => Ok (MkBuilder (orMatcher m new_matcher :: ms) ops)
      | LeftBracket :: ops => Ok (MkBuilder (new_matcher :: m :: ms) (LeftBracket :: ops))
      | RightBracket :: _ => Crash
      end
  end.

Definition addSubstringMatcher (opt_name : list Z) (start_pos end_pos : Z) (equal_or_not : bool)
    (expect_value : list Z) (b : Builder) : result Builder :=
  code ← getOptionCode opt_name;
  addMatcher (substringMatcherGenerator code start_pos end_pos equal_or_not expect_value) b.
Definition addOptionExistsMatcher (opt_name : list Z) (expect_value : bool) (b : Builder) : result Builder :=
  code ← getOptionCode opt_name; addMatcher (optionExistsMatcherGenerator code expect_value) b.
Definition addOptionValueMatcher (opt_name : list Z) (equal_or_not : bool) (expect_value : list Z) (b : Builder)
    : result Builder :=
  code ← getOptionCode opt_name; addMatcher (optionValueMatcherGenerator code equal_or_not expect_value) b.

Definition push_operator (o : MatcherOperator) (b : Builder) : Builder :=
  MkBuilder (matcher_stack_ b) (o :: operator_stack_ b).
Definition onLeftBracket : Builder -> Builder := push_operator LeftBracket.
Definition onAnd : Builder -> Builder := push_operator And.
Definition onOr : Builder -> Builder := push_operator Or.

Definition onRightBracket (b : Builder) : result Builder :=
  match operator_stack_ b with
  | LeftBracket :: ops =>
      match matcher_stack_ b with
      | [] => Crash
      | component_matcher :: ms => addMatcher component_matcher (MkBuilder ms ops)
      end
  | _ => Crash
  end.

Definition getMatcher (b : Builder) : result PktOptionMatcher :=
  match matcher_stack_ b, operator_stack_ b with
  | [m], [] => Ok m
  | _, _ => Crash
  end.
End Match.
End Match.

(** ** PEGTL *)
Record pegst := MkPeg { input : list Z; builder : Builder; tokens : list (list Z) }.

#[global] Instance pegst_eta : Eta pegst := fun s => MkPeg (input s) (builder s) (tokens s).

Definition rule : Type := pegst -> result (bool * pegst).

Module Peg.

(** The input mark of a rule that failed. *)
Definition rewind (st : pegst) (m : result (bool * pegst)) : result (bool * pegst) :=
  '(ok, st') ← m; Ok (ok, if (ok : bool) then st' else st' <| input := input st |>).

Fixpoint rule_conjunction (rs : list rule) : rule := fun st =>
  match rs with
  | [] => Ok (true, st)
  | r :: rs => '(ok, st) ← r st; if (ok : bool) then rule_conjunction rs st else Ok (false, st)
  end.
Definition seq (rs : list rule) : rule := fun st => rewind st (rule_conjunction rs st).

Fixpoint sor (rs : list rule) : rule := fun st =>
  match rs with
  | [] => Ok (false, st)
  | r :: rs => '(ok, st) ← r st; if (ok : bool) then Ok (true, st) else sor rs st
  end.

Fixpoint star_loop (fuel : nat) (r : rule) : rule := fun st =>
  match fuel with
  | O => NoFuel
  | S fuel =>
      match input st with
      | [] => Ok (true, st)
      | _ => '(ok, st) ← r st; if (ok : bool) then star_loop fuel r st else Ok (true, st)
      end
  end.
Definition star (r : rule) : rule := fun st => star_loop (S (length (input st))) r st.
Definition plus (r : rule) : rule := fun st =>
  '(ok, st) ← r st; if (ok : bool) then star r st else Ok (false, st).

Definition must (r : rule) : rule := fun st =>
  '(ok, st) ← r st; if (ok : bool) then Ok (true, st) else Throw ParseError.
Definition if_must (cond thens : rule) : rule := seq [cond; must thens].
Definition pad (r p : rule) : rule := seq [star p; r; star p].
Definition list_must (r sep : rule) : rule := seq [r; star (seq [sep; must r])].

Fixpoint until_loop (fuel : nat) (cond r : rule) : rule := fun st =>
  match fuel with
  | O => NoFuel
  | S fuel =>
      '(ok, st) ← cond st;
      if (ok : bool) then Ok (true, st)
      else
        match input st with
        | [] => Ok (false, st)
        | _ => '(ok, st) ← r st; if (ok : bool) then until_loop fuel cond r st else Ok (false, st)
        end
  end.
Definition until (cond r : rule) : rule := fun st => rewind st (until_loop (S (length (input st))) cond r st).

Definition eof : rule := fun st => Ok (bool_decide (input st = []), st).

(** One character, and a literal string. *)
Definition one (p : Z -> bool) : rule := fun st =>
  match input st with
  | c :: s => if p c then Ok (true, st <| input := s |>) else Ok (false, st)
  | [] => Ok (false, st)
  end.
Definition str (s : list Z) : rule := fun st =>
  if bool_decide (take (length s) (input st) = s) then Ok (true, st <| input := drop (length s) (input st) |>)
  else Ok (false, st).

(** A rule with an action on the text it matched. *)
Definition act (f : list Z -> pegst -> result pegst) (r : rule) : rule := fun st =>
  '(ok, st') ← rewind st (r st);
  if (ok : bool) then
    st'' ← f (take (length (input st) - length (input st')) (input st)) st'; Ok (true, st'')
  else Ok (false, st').

Definition chr (c : Z) (x : Z) : bool := x =? c.
Definition alpha : rule := one isalpha.
Definition digit : rule := one isdigit.
Definition space : rule := one space_char.

End Peg.
Import Peg.

(** ** The grammar *)
Module Grammar.
Section Grammar.
Context `{Inet6} `{TransformWidth} `{LexicalCast}.
Variable std : OptionMeta.

(** *** Actions *)
Definition push_token (t : list Z) (st : pegst) : result pegst := Ok (st <| tokens := tokens st ++ [t] |>).
Definition push_matched : list Z -> pegst -> result pegst := push_token.
Definition push (t : string) (_ : list Z) : pegst -> result pegst := push_token (bytes_of t).
Definition on_builder (f : Builder -> result Builder) (_ : list Z) (st : pegst) : result pegst :=
  b ← f (builder st); Ok (st <| builder := b |>).

Definition QUOTE : Z := 34.
Definition push_literal (value : list Z) (st : pegst) : result pegst :=
  throw_if (bool_decide (value = []) || (zlen value <? 2) || negb (bool_decide (head value = Some QUOTE)) ||
            negb (bool_decide (last value = Some QUOTE))) StringLiteralFormatError;;
  push_token (substr value 1 (length value - 2)) st.

(** [tokens[i]] *)
Definition yes (t : list Z) : bool := bool_decide (t = bytes_of "y").

Definition add_value (_ : list Z) (st : pegst) : result pegst :=
  t0 ← zget (tokens st) 0; t1 ← zget (tokens st) 1; t2 ← zget (tokens st) 2;
  b ← Match.addOptionValueMatcher std t0 (yes t1) t2 (builder st);
  Ok (st <| builder := b |> <| tokens := [] |>).
Definition add_exists (_ : list Z) (st : pegst) : result pegst :=
  t1 ← zget (tokens st) 1; t0 ← zget (tokens st) 0;
  b ← Match.addOptionExistsMatcher std t1 (yes t0) (builder st);
  Ok (st <| builder := b |> <| tokens := [] |>).

Definition cast_int (t : list Z) : result Z :=
  match lexical_cast FromText.INT_MIN FromText.INT_MAX t with Some v => Ok v | None => Throw BadLexicalCast end.
Definition add_substring (_ : list Z) (st : pegst) : result pegst :=
  t0 ← zget (tokens st) 0; t1 ← zget (tokens st) 1; t2 ← zget (tokens st) 2;
  start_pos ← cast_int t1; end_pos ← cast_int t2;
  t3 ← zget (tokens st) 3; t4 ← zget (tokens st) 4;
  b ← Match.addSubstringMatcher std t0 start_pos end_pos (yes t3) t4 (builder st);
  Ok (st <| builder := b |> <| tokens := [] |>).

(** *** Rules *)
Definition logic_eql : rule := act (push "y") (str (bytes_of "==")).
Definition logic_not_eql : rule := act (push "n") (str (bytes_of "!=")).
Definition option_key : rule := str (bytes_of "option").
Definition exist_key : rule := act (push "y") (str (bytes_of "exists")).
Definition not_exist_key : rule := act (push "n") (str (bytes_of "!exists")).
Definition substring_key : rule := str (bytes_of "substring").
Definition and_key : rule := act (on_builder (fun b => Ok (Match.onAnd b))) (str (bytes_of "&&")).
Definition or_key : rule := act (on_builder (fun b => Ok (Match.onOr b))) (str (bytes_of "||")).
Definition left_bracket_key : rule := act (on_builder (fun b => Ok (Match.onLeftBracket b))) (str (bytes_of "(")).
Definition right_bracket_key : rule := act (on_builder Match.onRightBracket) (str (bytes_of ")")).

Definition option_name : rule := act push_matched (list_must (plus alpha) (one (chr 45))).
Definition option_code : rule := act push_matched (plus digit).
Definition option_with_name : rule := seq [option_key; space; option_name].
Definition option_with_code : rule := seq [option_key; one (chr 91); option_code; one (chr 93)].
Definition option_identifier : rule := sor [option_with_name; option_with_code].

Definition exists_check : rule := act add_exists (seq [sor [exist_key; not_exist_key]; space; option_identifier]).

Definition string_literal : rule :=
  act push_literal (if_must (one (chr QUOTE)) (until (one (chr QUOTE)) (plus (one (fun c => negb (chr QUOTE c)))))).
Definition option_value_check : rule :=
  act add_value (seq [option_identifier; star space; sor [logic_eql; logic_not_eql]; star space; string_literal]).

Definition substring_pos_arg : rule := act push_matched (plus digit).
Definition two_number_args : rule := list_must substring_pos_arg (pad (one (chr 44)) space).
Definition substring_func_call : rule :=
  seq [substring_key; one (chr 40); star space; option_identifier; star space; one (chr 44); star space;
       two_number_args; star space; one (chr 41)].
Definition substring_check : rule :=
  act add_substring (seq [substring_func_call; star space; sor [logic_eql; logic_not_eql]; star space; string_literal]).

Definition leaf_logic_check : rule := sor [option_value_check; exists_check; substring_check].
Definition logic_operator : rule := pad (sor [and_key; or_key]) space.
Definition component_logic_check : rule :=
  seq [left_bracket_key; star space; list_must leaf_logic_check logic_operator; star space; right_bracket_key].
Definition logic_check : rule := sor [leaf_logic_check; component_logic_check].
Definition expression : rule := list_must logic_check logic_operator.
Definition grammar : rule := seq [must expression; must eof].

Definition buildMatcher (exp : list Z) : result PktOptionMatcher :=
  '(_, st) ← grammar (MkPeg exp (MkBuilder [] []) []);
  Match.getMatcher (builder st).
End Grammar.
End Grammar.

(** ** The registered classes, in the order of [std::map] *)
Definition ClientClassManager : Type := list (string * PktOptionMatcher).

Module Classes.

Definition empty : ClientClassManager := [].
Definition removeAll (_ : ClientClassManager) : ClientClassManager := empty.

Fixpoint map_insert (name : string) (m : PktOptionMatcher) (l : ClientClassManager) : ClientClassManager :=
  match l with
  | [] => [(name, m)]
  | (k, v) :: l => if String.ltb name k then (name, m) :: (k, v) :: l else (k, v) :: map_insert name m l
  end.

Definition addClientClass `{Inet6} `{TransformWidth} `{LexicalCast} (std : OptionMeta) (name : string) (exp : list Z)
    (l : ClientClassManager) : result ClientClassManager :=
  throw_if (existsb (fun p => String.eqb p.1 name) l) DuplicateClientClassName;;
  matcher ← Grammar.buildMatcher std exp;
  Ok (map_insert name matcher l).

Fixpoint getMatchedClass (l : ClientClassManager) (pkt : Pkt) : result (list string) :=
  match l with
  | [] => Ok []
  | (name, matcher) :: l =>
      b ← matcher pkt;
      rest ← getMatchedClass l pkt;
      Ok (if (b : bool) then name :: rest else rest)
  end.
End Classes.
