(* ===== verification/ClientClassFacts.v ===== *)
(** The parser of client-class expressions against an abstract syntax: a
    printed expression is parsed to the matcher that evaluates it from left to
    right. *)
From stdpp Require Import base list numbers option strings gmap.
From Stdlib Require Import ZArith Lia.
From S2P Require Import Prelude Buffer Address DnsName OptionDef Options HwAddr Encode.
From S2P Require Import Text Pkt ResponseGen OptionText ClientClass.
Import Peg.

(** ** Expressions *)
Inductive ident : Type :=
| IName (word : list Z) (words : list (list Z)) (** host-name *)
| ICode (code : list Z).                        (** [12], in digits *)

Inductive leaf : Type :=
| LValue (i : ident) (equal : bool) (literal : list Z)
| LExists (i : ident) (expect : bool)
| LSubstring (i : ident) (start count : list Z) (equal : bool) (literal : list Z).

Inductive junction : Set := JAnd | JOr.

Inductive logic : Type :=
| Leaf (l : leaf)
| Group (l : leaf) (ls : list (junction * leaf)).

(** An expression: a first check and the checks joined to it, in order. *)
Definition expr : Type := logic * list (junction * logic).

Definition word_ok (w : list Z) : Prop := w <> [] /\ forallb isalpha w = true.
Definition digits_ok (d : list Z) : Prop := d <> [] /\ forallb isdigit d = true.
Definition literal_ok (l : list Z) : Prop := 34 ∉ l.

Definition ident_ok (i : ident) : Prop :=
  match i with IName w ws => word_ok w /\ Forall word_ok ws | ICode d => digits_ok d end.
Definition leaf_ok (l : leaf) : Prop :=
  match l with
  | LValue i _ lit => ident_ok i /\ literal_ok lit
  | LExists i _ => ident_ok i
  | LSubstring i s c _ lit => ident_ok i /\ digits_ok s /\ digits_ok c /\ literal_ok lit
  end.
Definition logic_ok (l : logic) : Prop :=
  match l with Leaf l => leaf_ok l | Group l ls => leaf_ok l /\ Forall (fun p => leaf_ok p.2) ls end.
Definition expr_ok (e : expr) : Prop := logic_ok e.1 /\ Forall (fun p => logic_ok p.2) e.2.

(** ** Printing, with [sp] wherever blanks are allowed *)
Section Print.
Variable sp : list Z.

Definition ident_token (i : ident) : list Z :=
  match i with IName w ws => w ++ concat ((fun w => 45 :: w) <$> ws) | ICode d => d end.
Definition ident_text (i : ident) : list Z :=
  bytes_of "option" ++ match i with IName _ _ => 32 :: ident_token i | ICode d => [91] ++ d ++ [93] end.
Definition equal_text (equal : bool) : list Z := bytes_of (if equal then "==" else "!=").
Definition literal_text (l : list Z) : list Z := [34] ++ l ++ [34].

Definition leaf_text (l : leaf) : list Z :=
  match l with
  | LValue i e lit => ident_text i ++ sp ++ equal_text e ++ sp ++ literal_text lit
  | LExists i b => bytes_of (if b then "exists" else "!exists") ++ 32 :: ident_text i
  | LSubstring i s c e lit =>
      bytes_of "substring(" ++ sp ++ ident_text i ++ sp ++ [44] ++ sp ++ s ++ sp ++ [44] ++ sp ++ c ++ sp ++ [41] ++
      sp ++ equal_text e ++ sp ++ literal_text lit
  end.
Definition junction_text (j : junction) : list Z := bytes_of (match j with JAnd => "&&" | JOr => "||" end).
Definition joined_text {A} (text : A -> list Z) (l : list (junction * A)) : list Z :=
  concat ((fun p => sp ++ junction_text p.1 ++ sp ++ text p.2) <$> l).
Definition logic_text (l : logic) : list Z :=
  match l with
  | Leaf l => leaf_text l
  | Group l ls => [40] ++ sp ++ leaf_text l ++ joined_text leaf_text ls ++ sp ++ [41]
  end.
Definition expr_text (e : expr) : list Z := logic_text e.1 ++ joined_text logic_text e.2.
End Print.

(** ** Meaning: from left to right, [&&] and [||] alike *)
Section Meaning.
Context `{Inet6} `{TransformWidth} `{LexicalCast}.
Variable std : OptionMeta.

Definition leaf_matcher (l : leaf) : result PktOptionMatcher :=
  match l with
  | LValue i e lit =>
      code ← Match.getOptionCode std (ident_token i); Ok (Match.optionValueMatcherGenerator code e lit)
  | LExists i b => code ← Match.getOptionCode std (ident_token i); Ok (Match.optionExistsMatcherGenerator code b)
  | LSubstring i s c e lit =>
      s ← Grammar.cast_int s; c ← Grammar.cast_int c;
      code ← Match.getOptionCode std (ident_token i); Ok (Match.substringMatcherGenerator code s c e lit)
  end.

Definition combine (j : junction) : PktOptionMatcher -> PktOptionMatcher -> PktOptionMatcher :=
  match j with JAnd => Match.andMatcher | JOr => Match.orMatcher end.

Definition joined_matcher {A} (matcher : A -> result PktOptionMatcher) (m : PktOptionMatcher)
    (l : list (junction * A)) : result PktOptionMatcher :=
  foldM (fun m p => m' ← matcher p.2; Ok (combine p.1 m m')) m l.

Definition logic_matcher (l : logic) : result PktOptionMatcher :=
  match l with
  | Leaf l => leaf_matcher l
  | Group l ls => m ← leaf_matcher l; joined_matcher leaf_matcher m ls
  end.
Definition expr_matcher (e : expr) : result PktOptionMatcher :=
  m ← logic_matcher e.1; joined_matcher logic_matcher m e.2.
End Meaning.

(** ** Rules on printed text *)

(** [r] takes [text] and changes the builder and the tokens by [F], when the
    rest of the input satisfies [fol]; [r] fails on inputs with [P]. *)
Definition effect : Type := Builder -> list (list Z) -> result (Builder * list (list Z)).
Definition no_effect : effect := fun b ts => Ok (b, ts).

Definition matches (r : rule) (text : list Z) (F : effect) (fol : list Z -> Prop) : Prop :=
  forall rest b ts, fol rest ->
    r (MkPeg (text ++ rest) b ts) = ('(b', ts') ← F b ts; Ok (true, MkPeg rest b' ts')).
Definition fails (r : rule) (P : list Z -> Prop) : Prop :=
  forall s b ts, P s -> r (MkPeg s b ts) = Ok (false, MkPeg s b ts).

Definition anything (_ : list Z) : Prop := True.
Definition not_head (p : Z -> bool) (s : list Z) : Prop := match s with [] => True | c :: _ => p c = false end.

(** *** Characters *)
Lemma one_matches p c : p c = true -> matches (one p) [c] no_effect anything.
Proof. intros Hc rest b ts _. unfold one. cbn. by rewrite Hc. Qed.

Lemma one_fails p : fails (one p) (not_head p).
Proof. intros [|c s] b ts Hs; unfold one; cbn in *; [done|]. by rewrite Hs. Qed.

Lemma str_matches s : matches (str s) s no_effect anything.
Proof.
  intros rest b ts _. unfold str. cbn [input]. rewrite take_app_length, bool_decide_true by done.
  unfold set. cbn. by rewrite drop_app_length.
Qed.

Lemma str_fails c s : fails (str (c :: s)) (not_head (fun x => x =? c)).
Proof.
  intros [|x l] b ts Hs; unfold str; cbn [input length take].
  - by rewrite bool_decide_false.
  - rewrite bool_decide_false; [done|]. intros [= -> _]. cbn in Hs. by rewrite Z.eqb_refl in Hs.
Qed.

(** *** Repetition *)
Lemma star_step fuel r t F fol s b ts :
  matches r t F fol -> t <> [] -> fol s ->
  star_loop (S fuel) r (MkPeg (t ++ s) b ts) = ('(b', ts') ← F b ts; star_loop fuel r (MkPeg s b' ts')).
Proof.
  intros Hm Ht Hs. cbn [star_loop input]. destruct (t ++ s) as [|c l] eqn:E; [by destruct t|].
  rewrite <- E, Hm by done. by destruct (F b ts) as [[b' ts']| | |].
Qed.

Lemma star_done fuel r s b ts P : fails r P -> P s -> star_loop (S fuel) r (MkPeg s b ts) = Ok (true, MkPeg s b ts).
Proof. intros Hf Hs. cbn [star_loop input]. destruct s; [done|]. by rewrite Hf. Qed.

Lemma star_chars_loop p l rest b ts fuel :
  forallb p l = true -> not_head p rest -> (length l < fuel)%nat ->
  star_loop fuel (one p) (MkPeg (l ++ rest) b ts) = Ok (true, MkPeg rest b ts).
Proof.
  revert fuel. induction l as [|c l IH]; intros fuel Hl Hr Hf; (destruct fuel as [|fuel]; [cbn in Hf; lia|]).
  - by eapply star_done; [apply one_fails|].
  - cbn [forallb] in Hl. apply andb_true_iff in Hl as [Hc Hl]. change ((c :: l) ++ rest) with ([c] ++ l ++ rest).
    rewrite (star_step fuel _ _ _ _ _ _ _ (one_matches p c Hc)) by done. apply IH; [done|done|]. cbn in Hf. lia.
Qed.

Lemma star_chars p l : forallb p l = true -> matches (star (one p)) l no_effect (not_head p).
Proof.
  intros Hl rest b ts Hr. unfold star. apply star_chars_loop; [done|done|]. cbn [input]. rewrite length_app. lia.
Qed.

Lemma plus_chars p l : l <> [] -> forallb p l = true -> matches (plus (one p)) l no_effect (not_head p).
Proof.
  intros Hne Hl rest b ts Hr. destruct l as [|c l]; [done|]. cbn [forallb] in Hl. apply andb_true_iff in Hl as [Hc Hl].
  unfold plus. change ((c :: l) ++ rest) with ([c] ++ l ++ rest). rewrite (one_matches p c Hc) by done.
  by apply star_chars.
Qed.

Lemma plus_fails p : fails (plus (one p)) (not_head p).
Proof. intros s b ts Hs. unfold plus. by rewrite (one_fails p s b ts Hs). Qed.

(** *** Sequences and alternatives *)
Lemma conj_step r rs t F fol s b ts :
  matches r t F fol -> fol s ->
  rule_conjunction (r :: rs) (MkPeg (t ++ s) b ts) = ('(b', ts') ← F b ts; rule_conjunction rs (MkPeg s b' ts')).
Proof. intros Hm Hs. cbn [rule_conjunction]. rewrite Hm by done. by destruct (F b ts) as [[b' ts']| | |]. Qed.

Lemma conj_skip r rs t fol s b ts :
  matches r t no_effect fol -> fol s ->
  rule_conjunction (r :: rs) (MkPeg (t ++ s) b ts) = rule_conjunction rs (MkPeg s b ts).
Proof. intros Hm Hs. by rewrite (conj_step _ _ _ _ _ _ _ _ Hm Hs). Qed.

Lemma conj_fail r rs P s b ts :
  fails r P -> P s -> rule_conjunction (r :: rs) (MkPeg s b ts) = Ok (false, MkPeg s b ts).
Proof. intros Hf Hs. cbn [rule_conjunction]. by rewrite Hf. Qed.

Lemma seq_fails r rs P : fails r P -> fails (seq (r :: rs)) P.
Proof. intros Hf s b ts Hs. unfold seq. by rewrite (conj_fail _ _ _ _ _ _ Hf Hs). Qed.

(** A sequence whose parts match one after the other. *)
Lemma seq_done rs s R rest b ts :
  rule_conjunction rs (MkPeg s b ts) = ('(b', ts') ← R; Ok (true, MkPeg rest b' ts')) ->
  seq rs (MkPeg s b ts) = ('(b', ts') ← R; Ok (true, MkPeg rest b' ts')).
Proof. intros E. unfold seq, rewind. rewrite E. by destruct R as [[b' ts']| | |]. Qed.

Lemma sor_first r rs s b ts R rest :
  r (MkPeg s b ts) = ('(b', ts') ← R; Ok (true, MkPeg rest b' ts')) ->
  sor (r :: rs) (MkPeg s b ts) = ('(b', ts') ← R; Ok (true, MkPeg rest b' ts')).
Proof. intros E. cbn [sor]. rewrite E. by destruct R as [[b' ts']| | |]. Qed.

Lemma sor_next r rs s b ts P : fails r P -> P s -> sor (r :: rs) (MkPeg s b ts) = sor rs (MkPeg s b ts).
Proof. intros Hf Hs. cbn [sor]. by rewrite Hf. Qed.

Lemma sor_fails rs P : Forall (fun r => fails r P) rs -> fails (sor rs) P.
Proof.
  intros Hf s b ts Hs. induction Hf as [|r rs Hr _ IH]; [done|]. by rewrite (sor_next _ _ _ _ _ _ Hr Hs).
Qed.

Lemma must_matches r t F fol : matches r t F fol -> matches (must r) t F fol.
Proof. intros Hm rest b ts Hr. unfold must. rewrite Hm by done. by destruct (F b ts) as [[b' ts']| | |]. Qed.

(** *** Actions *)
Lemma act_eq f r s R rest b ts text :
  s = text ++ rest -> (forall st st', f text st = Ok st' -> input st' = input st) ->
  r (MkPeg s b ts) = ('(b', ts') ← R; Ok (true, MkPeg rest b' ts')) ->
  act f r (MkPeg s b ts) = ('(b', ts') ← ('(b', ts') ← R; st ← f text (MkPeg rest b' ts'); Ok (builder st, tokens st));
                            Ok (true, MkPeg rest b' ts')).
Proof.
  intros -> Hf E. unfold act, rewind. rewrite E. destruct R as [[b' ts']| | |]; cbn; [|done..].
  rewrite length_app. replace (length text + length rest - length rest)%nat with (length text) by lia.
  rewrite take_app_length. destruct (f text (MkPeg rest b' ts')) as [st| | |] eqn:Ef; cbn; [|done..].
  apply Hf in Ef. cbn in Ef. by destruct st; cbn in *; subst.
Qed.

Lemma act_fails f r P : fails r P -> fails (act f r) P.
Proof. intros Hr s b ts Hs. unfold act, rewind. by rewrite Hr. Qed.

(** *** Lists *)
Definition run_all {A} (eff : A -> effect) (items : list A) : effect := fun b ts =>
  foldM (fun s a => eff a s.1 s.2) (b, ts) items.

Lemma run_all_cons {A} (eff : A -> effect) a items b ts :
  run_all eff (a :: items) b ts = ('(b', ts') ← eff a b ts; run_all eff items b' ts').
Proof. unfold run_all. cbn [foldM fst snd]. by destruct (eff a b ts) as [[b' ts']| | |]. Qed.

Lemma run_all_nothing {A} (items : list A) b ts : run_all (fun _ => no_effect) items b ts = Ok (b, ts).
Proof. induction items as [|a items IH]; [done|]. rewrite run_all_cons. exact IH. Qed.

(** A repetition whose items match as long as the tokens satisfy [T]. *)
Lemma star_items_when {A} (T : list (list Z) -> Prop) r (text : A -> list Z) (eff : A -> effect) (fol P : list Z -> Prop)
    items rest fuel b ts :
  Forall (fun a => (forall rest b ts, T ts -> fol rest ->
    r (MkPeg (text a ++ rest) b ts) = ('(b', ts') ← eff a b ts; Ok (true, MkPeg rest b' ts'))) /\ text a <> []) items ->
  (forall a b ts b' ts', T ts -> eff a b ts = Ok (b', ts') -> T ts') ->
  fails r P -> P rest -> (forall a, a ∈ items -> forall s, fol (text a ++ s)) -> fol rest ->
  (length (concat (text <$> items)) < fuel)%nat -> T ts ->
  star_loop fuel r (MkPeg (concat (text <$> items) ++ rest) b ts) =
    ('(b', ts') ← run_all eff items b ts; Ok (true, MkPeg rest b' ts')).
Proof.
  intros Hi HT Hf HP. revert fuel b ts. induction Hi as [|a items [Ha Hne] _ IH]; intros fuel b ts Hfol Hrest Hl Hts.
  - destruct fuel as [|fuel]; [cbn in Hl; lia|]. by eapply star_done.
  - destruct fuel as [|fuel]; [cbn in Hl; lia|]. cbn [fmap list_fmap concat]. rewrite <- app_assoc, run_all_cons.
    set (s := concat (text <$> items) ++ rest). assert (fol s) as Hs.
    { unfold s. destruct items as [|a' items]; [done|]. cbn [fmap list_fmap concat]. rewrite <- app_assoc.
      apply Hfol. right. by left. }
    cbn [star_loop input]. destruct (text a ++ s) as [|c l] eqn:E; [by destruct (text a)|]. rewrite <- E, Ha by done.
    destruct (eff a b ts) as [[b' ts']| | |] eqn:Ee; [|done..]. rewrite !bind_Ok. apply IH; [|done| |by eapply HT].
    + intros x Hx. apply Hfol. by right.
    + cbn in Hl. rewrite length_app in Hl. destruct (text a); [done|]. cbn in Hl. lia.
Qed.

Lemma star_items {A} r (text : A -> list Z) (eff : A -> effect) (fol P : list Z -> Prop) items rest fuel b ts :
  Forall (fun a => matches r (text a) (eff a) fol /\ text a <> []) items ->
  fails r P -> P rest -> (forall a, a ∈ items -> forall s, fol (text a ++ s)) -> fol rest ->
  (length (concat (text <$> items)) < fuel)%nat ->
  star_loop fuel r (MkPeg (concat (text <$> items) ++ rest) b ts) =
    ('(b', ts') ← run_all eff items b ts; Ok (true, MkPeg rest b' ts')).
Proof.
  intros Hi Hf HP Hfol Hrest Hl. apply (star_items_when (fun _ => True) _ _ _ fol P); try done.
  eapply Forall_impl; [exact Hi|]. intros a [Ha Hne]. split; [|done]. intros. by apply Ha.
Qed.

(** ** The rules of the grammar *)
Section Rules.
Context {i6 : Inet6} {tw : TransformWidth} {lc : LexicalCast}.
Variable std : OptionMeta.
Variable sp : list Z.
Hypothesis Hsp : forallb space_char sp = true.

Definition pushes (t : list Z) : effect := fun b ts => Ok (b, ts ++ [t]).

Lemma push_keeps t st st' : Grammar.push_token t st = Ok st' -> input st' = input st.
Proof. unfold Grammar.push_token. by intros [= <-]. Qed.

Lemma push_matches t s : matches (act (Grammar.push t) (str s)) s (pushes (bytes_of t)) anything.
Proof.
  intros rest b ts Hr. erewrite (act_eq _ _ _ (Ok (b, ts)) rest) by (done || by apply str_matches || apply push_keeps).
  done.
Qed.

(** The text goes on with something else than [p]. *)
Lemma not_head_app p l s : l <> [] -> not_head p l -> not_head p (l ++ s).
Proof. by destruct l. Qed.

Lemma not_head_sp p s : (forall c, space_char c = true -> p c = false) -> not_head p s -> not_head p (sp ++ s).
Proof.
  intros Hp Hs. destruct sp as [|c l]; [done|]. cbn. cbn in Hsp. apply andb_true_iff in Hsp as [Hc _]. by apply Hp.
Qed.

Lemma sp_matches : matches (star space) sp no_effect (not_head space_char).
Proof. by apply star_chars. Qed.

(** *** Option names and codes *)
Definition ends_name (s : list Z) : Prop := not_head (fun c => isalpha c || (c =? 45)) s.

Lemma ends_name_alpha s : ends_name s -> not_head isalpha s.
Proof. destruct s; [done|]. cbn. intros [? _]%orb_false_iff. done. Qed.
Lemma ends_name_hyphen s : ends_name s -> not_head (chr 45) s.
Proof. destruct s; [done|]. cbn. intros [_ ?]%orb_false_iff. done. Qed.

Lemma word_after w rest b ts : word_ok w -> not_head isalpha rest ->
  Peg.seq [one (chr 45); must (plus alpha)] (MkPeg ((45 :: w) ++ rest) b ts) = Ok (true, MkPeg rest b ts).
Proof.
  intros [Hne Hw] Hr. unfold alpha. apply (seq_done _ _ (Ok (b, ts))). change ((45 :: w) ++ rest) with ([45] ++ w ++ rest).
  rewrite (conj_skip _ _ _ _ _ _ _ (one_matches (chr 45) 45 eq_refl)) by done.
  by rewrite (conj_skip _ _ _ _ _ _ _ (must_matches _ _ _ _ (plus_chars isalpha w Hne Hw))).
Qed.

Lemma name_matches w ws : word_ok w -> Forall word_ok ws ->
  matches Grammar.option_name (ident_token (IName w ws)) (pushes (ident_token (IName w ws))) ends_name.
Proof.
  intros [Hne Hw] Hws rest b ts Hr. unfold Grammar.option_name, alpha.
  erewrite (act_eq _ _ _ (Ok (b, ts)) rest); [|done|apply push_keeps|]; [done|].
  apply (seq_done _ _ (Ok (b, ts))). cbn [ident_token]. rewrite <- app_assoc.
  set (ws_text := concat ((fun w => 45 :: w) <$> ws)).
  assert (not_head isalpha (ws_text ++ rest)) as Hn.
  { unfold ws_text. destruct ws; [by apply ends_name_alpha|done]. }
  rewrite (conj_skip _ _ _ _ _ _ _ (plus_chars isalpha w Hne Hw) Hn). cbn [rule_conjunction]. unfold star.
  rewrite (star_items _ (fun w => 45 :: w) (fun _ => no_effect) (not_head isalpha) (not_head (chr 45)) ws).
  - by rewrite run_all_nothing.
  - eapply Forall_impl; [exact Hws|]. intros x Hx. split; [|done]. intros r b' ts' Hr'. by apply word_after.
  - apply seq_fails, one_fails.
  - by apply ends_name_hyphen.
  - done.
  - by apply ends_name_alpha.
  - cbn [input]. rewrite length_app. fold ws_text. lia.
Qed.

Lemma code_matches r d : digits_ok d -> r = act Grammar.push_matched (plus digit) ->
  matches r d (pushes d) (not_head isdigit).
Proof.
  intros [Hne Hd] -> rest b ts Hr.
  erewrite (act_eq _ _ _ (Ok (b, ts)) rest); [|done|apply push_keeps|]; [done|].
  by apply (plus_chars isdigit d).
Qed.

Lemma ident_matches i : ident_ok i ->
  matches Grammar.option_identifier (ident_text i) (pushes (ident_token i)) ends_name.
Proof.
  intros Hi rest b ts Hr. unfold Grammar.option_identifier, ident_text. destruct i as [w ws|d].
  - destruct Hi as [Hw Hws]. apply sor_first. unfold Grammar.option_with_name, Grammar.option_key, space. apply (seq_done _ _ (pushes _ b ts)).
    change (32 :: ident_token (IName w ws)) with ([32] ++ ident_token (IName w ws)). rewrite <- !app_assoc.
    rewrite (conj_skip _ _ _ _ _ _ _ (str_matches _)) by done.
    rewrite (conj_skip _ _ _ _ _ _ _ (one_matches space_char 32 eq_refl)) by done.
    by rewrite (conj_step _ _ _ _ _ _ _ _ (name_matches w ws Hw Hws) Hr).
  - rewrite <- !app_assoc. assert (Grammar.option_with_name (MkPeg (bytes_of "option" ++ [91] ++ d ++ [93] ++ rest) b ts) =
      Ok (false, MkPeg (bytes_of "option" ++ [91] ++ d ++ [93] ++ rest) b ts)) as E.
    { unfold Grammar.option_with_name, Grammar.option_key, Peg.seq, space.
      rewrite (conj_skip _ _ _ _ _ _ _ (str_matches (bytes_of "option"))) by done.
      by rewrite (conj_fail _ _ _ _ _ _ (one_fails space_char)). }
    cbn [sor]. rewrite E, bind_Ok. apply (sor_first _ [] _ _ _ (pushes d b ts)).
    unfold Grammar.option_with_code, Grammar.option_key. apply (seq_done _ _ (pushes d b ts)).
    rewrite (conj_skip _ _ _ _ _ _ _ (str_matches _)) by done.
    rewrite (conj_skip _ _ _ _ _ _ _ (one_matches (chr 91) 91 eq_refl)) by done.
    rewrite (conj_step _ _ _ _ _ _ _ _ (code_matches _ d Hi eq_refl)) by done. unfold pushes. rewrite !bind_Ok.
    by rewrite (conj_skip _ _ _ _ _ _ _ (one_matches (chr 93) 93 eq_refl)).
Qed.

Lemma ident_fails : fails Grammar.option_identifier (not_head (fun x => x =? 111)).
Proof. apply sor_fails. repeat constructor; apply seq_fails; change (bytes_of "option") with (111 :: bytes_of "ption"); apply str_fails. Qed.

(** *** Literals and comparisons *)
Lemma not_quote l : literal_ok l -> forallb (fun c => negb (chr 34 c)) l = true.
Proof.
  intros Hl. apply forallb_forall. intros c Hc%list_elem_of_In. apply negb_true_iff. unfold chr.
  apply Z.eqb_neq. by intros ->.
Qed.

Lemma until_quote l rest b ts : literal_ok l ->
  until (one (chr 34)) (plus (one (fun c => negb (chr 34 c)))) (MkPeg (l ++ [34] ++ rest) b ts) =
    Ok (true, MkPeg rest b ts).
Proof.
  intros Hl%not_quote. unfold until. destruct l as [|c l].
  - cbn [app input length until_loop]. change (34 :: rest) with ([34] ++ rest).
    by rewrite (one_matches (chr 34) 34 eq_refl).
  - set (s := (c :: l) ++ [34] ++ rest). assert (exists n, length (input (MkPeg s b ts)) = S n) as [n ->]
      by (unfold s; cbn; eauto).
    assert (not_head (chr 34) s) as Hs by (cbn in Hl |- *; apply andb_true_iff in Hl as [Hc _]; by apply negb_true_iff in Hc).
    cbn [until_loop]. rewrite (one_fails (chr 34) s b ts Hs), bind_Ok. change (input (MkPeg s b ts)) with s.
    unfold s. rewrite (plus_chars _ (c :: l)) by done. cbn [no_effect app mbind result_bind].
    change (34 :: rest) with ([34] ++ rest). by rewrite (one_matches (chr 34) 34 eq_refl).
Qed.

Lemma push_literal_ok l st : Grammar.push_literal (literal_text l) st = Grammar.push_token l st.
Proof.
  unfold Grammar.push_literal, literal_text. change ([34] ++ l ++ [34]) with ((34 :: l) ++ [34]).
  rewrite last_snoc. change (head ((34 :: l) ++ [34])) with (Some 34). unfold Grammar.QUOTE.
  rewrite (bool_decide_false (_ ++ _ = [])), !bool_decide_true by done.
  rewrite (proj2 (Z.ltb_ge _ _)) by (rewrite zlen_app, zlen_cons; change (zlen [34]) with 1; zlia).
  cbn [orb negb throw_if]. rewrite bind_Ok. f_equal. unfold substr. rewrite length_app. cbn [length].
  change (drop 1 ((34 :: l) ++ [34])) with (l ++ [34]). replace (S (length l) + 1 - 2)%nat with (length l) by lia.
  apply take_app_length.
Qed.

Lemma literal_matches l : literal_ok l ->
  matches Grammar.string_literal (literal_text l) (pushes l) anything.
Proof.
  intros Hl rest b ts _. unfold Grammar.string_literal.
  rewrite (act_eq _ _ _ (Ok (b, ts)) rest b ts (literal_text l)).
  - by rewrite bind_Ok, push_literal_ok.
  - done.
  - intros st st'. rewrite push_literal_ok. apply push_keeps.
  - unfold if_must, literal_text. apply (seq_done _ _ (Ok (b, ts))). rewrite <- !app_assoc.
    rewrite (conj_skip _ _ _ _ _ _ _ (one_matches (chr 34) 34 eq_refl)) by done.
    cbn [rule_conjunction]. unfold must. by rewrite until_quote.
Qed.

Definition equal_token (e : bool) : list Z := bytes_of (if e then "y" else "n").

Lemma equal_matches e :
  matches (sor [Grammar.logic_eql; Grammar.logic_not_eql]) (equal_text e) (pushes (equal_token e)) anything.
Proof.
  intros rest b ts _. destruct e.
  - apply sor_first. by apply push_matches.
  - rewrite (sor_next _ _ _ _ _ (not_head (fun x => x =? 61))); [|apply act_fails; apply (str_fails 61)|done].
    apply sor_first. by apply push_matches.
Qed.

Lemma conj_push r rs t fol s b ts tok :
  matches r t (pushes tok) fol -> fol s ->
  rule_conjunction (r :: rs) (MkPeg (t ++ s) b ts) = rule_conjunction rs (MkPeg s b (ts ++ [tok])).
Proof. intros Hm Hs. by rewrite (conj_step _ _ _ _ _ _ _ _ Hm Hs). Qed.

(** The comparison that ends two of the checks. *)
Lemma comparison_matches e lit rest b ts : literal_ok lit ->
  rule_conjunction [star space; sor [Grammar.logic_eql; Grammar.logic_not_eql]; star space; Grammar.string_literal]
    (MkPeg (sp ++ equal_text e ++ sp ++ literal_text lit ++ rest) b ts) =
  Ok (true, MkPeg rest b ((ts ++ [equal_token e]) ++ [lit])).
Proof.
  intros Hl.
  rewrite (conj_skip _ _ _ _ _ _ _ sp_matches) by (by destruct e).
  rewrite (conj_push _ _ _ _ _ _ _ _ (equal_matches e)) by done.
  rewrite (conj_skip _ _ _ _ _ _ _ sp_matches) by done.
  by rewrite (conj_push _ _ _ _ _ _ _ _ (literal_matches lit Hl)).
Qed.

(** *** Checks: with no tokens before and none after *)
Definition checks (r : rule) (text : list Z) (G : Builder -> result Builder) (fol : list Z -> Prop) : Prop :=
  forall rest b, fol rest ->
    r (MkPeg (text ++ rest) b []) = (b' ← G b; Ok (true, MkPeg rest b' [])).

(** A check that collects tokens and hands them to the builder. *)
Lemma act_checks f r text toks G fol :
  (forall rest b, fol rest -> r (MkPeg (text ++ rest) b []) = Ok (true, MkPeg rest b toks)) ->
  (forall rest b, f text (MkPeg rest b toks) = (b' ← G b; Ok (MkPeg rest b' []))) ->
  checks (act f r) text G fol.
Proof.
  intros Hr Hf rest b Hfol. unfold act, rewind. rewrite (Hr rest b Hfol). cbn [input mbind result_bind].
  rewrite length_app. replace (length text + length rest - length rest)%nat with (length text) by lia.
  rewrite take_app_length, Hf. by destruct (G b).
Qed.

(** The tokens at the positions the actions use. *)
Lemma zget_0 {A} (a : A) l : zget (a :: l) 0 = Ok a.
Proof. done. Qed.
Lemma zget_1 {A} (a b : A) l : zget (a :: b :: l) 1 = Ok b.
Proof. done. Qed.
Lemma zget_2 {A} (a b c : A) l : zget (a :: b :: c :: l) 2 = Ok c.
Proof. done. Qed.
Lemma zget_3 {A} (a b c d : A) l : zget (a :: b :: c :: d :: l) 3 = Ok d.
Proof. done. Qed.
Lemma zget_4 {A} (a b c d e : A) l : zget (a :: b :: c :: d :: e :: l) 4 = Ok e.
Proof. done. Qed.

Ltac take_tokens := cbn [tokens builder]; rewrite ?zget_0, ?bind_Ok, ?zget_1, ?bind_Ok, ?zget_2, ?bind_Ok, ?zget_0, ?bind_Ok.

Definition adds (m : result PktOptionMatcher) (b : Builder) : result Builder := m ← m; Match.addMatcher m b.

Lemma yes_token e : Grammar.yes (equal_token e) = e.
Proof. by destruct e. Qed.

Lemma ends_name_sp s : ends_name s -> ends_name (sp ++ s).
Proof.
  apply not_head_sp. intros c Hc. unfold space_char, isalpha in *. lia.
Qed.

Lemma value_checks i e lit : leaf_ok (LValue i e lit) ->
  checks (Grammar.option_value_check std) (leaf_text sp (LValue i e lit)) (adds (leaf_matcher std (LValue i e lit))) anything.
Proof.
  intros [Hi Hl]. unfold Grammar.option_value_check. apply (act_checks _ _ _ [ident_token i; equal_token e; lit]).
  - intros rest b _. apply (seq_done _ _ (Ok (b, _))). cbn [leaf_text]. rewrite <- !app_assoc.
    rewrite (conj_push _ _ _ _ _ _ _ _ (ident_matches i Hi)); [|apply ends_name_sp; by destruct e].
    by rewrite comparison_matches.
  - intros rest b. unfold Grammar.add_value. take_tokens. unfold adds, leaf_matcher, Match.addOptionValueMatcher.
    rewrite yes_token. destruct (Match.getOptionCode std (ident_token i)); [|done..]. rewrite !bind_Ok.
    by destruct (Match.addMatcher _ b).
Qed.

Lemma value_fails : fails (Grammar.option_value_check std) (not_head (fun x => x =? 111)).
Proof. apply act_fails, seq_fails, ident_fails. Qed.

Lemma exists_checks i e : leaf_ok (LExists i e) ->
  checks (Grammar.exists_check std) (leaf_text sp (LExists i e)) (adds (leaf_matcher std (LExists i e))) ends_name.
Proof.
  intros Hi. unfold Grammar.exists_check. apply (act_checks _ _ _ [equal_token e; ident_token i]).
  - intros rest b Hr. apply (seq_done _ _ (Ok (b, _))). cbn [leaf_text].
    change (32 :: ident_text i) with ([32] ++ ident_text i). rewrite <- !app_assoc.
    assert (matches (sor [Grammar.exist_key; Grammar.not_exist_key]) (bytes_of (if e then "exists" else "!exists"))
      (pushes (equal_token e)) anything) as Hkey.
    { intros r b' ts _. destruct e; [apply sor_first; by apply push_matches|].
      rewrite (sor_next _ _ _ _ _ (not_head (fun x => x =? 101))); [|apply act_fails; apply (str_fails 101)|done].
      apply sor_first. by apply push_matches. }
    rewrite (conj_push _ _ _ _ _ _ _ _ Hkey) by done. unfold space.
    rewrite (conj_skip _ _ _ _ _ _ _ (one_matches space_char 32 eq_refl)) by done.
    by rewrite (conj_push _ _ _ _ _ _ _ _ (ident_matches i Hi)).
  - intros rest b. unfold Grammar.add_exists. take_tokens. unfold adds, leaf_matcher, Match.addOptionExistsMatcher.
    rewrite yes_token. destruct (Match.getOptionCode std (ident_token i)); [|done..]. rewrite !bind_Ok.
    by destruct (Match.addMatcher _ b).
Qed.

Lemma exists_fails : fails (Grammar.exists_check std) (not_head (fun x => (x =? 101) || (x =? 33))).
Proof.
  apply act_fails, seq_fails, sor_fails. repeat constructor; apply act_fails.
  - intros s b ts Hs. apply (str_fails 101). destruct s; [done|]. cbn in *. by apply orb_false_iff in Hs as [? _].
  - intros s b ts Hs. apply (str_fails 33). destruct s; [done|]. cbn in *. by apply orb_false_iff in Hs as [_ ?].
Qed.

(** *** Separators *)
Lemma pad_matches r t F : matches r t F anything -> t <> [] -> not_head space_char t ->
  matches (pad r space) (sp ++ t ++ sp) F (not_head space_char).
Proof.
  intros Hr Hne Ht rest b ts Hrest. unfold pad. apply (seq_done _ _ (F b ts)). rewrite <- !app_assoc.
  rewrite (conj_skip _ _ _ _ _ _ _ sp_matches) by (by apply not_head_app).
  rewrite (conj_step _ _ _ _ _ _ _ _ Hr) by done. destruct (F b ts) as [[b' ts']| | |]; [|done..]. rewrite !bind_Ok.
  by rewrite (conj_skip _ _ _ _ _ _ _ sp_matches).
Qed.

(** Blanks and then no separator. *)
Definition no_separator (P : list Z -> Prop) (s : list Z) : Prop :=
  exists s', s = sp ++ s' /\ not_head space_char s' /\ P s'.

Lemma pad_fails r P : fails r P -> fails (pad r space) (no_separator P).
Proof.
  intros Hr s b ts (s' & -> & Hs & HP). unfold pad, Peg.seq.
  rewrite (conj_skip _ _ _ _ _ _ _ sp_matches Hs). by rewrite (conj_fail _ _ _ _ _ _ Hr HP).
Qed.

(** *** Substrings *)
Lemma args_matches s c rest b ts : digits_ok s -> digits_ok c ->
  not_head space_char rest -> not_head (chr 44) rest -> not_head isdigit rest ->
  Grammar.two_number_args (MkPeg (s ++ sp ++ [44] ++ sp ++ c ++ sp ++ rest) b ts) =
    Ok (true, MkPeg (sp ++ rest) b ((ts ++ [s]) ++ [c])).
Proof.
  intros Hs Hc H1 H2 H3. unfold Grammar.two_number_args, list_must. apply (seq_done _ _ (Ok (b, _))).
  assert (forall x, not_head isdigit x -> not_head isdigit (sp ++ x)) as Hd.
  { intros x. apply not_head_sp. intros y. unfold space_char, isdigit. lia. }
  rewrite (conj_push _ _ _ _ _ _ _ _ (code_matches _ s Hs eq_refl)) by (by apply Hd).
  cbn [rule_conjunction]. unfold star.
  replace (sp ++ [44] ++ sp ++ c ++ sp ++ rest) with (concat ((fun c => (sp ++ [44] ++ sp) ++ c) <$> [c]) ++ sp ++ rest)
    by (cbn [fmap list_fmap concat]; by rewrite app_nil_r, <- !app_assoc).
  rewrite (star_items _ _ pushes (not_head isdigit) (no_separator (not_head (chr 44))) [c]).
  - done.
  - apply Forall_singleton. split; [|by destruct sp]. intros r b' ts' Hr. apply (seq_done _ _ (pushes c b' ts')).
    rewrite <- (app_assoc (sp ++ [44] ++ sp)).
    rewrite (conj_skip _ _ _ _ _ _ _ (pad_matches _ _ _ (one_matches (chr 44) 44 eq_refl) ltac:(done) eq_refl)).
    + rewrite (conj_push _ _ _ _ _ _ _ _ (must_matches _ _ _ _ (code_matches _ c Hc eq_refl))) by done. done.
    + destruct c as [|x c]; [by destruct Hc|]. destruct Hc as [_ Hc]. cbn in Hc |- *. apply andb_true_iff in Hc as [Hx _].
      unfold isdigit, space_char in *. lia.
  - apply seq_fails. apply pad_fails, one_fails.
  - by exists rest.
  - intros x _ s'. rewrite <- !app_assoc. by apply Hd.
  - by apply Hd.
  - cbn [input]. rewrite length_app. lia.
Qed.

Lemma substring_checks i s c e lit : leaf_ok (LSubstring i s c e lit) ->
  checks (Grammar.substring_check std) (leaf_text sp (LSubstring i s c e lit))
    (adds (leaf_matcher std (LSubstring i s c e lit))) anything.
Proof.
  intros (Hi & Hs & Hc & Hl). unfold Grammar.substring_check.
  apply (act_checks _ _ _ [ident_token i; s; c; equal_token e; lit]).
  - intros rest b _. apply (seq_done _ _ (Ok (b, _))). cbn [leaf_text]. rewrite <- !app_assoc.
    set (tail := sp ++ equal_text e ++ sp ++ literal_text lit ++ rest).
    assert (not_head space_char (ident_text i ++ sp ++ [44] ++ sp ++ s ++ sp ++ [44] ++ sp ++ c ++ sp ++ [41] ++ tail)) as H1
      by (by destruct i).
    assert (not_head space_char (s ++ sp ++ [44] ++ sp ++ c ++ sp ++ [41] ++ tail)) as H2.
    { destruct s as [|x s]; [by destruct Hs|]. destruct Hs as [_ Hs]. cbn in Hs |- *. apply andb_true_iff in Hs as [Hx _].
      unfold isdigit, space_char in *. lia. }
    assert (Grammar.substring_func_call (MkPeg (bytes_of "substring(" ++ sp ++ ident_text i ++ sp ++ [44] ++ sp ++ s ++ sp ++ [44] ++
      sp ++ c ++ sp ++ [41] ++ tail) b []) = Ok (true, MkPeg tail b [ident_token i; s; c])) as E.
    { unfold Grammar.substring_func_call, Grammar.substring_key. apply (seq_done _ _ (Ok (b, [ident_token i; s; c]))).
      change (bytes_of "substring(") with (bytes_of "substring" ++ [40]). rewrite <- app_assoc.
      rewrite (conj_skip _ _ _ _ _ _ _ (str_matches (bytes_of "substring"))) by done.
      rewrite (conj_skip _ _ _ _ _ _ _ (one_matches (chr 40) 40 eq_refl)) by done.
      rewrite (conj_skip _ _ _ _ _ _ _ sp_matches) by done.
      rewrite (conj_push _ _ _ _ _ _ _ _ (ident_matches i Hi)) by (by apply ends_name_sp).
      rewrite (conj_skip _ _ _ _ _ _ _ sp_matches) by done.
      rewrite (conj_skip _ _ _ _ _ _ _ (one_matches (chr 44) 44 eq_refl)) by done.
      rewrite (conj_skip _ _ _ _ _ _ _ sp_matches) by done.
      cbn [rule_conjunction]. rewrite args_matches by done. rewrite bind_Ok.
      rewrite (sp_matches ([41] ++ tail)) by done. cbn [no_effect mbind result_bind app].
      change (41 :: tail) with ([41] ++ tail). by rewrite (one_matches (chr 41) 41 eq_refl). }
    cbn [rule_conjunction]. rewrite E, bind_Ok. unfold tail. by apply comparison_matches.
  - intros rest b. unfold Grammar.add_substring. take_tokens.
    unfold adds, leaf_matcher, Match.addSubstringMatcher.
    destruct (Grammar.cast_int s); [|done..]. destruct (Grammar.cast_int c); [|done..].
    rewrite !bind_Ok, zget_3, zget_4, !bind_Ok, yes_token.
    destruct (Match.getOptionCode std (ident_token i)); [|done..]. rewrite !bind_Ok. by destruct (Match.addMatcher _ b).
Qed.

Lemma substring_fails : fails (Grammar.substring_check std) (not_head (fun x => x =? 115)).
Proof. apply act_fails, seq_fails, seq_fails. apply (str_fails 115). Qed.

(** *** Leaves *)
Lemma leaf_checks l : leaf_ok l ->
  checks (Grammar.leaf_logic_check std) (leaf_text sp l) (adds (leaf_matcher std l)) ends_name.
Proof.
  intros Hl rest b Hr. unfold Grammar.leaf_logic_check. destruct l as [i e lit|i e|i s c e lit].
  - cbn [sor]. rewrite (value_checks i e lit Hl) by done. by destruct (adds _ b).
  - rewrite (sor_next _ _ _ _ _ _ value_fails) by (by destruct e).
    cbn [sor]. rewrite (exists_checks i e Hl) by done. by destruct (adds _ b).
  - rewrite (sor_next _ _ _ _ _ _ value_fails), (sor_next _ _ _ _ _ _ exists_fails) by done.
    cbn [sor]. rewrite (substring_checks i s c e lit Hl) by done. by destruct (adds _ b).
Qed.

Lemma leaf_fails : fails (Grammar.leaf_logic_check std) (not_head (fun x => (x =? 111) || (x =? 101) || (x =? 33) || (x =? 115))).
Proof.
  intros s b ts Hs. unfold Grammar.leaf_logic_check.
  assert (not_head (fun x => x =? 111) s /\ not_head (fun x => (x =? 101) || (x =? 33)) s /\ not_head (fun x => x =? 115) s)
    as (H1 & H2 & H3).
  { destruct s; [done|]. cbn in *. rewrite !orb_false_iff in Hs. rewrite !orb_false_iff. tauto. }
  rewrite (sor_next _ _ _ _ _ _ value_fails H1), (sor_next _ _ _ _ _ _ exists_fails H2).
  by rewrite (sor_next _ _ _ _ _ _ substring_fails H3).
Qed.

Definition junction_op (j : junction) : MatcherOperator := match j with JAnd => And | JOr => Or end.

Lemma operator_matches j :
  matches Grammar.logic_operator (sp ++ junction_text j ++ sp)
    (fun b ts => Ok (Match.push_operator (junction_op j) b, ts)) (not_head space_char).
Proof.
  unfold Grammar.logic_operator. apply pad_matches; [|by destruct j|by destruct j].
  intros rest b ts _. destruct j.
  - apply sor_first. unfold Grammar.and_key. rewrite (act_eq _ _ _ (Ok (b, ts)) rest b ts (bytes_of "&&")); [done|done| |by apply str_matches].
    intros st st'. unfold Grammar.on_builder. rewrite bind_Ok. by intros [= <-].
  - rewrite (sor_next _ _ _ _ _ (not_head (fun x => x =? 38))); [|apply act_fails; apply (str_fails 38)|done].
    apply sor_first. unfold Grammar.or_key. rewrite (act_eq _ _ _ (Ok (b, ts)) rest b ts (bytes_of "||")); [done|done| |by apply str_matches].
    intros st st'. unfold Grammar.on_builder. rewrite bind_Ok. by intros [= <-].
Qed.

Lemma operator_fails : fails Grammar.logic_operator (no_separator (not_head (fun x => (x =? 38) || (x =? 124)))).
Proof.
  apply pad_fails, sor_fails. repeat constructor; apply act_fails; intros s b ts Hs.
  - apply (str_fails 38). destruct s; [done|]. cbn in *. by apply orb_false_iff in Hs as [? _].
  - apply (str_fails 124). destruct s; [done|]. cbn in *. by apply orb_false_iff in Hs as [_ ?].
Qed.

(** *** Checks joined by operators *)
Definition joins {A} (matcher : A -> result PktOptionMatcher) (p : junction * A) (b : Builder) : result Builder :=
  adds (matcher p.2) (Match.push_operator (junction_op p.1) b).

(** After blanks the next character is neither a blank nor an operator. *)
Definition ends_list (s : list Z) : Prop :=
  s = [] \/ no_separator (fun s => ends_name s /\ not_head (fun x => (x =? 38) || (x =? 124)) s) s.

Lemma ends_list_name s : ends_list s -> ends_name s.
Proof. intros [->|(s' & -> & _ & Hs & _)]; [done|]. by apply ends_name_sp. Qed.

Lemma joined_checks {A} (r : rule) (text : A -> list Z) (matcher : A -> result PktOptionMatcher) l rest b :
  Forall (fun p => checks r (text p.2) (adds (matcher p.2)) ends_name /\ text p.2 <> [] /\ not_head space_char (text p.2)) l ->
  ends_list rest ->
  star (Peg.seq [Grammar.logic_operator; must r]) (MkPeg (joined_text sp text l ++ rest) b []) =
    (b' ← foldM (fun b p => joins matcher p b) b l; Ok (true, MkPeg rest b' [])).
Proof.
  intros Hl Hr. unfold star, joined_text.
  rewrite (star_items_when (fun ts => ts = []) _ _ (fun p b _ => b' ← joins matcher p b; Ok (b', [])) ends_name ends_list l).
  - assert (run_all (fun p b _ => b' ← joins matcher p b; Ok (b', [])) l b [] =
      (b' ← foldM (fun b p => joins matcher p b) b l; Ok (b', []))) as ->.
    { clear -l. revert b. induction l as [|p l IH]; intros b; [done|]. rewrite run_all_cons. cbn [foldM].
      destruct (joins matcher p b); [|done..]. rewrite !bind_Ok. apply IH. }
    by destruct (foldM _ b l).
  - eapply Forall_impl; [exact Hl|]. intros p (Hp & Hne & Hsp'). split; [|by destruct p.1, sp].
    intros s b' ts -> Hs. assert ((sp ++ junction_text p.1 ++ sp ++ text p.2) ++ s =
      (sp ++ junction_text p.1 ++ sp) ++ text p.2 ++ s) as -> by (by rewrite <- !app_assoc).
    unfold Peg.seq, rewind. rewrite (conj_step _ _ _ _ _ _ _ _ (operator_matches p.1)) by (by apply not_head_app).
    rewrite bind_Ok. cbn [rule_conjunction]. unfold must. rewrite Hp by done. unfold joins. by destruct (adds _ _).
  - intros p b1 ts1 b2 ts2 _ (x & _ & [= _ <-])%bind_ok. done.
  - apply seq_fails. intros s b' ts' [->|(s' & -> & H1 & _ & H2)]; [done|]. apply operator_fails. by exists s'.
  - done.
  - intros p _ s. rewrite <- !app_assoc. apply ends_name_sp. by destruct p.1.
  - by apply ends_list_name.
  - cbn [input]. rewrite length_app. lia.
  - done.
Qed.

(** *** The builder *)
Lemma leaf_added (m : PktOptionMatcher) ms ops j m' :
  Match.addMatcher m' (Match.push_operator (junction_op j) (MkBuilder (m :: ms) ops)) = Ok (MkBuilder (combine j m m' :: ms) ops).
Proof. by destruct j. Qed.

(** Joined checks fold into the matcher on top. *)
Lemma joined_builder {A} (matcher : A -> result PktOptionMatcher) l m ms ops :
  foldM (fun b p => joins matcher p b) (MkBuilder (m :: ms) ops) l =
    (m' ← joined_matcher matcher m l; Ok (MkBuilder (m' :: ms) ops)).
Proof.
  revert m. induction l as [|p l IH]; intros m; [done|]. cbn [foldM joined_matcher]. unfold joined_matcher. cbn [foldM].
  assert (joins matcher p (MkBuilder (m :: ms) ops) =
    (m' ← matcher p.2; Ok (MkBuilder (combine p.1 m m' :: ms) ops))) as ->.
  { unfold joins, adds. destruct (matcher p.2) as [m'| | |]; [|done..]. by rewrite !bind_Ok, leaf_added. }
  destruct (matcher p.2) as [m'| | |]; [|done..]. rewrite !bind_Ok. apply IH.
Qed.

(** After an opening bracket a matcher starts a new level. *)
Lemma bracket_opens m b :
  Match.addMatcher m (Match.onLeftBracket b) = Ok (MkBuilder (m :: matcher_stack_ b) (LeftBracket :: operator_stack_ b)).
Proof. destruct b as [[|m' ms] ops]; done. Qed.

Lemma group_builder l ls b :
  (b' ← adds (leaf_matcher std l) (Match.onLeftBracket b);
   b' ← foldM (fun b p => joins (leaf_matcher std) p b) b' ls; Match.onRightBracket b') =
  adds (logic_matcher std (Group l ls)) b.
Proof.
  unfold adds, logic_matcher. destruct (leaf_matcher std l) as [m| | |]; [|done..].
  rewrite !bind_Ok, bracket_opens, bind_Ok, joined_builder.
  destruct (joined_matcher (leaf_matcher std) m ls) as [m'| | |]; [|done..]. by destruct b.
Qed.

(** *** Brackets and whole expressions *)
Lemma list_must_unfold r sep st :
  list_must r sep st = rewind st ('(ok, st) ← r st;
    if (ok : bool) then '(ok, st) ← star (Peg.seq [sep; must r]) st; if (ok : bool) then Ok (true, st) else Ok (false, st)
    else Ok (false, st)).
Proof. done. Qed.

Lemma leaf_text_head l : leaf_text sp l <> [] /\ not_head space_char (leaf_text sp l).
Proof. destruct l as [i e lit|i e|i s c e lit]; [by destruct i|by destruct e|done]. Qed.

Lemma leaves_joined ls rest b :
  Forall (fun p => leaf_ok p.2) ls -> ends_list rest ->
  star (Peg.seq [Grammar.logic_operator; must (Grammar.leaf_logic_check std)])
    (MkPeg (joined_text sp (leaf_text sp) ls ++ rest) b []) =
    (b' ← foldM (fun b p => joins (leaf_matcher std) p b) b ls; Ok (true, MkPeg rest b' [])).
Proof.
  intros Hls Hr. apply joined_checks; [|done]. eapply Forall_impl; [exact Hls|].
  intros p Hp. split; [by apply leaf_checks|apply leaf_text_head].
Qed.

Lemma joined_ends_name {A} (text : A -> list Z) l rest : ends_list rest -> ends_name (joined_text sp text l ++ rest).
Proof.
  intros Hr. destruct l as [|p l]; [by apply ends_list_name|]. unfold joined_text. cbn [fmap list_fmap concat].
  rewrite <- !app_assoc. apply ends_name_sp. by destruct p.1.
Qed.

Lemma group_checks l ls : logic_ok (Group l ls) ->
  checks (Grammar.component_logic_check std) (logic_text sp (Group l ls)) (adds (logic_matcher std (Group l ls))) anything.
Proof.
  intros [Hl Hls] rest b _. unfold Grammar.component_logic_check, Peg.seq, rewind. cbn [logic_text]. rewrite <- !app_assoc.
  assert (ends_list (sp ++ [41] ++ rest)) as Hend by (right; by exists ([41] ++ rest)).
  assert (Grammar.left_bracket_key (MkPeg ([40] ++ sp ++ leaf_text sp l ++ joined_text sp (leaf_text sp) ls ++ sp ++ [41] ++ rest) b []) =
    Ok (true, MkPeg (sp ++ leaf_text sp l ++ joined_text sp (leaf_text sp) ls ++ sp ++ [41] ++ rest) (Match.onLeftBracket b) [])) as E1.
  { unfold Grammar.left_bracket_key. rewrite (act_eq _ _ _ (Ok (b, []))
      (sp ++ leaf_text sp l ++ joined_text sp (leaf_text sp) ls ++ sp ++ [41] ++ rest) b [] (bytes_of "(")); [done|done| |by apply (str_matches [40])].
    intros st st'. unfold Grammar.on_builder. rewrite bind_Ok. by intros [= <-]. }
  cbn [rule_conjunction]. rewrite E1, bind_Ok.
  rewrite (sp_matches (leaf_text sp l ++ joined_text sp (leaf_text sp) ls ++ sp ++ [41] ++ rest)) by (apply not_head_app; apply leaf_text_head).
  unfold no_effect. rewrite bind_Ok. rewrite bind_Ok, list_must_unfold. unfold rewind.
  rewrite (leaf_checks l Hl) by (by apply joined_ends_name). rewrite <- group_builder.
  destruct (adds (leaf_matcher std l) (Match.onLeftBracket b)) as [b1| | |]; [|done..]. rewrite !bind_Ok.
  rewrite leaves_joined by done.
  destruct (foldM _ b1 ls) as [b2| | |]; [|done..]. rewrite !bind_Ok.
  rewrite (sp_matches ([41] ++ rest)) by done. unfold no_effect. rewrite !bind_Ok.
  assert (Grammar.right_bracket_key (MkPeg ([41] ++ rest) b2 []) = (b' ← Match.onRightBracket b2; Ok (true, MkPeg rest b' []))) as ->.
  { unfold Grammar.right_bracket_key. rewrite (act_eq _ _ _ (Ok (b2, [])) rest b2 [] (bytes_of ")")); [|done| |by apply (str_matches [41])].
    - unfold Grammar.on_builder. cbn [builder]. rewrite !bind_Ok. cbn [builder]. by destruct (Match.onRightBracket b2).
    - intros st st'. unfold Grammar.on_builder. intros (b' & _ & [= <-])%bind_ok. done. }
  by destruct (Match.onRightBracket b2).
Qed.

Lemma logic_checks l : logic_ok l ->
  checks (Grammar.logic_check std) (logic_text sp l) (adds (logic_matcher std l)) ends_name.
Proof.
  intros Hl rest b Hr. unfold Grammar.logic_check. destruct l as [l|l ls].
  - cbn [sor]. rewrite (leaf_checks l Hl) by done. cbn [logic_matcher]. by destruct (adds _ b).
  - rewrite (sor_next _ _ _ _ _ _ leaf_fails) by done. cbn [sor].
    rewrite (group_checks l ls Hl) by done. by destruct (adds _ b).
Qed.

Lemma logic_text_head l : logic_text sp l <> [] /\ not_head space_char (logic_text sp l).
Proof. destruct l; [apply leaf_text_head|done]. Qed.

Lemma expression_parses e : expr_ok e ->
  Grammar.expression std (MkPeg (expr_text sp e) (MkBuilder [] []) []) =
    (m ← expr_matcher std e; Ok (true, MkPeg [] (MkBuilder [m] []) [])).
Proof.
  destruct e as [l ls]. intros [Hl Hls]. unfold Grammar.expression, expr_text, expr_matcher.
  rewrite list_must_unfold. unfold rewind. cbn [fst snd] in *. rewrite <- (app_nil_r (joined_text sp (logic_text sp) ls)).
  rewrite (logic_checks l Hl) by (apply joined_ends_name; by left).
  unfold adds. destruct (logic_matcher std l) as [m| | |]; [|done..]. rewrite !bind_Ok. cbn [Match.addMatcher matcher_stack_].
  rewrite !bind_Ok.
  rewrite (joined_checks _ _ (logic_matcher std)); [| |by left].
  - cbn [operator_stack_]. rewrite joined_builder. by destruct (joined_matcher (logic_matcher std) m ls).
  - eapply Forall_impl; [exact Hls|]. intros p Hp. split; [by apply logic_checks|apply logic_text_head].
Qed.

(** A printed expression is parsed to its meaning. *)
Lemma buildMatcher_expr e : expr_ok e -> Grammar.buildMatcher std (expr_text sp e) = expr_matcher std e.
Proof.
  intros He. unfold Grammar.buildMatcher, Grammar.grammar, Peg.seq, rewind. cbn [rule_conjunction]. unfold must. cbn beta.
  rewrite expression_parses by done. by destruct (expr_matcher std e).
Qed.
End Rules.

(** ** The registered classes *)
Lemma matched_exact l q cs : Classes.getMatchedClass l q = Ok cs ->
  forall c, c ∈ cs <-> exists m, (c, m) ∈ l /\ m q = Ok true.
Proof.
  revert cs. induction l as [|[n m] l IH]; intros cs; cbn [Classes.getMatchedClass].
  { intros [= <-] c. split; [by intros ?%elem_of_nil|]. intros (m & ?%elem_of_nil & _). done. }
  intros (b & Hb & (rest & Hr & [= <-])%bind_ok)%bind_ok c. setoid_rewrite elem_of_cons.
  specialize (IH rest Hr c). destruct b.
  - rewrite elem_of_cons, IH. split.
    + intros [->|(m' & Hm & Hq)]; [exists m; auto|exists m'; auto].
    + intros (m' & [[= -> ->]|Hm] & Hq); [by left|right; eauto].
  - rewrite IH. split; [intros (m' & Hm & Hq); eauto|]. intros (m' & [[= -> ->]|Hm] & Hq); [congruence|eauto].
Qed.

Lemma map_insert_in n m l p : p ∈ Classes.map_insert n m l <-> p = (n, m) \/ p ∈ l.
Proof.
  induction l as [|[k v] l IH]; cbn [Classes.map_insert]; [by rewrite list_elem_of_singleton, elem_of_nil; tauto|].
  destruct (String.ltb n k); rewrite !elem_of_cons, ?IH, ?elem_of_cons; tauto.
Qed.

Lemma classes_added cs (p : Pkt) c : c ∈ classes_ (foldl (fun p c => P.addClass c p) p cs) <-> c ∈ classes_ p \/ c ∈ cs.
Proof.
  revert p. induction cs as [|x cs IH]; intros p; cbn [foldl]; [rewrite elem_of_nil; tauto|].
  rewrite IH, elem_of_cons. unfold P.addClass. case_bool_decide as Hin; [|change (classes_ (p <| classes_ := ?s |>)) with s; rewrite elem_of_union, elem_of_singleton; tauto].
  split; [tauto|]. intros [?|[->|?]]; tauto.
Qed.

Section Configured.
Context `{Inet6} `{TransformWidth} `{LexicalCast}.
Variables (std : OptionMeta) (sp : list Z).
Hypothesis Hsp : forallb space_char sp = true.

(** The classes of a configuration, added one after the other. *)
Definition configure (defs : list (string * expr)) : result ClientClassManager :=
  foldM (fun l d => Classes.addClientClass std d.1 (expr_text sp d.2) l) Classes.empty defs.

Lemma configure_exact defs l : Forall (fun d => expr_ok d.2) defs -> configure defs = Ok l ->
  forall p, p ∈ l <-> exists e, (p.1, e) ∈ defs /\ expr_matcher std e = Ok p.2.
Proof.
  unfold configure. intros Hok. assert (forall l0, foldM (fun l d => Classes.addClientClass std d.1 (expr_text sp d.2) l) l0 defs = Ok l ->
    forall p, p ∈ l <-> p ∈ l0 \/ exists e, (p.1, e) ∈ defs /\ expr_matcher std e = Ok p.2) as Hg.
  { clear -Hok Hsp. revert Hok. induction defs as [|[n e] defs IH]; intros Hok l0; cbn [foldM].
    { intros [= <-] p. split; [by left|]. intros [?|(e & ?%elem_of_nil & _)]; done. }
    apply Forall_cons_iff in Hok as [He Hok]. intros (l1 & Ha & Hl)%bind_ok p. rewrite (IH Hok l1 Hl p).
    unfold Classes.addClientClass in Ha. apply bind_ok in Ha as ([] & _ & Ha). cbn [fst snd] in *.
    rewrite buildMatcher_expr in Ha by done. apply bind_ok in Ha as (m & Hm & [= <-]).
    rewrite map_insert_in. setoid_rewrite elem_of_cons. split.
    - intros [[->|?]|(e' & ? & ?)]; [right; exists e; auto|by left|right; exists e'; auto].
    - intros [?|(e' & [[= <- ->]|?] & He')]; [auto| |right; eauto]. left. left. destruct p. cbn in *. congruence. }
  intros Hl p. rewrite (Hg _ Hl p). split; [|by right]. by intros [?%elem_of_nil|?].
Qed.
End Configured.
