(* ===== verification/Config.v ===== *)
(** Configuration: configure/json_conf.cpp over the values of util/json11, and
    server/ctrl_server_init.h, which turns a configuration into options,
    client classes and subnets. *)
From stdpp Require Import base list numbers option strings gmap.
From Stdlib Require Import ZArith Lia.
From S2P Require Import Prelude Buffer HwAddr Encode Text Json Address DnsName OptionDef Options.
From S2P Require Import Pkt Nic Subnet OptionText ClientClass.

(** ** Access by dotted keys *)
Module Conf.

Definition DOT : list Z := [46].

Fixpoint descend (keys : list (list Z)) (o : Json) : option Json :=
  match keys with
  | [] => Some o
  | k :: keys => let o := JsonValue.at_key k o in if JsonValue.is_null o then None else descend keys o
  end.

Definition try_recursive_get (key : string) (o : Json) : result (option Json) :=
  keys ← Str.tokens (bytes_of key) DOT; Ok (descend keys o).
Definition recursive_get (key : string) (o : Json) : result Json :=
  r ← try_recursive_get key o; match r with None => Throw KeyNotExistError | Some j => Ok j end.

Definition hasKey (key : string) (o : Json) : result bool :=
  r ← try_recursive_get key o; Ok (bool_decide (is_Some r)).
Definition getInt (key : string) (o : Json) : result Z :=
  j ← recursive_get key o; match j with JNumber n => v ← JsonValue.number_int n; Ok (s32 v) | _ => Throw TypeError end.
Definition getUint (key : string) (o : Json) : result Z :=
  j ← recursive_get key o; match j with JNumber n => v ← JsonValue.number_int n; Ok (u32 v) | _ => Throw TypeError end.
Definition getString (key : string) (o : Json) : result (list Z) :=
  j ← recursive_get key o; match j with JString s => Ok s | _ => Throw TypeError end.
Definition getBool (key : string) (o : Json) : result bool :=
  j ← recursive_get key o; match j with JBool b => Ok b | _ => Throw TypeError end.
Definition getObject (key : string) (o : Json) : result Json :=
  j ← recursive_get key o; match j with JObject m => Ok (JObject m) | _ => Throw TypeError end.

Definition getDouble (key : string) (o : Json) : result SpecFloat.spec_float :=
  j ← recursive_get key o; match j with JNumber n => Ok (JsonValue.number_double n) | _ => Throw TypeError end.

(** The elements of an array are converted without a check of their type. *)
Definition getArray {A} (f : Json -> result A) (key : string) (o : Json) : result (list A) :=
  j ← recursive_get key o; match j with JArray l => mapM_ f l | _ => Throw TypeError end.
Definition getInts : string -> Json -> result (list Z) := getArray (fun j => s32 <$> JsonValue.int_value j).
Definition getUints : string -> Json -> result (list Z) := getArray (fun j => u32 <$> JsonValue.int_value j).
Definition getDoubles : string -> Json -> result (list SpecFloat.spec_float) := getArray (fun j => Ok (JsonValue.number_value j)).
Definition getStrings : string -> Json -> result (list (list Z)) := getArray (fun j => Ok (JsonValue.string_value j)).
Definition getBools : string -> Json -> result (list bool) := getArray (fun j => Ok (JsonValue.bool_value j)).
Definition getObjects : string -> Json -> result (list Json) := getArray (fun j => Ok j).

(** [if (hasKey(key)) { r = get(key); }] *)
Definition if_has {A} (key : string) (o : Json) (get : string -> Json -> result A) (r : A) : result A :=
  b ← hasKey key o; if (b : bool) then get key o else Ok r.
End Conf.

(** ** Start-up *)
Module Init.
Section Init.
Context `{Inet6} `{TransformWidth} `{LexicalCast}.

Definition SLASH : list Z := [47].
Definition COMMA : list Z := [44].

(** What [Pinger::init] is given: whether the check is enabled, the time-out. *)
Definition initPingCheck (root : Json) : result (bool * Z) :=
  b ← Conf.hasKey "dhcp4.ping-check" root;
  if (b : bool) then
    ping_enable ← Conf.if_has "dhcp4.ping-check.enable" root Conf.getBool false;
    if (ping_enable : bool) then
      t ← Conf.if_has "dhcp4.ping-check.timeout" root Conf.getInt 1; Ok (true, u32 t)
    else Ok (false, 1)
  else Ok (false, 1).

Definition DEFAULT_KEA_MASTER_IP : list Z := bytes_of "127.0.0.1".
Definition DEFAULT_KEA_MASTER_PORT : Z := 5555.
Definition initRpcAllocateEngine (root : Json) : result (list Z * Z) :=
  ip ← Conf.if_has "dhcp4.kea-master-ip" root Conf.getString DEFAULT_KEA_MASTER_IP;
  port ← Conf.if_has "dhcp4.kea-master-port" root Conf.getInt DEFAULT_KEA_MASTER_PORT;
  Ok (ip, port).

Definition initClientClasses (std : OptionMeta) (root : Json) : result ClientClassManager :=
  b ← Conf.hasKey "dhcp4.client-classes" root;
  if (b : bool) then
    client_classes ← Conf.getObjects "dhcp4.client-classes" root;
    foldM (fun m client_class =>
      name ← Conf.getString "name" client_class;
      test ← Conf.getString "test" client_class;
      Classes.addClientClass std (string_of name) test m) Classes.empty client_classes
  else Ok Classes.empty.

(** [freed]: what is found where the text of a destroyed string was. *)
Definition custom_option (freed : list Z -> string) (option_def : Json) : result OptionDescription :=
  name ← Conf.getString "name" option_def;
  opt_code ← Conf.getInt "code" option_def;
  type ← Conf.getString "type" option_def;
  let opt_type := OptionDataTypeUtil.getDataType (string_of type) in
  opt_array ← Conf.if_has "array" option_def Conf.getBool false;
  has ← (if bool_decide (opt_type = OPT_RECORD_TYPE) then Conf.hasKey "record-types" option_def else Ok false);
  record_types ← (if (has : bool) then
      types ← Conf.getString "record-types" option_def; Str.tokens types COMMA else Ok []);
  Ok (MkDesc (freed name) (u16 opt_code) opt_type opt_array
        ((fun t => OptionDataTypeUtil.getDataType (string_of t)) <$> record_types) "").
Definition initCustomOptions (freed : list Z -> string) (root : Json) (std : OptionMeta) : result OptionMeta :=
  b ← Conf.hasKey "dhcp4.option-def" root;
  if (b : bool) then
    option_defs ← Conf.getObjects "dhcp4.option-def" root;
    foldM (fun m option_def =>
      desc ← custom_option freed option_def; def ← optionDefFromDescription desc; Ok (Meta.addOptionDef def m)) std option_defs
  else Ok std.

Section Lib.
Variable lib : LibDHCP.

Definition option_definition (op_data : Json) : result (option OptionDefinition) :=
  c ← Conf.hasKey "code" op_data;
  if (c : bool) then code ← Conf.getInt "code" op_data; Ok (Lib.getStdOptionDef (u16 code) lib)
  else
    n ← Conf.hasKey "name" op_data;
    if (n : bool) then
      name ← Conf.getString "name" op_data; Ok (Meta.getOptionDef_name (string_of name) (v4_option_meta_ lib))
    else Ok None.

Definition option_of_data (def : OptionDefinition) (op_data : Json) : result opt :=
  data ← Conf.getString "data" op_data;
  csv_format ← Conf.getBool "csv-format" op_data;
  if (csv_format : bool) then
    data_tokens ← Str.tokens data COMMA; FromText.optionFactory lib def (code_ def) data_tokens
  else
    binary ← decodeHex data; optionFactory (unpackOptions4 lib) (unpackVendorOptions4 lib) def (code_ def) binary.

(** The first entry without definition ends the loop. *)
Fixpoint option_data_loop (op_datas : list Json) (col : coll) : result coll :=
  match op_datas with
  | [] => Ok col
  | op_data :: op_datas =>
      def ← option_definition op_data;
      match def with
      | None => Ok col
      | Some def => opt ← option_of_data def op_data; option_data_loop op_datas (minsert (code_ def) opt col)
      end
  end.
Definition initOptionData (conf : Json) (col : coll) : result coll :=
  op_datas ← Conf.getObjects "option-data" conf; option_data_loop op_datas col.

(** The lifetimes of a subnet: the limits give way to the default. *)
Definition lifetimes (subnet : Json) : result Triplet :=
  v ← Conf.if_has "default-valid-lifetime" subnet Conf.getInt 4800;
  max ← Conf.if_has "max-valid-lifetime" subnet Conf.getInt 0;
  min ← Conf.if_has "min-valid-lifetime" subnet Conf.getInt 0;
  let validLifeTime := u32 v in
  let maxValidTime := if u32 max <? validLifeTime then validLifeTime else u32 max in
  let minValidTime := if validLifeTime <? u32 min then validLifeTime else u32 min in
  Trip.make minValidTime validLifeTime maxValidTime.

Definition with_classes (key : string) (f : string -> Subnet -> Subnet) (subnet : Json) (s : Subnet) : result Subnet :=
  cs ← Conf.if_has key subnet Conf.getStrings []; Ok (foldl (fun s c => f (string_of c) s) s cs).

Definition createSubnet (subnet : Json) : result (option Subnet) :=
  b ← Conf.hasKey "subnet" subnet;
  if negb b then Ok None
  else
    text ← Conf.getString "subnet" subnet;
    subnet_str ← Str.tokens text SLASH;
    match subnet_str with
    | [ip; mask] =>
        let subnet_ip := IOAddress_of_text ip in
        mask_len ← atoi mask;
        has_id ← Conf.hasKey "id" subnet;
        throw_if (negb has_id) BadValue;;
        subnetID ← Conf.getUint "id" subnet;
        valid_time_trip ← lifetimes subnet;
        s ← Sub.make subnet_ip (u8 mask_len) (Trip.of_value 4000) (Trip.of_value 4000) valid_time_trip subnetID;
        s ← with_classes "white-client-class" Sub.allowClientClass subnet s;
        s ← with_classes "black-client-class" Sub.denyClientClass subnet s;
        has_options ← Conf.hasKey "option-data" subnet;
        if (has_options : bool) then
          col ← initOptionData subnet (opt_data_ s); Ok (Some (s <| opt_data_ := col |>))
        else Ok (Some s)
    | _ => Ok None
    end.

(** The exception for a duplicate id is composed from the subnet that the
    manager has just destroyed. *)
Definition add_subnet (m : SubnetMgr) (subnet : Json) : result SubnetMgr :=
  subnet_ptr ← createSubnet subnet;
  match subnet_ptr with
  | None => Ok m
  | Some s => let '(m, added) := SMgr.add s m in if (added : bool) then Ok m else Crash
  end.
Definition createSubnetMgr (root : Json) : result SubnetMgr :=
  subnets ← Conf.getObjects "dhcp4.subnet4" root; foldM add_subnet (MkSubnetMgr []) subnets.
End Lib.
End Init.
End Init.
