(* ===== verification/Statistics.v ===== *)
(** Packet statistics: statistics/pkt_statistic.cpp.

    Workers count packets in four atomic counters while a thread reports and
    clears them once a second.  Each atomic access of the thread is a step of
    its own, so that packets are counted between any two of them. *)
From stdpp Require Import base list numbers option strings gmap.
From Stdlib Require Import ZArith Lia.
From S2P Require Import Prelude Buffer HwAddr Encode Text Json Address DnsName OptionDef Options Pkt Config.

(** [pc]: the next atomic access of the reporting thread, see [proc_step];
    [buf]: the numbers it has loaded. *)
Record Statistics := MkStatistics {
  started_ : bool; discover_ : Z; offer_ : Z; request_ : Z; ack_ : Z;
  lps_ : list Z; fp_ : list Z; pc : nat; buf : list Z }.

#[global] Instance Statistics_eta : Eta Statistics := fun s =>
  MkStatistics (started_ s) (discover_ s) (offer_ s) (request_ s) (ack_ s) (lps_ s) (fp_ s) (pc s) (buf s).

(** The answer to a command: a text and whether it succeeded. *)
Abbreviation CmdResult := (list Z * bool)%type.

Module Stat.

Definition init : Statistics := MkStatistics true 0 0 0 0 (bytes_of "0 0 0 0") [] 0 [].
Definition stop (s : Statistics) : Statistics := s <| started_ := false |>.

Definition count_recv (query : Pkt) (s : Statistics) : result (Z * Statistics) :=
  try_std
    (t ← P.getType query;
     Ok (0, if t =? DHCPDISCOVER then s <| discover_ := u32 (discover_ s + 1) |>
            else if t =? DHCPREQUEST then s <| request_ := u32 (request_ s + 1) |>
            else s))
    (fun _ => Ok (1, s)).

(** The line of an acknowledged client. *)
Fixpoint comma_join (l : list (list Z)) : list Z :=
  match l with [] => [] | [t] => t | t :: l => t ++ 44 :: comma_join l end.
Definition ack_line (query : Pkt) : list Z :=
  HW.toText (chaddr_ query) ++ bytes_of "#####" ++
  match body_ <$> P.getOption DHO_DHCP_PARAMETER_REQUEST_LIST query with
  | Some (BIntArray Uint8 values) => comma_join (int_text <$> values) ++ bytes_of "#####"
  | _ => []
  end ++
  match P.getOption DHO_VENDOR_CLASS_IDENTIFIER query with
  | Some (Opt _ data BString _ _) => data
  | _ => []
  end ++ [10].

Definition count_send (query rsp : Pkt) (s : Statistics) : result (Z * Statistics) :=
  try_std
    (t ← P.getType rsp;
     Ok (0, if t =? DHCPOFFER then s <| offer_ := u32 (offer_ s + 1) |>
            else if t =? DHCPACK then s <| ack_ := u32 (ack_ s + 1) |> <| fp_ := fp_ s ++ ack_line query |>
            else s))
    (fun _ => Ok (1, s)).

(** [count_proc]: sleep, four loads, four resets from the last counter to the
    first, and the report. *)
Definition report (b : list Z) : list Z :=
  match int_text <$> b with
  | [d; o; r; a] => d ++ 32 :: o ++ 32 :: r ++ 32 :: a
  | _ => []
  end.
Definition proc_step (s : Statistics) : Statistics :=
  match pc s with
  | 0%nat => if started_ s then s <| pc := 1%nat |> <| buf := [] |> else s
  | 1%nat => s <| buf := buf s ++ [discover_ s] |> <| pc := 2%nat |>
  | 2%nat => s <| buf := buf s ++ [offer_ s] |> <| pc := 3%nat |>
  | 3%nat => s <| buf := buf s ++ [request_ s] |> <| pc := 4%nat |>
  | 4%nat => s <| buf := buf s ++ [ack_ s] |> <| pc := 5%nat |>
  | 5%nat => s <| ack_ := 0 |> <| pc := 6%nat |>
  | 6%nat => s <| request_ := 0 |> <| pc := 7%nat |>
  | 7%nat => s <| offer_ := 0 |> <| pc := 8%nat |>
  | 8%nat => s <| discover_ := 0 |> <| pc := 9%nat |>
  | _ => s <| lps_ := report (buf s) |> <| pc := 0%nat |>
  end.

Definition handleCmd (cmd_name : list Z) (s : Statistics) : CmdResult :=
  if bool_decide (cmd_name = bytes_of "statis_lps") then (lps_ s, true)
  else (bytes_of "unknowned command:" ++ cmd_name, false).
End Stat.

(** ** Interleavings *)
Inductive counter : Set := Discover | Offer | Request | Ack.
#[global] Instance counter_eq_dec : EqDecision counter.
Proof. solve_decision. Defined.

Inductive event : Type := Recv (query : Pkt) | Send (query rsp : Pkt) | Proc.

Definition happen (e : event) (s : Statistics) : result Statistics :=
  match e with
  | Recv q => '(_, s) ← Stat.count_recv q s; Ok s
  | Send q r => '(_, s) ← Stat.count_send q r s; Ok s
  | Proc => Ok (Stat.proc_step s)
  end.

(** The counter an event increments. *)
Definition counts (e : event) : option counter :=
  match e with
  | Recv q => match P.getType q with
      | Ok t => if t =? DHCPDISCOVER then Some Discover else if t =? DHCPREQUEST then Some Request else None
      | _ => None end
  | Send _ r => match P.getType r with
      | Ok t => if t =? DHCPOFFER then Some Offer else if t =? DHCPACK then Some Ack else None
      | _ => None end
  | Proc => None
  end.

Definition value (k : counter) (s : Statistics) : Z :=
  match k with Discover => discover_ s | Offer => offer_ s | Request => request_ s | Ack => ack_ s end.
(** The place of a counter in a report, and when it is loaded and reset. *)
Definition place (k : counter) : nat := match k with Discover => 0%nat | Offer => 1%nat | Request => 2%nat | Ack => 3%nat end.
Definition in_window (k : counter) (s : Statistics) : bool :=
  (S (place k) <? pc s)%nat && (pc s <=? 8 - place k)%nat.
Definition loaded (k : counter) (s : Statistics) : Z :=
  if (S (place k) <? pc s)%nat then default 0 (buf s !! place k) else 0.

(** The state with what was counted, reported, and counted between the load
    and the reset of a counter. *)
Record Account := MkAccount { counted : counter -> Z; reported : counter -> Z; lost : counter -> Z }.
Definition no_account : Account := MkAccount (fun _ => 0) (fun _ => 0) (fun _ => 0).
Definition add (f : counter -> Z) (k : counter) (n : Z) : counter -> Z := fun k' => if decide (k = k') then f k' + n else f k'.
Definition account (e : event) (s : Statistics) (a : Account) : Account :=
  match counts e with
  | Some k => MkAccount (add (counted a) k 1) (reported a) (if in_window k s then add (lost a) k 1 else lost a)
  | None =>
      match e with
      | Proc => if (9 <=? pc s)%nat then MkAccount (counted a) (fun k => reported a k + loaded k s) (lost a) else a
      | _ => a
      end
  end.

Fixpoint run (es : list event) (s : Statistics) (a : Account) : result (Statistics * Account) :=
  match es with
  | [] => Ok (s, a)
  | e :: es => s' ← happen e s; run es s' (account e s a)
  end.

(** ** Accounting *)

(** No counter exceeds what was counted; the thread holds the numbers it has
    loaded. *)
Definition books (s : Statistics) (a : Account) : Prop :=
  (pc s <= 9)%nat /\ length (buf s) = (if (pc s =? 0)%nat then length (buf s) else Nat.min (pc s - 1) 4) /\
  forall k, 0 <= value k s /\ 0 <= reported a k /\ 0 <= lost a k /\ 0 <= loaded k s /\
    (if in_window k s then reported a k + loaded k s + lost a k = counted a k
     else reported a k + loaded k s + value k s + lost a k = counted a k).

Lemma books_init : books Stat.init no_account.
Proof. split; [cbn; lia|]. split; [done|]. intros []; cbn; lia. Qed.

(** Counting, outside of the reporting thread. *)
Lemma counted_books k s a s' : books s a -> counted a k + 1 < 2^32 ->
  pc s' = pc s -> buf s' = buf s -> value k s' = u32 (value k s + 1) -> (forall k', k' <> k -> value k' s' = value k' s) ->
  books s' (MkAccount (add (counted a) k 1) (reported a) (if in_window k s then add (lost a) k 1 else lost a)).
Proof.
  intros (Hp & Hb & Hk) Hc Ep Eb Ev Eo. split; [by rewrite Ep|]. split; [by rewrite Ep, Eb|]. intros k'.
  assert (in_window k' s' = in_window k' s) as -> by (unfold in_window; by rewrite Ep).
  assert (loaded k' s' = loaded k' s) as -> by (unfold loaded; by rewrite Ep, Eb).
  specialize (Hk k'). cbn [counted reported lost]. unfold add. destruct (decide (k' = k)) as [->|Hn].
  - rewrite Ev. destruct (in_window k s); unfold add; rewrite ?decide_True by done; destruct Hk as (? & ? & ? & ? & Heq).
    + split_and!; try lia. apply Z.mod_pos_bound. lia.
    + rewrite u32_small by lia. split_and!; lia.
  - rewrite (Eo k' Hn), (decide_False (P := k = k')) by congruence.
    destruct (in_window k s); unfold add; rewrite ?(decide_False (P := k = k')) by congruence; done.
Qed.
Lemma same_books s s' a : books s a -> pc s' = pc s -> buf s' = buf s -> (forall k, value k s' = value k s) -> books s' a.
Proof.
  intros (Hp & Hb & Hk) Ep Eb Ev. split; [by rewrite Ep|]. split; [by rewrite Ep, Eb|]. intros k.
  specialize (Hk k). rewrite Ev. unfold in_window, loaded in *. by rewrite Ep, Eb.
Qed.

(** The four numbers of the thread, as far as they are loaded. *)
Ltac list_shape l := repeat (destruct l as [|? l]; cbn [length] in *; try lia; try done).

Lemma proc_books s a : books s a -> books (Stat.proc_step s) (account Proc s a).
Proof.
  intros (Hp & Hb & Hk). destruct s as [st d o r k l f p b]. cbn [pc buf] in Hp, Hb.
  pose proof (Hk Discover) as H1. pose proof (Hk Offer) as H2. pose proof (Hk Request) as H3. pose proof (Hk Ack) as H4. clear Hk.
  do 10 (destruct p as [|p]; [shelve|]). lia. Unshelve.
  all: unfold account, Stat.proc_step, counts; cbn in Hb; cbn [pc started_].
  1: destruct st; (split; [cbn; lia|]); (split; [done|]); intros []; cbn in *; lia.
  all: list_shape b; split; [cbn; lia|]; (split; [done|]); intros []; cbn in *; lia.
Qed.

Lemma getType_returns p : safe (P.getType p).
Proof.
  unfold P.getType. destruct (P.getOption _ _) as [o|]; [|done].
  assert (safe (Option_.getUint8 o)) as Ho.
  { unfold Option_.getUint8. destruct (Z.ltb_spec (zlen (data_ o)) 1); [done|].
    destruct (zget_ok (data_ o) 0) as (x & -> & _); [lia|]. done. }
  destruct (body_ o) as [|[]| | | | | | | |]; done.
Qed.

Lemma happen_books e s a : books s a -> (forall k, counted a k + 1 < 2^32) -> exists s', happen e s = Ok s' /\ books s' (account e s a).
Proof.
  intros Hs Hc. destruct e as [q|q r|]; cbn [happen]; [| |by eexists; split; [done|apply proc_books]].
  - pose proof (getType_returns q) as Ht. unfold Stat.count_recv, account, counts.
    destruct (P.getType q) as [t|x| |]; try done; [|by eexists; split; [reflexivity|]].
    rewrite bind_Ok. cbn [try_std].
    destruct (t =? DHCPDISCOVER); [|destruct (t =? DHCPREQUEST); [|by eexists; split; [reflexivity|]]]; (eexists; split; [reflexivity|]).
    + by apply counted_books; try done; intros [].
    + by apply counted_books; try done; intros [].
  - pose proof (getType_returns r) as Ht. unfold Stat.count_send, account, counts.
    destruct (P.getType r) as [t|x| |]; try done; [|by eexists; split; [reflexivity|]].
    rewrite bind_Ok. cbn [try_std].
    destruct (t =? DHCPOFFER); [|destruct (t =? DHCPACK); [|by eexists; split; [reflexivity|]]]; (eexists; split; [reflexivity|]).
    + by apply counted_books; try done; intros [].
    + by apply counted_books; try done; intros [].
Qed.

(** The books are kept through every interleaving with fewer than [2^32]
    packets. *)
Lemma account_counted e s a k : counted (account e s a) k <= counted a k + 1.
Proof. unfold account, add. destruct (counts e) as [k'|]; [|destruct e; try case_match]; cbn; try lia. case_decide; lia. Qed.

Lemma run_books es s a : books s a -> (forall k, counted a k + zlen es < 2^32) ->
  exists s' a', run es s a = Ok (s', a') /\ books s' a'.
Proof.
  revert s a. induction es as [|e es IH]; intros s a Hs Hc; [by do 2 eexists|]. cbn [run].
  destruct (happen_books e s a Hs) as (s1 & -> & H1); [intros k; specialize (Hc k); zlia|].
  apply IH; [done|]. intros k. pose proof (account_counted e s a k). specialize (Hc k). zlia.
Qed.

(** What is counted is the number of packets. *)
Lemma account_counts e s a k : counted (account e s a) k = counted a k + (if decide (counts e = Some k) then 1 else 0).
Proof.
  unfold account. destruct (counts e) as [k'|] eqn:E.
  - cbn. unfold add. destruct (decide (k' = k)) as [->|Hn]; [by rewrite decide_True|]. rewrite decide_False; [lia|congruence].
  - rewrite decide_False by done. destruct e; try case_match; cbn; lia.
Qed.

Lemma counted_run es s a s' a' k : run es s a = Ok (s', a') ->
  counted a' k = counted a k + zlen (filter (fun e => counts e = Some k) es).
Proof.
  revert s a. induction es as [|e es IH]; intros s a; cbn [run].
  - intros [= <- <-]. rewrite filter_nil. unfold zlen. cbn [length]. lia.
  - intros (s1 & _ & H)%bind_ok. rewrite (IH _ _ H), account_counts, filter_cons. destruct (decide (counts e = Some k)); zlia.
Qed.
