(* ===== verification/ConfigFacts.v ===== *)
(** Facts about the configuration: the subnets a configuration describes are
    the subnets the server serves. *)
From stdpp Require Import base list numbers option strings gmap.
From Stdlib Require Import ZArith Lia.
From S2P Require Import Prelude Buffer HwAddr Encode Text Json Address DnsName OptionDef Options.
From S2P Require Import Pkt Nic Subnet OptionText ClientClass Config.

(** ** Access *)

(** The value under a key, if there is one other than null. *)
Definition field (key : string) (m : list (list Z * Json)) : option Json :=
  match JsonValue.map_find (bytes_of key) m with Some JNull | None => None | Some j => Some j end.
Definition plain (key : string) : Prop := words Conf.DOT (bytes_of key) = [bytes_of key].

Lemma get_plain key m : plain key -> Conf.try_recursive_get key (JObject m) = Ok (field key m).
Proof.
  intros Hk. unfold Conf.try_recursive_get. rewrite tokens_words, bind_Ok, Hk. cbn [Conf.descend JsonValue.at_key].
  unfold field. by destruct (JsonValue.map_find (bytes_of key) m) as [[]|].
Qed.

Lemma hasKey_plain key m : plain key -> Conf.hasKey key (JObject m) = Ok (bool_decide (is_Some (field key m))).
Proof. intros Hk. unfold Conf.hasKey. by rewrite get_plain, bind_Ok. Qed.

Lemma recursive_plain key m j : plain key -> field key m = Some j -> Conf.recursive_get key (JObject m) = Ok j.
Proof. intros Hk E. unfold Conf.recursive_get. by rewrite get_plain, bind_Ok, E. Qed.

Lemma if_has_plain {A} key m (get : string -> Json -> result A) r : plain key ->
  Conf.if_has key (JObject m) get r = if bool_decide (is_Some (field key m)) then get key (JObject m) else Ok r.
Proof. intros Hk. unfold Conf.if_has. by rewrite hasKey_plain, bind_Ok. Qed.

(** An optional number: both [JsonInt] and a [JsonDouble] that fits. *)
Definition number_field (f : option Json) (o : option Z) : Prop :=
  match f, o with
  | None, None => True
  | Some (JNumber n), Some v => JsonValue.number_int n = Ok v
  | _, _ => False
  end.
Lemma int_field key m o d : plain key -> number_field (field key m) o ->
  Conf.if_has key (JObject m) Conf.getInt d = Ok (default d (s32 <$> o)).
Proof.
  intros Hk E. rewrite if_has_plain by done. destruct (field key m) as [[]|] eqn:F, o as [v|]; try done.
  rewrite bool_decide_true by (by eexists).
  unfold Conf.getInt. rewrite (recursive_plain _ _ (JNumber n)) by done. cbn. by rewrite E.
Qed.

Lemma id_field m v : number_field (field "id" m) (Some v) ->
  Conf.hasKey "id" (JObject m) = Ok true /\ Conf.getUint "id" (JObject m) = Ok (u32 v).
Proof.
  intros E. destruct (field "id" m) as [[]|] eqn:F; try done. rewrite (hasKey_plain "id" m eq_refl), F.
  rewrite bool_decide_true by (by eexists). split; [done|]. unfold Conf.getUint.
  rewrite (recursive_plain "id" _ _ eq_refl F), !bind_Ok. cbn in E. by rewrite E.
Qed.

Lemma strings_field key m o : plain key -> field key m = (fun l => JArray (JString <$> l)) <$> o ->
  Conf.if_has key (JObject m) Conf.getStrings [] = Ok (default [] o).
Proof.
  intros Hk E. rewrite if_has_plain, E by done. destruct o as [l|]; [|done]. rewrite bool_decide_true by (by eexists).
  unfold Conf.getStrings, Conf.getArray. rewrite (recursive_plain _ _ (JArray (JString <$> l))) by done. rewrite bind_Ok.
  rewrite mapM_Ok. f_equal. rewrite <- list_fmap_compose. clear. induction l as [|s l IH]; [done|]. cbn. by f_equal.
Qed.

(** ** Numbers *)
Lemma atoi_text z : 0 <= z < 2^31 -> atoi (int_text z) = Ok z.
Proof.
  intros Hz. unfold int_text. rewrite (proj2 (Z.ltb_ge _ _)) by lia.
  pose proof (unsigned_text_decimal z ltac:(lia)) as [Hn Hd]%andb_prop. pose proof (unsigned_text_value z ltac:(lia)) as Hv.
  rewrite atoi_digits; rewrite digits_prefix_all, ?Hv by done; try done; [|lia]. intros E. by rewrite E in Hn.
Qed.

(** ** Subnets *)
Record SubnetConf := MkSubnetConf {
  sc_prefix : Z; sc_len : Z; sc_id : Z;
  sc_default : option Z; sc_max : option Z; sc_min : option Z;
  sc_white : option (list (list Z)); sc_black : option (list (list Z)); sc_options : coll }.

Definition conf_ok (c : SubnetConf) : Prop :=
  addr_ok (sc_prefix c) /\ 1 <= sc_len c <= 32 /\ 0 <= sc_id c < 2^32.

Definition class_set (cs : list (list Z)) : gset string := foldl (fun s c => {[string_of c]} ∪ s) ∅ cs.

(** The lifetimes as [uint32_t]. *)
Definition conf_lifetimes (c : SubnetConf) : Triplet :=
  let d := u32 (default 4800 (s32 <$> sc_default c)) in
  MkTriplet (Z.min (u32 (default 0 (s32 <$> sc_min c))) d) d (Z.max (u32 (default 0 (s32 <$> sc_max c))) d) false.

(** The subnet of a configuration. *)
Definition subnet_of (c : SubnetConf) : Subnet :=
  let b := 2^(32 - sc_len c) in
  MkSubnet (sc_id c) [] (V4 (sc_prefix c)) (sc_len c) (Trip.of_value 4000) (Trip.of_value 4000) (conf_lifetimes c)
    (V4 (sc_prefix c / b * b + (b - 1))) "" IOAddr.IPV4_ZERO_ADDRESS
    (class_set (default [] (sc_black c))) (class_set (default [] (sc_white c))) HR_ALL IOAddr.IPV4_ZERO_ADDRESS true (sc_options c).

Section Describes.
Context `{Inet6Laws} `{TransformWidth} `{LexicalCast}.
Variable lib : LibDHCP.

(** The object [j] describes the subnet [c]; its keys are in any order, and it
    may have others. *)
Definition describes (j : Json) (c : SubnetConf) : Prop :=
  exists m, j = JObject m /\
  field "subnet" m = Some (JString (address_text (V4 (sc_prefix c)) ++ 47 :: int_text (sc_len c))) /\
  number_field (field "id" m) (Some (sc_id c)) /\
  number_field (field "default-valid-lifetime" m) (sc_default c) /\
  number_field (field "max-valid-lifetime" m) (sc_max c) /\
  number_field (field "min-valid-lifetime" m) (sc_min c) /\
  field "white-client-class" m = (fun l => JArray (JString <$> l)) <$> sc_white c /\
  field "black-client-class" m = (fun l => JArray (JString <$> l)) <$> sc_black c /\
  match field "option-data" m with
  | None => sc_options c = []
  | Some (JArray l) => Init.option_data_loop lib l [] = Ok (sc_options c)
  | Some _ => False
  end.

Lemma int_text_digits z : 0 <= z -> int_text z <> [] /\ forallb isdigit (int_text z) = true.
Proof.
  intros Hz. pose proof (unsigned_text_decimal z Hz) as Hd. unfold int_text. rewrite (proj2 (Z.ltb_ge _ _)) by lia.
  unfold decimal in Hd. apply andb_prop in Hd as [Hn Hd]. split; [|done]. intros E. by rewrite E in Hn.
Qed.

(** "address/length" *)
Lemma prefix_tokens p len : addr_ok p -> 0 <= len ->
  Str.tokens (address_text (V4 p) ++ 47 :: int_text len) Init.SLASH = Ok [address_text (V4 p); int_text len].
Proof.
  intros Hp Hl. rewrite tokens_words. f_equal. destruct (int_text_digits len Hl) as [Hne Hd].
  rewrite words_word.
  - f_equal. change (47 :: int_text len) with ([47] ++ int_text len). rewrite words_delims by done.
    rewrite <- (app_nil_r (int_text len)) at 1. rewrite words_word; [done|done| |by left].
    apply forallb_forall. rewrite forallb_forall in Hd. intros x Hx%Hd. unfold Str.in_set, Init.SLASH.
    rewrite bool_decide_false; [done|]. intros ->%list_elem_of_singleton. done.
  - unfold address_text, inet_ntop4, octet_text. intros E. apply app_eq_nil in E as [E _]. repeat case_match; done.
  - apply forallb_forall. intros x Hx%list_elem_of_In. unfold Str.in_set, Init.SLASH. rewrite bool_decide_false; [done|].
    intros ->%list_elem_of_singleton. destruct (address_text_chars p 47 Hp Hx); done.
  - right. by exists 47, (int_text len).
Qed.

Lemma lifetimes_described m c :
  number_field (field "default-valid-lifetime" m) (sc_default c) ->
  number_field (field "max-valid-lifetime" m) (sc_max c) ->
  number_field (field "min-valid-lifetime" m) (sc_min c) ->
  Init.lifetimes (JObject m) = Ok (conf_lifetimes c).
Proof.
  intros E1 E2 E3. unfold Init.lifetimes.
  rewrite (int_field "default-valid-lifetime" _ _ 4800 eq_refl E1), bind_Ok.
  rewrite (int_field "max-valid-lifetime" _ _ 0 eq_refl E2), bind_Ok.
  rewrite (int_field "min-valid-lifetime" _ _ 0 eq_refl E3), bind_Ok. unfold conf_lifetimes, Trip.make. cbv zeta.
  set (d := u32 (default 4800 (s32 <$> sc_default c))).
  set (x := u32 (default 0 (s32 <$> sc_max c))). set (n := u32 (default 0 (s32 <$> sc_min c))).
  assert (forall lo hi, lo <= d <= hi ->
    (throw_if ((d <? lo) || (hi <? d)) BadValue;; Ok (MkTriplet lo d hi false)) = Ok (MkTriplet lo d hi false)) as Hok.
  { intros lo hi Hd. by rewrite (proj2 (Z.ltb_ge d lo)), (proj2 (Z.ltb_ge hi d)) by lia. }
  rewrite Hok by (destruct (Z.ltb_spec x d), (Z.ltb_spec d n); lia). f_equal.
  destruct (Z.ltb_spec x d), (Z.ltb_spec d n); f_equal; lia.
Qed.

Lemma allow_all cs s : foldl (fun s c => Sub.allowClientClass (string_of c) s) s cs
  = s <| white_list_ := foldl (fun s c => {[string_of c]} ∪ s) (white_list_ s) cs |>.
Proof.
  revert s. induction cs as [|c cs IH]; intros s; [by destruct s|]. cbn [foldl]. rewrite IH. by destruct s.
Qed.
Lemma deny_all cs s : foldl (fun s c => Sub.denyClientClass (string_of c) s) s cs
  = s <| black_list_ := foldl (fun s c => {[string_of c]} ∪ s) (black_list_ s) cs |>.
Proof.
  revert s. induction cs as [|c cs IH]; intros s; [by destruct s|]. cbn [foldl]. rewrite IH. by destruct s.
Qed.

Lemma make_conf c : conf_ok c ->
  Sub.make (V4 (sc_prefix c)) (u8 (sc_len c)) (Trip.of_value 4000) (Trip.of_value 4000) (conf_lifetimes c) (u32 (sc_id c))
  = Ok ((subnet_of c) <| white_list_ := ∅ |> <| black_list_ := ∅ |> <| opt_data_ := [] |>).
Proof.
  intros (Hp & Hl & Hi). unfold Sub.make. rewrite (u8_small (sc_len c)) by (unfold byte_ok; lia). rewrite u32_small by done.
  rewrite lastAddr_spec, bind_Ok by done. unfold assert_, throw_if. cbn [IOAddr.isV4 negb andb].
  by rewrite (proj2 (Z.leb_le _ _)) by lia.
Qed.

Lemma classes_conf c :
  foldl (fun s c => Sub.denyClientClass (string_of c) s)
    (foldl (fun s c => Sub.allowClientClass (string_of c) s)
       ((subnet_of c) <| white_list_ := ∅ |> <| black_list_ := ∅ |> <| opt_data_ := [] |>) (default [] (sc_white c)))
    (default [] (sc_black c))
  = (subnet_of c) <| opt_data_ := [] |>.
Proof. by rewrite allow_all, deny_all. Qed.

Lemma subnet_described j c : describes j c -> conf_ok c -> Init.createSubnet lib j = Ok (Some (subnet_of c)).
Proof.
  intros (m & -> & Es & Ei & E1 & E2 & E3 & Ew & Eb & Eo) Hc. pose proof Hc as (Hp & Hl & Hi).
  unfold Init.createSubnet. rewrite (hasKey_plain "subnet" m eq_refl), Es, bind_Ok. rewrite bool_decide_true by (by eexists). cbn [negb].
  unfold Conf.getString at 1. rewrite (recursive_plain "subnet" _ _ eq_refl Es), !bind_Ok, prefix_tokens, bind_Ok by (done || lia).
  destruct (address_text_v4 (sc_prefix c) Hp) as [-> _]. rewrite atoi_text, bind_Ok by lia.
  destruct (id_field m (sc_id c) Ei) as [-> ->]. cbn [negb throw_if]. rewrite !bind_Ok. cbn [negb throw_if]. rewrite !bind_Ok.
  rewrite (lifetimes_described m c E1 E2 E3), bind_Ok, make_conf, bind_Ok by done.
  unfold Init.with_classes. rewrite (strings_field "white-client-class" _ _ eq_refl Ew), !bind_Ok.
  rewrite (strings_field "black-client-class" _ _ eq_refl Eb), !bind_Ok, classes_conf.
  rewrite (hasKey_plain "option-data" m eq_refl), bind_Ok. destruct (field "option-data" m) as [o|] eqn:E.
  - rewrite bool_decide_true by (by eexists). destruct o as [| | | |l|]; try done. unfold Init.initOptionData, Conf.getObjects, Conf.getArray.
    rewrite (recursive_plain "option-data" _ _ eq_refl E), !bind_Ok. rewrite mapM_Ok, bind_Ok, list_fmap_id.
    change (opt_data_ ((subnet_of c) <| opt_data_ := [] |>)) with (@nil (Z * opt)). rewrite Eo, bind_Ok. done.
  - rewrite bool_decide_false by (by intros []). unfold subnet_of. by rewrite Eo.
Qed.

Lemma conf_net_ok c : conf_ok c -> net_ok (subnet_of c).
Proof. intros (Hp & Hl & _). by exists (sc_prefix c). Qed.

Lemma conf_lifetimes_ordered c :
  0 <= min_ (conf_lifetimes c) /\ min_ (conf_lifetimes c) <= default_ (conf_lifetimes c) <= max_ (conf_lifetimes c) /\
  max_ (conf_lifetimes c) < 2^32.
Proof.
  unfold conf_lifetimes. cbn. assert (forall z, 0 <= u32 z < 2^32) as Hu by (intros z; apply Z.mod_pos_bound; lia).
  pose proof (Hu (default 4800 (s32 <$> sc_default c))). pose proof (Hu (default 0 (s32 <$> sc_min c))).
  pose proof (Hu (default 0 (s32 <$> sc_max c))). lia.
Qed.

Lemma subnets_added js cs m : Forall2 describes js cs -> Forall conf_ok cs -> NoDup (sid_ <$> subnets_ m) ->
  foldM (Init.add_subnet lib) m js =
    if decide (NoDup ((sid_ <$> subnets_ m) ++ (sc_id <$> cs))) then Ok (MkSubnetMgr (subnets_ m ++ (subnet_of <$> cs))) else Crash.
Proof.
  intros Hd. revert m. induction Hd as [|j c js cs Hj Hd IH]; intros m Hc Hm.
  - cbn. rewrite !app_nil_r, decide_True by done. by destruct m.
  - apply Forall_cons in Hc as [Hc Hcs]. cbn [foldM].
    assert (Init.add_subnet lib m j = let '(m, added) := SMgr.add (subnet_of c) m in if (added : bool) then Ok m else Crash) as ->
      by (unfold Init.add_subnet; by rewrite (subnet_described j c)).
    unfold SMgr.add. destruct (SMgr.isDuplicate (subnet_of c) m) eqn:E.
    + rewrite decide_False; [done|]. apply isDuplicate_spec in E. cbn [fmap list_fmap]. intros (_ & Hx & _)%NoDup_app.
      apply (Hx _ E). by left.
    + assert (sc_id c ∉ sid_ <$> subnets_ m) as Hn by (intros Hin; apply (isDuplicate_spec (subnet_of c)) in Hin; congruence).
      rewrite bind_Ok, IH; [|done|]; cbn [subnets_].
      * rewrite fmap_app. cbn [fmap list_fmap]. rewrite <- !app_assoc. cbn [app]. done.
      * rewrite fmap_app. apply NoDup_app. split_and!; [done| |apply NoDup_singleton].
        intros x Hx ->%list_elem_of_singleton. done.
Qed.

Lemma mgr_configured root js cs :
  Conf.descend [bytes_of "dhcp4"; bytes_of "subnet4"] root = Some (JArray js) ->
  Forall2 describes js cs -> Forall conf_ok cs ->
  Init.createSubnetMgr lib root =
    if decide (NoDup (sc_id <$> cs)) then Ok (MkSubnetMgr (subnet_of <$> cs)) else Crash.
Proof.
  intros Hr Hd Hc. unfold Init.createSubnetMgr, Conf.getObjects, Conf.getArray, Conf.recursive_get, Conf.try_recursive_get.
  rewrite tokens_words, bind_Ok. assert (words Conf.DOT (bytes_of "dhcp4.subnet4") = [bytes_of "dhcp4"; bytes_of "subnet4"]) as -> by reflexivity.
  rewrite Hr, !bind_Ok, mapM_Ok, bind_Ok, list_fmap_id. rewrite (subnets_added js cs) by (done || constructor). done.
Qed.

Lemma configured_inv cs : Forall conf_ok cs -> NoDup (sc_id <$> cs) -> mgr_inv (MkSubnetMgr (subnet_of <$> cs)).
Proof.
  intros Hc Hn. split; cbn [subnets_].
  - rewrite <- list_fmap_compose. exact Hn.
  - apply Forall_fmap. eapply Forall_impl; [exact Hc|]. apply conf_net_ok.
Qed.
End Describes.
