(* ===== verification/Hosts.v ===== *)
(** Host reservations: server/host.cpp and server/hosts_in_mem.cpp, with the
    class names of dhcp++/classify.cpp. *)
From stdpp Require Import base list numbers option strings gmap.
From Stdlib Require Import ZArith Lia.
From S2P Require Import Prelude Buffer HwAddr Encode Text Address DnsName OptionDef Options OptionText.

(** ** Class names

    [std::set<std::string>]: names in order, without repetition. *)
Module ClassNames.

Fixpoint before (a b : list Z) : bool :=
  match a, b with
  | _, [] => false
  | [], _ :: _ => true
  | x :: a, y :: b => (x <? y) || ((x =? y) && before a b)
  end.

Fixpoint insert (c : list Z) (cs : list (list Z)) : list (list Z) :=
  match cs with
  | [] => [c]
  | d :: cs => if before c d then c :: d :: cs else if bool_decide (c = d) then d :: cs else d :: insert c cs
  end.

(** [boost::split] at every comma. *)
Fixpoint split (cur s : list Z) : list (list Z) :=
  match s with
  | [] => [cur]
  | c :: s => if c =? 44 then cur :: split [] s else split (cur ++ [c]) s
  end.

Definition add (cs : list (list Z)) (class_name : list Z) : list (list Z) :=
  let trimmed := Str.trim class_name in
  if bool_decide (trimmed = []) then cs else insert trimmed cs.

Definition make (class_names : list Z) : list (list Z) := foldl add [] (split [] class_names).

Definition contains (x : list Z) (cs : list (list Z)) : bool := bool_decide (x ∈ cs).

Fixpoint toText (separator : list Z) (cs : list (list Z)) : list Z :=
  match cs with [] => [] | [c] => c | c :: cs => c ++ separator ++ toText separator cs end.
End ClassNames.

(** ** Hosts *)
Inductive IdentifierType : Set := IDENT_HWADDR | IDENT_DUID | IDENT_CIRCUIT_ID | IDENT_CLIENT_ID.

#[global] Instance IdentifierType_eq_dec : EqDecision IdentifierType.
Proof. solve_decision. Defined.

Record Host := MkHost {
  ipv4_subnet_id_ : Z; ipv4_reservation_ : IOAddress; hostname_ : list Z;
  dhcp4_client_classes_ : list (list Z); host_id_ : Z;
  host_hwaddr_ : option HWAddr; host_duid_ : option (list Z) }.

#[global] Instance Host_eta : Eta Host := fun h =>
  MkHost (ipv4_subnet_id_ h) (ipv4_reservation_ h) (hostname_ h) (dhcp4_client_classes_ h) (host_id_ h)
    (host_hwaddr_ h) (host_duid_ h).

Module Hst.
Section Hst.
Context `{TransformWidth}.
Implicit Types (h : Host).

(** [setIdentifier(identifier, len, type)] *)
Definition setIdentifier (identifier : list Z) (type : IdentifierType) h : result Host :=
  match type with
  | IDENT_HWADDR => a ← HW.make identifier HTYPE_ETHER; Ok (h <| host_hwaddr_ := Some a |> <| host_duid_ := None |>)
  | IDENT_DUID => d ← DUID.make identifier; Ok (h <| host_duid_ := Some d |> <| host_hwaddr_ := None |>)
  | _ => Throw BadValue
  end.
Definition DUID_fromText (text : list Z) : result (list Z) := binary ← Str.decodeFormattedHexString text; DUID.make binary.
(** [setIdentifier(identifier, name)] *)
Definition setIdentifier_text (identifier : list Z) (name : string) h : result Host :=
  if String.eqb name "hw-address" then
    a ← HW.fromText identifier HTYPE_ETHER; Ok (h <| host_hwaddr_ := Some a |> <| host_duid_ := None |>)
  else if String.eqb name "duid" then
    d ← DUID_fromText identifier; Ok (h <| host_duid_ := Some d |> <| host_hwaddr_ := None |>)
  else Throw BadValue.

Definition setIPv4Reservation (address : IOAddress) h : result Host :=
  throw_if (negb (IOAddr.isV4 address)) BadValue;;
  throw_if (IOAddr.isV4Zero address || IOAddr.isV4Bcast address) BadValue;;
  Ok (h <| ipv4_reservation_ := address |>).
Definition removeIPv4Reservation h : Host := h <| ipv4_reservation_ := IOAddr.IPV4_ZERO_ADDRESS |>.

Definition start (ipv4_subnet_id : Z) (hostname dhcp4_client_classes : list Z) : Host :=
  MkHost ipv4_subnet_id IOAddr.IPV4_ZERO_ADDRESS hostname (ClassNames.make dhcp4_client_classes) 0 None None.
Definition reserve (ipv4_reservation : IOAddress) h : result Host :=
  if IOAddr.isV4Zero ipv4_reservation then Ok h else setIPv4Reservation ipv4_reservation h.
Definition make (identifier : list Z) (identifier_type : IdentifierType) (ipv4_subnet_id : Z)
    (ipv4_reservation : IOAddress) (hostname dhcp4_client_classes : list Z) : result Host :=
  h ← setIdentifier identifier identifier_type (start ipv4_subnet_id hostname dhcp4_client_classes);
  reserve ipv4_reservation h.
Definition make_text (identifier : list Z) (identifier_name : string) (ipv4_subnet_id : Z)
    (ipv4_reservation : IOAddress) (hostname dhcp4_client_classes : list Z) : result Host :=
  h ← setIdentifier_text identifier identifier_name (start ipv4_subnet_id hostname dhcp4_client_classes);
  reserve ipv4_reservation h.

Definition getIdentifier h : list Z :=
  match host_hwaddr_ h, host_duid_ h with Some a, _ => hwaddr_ a | None, Some d => d | None, None => [] end.
Definition getIdentifierType h : IdentifierType := match host_hwaddr_ h with Some _ => IDENT_HWADDR | None => IDENT_DUID end.
Definition getIdentifierType_name (identifier_name : string) : result IdentifierType :=
  if String.eqb identifier_name "hw-address" then Ok IDENT_HWADDR
  else if String.eqb identifier_name "duid" then Ok IDENT_DUID
  else if String.eqb identifier_name "circuit-id" then Ok IDENT_CIRCUIT_ID
  else if String.eqb identifier_name "client-id" then Ok IDENT_CLIENT_ID
  else Throw BadValue.
Definition getIdentifierAsText h : list Z :=
  match host_hwaddr_ h, host_duid_ h with
  | Some a, _ => bytes_of "hwaddr=" ++ HW.toText a
  | None, Some d => bytes_of "duid=" ++ DUID.toText d
  | None, None => bytes_of "duid=(none)"
  end.

Definition setIPv4SubnetID (id : Z) h : Host := h <| ipv4_subnet_id_ := id |>.
Definition setHostname (name : list Z) h : Host := h <| hostname_ := name |>.
Definition setHostId (id : Z) h : Host := h <| host_id_ := id |>.
Definition addClientClass4 (class_name : list Z) h : Host :=
  h <| dhcp4_client_classes_ := ClassNames.add (dhcp4_client_classes_ h) class_name |>.

Fixpoint classes_text (i : Z) (cs : list (list Z)) : list Z :=
  match cs with
  | [] => []
  | c :: cs => bytes_of " dhcp4_class" ++ int_text i ++ bytes_of "=" ++ c ++ classes_text (i + 1) cs
  end.
Definition toText `{Inet6} h : list Z :=
  getIdentifierAsText h ++
  (if ipv4_subnet_id_ h =? 0 then [] else bytes_of " ipv4_subnet_id=" ++ int_text (ipv4_subnet_id_ h)) ++
  bytes_of " hostname=" ++ (if bool_decide (hostname_ h = []) then bytes_of "(empty)" else hostname_ h) ++
  bytes_of " ipv4_reservation=" ++
  (if IOAddr.isV4Zero (ipv4_reservation_ h) then bytes_of "(no)" else address_text (ipv4_reservation_ h)) ++
  classes_text 0 (dhcp4_client_classes_ h).
End Hst.
End Hst.

(** ** The reservations in memory *)
Module HostsInMem.
Implicit Types (h : Host) (hosts : list Host).

(** [a != nullptr && b != nullptr && *b == *a] *)
Definition same_hwaddr (hwaddr : option HWAddr) h : bool :=
  match hwaddr, host_hwaddr_ h with Some a, Some b => HW.equals b a | _, _ => false end.
Definition same_duid (duid : option (list Z)) h : bool :=
  match duid, host_duid_ h with Some a, Some b => bool_decide (b = a) | _, _ => false end.

Definition getAll (hwaddr : option HWAddr) (duid : option (list Z)) hosts : list Host :=
  List.filter (fun h => same_hwaddr hwaddr h || same_duid duid h) hosts.
Definition getAll4 (address : IOAddress) hosts : result (list Host) :=
  throw_if (negb (IOAddr.isV4 address)) BadHostAddress;;
  Ok (List.filter (fun h => IOAddr.equals (ipv4_reservation_ h) address) hosts).

(** [get4(subnet_id, address)] *)
Definition get4_address (subnet_id : Z) (address : IOAddress) hosts : option Host :=
  List.find (fun h => (ipv4_subnet_id_ h =? subnet_id) && IOAddr.equals (ipv4_reservation_ h) address) hosts.
(** [get4(subnet_id, type, identifier, len)] *)
Definition get4_identifier (subnet_id : Z) (type : IdentifierType) (identifier : list Z) hosts : option Host :=
  List.find (fun h => (ipv4_subnet_id_ h =? subnet_id) && bool_decide (Hst.getIdentifierType h = type) &&
    (zlen identifier =? zlen (Hst.getIdentifier h)) && bool_decide (identifier = Hst.getIdentifier h)) hosts.
(** [get4(subnet_id, hwaddr, duid)] *)
Definition get4 (subnet_id : Z) (hwaddr : option HWAddr) (duid : option (list Z)) hosts : option Host :=
  List.find (fun h => (subnet_id =? ipv4_subnet_id_ h) && (same_hwaddr hwaddr h || same_duid duid h)) hosts.

Definition add (host : Host) hosts : result (list Host) :=
  let hwaddr := host_hwaddr_ host in
  let duid := host_duid_ host in
  throw_if (ipv4_subnet_id_ host =? 0) BadValue;;
  throw_if (bool_decide (hostname_ host = []) && IOAddr.isV4Zero (ipv4_reservation_ host)) BadValue;;
  throw_if ((0 <? ipv4_subnet_id_ host) && bool_decide (is_Some (get4 (ipv4_subnet_id_ host) hwaddr duid hosts))) DuplicateHost;;
  throw_if (negb (IOAddr.isV4Zero (ipv4_reservation_ host)) && (0 <? ipv4_subnet_id_ host) &&
    bool_decide (is_Some (get4_address (ipv4_subnet_id_ host) (ipv4_reservation_ host) hosts))) ReservedAddress;;
  Ok (hosts ++ [host]).
End HostsInMem.

(** ** Facts *)
Implicit Types (h : Host) (hosts : list Host).

(** Two hosts that cannot both be reserved. *)
Definition same_identity h h' : Prop :=
  HostsInMem.same_hwaddr (host_hwaddr_ h) h' = true \/ HostsInMem.same_duid (host_duid_ h) h' = true.
Definition same_address h h' : Prop :=
  IOAddr.isV4Zero (ipv4_reservation_ h) = false /\ ipv4_reservation_ h' = ipv4_reservation_ h.
Definition clash h h' : Prop := ipv4_subnet_id_ h = ipv4_subnet_id_ h' /\ (same_identity h h' \/ same_address h h').

(** What the constructors give: one identifier, Ethernet addresses. *)
Definition identified h : Prop :=
  match host_hwaddr_ h, host_duid_ h with
  | Some a, None => htype_ a = HTYPE_ETHER
  | None, Some _ => True
  | _, _ => False
  end.
Definition has_resource h : Prop := hostname_ h <> [] \/ IOAddr.isV4Zero (ipv4_reservation_ h) = false.

Record hosts_inv hosts : Prop := MkHostsInv {
  ho_each : Forall (fun h => identified h /\ has_resource h /\ 0 < ipv4_subnet_id_ h) hosts;
  ho_unique : forall i j h h', hosts !! i = Some h -> hosts !! j = Some h' -> clash h h' -> i = j }.

Lemma clash_sym h h' : clash h h' -> clash h' h.
Proof.
  unfold clash, same_identity, same_address, HostsInMem.same_hwaddr, HostsInMem.same_duid, HW.equals.
  intros [Es [[Hh|Hd]|[Hz Ha]]]; (split; [done|]).
  - left. left. destruct (host_hwaddr_ h), (host_hwaddr_ h'); try done.
    apply andb_prop in Hh as [H1%Z.eqb_eq H2%bool_decide_eq_true]. apply andb_true_intro. by rewrite Z.eqb_eq, bool_decide_eq_true.
  - left. right. destruct (host_duid_ h), (host_duid_ h'); try done. apply bool_decide_eq_true in Hd. by apply bool_decide_eq_true.
  - right. by rewrite Ha.
Qed.

Lemma find_member {A} (p : A -> bool) l x : List.find p l = Some x -> x ∈ l /\ p x = true.
Proof. intros [Hin Hp]%List.find_some. by rewrite list_elem_of_In. Qed.

Lemma find_is_Some {A} (p : A -> bool) l : bool_decide (is_Some (List.find p l)) = true <-> exists x, x ∈ l /\ p x = true.
Proof.
  rewrite bool_decide_eq_true. split; [intros [x Hx%find_member]; by exists x|]. intros (x & Hin & Hp).
  destruct (List.find p l) eqn:E; [by eexists|]. apply list_elem_of_In in Hin.
  pose proof (List.find_none _ _ E x Hin). congruence.
Qed.

Lemma find_unique {A} (p : A -> bool) l i x : l !! i = Some x -> p x = true ->
  (forall j y, l !! j = Some y -> p y = true -> j = i) -> List.find p l = Some x.
Proof.
  revert i. induction l as [|a l IH]; intros i Hi Hp Hu; [done|]. cbn. destruct (p a) eqn:Ea.
  - assert (0%nat = i) as <- by (by eapply (Hu 0%nat)). by injection Hi as ->.
  - destruct i as [|i]; [injection Hi as ->; congruence|]. apply (IH i); [done|done|].
    intros j y Hj Hy. by injection (Hu (S j) y Hj Hy).
Qed.

Lemma same_hwaddr_refl h : is_Some (host_hwaddr_ h) -> HostsInMem.same_hwaddr (host_hwaddr_ h) h = true.
Proof.
  intros [a E]. unfold HostsInMem.same_hwaddr, HW.equals. rewrite E, Z.eqb_refl. by rewrite bool_decide_true.
Qed.
Lemma same_duid_refl h : is_Some (host_duid_ h) -> HostsInMem.same_duid (host_duid_ h) h = true.
Proof. intros [d E]. unfold HostsInMem.same_duid. rewrite E. by rewrite bool_decide_true. Qed.

Lemma identity_refl h : identified h ->
  HostsInMem.same_hwaddr (host_hwaddr_ h) h || HostsInMem.same_duid (host_duid_ h) h = true.
Proof.
  unfold identified. destruct (host_hwaddr_ h) eqn:E, (host_duid_ h) eqn:E'; try done; intros _.
  - rewrite <- E, same_hwaddr_refl; [done|by rewrite E].
  - rewrite <- E', same_duid_refl; [by rewrite orb_true_r|by rewrite E'].
Qed.

(** The bytes of an identifier of a type determine the host. *)
Lemma identifier_identity h h' : identified h -> identified h' ->
  Hst.getIdentifierType h' = Hst.getIdentifierType h -> Hst.getIdentifier h = Hst.getIdentifier h' -> same_identity h h'.
Proof.
  unfold identified, Hst.getIdentifierType, Hst.getIdentifier, same_identity, HostsInMem.same_hwaddr, HostsInMem.same_duid.
  destruct (host_hwaddr_ h) as [a|], (host_duid_ h) as [d|], (host_hwaddr_ h') as [a'|], (host_duid_ h') as [d'|]; try done.
  - intros Ha Ha' _ E. left. unfold HW.equals. rewrite Ha, Ha', E. by rewrite bool_decide_true.
  - intros _ _ _ ->. right. by rewrite bool_decide_true.
Qed.

(** Every reservation is found. *)
Lemma reservations_found hosts h : hosts_inv hosts -> h ∈ hosts ->
  HostsInMem.get4 (ipv4_subnet_id_ h) (host_hwaddr_ h) (host_duid_ h) hosts = Some h /\
  HostsInMem.get4_identifier (ipv4_subnet_id_ h) (Hst.getIdentifierType h) (Hst.getIdentifier h) hosts = Some h /\
  (IOAddr.isV4Zero (ipv4_reservation_ h) = false ->
   HostsInMem.get4_address (ipv4_subnet_id_ h) (ipv4_reservation_ h) hosts = Some h).
Proof.
  intros [He Hu] (i & Hi)%list_elem_of_lookup_1. pose proof (Forall_lookup_1 _ _ _ _ He Hi) as (Hid & _ & _).
  split_and!.
  - apply (find_unique _ _ i); [done|rewrite Z.eqb_refl; by apply identity_refl|]. intros j h' Hj Hp.
    symmetry. eapply Hu; [done|done|]. apply andb_prop in Hp as [Hs%Z.eqb_eq Hc%orb_prop]. split; [done|]. by left.
  - apply (find_unique _ _ i); [done|rewrite !Z.eqb_refl; by rewrite !bool_decide_true|]. intros j h' Hj Hp.
    symmetry. eapply Hu; [done|done|]. apply andb_prop in Hp as [[[Hs%Z.eqb_eq Ht%bool_decide_eq_true]%andb_prop _]%andb_prop Hb%bool_decide_eq_true].
    split; [done|]. left. apply identifier_identity; try done. by apply (Forall_lookup_1 _ _ _ _ He Hj).
  - intros Hz. apply (find_unique _ _ i); [done|unfold IOAddr.equals; by rewrite Z.eqb_refl, bool_decide_true|]. intros j h' Hj Hp.
    symmetry. eapply Hu; [done|done|]. apply andb_prop in Hp as [Hs%Z.eqb_eq Ha%bool_decide_eq_true]. split; [done|]. by right.
Qed.

Lemma snoc_inv hosts h : hosts_inv hosts -> identified h -> has_resource h -> 0 < ipv4_subnet_id_ h ->
  (forall h', h' ∈ hosts -> ~ clash h h') -> hosts_inv (hosts ++ [h]).
Proof.
  intros [He Hu] Hi Hr Hs Hc. split; [apply Forall_app; split; [done|]; by apply Forall_singleton|].
  assert (forall i x, (hosts ++ [h]) !! i = Some x -> hosts !! i = Some x \/ i = length hosts /\ x = h) as Hcase.
  { intros i x [?|[Hl Hx]]%lookup_app_Some; [by left|right]. apply list_lookup_singleton_Some in Hx as [? <-]. split; [lia|done]. }
  intros i j x y [Hx|[-> ->]]%Hcase [Hy|[-> ->]]%Hcase Hxy.
  - by eapply Hu.
  - exfalso. eapply Hc; [by eapply list_elem_of_lookup_2|]. by apply clash_sym.
  - exfalso. eapply Hc; [by eapply list_elem_of_lookup_2|done].
  - done.
Qed.

Lemma add_outcome hosts h : hosts_inv hosts -> identified h -> 0 <= ipv4_subnet_id_ h ->
  match HostsInMem.add h hosts with
  | Ok hosts' => hosts' = hosts ++ [h] /\ hosts_inv hosts'
  | Throw BadValue => ipv4_subnet_id_ h = 0 \/ ~ has_resource h
  | Throw DuplicateHost => exists h', h' ∈ hosts /\ ipv4_subnet_id_ h = ipv4_subnet_id_ h' /\ same_identity h h'
  | Throw ReservedAddress => exists h', h' ∈ hosts /\ ipv4_subnet_id_ h = ipv4_subnet_id_ h' /\ same_address h h'
  | _ => False
  end.
Proof.
  intros Hinv Hid H0. unfold HostsInMem.add, throw_if.
  destruct (Z.eqb_spec (ipv4_subnet_id_ h) 0) as [Es|Es]; [by left|]. rewrite bind_Ok.
  destruct (bool_decide (hostname_ h = []) && IOAddr.isV4Zero (ipv4_reservation_ h)) eqn:Er.
  { right. apply andb_prop in Er as [E1%bool_decide_eq_true E2]. unfold has_resource. rewrite E1, E2. by intros [?|?]. }
  rewrite bind_Ok, (proj2 (Z.ltb_lt _ _)) by lia. cbn [andb].
  destruct (bool_decide (is_Some (HostsInMem.get4 _ _ _ hosts))) eqn:Ed.
  { apply find_is_Some in Ed as (h' & Hin & [Hs%Z.eqb_eq Hc%orb_prop]%andb_prop). by exists h'. }
  rewrite bind_Ok, andb_true_r.
  destruct (negb (IOAddr.isV4Zero (ipv4_reservation_ h)) && bool_decide (is_Some (HostsInMem.get4_address _ _ hosts))) eqn:Ea.
  { apply andb_prop in Ea as [Hz%negb_true_iff Ea]. apply find_is_Some in Ea as (h' & Hin & [Hs%Z.eqb_eq Ha%bool_decide_eq_true]%andb_prop).
    exists h'. by split_and!. }
  rewrite bind_Ok. split; [done|]. apply snoc_inv; [done|done| |lia|].
  - unfold has_resource. apply andb_false_iff in Er as [E%bool_decide_eq_false|E]; [by left|by right].
  - intros h' Hin [Hs [Hc|[Hz Ha]]].
    + apply bool_decide_eq_false in Ed. apply Ed. apply (bool_decide_eq_true_1 _), find_is_Some. exists h'. split; [done|].
      rewrite Hs, Z.eqb_refl. destruct Hc as [->| ->]; [done|]. by rewrite orb_true_r.
    + rewrite Hz in Ea. cbn [negb andb] in Ea. apply bool_decide_eq_false in Ea. apply Ea. apply (bool_decide_eq_true_1 _), find_is_Some.
      exists h'. split; [done|]. unfold IOAddr.equals. by rewrite Hs, Ha, Z.eqb_refl, bool_decide_true.
Qed.

Lemma made_identified `{TransformWidth} identifier type id address name classes h :
  Hst.make identifier type id address name classes = Ok h -> identified h /\ ipv4_subnet_id_ h = id.
Proof.
  unfold Hst.make, Hst.reserve, Hst.setIPv4Reservation, identified. intros (h0 & H1 & H2)%bind_ok.
  assert (match host_hwaddr_ h0, host_duid_ h0 with Some a, None => htype_ a = HTYPE_ETHER | None, Some _ => True | _, _ => False end
    /\ ipv4_subnet_id_ h0 = id) as H0.
  { unfold Hst.setIdentifier in H1. destruct type; [| |done|done].
    - apply bind_ok in H1 as (a & Ha & [= <-]). unfold HW.make in Ha. apply bind_ok in Ha as ([] & _ & [= <-]). done.
    - apply bind_ok in H1 as (d & Hd & [= <-]). done. }
  destruct (IOAddr.isV4Zero address); [by injection H2 as <-|].
  apply bind_ok in H2 as ([] & _ & H2). apply bind_ok in H2 as ([] & _ & [= <-]). done.
Qed.
