(* ===== verification/DuidFactory.v ===== *)
(** The creation and storage of the server's DUID: dhcp++/duid_factory.cpp.

    An exception leaves the factory and the file as far as they were changed,
    so an operation gives an outcome and a state. *)
From stdpp Require Import base list numbers option strings.
From Stdlib Require Import ZArith Lia.
From S2P Require Import Prelude Buffer HwAddr Encode Text Json Address DnsName OptionDef Options Pkt Nic Subnet OptionText ClientClass Config Hosts.

Definition DUID_TIME_EPOCH : Z := 946684800.
Definition ENTERPRISE_ID_ISC : Z := 2495.

(** The factory, with the content of the file it stores the DUID in; [None] if
    there is none. *)
Record DUIDFactory := MkFactory { storage_location_ : list Z; duid_ : option (list Z); duid_file : option (list Z) }.
#[global] Instance DUIDFactory_eta : Eta DUIDFactory := fun f => MkFactory (storage_location_ f) (duid_ f) (duid_file f).

Module Factory.
Section Factory.
Context `{TransformWidth}.
(** Whether the file can be opened for writing, and how much of a text the
    device takes, if not all of it. *)
Variables (can_open : bool) (room : option nat).

Definition make (storage_location : list Z) (file : option (list Z)) : DUIDFactory := MkFactory (Str.trim storage_location) None file.
Definition isStored (f : DUIDFactory) : bool := negb (bool_decide (storage_location_ f = [])).

Definition isspace (c : Z) : bool := ((9 <=? c) && (c <=? 13)) || (c =? 32).

(** [while (!ifs.eof() && ifs.good()) { ifs >> read_contents; duid_str << read_contents; }]:
    when only white space is left the extraction leaves the string alone, and
    the last word is put out once more. *)
Fixpoint read_loop (fuel : nat) (ifs read_contents : list Z) : result (list Z) :=
  match fuel with
  | O => NoFuel
  | S fuel =>
      match find_first (fun c => negb (isspace c)) ifs 0 with
      | None => Ok read_contents
      | Some start =>
          let word := drop start ifs in
          match find_first isspace word 0 with
          | None => Ok word
          | Some end_ => rest ← read_loop fuel (drop end_ word) (take end_ word); Ok (take end_ word ++ rest)
          end
      end
  end.

Definition readFromFile (f : DUIDFactory) : result DUIDFactory :=
  let f := f <| duid_ := None |> in
  match (if isStored f then duid_file f else None) with
  | None => Ok f
  | Some ifs =>
      duid_str ← read_loop (S (length ifs)) ifs [];
      if bool_decide (duid_str = []) then Ok f
      else match Hst.DUID_fromText duid_str with
           | Ok d => Ok (f <| duid_ := Some d |>)
           | Throw _ => Ok f
           | Crash => Crash
           | NoFuel => NoFuel
           end
  end.

(** [set]: the file is truncated before the DUID is checked. *)
Definition set_duid (duid_vector : list Z) (f : DUIDFactory) : result unit * DUIDFactory :=
  if zlen duid_vector <? 1 then (Throw BadValue, f)
  else
    let stored := if isStored f then
      if negb can_open then (Throw InvalidOperation, f)
      else match DUID.make duid_vector with
        | Ok d =>
            let text := DUID.toText d in
            match room with
            | None => (Ok tt, f <| duid_file := Some text |>)
            | Some n => (Throw InvalidOperation, f <| duid_file := Some (take n text) |>)
            end
        | Throw e => (Throw e, f <| duid_file := Some [] |>)
        | Crash => (Crash, f)
        | NoFuel => (NoFuel, f)
        end
    else (Ok tt, f) in
    match stored with
    | (Ok _, f) => match DUID.make duid_vector with
        | Ok d => (Ok tt, f <| duid_ := Some d |>)
        | Throw e => (Throw e, f)
        | Crash => (Crash, f)
        | NoFuel => (NoFuel, f)
        end
    | failed => failed
    end.

(** What a DUID of a type with [n] bytes before its identifier holds. *)
Definition current {A} (type : DUID.DUIDType) (n : nat) (parse : list Z -> result A) (none : A) (duid : option (list Z)) : result (A * list Z) :=
  match duid with
  | None => Ok (none, [])
  | Some v =>
      t ← DUID.getType v;
      match t, type with
      | DUID.DUID_LLT, DUID.DUID_LLT | DUID.DUID_EN, DUID.DUID_EN | DUID.DUID_LL, DUID.DUID_LL =>
          if Z.of_nat n <? zlen v then a ← parse v; Ok (a, drop n v) else Ok (none, [])
      | _, _ => Ok (none, [])
      end
  end.

(** The search of an interface is commented out in the source. *)
Definition createLinkLayerId (identifier : list Z) : result (list Z) :=
  throw_if (bool_decide (identifier = [])) Unexpected;; Ok identifier.

(** The link-layer part: identifier and hardware type. *)
Definition link_layer (ll_identifier : list Z) (htype : Z) (identifier_current : list Z) (htype_current : Z) : result (list Z * Z) :=
  if bool_decide (ll_identifier = []) then
    if bool_decide (identifier_current = []) then l ← createLinkLayerId ll_identifier; Ok (l, htype)
    else Ok (identifier_current, htype_current)
  else Ok (ll_identifier, if htype =? 0 then if negb (htype_current =? 0) then htype_current else HTYPE_ETHER else htype).

(** A DUID made of the current one, then [set]. *)
Definition create (render : option (list Z) -> result (list Z)) (f : DUIDFactory) : result unit * DUIDFactory :=
  match readFromFile f with
  | Ok f => match render (duid_ f) with
      | Ok duid_out => set_duid duid_out f
      | Throw e => (Throw e, f)
      | Crash => (Crash, f)
      | NoFuel => (NoFuel, f)
      end
  | Throw e => (Throw e, f)
  | Crash => (Crash, f)
  | NoFuel => (NoFuel, f)
  end.

(** [now]: what [time] gives; [random]: the numbers that are drawn. *)
Definition createLLT (now htype time_in : Z) (ll_identifier : list Z) : DUIDFactory -> result unit * DUIDFactory :=
  create (fun duid =>
    '(htype_current, time_current, identifier_current) ← current DUID.DUID_LLT 8
      (fun v => h ← IOUtil.readUint16 (drop 2 v); t ← IOUtil.readUint32 (drop 4 v); Ok (h, t)) (0, 0) duid;
    let time_out := if time_in =? 0 then if negb (time_current =? 0) then time_current else u32 (now - DUID_TIME_EPOCH) else time_in in
    '(ll_identifier_out, htype_out) ← link_layer ll_identifier htype identifier_current htype_current;
    Ok (bytes16 1 ++ bytes16 htype_out ++ bytes32 time_out ++ ll_identifier_out)).

Definition createEN (random : nat -> Z) (enterprise_id : Z) (identifier : list Z) : DUIDFactory -> result unit * DUIDFactory :=
  create (fun duid =>
    '(enterprise_id_current, identifier_current) ← current DUID.DUID_EN 6 (fun v => IOUtil.readUint32 (drop 2 v)) 0 duid;
    let enterprise_id_out := if enterprise_id =? 0
      then if negb (enterprise_id_current =? 0) then enterprise_id_current else ENTERPRISE_ID_ISC else enterprise_id in
    Ok (bytes16 2 ++ bytes32 enterprise_id_out ++
        (if bool_decide (identifier = []) then
           if bool_decide (identifier_current = []) then (fun i => u8 (random i)) <$> seq 0 6 else identifier_current
         else identifier))).

Definition createLL (htype : Z) (ll_identifier : list Z) : DUIDFactory -> result unit * DUIDFactory :=
  create (fun duid =>
    '(htype_current, identifier_current) ← current DUID.DUID_LL 4 (fun v => IOUtil.readUint16 (drop 2 v)) 0 duid;
    '(ll_identifier_out, htype_out) ← link_layer ll_identifier htype identifier_current htype_current;
    Ok (bytes16 3 ++ bytes16 htype_out ++ ll_identifier_out)).

Definition get (now : Z) (random : nat -> Z) (f : DUIDFactory) : result (list Z) * DUIDFactory :=
  match duid_ f with
  | Some d => (Ok d, f)
  | None =>
      match readFromFile f with
      | Ok f =>
          match duid_ f with
          | Some d => (Ok d, f)
          | None =>
              match createLLT now 0 0 [] f with
              | (Crash, f) => (Crash, f)
              | (NoFuel, f) => (NoFuel, f)
              | (_, f) =>
                  match duid_ f with
                  | Some d => (Ok d, f)
                  | None =>
                      let '(r, f) := createEN random 0 [] f in
                      (r;; match duid_ f with Some d => Ok d | None => Crash end, f)
                  end
              end
          end
      | Throw e => (Throw e, f)
      | Crash => (Crash, f)
      | NoFuel => (NoFuel, f)
      end
  end.
End Factory.
End Factory.

(** ** Facts *)
Section Facts.
Context `{TransformWidthLaws}.

(** One word is read: what is before it, the word, and what follows. *)
Lemma read_word fuel ifs rc : exists blank word rest, ifs = blank ++ word ++ rest /\
  Factory.read_loop (S fuel) ifs rc =
  (if bool_decide (word = []) then Ok rc
   else if bool_decide (rest = []) then Ok word else t ← Factory.read_loop fuel rest word; Ok (word ++ t)) /\
  (word = [] -> rest = []) /\ forallb (fun c => negb (Factory.isspace c)) word = true.
Proof.
  destruct (split_first (fun c => negb (Factory.isspace c)) ifs) as (blank & r & -> & Hb & Hr).
  destruct (split_first Factory.isspace r) as (word & rest & -> & Hw & Hrest). exists blank, word, rest. split; [done|].
  cbn [Factory.read_loop]. unfold find_first. rewrite drop_0, (find_from_skip _ _ _ _ Hb), Nat.add_0_l.
  destruct Hr as [Hnil|(c & r' & E & Hc)].
  - destruct (app_nil word rest) as [Hn _]. destruct (Hn Hnil) as [-> ->]. by split.
  - rewrite E. cbn [find_from]. rewrite Hc, <- E, drop_app_length, drop_0, (find_from_skip _ _ _ _ Hw), Nat.add_0_l.
    destruct word as [|x word].
    { destruct Hrest as [->|(y & t & -> & Hy)]; [done|]. cbn [app] in E. injection E as -> ->. by rewrite Hy in Hc. }
    rewrite (bool_decide_false (x :: word = [])) by done. split; [|by split].
    destruct Hrest as [->|(y & t & -> & Hy)]; [by rewrite app_nil_r|].
    cbn [find_from]. rewrite Hy, drop_app_length, take_app_length. done.
Qed.

Lemma read_loop_total fuel : forall ifs rc, (length ifs < fuel)%nat -> exists t, Factory.read_loop fuel ifs rc = Ok t.
Proof.
  induction fuel as [|fuel IH]; intros ifs rc Hf; [lia|]. destruct (read_word fuel ifs rc) as (blank & word & rest & -> & -> & _ & _).
  case_bool_decide as Hw; [by eexists|]. case_bool_decide; [by eexists|]. rewrite !length_app in Hf.
  destruct word as [|x word]; [done|]. cbn [length] in Hf. destruct (IH rest (x :: word)) as [t ->]; [lia|]. by eexists.
Qed.

(** A file with one word, as [set] writes it. *)
Lemma read_one text fuel : text <> [] -> forallb (fun c => negb (Factory.isspace c)) text = true -> Factory.read_loop (S fuel) text [] = Ok text.
Proof.
  intros Hne Hs. cbn [Factory.read_loop]. unfold find_first. destruct text as [|c text]; [done|]. cbn [drop find_from].
  pose proof Hs as Hs'. cbn [forallb] in Hs'. apply andb_true_iff in Hs' as [Hc _]. rewrite Hc. cbn [drop].
  by rewrite (find_from_none _ 0 _ Hs).
Qed.

Lemma digit_no_space d : 0 <= d < 16 -> Factory.isspace (Hex.digit d) = false.
Proof. intros Hd. unfold Factory.isspace, Hex.digit. destruct (Z.ltb_spec d 10); lia. Qed.

Lemma toText_no_space d : bytes_ok d -> forallb (fun c => negb (Factory.isspace c)) (Hex.toText d) = true.
Proof.
  assert (forall b, byte_ok b -> forallb (fun c => negb (Factory.isspace c)) (Hex.byte_text b) = true) as Hb.
  { intros b Hb. unfold byte_ok in Hb. unfold Hex.byte_text. cbn [forallb]. rewrite !digit_no_space by zdiv. done. }
  induction d as [|b d IH]; [done|]. intros [H1 H2]%bytes_ok_cons. destruct d as [|c d]; [by apply Hb|].
  change (Hex.toText (b :: c :: d)) with (Hex.byte_text b ++ 58 :: Hex.toText (c :: d)).
  rewrite forallb_app, (Hb b H1). cbn [forallb andb]. exact (IH H2).
Qed.

Lemma fromText_total text : match Hst.DUID_fromText text with Ok _ | Throw _ => True | _ => False end.
Proof.
  unfold Hst.DUID_fromText, Str.decodeFormattedHexString.
  assert (forall r : result (list Z), safe r -> safe (b ← r; DUID.make b)) as Hm.
  { intros r Hr. apply safe_bind; [done|]. intros b _. unfold DUID.make. apply safe_bind; [apply safe_throw_if|]. intros _ _. by apply safe_bind; [apply safe_throw_if|]. }
  apply Hm. case_bool_decide.
  - unfold Hex.decodeColonSeparatedHexString. apply safe_bind; [|done]. generalize (Hex.split [] text). intros l. generalize (1 <? zlen l). intros many.
    induction l as [|t l IH]; [done|]. cbn [mapM_]. apply safe_bind; [|intros; by apply safe_bind].
    unfold Hex.token_bytes. destruct (_ && _); [done|]. destruct (2 <? zlen t); [done|]. case_bool_decide; [done|]. apply safe_bind; [|done].
    generalize 0. induction t as [|c t IHt]; intros acc; [done|]. cbn [Hex.token_value]. destruct (Hex.xdigit c); [|done].
    destruct (decide (t = [])) as [->|]; [done|]. by apply IHt.
  - match goal with |- context [decodeHex ?s] => pose proof (decode_total Base16 Base16_ok s) as Hd; unfold decodeHex; destruct (decode Base16 s) end; done.
Qed.

(** A text of at least two bytes is read back. *)
Lemma duid_text_back d : bytes_ok d -> 2 <= zlen d <= DUID.MAX_DUID_LEN -> Hst.DUID_fromText (Hex.toText d) = Ok d.
Proof.
  intros Hb Hl. unfold Hst.DUID_fromText, Str.decodeFormattedHexString.
  assert (58 ∈ Hex.toText d) as Hc.
  { destruct d as [|a [|b d]]; [unfold zlen in Hl; cbn in Hl; lia..|]. cbn [Hex.toText]. apply elem_of_app. right. by left. }
  rewrite bool_decide_true by done. rewrite hex_roundtrip, bind_Ok by done. unfold DUID.make. rewrite (proj2 (Z.ltb_ge _ _)) by lia.
  rewrite bool_decide_false; [done|]. intros ->. unfold zlen in Hl. cbn in Hl. lia.
Qed.

(** ** Restarts *)

(** The DUID that a file holds. *)
Definition found (file : option (list Z)) : option (list Z) :=
  match file with
  | None => None
  | Some ifs =>
      match Factory.read_loop (S (length ifs)) ifs [] with
      | Ok text => if bool_decide (text = []) then None else match Hst.DUID_fromText text with Ok d => Some d | _ => None end
      | _ => None
      end
  end.

Lemma readFromFile_spec f : Factory.isStored f = true -> Factory.readFromFile f = Ok (f <| duid_ := found (duid_file f) |>).
Proof.
  intros Hs. unfold Factory.readFromFile. change (Factory.isStored (f <| duid_ := None |>)) with (Factory.isStored f). rewrite Hs.
  change (duid_file (f <| duid_ := None |>)) with (duid_file f). unfold found. destruct (duid_file f) as [ifs|]; [|done].
  destruct (read_loop_total (S (length ifs)) ifs []) as [t ->]; [lia|]. rewrite bind_Ok. case_bool_decide; [done|].
  pose proof (fromText_total t) as Ht. by destruct (Hst.DUID_fromText t).
Qed.

Lemma found_text d : bytes_ok d -> 2 <= zlen d <= DUID.MAX_DUID_LEN -> found (Some (DUID.toText d)) = Some d.
Proof.
  intros Hb Hl. unfold found, DUID.toText.
  assert (Hex.toText d <> []) as Hne by (destruct d as [|a [|b d]]; [unfold zlen in Hl; cbn in Hl; lia|done|done]).
  rewrite read_one, bool_decide_false, duid_text_back by (done || by apply toText_no_space). done.
Qed.

Lemma set_stored v f : Factory.isStored f = true -> 1 <= zlen v <= DUID.MAX_DUID_LEN ->
  Factory.set_duid true None v f = (Ok tt, f <| duid_file := Some (DUID.toText v) |> <| duid_ := Some v |>).
Proof.
  intros Hs Hl. unfold Factory.set_duid. rewrite (proj2 (Z.ltb_ge _ _)), Hs by lia. cbn [negb].
  assert (DUID.make v = Ok v) as ->; [|done]. unfold DUID.make. rewrite (proj2 (Z.ltb_ge _ _)) by lia.
  rewrite bool_decide_false; [done|]. intros ->. unfold zlen in Hl. cbn in Hl. lia.
Qed.

(** The DUID of a new installation. *)
Definition new_duid (random : nat -> Z) : list Z := bytes16 2 ++ bytes32 ENTERPRISE_ID_ISC ++ ((fun i => u8 (random i)) <$> seq 0 6).

Lemma new_duid_ok random : bytes_ok (new_duid random) /\ zlen (new_duid random) = 12.
Proof. split; [|done]. unfold new_duid. repeat (constructor; [done || apply u8_byte|]). constructor. Qed.

(** The DUID survives restarts.  With a file that can be written, the factory
    returns the DUID that the file holds, or a new one that it stores; after a
    restart, at any time and even if the file can no longer be written, it
    returns the same. *)
Theorem duid_survives_restart now random storage file : Str.trim storage <> [] ->
  exists d f, Factory.get true None now random (Factory.make storage file) = (Ok d, f) /\
    d = default (new_duid random) (found file) /\
    forall can_open room now' random', exists f',
      Factory.get can_open room now' random' (Factory.make storage (duid_file f)) = (Ok d, f') /\ duid_file f' = duid_file f.
Proof.
  intros Hne. set (f0 := Factory.make storage file).
  assert (forall file, Factory.isStored (Factory.make storage file) = true) as Hst by (intros x; unfold Factory.isStored; cbn; by rewrite bool_decide_false).
  assert (forall file d, found file = Some d -> forall can_open room now random, Factory.get can_open room now random (Factory.make storage file) =
    (Ok d, (Factory.make storage file) <| duid_ := Some d |>)) as Hget.
  { intros x d Hx c r n rd. unfold Factory.get. cbn [duid_ Factory.make]. rewrite readFromFile_spec by apply Hst. cbn [duid_file Factory.make]. by rewrite Hx. }
  destruct (found file) as [d|] eqn:Ef; cbn [default from_option id].
  { exists d. eexists. split; [by apply Hget|]. split; [done|]. intros c r n rd. eexists. by split; [apply Hget|]. }
  destruct (new_duid_ok random) as [Hb Hl].
  exists (new_duid random), (f0 <| duid_file := Some (DUID.toText (new_duid random)) |> <| duid_ := Some (new_duid random) |>). split; [|split; [done|]].
  - assert (Factory.readFromFile f0 = Ok f0) as Hr.
    { rewrite readFromFile_spec by apply Hst. change (duid_file f0) with file. by rewrite Ef. }
    assert (Factory.createLLT true None now 0 0 [] f0 = (Throw Unexpected, f0)) as Ellt by (unfold Factory.createLLT, Factory.create; by rewrite Hr).
    assert (Factory.createEN true None random 0 [] f0 = (Ok tt, f0 <| duid_file := Some (DUID.toText (new_duid random)) |> <| duid_ := Some (new_duid random) |>)) as Een.
    { unfold Factory.createEN, Factory.create. rewrite Hr. rewrite <- set_stored by (apply Hst || (unfold DUID.MAX_DUID_LEN; lia)). reflexivity. }
    unfold Factory.get. change (duid_ f0) with (@None (list Z)). cbn iota. rewrite Hr. change (duid_ f0) with (@None (list Z)). cbn iota.
    rewrite Ellt. change (duid_ f0) with (@None (list Z)). cbn iota. by rewrite Een.
  - intros c r n rd. eexists. split; [|done]. apply Hget. cbn [duid_file]. apply found_text; [done|unfold DUID.MAX_DUID_LEN; lia].
Qed.

(** An identifier that makes the DUID too long is refused, but the file has
    lost the DUID it held. *)
Theorem long_identifier_loses_duid htype ll f : Factory.isStored f = true -> DUID.MAX_DUID_LEN < zlen ll + 4 -> 0 < zlen ll ->
  exists f', Factory.createLL true None htype ll f = (Throw BadValue, f') /\ found (duid_file f') = None.
Proof.
  intros Hs Hl Hp. unfold Factory.createLL, Factory.create. rewrite readFromFile_spec by done. cbn [duid_].
  assert (exists h i, Factory.current DUID.DUID_LL 4 (fun v => IOUtil.readUint16 (drop 2 v)) 0 (found (duid_file f)) = Ok (h, i)) as (h & i & E).
  { unfold Factory.current. destruct (found (duid_file f)) as [v|]; [|by eexists _, _]. unfold DUID.getType.
    assert (forall t, exists h i, (match t with DUID.DUID_LL => if Z.of_nat 4 <? zlen v then a ← IOUtil.readUint16 (drop 2 v); Ok (a, drop 4 v) else Ok (0, []) | _ => Ok (0, []) end)
      = Ok (h, i)) as Ht.
    { intros t. destruct t; try (by eexists _, _). destruct (Z.ltb_spec (Z.of_nat 4) (zlen v)) as [H4|]; [|by eexists _, _].
      unfold IOUtil.readUint16. destruct v as [|a [|b [|c [|d v]]]]; try (unfold zlen in H4; cbn [length] in H4; lia).
      cbn [drop]. rewrite (proj2 (Z.ltb_ge _ _)) by (unfold zlen; cbn [length]; lia). by eexists _, _. }
    destruct (Z.ltb_spec (zlen v) 2); [by eexists _, _|]. destruct (zget_ok v 0) as (a & -> & _); [lia|]. destruct (zget_ok v 1) as (b & -> & _); [lia|].
    rewrite !bind_Ok. match goal with |- context [match ?t with DUID.DUID_UNKNOWN => _ | _ => _ end] => destruct (Ht t) as (h & i & E); exists h, i; rewrite <- E; by destruct t end. }
  change (duid_ (f <| duid_ := found (duid_file f) |>)) with (found (duid_file f)). rewrite E, bind_Ok.
  unfold Factory.link_layer. rewrite bool_decide_false by (intros ->; unfold zlen in Hp; cbn in Hp; lia). rewrite bind_Ok.
  unfold Factory.set_duid. change (Factory.isStored (f <| duid_ := _ |>)) with (Factory.isStored f). rewrite Hs.
  set (v := bytes16 3 ++ _). assert (zlen v = zlen ll + 4) as Hv by (unfold v; rewrite !zlen_app; change (zlen (bytes16 ?x)) with 2; lia).
  rewrite (proj2 (Z.ltb_ge _ _)) by lia. cbn [negb]. unfold DUID.make. rewrite (proj2 (Z.ltb_lt _ _)) by lia. cbn [throw_if mbind result_bind].
  eexists. split; [done|]. reflexivity.
Qed.
End Facts.

(** A line feed at the end of the file hides the DUID: the last word is read
    twice. *)
Example line_feed_hides_duid : let _ : TransformWidth := regroup in
  found (Some (Hex.toText [0; 1; 2])) = Some [0; 1; 2] /\ found (Some (Hex.toText [0; 1; 2] ++ [10])) = None.
Proof. vm_compute. split; reflexivity. Qed.
