(* ===== verification/Control.v ===== *)
(** The controlled server: server/ctrl_server.cpp and the parts of
    server/ctrl_server_init.h that change the state of the process.

    An exception leaves the state as far as it was changed, so an operation
    is a function from the state to an outcome and a state. *)
From stdpp Require Import base list numbers option strings gmap.
From Stdlib Require Import ZArith Lia.
From S2P Require Import Prelude Buffer HwAddr Encode Text Json Logging Address DnsName OptionDef Options Pkt.
From S2P Require Import Hooks Nic Subnet OptionText ClientClass Config Statistics Hosts.

(** A singleton behind a static pointer. *)
Inductive Singleton (A : Type) : Type := Null | Live (a : A) (stopped : bool) | Deleted.
Arguments Null {A}.
Arguments Live {A} a stopped.
Arguments Deleted {A}.

(** What [std::atexit] was given. *)
Inductive exit_handler : Set := ExitPinger | ExitRpc.

(** The process: [ControlledDhcpv4Srv] and the singletons it sets up.
    [threads_]: whether the receiving, the sending and the worker threads run. *)
Record Slave := MkSlave {
  conf_ : option Json;
  lib_ : LibDHCP;
  logger_ : Logger; log_output_ : LogOutput;
  ifmgr_ : IfaceMgr;
  statistics_ : option Statistics;
  hooks_mgr_ : list LibraryManager * Loader;
  classes_ : ClientClassManager;
  host_mgr_ : list Host;
  subnet_mgr_ : SubnetMgr;
  pinger_ : Singleton (bool * Z);
  rpc_ : Singleton (list Z * Z);
  at_exit : list exit_handler;
  stop_flag_ : bool;
  worker_count_ : Z;
  workers_ : nat;
  threads_ : bool }.

#[global] Instance Slave_eta : Eta Slave := fun s =>
  MkSlave (conf_ s) (lib_ s) (logger_ s) (log_output_ s) (ifmgr_ s) (statistics_ s) (hooks_mgr_ s) (classes_ s)
    (host_mgr_ s) (subnet_mgr_ s) (pinger_ s) (rpc_ s) (at_exit s) (stop_flag_ s) (worker_count_ s) (workers_ s) (threads_ s).

Definition Ctl (A : Type) : Type := Slave -> result A * Slave.
#[global] Instance Ctl_ret : MRet Ctl := fun A a s => (Ok a, s).
#[global] Instance Ctl_bind : MBind Ctl := fun A B f m s =>
  match m s with
  | (Ok a, s) => f a s
  | (Throw e, s) => (Throw e, s)
  | (Crash, s) => (Crash, s)
  | (NoFuel, s) => (NoFuel, s)
  end.
(** An evaluation that changes nothing. *)
Definition pure_ {A} (m : Slave -> result A) : Ctl A := fun s => (m s, s).
Definition modify (f : Slave -> Slave) : Ctl unit := fun s => (Ok tt, f s).
(** A change of state by a function that fails without changing it. *)
Definition update_ (f : Slave -> result Slave) : Ctl unit := fun s =>
  match f s with
  | Ok s' => (Ok tt, s')
  | Throw e => (Throw e, s)
  | Crash => (Crash, s)
  | NoFuel => (NoFuel, s)
  end.
Fixpoint for_ {A} (f : A -> Ctl unit) (l : list A) : Ctl unit :=
  match l with [] => mret tt | a :: l => _ ← f a; for_ f l end.
(** [try { m } catch (const std::exception& e) { h e }] *)
Definition catch_ {A} (m : Ctl A) (h : exn -> Ctl A) : Ctl A := fun s =>
  match m s with (Throw e, s) => h e s | r => r end.

Module Single.
(** A call of a member function of the object. *)
Definition stop {A} (s : Singleton A) : result (Singleton A) :=
  match s with Live a _ => Ok (Live a true) | Null | Deleted => Crash end.
Definition delete {A} (s : Singleton A) : result (Singleton A) :=
  match s with Live _ _ => Ok Deleted | Null => Ok Null | Deleted => Crash end.
(** [if (p != nullptr) { p->stop(); delete p; }] *)
Definition release {A} (s : Singleton A) : result (Singleton A) :=
  match s with Null => Ok Null | _ => s ← stop s; delete s end.
End Single.

Module Ctrl.
Section Ctrl.
Context `{Inet6} `{TransformWidth} `{LexicalCast}.

(** [freed]: what is found where the text of a destroyed string was;
    [sys], [detected], [raw_socket], [hardware_concurrency]: the operating
    system, and whether it gives the pinger a raw socket (the descriptor is
    unsigned, so that a failure is not noticed, and its bit is then set
    outside of the set of [select]); [disk], [sh]: the hook libraries and the registered hooks;
    [resolve]: asio's resolver; [pkt_queue]: the constructor of
    [folly::MPMCQueue]; [what]: the texts of exceptions. *)
Variables (freed : list Z -> string) (sys : FileSystem) (detected : IfaceMgr) (raw_socket : bool)
  (hardware_concurrency : Z) (disk : string -> option (Library (option Json))) (sh : ServerHooks)
  (resolve : list Z -> Z -> result unit) (pkt_queue : Z -> result unit) (what : exn -> list Z).

(** The root of the configuration that is in use. *)
Definition root (s : Slave) : result Json := match conf_ s with Some j => Ok j | None => Crash end.
Definition from_root {A} (f : Json -> result A) : Ctl A := pure_ (fun s => j ← root s; f j).

(** ** Logging *)

(** The loop that removes slashes at the end of the path, on the reversed text. *)
Fixpoint strip_slashes (rev_path : list Z) : result (list Z) :=
  match rev_path with
  | [] => Crash
  | c :: p => if c =? 47 then strip_slashes p else Ok (c :: p)
  end.
Definition log_path (dir : list Z) : result (list Z) :=
  p ← strip_slashes (reverse dir); Ok (reverse p ++ bytes_of "/kea-slave.log").

(** What [Logger::open_log] is given, if logging is configured. *)
Definition log_settings (j : Json) : result (option (list Z * Z * bool)) :=
  b ← Conf.hasKey "dhcp4.logging" j;
  if (b : bool) then
    log_enable ← Conf.if_has "dhcp4.logging.log-enable" j Conf.getBool false;
    path ← Conf.if_has "dhcp4.logging.log-file-dir" j (fun k j => dir ← Conf.getString k j; log_path dir) [];
    log_level ← Conf.if_has "dhcp4.logging.log-level" j Conf.getString (bytes_of "trace");
    level ← LogLevel.strToLogLevel log_level;
    Ok (Some (path, level, log_enable))
  else Ok None.
Definition initLog : Ctl unit :=
  update_ (fun s =>
    j ← root s;
    r ← log_settings j;
    match r with
    | None => Ok s
    | Some (path, level, log_enable) =>
        '(l, o) ← Log.open_log sys path (bytes_of "kea_slave ") level log_enable (logger_ s) (log_output_ s);
        Ok (s <| logger_ := l |> <| log_output_ := o |>)
    end).

(** ** Interfaces *)
Definition DHCP4_SERVER_PORT : Z := 67.
Definition open_interface (port : Z) (interface : list Z) : Ctl unit :=
  update_ (fun s =>
    nicAndIp ← Str.tokens interface Init.SLASH;
    match nicAndIp with
    | [nic; ip] =>
        '(_, m) ← Mgr.openSocket (string_of nic) (IOAddress_of_text ip) (u16 port) true true (ifmgr_ s);
        Ok (s <| ifmgr_ := m |>)
    | _ => Ok s
    end).
Definition initNic : Ctl unit :=
  _ ← modify (fun s => s <| ifmgr_ := detected |>);
  interfaces ← from_root (Conf.getStrings "dhcp4.interfaces-config.interfaces");
  port ← from_root (fun j => Conf.if_has "dhcp4.interfaces-config.port" j Conf.getInt DHCP4_SERVER_PORT);
  for_ (open_interface port) interfaces.

(** ** Custom options and client classes *)
Definition set_std (m : OptionMeta) (l : LibDHCP) : LibDHCP :=
  MkLibDHCP m (vendor_v4_options_ l) (runtime_options_ l).
Definition add_custom_option (option_def : Json) : Ctl unit :=
  update_ (fun s =>
    desc ← Init.custom_option freed option_def;
    def ← optionDefFromDescription desc;
    Ok (s <| lib_ := set_std (Meta.addOptionDef def (v4_option_meta_ (lib_ s))) (lib_ s) |>)).
Definition initCustomOptions : Ctl unit :=
  b ← from_root (Conf.hasKey "dhcp4.option-def");
  if (b : bool) then
    option_defs ← from_root (Conf.getObjects "dhcp4.option-def");
    for_ add_custom_option option_defs
  else mret tt.

Definition add_class (client_class : Json) : Ctl unit :=
  update_ (fun s =>
    name ← Conf.getString "name" client_class;
    test ← Conf.getString "test" client_class;
    m ← Classes.addClientClass (v4_option_meta_ (lib_ s)) (string_of name) test (classes_ s);
    Ok (s <| classes_ := m |>)).
Definition initClientClasses : Ctl unit :=
  _ ← modify (fun s => s <| classes_ := Classes.removeAll (classes_ s) |>);
  b ← from_root (Conf.hasKey "dhcp4.client-classes");
  if (b : bool) then
    client_classes ← from_root (Conf.getObjects "dhcp4.client-classes");
    for_ add_class client_classes
  else mret tt.

(** ** Hook libraries *)
Definition library_parameters (info : Json) : result (option Json) :=
  b ← Conf.hasKey "parameters" info;
  if (b : bool) then Some <$> Conf.getObject "parameters" info else Ok None.

(** An outcome without a value. *)
Definition no_value {A B} (r : result A) : result B :=
  match r with Ok _ => Crash | Throw e => Throw e | Crash => Crash | NoFuel => NoFuel end.

(** [LibraryManagerCollection::loadLibraries]: what it returns and the state
    of the collection it leaves. *)
Fixpoint load_infos (infos : list (string * Json)) (i : Z) (lms : list LibraryManager) (ld : Loader)
    : result bool * (list LibraryManager * Loader) :=
  match infos with
  | [] => (Ok true, (lms, ld))
  | (name, info) :: infos =>
      match (p ← library_parameters info; Libs.loadLibrary disk sh p (Libs.make name i) ld) with
      | Ok (true, lm, ld) => load_infos infos (i + 1) (lms ++ [lm]) ld
      | Ok (false, lm, ld) =>
          match (ld ← Libs.unloadLibraries disk sh lms ld; Libs.unloadLibrary disk sh lm ld) with
          | Ok ld => (Ok false, ([], ld))
          | r => (no_value r, (lms, ld))
          end
      | r => (no_value r, (lms, ld))
      end
  end.

(** [HooksManager::loadLibraries]: the names are read before the old
    collection is replaced. *)
Definition hooks_load (libraries : list Json) : Ctl unit :=
  names ← pure_ (fun _ => mapM_ (Conf.getString "library") libraries);
  _ ← update_ (fun s => ld ← Libs.unloadLibraries disk sh (hooks_mgr_ s).1 (hooks_mgr_ s).2;
                        Ok (s <| hooks_mgr_ := ([], Libs.set_manager (Callouts.make sh) ld) |>));
  status ← (fun s => let '(r, hm) := load_infos (zip (string_of <$> names) libraries) 0 [] (hooks_mgr_ s).2 in
                     (r, s <| hooks_mgr_ := hm |>));
  if (status : bool) then mret tt
  else update_ (fun s => hm ← Libs.hooks_unloadLibraries disk sh (hooks_mgr_ s); Ok (s <| hooks_mgr_ := hm |>)).
Definition initHooks : Ctl unit :=
  b ← from_root (Conf.hasKey "dhcp4.hooks-libraries");
  if (b : bool) then
    libraries ← from_root (Conf.getObjects "dhcp4.hooks-libraries");
    hooks_load libraries
  else mret tt.

(** ** Subnets, ping check and RPC client *)
Definition initSubnetMgr : Ctl unit :=
  _ ← modify (fun s => s <| host_mgr_ := [] |>);
  update_ (fun s => j ← root s; m ← Init.createSubnetMgr (lib_ s) j; Ok (s <| subnet_mgr_ := m |>)).

(** [Pinger::init]; the constructor asserts that it has a socket. *)
Definition pinger_init (enable : bool) (time_out : Z) : Ctl unit :=
  _ ← update_ (fun s => p ← Single.release (pinger_ s); Ok (s <| pinger_ := p |>));
  update_ (fun s =>
    assert_ raw_socket;;
    Ok (s <| pinger_ := Live (enable, u32 (time_out * 1000)) false |> <| at_exit := ExitPinger :: at_exit s |>)).
Definition initPingCheck : Ctl unit :=
  p ← from_root Init.initPingCheck; pinger_init p.1 p.2.

(** [RpcAllocateEngine::init]; the constructor throws when the address cannot
    be resolved, and leaves the pointer to the deleted engine. *)
Definition rpc_init (server_addr : list Z) (port : Z) : Ctl unit :=
  _ ← update_ (fun s => e ← Single.release (rpc_ s); Ok (s <| rpc_ := e |>));
  update_ (fun s =>
    resolve server_addr port;;
    Ok (s <| rpc_ := Live (server_addr, port) false |> <| at_exit := ExitRpc :: at_exit s |>)).
Definition initRpcAllocateEngine : Ctl unit :=
  p ← from_root Init.initRpcAllocateEngine; rpc_init p.1 (u32 p.2).

(** ** Workers *)
Definition DEFAULT_QUEUE_SIZE : Z := 1000.
Definition queue_size (worker_count : Z) : result Z :=
  let n := worker_count * DEFAULT_QUEUE_SIZE in
  if decide (- 2^31 <= n < 2^31) then Ok (n mod 2^64) else Crash.
Definition createWorkers : Ctl unit :=
  _ ← modify (fun s => s <| workers_ := 0%nat |> <| stop_flag_ := false |>);
  n ← from_root (fun j => Conf.if_has "dhcp4.worker-count" j Conf.getInt (s32 hardware_concurrency));
  _ ← modify (fun s => s <| worker_count_ := n |>);
  _ ← pure_ (fun s => size ← queue_size (worker_count_ s); pkt_queue size;; pkt_queue size);
  modify (fun s => s <| workers_ := Z.to_nat (worker_count_ s) |>).
Definition runWorkers : Ctl unit := modify (fun s => s <| threads_ := true |>).

Definition run : Ctl unit :=
  _ ← initCustomOptions;
  _ ← initHooks;
  _ ← initClientClasses;
  _ ← initSubnetMgr;
  _ ← initPingCheck;
  _ ← initRpcAllocateEngine;
  _ ← createWorkers;
  runWorkers.

(** [join] of a thread that was not started throws. *)
Definition stop : Ctl unit := fun s =>
  if stop_flag_ s then (Ok tt, s)
  else
    (_ ← modify (fun s => s <| stop_flag_ := true |>);
     _ ← update_ (fun s => throw_if (negb (threads_ s)) SystemError;; Ok s);
     _ ← update_ (fun s => e ← Single.stop (rpc_ s); Ok (s <| rpc_ := e |>));
     _ ← update_ (fun s => p ← Single.stop (pinger_ s); Ok (s <| pinger_ := p |>));
     modify (fun s => s <| threads_ := false |>)) s.

(** ** Construction and commands *)

(** [JsonConf::parseFile] of a file with these contents; a file that cannot
    be read has none. *)
Definition parseFile (file : list Z) : Ctl unit := update_ (fun s => j ← parseString file; Ok (s <| conf_ := Some j |>)).

Definition ControlledDhcpv4Srv (file : list Z) : Ctl unit :=
  _ ← parseFile file;
  _ ← initLog;
  _ ← update_ (fun s => l ← Lib.initOptions (lib_ s); Ok (s <| lib_ := l |>));
  _ ← initNic;
  modify (fun s => s <| statistics_ := Some Stat.init |>).

Definition reconfigCmd (file : list Z) : Ctl CmdResult := fun s =>
  let conf_backup := conf_ s in
  (_ ← modify (fun s => s <| conf_ := None |>);
   _ ← stop;
   catch_ (_ ← parseFile file; _ ← run; mret (bytes_of "reconfig", true))
     (fun e => _ ← modify (fun s => s <| conf_ := conf_backup |>); _ ← run; mret (what e, false))) s.

Definition handleCmd (file : list Z) (cmd_name : list Z) : Ctl CmdResult :=
  if bool_decide (cmd_name = bytes_of "reconfig") then reconfigCmd file
  else if bool_decide (cmd_name = bytes_of "stop") then _ ← stop; mret (bytes_of "stop", true)
  else mret (bytes_of "unknowned command:" ++ cmd_name, false).

(** ** The end of the process *)

(** The handlers run from the last registered to the first. *)
Definition exit_handler_run (h : exit_handler) (s : Slave) : result Slave :=
  match h with
  | ExitPinger => p ← Single.delete (pinger_ s); Ok (s <| pinger_ := p |>)
  | ExitRpc => e ← Single.stop (rpc_ s); e ← Single.delete e; Ok (s <| rpc_ := e |>)
  end.
(** The destructor of the server, then the handlers. *)
Definition exit : Ctl unit :=
  _ ← stop; update_ (fun s => foldM (fun s h => exit_handler_run h s) s (at_exit s)).
End Ctrl.
End Ctrl.
