(* ===== verification/ControlFacts.v ===== *)
(** Facts about the controlled server: what a run sets up, and what it leaves
    behind when it fails. *)
From stdpp Require Import base list numbers option strings gmap.
From Stdlib Require Import ZArith Lia.
From S2P Require Import Prelude Buffer HwAddr Encode Text Json Logging Address DnsName OptionDef Options Pkt.
From S2P Require Import Hooks HooksFacts Nic Subnet OptionText ClientClass Config Statistics Hosts Control.

(** ** The monad *)
Definition unit_of {A} (r : result A) : result unit := (fun _ => tt) <$> r.

Lemma ctl_bind {A B} (m : Ctl A) (f : A -> Ctl B) s :
  (x ← m; f x) s = match m s with
                   | (Ok a, s) => f a s | (Throw e, s) => (Throw e, s) | (Crash, s) => (Crash, s) | (NoFuel, s) => (NoFuel, s)
                   end.
Proof. reflexivity. Qed.

(** Running a continuation on an evaluated outcome. *)
Definition cont {A B} (r : result A) (s : Slave) (f : A -> Ctl B) : result B * Slave :=
  match r with Ok a => f a s | Throw e => (Throw e, s) | Crash => (Crash, s) | NoFuel => (NoFuel, s) end.

Lemma ctl_root {A B} (g : Json -> result A) (f : A -> Ctl B) s j :
  conf_ s = Some j -> (x ← Ctrl.from_root g; f x) s = cont (g j) s f.
Proof. intros Hc. rewrite ctl_bind. unfold Ctrl.from_root, pure_, Ctrl.root. rewrite Hc, bind_Ok. by destruct (g j). Qed.

Lemma ctl_modify {B} (g : Slave -> Slave) (f : unit -> Ctl B) s : (x ← modify g; f x) s = f tt (g s).
Proof. done. Qed.

Lemma ctl_update {B} (g : Slave -> result Slave) (f : unit -> Ctl B) s :
  (x ← update_ g; f x) s = match g s with
    | Ok s => f tt s | Throw e => (Throw e, s) | Crash => (Crash, s) | NoFuel => (NoFuel, s) end.
Proof. rewrite ctl_bind. unfold update_. by destruct (g s). Qed.

(** A loop that only changes one part of the state is a fold over that part;
    when it fails, the part is as an initial piece of the loop left it. *)
Section Lens.
Context {A M : Type} (at_ : M -> Slave) (g : M -> A -> result M) (step : A -> Ctl unit).
Hypothesis step_eq : forall a m, step a (at_ m) = match g m a with
  | Ok m' => (Ok tt, at_ m') | Throw e => (Throw e, at_ m) | Crash => (Crash, at_ m) | NoFuel => (NoFuel, at_ m) end.

Lemma for_fold l m : exists k m', for_ step l (at_ m) = (unit_of (foldM g m l), at_ m') /\
  foldM g m (take k l) = Ok m' /\ (forall m'', foldM g m l = Ok m'' -> m'' = m').
Proof.
  revert m. induction l as [|a l IH]; intros m.
  { exists 0%nat, m. split_and!; [done..|by intros ? [=]]. }
  cbn [for_ foldM]. rewrite ctl_bind, step_eq.
  destruct (g m a) as [m1| | |] eqn:E; try (exists 0%nat, m; split_and!; [done..|by intros ? [=]]).
  destruct (IH m1) as (k & m' & -> & Hk & Hm). exists (S k), m'. cbn [take foldM]. rewrite E, !bind_Ok. done.
Qed.
End Lens.

Section Control.
Context `{Inet6} `{TransformWidth} `{LexicalCast}.
Variables (freed : list Z -> string) (sys : FileSystem) (detected : IfaceMgr) (raw_socket : bool)
  (hardware_concurrency : Z) (disk : string -> option (Library (option Json))) (sh : ServerHooks)
  (resolve : list Z -> Z -> result unit) (pkt_queue : Z -> result unit) (what : exn -> list Z).

(** ** Custom options *)
Definition custom_definition (option_def : Json) : result OptionDefinition :=
  desc ← Init.custom_option freed option_def; optionDefFromDescription desc.

(** Every option that the configuration defines is known already. *)
Definition known_options (j : Json) (m : OptionMeta) : Prop :=
  forall defs d def, Conf.hasKey "dhcp4.option-def" j = Ok true -> Conf.getObjects "dhcp4.option-def" j = Ok defs -> d ∈ defs ->
    custom_definition d = Ok def -> Meta.addOptionDef def m = m.

Definition add_def (m : OptionMeta) (d : Json) : result OptionMeta := def ← custom_definition d; Ok (Meta.addOptionDef def m).

Lemma custom_fold (m : OptionMeta) l :
  foldM (fun m option_def => desc ← Init.custom_option freed option_def; def ← optionDefFromDescription desc;
           Ok (Meta.addOptionDef def m)) m l = foldM add_def m l.
Proof.
  apply foldM_ext. intros m' d. unfold add_def, custom_definition. unfold mbind, result_bind. by destruct (Init.custom_option freed d).
Qed.

Lemma known_fold m l : (forall d def, d ∈ l -> custom_definition d = Ok def -> Meta.addOptionDef def m = m) ->
  forall m', foldM add_def m l = Ok m' -> m' = m.
Proof.
  intros Hk m'. induction l as [|d l IH]; cbn [foldM]; [by intros [= <-]|]. intros (m1 & E & Hl)%bind_ok.
  assert (m1 = m) as ->; [|apply IH; [intros d' def' Hd'; apply Hk; by right|done]].
  unfold add_def in E. apply bind_ok in E as (def & Ed & [= <-]). eapply Hk; [left|done].
Qed.

Lemma initCustomOptions_spec s j : conf_ s = Some j -> exists m,
  Ctrl.initCustomOptions freed s = (unit_of (Init.initCustomOptions freed j (v4_option_meta_ (lib_ s))),
    s <| lib_ := Ctrl.set_std m (lib_ s) |>) /\
  (forall m', Init.initCustomOptions freed j (v4_option_meta_ (lib_ s)) = Ok m' -> m' = m) /\
  (known_options j (v4_option_meta_ (lib_ s)) -> m = v4_option_meta_ (lib_ s)).
Proof.
  intros Hc. unfold Ctrl.initCustomOptions, Init.initCustomOptions.
  assert (forall s : Slave, s <| lib_ := Ctrl.set_std (v4_option_meta_ (lib_ s)) (lib_ s) |> = s) as Hid
    by (intros [? [] *]; done).
  rewrite (ctl_root _ _ _ _ Hc). unfold known_options.
  destruct (Conf.hasKey "dhcp4.option-def" j) as [[]| | |]; try (exists (v4_option_meta_ (lib_ s)); rewrite Hid; split_and!; [done|by intros ? [=]|done]).
  unfold cont. rewrite (ctl_root _ _ _ _ Hc), bind_Ok.
  destruct (Conf.getObjects "dhcp4.option-def" j) as [defs| | |]; try (exists (v4_option_meta_ (lib_ s)); rewrite Hid; split_and!; [done|by intros ? [=]|done]).
  unfold cont. rewrite bind_Ok.
  destruct (for_fold (fun m => s <| lib_ := Ctrl.set_std m (lib_ s) |>) add_def (Ctrl.add_custom_option freed))
    with (l := defs) (m := v4_option_meta_ (lib_ s)) as (k & m & E & Hk & Hm).
  { intros d m. unfold Ctrl.add_custom_option, update_, add_def, custom_definition.
    unfold mbind, result_bind. destruct (Init.custom_option freed d); try done. by destruct (optionDefFromDescription _). }
  exists m. rewrite Hid in E. rewrite E, custom_fold. split; [done|]. split; [done|].
  intros Hkn. apply (known_fold _ (take k defs)); [|done]. intros d def Hd. eapply Hkn; [done|done|].
  apply elem_of_take in Hd as (i & Hi & _). by eapply list_elem_of_lookup_2.
Qed.

(** ** Client classes *)
Definition add_one_class (std : OptionMeta) (m : ClientClassManager) (client_class : Json) : result ClientClassManager :=
  name ← Conf.getString "name" client_class;
  test ← Conf.getString "test" client_class;
  Classes.addClientClass std (string_of name) test m.

Lemma initClientClasses_spec s j : conf_ s = Some j -> exists m,
  Ctrl.initClientClasses s = (unit_of (Init.initClientClasses (v4_option_meta_ (lib_ s)) j), s <| classes_ := m |>) /\
  (forall m', Init.initClientClasses (v4_option_meta_ (lib_ s)) j = Ok m' -> m' = m).
Proof.
  intros Hc. unfold Ctrl.initClientClasses, Init.initClientClasses. rewrite ctl_modify.
  assert (conf_ (s <| classes_ := Classes.removeAll (classes_ s) |>) = Some j) as Hc' by done.
  rewrite (ctl_root _ _ _ _ Hc').
  destruct (Conf.hasKey "dhcp4.client-classes" j) as [[]| | |]; try (exists Classes.empty; split; [done|by intros ? [=]]).
  unfold cont. rewrite (ctl_root _ _ _ _ Hc'), bind_Ok.
  destruct (Conf.getObjects "dhcp4.client-classes" j) as [defs| | |]; try (exists Classes.empty; split; [done|by intros ? [=]]).
  unfold cont. rewrite bind_Ok.
  destruct (for_fold (fun m => s <| classes_ := m |>) (add_one_class (v4_option_meta_ (lib_ s))) Ctrl.add_class)
    with (l := defs) (m := Classes.empty) as (k & m & E & Hk & Hm); [|by exists m].
  intros d m. unfold Ctrl.add_class, update_, add_one_class. unfold mbind, result_bind.
  destruct (Conf.getString "name" d); try done. destruct (Conf.getString "test" d); try done.
  by destruct (Classes.addClientClass _ _ _ _).
Qed.

(** ** Hook libraries *)

(** The libraries up to the first whose parameters cannot be read. *)
Fixpoint readable (infos : list (string * Json)) : list (string * option Json) * result unit :=
  match infos with
  | [] => ([], Ok tt)
  | (name, info) :: infos =>
      match Ctrl.library_parameters info with
      | Ok p => let '(l, e) := readable infos in ((name, p) :: l, e)
      | r => ([], unit_of r)
      end
  end.

Lemma load_infos_loop infos i lms ld :
  let '(l, e) := readable infos in
  match Libs.load_loop disk sh l i lms ld with
  | Ok (true, lms', ld') => Ctrl.load_infos disk sh infos i lms ld = ((fun _ => true) <$> e, (lms', ld'))
  | Ok (false, _, ld') => Ctrl.load_infos disk sh infos i lms ld = (Ok false, ([], ld'))
  | Throw e => exists hm, Ctrl.load_infos disk sh infos i lms ld = (Throw e, hm)
  | Crash => exists hm, Ctrl.load_infos disk sh infos i lms ld = (Crash, hm)
  | NoFuel => exists hm, Ctrl.load_infos disk sh infos i lms ld = (NoFuel, hm)
  end.
Proof.
  revert i lms ld. induction infos as [|[name info] infos IH]; intros i lms ld; [done|].
  cbn [readable Ctrl.load_infos]. destruct (Ctrl.library_parameters info) as [p| | |] eqn:E; try done.
  destruct (readable infos) as [l e]. cbn [Libs.load_loop]. rewrite bind_Ok.
  destruct (Libs.loadLibrary disk sh p (Libs.make name i) ld) as [[[[] lm] ld1]| | |] eqn:El; try by eexists.
  - rewrite bind_Ok. apply IH.
  - rewrite bind_Ok. destruct (Libs.unloadLibraries disk sh lms ld1) as [ld2| | |]; try by eexists. rewrite !bind_Ok.
    destruct (Libs.unloadLibrary disk sh lm ld2) as [ld3| | |]; [by rewrite bind_Ok|by eexists..].
Qed.

(** The outcome of [initHooks], and the libraries that are loaded after it. *)
Definition hook_infos (libs : list Json) : result (list (string * Json)) :=
  names ← mapM_ (Conf.getString "library") libs; Ok (zip (string_of <$> names) libs).
Definition hooks_outcome (j : Json) : result (option (list (string * option Json))) :=
  b ← Conf.hasKey "dhcp4.hooks-libraries" j;
  if (b : bool) then
    libs ← Conf.getObjects "dhcp4.hooks-libraries" j;
    infos ← hook_infos libs;
    match outcome disk (readable infos).1 with
    | Loads => (readable infos).2;; Ok (Some (readable infos).1)
    | Refused => Ok (Some [])
    | LoadFails => Crash
    end
  else Ok None.

Hypothesis Hsh : hooks_inv sh.
Hypothesis Hdisk : forall name lib, disk name = Some lib -> library_returns lib.

Lemma hooks_load_spec s old libs : serves disk sh old (hooks_mgr_ s) -> exists hm,
  let r := infos ← hook_infos libs;
    match outcome disk (readable infos).1 with
    | Loads => (readable infos).2;; Ok (readable infos).1
    | Refused => Ok []
    | LoadFails => Crash
    end in
  Ctrl.hooks_load disk sh libs s = (unit_of r, s <| hooks_mgr_ := hm |>) /\
  match r with Ok infos => serves disk sh infos hm | Throw _ => exists infos, serves disk sh infos hm | _ => True end.
Proof.
  intros Hs. assert (forall s : Slave, s <| hooks_mgr_ := hooks_mgr_ s |> = s) as Hid by (intros []; done).
  unfold Ctrl.hooks_load, hook_infos. rewrite ctl_bind. unfold pure_.
  destruct (mapM_ _ libs) as [names|e| |]; try (exists (hooks_mgr_ s); rewrite Hid; cbn; eauto; fail).
  rewrite ctl_update. destruct (unload_served disk sh Hsh Hdisk _ _ Hs) as (ld & -> & Ho). rewrite !bind_Ok, ctl_bind.
  set (infos := zip (string_of <$> names) libs).
  pose proof (load_infos_loop infos 0 [] (Libs.set_manager (Callouts.make sh) ld)) as Hl.
  pose proof (load_loop_outcome disk sh Hsh Hdisk (readable infos).1 0 [] (fun _ => []) (Libs.set_manager (Callouts.make sh) ld)) as Hlo.
  change (hooks_mgr_ (s <| hooks_mgr_ := ([], Libs.set_manager (Callouts.make sh) ld) |>)).2
    with (Libs.set_manager (Callouts.make sh) ld).
  destruct (readable infos) as [l e]. cbn [fst snd] in *.
  destruct (outcome disk l).
  - destruct Hlo as (ld' & Eq & Ho' & Hl' & Hm'); [by apply fresh_manager|done|done|done|]. rewrite Eq in Hl. rewrite Hl.
    assert (serves disk sh l ([] ++ collection 0 l, ld')) as Hsv by (by split_and!).
    eexists. destruct e as [[]|e| |]; cbn; eauto.
  - destruct Hlo as (ld' & Eq & Ho'); [by apply fresh_manager|done|done|done|]. rewrite Eq in Hl. rewrite Hl.
    unfold Libs.hooks_unloadLibraries. eexists. cbn. split; [done|]. split_and!; try done. by apply fresh_manager.
  - rewrite Hlo in Hl; [|by apply fresh_manager|done|done|done]. destruct Hl as [hm ->]. by exists hm.
Qed.

Lemma initHooks_spec s j old : conf_ s = Some j -> serves disk sh old (hooks_mgr_ s) -> exists hm,
  Ctrl.initHooks disk sh s = (unit_of (hooks_outcome j), s <| hooks_mgr_ := hm |>) /\
  match hooks_outcome j with
  | Ok infos => serves disk sh (default old infos) hm
  | Throw _ => exists infos, serves disk sh infos hm
  | _ => True
  end.
Proof.
  intros Hc Hs. assert (forall s : Slave, s <| hooks_mgr_ := hooks_mgr_ s |> = s) as Hid by (intros []; done).
  unfold Ctrl.initHooks, hooks_outcome. rewrite (ctl_root _ _ _ _ Hc).
  destruct (Conf.hasKey "dhcp4.hooks-libraries" j) as [[]|e| |]; try (exists (hooks_mgr_ s); rewrite Hid; split; [done|cbn; by eauto]).
  unfold cont. rewrite (ctl_root _ _ _ _ Hc), bind_Ok.
  destruct (Conf.getObjects "dhcp4.hooks-libraries" j) as [libs|e| |]; try (exists (hooks_mgr_ s); rewrite Hid; split; [done|cbn; by eauto]).
  unfold cont. rewrite bind_Ok. destruct (hooks_load_spec s old libs Hs) as (hm & -> & Hr). exists hm.
  unfold mbind, result_bind in *. destruct (hook_infos libs) as [infos|e| |]; try done.
  destruct (outcome disk (readable infos).1); try done. by destruct ((readable infos).2).
Qed.

(** ** A run *)

(** What a configuration stands for, evaluated in the order of [run]. *)
Record Settings := MkSettings {
  set_lib : LibDHCP; set_hooks : option (list (string * option Json)); set_classes : ClientClassManager;
  set_subnets : SubnetMgr; set_ping : bool * Z; set_rpc : list Z * Z; set_workers : Z }.
Definition rpc_settings (j : Json) : result (list Z * Z) :=
  rpc ← Init.initRpcAllocateEngine j; resolve rpc.1 (u32 rpc.2);; Ok (rpc.1, u32 rpc.2).
Definition worker_settings (j : Json) : result Z :=
  n ← Conf.if_has "dhcp4.worker-count" j Conf.getInt (s32 hardware_concurrency);
  size ← Ctrl.queue_size n; pkt_queue size;; Ok n.
Definition settings (j : Json) (l : LibDHCP) : result Settings :=
  std ← Init.initCustomOptions freed j (v4_option_meta_ l);
  hooks ← hooks_outcome j;
  classes ← Init.initClientClasses std j;
  subnets ← Init.createSubnetMgr (Ctrl.set_std std l) j;
  ping ← Init.initPingCheck j;
  rpc ← rpc_settings j;
  n ← worker_settings j;
  Ok (MkSettings (Ctrl.set_std std l) hooks classes subnets (ping.1, u32 (ping.2 * 1000)) rpc n).

(** The server has these settings and its threads run. *)
Record shows (st : Settings) (s : Slave) : Prop := MkShows {
  sh_lib : lib_ s = set_lib st; sh_classes : classes_ s = set_classes st; sh_hosts : host_mgr_ s = [];
  sh_subnets : subnet_mgr_ s = set_subnets st; sh_ping : pinger_ s = Live (set_ping st) false;
  sh_rpc : rpc_ s = Live (set_rpc st) false; sh_stop : stop_flag_ s = false; sh_count : worker_count_ s = set_workers st;
  sh_workers : workers_ s = Z.to_nat (set_workers st); sh_threads : threads_ s = true }.

(** What a run does not touch. *)
Definition rest (s : Slave) := (conf_ s, logger_ s, log_output_ s, ifmgr_ s, statistics_ s).

(** The address of the master resolves. *)
Definition resolves (j : Json) : Prop :=
  forall rpc, Init.initRpcAllocateEngine j = Ok rpc -> resolve rpc.1 (u32 rpc.2) = Ok tt.

(** A state that a run can start from. *)
Record startable (j : Json) (s : Slave) : Prop := MkStartable {
  st_conf : conf_ s = Some j; st_hooks : exists old, serves disk sh old (hooks_mgr_ s);
  st_pinger : pinger_ s <> Deleted; st_rpc : rpc_ s <> Deleted }.

Definition run_ := Ctrl.run freed raw_socket hardware_concurrency disk sh resolve pkt_queue.

Hypothesis Hraw : raw_socket = true.

Lemma release_ok {A} (x : Singleton A) : x <> Deleted -> exists y, Single.release x = Ok y.
Proof. destruct x; [by eexists..|done]. Qed.

(** The last part of a run. *)
Definition start_workers : Ctl unit :=
  _ ← Ctrl.createWorkers hardware_concurrency pkt_queue; Ctrl.runWorkers.

Lemma start_workers_spec s j : conf_ s = Some j ->
  match worker_settings j with
  | Ok n => start_workers s = (Ok tt, s <| workers_ := Z.to_nat n |> <| stop_flag_ := false |> <| worker_count_ := n |> <| threads_ := true |>)
  | r => exists w n, start_workers s = (unit_of r, s <| workers_ := w |> <| stop_flag_ := false |> <| worker_count_ := n |>)
  end.
Proof.
  intros Hc. unfold start_workers, worker_settings, Ctrl.createWorkers. rewrite ctl_bind, ctl_modify.
  rewrite (ctl_root _ _ _ j) by done.
  destruct (Conf.if_has _ _ _ _) as [n| | |]; try by (eexists 0%nat, (worker_count_ s); destruct s).
  unfold cont. rewrite ctl_modify, ctl_bind, bind_Ok. unfold pure_.
  match goal with |- context [worker_count_ ?x] => change (worker_count_ x) with n end.
  destruct (Ctrl.queue_size n) as [size| | |]; try by (eexists 0%nat, n).
  rewrite !bind_Ok. destruct (pkt_queue size) as [[]| | |]; try by (eexists 0%nat, n). done.
Qed.

Lemma subnets_spec s j : conf_ s = Some j ->
  Ctrl.initSubnetMgr s = match Init.createSubnetMgr (lib_ s) j with
    | Ok m => (Ok tt, s <| host_mgr_ := [] |> <| subnet_mgr_ := m |>)
    | r => (unit_of r, s <| host_mgr_ := [] |>) end.
Proof.
  intros Hc. unfold Ctrl.initSubnetMgr. rewrite ctl_modify. unfold update_, Ctrl.root.
  match goal with |- context [conf_ ?x] => replace (conf_ x) with (Some j) by done end. rewrite bind_Ok.
  match goal with |- context [lib_ ?x] => change (lib_ x) with (lib_ s) end. by destruct (Init.createSubnetMgr (lib_ s) j).
Qed.

(** Ping check and RPC client. *)
Lemma ping_spec s j : conf_ s = Some j -> pinger_ s <> Deleted ->
  match Init.initPingCheck j with
  | Ok p => Ctrl.initPingCheck raw_socket s
      = (Ok tt, s <| pinger_ := Live (p.1, u32 (p.2 * 1000)) false |> <| at_exit := ExitPinger :: at_exit s |>)
  | r => Ctrl.initPingCheck raw_socket s = (unit_of r, s)
  end.
Proof.
  intros Hc Hp. unfold Ctrl.initPingCheck. rewrite (ctl_root _ _ _ _ Hc). destruct (Init.initPingCheck j) as [p| | |]; try done.
  unfold cont, Ctrl.pinger_init. rewrite ctl_update. destruct (release_ok _ Hp) as [y ->]. rewrite bind_Ok, Hraw. done.
Qed.

Lemma rpc_spec s j : conf_ s = Some j -> rpc_ s <> Deleted -> exists x,
  match rpc_settings j with
  | Ok rpc => Ctrl.initRpcAllocateEngine resolve s = (Ok tt, s <| rpc_ := Live rpc false |> <| at_exit := ExitRpc :: at_exit s |>)
  | r => Ctrl.initRpcAllocateEngine resolve s = (unit_of r, s <| rpc_ := x |>) /\ (resolves j -> x <> Deleted)
  end.
Proof.
  intros Hc Hp. unfold Ctrl.initRpcAllocateEngine, rpc_settings, resolves. rewrite (ctl_root _ _ _ _ Hc).
  assert (s <| rpc_ := rpc_ s |> = s) as Hid by (by destruct s).
  destruct (Init.initRpcAllocateEngine j) as [p| | |]; try (exists (rpc_ s); rewrite Hid; by split).
  unfold cont, Ctrl.rpc_init. rewrite ctl_update. destruct (release_ok _ Hp) as [y ->]. rewrite !bind_Ok. exists y.
  unfold update_. destruct (resolve p.1 (u32 p.2)) as [[]| | |] eqn:E; try done;
    (split; [done|]; intros Hr; specialize (Hr p eq_refl); congruence).
Qed.

(** What a failed run leaves. *)
Definition leaves (j : Json) (s s' : Slave) : Prop :=
  rest s' = rest s /\ (exists infos, serves disk sh infos (hooks_mgr_ s')) /\ pinger_ s' <> Deleted /\
  (resolves j -> rpc_ s' <> Deleted) /\ (known_options j (v4_option_meta_ (lib_ s)) -> lib_ s' = lib_ s) /\
  (exists k, at_exit s' = k ++ at_exit s).

(** [m] has the outcome of [r], establishes [P] when it returns and [Bad] when
    it throws. *)
Definition does {X} (m : Ctl unit) (r : result X) (P : X -> Slave -> Prop) (Bad : Slave -> Prop) (s : Slave) : Prop :=
  exists s', m s = (unit_of r, s') /\ match r with Ok x => P x s' | Throw _ => Bad s' | _ => True end.

Lemma does_bind {X Y} (m : Ctl unit) (next : unit -> Ctl unit) (r : result X) (k : X -> result Y) P Q Bad s :
  does m r P Bad s -> (forall x s1, P x s1 -> does (next tt) (k x) Q Bad s1) -> does (x ← m; next x) (x ← r; k x) Q Bad s.
Proof.
  intros (s1 & E & Hp) Hn. unfold does. rewrite ctl_bind, E.
  destruct r as [x|e| |]; cbn [unit_of fmap result_fmap]; [rewrite bind_Ok; apply (Hn x s1 Hp)|by exists s1..].
Qed.

(** The parts of the state that a run sets up, without the workers. *)
Definition core (s : Slave) := (rest s, lib_ s, hooks_mgr_ s, classes_ s, host_mgr_ s, subnet_mgr_ s, pinger_ s, rpc_ s, at_exit s).

Lemma does_map {X Y} (m : Ctl unit) (r : result X) (f : X -> Y) P (Q : Y -> Slave -> Prop) (Bad : Slave -> Prop) s :
  does m r P Bad s -> (forall x s1, P x s1 -> Q (f x) s1) -> does m (x ← r; Ok (f x)) Q Bad s.
Proof. intros (s1 & E & Hp) Hn. exists s1. destruct r as [x|e| |]; cbn in *; auto. Qed.

Lemma does_weaken {X} (m : Ctl unit) (r : result X) P (Bad Bad' : Slave -> Prop) s :
  does m r P Bad s -> (forall s', Bad s' -> Bad' s') -> does m r P Bad' s.
Proof. intros (s1 & E & Hp) Hn. exists s1. destruct r; auto. Qed.

Lemma does_conseq {X} (m : Ctl unit) (r : result X) (P P' : X -> Slave -> Prop) (Bad Bad' : Slave -> Prop) s :
  does m r P Bad s -> (forall x s', P x s' -> P' x s') -> (forall s', Bad s' -> Bad' s') -> does m r P' Bad' s.
Proof. intros (s1 & E & Hp) Hx Hn. exists s1. destruct r; auto. Qed.

Lemma workers_does s j : conf_ s = Some j ->
  does start_workers (worker_settings j)
    (fun n s' => core s' = core s /\ stop_flag_ s' = false /\ worker_count_ s' = n /\ workers_ s' = Z.to_nat n /\ threads_ s' = true)
    (fun s' => core s' = core s) s.
Proof.
  intros Hc. pose proof (start_workers_spec s j Hc) as Hw. unfold does.
  destruct (worker_settings j); [by rewrite Hw; eexists|destruct Hw as (w & n & ->); by eexists..].
Qed.

Lemma rpc_does s j : conf_ s = Some j -> rpc_ s <> Deleted ->
  does (Ctrl.initRpcAllocateEngine resolve) (rpc_settings j)
    (fun rpc s' => core s' = (rest s, lib_ s, hooks_mgr_ s, classes_ s, host_mgr_ s, subnet_mgr_ s, pinger_ s, Live rpc false, ExitRpc :: at_exit s))
    (fun s' => exists x, core s' = (rest s, lib_ s, hooks_mgr_ s, classes_ s, host_mgr_ s, subnet_mgr_ s, pinger_ s, x, at_exit s) /\
       (resolves j -> x <> Deleted)) s.
Proof.
  intros Hc Hd. destruct (rpc_spec s j Hc Hd) as [x Hr]. unfold does.
  destruct (rpc_settings j); [by rewrite Hr; eexists|destruct Hr as [-> ?]; eexists; split; [done|by try exists x]..].
Qed.

Lemma ping_does s j : conf_ s = Some j -> pinger_ s <> Deleted ->
  does (Ctrl.initPingCheck raw_socket) (Init.initPingCheck j)
    (fun p s' => core s' = (rest s, lib_ s, hooks_mgr_ s, classes_ s, host_mgr_ s, subnet_mgr_ s,
       Live (p.1, u32 (p.2 * 1000)) false, rpc_ s, ExitPinger :: at_exit s))
    (fun s' => s' = s) s.
Proof.
  intros Hc Hd. pose proof (ping_spec s j Hc Hd) as Hp. unfold does. destruct (Init.initPingCheck j); rewrite Hp; by eexists.
Qed.

Lemma subnets_does s j : conf_ s = Some j ->
  does Ctrl.initSubnetMgr (Init.createSubnetMgr (lib_ s) j)
    (fun m s' => core s' = (rest s, lib_ s, hooks_mgr_ s, classes_ s, [], m, pinger_ s, rpc_ s, at_exit s))
    (fun s' => core s' = (rest s, lib_ s, hooks_mgr_ s, classes_ s, [], subnet_mgr_ s, pinger_ s, rpc_ s, at_exit s)) s.
Proof.
  intros Hc. pose proof (subnets_spec s j Hc) as Hs. unfold does. rewrite Hs. by destruct (Init.createSubnetMgr (lib_ s) j); eexists.
Qed.

Lemma classes_does s j : conf_ s = Some j ->
  does Ctrl.initClientClasses (Init.initClientClasses (v4_option_meta_ (lib_ s)) j)
    (fun m s' => core s' = (rest s, lib_ s, hooks_mgr_ s, m, host_mgr_ s, subnet_mgr_ s, pinger_ s, rpc_ s, at_exit s))
    (fun s' => exists m, core s' = (rest s, lib_ s, hooks_mgr_ s, m, host_mgr_ s, subnet_mgr_ s, pinger_ s, rpc_ s, at_exit s)) s.
Proof.
  intros Hc. destruct (initClientClasses_spec s j Hc) as (m & E & Hm). exists (s <| classes_ := m |>). split; [done|].
  destruct (Init.initClientClasses (v4_option_meta_ (lib_ s)) j); try done; [by rewrite (Hm _ eq_refl)|by exists m].
Qed.

Lemma hooks_does s j old : conf_ s = Some j -> serves disk sh old (hooks_mgr_ s) ->
  does (Ctrl.initHooks disk sh) (hooks_outcome j)
    (fun infos s' => exists hm, core s' = (rest s, lib_ s, hm, classes_ s, host_mgr_ s, subnet_mgr_ s, pinger_ s, rpc_ s, at_exit s) /\
       serves disk sh (default old infos) hm)
    (fun s' => exists hm infos, core s' = (rest s, lib_ s, hm, classes_ s, host_mgr_ s, subnet_mgr_ s, pinger_ s, rpc_ s, at_exit s) /\
       serves disk sh infos hm) s.
Proof.
  intros Hc Ho. destruct (initHooks_spec s j old Hc Ho) as (hm & E & Hm). exists (s <| hooks_mgr_ := hm |>). split; [done|].
  destruct (hooks_outcome j); try done; [by exists hm|]. destruct Hm as [infos ?]. by exists hm, infos.
Qed.

Lemma options_does s j : conf_ s = Some j ->
  does (Ctrl.initCustomOptions freed) (Init.initCustomOptions freed j (v4_option_meta_ (lib_ s)))
    (fun m s' => core s' = (rest s, Ctrl.set_std m (lib_ s), hooks_mgr_ s, classes_ s, host_mgr_ s, subnet_mgr_ s, pinger_ s, rpc_ s, at_exit s) /\
       (known_options j (v4_option_meta_ (lib_ s)) -> m = v4_option_meta_ (lib_ s)))
    (fun s' => exists m, core s' = (rest s, Ctrl.set_std m (lib_ s), hooks_mgr_ s, classes_ s, host_mgr_ s, subnet_mgr_ s, pinger_ s, rpc_ s, at_exit s) /\
       (known_options j (v4_option_meta_ (lib_ s)) -> m = v4_option_meta_ (lib_ s))) s.
Proof.
  intros Hc. destruct (initCustomOptions_spec s j Hc) as (m & E & Hm & Hk). exists (s <| lib_ := Ctrl.set_std m (lib_ s) |>).
  split; [done|]. destruct (Init.initCustomOptions freed j _); try done; [by rewrite (Hm _ eq_refl)|by exists m].
Qed.

Lemma core_inv s r l hm cs ho su pi rp ae : core s = (r, l, hm, cs, ho, su, pi, rp, ae) ->
  rest s = r /\ lib_ s = l /\ hooks_mgr_ s = hm /\ classes_ s = cs /\ host_mgr_ s = ho /\ subnet_mgr_ s = su /\
  pinger_ s = pi /\ rpc_ s = rp /\ at_exit s = ae.
Proof. unfold core. generalize (rest s). by intros ? [= -> -> -> -> -> -> -> -> ->]. Qed.

Lemma rest_conf s s' : rest s = rest s' -> conf_ s = conf_ s'.
Proof. by intros [= ->]. Qed.

Lemma rest_set s s' c d : rest s = rest (s' <| conf_ := c |>) -> rest (s <| conf_ := d |>) = rest (s' <| conf_ := d |>).
Proof. destruct s, s'. by intros [= -> -> -> -> ->]. Qed.
Lemma rest_set_id s d : conf_ s = d -> rest (s <| conf_ := d |>) = rest s.
Proof. by intros <-. Qed.

(** The part of a run that depends on the options but not on the libraries. *)
Definition set_up : Ctl unit :=
  _ ← Ctrl.initClientClasses;
  _ ← Ctrl.initSubnetMgr;
  _ ← Ctrl.initPingCheck raw_socket;
  _ ← Ctrl.initRpcAllocateEngine resolve;
  start_workers.

Definition kept (j : Json) (s s' : Slave) : Prop :=
  rest s' = rest s /\ lib_ s' = lib_ s /\ hooks_mgr_ s' = hooks_mgr_ s /\ pinger_ s' <> Deleted /\
  (resolves j -> rpc_ s' <> Deleted) /\ (exists k, at_exit s' = k ++ at_exit s).

Lemma set_up_does s j hooks : conf_ s = Some j -> pinger_ s <> Deleted -> rpc_ s <> Deleted ->
  does set_up
    (classes ← Init.initClientClasses (v4_option_meta_ (lib_ s)) j;
     subnets ← Init.createSubnetMgr (lib_ s) j;
     ping ← Init.initPingCheck j;
     rpc ← rpc_settings j;
     n ← worker_settings j;
     Ok (MkSettings (lib_ s) hooks classes subnets (ping.1, u32 (ping.2 * 1000)) rpc n))
    (fun st s' => shows st s' /\ rest s' = rest s /\ hooks_mgr_ s' = hooks_mgr_ s /\ set_hooks st = hooks /\
       at_exit s' = ExitRpc :: ExitPinger :: at_exit s)
    (kept j s) s.
Proof.
  intros Hc Hp Hr. unfold set_up.
  eapply does_bind.
  { eapply does_weaken; [by apply classes_does|]. intros s' (m & (? & ? & ? & _ & _ & _ & Ep & Er & ?)%core_inv).
    split_and!; try congruence. by exists []. }
  intros cs s1 (Hr1 & Hl1 & Hh1 & Hcs1 & _ & _ & Hp1 & Hrp1 & He1)%core_inv. rewrite <- Hl1.
  assert (conf_ s1 = Some j) as Hc1 by (by rewrite (rest_conf _ _ Hr1)).
  eapply does_bind.
  { eapply does_weaken; [by apply subnets_does|]. intros s' (? & ? & ? & _ & _ & _ & Ep & Er & ?)%core_inv.
    split_and!; try congruence. exists []. cbn. congruence. }
  intros su s2 (Hr2 & Hl2 & Hh2 & Hcs2 & Hho2 & Hsu2 & Hp2 & Hrp2 & He2)%core_inv.
  assert (conf_ s2 = Some j) as Hc2 by (rewrite (rest_conf _ _ Hr2); done).
  eapply does_bind.
  { eapply does_weaken; [apply ping_does; congruence|]. intros s' ->. split_and!; try congruence. exists []. cbn. congruence. }
  intros ping s3 (Hr3 & Hl3 & Hh3 & Hcs3 & Hho3 & Hsu3 & Hp3 & Hrp3 & He3)%core_inv.
  assert (conf_ s3 = Some j) as Hc3 by (rewrite (rest_conf _ _ Hr3); done).
  eapply does_bind.
  { eapply does_weaken; [apply rpc_does; congruence|].
    intros s' (x & (? & ? & ? & _ & _ & _ & Ep & Er & ?)%core_inv & ?). split_and!; try congruence; [by rewrite Er|].
    exists [ExitPinger]. cbn. congruence. }
  intros rpc s4 (Hr4 & Hl4 & Hh4 & Hcs4 & Hho4 & Hsu4 & Hp4 & Hrp4 & He4)%core_inv.
  assert (conf_ s4 = Some j) as Hc4 by (rewrite (rest_conf _ _ Hr4); done).
  eapply does_map.
  { eapply does_weaken; [by apply workers_does|].
    intros s' (? & ? & ? & _ & _ & _ & Ep & Er & ?)%core_inv. split_and!; try congruence.
    exists [ExitRpc; ExitPinger]. cbn. congruence. }
  intros n s5 [(Hr5 & Hl5 & Hh5 & Hcs5 & Hho5 & Hsu5 & Hp5 & Hrp5 & He5)%core_inv (? & ? & ? & ?)].
  split_and!; [split|..]; cbn; congruence.
Qed.

(** A run has the outcome of the settings. *)
Lemma run_does s j old : startable j s -> serves disk sh old (hooks_mgr_ s) ->
  does run_ (settings j (lib_ s))
    (fun st s' => shows st s' /\ rest s' = rest s /\ serves disk sh (default old (set_hooks st)) (hooks_mgr_ s') /\
       at_exit s' = ExitRpc :: ExitPinger :: at_exit s)
    (leaves j s) s.
Proof.
  intros [Hc _ Hp Hr] Hs. unfold run_, Ctrl.run, settings.
  assert (Ctrl.set_std (v4_option_meta_ (lib_ s)) (lib_ s) = lib_ s) as Hid by (by destruct (lib_ s)).
  eapply does_bind.
  { eapply does_weaken; [by apply options_does|]. intros s' (m & (? & Hl1 & Hh1 & _ & _ & _ & Ep & Er & ?)%core_inv & Hk).
    split_and!; try congruence; [rewrite Hh1; by exists old| |by exists []]. intros Hkn. by rewrite Hl1, (Hk Hkn). }
  intros m s1 [(Hr1 & Hl1 & Hh1 & _ & _ & _ & Hp1 & Hrp1 & He1)%core_inv Hk]. rewrite <- Hh1 in Hs.
  assert (conf_ s1 = Some j) as Hc1 by (by rewrite (rest_conf _ _ Hr1)).
  eapply does_bind.
  { eapply does_weaken; [by apply hooks_does|].
    intros s' (hm & infos & (E1 & E2 & E5 & _ & _ & _ & E3 & E4 & ?)%core_inv & ?). split_and!; try congruence;
      [rewrite E5; by exists infos| |exists []; cbn; congruence].
    intros Hkn. by rewrite E2, Hl1, (Hk Hkn). }
  intros infos s2 (hm & (Hr2 & Hl2 & Hh2 & _ & _ & _ & Hp2 & Hrp2 & He2)%core_inv & Hsv).
  assert (conf_ s2 = Some j) as Hc2 by (by rewrite (rest_conf _ _ Hr2)).
  rewrite Hl1 in Hl2. pose proof (set_up_does s2 j infos Hc2) as Hsu. rewrite Hl2 in Hsu.
  eapply does_conseq; [apply Hsu; congruence|..].
  - intros st s' (Hst & E1 & E2 & E3 & E4). split_and!; [done|congruence|by rewrite E3, E2, Hh2|congruence].
  - intros s' (E1 & E2 & E3 & ? & ? & [k Ek]). split_and!; [congruence|rewrite E3, Hh2; by exists (default old infos)|done|done| |].
    + intros Hkn. by rewrite E2, Hl2, (Hk Hkn).
    + exists k. congruence.
Qed.

(** ** Options stay *)
Definition has_definition (def : OptionDefinition) (m : OptionMeta) : Prop :=
  is_Some (code_to_def_ m !! code_ def) /\ is_Some (name_to_def_ m !! name_ def).

Lemma insert_new_known {K} `{Countable K} (k : K) d (m : gmap K OptionDefinition) : is_Some (m !! k) -> Meta.insert_new k d m = m.
Proof. intros [d' E]. unfold Meta.insert_new. by rewrite E. Qed.
Lemma insert_new_keeps {K} `{Countable K} (k k' : K) d (m : gmap K OptionDefinition) :
  is_Some (m !! k) \/ k = k' -> is_Some (Meta.insert_new k' d m !! k).
Proof.
  unfold Meta.insert_new. intros Hk. destruct (m !! k') as [d'|] eqn:E.
  - destruct Hk as [?|<-]; [done|by exists d'].
  - destruct (decide (k = k')) as [->|Hne]; [by rewrite lookup_insert_eq; eexists|]. rewrite lookup_insert_ne by done. by destruct Hk.
Qed.

Lemma add_known def m : has_definition def m -> Meta.addOptionDef def m = m.
Proof. intros [Hc Hn]. destruct m. unfold Meta.addOptionDef. cbn in *. by rewrite !insert_new_known. Qed.
Lemma add_keeps def def' m : has_definition def m \/ def = def' -> has_definition def (Meta.addOptionDef def' m).
Proof. intros Hd. split; cbn; apply insert_new_keeps; destruct Hd as [[? ?]| ->]; eauto. Qed.

Lemma fold_keeps def l m m' : foldM add_def m l = Ok m' ->
  has_definition def m \/ (exists d, d ∈ l /\ custom_definition d = Ok def) -> has_definition def m'.
Proof.
  revert m. induction l as [|d l IH]; intros m; cbn [foldM].
  - intros [= <-] [?|(d & Hd & _)]; [done|]. by apply elem_of_nil in Hd.
  - intros (m1 & (def' & E & [= <-])%bind_ok & Hl)%bind_ok Hd. apply (IH _ Hl). destruct Hd as [Hd|(d' & Hin & Ed)]; [|apply elem_of_cons in Hin as [->|Hd']].
    + left. apply add_keeps. by left.
    + left. apply add_keeps. right. congruence.
    + right. by exists d'.
Qed.

Lemma customs_known j m m' : Init.initCustomOptions freed j m = Ok m' -> known_options j m'.
Proof.
  unfold Init.initCustomOptions. intros ([] & Hb & E)%bind_ok defs d def Hb' Hd Hin Ed; [|congruence].
  apply bind_ok in E as (defs' & Hd' & E). rewrite custom_fold in E. apply add_known.
  rewrite Hd in Hd'. injection Hd' as <-. eapply fold_keeps; [done|]. right. by exists d.
Qed.

Lemma known_custom m l m0 m1 : foldM add_def m0 l = Ok m1 ->
  (forall d def, d ∈ l -> custom_definition d = Ok def -> Meta.addOptionDef def m = m) -> foldM add_def m l = Ok m.
Proof.
  revert m0. induction l as [|d l IH]; intros m0; cbn [foldM]; [done|]. intros (m2 & (def & E & _)%bind_ok & Hl)%bind_ok Hk.
  assert (add_def m d = Ok m) as -> by (unfold add_def; rewrite E, bind_Ok, (Hk d def) by (done || left); done).
  rewrite bind_Ok. eapply IH; [done|]. intros d' def' Hd'. apply Hk. by right.
Qed.

(** Setting up the options of a configuration once more changes nothing. *)
Lemma customs_again j m m' : Init.initCustomOptions freed j m = Ok m' -> Init.initCustomOptions freed j m' = Ok m'.
Proof.
  intros E. pose proof (customs_known _ _ _ E) as Hk. unfold Init.initCustomOptions, known_options in *.
  apply bind_ok in E as ([] & Hb & E); rewrite Hb, bind_Ok; [|done]. apply bind_ok in E as (defs & Hd & E). rewrite Hd, bind_Ok.
  rewrite custom_fold in *. eapply known_custom; [done|]. intros d def Hin. by apply (Hk defs).
Qed.

Lemma settings_again j l st : settings j l = Ok st -> settings j (set_lib st) = Ok st.
Proof.
  unfold settings. intros (m & E & H')%bind_ok.
  assert (set_lib st = Ctrl.set_std m l) as ->.
  { repeat (apply bind_ok in H' as (? & _ & H')). by injection H' as <-. }
  cbn [Ctrl.set_std v4_option_meta_]. rewrite (customs_again _ _ _ E), bind_Ok. exact H'.
Qed.

(** ** Serving and reconfiguring *)

(** The server runs with the settings [st] of the configuration [j]. *)
Record serving (j : Json) (st : Settings) (s : Slave) : Prop := MkServing {
  sv_conf : conf_ s = Some j; sv_shows : shows st s; sv_settings : settings j (lib_ s) = Ok st;
  sv_hooks : exists infos, serves disk sh infos (hooks_mgr_ s) /\ forall l, set_hooks st = Some l -> infos = l }.

Lemma run_serving j st s : startable j s -> settings j (lib_ s) = Ok st ->
  exists s', run_ s = (Ok tt, s') /\ serving j st s' /\ rest s' = rest s /\ at_exit s' = ExitRpc :: ExitPinger :: at_exit s.
Proof.
  intros Hst E. destruct (st_hooks _ _ Hst) as [old Ho]. pose proof (run_does s j old Hst Ho) as (s' & Er & Hp). rewrite E in *.
  destruct Hp as (Hs & Hr & Hh & He). exists s'. split; [exact Er|]. split; [|by split]. split.
  - rewrite (rest_conf _ _ Hr). apply Hst.
  - done.
  - rewrite (sh_lib _ _ Hs). by eapply settings_again.
  - eexists. split; [done|]. by intros l ->.
Qed.

(** Stopping a server that runs. *)
Lemma stop_running s p r : pinger_ s = Live p false -> rpc_ s = Live r false -> stop_flag_ s = false -> threads_ s = true ->
  exists s', Ctrl.stop s = (Ok tt, s') /\
  core s' = (rest s, lib_ s, hooks_mgr_ s, classes_ s, host_mgr_ s, subnet_mgr_ s, Live p true, Live r true, at_exit s) /\
  stop_flag_ s' = true /\ threads_ s' = false.
Proof.
  destruct s. intros Hp Hr Hf Ht. cbn in Hp, Hr, Hf, Ht. subst. eexists. split; [reflexivity|]. done.
Qed.

Lemma ctl_ok {A B} (m : Ctl A) (f : A -> Ctl B) s a s1 : m s = (Ok a, s1) -> (x ← m; f x) s = f a s1.
Proof. intros E. by rewrite ctl_bind, E. Qed.
Lemma ctl_throw {A B} (m : Ctl A) (f : A -> Ctl B) s e s1 : m s = (Throw e, s1) -> (x ← m; f x) s = (Throw e, s1).
Proof. intros E. by rewrite ctl_bind, E. Qed.

Definition reconfig_ := Ctrl.reconfigCmd freed raw_socket hardware_concurrency disk sh resolve pkt_queue what.
Definition try_new (file : list Z) : Ctl CmdResult := _ ← Ctrl.parseFile file; _ ← run_; mret (bytes_of "reconfig", true).
Definition go_back (conf : option Json) (e : exn) : Ctl CmdResult :=
  _ ← modify (fun s => s <| conf_ := conf |>); _ ← run_; mret (what e, false).

(** The new file is tried on the stopped server. *)
Lemma reconfig_tries j st s file : serving j st s -> exists s1,
  reconfig_ file s = catch_ (try_new file) (go_back (Some j)) s1 /\
  core s1 = (rest (s <| conf_ := None |>), lib_ s, hooks_mgr_ s, classes_ s, host_mgr_ s, subnet_mgr_ s,
     Live (set_ping st) true, Live (set_rpc st) true, at_exit s).
Proof.
  intros Hs. pose (s0 := s <| conf_ := None |>).
  destruct (stop_running s0 (set_ping st) (set_rpc st)) as (s1 & E & Hc & _); [apply Hs..|].
  exists s1. split; [|exact Hc]. unfold reconfig_, Ctrl.reconfigCmd. rewrite (sv_conf _ _ _ Hs).
  etransitivity; [apply (ctl_ok _ _ s tt s0); reflexivity|]. cbv beta. rewrite (ctl_ok _ _ s0 tt s1 E). reflexivity.
Qed.

Lemma parse_starts file j s hm : parseString file = Ok j -> hooks_mgr_ s = hm -> (exists old, serves disk sh old hm) ->
  pinger_ s <> Deleted -> rpc_ s <> Deleted ->
  exists s1, Ctrl.parseFile file s = (Ok tt, s1) /\ startable j s1 /\ lib_ s1 = lib_ s /\ at_exit s1 = at_exit s /\
    rest s1 = rest (s <| conf_ := Some j |>).
Proof.
  intros E <- Hh Hp Hr. exists (s <| conf_ := Some j |>). unfold Ctrl.parseFile, update_. rewrite E. by repeat split.
Qed.

(** A new configuration that can be run is run. *)
Lemma reconfig_succeeds j st s file j' st' : serving j st s -> parseString file = Ok j' -> settings j' (lib_ s) = Ok st' ->
  exists s', reconfig_ file s = (Ok (bytes_of "reconfig", true), s') /\ serving j' st' s' /\
    rest s' = rest (s <| conf_ := Some j' |>) /\ at_exit s' = ExitRpc :: ExitPinger :: at_exit s.
Proof.
  intros Hs Hj Hst. destruct (reconfig_tries _ _ _ file Hs) as (s1 & -> & (Hr1 & Hl1 & Hh1 & _ & _ & _ & Hp1 & Hrp1 & He1)%core_inv).
  destruct (sv_hooks _ _ _ Hs) as (infos & Hi & _).
  destruct (parse_starts file j' s1 (hooks_mgr_ s)) as (s2 & E2 & Hs2 & Hl2 & He2 & Hr2); [done|done|by exists infos|by rewrite Hp1|by rewrite Hrp1|].
  destruct (run_serving j' st' s2 Hs2) as (s3 & E3 & Hs3 & Hr3 & He3); [by rewrite Hl2, Hl1|].
  exists s3. split; [|split; [done|split; [|by rewrite He3, He2, He1]]].
  - unfold catch_, try_new. rewrite (ctl_ok _ _ _ _ _ E2), (ctl_ok _ _ _ _ _ E3). done.
  - rewrite Hr3, Hr2. by apply (rest_set _ _ _ (Some j')) in Hr1.
Qed.

(** The new configuration throws [e] without losing what the old one needs. *)
Definition rejects (file : list Z) (s : Slave) (e : exn) : Prop :=
  parseString file = Throw e \/
  exists j', parseString file = Ok j' /\ settings j' (lib_ s) = Throw e /\ resolves j' /\ known_options j' (v4_option_meta_ (lib_ s)).

Lemma attempt_fails file s e hm : rejects file s e -> hooks_mgr_ s = hm -> (exists old, serves disk sh old hm) ->
  pinger_ s <> Deleted -> rpc_ s <> Deleted ->
  exists s1, try_new file s = (Throw e, s1) /\ lib_ s1 = lib_ s /\ (exists k, at_exit s1 = k ++ at_exit s) /\
    (exists infos, serves disk sh infos (hooks_mgr_ s1)) /\ pinger_ s1 <> Deleted /\ rpc_ s1 <> Deleted /\
    forall j, rest (s1 <| conf_ := Some j |>) = rest (s <| conf_ := Some j |>).
Proof.
  intros [E|(j' & E & Est & Hres & Hk)] <- Hh Hp Hr; unfold try_new.
  - exists s. split; [|split_and!; try done; by exists []]. apply ctl_throw. unfold Ctrl.parseFile, update_. by rewrite E.
  - destruct (parse_starts file j' s _ E eq_refl Hh Hp Hr) as (s1 & E1 & Hs1 & Hl1 & He1 & Hr1).
    destruct (st_hooks _ _ Hs1) as [old Ho]. destruct (run_does s1 j' old Hs1 Ho) as (s2 & E2 & Hb). rewrite Hl1, Est in *.
    destruct Hb as (Hr2 & Hh2 & Hp2 & Hrp2 & Hl2 & He2). rewrite Hl1, He1 in *. exists s2.
    split; [by rewrite (ctl_ok _ _ _ _ _ E1); apply ctl_throw|]. split_and!; auto.
    intros j. rewrite Hr1 in Hr2. by apply (rest_set _ _ _ (Some j)) in Hr2.
Qed.

(** The server goes back to the configuration it had. *)
Lemma reconfig_goes_back j st s file e : serving j st s -> rejects file s e ->
  exists s', reconfig_ file s = (Ok (what e, false), s') /\ serving j st s' /\ rest s' = rest s /\
    exists k, at_exit s' = ExitRpc :: ExitPinger :: k ++ at_exit s.
Proof.
  intros Hs Hrej. destruct (reconfig_tries _ _ _ file Hs) as (s1 & -> & (Hr1 & Hl1 & Hh1 & _ & _ & _ & Hp1 & Hrp1 & He1)%core_inv).
  destruct (sv_hooks _ _ _ Hs) as (infos & Hi & _).
  destruct (attempt_fails file s1 e (hooks_mgr_ s)) as (s2 & E2 & Hl2 & [k He2] & Hh2 & Hp2 & Hrp2 & Hr2);
    [unfold rejects in *; by rewrite Hl1|done|by exists infos|by rewrite Hp1|by rewrite Hrp1|].
  destruct (run_serving j st (s2 <| conf_ := Some j |>)) as (s3 & E3 & Hs3 & Hr3 & He3).
  - by split.
  - change (settings j (lib_ s2) = Ok st). rewrite Hl2, Hl1. apply Hs.
  - exists s3. unfold catch_. rewrite E2. unfold go_back. rewrite (ctl_ok _ _ s2 tt (s2 <| conf_ := Some j |>) eq_refl).
    rewrite (ctl_ok _ _ _ _ _ E3). split; [done|]. split; [done|]. split.
    + rewrite Hr3, Hr2. rewrite (rest_set _ _ _ _ Hr1). apply rest_set_id, Hs.
    + exists k. rewrite He3. change (at_exit (s2 <| conf_ := Some j |>)) with (at_exit s2). by rewrite He2, He1.
Qed.

(** ** The end of the process *)
Lemma exit_runs j st s : serving j st s -> exists s1, Ctrl.stop s = (Ok tt, s1) /\
  pinger_ s1 = Live (set_ping st) true /\ rpc_ s1 = Live (set_rpc st) true /\ at_exit s1 = at_exit s.
Proof.
  intros Hs. destruct (stop_running s (set_ping st) (set_rpc st)) as (s1 & E & (_ & _ & _ & _ & _ & _ & ? & ? & ?)%core_inv & _); [apply Hs..|].
  by exists s1.
Qed.

(** The handlers delete each singleton once for every run that created one. *)
Lemma exit_outcome j st s : serving j st s -> at_exit s = [ExitRpc; ExitPinger] -> (Ctrl.exit s).1 = Ok tt.
Proof.
  intros Hs He. destruct (exit_runs _ _ _ Hs) as (s1 & E & Hp & Hr & He1). unfold Ctrl.exit. rewrite (ctl_ok _ _ _ _ _ E), He in *.
  destruct s1. cbn in Hp, Hr, He1. by subst.
Qed.
Lemma exit_twice j st s h k : serving j st s -> at_exit s = ExitRpc :: ExitPinger :: h :: k -> (Ctrl.exit s).1 = Crash.
Proof.
  intros Hs He. destruct (exit_runs _ _ _ Hs) as (s1 & E & Hp & Hr & He1). unfold Ctrl.exit. rewrite (ctl_ok _ _ _ _ _ E), He in *.
  destruct s1. cbn in Hp, Hr, He1. subst. by destruct h.
Qed.
End Control.
