(* ===== verification/CmdServer.v ===== *)
(** The command server: controller/*.cpp.

    Clients connect over TCP and exchange frames: two bytes of length and a
    JSON text.  The server is one thread that runs the handler of one
    completed operation after the other; [asio] delivers exactly the bytes
    that an operation asked for, or an error. *)
From stdpp Require Import base list numbers option strings gmap.
From Stdlib Require Import ZArith Lia.
From S2P Require Import Prelude Buffer HwAddr Encode Text Json Address DnsName OptionDef Options Pkt Config Statistics.

(** The objects behind the virtual function: [H] are the pointers to them,
    [W] is the state they share. *)
Class CmdHandler (H W : Type) := handleCmd : H -> list Z -> Json -> W -> result (CmdResult * W).

(** ** Commands *)
Module Cmd.
Section Cmd.
Context {H W : Type} `{!CmdHandler H W}.

(** [cmd_handlers_] *)
Abbreviation Handlers := (gmap (list Z) H).

Definition registerHandler (cmd_name : list Z) (handler : H) (cmd_handlers_ : Handlers) : result Handlers :=
  match cmd_handlers_ !! cmd_name with
  | Some _ => Throw DuplicateCmdHandler
  | None => Ok (<[cmd_name := handler]> cmd_handlers_)
  end.
Definition unRegisterHandler (cmd_name : list Z) (cmd_handlers_ : Handlers) : result Handlers :=
  match cmd_handlers_ !! cmd_name with
  | None => Throw UnknownCmd
  | Some _ => Ok (delete cmd_name cmd_handlers_)
  end.

Definition runCmd (cmd_handlers_ : Handlers) (cmd_name : list Z) (params : Json) (w : W) : result (CmdResult * W) :=
  match cmd_handlers_ !! cmd_name with
  | Some handler => handleCmd handler cmd_name params w
  | None => Ok ((bytes_of "unknown cmd " ++ cmd_name, false), w)
  end.

Definition result_json (cmdResult : CmdResult) : Json :=
  if negb cmdResult.2 then
    JObject (JsonValue.map_insert (bytes_of "error_info") (JString cmdResult.1)
              (JsonValue.map_insert (bytes_of "succeed") (JBool cmdResult.2) []))
  else
    JObject (JsonValue.map_insert (bytes_of "result") (JString cmdResult.1)
              (JsonValue.map_insert (bytes_of "succeed") (JBool cmdResult.2) [])).
Definition processCmdResult (cmdResult : CmdResult) : list Z := Dump.dump (result_json cmdResult).

(** The answer, whether the callback was told to stop, and the state; an
    empty answer for a text that is not a command. *)
Definition processCmd (cmd_handlers_ : Handlers) (cmd_str : list Z) (w : W) : result (list Z * bool * W) :=
  cmd ← try_std (Some <$> parseString cmd_str) (fun _ => Ok None);
  match cmd with
  | None => Ok ([], false, w)
  | Some cmd =>
      b ← Conf.hasKey "name" cmd;
      if negb b then Ok ([], false, w)
      else
        cmd_name ← Conf.getString "name" cmd;
        '(r, w) ← runCmd cmd_handlers_ cmd_name cmd w;
        Ok (processCmdResult r, bool_decide (cmd_name = bytes_of "stop"), w)
  end.
End Cmd.
End Cmd.

(** ** Sessions *)

(** The asynchronous operation a session waits for. *)
Inductive pending : Set := ReadHeader | ReadBody (msg_len : Z) | Write (data : list Z).

Record TcpSession := MkTcpSession {
  session_stop_ : bool; server_stop_ : bool; msg_len_ : list Z; msg_body_ : list Z; waits : pending }.
#[global] Instance TcpSession_eta : Eta TcpSession := fun s =>
  MkTcpSession (session_stop_ s) (server_stop_ s) (msg_len_ s) (msg_body_ s) (waits s).

Module Session.

Definition MAX_MSG_BODY_LEN : Z := 2048.

(** [memset] and [memcpy] into the buffer; undefined behaviour beyond it. *)
Definition memset (buf : list Z) (n : Z) : result (list Z) :=
  if n <=? zlen buf then Ok (replicate (Z.to_nat n) 0 ++ drop (Z.to_nat n) buf) else Crash.
Definition memcpy (buf : list Z) (off : Z) (data : list Z) : result (list Z) :=
  if off + zlen data <=? zlen buf
  then Ok (take (Z.to_nat off) buf ++ data ++ drop (Z.to_nat (off + zlen data)) buf) else Crash.

(** A new session; its buffers are not initialised. *)
Definition make (len_garbage body_garbage : list Z) : TcpSession :=
  MkTcpSession false false len_garbage body_garbage ReadHeader.

(** Starting the next operation: [None] when the session is given up. *)
Definition readMsgHeader (s : TcpSession) : TcpSession := s <| waits := ReadHeader |>.

Definition readMsgBody (s : TcpSession) : result (option TcpSession) :=
  match msg_len_ s with
  | [b0; b1] =>
      let msg_len := Z.shiftl b0 8 + b1 in
      if (0 <? msg_len) && (msg_len <? MAX_MSG_BODY_LEN) then
        body ← memset (msg_body_ s) (msg_len + 2);
        Ok (Some (s <| msg_body_ := body |> <| waits := ReadBody msg_len |>))
      else Ok None
  | _ => Crash
  end.

Definition writeMsg (msg : list Z) (s : TcpSession) : result (option TcpSession) :=
  let msg_len := zlen msg in
  if (0 <? msg_len) && (msg_len <? MAX_MSG_BODY_LEN) then
    body ← memset (msg_body_ s) (msg_len + 2);
    body ← zset body 0 (Z.shiftr (Z.land msg_len 0xff00) 8);
    body ← zset body 1 (Z.land msg_len 0xff);
    body ← memcpy body 2 msg;
    Ok (Some (s <| msg_body_ := body |> <| waits := Write (take (Z.to_nat (msg_len + 2)) body) |>))
  else Ok None.
End Session.

(** ** The server *)

(** Sessions are the objects that [TcpSessionManager] keeps, by their number. *)
Record TcpServer := MkTcpServer {
  tcp_stop_ : bool; accepting : bool; io_stopped : bool; connections_ : gmap nat TcpSession; accepted : nat }.
#[global] Instance TcpServer_eta : Eta TcpServer := fun s =>
  MkTcpServer (tcp_stop_ s) (accepting s) (io_stopped s) (connections_ s) (accepted s).

Record CmdServer (H W : Type) := MkCmdServer {
  cmd_handlers_ : gmap (list Z) H; cmd_stop_ : bool; tcp_server_ : TcpServer; world : W }.
Arguments MkCmdServer {H W}.
Arguments cmd_handlers_ {H W}.
Arguments cmd_stop_ {H W}.
Arguments tcp_server_ {H W}.
Arguments world {H W}.
Definition with_tcp {H W} (t : TcpServer) (s : CmdServer H W) : CmdServer H W :=
  MkCmdServer (cmd_handlers_ s) (cmd_stop_ s) t (world s).
Definition with_world {H W} (w : W) (s : CmdServer H W) : CmdServer H W :=
  MkCmdServer (cmd_handlers_ s) (cmd_stop_ s) (tcp_server_ s) w.

(** What clients see: bytes sent to a session, a closed session. *)
Inductive output : Type := Sent (id : nat) (data : list Z) | Closed (id : nat).

(** What completes: a connection, the operation of a session. *)
Inductive completion : Type :=
| Accepted (ok : bool) (len_garbage body_garbage : list Z)
| ReadDone (id : nat) (data : list Z)
| WriteDone (id : nat)
| Failed (id : nat).

Module Sessions.

Definition addSession (id : nat) (conn : TcpSession) (t : TcpServer) : TcpServer :=
  t <| connections_ := <[id := conn]> (connections_ t) |>.

(** [TcpSession::stop] *)
Definition stop (id : nat) (conn : TcpSession) : list output := if session_stop_ conn then [] else [Closed id].

Definition removeSession (id : nat) (conn : TcpSession) (t : TcpServer) : list output * TcpServer :=
  (stop id conn, t <| connections_ := delete id (connections_ t) |>).

(** [TcpSessionManager::stop], in the order of the set. *)
Definition stop_all (t : TcpServer) : list output * TcpServer :=
  (mjoin ((fun e => stop e.1 e.2) <$> map_to_list (connections_ t)), t <| connections_ := ∅ |>).
End Sessions.

Module Tcp.
Section Tcp.
Context {H W : Type} `{!CmdHandler H W}.

(** [TcpServer::doAccept] starts the next [async_accept]. *)
Definition doAccept (t : TcpServer) : TcpServer := t <| accepting := true |>.
Definition make : TcpServer := doAccept (MkTcpServer false false false ∅ 0).

Definition stop (t : TcpServer) : list output * TcpServer :=
  if tcp_stop_ t then ([], t)
  else
    let '(out, t) := Sessions.stop_all (t <| tcp_stop_ := true |> <| accepting := false |>) in
    (out, t <| io_stopped := true |>).

(** [CmdServer::stop] *)
Definition cmd_stop (s : CmdServer H W) : list output * CmdServer H W :=
  if cmd_stop_ s then ([], s)
  else let '(out, t) := stop (tcp_server_ s) in (out, MkCmdServer (cmd_handlers_ s) true t (world s)).

(** A session starts its next operation or is removed. *)
Definition continue_ (id : nat) (conn : TcpSession) (next : result (option TcpSession)) (s : CmdServer H W)
    : result (list output * CmdServer H W) :=
  r ← next;
  match r with
  | Some conn =>
      Ok (match waits conn with Write data => [Sent id data] | _ => [] end,
          with_tcp (Sessions.addSession id conn (tcp_server_ s)) s)
  | None => let '(out, t) := Sessions.removeSession id conn (tcp_server_ s) in Ok (out, with_tcp t s)
  end.

(** The handler of a completed operation.  An operation that does not fit the
    state is not delivered. *)
Definition complete (c : completion) (s : CmdServer H W) : result (list output * CmdServer H W) :=
  let t := tcp_server_ s in
  if io_stopped t then Ok ([], s)
  else match c with
  | Accepted ok len_garbage body_garbage =>
      if accepting t then
        let t := t <| accepting := false |> in
        let t := if ok then Sessions.addSession (accepted t) (Session.make len_garbage body_garbage) t <| accepted := S (accepted t) |> else t in
        Ok ([], with_tcp (if tcp_stop_ t then t else doAccept t) s)
      else Ok ([], s)
  | ReadDone id data =>
      match connections_ t !! id with
      | None => Ok ([], s)
      | Some conn =>
          match waits conn with
          | ReadHeader =>
              if zlen data =? 2 then continue_ id conn (Session.readMsgBody (conn <| msg_len_ := data |>)) s else Ok ([], s)
          | ReadBody msg_len =>
              if zlen data =? msg_len then
                body ← Session.memcpy (msg_body_ conn) 0 data;
                '(msg, stop, w) ← Cmd.processCmd (cmd_handlers_ s) data (world s);
                let conn := conn <| msg_body_ := body |> in
                let conn := if (stop : bool) then conn <| server_stop_ := true |> else conn in
                continue_ id conn (Session.writeMsg msg conn) (with_world w s)
              else Ok ([], s)
          | Write _ => Ok ([], s)
          end
      end
  | WriteDone id =>
      match connections_ t !! id with
      | None => Ok ([], s)
      | Some conn =>
          match waits conn with
          | Write _ => if server_stop_ conn then Ok (cmd_stop s) else continue_ id conn (Ok (Some (Session.readMsgHeader conn))) s
          | _ => Ok ([], s)
          end
      end
  | Failed id =>
      match connections_ t !! id with
      | None => Ok ([], s)
      | Some conn => continue_ id conn (Ok None) s
      end
  end.

(** [run]: the handlers of a sequence of completed operations. *)
Fixpoint run (cs : list completion) (s : CmdServer H W) : result (list output * CmdServer H W) :=
  match cs with
  | [] => Ok ([], s)
  | c :: cs => '(out, s) ← complete c s; '(out', s) ← run cs s; Ok (out ++ out', s)
  end.
End Tcp.
End Tcp.
