(* ===== verification/CmdFacts.v ===== *)
(** Facts about the command server: commands, frames, sessions, and the order
    in which commands take effect. *)
From stdpp Require Import base list numbers option strings gmap.
From Stdlib Require Import ZArith Lia.
From S2P Require Import Prelude Buffer HwAddr Encode Text Json JsonFacts JsonRoundTrip Address DnsName OptionDef Options Pkt Config Statistics CmdServer.

(** ** Texts as commands *)
Inductive reading : Type := NotJson | NoName | BadName | Command (name : list Z) (params : Json).

Definition read_command (data : list Z) : reading :=
  match parseString data with
  | Ok j => match JsonValue.at_key (bytes_of "name") j with
            | JNull => NoName | JString name => Command name j | _ => BadName end
  | _ => NotJson
  end.

Lemma parseString_returns data : bytes_ok data -> exists r, parseString data = r /\
  match r with Ok j => json_ok j | Throw e => e = TypeError | _ => False end.
Proof.
  intros Hb. eexists. split; [done|]. unfold parseString. destruct (parse_returns data STANDARD Hb) as (j & e & -> & He).
  rewrite bind_Ok. destruct (decide (e = [])) as [->|Hne].
  - rewrite bool_decide_true by done. cbn. by apply He.
  - by rewrite bool_decide_false.
Qed.

Lemma name_key j : Conf.try_recursive_get "name" j = Ok (Conf.descend [bytes_of "name"] j).
Proof. unfold Conf.try_recursive_get. by replace (Str.tokens (bytes_of "name") Conf.DOT) with (Ok [bytes_of "name"]) by (by vm_compute). Qed.

Section Commands.
Context {H W : Type} `{!CmdHandler H W}.

Lemma processCmd_spec (hs : gmap (list Z) H) data (w : W) : bytes_ok data ->
  Cmd.processCmd hs data w =
  match read_command data with
  | NotJson | NoName => Ok ([], false, w)
  | BadName => Throw TypeError
  | Command name params =>
      '(r, w) ← Cmd.runCmd hs name params w; Ok (Cmd.processCmdResult r, bool_decide (name = bytes_of "stop"), w)
  end.
Proof.
  intros Hb. destruct (parseString_returns data Hb) as (r & E & Hr). unfold Cmd.processCmd, read_command. rewrite E.
  destruct r as [j|e| |]; try done. cbn [fmap result_fmap try_std]. rewrite bind_Ok.
  unfold Conf.hasKey, Conf.getString, Conf.recursive_get. rewrite !name_key, !bind_Ok. cbn [Conf.descend].
  by destruct (JsonValue.at_key (bytes_of "name") j).
Qed.
End Commands.

(** A result is read back from its text. *)
Lemma result_json_eq t b : Cmd.result_json (t, b) =
  JObject [(bytes_of (if b then "result" else "error_info"), JString t); (bytes_of "succeed", JBool b)].
Proof. by destruct b. Qed.

Lemma result_read_back r : bytes_ok r.1 -> parseString (Cmd.processCmdResult r) = Ok (Cmd.result_json r).
Proof.
  destruct r as [t b]. cbn [fst]. intros Hb. unfold parseString, Cmd.processCmdResult. rewrite result_json_eq, parse_dump.
  - done.
  - apply ok_object. split.
    + repeat constructor. by destruct b.
    + repeat constructor; try done; by destruct b; apply (bool_decide_eq_true_1 (bytes_ok _)).
  - by repeat split.
  - vm_compute. congruence.
Qed.

(** ** Frames *)
Definition frame (msg : list Z) : list Z := [zlen msg / 256; zlen msg mod 256] ++ msg.

Definition fits (n : Z) : bool := (0 <? n) && (n <? 2047).

Lemma zlen_replicate {A} n (x : A) : 0 <= n -> zlen (replicate (Z.to_nat n) x) = n.
Proof. unfold zlen. rewrite length_replicate. lia. Qed.

Lemma memset_spec buf n : 0 <= n -> Session.memset buf n =
  if n <=? zlen buf then Ok (replicate (Z.to_nat n) 0 ++ drop (Z.to_nat n) buf) else Crash.
Proof. done. Qed.

(** A session between two operations. *)
Record session_ok (s : TcpSession) : Prop := MkSessionOk {
  so_len : zlen (msg_len_ s) = 2; so_bytes : bytes_ok (msg_len_ s); so_body : zlen (msg_body_ s) = 2048;
  so_open : session_stop_ s = false; so_waits : forall n, waits s = ReadBody n -> fits n = true }.

Lemma memset_length buf n b : 0 <= n -> Session.memset buf n = Ok b -> zlen b = zlen buf.
Proof.
  intros Hn. unfold Session.memset. destruct (Z.leb_spec n (zlen buf)); [|done]. intros [= <-].
  rewrite zlen_app, zlen_replicate by done. unfold zlen in *. rewrite length_drop. lia.
Qed.

Lemma length_bytes n : 0 <= n < 65536 -> Z.shiftr (Z.land n 0xff00) 8 = n / 256 /\ Z.land n 0xff = n mod 256.
Proof.
  intros Hn. change 0xff with (Z.ones 8). rewrite Z.shiftr_land, !Z.shiftr_div_pow2 by lia. change (0xff00 / 2^8) with (Z.ones 8).
  rewrite !Z.land_ones by lia. split; [|done]. apply Z.mod_small. change (2^8) with 256. split; [apply Z.div_pos; lia|].
  apply Z.div_lt_upper_bound; lia.
Qed.

Lemma writeMsg_spec msg s : zlen (msg_body_ s) = 2048 ->
  Session.writeMsg msg s =
  if fits (zlen msg) then
    Ok (Some (s <| msg_body_ := frame msg ++ drop (Z.to_nat (zlen msg + 2)) (msg_body_ s) |> <| waits := Write (frame msg) |>))
  else if zlen msg =? 2047 then Crash else Ok None.
Proof.
  intros Hb. unfold Session.writeMsg, fits, Session.MAX_MSG_BODY_LEN, Session.memset.
  pose proof (zlen_nonneg msg).
  destruct (Z.ltb_spec 0 (zlen msg)); cbn [andb]; [|by destruct (Z.eqb_spec (zlen msg) 2047); [lia|]].
  destruct (Z.ltb_spec (zlen msg) 2048); [|by destruct (Z.ltb_spec (zlen msg) 2047), (Z.eqb_spec (zlen msg) 2047); try lia].
  rewrite Hb. destruct (Z.leb_spec (zlen msg + 2) 2048) as [Hl|Hl].
  2: by destruct (Z.ltb_spec (zlen msg) 2047), (Z.eqb_spec (zlen msg) 2047); try lia.
  destruct (Z.ltb_spec (zlen msg) 2047); [|lia]. rewrite bind_Ok.
  destruct (length_bytes (zlen msg)) as [-> ->]; [lia|].
  assert (Z.to_nat (zlen msg + 2) = S (S (length msg))) as En by (unfold zlen; lia). rewrite En. cbn [replicate app].
  set (tl := replicate (length msg) 0 ++ drop (S (S (length msg))) (msg_body_ s)).
  assert (forall a b, zlen (a :: b :: tl) = 2048) as Htl.
  { intros a b. subst tl. unfold zlen in *. cbn [length]. rewrite length_app, length_replicate, length_drop. lia. }
  unfold zset. rewrite decide_True by (rewrite Htl; lia). rewrite bind_Ok.
  change (<[Z.to_nat 0 := zlen msg / 256]> (0 :: 0 :: tl)) with (zlen msg / 256 :: 0 :: tl).
  rewrite decide_True by (rewrite Htl; lia). rewrite bind_Ok.
  change (<[Z.to_nat 1 := zlen msg mod 256]> (zlen msg / 256 :: 0 :: tl)) with (zlen msg / 256 :: zlen msg mod 256 :: tl).
  unfold Session.memcpy. rewrite Htl. destruct (Z.leb_spec (2 + zlen msg) 2048); [|lia]. rewrite bind_Ok.
  rewrite (Z.add_comm 2), En. change (Z.to_nat 2) with 2%nat. cbn [take drop].
  assert (drop (length msg) tl = drop (S (S (length msg))) (msg_body_ s)) as ->.
  { subst tl. by rewrite drop_app_length' by (by rewrite length_replicate). }
  change ((zlen msg / 256 :: zlen msg mod 256 :: take 0 tl) ++ ?x) with ([zlen msg / 256; zlen msg mod 256] ++ x).
  rewrite app_assoc. change ([zlen msg / 256; zlen msg mod 256] ++ msg) with (frame msg). by rewrite take_app_length'.
Qed.

Definition header_length (hdr : list Z) : Z := match hdr with [b0; b1] => 256 * b0 + b1 | _ => 0 end.

Lemma readMsgBody_spec s : zlen (msg_len_ s) = 2 -> zlen (msg_body_ s) = 2048 ->
  let n := header_length (msg_len_ s) in
  if fits n then exists body, zlen body = 2048 /\ Session.readMsgBody s = Ok (Some (s <| msg_body_ := body |> <| waits := ReadBody n |>))
  else Session.readMsgBody s = if n =? 2047 then Crash else Ok None.
Proof.
  intros Hl Hb. unfold Session.readMsgBody. destruct (msg_len_ s) as [|b0 [|b1 [|]]]; try (unfold zlen in Hl; cbn in Hl; lia).
  cbn [header_length]. rewrite Z.shiftl_mul_pow2 by lia. replace (b0 * 2^8 + b1) with (256 * b0 + b1) by lia.
  set (n := 256 * b0 + b1). unfold fits, Session.MAX_MSG_BODY_LEN.
  destruct (Z.ltb_spec 0 n); cbn [andb]; [|by destruct (Z.eqb_spec n 2047); [lia|]].
  destruct (Z.ltb_spec n 2047).
  - destruct (Z.ltb_spec n 2048); [|lia]. destruct (Session.memset (msg_body_ s) (n + 2)) as [body| | |] eqn:E.
    + exists body. split; [|done]. rewrite <- Hb. eapply memset_length; [|done]. lia.
    + exfalso. unfold Session.memset in E. rewrite Hb in E. by destruct (Z.leb_spec (n + 2) 2048).
    + exfalso. unfold Session.memset in E. rewrite Hb in E. destruct (Z.leb_spec (n + 2) 2048); [done|lia].
    + exfalso. unfold Session.memset in E. rewrite Hb in E. by destruct (Z.leb_spec (n + 2) 2048).
  - destruct (Z.ltb_spec n 2048), (Z.eqb_spec n 2047); try lia; [|done]. unfold Session.memset. rewrite Hb.
    by destruct (Z.leb_spec (n + 2) 2048); [lia|].
Qed.

(** ** The server *)
Section Server.
Context {H W : Type} `{!CmdHandler H W}.
Implicit Types s : CmdServer H W.

Definition server_ok s : Prop := map_Forall (fun _ c => session_ok c) (connections_ (tcp_server_ s)).

Definition completion_ok (c : completion) : Prop :=
  match c with
  | Accepted _ len_garbage body_garbage => zlen len_garbage = 2 /\ bytes_ok len_garbage /\ zlen body_garbage = 2048
  | ReadDone _ data => bytes_ok data
  | _ => True
  end.

#[global] Instance completion_ok_dec c : Decision (completion_ok c).
Proof. destruct c; apply _. Defined.

(** The header or the text that an operation delivers to a session. *)
Definition delivers (c : completion) s : option (nat * TcpSession * list Z) :=
  match c with
  | ReadDone id data =>
      if io_stopped (tcp_server_ s) then None
      else conn ← connections_ (tcp_server_ s) !! id;
           match waits conn with
           | ReadHeader => if zlen data =? 2 then Some (id, conn, data) else None
           | ReadBody n => if zlen data =? n then Some (id, conn, data) else None
           | Write _ => None
           end
  | _ => None
  end.
Definition takes_text (c : completion) s : option (nat * list Z) :=
  '(id, conn, data) ← delivers c s; match waits conn with ReadBody _ => Some (id, data) | _ => None end.

(** A command by itself: the frame that answers it, if any. *)
Definition serve (hs : gmap (list Z) H) (data : list Z) (w : W) : result (option (list Z) * W) :=
  match read_command data with
  | NotJson | NoName => Ok (None, w)
  | BadName => Throw TypeError
  | Command name params =>
      '(r, w) ← Cmd.runCmd hs name params w;
      let msg := Cmd.processCmdResult r in
      if zlen msg =? 2047 then Crash else Ok (if fits (zlen msg) then Some (frame msg) else None, w)
  end.

(** What ends the process. *)
Definition fatal (c : completion) s : bool :=
  match delivers c s with
  | None => false
  | Some (id, conn, data) =>
      match waits conn with
      | ReadHeader => header_length data =? 2047
      | _ => negb (is_ok (serve (cmd_handlers_ s) data (world s)))
      end
  end.

Definition sent (out : list output) : list (nat * list Z) :=
  omap (fun o => match o with Sent id data => Some (id, data) | Closed _ => None end) out.

Lemma sent_app a b : sent (a ++ b) = sent a ++ sent b.
Proof. apply omap_app. Qed.
Lemma stop_sends_nothing id c : sent (Sessions.stop id c) = [].
Proof. unfold Sessions.stop. by destruct (session_stop_ c). Qed.
Lemma stop_all_sends_nothing t : sent (Sessions.stop_all t).1 = [].
Proof.
  unfold Sessions.stop_all. cbn [fst]. induction (map_to_list (connections_ t)) as [|e l IH]; [done|].
  cbn [fmap list_fmap mjoin list_join]. by rewrite sent_app, stop_sends_nothing.
Qed.

Lemma ok_insert s id c : server_ok s -> session_ok c -> server_ok (with_tcp (Sessions.addSession id c (tcp_server_ s)) s).
Proof. intros Hs Hc. by apply map_Forall_insert_2. Qed.
Lemma ok_delete s id c : server_ok s -> server_ok (with_tcp (Sessions.removeSession id c (tcp_server_ s)).2 s).
Proof. intros Hs. by apply map_Forall_delete. Qed.

(** The effect of an operation: what is sent, and the state of the handlers. *)
Definition effect (c : completion) s (out : list output) s' : Prop :=
  cmd_handlers_ s' = cmd_handlers_ s /\
  match takes_text c s with
  | None => sent out = [] /\ world s' = world s
  | Some (id, data) => exists reply, serve (cmd_handlers_ s) data (world s) = Ok (reply, world s') /\
      sent out = match reply with Some f => [(id, f)] | None => [] end
  end.
Definition right_outcome (c : completion) s (r : result (list output * CmdServer H W)) : Prop :=
  match r with
  | Ok (out, s') => fatal c s = false /\ server_ok s' /\ effect c s out s'
  | _ => fatal c s = true
  end.

Definition written (id : nat) (conn : TcpSession) (msg : list Z) s : CmdServer H W :=
  with_tcp (Sessions.addSession id
    (conn <| msg_body_ := frame msg ++ drop (Z.to_nat (zlen msg + 2)) (msg_body_ conn) |> <| waits := Write (frame msg) |>) (tcp_server_ s)) s.

Lemma continue_write s id conn msg : server_ok s -> session_ok conn ->
  if fits (zlen msg) then
    Tcp.continue_ id conn (Session.writeMsg msg conn) s = Ok ([Sent id (frame msg)], written id conn msg s) /\ server_ok (written id conn msg s)
  else if zlen msg =? 2047 then Tcp.continue_ id conn (Session.writeMsg msg conn) s = Crash
  else exists out s', Tcp.continue_ id conn (Session.writeMsg msg conn) s = Ok (out, s') /\ sent out = [] /\
    server_ok s' /\ world s' = world s /\ cmd_handlers_ s' = cmd_handlers_ s.
Proof.
  intros Hs [Hl Hlb Hbd Ho _]. rewrite (writeMsg_spec msg conn Hbd). destruct (fits (zlen msg)) eqn:Ef.
  - unfold Tcp.continue_. rewrite bind_Ok. split; [done|].
    apply ok_insert; [done|]. split; try done.
    change (zlen (frame msg ++ drop (Z.to_nat (zlen msg + 2)) (msg_body_ conn)) = 2048). unfold frame. rewrite !zlen_app.
    unfold fits in Ef. unfold zlen in *. rewrite length_drop. cbn [length]. lia.
  - destruct (zlen msg =? 2047); [done|]. unfold Tcp.continue_. rewrite bind_Ok.
    eexists _, _. split; [done|]. split; [apply stop_sends_nothing|]. split; [|done]. by apply (ok_delete _ id conn).
Qed.

Lemma reply_outcome s id conn msg w : server_ok s -> session_ok conn ->
  match Tcp.continue_ id conn (Session.writeMsg msg conn) (with_world w s) with
  | Ok (out, s') => zlen msg <> 2047 /\ server_ok s' /\ cmd_handlers_ s' = cmd_handlers_ s /\ world s' = w /\
      sent out = if fits (zlen msg) then [(id, frame msg)] else []
  | _ => zlen msg = 2047
  end.
Proof.
  intros Hs Hc. pose proof (continue_write (with_world w s) id conn msg Hs Hc) as Hcw. destruct (fits (zlen msg)) eqn:Ef.
  - destruct Hcw as [-> ?]. unfold fits in Ef. split_and!; try done. lia.
  - destruct (Z.eqb_spec (zlen msg) 2047); [by rewrite Hcw|]. by destruct Hcw as (out & s' & -> & ? & ? & ? & ?).
Qed.

Lemma memcpy_start buf data : zlen data <= zlen buf -> exists b, Session.memcpy buf 0 data = Ok b /\ zlen b = zlen buf.
Proof.
  intros Hl. unfold Session.memcpy. destruct (Z.leb_spec (0 + zlen data) (zlen buf)); [|lia]. eexists. split; [done|].
  rewrite !zlen_app. unfold zlen in *. rewrite length_take, length_drop. lia.
Qed.

Lemma body_outcome s id conn n data : server_ok s -> bytes_ok data -> io_stopped (tcp_server_ s) = false ->
  connections_ (tcp_server_ s) !! id = Some conn -> waits conn = ReadBody n -> zlen data = n ->
  right_outcome (ReadDone id data) s (Tcp.complete (ReadDone id data) s).
Proof.
  intros Hs Hb Hio Hc Hw Hn. pose proof (Hs id conn Hc) as [Hl Hlb Hbd Ho Hfit]. specialize (Hfit n Hw).
  assert (delivers (ReadDone id data) s = Some (id, conn, data)) as Hd.
  { unfold delivers. rewrite Hio, Hc. cbn [mbind option_bind]. by rewrite Hw, (proj2 (Z.eqb_eq _ _) Hn). }
  assert (takes_text (ReadDone id data) s = Some (id, data)) as Ht by (unfold takes_text; rewrite Hd; cbn; by rewrite Hw).
  unfold right_outcome, effect, fatal. rewrite Ht, Hd, Hw. unfold Tcp.complete. rewrite Hio, Hc, Hw, (proj2 (Z.eqb_eq _ _) Hn).
  pose proof Hfit as Hfit'. unfold fits in Hfit. clear Hd Ht.
  destruct (memcpy_start (msg_body_ conn) data) as (body & -> & Hbody); [lia|]. rewrite bind_Ok.
  rewrite (processCmd_spec _ _ _ Hb). unfold serve.
  assert (forall b, session_ok (if b : bool then conn <| msg_body_ := body |> <| server_stop_ := true |> else conn <| msg_body_ := body |>)) as Hok.
  { assert (zlen body = 2048) by congruence. assert (forall k, ReadBody n = ReadBody k -> fits k = true) by congruence.
    intros b. rewrite <- Hw in *. by destruct b. }
  destruct (read_command data) as [| | |name params].
  - rewrite bind_Ok. match goal with |- context [Tcp.continue_ id ?c _ _] => pose proof (reply_outcome s id c [] (world s) Hs (Hok false)) as Hr end.
    destruct (Tcp.continue_ _ _ _ _) as [[out s']| | |]; try done.
    destruct Hr as (_ & ? & ? & Ew & Ho'). split_and!; try done. exists None. by rewrite Ew.
  - rewrite bind_Ok. match goal with |- context [Tcp.continue_ id ?c _ _] => pose proof (reply_outcome s id c [] (world s) Hs (Hok false)) as Hr end.
    destruct (Tcp.continue_ _ _ _ _) as [[out s']| | |]; try done.
    destruct Hr as (_ & ? & ? & Ew & Ho'). split_and!; try done. exists None. by rewrite Ew.
  - done.
  - destruct (Cmd.runCmd (cmd_handlers_ s) name params (world s)) as [[r w]| | |]; try done. rewrite !bind_Ok.
    set (msg := Cmd.processCmdResult r). set (stop := bool_decide _). pose proof (reply_outcome s id _ msg w Hs (Hok stop)) as Hr.
    destruct (Tcp.continue_ _ _ _ _) as [[out s']| | |]; try (by rewrite Hr).
    destruct Hr as (Hne & ? & ? & Ew & Ho'). rewrite (proj2 (Z.eqb_neq _ _) Hne). split_and!; try done. eexists. rewrite Ew. split; [done|].
    by destruct (fits (zlen msg)).
Qed.

(** An operation that delivers no command. *)
Lemma quiet c s out s' : takes_text c s = None -> fatal c s = false -> server_ok s' -> cmd_handlers_ s' = cmd_handlers_ s ->
  sent out = [] -> world s' = world s -> right_outcome c s (Ok (out, s')).
Proof. intros Ht Hf Hs Hh Ho Hw. split; [done|]. split; [done|]. split; [done|]. by rewrite Ht. Qed.

Lemma header_outcome s id conn data : server_ok s -> bytes_ok data -> io_stopped (tcp_server_ s) = false ->
  connections_ (tcp_server_ s) !! id = Some conn -> waits conn = ReadHeader -> zlen data = 2 ->
  right_outcome (ReadDone id data) s (Tcp.complete (ReadDone id data) s).
Proof.
  intros Hs Hb Hio Hc Hw Hn. pose proof (Hs id conn Hc) as [Hl Hlb Hbd Ho _].
  assert (delivers (ReadDone id data) s = Some (id, conn, data)) as Hd.
  { unfold delivers. rewrite Hio, Hc. cbn [mbind option_bind]. by rewrite Hw, Hn. }
  assert (takes_text (ReadDone id data) s = None) as Ht by (unfold takes_text; rewrite Hd; cbn; by rewrite Hw).
  assert (fatal (ReadDone id data) s = (header_length data =? 2047)) as Hf by (unfold fatal; by rewrite Hd, Hw).
  unfold Tcp.complete. rewrite Hio, Hc, Hw, Hn, Z.eqb_refl. pose proof (readMsgBody_spec (conn <| msg_len_ := data |>) Hn Hbd) as Hr.
  change (msg_len_ (conn <| msg_len_ := data |>)) with data in Hr. cbv zeta in Hr. unfold Tcp.continue_.
  destruct (fits (header_length data)) eqn:Ef.
  - destruct Hr as (body & Hbody & ->). rewrite bind_Ok. cbn [waits set]. apply quiet; try done.
    + rewrite Hf. unfold fits in Ef. lia.
    + apply ok_insert; [done|]. split; try done. intros n. cbn. by intros [= <-].
  - rewrite Hr. destruct (header_length data =? 2047) eqn:E; [exact Hf|]. rewrite bind_Ok. apply quiet; try done.
    + by apply (ok_delete _ id conn).
    + apply stop_sends_nothing.
Qed.

Lemma complete_outcome c s : server_ok s -> completion_ok c -> right_outcome c s (Tcp.complete c s).
Proof.
  intros Hs Hc. destruct (io_stopped (tcp_server_ s)) eqn:Hio.
  { unfold Tcp.complete. rewrite Hio. apply quiet; try done; unfold fatal, takes_text, delivers; rewrite Hio; by destruct c. }
  destruct c as [ok lg bg|id data|id|id].
  - unfold Tcp.complete. rewrite Hio. destruct (accepting (tcp_server_ s)); [|by apply quiet].
    apply quiet; try done. destruct ok; destruct (tcp_stop_ _); try done; by apply map_Forall_insert_2; [destruct Hc as (? & ? & ?)|].
  - destruct (connections_ (tcp_server_ s) !! id) as [conn|] eqn:Ec.
    2: { unfold Tcp.complete. rewrite Hio, Ec. apply quiet; try done; unfold fatal, takes_text, delivers; by rewrite Hio, Ec. }
    assert (delivers (ReadDone id data) s = None -> Tcp.complete (ReadDone id data) s = Ok ([], s) ->
      right_outcome (ReadDone id data) s (Tcp.complete (ReadDone id data) s)) as Hq.
    { intros Hd ->. apply quiet; try done; unfold fatal, takes_text; by rewrite Hd. }
    destruct (waits conn) as [|n|d] eqn:Ew.
    + destruct (Z.eqb_spec (zlen data) 2) as [E|E]; [by eapply header_outcome|].
      apply Hq; unfold delivers, Tcp.complete; rewrite Hio, Ec; cbn [mbind option_bind]; by rewrite Ew, (proj2 (Z.eqb_neq _ _) E).
    + destruct (Z.eqb_spec (zlen data) n) as [E|E]; [by eapply body_outcome|].
      apply Hq; unfold delivers, Tcp.complete; rewrite Hio, Ec; cbn [mbind option_bind]; by rewrite Ew, (proj2 (Z.eqb_neq _ _) E).
    + apply Hq; unfold delivers, Tcp.complete; rewrite Hio, Ec; cbn [mbind option_bind]; by rewrite Ew.
  - unfold Tcp.complete. rewrite Hio. destruct (connections_ (tcp_server_ s) !! id) as [conn|] eqn:Ec; [|by apply quiet].
    destruct (waits conn) as [|n|d] eqn:Ew; [by apply quiet|by apply quiet|]. destruct (server_stop_ conn).
    + unfold Tcp.cmd_stop. destruct (cmd_stop_ s); [by apply quiet|]. unfold Tcp.stop. destruct (tcp_stop_ (tcp_server_ s)); [by apply quiet|].
      unfold Sessions.stop_all. apply quiet; try done. apply (stop_all_sends_nothing (tcp_server_ s)).
    + unfold Tcp.continue_. rewrite bind_Ok. apply quiet; try done. apply ok_insert; [done|]. pose proof (Hs id conn Ec) as [? ? ? ? ?].
      by split.
  - unfold Tcp.complete. rewrite Hio. destruct (connections_ (tcp_server_ s) !! id) as [conn|] eqn:Ec; [|by apply quiet].
    unfold Tcp.continue_. rewrite bind_Ok. apply quiet; try done; [by apply (ok_delete _ id conn)|apply stop_sends_nothing].
Qed.

(** ** Any interleaving of sessions *)

(** The texts that reach the handlers, in the order in which they arrive. *)
Fixpoint texts (cs : list completion) s : list (nat * list Z) :=
  match cs with
  | [] => []
  | c :: cs => option_list (takes_text c s) ++ match Tcp.complete c s with Ok (_, s') => texts cs s' | _ => [] end
  end.

(** The commands one after the other, each with its answer. *)
Fixpoint serve_all (hs : gmap (list Z) H) (ts : list (nat * list Z)) (w : W) : result (list (nat * list Z) * W) :=
  match ts with
  | [] => Ok ([], w)
  | (id, data) :: ts =>
      '(reply, w) ← serve hs data w;
      '(replies, w) ← serve_all hs ts w;
      Ok (match reply with Some f => [(id, f)] | None => [] end ++ replies, w)
  end.

(** The first fatal operation of a sequence. *)
Fixpoint ends (cs : list completion) s : bool :=
  match cs with
  | [] => false
  | c :: cs => fatal c s || match Tcp.complete c s with Ok (_, s') => ends cs s' | _ => true end
  end.

Lemma run_outcome cs s : server_ok s -> Forall completion_ok cs ->
  match Tcp.run cs s with
  | Ok (out, s') => ends cs s = false /\ server_ok s' /\ cmd_handlers_ s' = cmd_handlers_ s /\
      serve_all (cmd_handlers_ s) (texts cs s) (world s) = Ok (sent out, world s')
  | _ => ends cs s = true
  end.
Proof.
  revert s. induction cs as [|c cs IH]; intros s Hs Hc; [done|]. apply Forall_cons in Hc as [Hc Hcs].
  pose proof (complete_outcome c s Hs Hc) as H1. cbn [Tcp.run ends texts]. unfold right_outcome in H1.
  destruct (Tcp.complete c s) as [[out s1]| | |]; try (rewrite H1; done).
  destruct H1 as (Hf & Hs1 & Hh & He). rewrite Hf, bind_Ok. cbn [orb]. specialize (IH s1 Hs1 Hcs).
  destruct (Tcp.run cs s1) as [[out' s2]| | |]; try done. destruct IH as (Ends & Hs2 & Hh2 & Hall). rewrite bind_Ok.
  split; [done|]. split; [done|]. split; [congruence|]. rewrite Hh in Hall, Hh2. rewrite sent_app.
  destruct (takes_text c s) as [[id data]|].
  - destruct He as (reply & E & ->). change (option_list (Some (id, data)) ++ texts cs s1) with ((id, data) :: texts cs s1). cbn [serve_all]. rewrite E, bind_Ok, Hall, bind_Ok. done.
  - destruct He as [-> <-]. exact Hall.
Qed.

(** ** One exchange *)
Definition exchange (id : nat) (data : list Z) : list completion :=
  [ReadDone id [zlen data / 256; zlen data mod 256]; ReadDone id data; WriteDone id].

Definition open_session (id : nat) s : Prop :=
  io_stopped (tcp_server_ s) = false /\
  exists conn, connections_ (tcp_server_ s) !! id = Some conn /\ waits conn = ReadHeader /\ server_stop_ conn = false.

Lemma header_of_length n : 0 <= n < 65536 -> header_length [n / 256; n mod 256] = n /\ bytes_ok [n / 256; n mod 256].
Proof.
  intros Hn. split; [cbn [header_length]; pose proof (Z.div_mod n 256); lia|]. pose proof (Z.mod_pos_bound n 256).
  assert (0 <= n / 256 < 256) by (split; [apply Z.div_pos; lia|apply Z.div_lt_upper_bound; lia]).
  repeat constructor; lia.
Qed.

(** The session [id] of [s] waits for [p]; everything but that session and the
    state of the handlers is as in [s0]. *)
Record at_point (s0 : CmdServer H W) (id : nat) (p : pending) (stop : bool) s : Prop := MkAtPoint {
  ap_ok : server_ok s; ap_io : io_stopped (tcp_server_ s) = false; ap_handlers : cmd_handlers_ s = cmd_handlers_ s0;
  ap_conn : exists conn, connections_ (tcp_server_ s) !! id = Some conn /\ waits conn = p /\ server_stop_ conn = stop;
  ap_others : forall k, k <> id -> connections_ (tcp_server_ s) !! k = connections_ (tcp_server_ s0) !! k }.

Lemma read_header s0 id s n : at_point s0 id ReadHeader false s -> fits n = true ->
  exists s', Tcp.complete (ReadDone id [n / 256; n mod 256]) s = Ok ([], s') /\ at_point s0 id (ReadBody n) false s' /\ world s' = world s.
Proof.
  intros [Hs Hio Hh (conn & Ec & Ew & Est) Hot] Hf. pose proof (Hs id conn Ec) as [Hl Hlb Hbd Ho _].
  destruct (header_of_length n) as [Hn Hb]; [unfold fits in Hf; lia|].
  unfold Tcp.complete. rewrite Hio, Ec, Ew. change (zlen [n / 256; n mod 256] =? 2) with true. cbv iota.
  pose proof (readMsgBody_spec (conn <| msg_len_ := [n / 256; n mod 256] |>) eq_refl Hbd) as Hr.
  change (msg_len_ (conn <| msg_len_ := [n / 256; n mod 256] |>)) with [n / 256; n mod 256] in Hr. cbv zeta in Hr. rewrite Hn, Hf in Hr.
  destruct Hr as (body & Hbody & ->). unfold Tcp.continue_. rewrite bind_Ok. eexists. split; [done|]. split; [|done]. split; try done.
  - apply ok_insert; [done|]. split; try done. cbn. by intros k [= <-].
  - eexists. split; [apply lookup_insert_eq|]. by split.
  - intros k Hk. etransitivity; [by apply lookup_insert_ne|by apply Hot].
Qed.

Lemma read_text s0 id s data name params r w : at_point s0 id (ReadBody (zlen data)) false s -> bytes_ok data ->
  read_command data = Command name params -> Cmd.runCmd (cmd_handlers_ s0) name params (world s) = Ok (r, w) ->
  fits (zlen (Cmd.processCmdResult r)) = true ->
  exists s', Tcp.complete (ReadDone id data) s = Ok ([Sent id (frame (Cmd.processCmdResult r))], s') /\
    at_point s0 id (Write (frame (Cmd.processCmdResult r))) (bool_decide (name = bytes_of "stop")) s' /\ world s' = w.
Proof.
  intros [Hs Hio Hh (conn & Ec & Ew & Est) Hot] Hb Hc Hr Hf. pose proof (Hs id conn Ec) as [Hl Hlb Hbd Ho Hfit]. specialize (Hfit _ Ew).
  unfold Tcp.complete. rewrite Hio, Ec, Ew, Z.eqb_refl.
  destruct (memcpy_start (msg_body_ conn) data) as (body & -> & Hbody); [unfold fits in Hfit; lia|]. rewrite bind_Ok.
  rewrite (processCmd_spec _ _ _ Hb), Hc, Hh, Hr, !bind_Ok. set (msg := Cmd.processCmdResult r) in *. set (stop := bool_decide _).
  match goal with |- context [Tcp.continue_ id ?c _ ?x] => assert (session_ok c) as Hok; [|pose proof (continue_write x id c msg Hs Hok) as Hcw] end.
  { assert (zlen body = 2048) by congruence. assert (forall k, ReadBody (zlen data) = ReadBody k -> fits k = true) by congruence.
    rewrite <- Ew in *. by destruct stop. }
  rewrite Hf in Hcw. destruct Hcw as [-> Hs']. eexists. split; [done|]. split; [|done]. split; try done.
  - eexists. split; [apply lookup_insert_eq|]. split; [done|]. by destruct stop.
  - intros k Hk. etransitivity; [by apply lookup_insert_ne|by apply Hot].
Qed.

Lemma write_done s0 id s d : at_point s0 id (Write d) false s ->
  exists s', Tcp.complete (WriteDone id) s = Ok ([], s') /\ at_point s0 id ReadHeader false s' /\ world s' = world s.
Proof.
  intros [Hs Hio Hh (conn & Ec & Ew & Est) Hot]. pose proof (Hs id conn Ec) as [? ? ? ? _].
  unfold Tcp.complete. rewrite Hio, Ec, Ew, Est. unfold Tcp.continue_. rewrite bind_Ok. eexists. split; [done|]. split; [|done]. split; try done.
  - by apply ok_insert.
  - eexists. split; [apply lookup_insert_eq|]. by split.
  - intros k Hk. etransitivity; [by apply lookup_insert_ne|by apply Hot].
Qed.

(** After the answer to [stop] every session is closed and the server ends. *)
Lemma stop_done s0 id s d : at_point s0 id (Write d) true s -> cmd_stop_ s = false -> tcp_stop_ (tcp_server_ s) = false ->
  exists out s', Tcp.complete (WriteDone id) s = Ok (out, s') /\ sent out = [] /\ world s' = world s /\
    connections_ (tcp_server_ s') = ∅ /\ io_stopped (tcp_server_ s') = true.
Proof.
  intros [Hs Hio Hh (conn & Ec & Ew & Est) Hot] Hst Ht. unfold Tcp.complete. rewrite Hio, Ec, Ew, Est.
  unfold Tcp.cmd_stop. rewrite Hst. unfold Tcp.stop. rewrite Ht. unfold Sessions.stop_all.
  eexists _, _. split; [done|]. split; [|done]. apply (stop_all_sends_nothing (tcp_server_ s)).
Qed.

(** A command that fits is answered, and the session waits for the next. *)
Lemma exchange_done s0 id s data name params r w : at_point s0 id ReadHeader false s -> bytes_ok data -> fits (zlen data) = true ->
  read_command data = Command name params -> name <> bytes_of "stop" ->
  Cmd.runCmd (cmd_handlers_ s0) name params (world s) = Ok (r, w) -> fits (zlen (Cmd.processCmdResult r)) = true ->
  exists s', Tcp.run (exchange id data) s = Ok ([Sent id (frame (Cmd.processCmdResult r))], s') /\
    at_point s0 id ReadHeader false s' /\ world s' = w.
Proof.
  intros Hp Hb Hf Hc Hns Hr Hf'. unfold exchange. cbn [Tcp.run].
  destruct (read_header s0 id s (zlen data) Hp Hf) as (s1 & -> & Hp1 & Hw1). rewrite <- Hw1 in Hr.
  destruct (read_text s0 id s1 data name params r w Hp1 Hb Hc Hr Hf') as (s2 & E2 & Hp2 & Hw2). rewrite bind_Ok, E2, bind_Ok.
  rewrite bool_decide_false in Hp2 by done. destruct (write_done s0 id s2 _ Hp2) as (s3 & -> & Hp3 & Hw3). rewrite bind_Ok.
  exists s3. split; [done|]. split; [done|]. congruence.
Qed.

(** ** A conversation *)
Fixpoint execute (hs : gmap (list Z) H) (cmds : list (list Z)) (w : W) : result (list CmdResult * W) :=
  match cmds with
  | [] => Ok ([], w)
  | data :: cmds =>
      match read_command data with
      | Command name params =>
          throw_if (bool_decide (name = bytes_of "stop")) UnknownCmd;;
          '(r, w) ← Cmd.runCmd hs name params w;
          '(rs, w) ← execute hs cmds w;
          Ok (r :: rs, w)
      | _ => Throw UnknownCmd
      end
  end.

Lemma run_app cs cs' s : Tcp.run (cs ++ cs') s = ('(out, s) ← Tcp.run cs s; '(out', s) ← Tcp.run cs' s; Ok (out ++ out', s)).
Proof.
  revert s. induction cs as [|c cs IH]; intros s; cbn [app Tcp.run].
  - rewrite bind_Ok. destruct (Tcp.run cs' s) as [[out s']| | |]; done.
  - destruct (Tcp.complete c s) as [[out s1]| | |]; [rewrite !bind_Ok|done..]. rewrite IH.
    destruct (Tcp.run cs s1) as [[out1 s2]| | |]; [rewrite !bind_Ok|done..].
    destruct (Tcp.run cs' s2) as [[out2 s3]| | |]; [rewrite !bind_Ok|done..]. by rewrite app_assoc.
Qed.

Lemma conversation s0 id cmds : forall s rs w, at_point s0 id ReadHeader false s ->
  Forall (fun data => bytes_ok data /\ fits (zlen data) = true) cmds ->
  execute (cmd_handlers_ s0) cmds (world s) = Ok (rs, w) -> Forall (fun r => fits (zlen (Cmd.processCmdResult r)) = true) rs ->
  exists s', Tcp.run (mjoin (exchange id <$> cmds)) s = Ok ((fun r => Sent id (frame (Cmd.processCmdResult r))) <$> rs, s') /\
    at_point s0 id ReadHeader false s' /\ world s' = w.
Proof.
  induction cmds as [|data cmds IH]; intros s rs w Hp Hc; cbn [execute].
  { intros [= <- <-] _. by exists s. }
  apply Forall_cons in Hc as [[Hb Hf] Hc]. destruct (read_command data) as [| | |name params] eqn:Er; try done.
  intros ([] & Hns%throw_if_ok & ([r w1] & E1 & ([rs1 w2] & E2 & [= <- <-])%bind_ok)%bind_ok)%bind_ok [Hr Hrs]%Forall_cons.
  apply bool_decide_eq_false in Hns.
  destruct (exchange_done s0 id s data name params r w1 Hp Hb Hf Er Hns E1 Hr) as (s1 & Ex & Hp1 & Hw1). rewrite <- Hw1 in E2.
  destruct (IH s1 rs1 w2 Hp1 Hc E2 Hrs) as (s2 & Ey & Hp2 & Hw2). exists s2. split; [|done].
  change (mjoin (exchange id <$> data :: cmds)) with (exchange id data ++ mjoin (exchange id <$> cmds)).
  by rewrite run_app, Ex, bind_Ok, Ey, bind_Ok.
Qed.
End Server.
