(* ===== verification/Main.v ===== *)
(** The process: bin/kea_slave.cpp, with the handlers of its commands. *)
From stdpp Require Import base list numbers option strings gmap.
From Stdlib Require Import ZArith Lia.
From S2P Require Import Prelude Buffer HwAddr Encode Text Json Logging Address DnsName OptionDef Options Pkt.
From S2P Require Import Hooks Nic Subnet OptionText ClientClass Config Statistics Hosts Control CmdServer.

(** The objects that handle commands, and what they work on: the process and
    the configuration file. *)
Inductive Handler : Set := DhcpServer | PacketStatistics.
Record Process := MkProcess { slave_ : Slave; config_file_ : list Z }.

Section Main.
Context `{Inet6} `{TransformWidth} `{LexicalCast}.
Variables (freed : list Z -> string) (sys : FileSystem) (detected : IfaceMgr) (raw_socket : bool)
  (hardware_concurrency : Z) (disk : string -> option (Library (option Json))) (sh : ServerHooks)
  (resolve : list Z -> Z -> result unit) (pkt_queue : Z -> result unit) (what : exn -> list Z).

(** An outcome of the controlled server; an exception leaves the process to
    whoever catches it. *)
Definition finish {A} (r : result A * Slave) (file : list Z) : result (A * Process) :=
  match r with
  | (Ok a, s) => Ok (a, MkProcess s file)
  | (Throw e, _) => Throw e
  | (Crash, _) => Crash
  | (NoFuel, _) => NoFuel
  end.

Definition handlers : CmdHandler Handler Process := fun h cmd_name _ p =>
  match h with
  | DhcpServer =>
      finish (Ctrl.handleCmd freed raw_socket hardware_concurrency disk sh resolve pkt_queue what (config_file_ p) cmd_name (slave_ p)) (config_file_ p)
  | PacketStatistics =>
      match statistics_ (slave_ p) with
      | Some st => Ok (Stat.handleCmd cmd_name st, p)
      | None => Crash
      end
  end.

(** Before [main]: nothing is set up. *)
Definition before_main (stop_flag : bool) (worker_count : Z) : Slave :=
  MkSlave None (MkLibDHCP Meta.empty ∅ ∅) Log.make (MkLogOutput ∅ []) detected None (Libs.hooks_init sh) Classes.empty []
    (MkSubnetMgr []) Null Null [] stop_flag worker_count 0 false.

Definition register_commands : result (gmap (list Z) Handler) :=
  m ← Cmd.registerHandler (bytes_of "stop") DhcpServer ∅;
  m ← Cmd.registerHandler (bytes_of "reconfig") DhcpServer m;
  Cmd.registerHandler (bytes_of "statis_lps") PacketStatistics m.

Definition main (s : Slave) (file : list Z) : result (CmdServer Handler Process) :=
  '(_, p) ← finish ((_ ← Ctrl.ControlledDhcpv4Srv sys detected file;
                    Ctrl.run freed raw_socket hardware_concurrency disk sh resolve pkt_queue) s) file;
  cmd_handlers ← register_commands;
  Ok (MkCmdServer cmd_handlers false Tcp.make p).
End Main.
