(* ===== verification/MainFacts.v ===== *)
(** Facts about the process: after start-up it serves its configuration. *)
From stdpp Require Import base list numbers option strings gmap.
From Stdlib Require Import ZArith Lia.
From S2P Require Import Prelude Buffer HwAddr Encode Text Json Logging Address DnsName OptionDef Options Pkt.
From S2P Require Import Hooks HooksFacts Nic Subnet OptionText ClientClass Config Statistics Hosts Control ControlFacts CmdServer CmdFacts Main.

(** What the constructor leaves to [run]. *)
Definition untouched (s s' : Slave) : Prop :=
  hooks_mgr_ s' = hooks_mgr_ s /\ pinger_ s' = pinger_ s /\ rpc_ s' = rpc_ s /\ at_exit s' = at_exit s.

#[global] Instance untouched_preorder : PreOrder untouched.
Proof. split; [by intros s|]. intros a b c (? & ? & ? & ?) (? & ? & ? & ?). split_and!; congruence. Qed.

Lemma bind_inv {A B} (m : Ctl A) (f : A -> Ctl B) s b s' : (x ← m; f x) s = (Ok b, s') -> exists a s1, m s = (Ok a, s1) /\ f a s1 = (Ok b, s').
Proof. rewrite ctl_bind. destruct (m s) as [[a| | |] s1]; [by exists a, s1|done..]. Qed.

Lemma update_inv f s s' : update_ f s = (Ok tt, s') -> f s = Ok s'.
Proof. unfold update_. by destruct (f s); intros [= <-]. Qed.

Section Main.
Context `{Inet6} `{TransformWidth} `{LexicalCast}.
Variables (freed : list Z -> string) (sys : FileSystem) (detected : IfaceMgr) (raw_socket : bool)
  (hardware_concurrency : Z) (disk : string -> option (Library (option Json))) (sh : ServerHooks)
  (resolve : list Z -> Z -> result unit) (pkt_queue : Z -> result unit).

Lemma initLog_inv s s' : Ctrl.initLog sys s = (Ok tt, s') -> untouched s s' /\ conf_ s' = conf_ s /\ lib_ s' = lib_ s.
Proof.
  unfold Ctrl.initLog. intros (j & _ & (r & _ & E)%bind_ok)%update_inv%bind_ok. destruct r as [[[path level] en]|]; [|by injection E as <-].
  apply bind_ok in E as ([l o] & _ & [= <-]). done.
Qed.

Lemma open_inv port l s s' : for_ (Ctrl.open_interface port) l s = (Ok tt, s') -> untouched s s' /\ conf_ s' = conf_ s /\ lib_ s' = lib_ s.
Proof.
  revert s. induction l as [|i l IH]; intros s; cbn [for_]; [by intros [= <-]|].
  intros ([] & s1 & E & Hl)%bind_inv. destruct (IH _ Hl) as (Hu & Hc & Hlib).
  unfold Ctrl.open_interface in E. apply update_inv in E. apply bind_ok in E as (t & _ & E).
  assert (untouched s s1 /\ conf_ s1 = conf_ s /\ lib_ s1 = lib_ s) as (Hu1 & Hc1 & Hl1).
  { destruct t as [|a [|b [|]]]; try (by injection E as <-). by apply bind_ok in E as ([fd m] & _ & [= <-]). }
  split; [by transitivity s1|]. split; congruence.
Qed.

Lemma initNic_inv s s' : Ctrl.initNic detected s = (Ok tt, s') -> untouched s s' /\ conf_ s' = conf_ s /\ lib_ s' = lib_ s.
Proof.
  unfold Ctrl.initNic. rewrite ctl_modify. intros (is_ & s1 & E1 & (port & s2 & E2 & E3)%bind_inv)%bind_inv.
  unfold Ctrl.from_root, pure_ in E1, E2. injection E1 as _ <-. injection E2 as _ <-. apply open_inv in E3. done.
Qed.

(** The constructor reads the configuration and sets up the option tables. *)
Lemma constructed file s s' : Ctrl.ControlledDhcpv4Srv sys detected file s = (Ok tt, s') -> exists j,
  parseString file = Ok j /\ conf_ s' = Some j /\ Lib.initOptions (lib_ s) = Ok (lib_ s') /\ statistics_ s' = Some Stat.init /\ untouched s s'.
Proof.
  unfold Ctrl.ControlledDhcpv4Srv, Ctrl.parseFile. intros ([] & s1 & (j & Ej & [= <-])%update_inv%bind_ok & G1)%bind_inv.
  apply bind_inv in G1 as ([] & s2 & E2%initLog_inv & G2). apply bind_inv in G2 as ([] & s3 & (l & El & [= <-])%update_inv%bind_ok & G3).
  apply bind_inv in G3 as ([] & s4 & E4%initNic_inv & [= <-]). destruct E2 as (Hu2 & Hc2 & Hl2), E4 as (Hu4 & Hc4 & Hl4).
  exists j. split; [done|]. split; [exact (eq_trans Hc4 Hc2)|]. split.
  { change (Lib.initOptions (lib_ s) = Ok (lib_ s4)). rewrite <- (Hl2 : lib_ s2 = lib_ s), El. f_equal. exact (eq_sym Hl4). }
  split; [done|]. transitivity s2; [exact Hu2|]. exact Hu4.
Qed.

Lemma commands_registered : register_commands = Ok
  (<[bytes_of "statis_lps" := PacketStatistics]> (<[bytes_of "reconfig" := DhcpServer]> {[bytes_of "stop" := DhcpServer]})).
Proof. by vm_compute. Qed.

Hypothesis Hsh : hooks_inv sh.
Hypothesis Hdisk : forall name lib, disk name = Some lib -> library_returns lib.
Hypothesis Hraw : raw_socket = true.

(** The process [main] hands to the command server, for the settings [st]. *)
Definition started (file : list Z) (j : Json) (st : Settings) (srv : CmdServer Handler Process) : Prop :=
  serving freed hardware_concurrency disk sh resolve pkt_queue j st (slave_ (world srv)) /\
  at_exit (slave_ (world srv)) = [ExitRpc; ExitPinger] /\ statistics_ (slave_ (world srv)) = Some Stat.init /\
  config_file_ (world srv) = file /\ server_ok srv.

Section Start.
Variables (stop_flag : bool) (worker_count : Z) (file : list Z).
Local Abbreviation construct := (Ctrl.ControlledDhcpv4Srv sys detected file (before_main detected sh stop_flag worker_count)).
Local Abbreviation main_ := (main freed sys detected raw_socket hardware_concurrency disk sh resolve pkt_queue (before_main detected sh stop_flag worker_count) file).

(** [main] reaches the command server exactly when the configuration has
    settings. *)
Lemma main_runs s2 : construct = (Ok tt, s2) -> exists j, parseString file = Ok j /\ Lib.initOptions (MkLibDHCP Meta.empty ∅ ∅) = Ok (lib_ s2) /\
  match settings freed hardware_concurrency disk resolve pkt_queue j (lib_ s2) with
  | Ok st => exists srv, main_ = Ok srv /\ started file j st srv
  | r => main_ = Ctrl.no_value r
  end.
Proof.
  intros Ec. destruct (constructed _ _ _ Ec) as (j & Ej & Hc & Hl & Hst & Hh & Hp & Hrp & He). exists j. split; [done|]. split; [done|].
  assert (startable disk sh j s2) as Hstart.
  { split; [done|rewrite Hh; exists []; by apply init_serves|by rewrite Hp|by rewrite Hrp]. }
  destruct (run_does freed raw_socket hardware_concurrency disk sh resolve pkt_queue Hsh Hdisk Hraw s2 j [] Hstart) as (s3 & Er & _).
  { rewrite Hh. by apply init_serves. }
  unfold main. rewrite (ctl_ok _ _ _ _ _ Ec). unfold run_ in Er. rewrite Er.
  destruct (settings freed hardware_concurrency disk resolve pkt_queue j (lib_ s2)) as [st| | |] eqn:Es; [|reflexivity..].
  destruct (run_serving freed raw_socket hardware_concurrency disk sh resolve pkt_queue Hsh Hdisk Hraw j st s2 Hstart Es) as (s4 & Er4 & Hs4 & Hr4 & He4).
  unfold run_ in Er4. rewrite Er in Er4. injection Er4 as <-.
  eexists. split; [by cbn [finish unit_of fmap]; rewrite commands_registered|]. split; [done|].
  split; [by cbn [world slave_]; rewrite He4, He|]. split; [|done]. injection Hr4 as _ _ _ _ E5. cbn [world slave_]. by rewrite E5.
Qed.

Lemma main_stops r s2 : construct = (r, s2) -> is_ok r = false -> main_ = Ctrl.no_value r.
Proof. intros Ec Hr. unfold main. rewrite ctl_bind, Ec. by destruct r. Qed.

Lemma main_serves srv : main_ = Ok srv -> exists j st, parseString file = Ok j /\ started file j st srv.
Proof.
  destruct construct as [r s2] eqn:Ec. intros Hm. destruct (is_ok r) eqn:Hr.
  - destruct r as [[]| | |]; [|done..]. destruct (main_runs s2 Ec) as (j & Ej & _ & Ho). exists j.
    destruct (settings freed hardware_concurrency disk resolve pkt_queue j (lib_ s2)) as [st| | |]; [|rewrite Hm in Ho; discriminate Ho..].
    destruct Ho as (srv' & E & Hs). rewrite Hm in E. injection E as <-. by exists st.
  - rewrite (main_stops _ _ Ec Hr) in Hm. by destruct r.
Qed.
End Start.
End Main.
