(* ===== verification/Threads.v ===== *)
(** The threads of the controlled server and how [stop] ends them:
    [Dhcpv4SrvContext] and [runWorkers], [stop] of server/ctrl_server.cpp and
    [drainQueue] of server/ctrl_server_init.h.

    A step is one access to a queue or one pass of a loop by one thread.  A
    thread that has to wait takes no step. *)
From stdpp Require Import base list numbers option.
From Stdlib Require Import ZArith Lia.
From S2P Require Import Prelude.

(** ** [folly::MPMCQueue] *)

(** The operations that are used; [read] and [write] fail where the blocking
    variants wait. *)
Class MPMCQueue (A Q : Type) := {
  isEmpty : Q -> bool;
  read : Q -> option (A * Q);
  write : A -> Q -> option Q }.

(** A queue hands out its elements in the order they were written and holds
    at most [capacity] of them. *)
Class MPMCQueueLaws (A Q : Type) `{!MPMCQueue A Q} (capacity : nat) := {
  elements : Q -> list A;
  isEmpty_law q : isEmpty q = true <-> elements q = [];
  read_law q : match elements q with
    | [] => read q = None
    | a :: l => exists q', read q = Some (a, q') /\ elements q' = l
    end;
  write_law a q : if decide (length (elements q) < capacity)%nat
    then exists q', write a q = Some q' /\ elements q' = elements q ++ [a]
    else write a q = None }.

(** ** The threads *)
Inductive receiver (P : Type) : Type := RReady | RWriting (p : P) | RDone.
Arguments RReady {P}.
Arguments RWriting {P} p.
Arguments RDone {P}.

(** A worker that processes a query, with the answers it has yet to write. *)
Inductive worker (P : Type) : Type := WReady | WBusy (answers : list P) | WDone.
Arguments WReady {P}.
Arguments WBusy {P} answers.
Arguments WDone {P}.

(** Where [stop] is. *)
Inductive stopper : Set :=
| DrainIn | ReadIn | JoinReceiver | StopEngines | StopWorkers (k : nat) | DrainOut | ReadOut
| EndSender | JoinSender | JoinWorkers | Stopped.

(** [callbacks]: the answers that the RPC client and the ping check may still
    produce; [writing]: those that one of their threads is writing. *)
Record Threads (P Q : Type) := MkThreads {
  in_queue : Q; out_queue : Q;
  recv_thread : receiver P; worker_threads : list (worker P); send_done : bool;
  callbacks : list P; writing : list P; stop_pc : stopper }.
Arguments MkThreads {P Q}.
Arguments in_queue {P Q}.
Arguments out_queue {P Q}.
Arguments recv_thread {P Q}.
Arguments worker_threads {P Q}.
Arguments send_done {P Q}.
Arguments callbacks {P Q}.
Arguments writing {P Q}.
Arguments stop_pc {P Q}.

(** Which thread takes the next step.  [Receive]: [receive4] returns, with a
    packet or at its timeout; [Callback i] and [CallbackWrite i]: a thread of
    the RPC client or of the ping check. *)
Inductive turn : Set := Receive | Worker (i : nat) | Sender | Callback (i : nat) | CallbackWrite (i : nat) | Stop.

Module Thread.
Section Thread.
Context {P Q : Type} `{!MPMCQueue (option P) Q}.

(** What a query makes its worker write to the queue of answers, and what the
    RPC client and the ping check may write for it later. *)
Variable process : P -> list P * list P.

#[local] Instance Threads_eta : Eta (Threads P Q) := fun s =>
  MkThreads (in_queue s) (out_queue s) (recv_thread s) (worker_threads s) (send_done s) (callbacks s) (writing s) (stop_pc s).

(** The flag is set, so [receive4] returns to a [break]; a packet that was
    read before is still written. *)
Definition recv_step (s : Threads P Q) : option (Threads P Q) :=
  match recv_thread s with
  | RReady => Some (s <| recv_thread := RDone |>)
  | RWriting p => q ← write (Some p) (in_queue s); Some (s <| in_queue := q |> <| recv_thread := RReady |>)
  | RDone => None
  end.

(** [Dhcpv4SrvContext::run]; once the RPC client is stopped its callbacks are
    lost. *)
Definition stopped_engines (pc : stopper) : bool :=
  match pc with DrainIn | ReadIn | JoinReceiver | StopEngines => false | _ => true end.
Definition worker_step (i : nat) (s : Threads P Q) : option (Threads P Q) :=
  w ← worker_threads s !! i;
  match w with
  | WReady =>
      '(query, q) ← read (in_queue s);
      match query with
      | None => Some (s <| in_queue := q |> <| worker_threads := <[i := WDone]> (worker_threads s) |>)
      | Some p =>
          Some (s <| in_queue := q |> <| worker_threads := <[i := WBusy (process p).1]> (worker_threads s) |>
                  <| callbacks := if stopped_engines (stop_pc s) then callbacks s else callbacks s ++ (process p).2 |>)
      end
  | WBusy [] => Some (s <| worker_threads := <[i := WReady]> (worker_threads s) |>)
  | WBusy (a :: answers) =>
      q ← write (Some a) (out_queue s);
      Some (s <| out_queue := q |> <| worker_threads := <[i := WBusy answers]> (worker_threads s) |>)
  | WDone => None
  end.

(** The sender: [rsp] is sent, [nullptr] ends the loop. *)
Definition send_step (s : Threads P Q) : option (Threads P Q) :=
  if send_done s then None
  else
    '(rsp, q) ← read (out_queue s);
    Some (s <| out_queue := q |> <| send_done := match rsp with None => true | Some _ => false end |>).

Definition callback_step (i : nat) (s : Threads P Q) : option (Threads P Q) :=
  a ← callbacks s !! i;
  Some (s <| callbacks := delete i (callbacks s) |> <| writing := a :: writing s |>).
Definition callback_write (i : nat) (s : Threads P Q) : option (Threads P Q) :=
  a ← writing s !! i;
  q ← write (Some a) (out_queue s);
  Some (s <| out_queue := q |> <| writing := delete i (writing s) |>).

Definition is_done (w : worker P) : bool := match w with WDone => true | _ => false end.

(** [drainQueue]: [isEmpty], then [blockingRead]. *)
Definition drain (q : Q) (read_next done : stopper) : stopper := if isEmpty q then done else read_next.

Definition stop_step (s : Threads P Q) : option (Threads P Q) :=
  match stop_pc s with
  | DrainIn => Some (s <| stop_pc := drain (in_queue s) ReadIn JoinReceiver |>)
  | ReadIn => '(_, q) ← read (in_queue s); Some (s <| in_queue := q |> <| stop_pc := DrainIn |>)
  | JoinReceiver => match recv_thread s with RDone => Some (s <| stop_pc := StopEngines |>) | _ => None end
  | StopEngines =>
      match writing s with
      | [] => Some (s <| callbacks := [] |> <| stop_pc := StopWorkers 0 |>)
      | _ :: _ => None
      end
  | StopWorkers k =>
      if (k <? length (worker_threads s))%nat then
        Some (s <| in_queue := default (in_queue s) (write None (in_queue s)) |> <| stop_pc := StopWorkers (S k) |>)
      else Some (s <| stop_pc := DrainOut |>)
  | DrainOut => Some (s <| stop_pc := drain (out_queue s) ReadOut EndSender |>)
  | ReadOut => '(_, q) ← read (out_queue s); Some (s <| out_queue := q |> <| stop_pc := DrainOut |>)
  | EndSender => q ← write None (out_queue s); Some (s <| out_queue := q |> <| stop_pc := JoinSender |>)
  | JoinSender => if send_done s then Some (s <| stop_pc := JoinWorkers |>) else None
  | JoinWorkers => if forallb is_done (worker_threads s) then Some (s <| stop_pc := Stopped |>) else None
  | Stopped => None
  end.

Definition step (t : turn) : Threads P Q -> option (Threads P Q) :=
  match t with
  | Receive => recv_step
  | Worker i => worker_step i
  | Sender => send_step
  | Callback i => callback_step i
  | CallbackWrite i => callback_write i
  | Stop => stop_step
  end.

Fixpoint run (ts : list turn) (s : Threads P Q) : option (Threads P Q) :=
  match ts with [] => Some s | t :: ts => s ← step t s; run ts s end.
End Thread.
End Thread.
