(* ===== verification/ThreadsFacts.v ===== *)
(** Facts about the end of the threads: every run of [stop] is finite, and
    what it may end with. *)
From stdpp Require Import base list numbers option.
From Stdlib Require Import ZArith Lia.
From S2P Require Import Prelude Threads.

(** ** Packets and end marks in a queue *)
Section Items.
Context {P : Type}.
Implicit Types l : list (option P).

Definition packet_of (x : option P) : nat := match x with Some _ => 1 | None => 0 end.
Definition mark_of (x : option P) : nat := match x with Some _ => 0 | None => 1 end.
Definition packets l : nat := sum_list_with packet_of l.
Definition nulls l : nat := sum_list_with mark_of l.

Lemma packets_nulls l : (length l = packets l + nulls l)%nat.
Proof. unfold packets, nulls. induction l as [|[p|] l IH]; cbn; lia. Qed.
Lemma packets_snoc l x : packets (l ++ [x]) = (packets l + packet_of x)%nat.
Proof. unfold packets. rewrite sum_list_with_app. cbn. lia. Qed.
Lemma nulls_snoc l x : nulls (l ++ [x]) = (nulls l + mark_of x)%nat.
Proof. unfold nulls. rewrite sum_list_with_app. cbn. lia. Qed.

(** No packet stands behind an end mark. *)
Fixpoint ordered l : Prop :=
  match l with [] => True | None :: l => packets l = 0%nat | Some _ :: l => ordered l end.

Lemma ordered_tail x l : ordered (x :: l) -> ordered l.
Proof.
  destruct x as [p|]; [done|]. cbn. unfold packets. induction l as [|[p|] l IH]; cbn; [done|lia|done].
Qed.
Lemma ordered_packet l p : ordered l -> nulls l = 0%nat -> ordered (l ++ [Some p]).
Proof. induction l as [|[q|] l IH]; cbn; [done|auto|lia]. Qed.
Lemma ordered_mark l : ordered l -> ordered (l ++ [None]).
Proof. induction l as [|[q|] l IH]; cbn; [done|done|]. intros H. rewrite packets_snoc. cbn. lia. Qed.
End Items.

Lemma sum_insert {A} (f : A -> nat) l i x y : l !! i = Some y ->
  (sum_list_with f (<[i := x]> l) + f y = sum_list_with f l + f x)%nat.
Proof.
  revert i. induction l as [|a l IH]; intros [|i]; simpl; try done; [intros [= ->]; lia|]. intros H. specialize (IH i H). lia.
Qed.
Lemma sum_all {A} (f : A -> nat) l : (forall a, f a <= 1)%nat -> (sum_list_with f l <= length l)%nat.
Proof. intros Hf. induction l as [|a l IH]; cbn; [lia|]. specialize (Hf a). lia. Qed.

(** ** The measure and the invariant *)
Section Facts.
Context {P Q : Type} `{!MPMCQueue (option P) Q} (capacity : nat) `{!MPMCQueueLaws (option P) Q capacity}.
Implicit Types (q : Q) (s : Threads P Q) (w : worker P).
Variable process : P -> list P * list P.
(** A query is answered, denied or passed to the RPC client, but once. *)
Hypothesis process_once : forall p, (length (process p).1 <= 1 /\ length (process p).2 <= 1)%nat.

Local Abbreviation step := (Thread.step process).
Local Abbreviation run := (Thread.run process).

Lemma empty_elements q : isEmpty q = bool_decide (elements q = []).
Proof. destruct (isEmpty q) eqn:E, (bool_decide_reflect (elements q = [])) as [H|H]; try done; [by apply isEmpty_law in E|by apply isEmpty_law in H; rewrite H in E]. Qed.

Lemma read_inv q a q' : read q = Some (a, q') -> elements q = a :: elements q'.
Proof.
  pose proof (read_law q) as H. destruct (elements q) as [|b l]; [by rewrite H|]. destruct H as (q2 & -> & <-). by intros [= <- <-].
Qed.
Lemma read_none q : read q = None -> elements q = [].
Proof. pose proof (read_law q) as H. destruct (elements q) as [|b l]; [done|]. by destruct H as (q2 & -> & _). Qed.
Lemma write_inv a q q' : write a q = Some q' -> elements q' = elements q ++ [a] /\ (length (elements q) < capacity)%nat.
Proof.
  pose proof (write_law a q) as H. destruct (decide _) as [Hl|]; [|by rewrite H]. destruct H as (q2 & -> & He). by intros [= <-].
Qed.
Lemma write_none a q : write a q = None -> (capacity <= length (elements q))%nat.
Proof. pose proof (write_law a q) as H. destruct (decide _); [|lia]. by destruct H as (q2 & -> & _). Qed.

Definition done_of (w : worker P) : nat := match w with WDone => 1 | _ => 0 end.
Definition answers_of (w : worker P) : nat := match w with WBusy l => length l | _ => 0 end.
Definition work_of (w : worker P) : nat := match w with WBusy l => 1 + 3 * length l | _ => 0 end.
Definition done s : nat := sum_list_with done_of (worker_threads s).
Definition answers s : nat := sum_list_with answers_of (worker_threads s).

Definition recv_weight (r : receiver P) : nat := match r with RReady => 1 | RWriting _ => 12 | RDone => 0 end.
Definition stop_weight (n : nat) (pc : stopper) : nat :=
  match pc with
  | Stopped => 0 | JoinWorkers => 1 | JoinSender => 2 | EndSender => 5 | ReadOut => 6 | DrainOut => 7
  | StopWorkers k => 8 + 3 * (n - k)
  | StopEngines => 9 + 3 * n | JoinReceiver => 10 + 3 * n | ReadIn => 11 + 3 * n | DrainIn => 12 + 3 * n
  end.
Definition in_cost (x : option P) : nat := match x with Some _ => 10 | None => 2 end.
(** What the threads can still do. *)
Definition weight s : nat :=
  sum_list_with in_cost (elements (in_queue s)) + 2 * length (elements (out_queue s)) + recv_weight (recv_thread s) +
  sum_list_with work_of (worker_threads s) + (if send_done s then 0 else 1) + 4 * length (callbacks s) +
  3 * length (writing s) + stop_weight (length (worker_threads s)) (stop_pc s).

Lemma step_weight t s s' : step t s = Some s' -> (weight s' < weight s)%nat.
Proof.
  destruct s as [iq oq rv ws sd cb wr pc].
  destruct t as [|i| |i|i|]; cbn [Thread.step]; unfold weight.
  - unfold Thread.recv_step. cbn. destruct rv as [|p|]; [intros [= <-]; cbn; lia| |done].
    destruct (write _ iq) as [q|] eqn:E; [|done]. apply write_inv in E as [E _]. intros [= <-]. cbn. rewrite E, sum_list_with_app. cbn. lia.
  - unfold Thread.worker_step. cbn. destruct (ws !! i) as [w|] eqn:Ew; [|done]. cbn. destruct w as [|[|a as_]|]; [| | |done].
    + destruct (read iq) as [[[p|] q]|] eqn:E; [| |done]; apply read_inv in E; intros [= <-]; cbn; rewrite E, length_insert; cbn.
      * pose proof (sum_insert work_of ws i (WBusy (process p).1) _ Ew) as Hs. destruct (process_once p) as [H1 H2]. cbn in Hs.
        destruct (Thread.stopped_engines pc); [|rewrite length_app]; lia.
      * pose proof (sum_insert work_of ws i WDone _ Ew) as Hs. cbn in Hs. lia.
    + intros [= <-]. cbn. rewrite length_insert. pose proof (sum_insert work_of ws i WReady _ Ew) as Hs. cbn in Hs. lia.
    + destruct (write _ oq) as [q|] eqn:E; [|done]. apply write_inv in E as [E _]. intros [= <-]. cbn.
      rewrite E, length_insert, length_app. pose proof (sum_insert work_of ws i (WBusy as_) _ Ew) as Hs. cbn in *. lia.
  - unfold Thread.send_step. cbn. destruct sd; [done|]. destruct (read oq) as [[x q]|] eqn:E; [|done]. apply read_inv in E.
    intros [= <-]. cbn. rewrite E. cbn. destruct x; lia.
  - unfold Thread.callback_step. cbn. destruct (cb !! i) as [a|] eqn:Ea; [|done]. intros [= <-]. cbn.
    rewrite length_delete by done. apply lookup_lt_Some in Ea. lia.
  - unfold Thread.callback_write. cbn. destruct (wr !! i) as [a|] eqn:Ea; [|done]. cbn. destruct (write _ oq) as [q|] eqn:E; [|done].
    apply write_inv in E as [E _]. intros [= <-]. cbn. rewrite E, length_app, length_delete by done. apply lookup_lt_Some in Ea. cbn. lia.
  - unfold Thread.stop_step. cbn -[Nat.ltb]. destruct pc as [| | | |k| | | | | |]; cbn -[Nat.ltb].
    + unfold Thread.drain. rewrite empty_elements. case_bool_decide; intros [= <-]; cbn; lia.
    + destruct (read iq) as [[x q]|] eqn:E; [|done]. apply read_inv in E. intros [= <-]. cbn. rewrite E. cbn. destruct x; cbn; lia.
    + destruct rv; [done|done|]. intros [= <-]. cbn. lia.
    + destruct wr; [|done]. intros [= <-]. cbn. lia.
    + destruct (Nat.ltb_spec k (length ws)); intros [= <-]; cbn; [|lia].
      destruct (write None iq) as [q|] eqn:E; cbn; [apply write_inv in E as [-> _]; rewrite sum_list_with_app; cbn|]; lia.
    + unfold Thread.drain. rewrite empty_elements. case_bool_decide; intros [= <-]; cbn; lia.
    + destruct (read oq) as [[x q]|] eqn:E; [|done]. apply read_inv in E. intros [= <-]. cbn. rewrite E. cbn. lia.
    + destruct (write None oq) as [q|] eqn:E; [|done]. apply write_inv in E as [E _]. intros [= <-]. cbn. rewrite E, length_app. cbn. lia.
    + destruct sd; [|done]. intros [= <-]. cbn. lia.
    + destruct (forallb _ ws); [|done]. intros [= <-]. cbn. lia.
    + done.
Qed.

Lemma run_weight ts s s' : run ts s = Some s' -> (length ts + weight s' <= weight s)%nat.
Proof.
  revert s. induction ts as [|t ts IH]; intros s; cbn [Thread.run length]; [intros [= ->]; lia|].
  destruct (step t s) as [s1|] eqn:E; [|done]. cbn. intros H. apply IH in H. apply step_weight in E. lia.
Qed.

(** ** The invariant *)
Definition phase (pc : stopper) : nat :=
  match pc with
  | DrainIn | ReadIn => 0 | JoinReceiver => 1 | StopEngines => 2 | StopWorkers _ => 3 | DrainOut | ReadOut => 4
  | EndSender => 5 | JoinSender => 6 | JoinWorkers => 7 | Stopped => 8
  end.
(** The end marks that [stop] has written for the workers. *)
Definition marks (n : nat) (pc : stopper) : nat :=
  match pc with DrainIn | ReadIn | JoinReceiver | StopEngines => 0 | StopWorkers k => k | _ => n end.
Definition held (r : receiver P) : nat := match r with RWriting _ => 1 | _ => 0 end.

Record inv (n : nat) s : Prop := MkInv {
  inv_workers : length (worker_threads s) = n;
  inv_ordered : ordered (elements (in_queue s));
  inv_marks : (nulls (elements (in_queue s)) + done s = marks n (stop_pc s) /\ marks n (stop_pc s) <= n)%nat;
  inv_fifo : (0 < done s)%nat -> packets (elements (in_queue s)) = 0%nat;
  inv_left : (1 <= phase (stop_pc s) -> packets (elements (in_queue s)) + held (recv_thread s) <= 1)%nat;
  inv_recv : (2 <= phase (stop_pc s))%nat -> recv_thread s = RDone;
  inv_engines : Thread.stopped_engines (stop_pc s) = true -> callbacks s = [] /\ writing s = [];
  inv_sender : (nulls (elements (out_queue s)) + (if send_done s then 1 else 0) = if 6 <=? phase (stop_pc s) then 1 else 0)%nat;
  inv_joined : (7 <= phase (stop_pc s))%nat -> send_done s = true;
  inv_budget : (5 <= phase (stop_pc s) ->
    packets (elements (out_queue s)) + answers s + packets (elements (in_queue s)) <= n + 1)%nat;
  inv_busy : Forall (fun w => answers_of w <= 1)%nat (worker_threads s);
  inv_all : stop_pc s = Stopped -> done s = n }.

Lemma done_bound s : (done s <= length (worker_threads s))%nat.
Proof. apply sum_all. by intros []; cbn; lia. Qed.
Lemma busy_bound (ws : list (worker P)) : Forall (fun w => answers_of w <= 1)%nat ws -> (sum_list_with answers_of ws <= length ws)%nat.
Proof. induction 1 as [|w ws Hw _ IH]; cbn; lia. Qed.

Lemma recv_inv n s s' : inv n s -> Thread.recv_step s = Some s' -> inv n s'.
Proof.
  destruct s as [iq oq rv ws sd cb wr pc]. intros [? Ho Hm Hf Hl Hr He Hs Hj Hb Hy Ha]. unfold Thread.recv_step, done, answers in *. cbn in *.
  destruct rv as [|p|]; [| |done].
  - intros [= <-]. split; unfold done, answers; cbn in *; done.
  - destruct (write _ iq) as [q|] eqn:E; [|done]. apply write_inv in E as [E _]. intros [= <-].
    assert (phase pc <= 1)%nat as Hp by (destruct (decide (2 <= phase pc)%nat) as [H2|]; [by apply Hr in H2|lia]).
    assert (marks n pc = 0%nat) as Hz by (destruct pc; cbn in *; lia).
    split; unfold done, answers; cbn in *; rewrite ?E, ?packets_snoc, ?nulls_snoc; cbn; try done; try lia.
    + apply ordered_packet; [done|lia].
Qed.

Lemma send_inv n s s' : inv n s -> Thread.send_step s = Some s' -> inv n s'.
Proof.
  destruct s as [iq oq rv ws sd cb wr pc]. intros [? Ho Hm Hf Hl Hr He Hs Hj Hb Hy Ha]. unfold Thread.send_step, done, answers in *. cbn in *.
  destruct sd; [done|]. destruct (read oq) as [[x q]|] eqn:E; [|done]. apply read_inv in E. intros [= <-].
  rewrite E in *. unfold packets, nulls in *. cbn in *.
  split; unfold done, answers, packets, nulls; cbn in *; try done.
  - destruct x; cbn in *; lia.
  - intros Hx. by apply Hj in Hx.
  - intros Hx. apply Hb in Hx. destruct x; cbn in *; lia.
Qed.

Lemma callback_inv n i s s' : inv n s -> Thread.callback_step i s = Some s' -> inv n s'.
Proof.
  destruct s as [iq oq rv ws sd cb wr pc]. intros [? Ho Hm Hf Hl Hr He Hs Hj Hb Hy Ha]. unfold Thread.callback_step. cbn in *.
  destruct (cb !! i) as [a|] eqn:Ea; [|done]. intros [= <-]. split; cbn in *; try done.
  intros Hx. destruct (He Hx) as [-> _]. done.
Qed.

Lemma callback_write_inv n i s s' : inv n s -> Thread.callback_write i s = Some s' -> inv n s'.
Proof.
  destruct s as [iq oq rv ws sd cb wr pc]. intros [? Ho Hm Hf Hl Hr He Hs Hj Hb Hy Ha]. unfold Thread.callback_write. cbn in *.
  destruct (wr !! i) as [a|] eqn:Ea; [|done]. cbn. destruct (write _ oq) as [q|] eqn:E; [|done]. apply write_inv in E as [E _].
  destruct (Thread.stopped_engines pc) eqn:Hpc; [destruct (He eq_refl) as [_ ->]; done|]. intros [= <-].
  split; unfold done, answers in *; cbn in *; rewrite ?E, ?packets_snoc, ?nulls_snoc; cbn; try done.
  - by rewrite Hpc.
  - lia.
  - intros Hx. destruct pc; cbn in *; try lia; done.
Qed.

(** A worker that goes from [w] to [w']. *)
Lemma busy_insert (ws : list (worker P)) i w' : Forall (fun w => answers_of w <= 1)%nat ws -> (answers_of w' <= 1)%nat ->
  Forall (fun w => answers_of w <= 1)%nat (<[i := w']> ws).
Proof. intros. by apply Forall_insert. Qed.

Lemma worker_inv n i s s' : inv n s -> Thread.worker_step process i s = Some s' -> inv n s'.
Proof.
  destruct s as [iq oq rv ws sd cb wr pc]. intros [? Ho Hm Hf Hl Hr He Hs Hj Hb Hy Ha]. unfold Thread.worker_step, done, answers in *. cbn in *.
  destruct (ws !! i) as [w|] eqn:Ew; [|done]. cbn. destruct w as [|[|a as_]|]; [| | |done].
  - destruct (read iq) as [[[p|] q]|] eqn:E; [| |done]; apply read_inv in E; rewrite E in *; intros [= <-].
    + destruct (process_once p) as [H1 _].
      pose proof (sum_insert done_of ws i (WBusy (process p).1) _ Ew) as Hd. pose proof (sum_insert answers_of ws i (WBusy (process p).1) _ Ew) as Hn.
      unfold packets, nulls in *. cbn in *.
      split; unfold done, answers, packets, nulls; cbn in *; rewrite ?length_insert; try done; try lia.
      * intros Hx. specialize (He Hx). rewrite Hx. done.
      * by apply busy_insert.
      * intros Hx. apply Ha in Hx. lia.
    + pose proof (sum_insert done_of ws i WDone _ Ew) as Hd. pose proof (sum_insert answers_of ws i WDone _ Ew) as Hn.
      pose proof (ordered_tail _ _ Ho) as Ho'. unfold packets, nulls in *. cbn in *.
      split; unfold done, answers, packets, nulls; cbn in *; rewrite ?length_insert; try done; try lia.
      * by apply busy_insert; [|cbn; lia].
      * intros ->. specialize (Ha eq_refl). cbn in *. lia.
  - intros [= <-]. pose proof (sum_insert done_of ws i WReady _ Ew) as Hd. pose proof (sum_insert answers_of ws i WReady _ Ew) as Hn. cbn in *.
    split; unfold done, answers; cbn in *; rewrite ?length_insert; try done; try lia.
    + by apply busy_insert; [|cbn; lia].
    + intros Hx. apply Ha in Hx. lia.
  - destruct (write _ oq) as [q|] eqn:E; [|done]. apply write_inv in E as [E _]. intros [= <-].
    pose proof (sum_insert done_of ws i (WBusy as_) _ Ew) as Hd. pose proof (sum_insert answers_of ws i (WBusy as_) _ Ew) as Hn. cbn in *.
    pose proof (Forall_lookup_1 _ _ _ _ Hy Ew) as H1. cbn in H1.
    split; unfold done, answers; cbn in *; rewrite ?length_insert, ?E, ?packets_snoc, ?nulls_snoc; cbn; try done; try lia.
    + by apply busy_insert; [|cbn; lia].
    + intros Hx. apply Ha in Hx. lia.
Qed.

Lemma done_all (ws : list (worker P)) : forallb Thread.is_done ws = true -> sum_list_with done_of ws = length ws.
Proof. induction ws as [|[] ws IH]; cbn; [done|done|done|]. intros H. by rewrite IH. Qed.

Hypothesis (n : nat) (enough : (n + 2 <= capacity)%nat).

Ltac settle := try done; try lia; try (intros; match goal with Hr : _ -> ?r = RDone |- ?r = RDone => apply Hr; lia end).

Lemma stop_inv s s' : inv n s -> Thread.stop_step s = Some s' -> inv n s'.
Proof.
  destruct s as [iq oq rv ws sd cb wr pc]. intros [Hw Ho Hm Hf Hl Hr He Hs Hj Hb Hy Ha]. unfold Thread.stop_step, done, answers in *.
  pose proof (packets_nulls (elements iq)) as Hpn. pose proof (busy_bound ws Hy) as Hbb.
  cbn -[Nat.ltb] in *. destruct pc as [| | | |k| | | | | |]; cbn -[Nat.ltb] in *.
  - unfold Thread.drain. rewrite empty_elements. case_bool_decide as Hi; intros [= <-]; split; unfold done, answers; cbn in *; settle.
    rewrite Hi. intros _. destruct rv; cbn; lia.
  - destruct (read iq) as [[x q]|] eqn:E; [|done]. apply read_inv in E. rewrite E in *. pose proof (ordered_tail _ _ Ho) as Ho'.
    intros [= <-]. unfold packets, nulls in *. cbn in *.
    split; unfold done, answers, packets, nulls; cbn in *; settle; destruct x; cbn in *; lia.
  - destruct rv; [done|done|]. intros [= <-]. split; unfold done, answers; cbn in *; settle.
  - destruct wr; [|done]. intros [= <-]. split; unfold done, answers; cbn in *; settle.
  - destruct (Nat.ltb_spec k (length ws)) as [Hk|Hk]; intros [= <-].
    + assert (packets (elements iq) <= 1)%nat as Hp by (specialize (Hl ltac:(lia)); lia).
      destruct (write None iq) as [q|] eqn:E; [|apply write_none in E; lia]. apply write_inv in E as [E _].
      split; unfold done, answers; cbn in *; rewrite ?E, ?packets_snoc, ?nulls_snoc; cbn; settle.
      by apply ordered_mark.
    + split; unfold done, answers; cbn in *; settle.
  - unfold Thread.drain. rewrite empty_elements. case_bool_decide as Hi; intros [= <-]; split; unfold done, answers; cbn in *; settle.
    rewrite Hi. intros _. specialize (Hl ltac:(lia)). cbn. lia.
  - destruct (read oq) as [[x q]|] eqn:E; [|done]. apply read_inv in E. rewrite E in *.
    intros [= <-]. unfold packets, nulls in *. cbn in *.
    split; unfold done, answers, packets, nulls; cbn in *; settle.
  - destruct (write None oq) as [q|] eqn:E; [|done]. apply write_inv in E as [E _]. intros [= <-].
    split; unfold done, answers; cbn in *; rewrite ?E, ?packets_snoc, ?nulls_snoc; cbn; settle.
  - destruct sd; [|done]. intros [= <-]. split; unfold done, answers; cbn in *; settle.
  - destruct (forallb _ ws) eqn:Hall; [|done]. intros [= <-]. split; unfold done, answers; cbn in *; settle.
    + intros _. apply Hj. lia.
    + intros _. rewrite (done_all _ Hall). lia.
  - done.
Qed.

Lemma step_inv t s s' : inv n s -> step t s = Some s' -> inv n s'.
Proof.
  destruct t; cbn; eauto using recv_inv, worker_inv, send_inv, callback_inv, callback_write_inv, stop_inv.
Qed.
Lemma run_inv ts s s' : inv n s -> run ts s = Some s' -> inv n s'.
Proof.
  revert s. induction ts as [|t ts IH]; intros s Hi; cbn; [by intros [= <-]|].
  destruct (step t s) as [s1|] eqn:E; [|done]. cbn. apply IH. by eapply step_inv.
Qed.

(** ** Where a run ends *)
Definition stuck s : Prop := forall t, step t s = None.

(** [stop] has returned: every thread has ended and no query is left. *)
Definition finished s : Prop :=
  stop_pc s = Stopped /\ recv_thread s = RDone /\ Forall (fun w => w = WDone) (worker_threads s) /\ send_done s = true /\
  elements (in_queue s) = [].
(** [stop] waits in [drainQueue] for an element of an empty queue that no
    thread will write to. *)
Definition hangs s : Prop :=
  (stop_pc s = ReadIn \/ stop_pc s = ReadOut) /\ recv_thread s = RDone /\ send_done s = false /\
  callbacks s = [] /\ writing s = [] /\ elements (in_queue s) = [] /\ elements (out_queue s) = [].

Lemma all_done (ws : list (worker P)) : sum_list_with done_of ws = length ws -> Forall (fun w => w = WDone) ws.
Proof.
  induction ws as [|w ws IH]; [done|]. pose proof (sum_all done_of ws ltac:(by intros []; cbn; lia)) as Hb.
  destruct w; cbn; intros H; try lia. constructor; [done|]. apply IH. lia.
Qed.
Lemma no_items (l : list (option P)) : packets l = 0%nat -> nulls l = 0%nat -> l = [].
Proof. intros H1 H2. apply nil_length_inv. rewrite packets_nulls. lia. Qed.

Lemma stuck_worker s i w : stuck s -> worker_threads s !! i = Some w ->
  match w with
  | WReady => elements (in_queue s) = []
  | WBusy [] => False
  | WBusy _ => (capacity <= length (elements (out_queue s)))%nat
  | WDone => True
  end.
Proof.
  intros Hs Hw. specialize (Hs (Worker i)). cbn in Hs. unfold Thread.worker_step in Hs. rewrite Hw in Hs. cbn in Hs.
  destruct w as [|[|a l]|]; [|done| |done].
  - destruct (read (in_queue s)) as [[[p|] q]|] eqn:E; [done..|by apply read_none].
  - destruct (write (Some a) (out_queue s)) as [q|] eqn:E; [done|by apply write_none in E].
Qed.

Lemma stuck_sender s : stuck s -> send_done s = false -> elements (out_queue s) = [].
Proof.
  intros Hs Hd. specialize (Hs Sender). cbn in Hs. unfold Thread.send_step in Hs. rewrite Hd in Hs.
  destruct (read (out_queue s)) as [[x q]|] eqn:E; [done|by apply read_none].
Qed.
Lemma stuck_callbacks s : stuck s -> callbacks s = [].
Proof.
  intros Hs. specialize (Hs (Callback 0)). cbn in Hs. unfold Thread.callback_step in Hs. by destruct (callbacks s) as [|a l].
Qed.
Lemma stuck_writing s : stuck s -> writing s = [] \/ (capacity <= length (elements (out_queue s)))%nat.
Proof.
  intros Hs. specialize (Hs (CallbackWrite 0)). cbn in Hs. unfold Thread.callback_write in Hs. destruct (writing s) as [|a l]; [by left|right].
  cbn in Hs. destruct (write (Some a) (out_queue s)) as [q|] eqn:E; [done|by apply write_none in E].
Qed.
Lemma stuck_receiver s : stuck s -> recv_thread s = RDone \/ (0 < held (recv_thread s) /\ capacity <= length (elements (in_queue s)))%nat.
Proof.
  intros Hs. specialize (Hs Receive). cbn in Hs. unfold Thread.recv_step in Hs. destruct (recv_thread s) as [|p|]; [done| |by left].
  right. destruct (write (Some p) (in_queue s)) as [q|] eqn:E; [done|]. apply write_none in E. cbn. lia.
Qed.

(** While there is room for answers, a worker that is not done waits for the
    queue of queries. *)
Lemma idle_workers s : stuck s -> (length (elements (out_queue s)) < capacity)%nat -> elements (in_queue s) <> [] ->
  Forall (fun w => w = WDone) (worker_threads s).
Proof.
  intros Hs Hr Hi. apply Forall_lookup. intros i w Hw. pose proof (stuck_worker s i w Hs Hw) as H.
  destruct w as [|[|a l]|]; [done|done|lia|done].
Qed.
Lemma done_count (ws : list (worker P)) : Forall (fun w => w = WDone) ws -> sum_list_with done_of ws = length ws.
Proof. induction 1 as [|w ws -> _ IH]; cbn; lia. Qed.

Lemma done_forallb (ws : list (worker P)) : Forall (fun w => w = WDone) ws -> forallb Thread.is_done ws = true.
Proof. induction 1 as [|w ws -> _ IH]; [done|exact IH]. Qed.

Hypothesis some_worker : (1 <= n)%nat.

(** When the sender waits, [stop] waits in [drainQueue]. *)
Lemma stuck_waiting s : inv n s -> stuck s -> send_done s = false -> hangs s.
Proof.
  intros Hi Hs Hd. pose proof (stuck_sender s Hs Hd) as Ho. assert (length (elements (out_queue s)) < capacity)%nat as Hroom by (rewrite Ho; cbn; lia).
  assert (writing s = []) as Hw by (destruct (stuck_writing s Hs); [done|lia]).
  pose proof (inv_marks _ _ Hi) as Hm. pose proof (inv_workers _ _ Hi) as Hn.
  assert (elements (in_queue s) <> [] -> done s = n) as Hdone.
  { intros Hq. unfold done. rewrite (done_count _ (idle_workers s Hs Hroom Hq)). done. }
  assert (recv_thread s = RDone) as Hr.
  { destruct (stuck_receiver s Hs) as [|[Hh Hc]]; [done|]. assert (elements (in_queue s) <> []) as Hq by (intros E; rewrite E in Hc; cbn in Hc; lia).
    specialize (Hdone Hq). pose proof (inv_recv _ _ Hi) as Hr. destruct (stop_pc s); cbn in *; try lia; rewrite Hr by lia; done. }
  assert (elements (in_queue s) = []) as Hq.
  { destruct (elements (in_queue s)) as [|x l] eqn:E; [done|]. specialize (Hdone ltac:(done)). pose proof (inv_fifo _ _ Hi ltac:(lia)) as Hp.
    rewrite E in *. pose proof (packets_nulls (x :: l)) as Hpn. cbn [length] in Hpn. lia. }
  pose proof (Hs Stop) as Ht. cbn in Ht. unfold Thread.stop_step in Ht. pose proof (inv_sender _ _ Hi) as Hsd. pose proof (inv_joined _ _ Hi) as Hj.
  rewrite Hr, Hw, Ho, Hd in *. split; [|split_and!; try done; by apply stuck_callbacks].
  destruct (stop_pc s); cbn -[Nat.ltb] in *; try done; [by left| |by right| |specialize (Hj ltac:(lia)); done..].
  - destruct (_ <? _)%nat; done.
  - destruct (write None (out_queue s)) as [q|] eqn:E; [done|]. apply write_none in E. rewrite Ho in E. cbn in E. lia.
Qed.

(** When the sender has ended, so do the workers. *)
Lemma stuck_ended s : inv n s -> stuck s -> send_done s = true -> finished s.
Proof.
  intros Hi Hs Hd. pose proof (inv_marks _ _ Hi) as Hm. pose proof (inv_workers _ _ Hi) as Hn. pose proof (inv_sender _ _ Hi) as Hsd.
  pose proof (Hs Stop) as Ht. cbn in Ht. unfold Thread.stop_step in Ht. rewrite Hd in *.
  destruct (stop_pc s) eqn:Hpc; cbn -[Nat.ltb] in *; try lia; [done| |].
  - exfalso. destruct (forallb Thread.is_done (worker_threads s)) eqn:Hall; [done|].
    assert (length (elements (out_queue s)) < capacity \/ answers s = 0)%nat as Hroom.
    { rewrite packets_nulls. pose proof (inv_budget _ _ Hi) as Hb. rewrite Hpc in Hb. specialize (Hb ltac:(cbn; lia)). lia. }
    assert (elements (in_queue s) = [] \/ Forall (fun w => w = WDone) (worker_threads s)) as [Hq|Hq].
    { destruct (decide (answers s = 0)%nat) as [Hz|]; [|destruct (elements (in_queue s)) eqn:E; [by left|right; apply idle_workers; try done; [lia|by rewrite E]]].
      destruct (elements (in_queue s)) eqn:E; [by left|right]. apply Forall_lookup. intros i w Hw. pose proof (stuck_worker s i w Hs Hw) as H.
      destruct w as [|[|a l']|]; [by rewrite E in H|done| |done]. unfold answers in Hz. rewrite (sum_list_with_Permutation_proper _ _ _ (delete_Permutation _ _ _ Hw)) in Hz. cbn in Hz. lia. }
    + rewrite Hq in Hm. cbn in Hm. assert (Forall (fun w => w = WDone) (worker_threads s)) as Hf by (apply all_done; unfold done in Hm; lia).
      rewrite (done_forallb _ Hf) in Hall. done.
    + rewrite (done_forallb _ Hq) in Hall. done.
  - pose proof (inv_all _ _ Hi Hpc) as Ha. split; [done|]. split; [apply (inv_recv _ _ Hi); rewrite Hpc; cbn; lia|].
    split; [apply all_done; unfold done in Ha; lia|]. split; [done|]. apply no_items; [apply (inv_fifo _ _ Hi); lia|lia].
Qed.

(** ** The start and an idle server *)

(** [stop] was called: the flag is set and nothing has ended. *)
Definition stopping s : Prop :=
  stop_pc s = DrainIn /\ length (worker_threads s) = n /\ recv_thread s <> RDone /\ send_done s = false /\ done s = 0%nat /\
  Forall (fun w => answers_of w <= 1)%nat (worker_threads s) /\
  nulls (elements (in_queue s)) = 0%nat /\ nulls (elements (out_queue s)) = 0%nat.
Definition idle s : Prop :=
  elements (in_queue s) = [] /\ elements (out_queue s) = [] /\ recv_thread s = RReady /\
  Forall (fun w => w = WReady) (worker_threads s) /\ callbacks s = [] /\ writing s = [].

Lemma ordered_packets (l : list (option P)) : nulls l = 0%nat -> ordered l.
Proof. unfold nulls. induction l as [|[p|] l IH]; cbn; [done|done|lia]. Qed.

Lemma stopping_inv s : stopping s -> inv n s.
Proof.
  intros (Hpc & Hn & Hr & Hsd & Hd & Hb & Hi & Ho).
  split; rewrite ?Hpc, ?Hi, ?Hd, ?Ho, ?Hsd; cbn; try done; try lia. by apply ordered_packets.
Qed.

Lemma stop_ends s ts s' : stopping s -> run ts s = Some s' ->
  (length ts <= weight s)%nat /\ (stuck s' -> finished s' \/ hangs s').
Proof.
  intros Hs Hr. split; [apply run_weight in Hr; lia|]. intros Hst. pose proof (run_inv _ _ _ (stopping_inv _ Hs) Hr) as Hi.
  destruct (send_done s') eqn:Hd; [left; by apply stuck_ended|right; by apply stuck_waiting].
Qed.

(** With no packet anywhere no queue is read by [stop]. *)
Definition quiet s : Prop :=
  packets (elements (in_queue s)) = 0%nat /\ packets (elements (out_queue s)) = 0%nat /\ held (recv_thread s) = 0%nat /\
  sum_list_with work_of (worker_threads s) = 0%nat /\ callbacks s = [] /\ writing s = [] /\ stop_pc s <> ReadIn /\ stop_pc s <> ReadOut.

Lemma quiet_stays_quiet t s s' : inv n s -> quiet s -> step t s = Some s' -> quiet s'.
Proof.
  intros Hi (Hpi & Hpo & Hh & Hw & Hc & Hwr & H1 & H2). pose proof (inv_marks _ _ Hi) as Hm. pose proof (inv_sender _ _ Hi) as Hsd.
  destruct s as [iq oq rv ws sd cb wr pc]. unfold done in Hm. cbn in *. subst cb wr. unfold quiet, packets in *.
  destruct t as [|i| |i|i|]; cbn; [| | |done|done|].
  - unfold Thread.recv_step. cbn. destruct rv; [intros [= <-]; cbn; split_and!; done|done|done].
  - unfold Thread.worker_step. cbn. destruct (ws !! i) as [w|] eqn:Ew; [|done]. cbn.
    pose proof (sum_list_with_Permutation_proper work_of _ _ (delete_Permutation _ _ _ Ew)) as Hperm. cbn in Hperm.
    destruct w as [|l|]; [| |done]; [|cbn in Hperm; lia].
    destruct (read iq) as [[[p|] q]|] eqn:E; [| |done]; apply read_inv in E; rewrite E in Hpi; cbn in Hpi; [lia|].
    intros [= <-]. pose proof (sum_insert work_of ws i WDone _ Ew) as Hs. cbn in *. split_and!; try done; lia.
  - unfold Thread.send_step. cbn. destruct sd; [done|]. destruct (read oq) as [[x q]|] eqn:E; [|done]. apply read_inv in E. rewrite E in Hpo.
    intros [= <-]. cbn in *. split_and!; try done; destruct x; cbn in *; lia.
  - unfold Thread.stop_step. cbn -[Nat.ltb]. destruct pc as [| | | |k| | | | | |]; cbn -[Nat.ltb] in *; try done.
    + unfold Thread.drain. rewrite empty_elements, (no_items (elements iq)) by (unfold packets; lia). intros [= <-]. cbn. split_and!; done.
    + destruct rv; [done|done|]. intros [= <-]. cbn. split_and!; done.
    + intros [= <-]. cbn. split_and!; done.
    + destruct (k <? length ws)%nat; intros [= <-]; cbn; split_and!; try done.
      destruct (write None iq) as [q|] eqn:E; cbn; [|done]. apply write_inv in E as [-> _]. rewrite sum_list_with_app. cbn. lia.
    + unfold Thread.drain. rewrite empty_elements, (no_items (elements oq)) by (unfold packets; lia). intros [= <-]. cbn. split_and!; done.
    + destruct (write None oq) as [q|] eqn:E; [|done]. apply write_inv in E as [E _]. intros [= <-]. cbn. rewrite E, sum_list_with_app. cbn. split_and!; try done; lia.
    + destruct sd; [|done]. intros [= <-]. cbn. split_and!; done.
    + destruct (forallb _ ws); [|done]. intros [= <-]. cbn. split_and!; done.
Qed.

Lemma quiet_run ts s s' : inv n s -> quiet s -> run ts s = Some s' -> quiet s'.
Proof.
  revert s. induction ts as [|t ts IH]; intros s Hi Hq; cbn; [by intros [= <-]|].
  destruct (step t s) as [s1|] eqn:E; [|done]. cbn. apply IH; [by eapply step_inv|by eapply quiet_stays_quiet].
Qed.

Lemma idle_quiet s : stopping s -> idle s -> quiet s.
Proof.
  intros (Hpc & _) (Hi & Ho & Hr & Hw & Hc & Hwr). unfold quiet. rewrite Hpc, Hi, Ho, Hr. split_and!; try done.
  induction Hw as [|w ws -> _ IH]; cbn; [done|exact IH].
Qed.

Lemma idle_stops s ts s' : stopping s -> idle s -> run ts s = Some s' -> stuck s' -> finished s'.
Proof.
  intros Hs Hid Hr Hst. destruct (stop_ends s ts s' Hs Hr) as [_ [Hf|Hh]]; [done|done|].
  destruct (quiet_run ts s s' (stopping_inv _ Hs) (idle_quiet _ Hs Hid) Hr) as (_ & _ & _ & _ & _ & _ & H1 & H2).
  by destruct Hh as [[H|H] _].
Qed.
End Facts.

(** ** A queue *)
Section ListQueue.
Context {A : Type} (capacity : nat).

Definition list_write (a : A) (q : list A) : option (list A) := if decide (length q < capacity)%nat then Some (q ++ [a]) else None.
Definition list_queue : MPMCQueue A (list A) := {|
  isEmpty q := match q with [] => true | _ => false end;
  read q := match q with [] => None | a :: q => Some (a, q) end;
  write := list_write |}.
Lemma list_isEmpty (q : list A) : match q with [] => true | _ => false end = true <-> q = [].
Proof. by destruct q. Qed.
Lemma list_read (q : list A) : match q with
  | [] => match q with [] => None | a :: q => Some (a, q) end = None
  | a :: l => exists q', match q with [] => None | a :: q => Some (a, q) end = Some (a, q') /\ q' = l
  end.
Proof. destruct q; [done|by eexists]. Qed.
Lemma list_write_law (a : A) (q : list A) : if decide (length q < capacity)%nat
  then exists q', list_write a q = Some q' /\ q' = q ++ [a] else list_write a q = None.
Proof. unfold list_write. destruct (decide _); [by eexists|done]. Qed.
Definition list_queue_laws : @MPMCQueueLaws A (list A) list_queue capacity :=
  @Build_MPMCQueueLaws A (list A) list_queue capacity (fun q => q) list_isEmpty list_read list_write_law.
End ListQueue.
