(* ===== verification/Icmp.v ===== *)
(** ICMP echo messages and the timer queue of the ping check:
    ping/icmp_protocol.cpp and ping/timer_queue.cpp.

    Messages are byte buffers; [struct icmp] and [unsigned short] are read and
    written in the byte order of the host, which is little-endian. *)
From stdpp Require Import base list numbers option strings gmap.
From Stdlib Require Import ZArith Lia.
From S2P Require Import Prelude Buffer.

Definition ICMP_DATA_LEN : Z := 56.
Definition ICMP_HEAD_LEN : Z := 8.
Definition ICMP_ECHO : Z := 8.
Definition ICMP_ECHOREPLY : Z := 0.
Definition PACKET_SIZE : Z := 128.

(** ** Messages *)
Module Icmp.

(** [*w] of an [unsigned short*] at offset [i], and its assignment. *)
Definition word (buf : list Z) (i : Z) : result Z :=
  lo ← zget buf i; hi ← zget buf (i + 1); Ok (lo + 256 * hi).
Definition set_word (buf : list Z) (i v : Z) : result (list Z) :=
  buf ← zset buf i (u8 v); zset buf (i + 1) (u8 (v / 256)).

(** The loop over the words, then the odd byte. *)
Fixpoint sum_loop (addr : list Z) (nleft : nat) (w : Z) (sum : Z) : result Z :=
  match nleft with
  | S (S n) => v ← word addr w; sum_loop addr n (w + 2) (u32 (sum + v))
  | 1%nat => b ← zget addr w; Ok (u32 (sum + b))
  | 0%nat => Ok sum
  end.

Definition fold_sum (sum : Z) : Z :=
  let sum := u32 (Z.shiftr sum 16 + Z.land sum 0xffff) in
  let sum := u32 (sum + Z.shiftr sum 16) in
  u16 (Z.lnot sum).

Definition getChksum (addr : list Z) (len : Z) : result Z :=
  sum ← sum_loop addr (Z.to_nat len) 0 0; Ok (fold_sum sum).

Definition packIcmp (pack_seq random : Z) (icmp : list Z) : result (Z * list Z) :=
  icmp ← zset icmp 0 ICMP_ECHO;
  icmp ← zset icmp 1 0;
  icmp ← set_word icmp 2 0;
  icmp ← set_word icmp 6 pack_seq;
  icmp ← set_word icmp 4 random;
  let pack_size := ICMP_HEAD_LEN + ICMP_DATA_LEN in
  cksum ← getChksum icmp pack_size;
  icmp ← set_word icmp 2 cksum;
  Ok (pack_size, icmp).

(** [pack_id] when the message is an echo reply. *)
Definition unpackIcmp (packet_buf : list Z) (packet_len : Z) : result (option Z) :=
  b0 ← zget packet_buf 0;
  let iphdr_len := Z.shiftl (Z.land b0 15) 2 in
  let packet_len := u32 (packet_len - iphdr_len) in
  if packet_len <? ICMP_HEAD_LEN then Ok None
  else
    icmp_type ← zget packet_buf iphdr_len;
    if negb (icmp_type =? ICMP_ECHOREPLY) then Ok None
    else
      icmp_id ← word packet_buf (iphdr_len + 4);
      icmp_seq ← word packet_buf (iphdr_len + 6);
      Ok (Some (u32 (Z.shiftl icmp_id 16 + icmp_seq))).

(** The message [Pinger::sendPacket] hands to the socket; [send_packet] is
    what the uninitialised array holds. *)
Definition sent (pack_seq random : Z) (send_packet : list Z) : result (list Z) :=
  '(packet_size, send_packet) ← packIcmp pack_seq random send_packet;
  slice send_packet 0 packet_size.

(** The identifier under which [Pinger::ping] files the request. *)
Definition pack_id (pack_seq random : Z) : Z := u32 (Z.shiftl random 16 + pack_seq).
End Icmp.

(** ** The checksum *)

(** A sum folded to 16 bits. *)
Definition folded (s : Z) : Z := let t := s / 2^16 + s mod 2^16 in t - 65535 * (t / 2^16).

Lemma fold_sum_eq s : 0 <= s < 2^32 - 2^16 -> Icmp.fold_sum s = 65535 - folded s /\ 0 <= folded s <= 65535.
Proof.
  intros Hs. unfold Icmp.fold_sum, folded, u32, u16.
  change (Z.land s 0xffff) with (Z.land s (Z.ones 16)). rewrite Z.land_ones, !Z.shiftr_div_pow2 by lia. set (t := s / 2^16 + s mod 2^16).
  assert (0 <= t <= 131069) as Ht by (unfold t; zdiv). clearbody t. clear Hs.
  rewrite !(Z.mod_small _ (2^32)) by zdiv. unfold Z.lnot, Z.pred.
  assert (t / 2^16 = 0 /\ t < 2^16 \/ t / 2^16 = 1 /\ 2^16 <= t) as [[-> ?]|[-> ?]] by zdiv.
  - split; [|lia]. symmetry. apply (Z.mod_unique_pos _ _ (-1)); lia.
  - split; [|lia]. symmetry. apply (Z.mod_unique_pos _ _ (-2)); lia.
Qed.

(** Folding is addition modulo 65535. *)
Lemma folded_mod s : 0 <= s < 2^32 - 2^16 -> exists k, folded s = s - 65535 * k.
Proof. intros Hs. unfold folded. exists (s / 2^16 + (s / 2^16 + s mod 2^16) / 2^16). zdiv. Qed.

Lemma folded_pos s : 0 < s < 2^32 - 2^16 -> 0 < folded s.
Proof.
  intros Hs. unfold folded. set (t := s / 2^16 + s mod 2^16).
  assert (0 < t <= 131069) as Ht by (unfold t; zdiv). clearbody t.
  assert (t / 2^16 = 0 \/ t / 2^16 = 1 /\ 2^16 <= t) as [->|[-> ?]] by zdiv; lia.
Qed.

(** The checksum complements the sum. *)
Lemma fold_complement s : 0 <= s < 2^31 ->
  0 <= Icmp.fold_sum s < 2^16 /\ Icmp.fold_sum (s + Icmp.fold_sum s) = 0.
Proof.
  intros Hs. destruct (fold_sum_eq s ltac:(lia)) as [E Hr]. split; [lia|]. set (c := Icmp.fold_sum s) in *.
  destruct (folded_mod s ltac:(lia)) as [k Hk]. destruct (folded_mod (s + c) ltac:(lia)) as [j Hj].
  destruct (fold_sum_eq (s + c) ltac:(lia)) as [-> Hr'].
  destruct (decide (s + c = 0)) as [E0|]; [|pose proof (folded_pos (s + c) ltac:(lia)); lia].
  assert (s = 0) as -> by lia. change (folded 0) with 0 in *. lia.
Qed.

Fixpoint words_sum (l : list Z) : Z :=
  match l with lo :: hi :: l => lo + 256 * hi + words_sum l | [b] => b | [] => 0 end.

Lemma word_app pre lo hi l : Icmp.word (pre ++ lo :: hi :: l) (zlen pre) = Ok (lo + 256 * hi).
Proof.
  unfold Icmp.word. rewrite zget_app, bind_Ok.
  replace (zlen pre + 1) with (zlen (pre ++ [lo])) by (by rewrite zlen_app).
  replace (pre ++ lo :: hi :: l) with ((pre ++ [lo]) ++ hi :: l) by (by rewrite <- app_assoc). by rewrite zget_app.
Qed.

Lemma words_sum_bound n l : (length l <= n)%nat -> bytes_ok l -> 0 <= words_sum l <= 65535 * zlen l.
Proof.
  revert l. induction n as [|n IH]; intros [|lo [|hi l]] Hn Hb; cbn [length words_sum] in *; try (change (zlen []) with 0; lia);
    apply bytes_ok_cons in Hb as [Hlo Hb]; unfold byte_ok in *; try (change (zlen [lo]) with 1; lia).
  apply bytes_ok_cons in Hb as [Hhi Hb]. unfold byte_ok in *. specialize (IH l ltac:(lia) Hb). rewrite !zlen_cons. lia.
Qed.

Lemma sum_loop_eq n pre l rest s : (length l <= n)%nat -> bytes_ok l -> 0 <= s -> s + 65535 * zlen l < 2^32 ->
  Icmp.sum_loop (pre ++ l ++ rest) (length l) (zlen pre) s = Ok (s + words_sum l).
Proof.
  revert pre l s. induction n as [|n IH]; intros pre [|lo [|hi l]] s Hn Hb H0 Hs; cbn [length] in Hn; try lia;
    cbn [Icmp.sum_loop length words_sum app]; try (f_equal; lia).
  - rewrite zget_app, bind_Ok. apply bytes_ok_cons in Hb as [Hlo _]. unfold byte_ok in Hlo. change (zlen [lo]) with 1 in Hs.
    by rewrite u32_small by lia.
  - rewrite word_app, bind_Ok. rewrite !zlen_cons in Hs. apply bytes_ok_cons in Hb as [Hlo [Hhi Hb]%bytes_ok_cons].
    unfold byte_ok in *. pose proof (zlen_nonneg l). rewrite u32_small by lia.
    replace (zlen pre + 2) with (zlen (pre ++ [lo; hi])) by (by rewrite zlen_app).
    replace (pre ++ lo :: hi :: l ++ rest) with ((pre ++ [lo; hi]) ++ l ++ rest) by (by rewrite <- app_assoc).
    rewrite IH by (done || lia). f_equal. lia.
Qed.

Lemma checksum_eq l rest : bytes_ok l -> zlen l < 2^16 ->
  Icmp.getChksum (l ++ rest) (zlen l) = Ok (Icmp.fold_sum (words_sum l)).
Proof.
  intros Hb Hl. unfold Icmp.getChksum. rewrite to_nat_zlen.
  pose proof (sum_loop_eq (length l) [] l rest 0) as E. cbn [app] in E. change (zlen []) with 0 in E.
  rewrite E by (done || lia). done.
Qed.

(** ** Echo messages *)
Definition echo (type cksum id seq : Z) (data : list Z) : list Z :=
  [type; 0; u8 cksum; u8 (cksum / 256); u8 id; u8 (id / 256); u8 seq; u8 (seq / 256)] ++ data.

Lemma word_value v : 0 <= v < 2^16 -> u8 v + 256 * u8 (v / 256) = v.
Proof. intros. unfold u8. zdiv. Qed.

Lemma echo_bytes type cksum id seq data : byte_ok type -> bytes_ok data -> bytes_ok (echo type cksum id seq data).
Proof. intros. unfold echo. apply bytes_ok_app. split; [|done]. repeat (constructor; [done || apply u8_byte|]). constructor. Qed.

Lemma echo_sum type cksum id seq data : 0 <= cksum < 2^16 ->
  words_sum (echo type cksum id seq data) = words_sum (echo type 0 id seq data) + cksum.
Proof. intros Hc. cbn [echo app words_sum]. pose proof (word_value cksum Hc). change (u8 0) with 0. change (u8 (0 / 256)) with 0. lia. Qed.

(** What [packIcmp] leaves in the array. *)
Definition packed_cksum (seq random : Z) (data : list Z) : Z := Icmp.fold_sum (words_sum (echo ICMP_ECHO 0 random seq data)).

Lemma zset_app (h t : list Z) i a : 0 <= i < zlen h -> zset (h ++ t) i a = Ok (<[Z.to_nat i := a]> h ++ t).
Proof.
  intros Hi. unfold zset. pose proof (zlen_nonneg t). rewrite decide_True by (rewrite zlen_app; lia).
  rewrite insert_app_l by (unfold zlen in Hi; lia). done.
Qed.

(** Assignments to the header of a message. *)
Ltac set_head :=
  repeat (rewrite zset_app by done; rewrite bind_Ok;
          cbv [Z.to_nat Pos.to_nat Pos.iter_op Nat.add insert list_insert]).

Lemma pack_eq seq random (b0 b1 b2 b3 b4 b5 b6 b7 : Z) data rest :
  bytes_ok data -> zlen data = ICMP_DATA_LEN ->
  Icmp.packIcmp seq random ([b0; b1; b2; b3; b4; b5; b6; b7] ++ data ++ rest)
  = Ok (64, echo ICMP_ECHO (packed_cksum seq random data) random seq data ++ rest).
Proof.
  intros Hb Hl. unfold Icmp.packIcmp, Icmp.set_word. change (ICMP_HEAD_LEN + ICMP_DATA_LEN) with 64.
  change (2 + 1) with 3. change (6 + 1) with 7. change (4 + 1) with 5. set_head.
  assert (zlen (echo ICMP_ECHO 0 random seq data) = 64) as He by (unfold echo; by rewrite zlen_app, Hl).
  pose proof (checksum_eq (echo ICMP_ECHO 0 random seq data) rest (echo_bytes ICMP_ECHO 0 random seq data ltac:(done) Hb)
    ltac:(lia)) as Hc.
  rewrite He in Hc. unfold echo in Hc at 1. rewrite <- app_assoc in Hc. rewrite Hc, bind_Ok.
  fold (packed_cksum seq random data). set_head. unfold echo. by rewrite <- app_assoc.
Qed.

Lemma split_array junk : zlen junk = PACKET_SIZE -> bytes_ok junk -> exists b0 b1 b2 b3 b4 b5 b6 b7 data rest,
  junk = [b0; b1; b2; b3; b4; b5; b6; b7] ++ data ++ rest /\ bytes_ok data /\ zlen data = ICMP_DATA_LEN.
Proof.
  intros Hl Hb. unfold PACKET_SIZE in Hl.
  destruct junk as [|b0 [|b1 [|b2 [|b3 [|b4 [|b5 [|b6 [|b7 l]]]]]]]]; try (unfold zlen in Hl; cbn in Hl; lia).
  exists b0, b1, b2, b3, b4, b5, b6, b7, (take 56 l), (drop 56 l). split; [by rewrite take_drop|].
  assert (bytes_ok l) as Hbl by (apply (Forall_drop _ 8) in Hb; exact Hb). split; [by apply bytes_ok_take|].
  rewrite !zlen_cons in Hl. unfold zlen in *. rewrite length_take. unfold ICMP_DATA_LEN. lia.
Qed.

Lemma sent_eq seq random junk : zlen junk = PACKET_SIZE -> bytes_ok junk -> exists data,
  bytes_ok data /\ zlen data = ICMP_DATA_LEN /\
  Icmp.sent seq random junk = Ok (echo ICMP_ECHO (packed_cksum seq random data) random seq data).
Proof.
  intros Hl Hb. destruct (split_array junk Hl Hb) as (b0 & b1 & b2 & b3 & b4 & b5 & b6 & b7 & data & rest & -> & Hd & Hld).
  exists data. split; [done|]. split; [done|]. unfold Icmp.sent. rewrite pack_eq, bind_Ok by done.
  assert (zlen (echo ICMP_ECHO (packed_cksum seq random data) random seq data) = 64) as He by (unfold echo; by rewrite zlen_app, Hld).
  rewrite <- He. apply (slice_app []).
Qed.

Lemma packed_checksum seq random data : bytes_ok data -> zlen data = ICMP_DATA_LEN ->
  0 <= packed_cksum seq random data < 2^16 /\
  Icmp.fold_sum (words_sum (echo ICMP_ECHO (packed_cksum seq random data) random seq data)) = 0.
Proof.
  intros Hb Hl. set (e := echo ICMP_ECHO 0 random seq data).
  assert (bytes_ok e) as He by (by apply echo_bytes).
  assert (zlen e = 64) as Hz by (unfold e, echo; by rewrite zlen_app, Hl).
  pose proof (words_sum_bound (length e) e ltac:(lia) He) as Hs.
  destruct (fold_complement (words_sum e) ltac:(lia)) as [Hr Hc]. split; [done|].
  rewrite echo_sum by done. fold e. exact Hc.
Qed.

(** *** Replies *)
Definition iphdr_ok (h : list Z) : Prop := match h with b0 :: _ => bytes_ok h /\ zlen h = Z.land b0 15 * 4 | [] => False end.

Lemma unpack_reply h type cksum id seq data stale : iphdr_ok h -> bytes_ok data -> zlen data = ICMP_DATA_LEN ->
  0 <= id < 2^16 -> 0 <= seq < 2^16 ->
  Icmp.unpackIcmp (h ++ echo type cksum id seq data ++ stale) (zlen h + 64)
  = Ok (if type =? ICMP_ECHOREPLY then Some (Icmp.pack_id seq id) else None).
Proof.
  intros Hh Hb Hl Hid Hseq. destruct h as [|b0 h]; [done|]. destruct Hh as [Hbh Hlh]. unfold Icmp.unpackIcmp.
  change (zget ((b0 :: h) ++ echo type cksum id seq data ++ stale) 0) with (Ok b0). rewrite bind_Ok.
  rewrite Z.shiftl_mul_pow2 by lia. change (2^2) with 4. rewrite <- Hlh. set (p := b0 :: h) in *.
  replace (zlen p + 64 - zlen p) with 64 by lia. change (u32 64 <? ICMP_HEAD_LEN) with false. cbn iota.
  unfold echo. cbn [app]. rewrite zget_app, bind_Ok. destruct (type =? ICMP_ECHOREPLY); [|done]. cbn [negb].
  set (x := [type; 0; u8 cksum; u8 (cksum / 256)]).
  replace (p ++ type :: 0 :: u8 cksum :: u8 (cksum / 256) :: u8 id :: u8 (id / 256) :: u8 seq :: u8 (seq / 256) :: data ++ stale)
    with ((p ++ x) ++ u8 id :: u8 (id / 256) :: u8 seq :: u8 (seq / 256) :: data ++ stale) by (unfold x; by rewrite <- app_assoc).
  replace (zlen p + 4) with (zlen (p ++ x)) by (by rewrite zlen_app). rewrite word_app, bind_Ok, word_value by done.
  replace ((p ++ x) ++ u8 id :: u8 (id / 256) :: u8 seq :: u8 (seq / 256) :: data ++ stale)
    with ((p ++ x ++ [u8 id; u8 (id / 256)]) ++ u8 seq :: u8 (seq / 256) :: data ++ stale) by (by rewrite <- !app_assoc).
  replace (zlen p + 6) with (zlen (p ++ x ++ [u8 id; u8 (id / 256)])) by (by rewrite zlen_app).
  rewrite word_app, bind_Ok, word_value by done. done.
Qed.

Lemma land15 b : 0 <= Z.land b 15 < 16.
Proof. change 15 with (Z.ones 4). rewrite Z.land_ones by lia. apply Z.mod_pos_bound. lia. Qed.

(** Whatever is received stays within the array. *)
Lemma unpack_total buf len : zlen buf = PACKET_SIZE -> exists r, Icmp.unpackIcmp buf len = Ok r.
Proof.
  intros Hl. unfold PACKET_SIZE in Hl. unfold Icmp.unpackIcmp, Icmp.word.
  destruct (zget_ok buf 0) as (b0 & -> & _); [lia|]. rewrite bind_Ok. pose proof (land15 b0) as H15.
  rewrite Z.shiftl_mul_pow2 by lia. set (i := Z.land b0 15 * 2^2) in *. assert (0 <= i <= 60) as Hi by (unfold i; lia).
  case_match; [by eexists|]. destruct (zget_ok buf i) as (ty & -> & _); [lia|]. rewrite bind_Ok. case_match; [by eexists|].
  destruct (zget_ok buf (i + 4)) as (x & -> & _); [lia|]. destruct (zget_ok buf (i + 4 + 1)) as (y & -> & _); [lia|].
  destruct (zget_ok buf (i + 6)) as (z & -> & _); [lia|]. destruct (zget_ok buf (i + 6 + 1)) as (t & -> & _); [lia|].
  rewrite !bind_Ok. by eexists.
Qed.

Lemma pack_id_inj seq random seq' random' : 0 <= seq < 2^16 -> 0 <= random < 2^16 -> 0 <= seq' < 2^16 -> 0 <= random' < 2^16 ->
  Icmp.pack_id seq random = Icmp.pack_id seq' random' -> seq = seq' /\ random = random'.
Proof. intros. unfold Icmp.pack_id in *. rewrite !Z.shiftl_mul_pow2, !u32_small in * by lia. lia. Qed.

(** ** The timer queue

    Time is in the ticks of [std::chrono::system_clock], nanoseconds. *)
Definition NEGNIGIBLE_DELAY : Z := 10.
Definition millisecond : Z := 10^6.

Record TimerQueue (C : Type) := MkTimerQueue { max_size_ : Z; time_out_ : Z; timer_queue_ : list (Z * C) }.
Arguments MkTimerQueue {C}.
Arguments max_size_ {C}.
Arguments time_out_ {C}.
Arguments timer_queue_ {C}.

Module Timers.
Section Timers.
Context {C : Type}.

Definition make (max_size time_out : Z) : TimerQueue C := MkTimerQueue max_size time_out [].

Definition addTimer (now : Z) (callback : C) (q : TimerQueue C) : bool * TimerQueue C :=
  if max_size_ q <=? zlen (timer_queue_ q) then (false, q)
  else (true, MkTimerQueue (max_size_ q) (time_out_ q)
                (timer_queue_ q ++ [(now + time_out_ q * millisecond, callback)])).

(** The timers that are left are dropped. *)
Definition stop (q : TimerQueue C) : TimerQueue C := MkTimerQueue (max_size_ q) (time_out_ q) [].

(** The inner loop of [removeExpireTimers]: the callbacks to run, what stays
    in the queue, and [sleep_time]. *)
Fixpoint expire (now_time : Z) (q : list (Z * C)) : list C * list (Z * C) * Z :=
  match q with
  | [] => ([], [], 0)
  | (expire_time, call_back) :: rest =>
      let time_diff := s32 (Z.quot (expire_time - now_time) millisecond) in
      if NEGNIGIBLE_DELAY <? time_diff then ([], q, time_diff)
      else let '(callbacks, rest', sleep_time) := expire now_time rest in (call_back :: callbacks, rest', sleep_time)
  end.

(** One round of [removeExpireTimers]. *)
Definition removeExpireTimers (now_time : Z) (q : TimerQueue C) : list C * Z * TimerQueue C :=
  let '(callbacks, rest', sleep_time) := expire now_time (timer_queue_ q) in
  (callbacks, sleep_time, MkTimerQueue (max_size_ q) (time_out_ q) rest').
End Timers.
End Timers.

(** What the threads do to the queue, with the time of the clock. *)
Inductive timer_event (C : Type) : Type := AddTimer (now : Z) (callback : C) | Round (now : Z).
Arguments AddTimer {C}.
Arguments Round {C}.
(** Whether a timer was taken; the callbacks run and the sleep. *)
Inductive timer_obs (C : Type) : Type := Added (b : bool) | Fired (callbacks : list C) (sleep_time : Z).
Arguments Added {C}.
Arguments Fired {C}.

Section TimerSpec.
Context {C : Type}.
Implicit Types (q : list (Z * C)) (e : timer_event C).

Definition event_time e : Z := match e with AddTimer now _ | Round now => now end.
Definition queue_step e (s : TimerQueue C) : timer_obs C * TimerQueue C :=
  match e with
  | AddTimer now c => let '(b, s) := Timers.addTimer now c s in (Added b, s)
  | Round now => let '(cs, t, s) := Timers.removeExpireTimers now s in (Fired cs t, s)
  end.

(** The specification: a set of pending timers, of which a round takes those
    that are due. *)
Definition due (now : Z) (t : Z * C) : bool := t.1 <? now + (NEGNIGIBLE_DELAY + 1) * millisecond.
Definition spec_round (now : Z) q : timer_obs C * list (Z * C) :=
  let rest := List.filter (fun t => negb (due now t)) q in
  (Fired (snd <$> List.filter (due now) q)
     (match rest with [] => 0 | t :: _ => (t.1 - now) / millisecond end), rest).
Definition timer_spec (max time_out : Z) e q : timer_obs C * list (Z * C) :=
  match e with
  | AddTimer now c => if zlen q <? max then (Added true, q ++ [(now + time_out * millisecond, c)]) else (Added false, q)
  | Round now => spec_round now q
  end.

Fixpoint trace {S} (step : timer_event C -> S -> timer_obs C * S) (es : list (timer_event C)) (s : S) : list (timer_obs C) :=
  match es with [] => [] | e :: es => let '(o, s) := step e s in o :: trace step es s end.

(** The clock does not go back, from [start] on and for [span]. *)
Fixpoint clocked (last finish : Z) (es : list (timer_event C)) : Prop :=
  match es with [] => True | e :: es => last <= event_time e <= finish /\ clocked (event_time e) finish es end.

(** Deadlines are ordered, and none is more than the time-out ahead. *)
Fixpoint ordered (first : Z) q : Prop := match q with [] => True | t :: q => first <= t.1 /\ ordered t.1 q end.

Lemma ordered_ge first q : ordered first q -> Forall (fun t => first <= t.1) q.
Proof.
  revert first. induction q as [|t q IH]; intros first; [done|]. intros [Ht Hq]. constructor; [done|].
  eapply Forall_impl; [by apply IH|]. cbn. lia.
Qed.

Lemma ordered_snoc first q t : ordered first q -> first <= t.1 -> Forall (fun u => u.1 <= t.1) q -> ordered first (q ++ [t]).
Proof.
  revert first. induction q as [|u q IH]; intros first; [done|]. intros [Hu Hq] Ht [Hut Hf]%Forall_cons. split; [done|]. by apply IH.
Qed.

Lemma filter_nothing {A} (p : A -> bool) l : Forall (fun x => p x = false) l -> List.filter p l = [].
Proof. induction 1 as [|x l Hx _ IH]; [done|]. cbn. by rewrite Hx. Qed.
Lemma filter_everything {A} (p : A -> bool) l : Forall (fun x => p x = true) l -> List.filter p l = l.
Proof. induction 1 as [|x l Hx _ IH]; [done|]. cbn. by rewrite Hx, IH. Qed.

Definition in_range (now d : Z) : Prop := - 2^31 * millisecond < d - now < 2^31 * millisecond.

Lemma time_diff_due now d : in_range now d ->
  (NEGNIGIBLE_DELAY <? s32 (Z.quot (d - now) millisecond)) = negb (d <? now + (NEGNIGIBLE_DELAY + 1) * millisecond) /\
  (now + (NEGNIGIBLE_DELAY + 1) * millisecond <= d -> s32 (Z.quot (d - now) millisecond) = (d - now) / millisecond).
Proof.
  unfold in_range, NEGNIGIBLE_DELAY, millisecond, s32. intros H.
  assert (- 2^31 <= Z.quot (d - now) (10^6) < 2^31) as Hq by zdiv.
  rewrite Z.mod_small by lia. replace (Z.quot (d - now) (10^6) + 2^31 - 2^31) with (Z.quot (d - now) (10^6)) by lia.
  split; [|intros; apply Z.quot_div_nonneg; lia].
  destruct (Z.ltb_spec d (now + (10 + 1) * 10^6)); cbn [negb]; [apply Z.ltb_ge|apply Z.ltb_lt]; zdiv.
Qed.

Lemma expire_spec now first q : ordered first q -> Forall (fun t => in_range now t.1) q ->
  Timers.expire now q = (snd <$> List.filter (due now) q, List.filter (fun t => negb (due now t)) q,
    match List.filter (fun t => negb (due now t)) q with [] => 0 | t :: _ => (t.1 - now) / millisecond end).
Proof.
  revert first. induction q as [|[d c] q IH]; intros first; [done|]. intros [Hd Hq] [Hr Hf]%Forall_cons.
  cbn [Timers.expire List.filter fst] in *. destruct (time_diff_due now d Hr) as [-> Hs].
  change (d <? now + (NEGNIGIBLE_DELAY + 1) * millisecond) with (due now (d, c)). unfold due at 4 7 8. cbn [fst].
  destruct (Z.ltb_spec d (now + (NEGNIGIBLE_DELAY + 1) * millisecond)) as [Hlt|Hge].
  - assert (due now (d, c) = true) as -> by (by apply Z.ltb_lt). cbn [negb]. by rewrite (IH d Hq Hf).
  - assert (due now (d, c) = false) as -> by (by apply Z.ltb_ge). cbn [negb]. rewrite Hs by done.
    assert (Forall (fun t => due now t = false) q) as Hnd.
    { eapply Forall_impl; [by apply (ordered_ge d)|]. intros t Ht. apply Z.ltb_ge. cbn in Ht. lia. }
    rewrite filter_nothing by done. rewrite filter_everything; [done|].
    eapply Forall_impl; [exact Hnd|]. cbn. by intros t ->.
Qed.

Lemma ordered_weaken first first' q : first <= first' -> ordered first' q -> ordered first q.
Proof. destruct q as [|t q]; [done|]. intros H [Ht Hq]. split; [lia|done]. Qed.

Lemma ordered_filter first (p : Z * C -> bool) q : ordered first q -> ordered first (List.filter p q).
Proof.
  revert first. induction q as [|t q IH]; intros first; [done|]. intros [Ht Hq]. cbn. destruct (p t).
  - split; [done|]. by apply IH.
  - eapply ordered_weaken; [exact Ht|]. by apply IH.
Qed.

Lemma Forall_List_filter {A} (P : A -> Prop) (p : A -> bool) l : Forall P l -> Forall P (List.filter p l).
Proof. induction 1 as [|x l Hx _ IH]; [done|]. cbn. destruct (p x); [by constructor|done]. Qed.

(** A clock that advances less than twelve days and a time-out below that do
    not overflow an [int32_t] of milliseconds. *)
Lemma timers_refine max time_out start finish es :
  0 <= time_out < 2^30 -> finish - start < 2^30 * millisecond ->
  forall last q, start <= last -> clocked last finish es ->
    ordered start q -> Forall (fun t => t.1 <= last + time_out * millisecond) q ->
    trace queue_step es (MkTimerQueue max time_out q) = trace (timer_spec max time_out) es q.
Proof.
  intros Ht Hf. induction es as [|e es IH]; intros last q Hl Hc Ho Hq; [done|]. destruct Hc as [He Hc].
  cbn [trace queue_step timer_spec event_time]. unfold millisecond in *. destruct e as [now c|now]; cbn [queue_step timer_spec event_time] in *.
  - unfold Timers.addTimer. cbn [max_size_ time_out_ timer_queue_]. rewrite Z.leb_antisym.
    destruct (zlen q <? max) eqn:E; cbn [negb].
    + f_equal. apply (IH now); [lia|done| |].
      * apply ordered_snoc; [done|cbn; unfold millisecond; lia|]. eapply Forall_impl; [exact Hq|]. cbn. unfold millisecond. lia.
      * apply Forall_app. split; [eapply Forall_impl; [exact Hq|]; cbn; lia|]. apply Forall_singleton. cbn. unfold millisecond. lia.
    + f_equal. apply (IH now); [lia|done|done|]. eapply Forall_impl; [exact Hq|]. cbn. lia.
  - unfold Timers.removeExpireTimers. cbn [timer_queue_ max_size_ time_out_].
    assert (Forall (fun t => in_range now t.1) q) as Hr.
    { pose proof (ordered_ge _ _ Ho) as Hge. rewrite Forall_forall in *. intros t Hin. specialize (Hq t Hin). specialize (Hge t Hin).
      cbn in Hq, Hge. unfold in_range, millisecond. lia. }
    rewrite (expire_spec now start q Ho Hr). unfold spec_round. f_equal.
    apply (IH now); [lia|done|by apply ordered_filter|]. apply Forall_List_filter. eapply Forall_impl; [exact Hq|]. cbn. lia.
Qed.
End TimerSpec.
