(* ===== verification/Server.v ===== *)
(** The DHCPv4 server: server/server.cpp, client/client_context.cpp, the
    request queue of rpc/rpc_allocate_engine.cpp and the bookkeeping of
    ping/ping.cpp, as one state machine.

    A handler is a function from the shared state to the state it leaves; an
    exception that leaves a handler is a result.  The threads of the program
    (workers, RPC connections, ping receiver, timer) are the steps of the
    relation [step]: each runs one handler to its end.  An exception that
    escapes a thread, and a failed assertion, terminate the process. *)
From stdpp Require Import base list numbers option strings gmap.
From Stdlib Require Import ZArith Lia.
From S2P Require Import Prelude Buffer HwAddr Address DnsName OptionDef Options Pkt.
From S2P Require Import Nic Subnet ResponseGen ClientClass.

Definition MAX_RETRY_COUNT : Z := 5.
Definition DECLINE_CONFLICT_TRANS_ID : Z := 1234.
Definition DEFAULT_CONN_COUNT : nat := 4.
Definition PING_QUEUE_MAX_SIZE : Z := 4096.

(** [shared_subnet_id_] has no initial value: [None] until it is set. *)
Record ClientContext := MkContext {
  cc_subnet_ : Subnet; shared_subnet_id_ : option Z; query_ : Pkt;
  is_request_addr_conflict_ : bool; your_addr_ : IOAddress; retry_count_ : Z }.

#[global] Instance ClientContext_eta : Eta ClientContext := fun c =>
  MkContext (cc_subnet_ c) (shared_subnet_id_ c) (query_ c) (is_request_addr_conflict_ c)
    (your_addr_ c) (retry_count_ c).

Module Ctx.

Definition make (query : Pkt) (subnet : Subnet) : ClientContext :=
  MkContext subnet None query false (IOAddr.of_uint32 0) 0.

Definition getClientID (c : ClientContext) : list Z :=
  match P.getOption DHO_DHCP_CLIENT_IDENTIFIER (query_ c) with Some o => data_ o | None => [] end.
Definition getHWAddr (c : ClientContext) : list Z := hwaddr_ (chaddr_ (query_ c)).

Definition getRequestAddr (c : ClientContext) : result IOAddress :=
  match P.getOption DHO_DHCP_REQUESTED_ADDRESS (query_ c) ≫= as_custom with
  | Some bufs => readAddress bufs 0
  | None => if negb (IOAddr.isV4Zero (ciaddr_ (query_ c))) then Ok (ciaddr_ (query_ c))
            else Ok (IOAddr.of_uint32 0)
  end.

Definition getQueryType (c : ClientContext) : result Z := P.getType (query_ c).
Definition getSubnetID (c : ClientContext) : Z := sid_ (cc_subnet_ c).
Definition getSharedSubnetID (c : ClientContext) : result Z :=
  match shared_subnet_id_ c with Some v => Ok v | None => Crash end.

Definition setSharedSubnetID (id : Z) (c : ClientContext) : ClientContext := c <| shared_subnet_id_ := Some id |>.
Definition setRequestAddrConflict (b : bool) (c : ClientContext) : ClientContext :=
  c <| is_request_addr_conflict_ := b |>.
Definition setYourAddr (a : IOAddress) (c : ClientContext) : ClientContext := c <| your_addr_ := a |>.
Definition addRetryCount (c : ClientContext) : ClientContext := c <| retry_count_ := retry_count_ c + 1 |>.

End Ctx.

(** [RPCRecord]: the context and whether there is a callback. *)
Definition RPCRecord : Type := ClientContext * bool.

(** What is sent to the master: [ContextMsg] of rpc/context.proto. *)
Inductive RequestType : Set := Discover | Request | Release | Decline | ConflictIP.

Record ContextMsg := MkContextMsg {
  requesttype : option RequestType; subnetid : Z; clientid : list Z; mac : list Z;
  hostname : string; requestaddr : Z }.

(** The shared state: the RPC queue, the request each connection waits for,
    the ping records with their timers, and the packets to send. *)
Record Srv := MkSrv {
  request_queue_ : list RPCRecord;
  in_flight_ : list RPCRecord;
  seq_record_map_ : gmap Z ClientContext;
  timer_queue_ : list Z;
  out_queue_ : list Pkt }.

#[global] Instance Srv_eta : Eta Srv := fun s =>
  MkSrv (request_queue_ s) (in_flight_ s) (seq_record_map_ s) (timer_queue_ s) (out_queue_ s).

Definition srv_init : Srv := MkSrv [] [] ∅ [] [].

(** What surrounds the server: option definitions, interfaces, subnets, the
    configured client classes, the registered callouts and whether the
    ping check is enabled. *)
Record Env := MkEnv {
  env_lib : LibDHCP;
  env_ifmgr : IfaceMgr;
  env_subnets : SubnetMgr;
  env_alloc : Z -> bool;
  (** the encoded size of a message, from the generated protobuf code *)
  ByteSize : ContextMsg -> Z;
  env_classes : ClientClassManager;
  (** what the pkt4_receive callouts may do with a packet: the packet they
      leave and whether they ask to skip it.  They have a state of their own
      (see [call_pkt4_receive] in Hooks.v), so that the outcome may differ
      from one packet to the next. *)
  receive_may : Pkt -> result (Pkt * bool) -> Prop;
  (** the answer after the pkt4_send callouts *)
  pkt4_send : Pkt -> Pkt -> Pkt;
  ping_enabled : bool }.

Inductive RequirementLevel : Set := FORBIDDEN | MANDATORY | OPTIONAL.

Module Server.
Section Server.
Variable env : Env.

(** ** Admission *)
Definition acceptDirectRequest (pkt : Pkt) : result bool :=
  if P.isRelayed pkt then Ok true
  else
    t ← P.getType pkt;
    Ok (negb ((t =? DHCPINFORM) && IOAddr.isV4Zero (remote_addr_ pkt) && IOAddr.isV4Zero (ciaddr_ pkt))).

Definition acceptMessageType (query : Pkt) : result bool :=
  type ← P.getType query;
  Ok ((type =? DHCPDISCOVER) || (type =? DHCPREQUEST) || (type =? DHCPRELEASE) ||
      (type =? DHCPDECLINE) || (type =? DHCPINFORM)).

Definition acceptServerId (query : Pkt) : result bool :=
  match P.getOption DHO_DHCP_SERVER_IDENTIFIER query with
  | None => Ok true
  | Some o =>
      match as_custom o with
      | None => Ok false
      | Some bufs =>
          if negb (zlen bufs =? 1) then Ok false
          else
            server_id ← readAddress bufs 0;
            if negb (IOAddr.isV4 server_id) then Ok false
            else Ok (Mgr.hasOpenSocket_addr server_id (env_ifmgr env))
      end
  end.

Definition accept (query : Pkt) : result bool :=
  a ← acceptMessageType query;
  if negb a then Ok false
  else
    b ← acceptDirectRequest query;
    if negb b then Ok false
    else
      c ← acceptServerId query;
      Ok (c : bool).

Definition sanityCheck (query : Pkt) (serverid : RequirementLevel) : result unit :=
  let server_id := match P.getOption DHO_DHCP_SERVER_IDENTIFIER query with Some _ => true | None => false end in
  match serverid with
  | FORBIDDEN => throw_if server_id RFCViolation
  | MANDATORY => throw_if (negb server_id) RFCViolation
  | OPTIONAL => Ok tt
  end;;
  if negb (bool_decide (hwaddr_ (chaddr_ query) = [])) then Ok tt
  else
    match P.getOption DHO_DHCP_CLIENT_IDENTIFIER query with
    | None => Throw RFCViolation
    | Some client_id => l ← Options.len client_id; throw_if (l =? OPTION4_HDR_LEN) RFCViolation
    end.

(** ** Classification and subnet selection *)
Definition classifyPacket (pkt : Pkt) : result Pkt :=
  pkt_meet_classes ← Classes.getMatchedClass (env_classes env) pkt;
  Ok (foldl (fun p c => P.addClass c p) pkt pkt_meet_classes).

Definition option_select (query : Pkt) : result IOAddress :=
  match P.getOption DHO_DHCP_AGENT_OPTIONS query with
  | Some rai =>
      match as_custom rai with
      | Some _ =>
          match Option_.getOption RAI_OPTION_LINK_SELECTION rai with
          | Some link_select =>
              if zlen (data_ link_select) =? 4 then IOAddr.fromBytes IOAddr.AF_INET (data_ link_select)
              else Ok IOAddr.IPV4_ZERO_ADDRESS
          | None => Ok IOAddr.IPV4_ZERO_ADDRESS
          end
      | None => Ok IOAddr.IPV4_ZERO_ADDRESS
      end
  | None =>
      match P.getOption DHO_SUBNET_SELECTION query with
      | Some sbnsel =>
          match as_custom sbnsel with
          | Some bufs => readAddress bufs 0
          | None => Ok IOAddr.IPV4_ZERO_ADDRESS
          end
      | None => Ok IOAddr.IPV4_ZERO_ADDRESS
      end
  end.

Definition selectSubnet (query : Pkt) : result (option Subnet) :=
  os ← option_select query;
  SMgr.selectSubnet (env_ifmgr env)
    (MkSelector (ciaddr_ query) (giaddr_ query) os (local_addr_ query) (remote_addr_ query)
       (classes_ query) (iface_ query)) (env_subnets env).

(** ** Effects on the shared state *)
Definition allocateAddr (ctx : ClientContext) (callback : bool) (w : Srv) : Srv :=
  w <| request_queue_ := request_queue_ w ++ [(ctx, callback)] |>.

Definition blockingWrite (rsp : Pkt) (w : Srv) : Srv := w <| out_queue_ := out_queue_ w ++ [rsp] |>.

(** [pack], the pkt4_send callouts, the out queue. *)
Definition send (query resp : Pkt) (w : Srv) : result Srv :=
  resp ← P.pack (env_alloc env) resp;
  Ok (blockingWrite (pkt4_send env query resp) w).

Definition denyRequest (req : Pkt) (w : Srv) : result Srv :=
  resp ← Resp.genNakResponse (env_ifmgr env) req; send req resp w.

Definition assignLease (ctx : ClientContext) (subnet : Subnet) (w : Srv) : result Srv :=
  resp ← Resp.genAckResponse (env_ifmgr env) (query_ ctx) (your_addr_ ctx) subnet;
  send (query_ ctx) resp w.

Definition allocateSubnet (ctx : ClientContext) (w : Srv) : result Srv :=
  shared_subnet_id ← Ctx.getSharedSubnetID ctx;
  if negb (shared_subnet_id =? 0) && negb (shared_subnet_id =? Ctx.getSubnetID ctx) then
    match SMgr.getSubnet shared_subnet_id (env_subnets env) with
    | None => denyRequest (query_ ctx) w
    | Some subnet => assignLease ctx subnet w
    end
  else assignLease ctx (cc_subnet_ ctx) w.

Definition allocateLease (ctx : ClientContext) (w : Srv) : Srv :=
  if MAX_RETRY_COUNT <? retry_count_ ctx then w else allocateAddr ctx true w.

(** ** Callbacks *)
Definition onPingFinish (ctx : ClientContext) (w : Srv) : result Srv :=
  if is_request_addr_conflict_ ctx then
    let decline_ip := your_addr_ ctx in
    subnet ← SMgr.selectSubnet_addr decline_ip (classes_ (query_ ctx)) (env_subnets env);
    w ← match subnet with
        | Some s =>
            decline ← P.make DHCPCONFLICTIP DECLINE_CONFLICT_TRANS_ID;
            Ok (allocateAddr (Ctx.make (decline <| ciaddr_ := decline_ip |>) s) false w)
        | None => Ok w
        end;
    Ok (allocateLease (Ctx.addRetryCount ctx) w)
  else allocateSubnet ctx w.

(** [Pinger::ping]; [pack_id] is what the random number and the sequence
    counter give.  When the timer queue is full the context is dropped, and
    [std::map::insert] keeps an existing record. *)
Definition ping (pack_id : Z) (ctx : ClientContext) (w : Srv) : result Srv :=
  if negb (ping_enabled env) then onPingFinish ctx w
  else if PING_QUEUE_MAX_SIZE <=? zlen (timer_queue_ w) then Ok w
  else
    let w := w <| timer_queue_ := timer_queue_ w ++ [pack_id] |> in
    Ok (match seq_record_map_ w !! pack_id with
        | Some _ => w
        | None => w <| seq_record_map_ := <[pack_id := ctx]> (seq_record_map_ w) |>
        end).

Definition notifyPingTarget (pack_id : Z) (reachable : bool) (w : Srv) : result Srv :=
  match seq_record_map_ w !! pack_id with
  | Some ctx =>
      onPingFinish (Ctx.setRequestAddrConflict reachable ctx)
        (w <| seq_record_map_ := delete pack_id (seq_record_map_ w) |>)
  | None => Ok w
  end.

Definition onRPCFinish (pack_id : Z) (ctx : ClientContext) (w : Srv) : result Srv :=
  let allocated_addr := your_addr_ ctx in
  if IOAddr.isV4Bcast allocated_addr || IOAddr.isV4Zero allocated_addr then denyRequest (query_ ctx) w
  else
    t ← Ctx.getQueryType ctx;
    if (t =? DHCPDISCOVER) && negb (IOAddr.equals (ciaddr_ (query_ ctx)) allocated_addr)
    then ping pack_id ctx w
    else allocateSubnet ctx w.

Definition MAX_RESULT_BODY_LEN : Z := 1024.

(** [RpcConn::marshRequset]: other message types leave the type unset. *)
Definition marshRequset (ctx : ClientContext) : result ContextMsg :=
  t ← Ctx.getQueryType ctx;
  a ← Ctx.getRequestAddr ctx;
  addr ← IOAddr.toLong a;
  let msg := MkContextMsg
    (if t =? DHCPDISCOVER then Some Discover else if t =? DHCPREQUEST then Some Request
     else if t =? DHCPRELEASE then Some Release else if t =? DHCPDECLINE then Some Decline
     else if t =? DHCPCONFLICTIP then Some ConflictIP else None)
    (Ctx.getSubnetID ctx) (Ctx.getClientID ctx) (Ctx.getHWAddr ctx) "" addr in
  assert_ (ByteSize env msg + 2 <? MAX_RESULT_BODY_LEN);;
  Ok msg.

(** [RpcConn::messageWrite] of an idle connection. *)
Definition messageWrite (w : Srv) : option (result Srv) :=
  match request_queue_ w with
  | [] => None
  | r :: rest =>
      if decide (length (in_flight_ w) < DEFAULT_CONN_COUNT)%nat then
        Some (marshRequset r.1;; Ok (w <| request_queue_ := rest |> <| in_flight_ := in_flight_ w ++ [r] |>))
      else None
  end.

(** [RpcConn::unMarshResult] with the decoded answer of the master: the
    address and subnet when it succeeded. *)
Definition unMarshResult (pack_id : Z) (answer : option (Z * Z)) (r : RPCRecord) (w : Srv) : result Srv :=
  let '(addr, subnet_id) := match answer with Some (a, s) => (IOAddr.fromLong a, u32 s)
                                              | None => (IOAddr.of_uint32 0, 0) end in
  let ctx := Ctx.setSharedSubnetID subnet_id (Ctx.setYourAddr addr r.1) in
  if r.2 then onRPCFinish pack_id ctx w else Ok w.

(** ** Queries *)
Definition processRequest (query : Pkt) (w : Srv) : result Srv :=
  t ← P.getType query;
  (if t =? DHCPDISCOVER then sanityCheck query FORBIDDEN else Ok tt);;
  subnet ← selectSubnet query;
  match subnet with
  | None => denyRequest query w
  | Some s => Ok (allocateLease (Ctx.make query s) w)
  end.

Definition processRelease (release : Pkt) (w : Srv) : result Srv :=
  subnet ← SMgr.selectSubnet_addr (ciaddr_ release) (classes_ release) (env_subnets env);
  Ok (match subnet with Some s => allocateAddr (Ctx.make release s) false w | None => w end).

Definition processDecline (decline : Pkt) (w : Srv) : result Srv :=
  match P.getOption DHO_DHCP_REQUESTED_ADDRESS decline ≫= as_custom with
  | Some bufs =>
      request_ip ← readAddress bufs 0;
      subnet ← SMgr.selectSubnet_addr request_ip (classes_ decline) (env_subnets env);
      Ok (match subnet with Some s => allocateAddr (Ctx.make decline s) false w | None => w end)
  | None => Ok w
  end.

Definition processInform (inform : Pkt) (w : Srv) : result Srv :=
  sanityCheck inform FORBIDDEN;;
  subnet ← SMgr.selectSubnet_addr (ciaddr_ inform) (classes_ inform) (env_subnets env);
  match subnet with
  | None => denyRequest inform w
  | Some s =>
      resp ← Resp.genAckResponse (env_ifmgr env) inform (IOAddr.of_uint32 0) s;
      send inform resp w
  end.

(** The [switch] inside the second [try]. *)
Definition dispatch (query : Pkt) (w : Srv) : result Srv :=
  t ← P.getType query;
  if (t =? DHCPDISCOVER) || (t =? DHCPREQUEST) then processRequest query w
  else if t =? DHCPRELEASE then processRelease query w
  else if t =? DHCPDECLINE then processDecline query w
  else if t =? DHCPINFORM then processInform query w
  else Ok w.

(** [receive] is what the callouts do this time. *)
Definition processPacket (receive : Pkt -> result (Pkt * bool)) (query : Pkt) (w : Srv) : result Srv :=
  match P.unpack (env_lib env) query with
  | Throw _ => Ok w
  | Crash => Crash
  | NoFuel => NoFuel
  | Ok query =>
      query ← classifyPacket query;
      a ← accept query;
      if negb a then Ok w
      else
        '(query, skip) ← receive query;
        if (skip : bool) then Ok w else try_std (dispatch query w) (fun _ => Ok w)
  end.

(** ** The threads *)
Definition RPC_reply (i : nat) (pack_id : Z) (answer : option (Z * Z)) (w : Srv) : option (result Srv) :=
  r ← in_flight_ w !! i;
  Some (unMarshResult pack_id answer r (w <| in_flight_ := delete i (in_flight_ w) |>)).

(** One step of some thread: the state it leaves, or [None] when an escaping
    exception or an assertion terminates the process.  [net] restricts the
    datagrams the network delivers. *)
Variable net : list Z -> Prop.

Definition outcome (r : result Srv) : option Srv := match r with Ok w => Some w | _ => None end.

(** The packet [PktFilterInet::receive] makes of a datagram that arrived on
    socket [sock] of interface [i]; [pktinfo] is the control message with the
    interface index and the destination address. *)
Definition received (i : Iface) (sock : SocketInfo) (data : list Z) (from from_port : Z)
    (pktinfo : option (Z * Z)) : result Pkt :=
  q ← P.make_data data;
  let q := q <| ifindex_ := If.getIndex i |> <| iface_ := if_name_ i |>
             <| remote_addr_ := IOAddr.of_uint32 from |> <| remote_port_ := from_port |>
             <| local_port_ := port_ sock |> in
  Ok (match pktinfo with
      | Some (ipi_ifindex, ipi_addr) =>
          q <| ifindex_ := ipi_ifindex |> <| local_addr_ := IOAddr.of_uint32 ipi_addr |>
      | None => q
      end).

Inductive step (w : Srv) : option Srv -> Prop :=
| step_packet i sock data from from_port pktinfo receive q : (** a worker takes a received packet *)
    i ∈ ifaces_ (env_ifmgr env) -> sock ∈ if_sockets_ i ->
    zlen data < 2^16 -> bytes_ok data -> net data ->
    received i sock data from from_port pktinfo = Ok q -> (forall p, receive_may env p (receive p)) ->
    step w (outcome (processPacket receive q w))
| step_rpc_take res : (** a connection takes the next request *)
    messageWrite w = Some res -> step w (outcome res)
| step_rpc_reply i pack_id answer res : (** the master answers *)
    RPC_reply i pack_id answer w = Some res -> step w (outcome res)
| step_rpc_lost i : (** a connection breaks: its request is lost *)
    step w (Some (w <| in_flight_ := delete i (in_flight_ w) |>))
| step_echo pack_id : (** an echo reply arrives *)
    step w (outcome (notifyPingTarget pack_id true w))
| step_timer pack_id rest : (** the oldest timer expires *)
    timer_queue_ w = pack_id :: rest ->
    step w (outcome (notifyPingTarget pack_id false (w <| timer_queue_ := rest |>)))
| step_sent p rest : (** the sender thread takes a packet *)
    out_queue_ w = p :: rest -> step w (Some (w <| out_queue_ := rest |>)).

Inductive reachable : Srv -> Prop :=
| reach_init : reachable srv_init
| reach_step w w' : reachable w -> step w (Some w') -> reachable w'.

End Server.
End Server.
