(* ===== verification/Ping.v ===== *)
(** The sockets of the ping check: [sendPacket] and [recvPacket] of
    ping/ping.cpp, over the messages of Icmp.v. *)
From stdpp Require Import base list numbers option strings gmap.
From Stdlib Require Import ZArith Lia.
From S2P Require Import Prelude Buffer HwAddr Encode Text Json Address DnsName OptionDef Options Pkt Nic Subnet ResponseGen.
From S2P Require Import OptionText ClientClass Icmp Server.

(** The variables of the receiving thread: the array, which is not
    initialised, the length and the id. *)
Record Receiver := MkReceiver { recv_packet : list Z; packet_len : Z }.

(** What [select] and [recvfrom] give. *)
Inductive ping_event : Type := StopWritten | SelectFailed | Arrived (data : list Z) | RecvFailed.

(** What a turn of the loop does: it ends the thread, or it notifies the
    request with an id. *)
Inductive ping_turn : Type := ThreadEnds | Notifies (pack_id : Z) (r : Receiver) | Ignores (r : Receiver).

Module Pinger.
Section Pinger.
Context `{Inet6}.

(** [getsockaddr] on the text of an address. *)
Definition getsockaddr (ip_addr : list Z) : option Z :=
  match inet_pton4 ip_addr with
  | None => None
  | Some v => if v =? 0xFFFFFFFF then None else Some v (** [INADDR_NONE] *)
  end.

(** The destination and the message; a failure of [sendto] is only logged. *)
Definition sendPacket (ip_addr : IOAddress) (pack_seq random : Z) (send_packet : list Z) : result (Z * list Z) :=
  match getsockaddr (address_text ip_addr) with
  | None => Crash
  | Some dest => msg ← Icmp.sent pack_seq random send_packet; Ok (dest, msg)
  end.
End Pinger.

(** A failed [select] leaves the set as it was, so the thread reads the pipe
    and waits there for [stop].  The length is unsigned: a failed [recvfrom]
    gives 2^32 - 1 and the message in the array is looked at again. *)
Definition recv_turn (e : ping_event) (r : Receiver) : result ping_turn :=
  match e with
  | StopWritten | SelectFailed => Ok ThreadEnds
  | Arrived _ | RecvFailed =>
      let r := match e with
        | Arrived data =>
            let data := take (Z.to_nat PACKET_SIZE) data in
            MkReceiver (data ++ drop (length data) (recv_packet r)) (zlen data)
        | _ => MkReceiver (recv_packet r) (u32 (-1))
        end in
      id ← Icmp.unpackIcmp (recv_packet r) (packet_len r);
      Ok (match id with Some pack_id => Notifies pack_id r | None => Ignores r end)
  end.

(** [recvPacket] with the records of the server. *)
Definition recvPacket (env : Env) (e : ping_event) (r : Receiver) (w : Srv) : result (option Receiver * Srv) :=
  t ← recv_turn e r;
  match t with
  | ThreadEnds => Ok (None, w)
  | Ignores r => Ok (Some r, w)
  | Notifies pack_id r => w ← Server.notifyPingTarget env pack_id true w; Ok (Some r, w)
  end.
End Pinger.

(** ** Facts *)
Definition receiver_ok (r : Receiver) : Prop := zlen (recv_packet r) = PACKET_SIZE.

Lemma recv_turn_total e r : receiver_ok r -> exists t, Pinger.recv_turn e r = Ok t /\
  match t with ThreadEnds => e = StopWritten \/ e = SelectFailed | Notifies _ r' | Ignores r' => receiver_ok r' end.
Proof.
  intros Hr. destruct e as [| |data|]; cbn [Pinger.recv_turn]; [eexists; split; [done|by left]|eexists; split; [done|by right]| |].
  - set (d := take _ data). assert (length d <= 128)%nat as Hd by (unfold d, PACKET_SIZE; rewrite length_take; lia).
    assert (receiver_ok (MkReceiver (d ++ drop (length d) (recv_packet r)) (zlen d))) as Hok.
    { unfold receiver_ok, zlen, PACKET_SIZE in *. cbn [recv_packet]. rewrite length_app, length_drop. lia. }
    destruct (unpack_total _ (zlen d) Hok) as [id E]. cbn [recv_packet packet_len] in *. rewrite E, bind_Ok. eexists. split; [done|]. by destruct id.
  - destruct (unpack_total (recv_packet r) (u32 (-1)) Hr) as [id E]. cbn [recv_packet packet_len]. rewrite E, bind_Ok. eexists. split; [done|]. by destruct id.
Qed.

(** A turn of the thread is a step of the server in which an echo reply
    arrives, or none. *)
Theorem ping_refines_server env net e r w : receiver_ok r ->
  match Pinger.recvPacket env e r w with
  | Ok (r', w') => (w' = w \/ Server.step env net w (Some w')) /\ match r' with Some r' => receiver_ok r' | None => w' = w end
  | _ => Server.step env net w None
  end.
Proof.
  intros Hr. unfold Pinger.recvPacket. destruct (recv_turn_total e r Hr) as (t & -> & Ht). rewrite bind_Ok.
  destruct t as [|pack_id r'|r']; [by split; [left|]| |by split; [left|]].
  pose proof (Server.step_echo env net w pack_id) as Hs. destruct (Server.notifyPingTarget env pack_id true w); cbn in Hs |- *; [by split; [right|]|done..].
Qed.

Lemma getsockaddr_text `{Inet6} v : addr_ok v -> v <> 0xFFFFFFFF -> Pinger.getsockaddr (address_text (V4 v)) = Some v.
Proof.
  intros Hv Hn. unfold addr_ok in Hv. unfold Pinger.getsockaddr, address_text. rewrite inet_roundtrip by (unfold byte_ok; zdiv).
  rewrite be32_add by (unfold byte_ok; zdiv). rewrite (proj2 (Z.eqb_neq _ _)) by zdiv. f_equal. zdiv.
Qed.

(** The request for an address is sent, and its reply, with any IP header,
    notifies the request with its id. *)
Theorem reply_notifies_request `{Inet6} v pack_seq random junk :
  addr_ok v -> v <> 0xFFFFFFFF -> zlen junk = PACKET_SIZE -> bytes_ok junk -> 0 <= pack_seq < 2^16 -> 0 <= random < 2^16 ->
  exists data cksum, Pinger.sendPacket (V4 v) pack_seq random junk = Ok (v, echo ICMP_ECHO cksum random pack_seq data) /\
    forall header cksum' r, iphdr_ok header -> zlen header + 64 <= PACKET_SIZE -> exists r',
      Pinger.recv_turn (Arrived (header ++ echo ICMP_ECHOREPLY cksum' random pack_seq data)) r = Ok (Notifies (Icmp.pack_id pack_seq random) r').
Proof.
  intros Hv Hn Hj Hb Hs Hrd. destruct (sent_eq pack_seq random junk Hj Hb) as (data & Hd & Hl & E). exists data. eexists. split.
  { unfold Pinger.sendPacket. by rewrite getsockaddr_text, E, bind_Ok by done. }
  intros header cksum' r Hh Hfit. unfold Pinger.recv_turn. set (m := header ++ _).
  assert (zlen m = zlen header + 64) as Hm by (unfold m, echo; rewrite !zlen_app, Hl; done).
  rewrite take_ge by (unfold zlen, PACKET_SIZE in *; lia). cbn [recv_packet packet_len]. rewrite Hm. unfold m. rewrite <- app_assoc.
  rewrite unpack_reply by done. rewrite bind_Ok. by eexists.
Qed.
