(* ===== verification/Sockets.v ===== *)
(** The sockets of the server: nic/pkt_filter_inet.cpp, nic/pkt_filter.cpp,
    the receiving and sending of nic/iface_mgr.cpp, and the loops of the two
    threads of server/ctrl_server.cpp that use them.

    The operating system answers every system call with a number; a function
    that makes several calls gives the calls it made with its result. *)
From stdpp Require Import base list numbers option strings gmap.
From Stdlib Require Import ZArith Lia.
From S2P Require Import Prelude Buffer HwAddr Encode Text Json Address DnsName OptionDef Options Pkt.
From S2P Require Import Nic Subnet ResponseGen OptionText PktText ClientClass Server.

(** ** System calls on sockets *)
Inductive syscall : Type :=
| Socket_ | SetCloexec (fd : Z) | BindToDevice (fd : Z) (name : string) | SetBroadcast (fd : Z)
| Bind (fd addr port : Z) | SetPktInfo (fd : Z) | SetNonblock (fd : Z) | Close (fd : Z).

(** What the calls of one function return. *)
Abbreviation OS := (syscall -> Z) (only parsing).

(** [if (call < 0) { close(sock); kea_throw(SocketConfigError, ...); }] *)
Definition or_close {A} (os : OS) (c : syscall) (sock : Z) (k : list syscall * result A) : list syscall * result A :=
  if os c <? 0 then ([c; Close sock], Throw SocketConfigError) else (c :: k.1, k.2).

Module Inet.
Definition sin_addr (receive_bcast : bool) (i : Iface) (a : IOAddress) : result Z :=
  if receive_bcast && If.isBroadcast i then Ok 0 else IOAddr.to_uint32 a.

Definition openSocket (os : OS) (i : Iface) (a : IOAddress) (port : Z) (receive_bcast send_bcast : bool)
    : list syscall * result SocketInfo :=
  match sin_addr receive_bcast i a with
  | Ok s_addr =>
      let sock := os Socket_ in
      if sock <? 0 then ([Socket_], Throw SocketConfigError)
      else
        let opened := Ok (MkSocketInfo a port sock (-1)) in
        let pktinfo := if negb (os (SetPktInfo sock) =? 0) then ([SetPktInfo sock; Close sock], Throw SocketConfigError)
                       else ([SetPktInfo sock], opened) in
        let bound := or_close os (Bind sock s_addr port) sock pktinfo in
        let broadcast := if send_bcast && If.isBroadcast i then or_close os (SetBroadcast sock) sock bound else bound in
        let device := if receive_bcast && If.isBroadcast i then or_close os (BindToDevice sock (if_name_ i)) sock broadcast else broadcast in
        let '(calls, r) := or_close os (SetCloexec sock) sock device in (Socket_ :: calls, r)
  | Throw e => ([], Throw e)
  | Crash => ([], Crash)
  | NoFuel => ([], NoFuel)
  end.

(** [PktFilter::openFallbackSocket] *)
Definition openFallbackSocket (os : OS) (a : IOAddress) (port : Z) : list syscall * result Z :=
  let sock := os Socket_ in
  if sock <? 0 then ([Socket_], Throw SocketConfigError)
  else
    let bound := match IOAddr.to_uint32 a with
      | Ok s_addr => or_close os (Bind sock s_addr port) sock
          (if negb (os (SetNonblock sock) =? 0) then ([SetNonblock sock; Close sock], Throw SocketConfigError) else ([SetNonblock sock], Ok sock))
      | _ => ([], Crash)
      end in
    let '(calls, r) := or_close os (SetCloexec sock) sock bound in (Socket_ :: calls, r).

(** The filter, over a system that answers the calls of every [openSocket]. *)
Definition filter (os : Iface -> IOAddress -> Z -> bool -> bool -> OS) : PktFilter :=
  MkPktFilter false (fun i a port rb sb => (openSocket (os i a port rb sb) i a port rb sb).2).

(** ** Receiving *)
Definition IPPROTO_IP : Z := 0.
Definition IP_PKTINFO : Z := 8.
Definition RCVBUFSIZE : Z := 1500.

(** A control message: level, type, and the interface index and destination
    address if it is an [in_pktinfo]. *)
Record Control := MkControl { cmsg_level : Z; cmsg_type : Z; ipi_ifindex : Z; ipi_addr : Z }.
Record Datagram := MkDatagram { dg_data : list Z; dg_from : Z; dg_port : Z; dg_control : list Control }.

Definition is_pktinfo (c : Control) : bool := (cmsg_level c =? IPPROTO_IP) && (cmsg_type c =? IP_PKTINFO).

(** [receive]; [None] of [recvmsg] is an error, [None] of the result the null
    pointer.  What does not fit the buffer is cut off. *)
Definition receive (i : Iface) (sock : SocketInfo) (recvmsg : option Datagram) : result (option Pkt) :=
  match recvmsg with
  | None => Throw SocketReadError
  | Some d =>
      let pktinfo := (fun c => (ipi_ifindex c, ipi_addr c)) <$> List.find is_pktinfo (dg_control d) in
      match Server.received i sock (take (Z.to_nat RCVBUFSIZE) (dg_data d)) (dg_from d) (dg_port d) pktinfo with
      | Ok q => Ok (Some q)
      | Throw e => if is_kea e then Ok None else Throw e
      | Crash => Crash
      | NoFuel => NoFuel
      end
  end.

(** ** Sending: the message of [sendmsg].  The control message is compiled in
    only with [OS_LINUX], which the build does not define. *)
Record Message := MkMessage { to_addr : Z; to_port : Z; iov : list (option Z) }.

Definition send (sendmsg : Z -> Message -> Z) (sockfd : Z) (p : Pkt) : result (Message * Z) :=
  a ← IOAddr.to_uint32 (remote_addr_ p);
  let m := MkMessage a (remote_port_ p) (OutputBuffer.contents (buffer_out_ p)) in
  let result := sendmsg sockfd m in
  throw_if (result <? 0) SocketWriteError;; Ok (m, result).
End Inet.

(** ** The manager *)
Module Io.
(** [FD_SET]: descriptors from [FD_SETSIZE] on are written outside the set. *)
Definition FD_SETSIZE : Z := 1024.
Definition fd_set (fd : Z) (s : list Z) : result (list Z) :=
  if (0 <=? fd) && (fd <? FD_SETSIZE) then Ok (fd :: s) else Crash.
Definition fd_isset (fd : Z) (s : list Z) : result bool :=
  if (0 <=? fd) && (fd <? FD_SETSIZE) then Ok (bool_decide (fd ∈ s)) else Crash.

Inductive selected : Type := Timeout | SelectError (errno : Z) | Ready (fds : list Z).

Definition EINTR : Z := 4.

(** The set and the largest descriptor in it. *)
Definition socket_set (stop_fd : Z) (m : IfaceMgr) : result (list Z * Z) :=
  '(s, maxfd) ← foldM (fun st i => foldM (fun '(s, maxfd) sock =>
      s ← fd_set (sockfd_ sock) s; Ok (s, Z.max maxfd (sockfd_ sock))) st (if_sockets_ i)) ([], 0) (ifaces_ m);
  s ← fd_set stop_fd s; Ok (s, Z.max maxfd stop_fd).

Fixpoint ready_socket (fds : list Z) (l : list SocketInfo) : result (option SocketInfo) :=
  match l with
  | [] => Ok None
  | s :: l => b ← fd_isset (sockfd_ s) fds; if b : bool then Ok (Some s) else ready_socket fds l
  end.
Fixpoint candidate (fds : list Z) (l : list Iface) : result (option (Iface * SocketInfo)) :=
  match l with
  | [] => Ok None
  | i :: l => s ← ready_socket fds (if_sockets_ i); match s with Some s => Ok (Some (i, s)) | None => candidate fds l end
  end.

(** [receive4], with the calls of the system as arguments. *)
Definition receive4 (select : Z -> list Z -> selected) (recvmsg : SocketInfo -> option Inet.Datagram)
    (stop_fd timeout_usec : Z) (m : IfaceMgr) : result (option Pkt) :=
  throw_if (1000000 <=? timeout_usec) BadValue;;
  '(sockets, maxfd) ← socket_set stop_fd m;
  match select (maxfd + 1) sockets with
  | Timeout => Ok None
  | SelectError errno => Throw (if errno =? EINTR then SignalInterruptOnSelect else SocketReadError)
  | Ready fds =>
      stop ← fd_isset stop_fd fds;
      if stop : bool then Ok None
      else
        c ← candidate fds (ifaces_ m);
        match c with
        | None => Throw SocketReadError
        | Some (i, s) => Inet.receive i s (recvmsg s)
        end
  end.

(** [IfaceMgr::send]: the descriptor, the message and whether it was sent. *)
Definition send (sendmsg : Z -> Inet.Message -> Z) (p : Pkt) (m : IfaceMgr) : result (Z * Inet.Message * bool) :=
  fd ← Mgr.send_socket p m;
  '(msg, n) ← Inet.send sendmsg fd p; Ok (fd, msg, negb (n =? 0)).

(** One turn of the receiving thread: the packet it queues, or whether it ends.
    An exception of [receive4] leaves the thread, which ends the process. *)
Inductive turn : Type := Queued (p : Pkt) | Nothing | Ended | Terminated.
Definition receiver_turn (select : Z -> list Z -> selected) (recvmsg : SocketInfo -> option Inet.Datagram)
    (stop_fd : Z) (stop_flag : bool) (m : IfaceMgr) : turn :=
  match receive4 select recvmsg stop_fd 0 m with
  | Ok p => if stop_flag then Ended else match p with Some p => Queued p | None => Nothing end
  | _ => Terminated
  end.

(** One turn of the sending thread: what is sent, or whether it ends; only
    [SocketWriteError] is caught.  The text is made for the log. *)
Inductive sender_turn_result : Type := SentOn (fd : Z) (msg : Inet.Message) | SendFailed | SenderEnded | SenderTerminated.
Definition sender_turn `{Inet6} `{TransformWidth} (endl_first : bool) (sendmsg : Z -> Inet.Message -> Z) (rsp : option Pkt)
    (m : IfaceMgr) : sender_turn_result :=
  match rsp with
  | None => SenderEnded
  | Some p =>
      match _ ← PText.toText endl_first p; send sendmsg p m with
      | Ok (fd, msg, _) => SentOn fd msg
      | Throw SocketWriteError => SendFailed
      | _ => SenderTerminated
      end
  end.

(** [getPlainMac], [printIfaces] *)
Definition getPlainMac (i : Iface) : list Z := Hex.toText (take (Z.to_nat (mac_len_ i)) (if_mac_ i)).
Definition printIface `{Inet6} (i : Iface) : list Z :=
  let flag (b : bool) s := if b then bytes_of s else [] in
  bytes_of "Detected interface " ++ bytes_of (if_name_ i) ++ [47] ++ int_text (if_index_ i) ++
  bytes_of ", hwtype=" ++ int_text (hardware_type_ i) ++ bytes_of ", mac=" ++ getPlainMac i ++
  bytes_of "(" ++ flag (If.isLoopBack i) "LOOPBACK " ++ flag (If.isUp i) "UP " ++ flag (If.isRunning i) "RUNNING " ++
  flag (If.isMulticast i) "MULTICAST " ++ flag (If.isBroadcast i) "BROADCAST " ++ bytes_of ")" ++ [10] ++
  bytes_of "  " ++ int_text (zlen (if_addrs_ i)) ++ bytes_of " addr(s):" ++
  concat ((fun a => bytes_of "  " ++ address_text a) <$> if_addrs_ i) ++ [10].
Definition printIfaces `{Inet6} (m : IfaceMgr) : list Z := concat (printIface <$> ifaces_ m).
End Io.
