(* ===== verification/SocketFacts.v ===== *)
(** Facts about the sockets of the server: what opening one leaves open, which
    socket is read, and where a packet goes. *)
From stdpp Require Import base list numbers option strings gmap.
From Stdlib Require Import ZArith Lia.
From S2P Require Import Prelude Buffer HwAddr Encode Text Json Address DnsName OptionDef Options Pkt PktFacts.
From S2P Require Import Nic Subnet ResponseGen OptionText PktText ClientClass Server Sockets.

(** ** Opening *)

(** The descriptors that are open after some calls. *)
Fixpoint held (os : syscall -> Z) (calls : list syscall) (fds : list Z) : list Z :=
  match calls with
  | [] => fds
  | Socket_ :: calls => held os calls (if os Socket_ <? 0 then fds else os Socket_ :: fds)
  | Close fd :: calls => held os calls (List.filter (fun x => negb (x =? fd)) fds)
  | _ :: calls => held os calls fds
  end.

(** What a socket was set up with. *)
Record set_up (calls : list syscall) (i : Iface) (v port : Z) (receive_bcast send_bcast : bool) (sock : Z) : Prop := MkSetUp {
  su_bound : Bind sock (if receive_bcast && If.isBroadcast i then 0 else v) port ∈ calls;
  su_device : BindToDevice sock (if_name_ i) ∈ calls <-> receive_bcast && If.isBroadcast i = true;
  su_broadcast : SetBroadcast sock ∈ calls <-> send_bcast && If.isBroadcast i = true;
  su_pktinfo : SetPktInfo sock ∈ calls }.

Ltac calls := repeat rewrite ?elem_of_cons, ?elem_of_nil in *; intuition (congruence || (exfalso; congruence)).

Lemma openSocket_spec os i v port rb sb :
  match Inet.openSocket os i (V4 v) port rb sb with
  | (calls, Ok s) => s = MkSocketInfo (V4 v) port (os Socket_) (-1) /\ 0 <= os Socket_ /\ held os calls [] = [os Socket_] /\
      set_up calls i v port rb sb (os Socket_)
  | (calls, Throw SocketConfigError) => held os calls [] = []
  | _ => False
  end.
Proof.
  unfold Inet.openSocket, Inet.sin_addr, or_close. cbn [IOAddr.to_uint32].
  assert ((if rb && If.isBroadcast i then Ok 0 else Ok v) = Ok (if rb && If.isBroadcast i then 0 else v)) as -> by (by destruct (rb && If.isBroadcast i)).
  assert (List.filter (fun x => negb (x =? os Socket_)) [os Socket_] = []) as Hf by (cbn; by rewrite Z.eqb_refl).
  destruct (os Socket_ <? 0) eqn:Es; [cbn; by rewrite Es|].
  destruct (rb && If.isBroadcast i) eqn:Er, (sb && If.isBroadcast i) eqn:Eb;
    repeat match goal with |- context [if os ?c <? 0 then _ else _] => destruct (os c <? 0); [cbn [held fst snd]; by rewrite Es, Hf|] end;
    (destruct (negb (os (SetPktInfo _) =? 0)); cbn [held fst snd]; rewrite Es; [done|]);
    (split_and!; [done|lia|done|]); split; rewrite ?Er, ?Eb; calls.
Qed.

(** ** Receiving *)
Definition in_set (fd : Z) : Prop := 0 <= fd < Io.FD_SETSIZE.

(** The sockets in the order in which they are looked at. *)
Definition all_sockets (l : list Iface) : list (Iface * SocketInfo) := concat ((fun i => (fun s => (i, s)) <$> if_sockets_ i) <$> l).

Definition fds_ok (stop_fd : Z) (m : IfaceMgr) : Prop := in_set stop_fd /\ Forall (fun x => in_set (sockfd_ x.2)) (all_sockets (ifaces_ m)).

Lemma all_sockets_cons i l : all_sockets (i :: l) = ((fun s => (i, s)) <$> if_sockets_ i) ++ all_sockets l.
Proof. done. Qed.

Lemma all_sockets_spec l i s : (i, s) ∈ all_sockets l <-> i ∈ l /\ s ∈ if_sockets_ i.
Proof.
  induction l as [|j l IH]; [split; [by intros ?%elem_of_nil|by intros [?%elem_of_nil _]]|].
  rewrite all_sockets_cons, elem_of_app, IH, elem_of_cons, list_elem_of_fmap. split.
  - intros [(x & [= -> ->] & Hx)|[H1 H2]]; [by split; [left|]|by split; [right|]].
  - intros [[->|Hi] Hs]; [left; by exists s|by right].
Qed.

Lemma fd_set_ok fd s : in_set fd -> Io.fd_set fd s = Ok (fd :: s).
Proof. intros [H1 H2]. unfold Io.fd_set. by rewrite (proj2 (Z.leb_le _ _)), (proj2 (Z.ltb_lt _ _)) by done. Qed.
Lemma fd_isset_ok fd s : in_set fd -> Io.fd_isset fd s = Ok (bool_decide (fd ∈ s)).
Proof. intros [H1 H2]. unfold Io.fd_isset. by rewrite (proj2 (Z.leb_le _ _)), (proj2 (Z.ltb_lt _ _)) by done. Qed.

(** The set holds the descriptors of the sockets and the one of [stop]. *)
Definition watched (stop_fd : Z) (m : IfaceMgr) : list Z := stop_fd :: rev ((fun x => sockfd_ x.2) <$> all_sockets (ifaces_ m)).
Definition largest (stop_fd : Z) (m : IfaceMgr) : Z := Z.max (foldl (fun n x => Z.max n (sockfd_ x.2)) 0 (all_sockets (ifaces_ m))) stop_fd.

Lemma socket_set_spec stop_fd m : fds_ok stop_fd m -> Io.socket_set stop_fd m = Ok (watched stop_fd m, largest stop_fd m).
Proof.
  intros [Hs Hall]. unfold Io.socket_set, watched, largest. set (f := fun n (x : Iface * SocketInfo) => Z.max n (sockfd_ x.2)).
  assert (forall l st n, Forall (fun x => in_set (sockfd_ x.2)) (all_sockets l) ->
    foldM (fun st i => foldM (fun '(s, maxfd) sock => s ← Io.fd_set (sockfd_ sock) s; Ok (s, Z.max maxfd (sockfd_ sock))) st (if_sockets_ i)) (st, n) l
    = Ok (rev ((fun x => sockfd_ x.2) <$> all_sockets l) ++ st, foldl f n (all_sockets l))) as H.
  { induction l as [|i l IH]; intros st n Hl; [done|]. cbn [foldM]. rewrite all_sockets_cons in Hl |- *. apply Forall_app in Hl as [H1 H2].
    assert (forall socks st n, Forall (fun x => in_set (sockfd_ x.2)) ((fun s => (i, s)) <$> socks) ->
      foldM (fun '(s, maxfd) sock => s ← Io.fd_set (sockfd_ sock) s; Ok (s, Z.max maxfd (sockfd_ sock))) (st, n) socks
      = Ok (rev (sockfd_ <$> socks) ++ st, foldl f n ((fun s => (i, s)) <$> socks))) as Hi.
    { induction socks as [|s socks IHs]; intros st' n' Hso; [done|]. apply Forall_cons_iff in Hso as [Hx Hso]. cbn [snd] in Hx.
      cbn [foldM]. rewrite fd_set_ok, !bind_Ok, IHs by done. cbn [fmap list_fmap rev foldl]. by rewrite <- app_assoc. }
    rewrite Hi, bind_Ok, IH by done. rewrite fmap_app, rev_app_distr, foldl_app, app_assoc.
    assert ((fun x : Iface * SocketInfo => sockfd_ x.2) <$> ((fun s => (i, s)) <$> if_sockets_ i) = sockfd_ <$> if_sockets_ i) as ->; [|done].
    rewrite <- list_fmap_compose. done. }
  rewrite H, bind_Ok, fd_set_ok, bind_Ok, app_nil_r by done. done.
Qed.

Definition is_ready (fds : list Z) (x : Iface * SocketInfo) : bool := bool_decide (sockfd_ x.2 ∈ fds).

Lemma candidate_spec fds l : Forall (fun x => in_set (sockfd_ x.2)) (all_sockets l) ->
  Io.candidate fds l = Ok (List.find (is_ready fds) (all_sockets l)).
Proof.
  induction l as [|i l IH]; [done|]. rewrite all_sockets_cons. intros [H1 H2]%Forall_app. cbn [Io.candidate].
  assert (Io.ready_socket fds (if_sockets_ i) = Ok (snd <$> List.find (is_ready fds) ((fun s => (i, s)) <$> if_sockets_ i)) /\
    forall x, List.find (is_ready fds) ((fun s => (i, s)) <$> if_sockets_ i) = Some x -> x = (i, x.2)) as [-> Hx].
  { induction (if_sockets_ i) as [|s socks IHs]; [done|]. cbn [fmap list_fmap] in H1. apply Forall_cons_iff in H1 as [Hs H1]. cbn [snd] in Hs.
    cbn [Io.ready_socket fmap list_fmap List.find]. rewrite fd_isset_ok, bind_Ok by done.
    change (is_ready fds (i, s)) with (bool_decide (sockfd_ s ∈ fds)). destruct (bool_decide (sockfd_ s ∈ fds)); [|by apply IHs].
    split; [done|]. by intros x [= <-]. }
  rewrite bind_Ok. assert (forall k, List.find (is_ready fds) (k ++ all_sockets l) =
    match List.find (is_ready fds) k with Some x => Some x | None => List.find (is_ready fds) (all_sockets l) end) as ->.
  { induction k as [|x k IHk]; [done|]. cbn. by destruct (is_ready fds x). }
  destruct (List.find (is_ready fds) (_ <$> if_sockets_ i)) as [x|] eqn:E; cbn [fmap option_fmap option_map]; [by rewrite (Hx x eq_refl)|by apply IH].
Qed.

(** What a datagram is for the server. *)
Definition first_pktinfo (d : Inet.Datagram) : option (Z * Z) :=
  (fun c => (Inet.ipi_ifindex c, Inet.ipi_addr c)) <$> List.find Inet.is_pktinfo (Inet.dg_control d).
Definition payload (d : Inet.Datagram) : list Z := take (Z.to_nat Inet.RCVBUFSIZE) (Inet.dg_data d).

Lemma received_outcome i sock data from port info :
  (exists q, Server.received i sock data from port info = Ok q) \/ Server.received i sock data from port info = Throw OutOfRange.
Proof. unfold Server.received, P.make_data. destruct (_ <? _); [by right|left]. by eexists. Qed.

(** When the receiving thread ends the process: [select] or [recvmsg] fails, or
    no socket is ready. *)
Definition receiver_fails (select : Z -> list Z -> Io.selected) (recvmsg : SocketInfo -> option Inet.Datagram) (stop_fd : Z) (m : IfaceMgr) : Prop :=
  match select (largest stop_fd m + 1) (watched stop_fd m) with
  | Io.Timeout => False
  | Io.SelectError _ => True
  | Io.Ready fds => (stop_fd ∉ fds) /\
      match List.find (is_ready fds) (all_sockets (ifaces_ m)) with None => True | Some (_, s) => recvmsg s = None end
  end.

Lemma receiver_spec select recvmsg stop_fd stop_flag m : fds_ok stop_fd m ->
  match Io.receiver_turn select recvmsg stop_fd stop_flag m with
  | Io.Terminated => receiver_fails select recvmsg stop_fd m
  | Io.Ended => stop_flag = true /\ ~ receiver_fails select recvmsg stop_fd m
  | Io.Nothing => stop_flag = false /\ ~ receiver_fails select recvmsg stop_fd m
  | Io.Queued q => stop_flag = false /\ ~ receiver_fails select recvmsg stop_fd m /\
      exists fds i sock d, select (largest stop_fd m + 1) (watched stop_fd m) = Io.Ready fds /\
        List.find (is_ready fds) (all_sockets (ifaces_ m)) = Some (i, sock) /\ recvmsg sock = Some d /\
        Server.received i sock (payload d) (Inet.dg_from d) (Inet.dg_port d) (first_pktinfo d) = Ok q
  end.
Proof.
  intros Hok. unfold Io.receiver_turn, Io.receive4, receiver_fails. cbn [Z.leb Z.compare throw_if]. rewrite bind_Ok, (socket_set_spec _ _ Hok), bind_Ok.
  destruct Hok as [Hs Hall]. destruct (select _ _) as [|errno|fds] eqn:Esel; [destruct stop_flag; (split; [done|tauto])|done|].
  rewrite fd_isset_ok, bind_Ok by done. case_bool_decide as Hst; [destruct stop_flag; (split; [done|tauto])|].
  rewrite candidate_spec, bind_Ok by done. destruct (List.find _ _) as [[i sock]|] eqn:Ef; [|done].
  unfold Inet.receive. destruct (recvmsg sock) as [d|] eqn:Er; [|done].
  change (_ <$> List.find _ _) with (first_pktinfo d). fold (payload d).
  destruct (received_outcome i sock (payload d) (Inet.dg_from d) (Inet.dg_port d) (first_pktinfo d)) as [[q E]|E]; rewrite E.
  - destruct stop_flag; [split; [done|by intros [_ ?]]|]. split; [done|]. split; [by intros [_ ?]|]. by exists fds, i, sock, d.
  - cbn [is_kea]. destruct stop_flag; (split; [done|by intros [_ ?]]).
Qed.
