(* ===== verification/Rpc.v ===== *)
(** The RPC client: rpc/rpc_allocate_engine.cpp with the messages of
    rpc/context.pb.cpp and rpc/lease.pb.cpp.

    A connection takes a request from the queue, sends it in a frame and reads
    the answer into the buffer the request was made in.  The coded streams of
    the protobuf library are an interface with the laws of its encoding. *)
From stdpp Require Import base list numbers option strings.
From Stdlib Require Import ZArith Lia.
From S2P Require Import Prelude Buffer HwAddr Encode Text Json Address DnsName OptionDef Options Pkt.
From S2P Require Import Nic Subnet ResponseGen ClientClass Config Statistics CmdServer Server.

(** ** The protobuf library *)
Class CodedStream := {
  Varint32 : Z -> list Z;
  VarintSize32 : Z -> Z;
  ReadTagWithCutoff : Z -> list Z -> Z * bool * list Z;
  ReadVarint32 : list Z -> option (Z * list Z);
  ReadVarint64 : list Z -> option (Z * list Z);
  ReadString : list Z -> option (list Z * list Z);
  SkipField : Z -> list Z -> option (list Z);
  VerifyUtf8String : list Z -> bool }.

Class CodedStreamLaws `{!CodedStream} := {
  varint_size v : 0 <= v < 2^32 -> zlen (Varint32 v) = VarintSize32 v;
  varint_bound v k : 0 <= v < 2^(7 * k) -> 1 <= k <= 5 -> 1 <= VarintSize32 v <= k;
  varint_bytes v : 0 <= v < 2^32 -> bytes_ok (Varint32 v);
  varint_nonzero v : 0 < v < 2^32 -> 0 ∉ Varint32 v;
  read_tag tag rest : 0 < tag <= 127 -> ReadTagWithCutoff 127 (Varint32 tag ++ rest) = (tag, true, rest);
  read_tag_end : ReadTagWithCutoff 127 [] = (0, false, []);
  read_tag_shorter input tag b rest : ReadTagWithCutoff 127 input = (tag, b, rest) -> tag <> 0 -> (length rest < length input)%nat;
  read_varint32 v rest : 0 <= v < 2^32 -> ReadVarint32 (Varint32 v ++ rest) = Some (v, rest);
  read_varint64 v rest : 0 <= v < 2^32 -> ReadVarint64 (Varint32 v ++ rest) = Some (v, rest);
  read_string b rest : zlen b < 2^31 -> ReadString (Varint32 (zlen b) ++ b ++ rest) = Some (b, rest);
  read_varint32_shorter input v rest : ReadVarint32 input = Some (v, rest) -> 0 <= v < 2^32 /\ (length rest <= length input)%nat;
  read_varint64_shorter input v rest : ReadVarint64 input = Some (v, rest) -> (length rest <= length input)%nat;
  read_string_shorter input b rest : ReadString input = Some (b, rest) -> (length rest <= length input)%nat;
  skip_shorter tag input rest : SkipField tag input = Some rest -> (length rest <= length input)%nat }.

Section Messages.
Context `{CodedStream}.

(** [WireFormatLite]: a field is its tag and its value; a field with the
    default value is left out. *)
Definition GetTagFieldNumber (tag : Z) : Z := Z.shiftr tag 3.
Definition GetTagWireType (tag : Z) : Z := Z.land tag 7.
Definition WIRETYPE_END_GROUP : Z := 4.

Definition write_uint32 (tag v : Z) : list Z := if v =? 0 then [] else Varint32 tag ++ Varint32 v.
Definition write_bytes (tag : Z) (b : list Z) : list Z :=
  if bool_decide (b = []) then [] else Varint32 tag ++ Varint32 (u32 (zlen b)) ++ b.
Definition size_uint32 (v : Z) : Z := if v =? 0 then 0 else 1 + VarintSize32 v.
Definition size_bytes (b : list Z) : Z :=
  if bool_decide (b = []) then 0 else 1 + (VarintSize32 (u32 (zlen b)) + zlen b).

(** What a turn of a parsing loop does with the field it has read. *)
Definition unusual {M} (tag : Z) (input : list Z) (msg : M) (again : list Z -> M -> result (bool * M)) : result (bool * M) :=
  if (tag =? 0) || (GetTagWireType tag =? WIRETYPE_END_GROUP) then Ok (true, msg)
  else match SkipField tag input with Some input => again input msg | None => Ok (false, msg) end.
Definition primitive {M A} (r : option (A * list Z)) (set : A -> M) (msg : M) (again : list Z -> M -> result (bool * M)) : result (bool * M) :=
  match r with Some (v, input) => again input (set v) | None => Ok (false, msg) end.

(** ** [LeaseResult] *)
Record LeaseResult := MkLease { succeed : bool; addr : Z; lease_subnetid : Z }.

Definition lease_default : LeaseResult := MkLease false 0 0.

Definition lease_serialize (l : LeaseResult) : list Z :=
  write_uint32 8 (if succeed l then 1 else 0) ++ write_uint32 16 (u32 (addr l)) ++ write_uint32 24 (u32 (lease_subnetid l)).
Definition lease_ByteSize (l : LeaseResult) : Z :=
  (if succeed l then 1 + 1 else 0) + size_uint32 (u32 (addr l)) + size_uint32 (u32 (lease_subnetid l)).

(** [MergePartialFromCodedStream]: whether it succeeded, and the message it
    leaves.  [ExpectTag] and [ExpectAtEnd] only save a turn of the loop. *)
Fixpoint lease_parse (fuel : nat) (input : list Z) (l : LeaseResult) : result (bool * LeaseResult) :=
  match fuel with
  | O => NoFuel
  | S fuel =>
      let '(tag, cutoff, input) := ReadTagWithCutoff 127 input in
      let again := lease_parse fuel in
      if negb cutoff then unusual tag input l again
      else if GetTagFieldNumber tag =? 1 then
        if tag =? 8 then primitive (ReadVarint64 input) (fun v => MkLease (negb (v =? 0)) (addr l) (lease_subnetid l)) l again
        else unusual tag input l again
      else if GetTagFieldNumber tag =? 2 then
        if tag =? 16 then primitive (ReadVarint32 input) (fun v => MkLease (succeed l) v (lease_subnetid l)) l again
        else unusual tag input l again
      else if GetTagFieldNumber tag =? 3 then
        if tag =? 24 then primitive (ReadVarint32 input) (fun v => MkLease (succeed l) (addr l) v) l again
        else unusual tag input l again
      else unusual tag input l again
  end.
(** [ParseFromIstream], whose result is ignored. *)
Definition lease_of (input : list Z) : result LeaseResult :=
  '(_, l) ← lease_parse (S (length input)) input lease_default; Ok l.

(** ** [ContextMsg] *)
Definition type_number (t : option RequestType) : Z :=
  match t with
  | Some Request => 1 | Some Release => 2 | Some Decline => 3 | Some ConflictIP => 4
  | Some Discover | None => 0
  end.

Definition context_serialize (m : ContextMsg) : list Z :=
  write_uint32 8 (type_number (requesttype m)) ++ write_uint32 16 (u32 (subnetid m)) ++ write_bytes 26 (clientid m) ++
  write_bytes 34 (mac m) ++ write_uint32 40 (u32 (requestaddr m)) ++ write_bytes 50 (bytes_of (hostname m)).
Definition context_ByteSize (m : ContextMsg) : Z :=
  size_uint32 (type_number (requesttype m)) + size_uint32 (u32 (subnetid m)) + size_bytes (clientid m) +
  size_bytes (mac m) + size_uint32 (u32 (requestaddr m)) + size_bytes (bytes_of (hostname m)).

(** The message as it is parsed, with the number of the type. *)
Record ContextFields := MkFields {
  f_type : Z; f_subnet : Z; f_client : list Z; f_mac : list Z; f_addr : Z; f_host : list Z }.
#[global] Instance ContextFields_eta : Eta ContextFields := fun m =>
  MkFields (f_type m) (f_subnet m) (f_client m) (f_mac m) (f_addr m) (f_host m).
Definition context_default : ContextFields := MkFields 0 0 [] [] 0 [].

Fixpoint context_parse (fuel : nat) (input : list Z) (m : ContextFields) : result (bool * ContextFields) :=
  match fuel with
  | O => NoFuel
  | S fuel =>
      let '(tag, cutoff, input) := ReadTagWithCutoff 127 input in
      let again := context_parse fuel in
      if negb cutoff then unusual tag input m again
      else if GetTagFieldNumber tag =? 1 then
        if tag =? 8 then primitive (ReadVarint32 input) (fun v => m <| f_type := v |>) m again else unusual tag input m again
      else if GetTagFieldNumber tag =? 2 then
        if tag =? 16 then primitive (ReadVarint32 input) (fun v => m <| f_subnet := v |>) m again else unusual tag input m again
      else if GetTagFieldNumber tag =? 3 then
        if tag =? 26 then primitive (ReadString input) (fun b => m <| f_client := b |>) m again else unusual tag input m again
      else if GetTagFieldNumber tag =? 4 then
        if tag =? 34 then primitive (ReadString input) (fun b => m <| f_mac := b |>) m again else unusual tag input m again
      else if GetTagFieldNumber tag =? 5 then
        if tag =? 40 then primitive (ReadVarint32 input) (fun v => m <| f_addr := v |>) m again else unusual tag input m again
      else if GetTagFieldNumber tag =? 6 then
        if tag =? 50 then
          match ReadString input with
          | Some (b, input) =>
              let m := m <| f_host := b |> in
              if VerifyUtf8String b then again input m else Ok (false, m)
          | None => Ok (false, m)
          end
        else unusual tag input m again
      else unusual tag input m again
  end.
End Messages.

(** ** A connection *)

(** The asynchronous operation a connection waits for; [Idle]: the next
    request; [Ended]: none, so that its thread ends. *)
Inductive rpc_pending : Set := Connecting | Idle | SendRequest (request_len : Z) | ResultHeader | ResultBody (result_len : Z) | Ended.

Record RpcConn := MkRpcConn {
  result_len_ : list Z; result_body_ : list Z; conn_stop_ : bool; rpc_request_ : option RPCRecord; rpc_waits : rpc_pending }.
#[global] Instance RpcConn_eta : Eta RpcConn := fun c =>
  MkRpcConn (result_len_ c) (result_body_ c) (conn_stop_ c) (rpc_request_ c) (rpc_waits c).

Module Conn.
Section Conn.
Context `{CodedStream}.
Variable env : Env.

(** A new connection; its buffers are not initialised. *)
Definition make (len_garbage body_garbage : list Z) : RpcConn := MkRpcConn len_garbage body_garbage false None Connecting.

(** [connectServer] after an error, unless the connection is stopped. *)
Definition connectServer (c : RpcConn) : RpcConn := c <| rpc_waits := if conn_stop_ c then Ended else Connecting |>.
Definition connected (c : RpcConn) : RpcConn := c <| rpc_waits := Idle |>.

(** [marshRequset]: the message in the buffer behind its length. *)
Definition marshRequset (ctx : ClientContext) (c : RpcConn) : result (Z * RpcConn) :=
  cmsg ← Server.marshRequset env ctx;
  let msg_size := context_ByteSize cmsg in
  body ← Session.memset (result_body_ c) (msg_size + 2);
  body ← Session.memcpy body 2 (context_serialize cmsg);
  Ok (msg_size, c <| result_body_ := body |>).

(** [messageWrite] with the next element of the queue: what is sent. *)
Definition messageWrite (request : option RPCRecord) (c : RpcConn) : result (list Z * RpcConn) :=
  let c := c <| rpc_request_ := request |> in
  match request with
  | None => Ok ([], c <| rpc_waits := Ended |>)
  | Some r =>
      '(request_len, c) ← marshRequset r.1 c;
      body ← zset (result_body_ c) 0 (Z.shiftr (Z.land request_len 0xff00) 8);
      body ← zset body 1 (Z.land request_len 0xff);
      Ok (take (Z.to_nat (request_len + 2)) body, c <| result_body_ := body |> <| rpc_waits := SendRequest request_len |>)
  end.

(** The request was sent: its bytes are cleared. *)
Definition sent (c : RpcConn) : result RpcConn :=
  match rpc_waits c with
  | SendRequest request_len =>
      body ← Session.memset (result_body_ c) (request_len + 2);
      Ok (c <| result_body_ := body |> <| rpc_waits := ResultHeader |>)
  | _ => Crash
  end.

(** [readResultBody]: a length that is not accepted gives the request up. *)
Definition readResultBody (c : RpcConn) : result RpcConn :=
  match result_len_ c with
  | [b0; b1] =>
      let result_len := Z.shiftl b0 8 + b1 in
      Ok (c <| rpc_waits :=
            if (0 <? result_len) && (result_len <? Server.MAX_RESULT_BODY_LEN) then ResultBody result_len
            else if conn_stop_ c then Ended else Idle |>)
  | _ => Crash
  end.

(** What the server is told of an answer. *)
Definition answer_of (l : LeaseResult) : option (Z * Z) := if succeed l then Some (addr l, lease_subnetid l) else None.

(** [unMarshResult] with its callback; the buffer is passed as a [char*]. *)
Definition unMarshResult (pack_id : Z) (c : RpcConn) (w : Srv) : result Srv :=
  text ← c_string (result_body_ c);
  l ← lease_of text;
  match rpc_request_ c with
  | Some r => Server.unMarshResult env pack_id (answer_of l) r w
  | None => Crash
  end.

(** The result was read: the callback, then the next request. *)
Definition answered (pack_id : Z) (data : list Z) (c : RpcConn) (w : Srv) : result (RpcConn * Srv) :=
  body ← Session.memcpy (result_body_ c) 0 data;
  let c := c <| result_body_ := body |> in
  w ← unMarshResult pack_id c w;
  Ok (c <| rpc_waits := Idle |>, w).

(** What completes on a connection that waits for an answer. *)
Inductive rpc_completion : Type := Sent | Header (b0 b1 : Z) | Body (pack_id : Z) (data : list Z) | Broken.

(** The handler of a completed operation. *)
Definition complete (e : rpc_completion) (c : RpcConn) (w : Srv) : result (RpcConn * Srv) :=
  match e, rpc_waits c with
  | Sent, SendRequest _ => c ← sent c; Ok (c, w)
  | Header b0 b1, ResultHeader => c ← readResultBody (c <| result_len_ := [b0; b1] |>); Ok (c, w)
  | Body pack_id data, ResultBody result_len => if zlen data =? result_len then answered pack_id data c w else Ok (c, w)
  | Broken, (SendRequest _ | ResultHeader | ResultBody _) => Ok (connectServer c, w)
  | _, _ => Ok (c, w)
  end.
Fixpoint run (es : list rpc_completion) (c : RpcConn) (w : Srv) : result (RpcConn * Srv) :=
  match es with [] => Ok (c, w) | e :: es => '(c, w) ← complete e c w; run es c w end.
End Conn.
End Conn.
