(* ===== verification/RpcFacts.v ===== *)
(** Facts about the RPC client: its messages survive their encoding, and an
    exchange over a connection is a step of the server. *)
From stdpp Require Import base list numbers option strings.
From Stdlib Require Import ZArith Lia.
From S2P Require Import Prelude Buffer HwAddr Encode Text Json Address DnsName OptionDef Options Pkt.
From S2P Require Import Nic Subnet ResponseGen ClientClass Config Statistics CmdServer CmdFacts Server Rpc.

Lemma zlen_bytes_of s : zlen (bytes_of s) = Z.of_nat (String.length s).
Proof. unfold bytes_of, zlen. rewrite length_fmap. f_equal. induction s as [|a s IH]; cbn; [done|by rewrite IH]. Qed.

Section Messages.
Context `{CodedStreamLaws}.

(** ** Sizes *)
#[local] Hint Resolve u32_range : core.

Lemma size_varint v : 0 <= v < 2^32 -> 1 <= VarintSize32 v <= 5.
Proof. intros Hv. apply (varint_bound v 5); lia. Qed.
Lemma size_tag tag : 0 < tag <= 127 -> zlen (Varint32 tag) = 1.
Proof. intros Ht. rewrite varint_size by lia. pose proof (varint_bound tag 1 ltac:(lia) ltac:(lia)). lia. Qed.

Lemma uint32_size tag v : 0 < tag <= 127 -> 0 <= v < 2^32 -> zlen (write_uint32 tag v) = size_uint32 v.
Proof.
  intros Ht Hv. unfold write_uint32, size_uint32. destruct (v =? 0); [done|]. rewrite zlen_app, size_tag, varint_size by done. done.
Qed.
Lemma bytes_size tag b : 0 < tag <= 127 -> zlen (write_bytes tag b) = size_bytes b.
Proof.
  intros Ht. unfold write_bytes, size_bytes. case_bool_decide; [done|]. rewrite !zlen_app, size_tag, varint_size by auto. done.
Qed.

Lemma size_uint32_bound v : 0 <= v < 2^32 -> 0 <= size_uint32 v <= 6.
Proof. intros Hv. unfold size_uint32. pose proof (size_varint v Hv). destruct (v =? 0); lia. Qed.
Lemma size_bytes_bound b : 0 <= size_bytes b <= 6 + zlen b.
Proof. unfold size_bytes. pose proof (size_varint _ (u32_range (zlen b))). pose proof (zlen_nonneg b). case_bool_decide; lia. Qed.
Lemma type_range t : 0 <= type_number t <= 4.
Proof. destruct t as [[]|]; cbn; lia. Qed.

Lemma context_size m : zlen (context_serialize m) = context_ByteSize m.
Proof.
  unfold context_serialize, context_ByteSize. pose proof (type_range (requesttype m)).
  rewrite !zlen_app, !uint32_size, !bytes_size by (auto; lia). lia.
Qed.
Lemma lease_size l : zlen (lease_serialize l) = lease_ByteSize l.
Proof.
  unfold lease_serialize, lease_ByteSize. rewrite !zlen_app, !uint32_size by (auto; destruct (succeed l); lia).
  unfold size_uint32 at 1. destruct (succeed l); cbn; [|lia]. pose proof (varint_bound 1 1 ltac:(lia) ltac:(lia)). lia.
Qed.

(** The assertion of [marshRequset] holds of every request. *)
Lemma context_size_bound m :
  context_ByteSize m <= 64 + zlen (clientid m) + zlen (mac m) + Z.of_nat (String.length (hostname m)).
Proof.
  unfold context_ByteSize. pose proof (size_uint32_bound _ (u32_range (subnetid m))). pose proof (size_uint32_bound _ (u32_range (requestaddr m))).
  pose proof (type_range (requesttype m)) as Ht. pose proof (size_uint32_bound (type_number (requesttype m)) ltac:(lia)).
  pose proof (size_bytes_bound (clientid m)). pose proof (size_bytes_bound (mac m)). pose proof (size_bytes_bound (bytes_of (hostname m))).
  rewrite zlen_bytes_of in *. lia.
Qed.

(** An answer has no NUL. *)
Lemma uint32_nonzero tag v : 0 < tag <= 127 -> 0 <= v < 2^32 -> 0 ∉ write_uint32 tag v.
Proof.
  intros Ht Hv. unfold write_uint32. destruct (Z.eqb_spec v 0); [by intros ?%elem_of_nil|]. rewrite elem_of_app.
  intros [E|E]; revert E; apply varint_nonzero; lia.
Qed.
Lemma lease_nonzero l : 0 ∉ lease_serialize l.
Proof.
  unfold lease_serialize. rewrite !elem_of_app.
  intros [E|[E|E]]; revert E; apply uint32_nonzero; auto; destruct (succeed l); lia.
Qed.

(** ** Parsing *)
Definition agree {M} (n : nat) (f g : list Z -> M -> result (bool * M)) : Prop :=
  forall input msg, (length input <= n)%nat -> f input msg = g input msg.

Lemma unusual_agree {M} tag input (msg : M) f g n : agree n f g -> (length input <= n)%nat -> unusual tag input msg f = unusual tag input msg g.
Proof.
  intros Hfg Hl. unfold unusual. destruct (_ || _); [done|]. destruct (SkipField tag input) as [rest|] eqn:E; [|done].
  apply Hfg. apply skip_shorter in E. lia.
Qed.
Lemma primitive_agree {M A} (r : option (A * list Z)) (set : A -> M) msg f g n : agree n f g ->
  (forall v rest, r = Some (v, rest) -> length rest <= n)%nat -> primitive r set msg f = primitive r set msg g.
Proof. intros Hfg Hl. unfold primitive. destruct r as [[v rest]|]; [|done]. by apply Hfg, (Hl v). Qed.

(** More fuel than bytes makes no difference. *)
Lemma lease_fuel n k : (n <= k)%nat -> agree n (lease_parse (S n)) (lease_parse (S k)).
Proof.
  revert k. induction n as [|n IH]; intros k Hk input msg Hl; cbn [lease_parse].
  - destruct input; [|cbn in Hl; lia]. rewrite read_tag_end. done.
  - destruct (ReadTagWithCutoff 127 input) as [[tag cutoff] rest] eqn:Et.
    destruct (decide (tag = 0)) as [->|Hn]; [by destruct cutoff; cbn|]. apply read_tag_shorter in Et; [|done].
    assert (agree n (lease_parse (S n)) (lease_parse k)) as Ha by (destruct k; [lia|]; apply IH; lia).
    assert (forall l, unusual tag rest l (lease_parse (S n)) = unusual tag rest l (lease_parse k)) as Hu by (intros l; eapply unusual_agree; [done|lia]).
    rewrite !Hu. clear Hu. repeat (case_match; [try done|]); try done;
      (eapply primitive_agree; [done|]); intros v r E; first [apply read_varint64_shorter in E|apply read_varint32_shorter in E]; lia.
Qed.

Definition lease_run (input : list Z) (l : LeaseResult) : result (bool * LeaseResult) := lease_parse (S (length input)) input l.

Lemma lease_again n input l : (length input < n)%nat -> lease_parse n input l = lease_run input l.
Proof. intros Hl. unfold lease_run. destruct n as [|n]; [lia|]. symmetry. apply lease_fuel; lia. Qed.

Lemma varint_length v : 0 <= v < 2^32 -> (0 < length (Varint32 v))%nat.
Proof. intros Hv. pose proof (varint_size v Hv) as E. pose proof (size_varint v Hv). unfold zlen in E. lia. Qed.

(** A field that is read next. *)
Lemma lease_field_succeed rest l : lease_run (write_uint32 8 1 ++ rest) l = lease_run rest (MkLease true (addr l) (lease_subnetid l)).
Proof.
  unfold lease_run at 1. cbn [lease_parse write_uint32 Z.eqb]. rewrite <- app_assoc, read_tag by lia. cbn [negb GetTagFieldNumber].
  rewrite read_varint64 by lia. cbn. apply lease_again. rewrite !length_app. pose proof (varint_length 8 ltac:(lia)). lia.
Qed.
Lemma lease_field_addr v rest l : 0 <= v < 2^32 -> addr l = 0 ->
  lease_run (write_uint32 16 v ++ rest) l = lease_run rest (MkLease (succeed l) v (lease_subnetid l)).
Proof.
  intros Hv Hl. unfold write_uint32. destruct (Z.eqb_spec v 0) as [->|]; [by destruct l; cbn in *; subst|].
  unfold lease_run at 1. cbn [lease_parse]. rewrite <- app_assoc, read_tag by lia. cbn [negb GetTagFieldNumber].
  rewrite read_varint32 by lia. cbn. apply lease_again. rewrite !length_app. pose proof (varint_length 16 ltac:(lia)). lia.
Qed.
Lemma lease_field_subnet v rest l : 0 <= v < 2^32 -> lease_subnetid l = 0 ->
  lease_run (write_uint32 24 v ++ rest) l = lease_run rest (MkLease (succeed l) (addr l) v).
Proof.
  intros Hv Hl. unfold write_uint32. destruct (Z.eqb_spec v 0) as [->|]; [by destruct l; cbn in *; subst|].
  unfold lease_run at 1. cbn [lease_parse]. rewrite <- app_assoc, read_tag by lia. cbn [negb GetTagFieldNumber].
  rewrite read_varint32 by lia. cbn. apply lease_again. rewrite !length_app. pose proof (varint_length 24 ltac:(lia)). lia.
Qed.
Lemma lease_end l : lease_run [] l = Ok (true, l).
Proof. unfold lease_run. cbn [lease_parse]. by rewrite read_tag_end. Qed.

Lemma lease_round_trip l : lease_run (lease_serialize l) lease_default = Ok (true, MkLease (succeed l) (u32 (addr l)) (u32 (lease_subnetid l))).
Proof.
  unfold lease_serialize. assert (forall rest, lease_run (write_uint32 8 (if succeed l then 1 else 0) ++ rest) lease_default =
    lease_run rest (MkLease (succeed l) 0 0)) as -> by (intros rest; destruct (succeed l); [by rewrite lease_field_succeed|done]).
  rewrite lease_field_addr by auto. rewrite <- (app_nil_r (write_uint32 24 _)), lease_field_subnet by auto. by rewrite lease_end.
Qed.

Lemma lease_total input : exists l, lease_of input = Ok l.
Proof.
  unfold lease_of. fold (lease_run input lease_default). enough (exists r, lease_run input lease_default = Ok r) as [[b l] ->] by (by exists l).
  generalize lease_default. unfold lease_run. remember (length input) as n eqn:En. assert (length input <= n)%nat as Hl by lia. clear En.
  revert input Hl. induction n as [|n IH]; intros input Hl l; cbn [lease_parse].
  - destruct input; [|cbn in Hl; lia]. rewrite read_tag_end. by eexists.
  - destruct (ReadTagWithCutoff 127 input) as [[tag cutoff] rest] eqn:Et.
    destruct (decide (tag = 0)) as [->|Hn]; [destruct cutoff; cbn; by eexists|]. apply read_tag_shorter in Et; [|done].
    assert (forall l, exists r, unusual tag rest l (lease_parse (S n)) = Ok r) as Hu.
    { intros l0. unfold unusual. destruct (_ || _); [by eexists|]. destruct (SkipField tag rest) as [r|] eqn:E; [|by eexists].
      apply IH. apply skip_shorter in E. lia. }
    repeat (case_match; [try apply Hu|]); try apply Hu;
      match goal with |- exists r, primitive ?x _ _ _ = _ => destruct x as [[v r]|] eqn:E end; cbn [primitive]; try (by eexists);
      apply IH; first [apply read_varint64_shorter in E|apply read_varint32_shorter in E]; lia.
Qed.

Lemma context_fuel n k : (n <= k)%nat -> agree n (context_parse (S n)) (context_parse (S k)).
Proof.
  revert k. induction n as [|n IH]; intros k Hk input msg Hl; cbn [context_parse].
  - destruct input; [|cbn in Hl; lia]. rewrite read_tag_end. done.
  - destruct (ReadTagWithCutoff 127 input) as [[tag cutoff] rest] eqn:Et.
    destruct (decide (tag = 0)) as [->|Hn]; [by destruct cutoff; cbn|]. apply read_tag_shorter in Et; [|done].
    assert (agree n (context_parse (S n)) (context_parse k)) as Ha by (destruct k; [lia|]; apply IH; lia).
    assert (forall m, unusual tag rest m (context_parse (S n)) = unusual tag rest m (context_parse k)) as Hu by (intros m; eapply unusual_agree; [done|lia]).
    rewrite !Hu. clear Hu.
    repeat match goal with |- (if ?b then _ else _) = _ => destruct b end; try done;
      lazymatch goal with
      | |- primitive _ _ _ _ = _ => (eapply primitive_agree; [done|]); intros v r E;
          first [apply read_varint32_shorter in E|apply read_string_shorter in E]; lia
      | |- _ => destruct (ReadString rest) as [[b r]|] eqn:E; [|done]; destruct (VerifyUtf8String b); [|done];
          apply Ha; apply read_string_shorter in E; lia
      end.
Qed.

Definition context_run (input : list Z) (m : ContextFields) : result (bool * ContextFields) := context_parse (S (length input)) input m.

Lemma context_again n input m : (length input < n)%nat -> context_parse n input m = context_run input m.
Proof. intros Hl. unfold context_run. destruct n as [|n]; [lia|]. symmetry. apply context_fuel; lia. Qed.
Lemma context_end m : context_run [] m = Ok (true, m).
Proof. unfold context_run. cbn [context_parse]. by rewrite read_tag_end. Qed.

(** A field that is read next, by its tag. *)
Definition set_uint32 (tag v : Z) (m : ContextFields) : ContextFields :=
  if tag =? 8 then m <| f_type := v |> else if tag =? 16 then m <| f_subnet := v |> else m <| f_addr := v |>.
Definition set_bytes (tag : Z) (b : list Z) (m : ContextFields) : ContextFields :=
  if tag =? 26 then m <| f_client := b |> else if tag =? 34 then m <| f_mac := b |> else m <| f_host := b |>.

Lemma context_uint32 tag v rest m : tag = 8 \/ tag = 16 \/ tag = 40 -> 0 <= v < 2^32 -> set_uint32 tag 0 m = m ->
  context_run (write_uint32 tag v ++ rest) m = context_run rest (set_uint32 tag v m).
Proof.
  intros Ht Hv Hz. unfold write_uint32. destruct (Z.eqb_spec v 0) as [->|]; [by rewrite Hz|].
  unfold context_run at 1. cbn [context_parse]. rewrite <- app_assoc, read_tag by lia.
  assert (length rest < length (Varint32 tag ++ Varint32 v ++ rest))%nat as Hl
    by (rewrite !length_app; pose proof (varint_length tag ltac:(lia)); lia).
  destruct Ht as [->|[-> | ->]]; cbn [negb GetTagFieldNumber]; rewrite read_varint32 by lia; cbn -[length app context_parse]; by apply context_again.
Qed.

Lemma context_bytes tag b rest m : tag = 26 \/ tag = 34 \/ tag = 50 /\ VerifyUtf8String b = true -> zlen b < 2^31 -> set_bytes tag [] m = m ->
  context_run (write_bytes tag b ++ rest) m = context_run rest (set_bytes tag b m).
Proof.
  intros Ht Hb Hz. unfold write_bytes. case_bool_decide as Hn; [subst b; by rewrite Hz|].
  pose proof (zlen_nonneg b). rewrite u32_small by lia.
  unfold context_run at 1. cbn [context_parse]. rewrite <- !app_assoc, read_tag by lia.
  assert (length rest < length (Varint32 tag ++ Varint32 (zlen b) ++ b ++ rest))%nat as Hl
    by (rewrite !length_app; pose proof (varint_length tag ltac:(lia)); lia).
  destruct Ht as [->|[-> |[-> Hu]]]; cbn [negb GetTagFieldNumber]; rewrite read_string by lia; cbn -[length app context_parse];
    rewrite ?Hu; by apply context_again.
Qed.

(** The fields the master reads. *)
Definition fields_of (m : ContextMsg) : ContextFields :=
  MkFields (type_number (requesttype m)) (u32 (subnetid m)) (clientid m) (mac m) (u32 (requestaddr m)) (bytes_of (hostname m)).

Lemma context_round_trip m : zlen (clientid m) < 2^31 -> zlen (mac m) < 2^31 -> hostname m = ""%string ->
  context_run (context_serialize m) context_default = Ok (true, fields_of m).
Proof.
  intros Hc Hm Hh. unfold context_serialize. rewrite Hh. pose proof (type_range (requesttype m)).
  rewrite (context_uint32 8) by (auto; lia). rewrite (context_uint32 16) by auto. rewrite (context_bytes 26), (context_bytes 34) by auto.
  rewrite (context_uint32 40) by auto.
  cbn [write_bytes]. rewrite context_end. unfold fields_of. by rewrite Hh.
Qed.
End Messages.

(** ** A connection *)
(** What follows the answer in the buffer. *)
Lemma answer_in_buffer (e tail : list Z) n : zlen e < n -> 0 <= n ->
  exists rest, drop (length e) (replicate (Z.to_nat n) 0 ++ tail) = 0 :: rest.
Proof.
  intros Hl Hn. rewrite drop_app_le by (rewrite length_replicate; unfold zlen in Hl; lia). rewrite drop_replicate.
  destruct (Z.to_nat n - length e)%nat as [|k] eqn:E; [unfold zlen in Hl; lia|]. by eexists.
Qed.

Section Conn.
Context `{CodedStreamLaws}.
Variable env : Env.
Hypothesis size_env : forall m, ByteSize env m = context_ByteSize m.

Lemma messageWrite_steps (r : RPCRecord) ln body stp rq wt : Conn.messageWrite env (Some r) (MkRpcConn ln body stp rq wt) =
  (cmsg ← Server.marshRequset env r.1;
   b ← Session.memset body (context_ByteSize cmsg + 2);
   b ← Session.memcpy b 2 (context_serialize cmsg);
   b ← zset b 0 (Z.shiftr (Z.land (context_ByteSize cmsg) 0xff00) 8);
   b ← zset b 1 (Z.land (context_ByteSize cmsg) 0xff);
   Ok (take (Z.to_nat (context_ByteSize cmsg + 2)) b, MkRpcConn ln b stp (Some r) (SendRequest (context_ByteSize cmsg)))).
Proof.
  unfold Conn.messageWrite, Conn.marshRequset. destruct (Server.marshRequset env r.1) as [m| | |]; [|done..]. rewrite !bind_Ok.
  change (result_body_ ((MkRpcConn ln body stp rq wt) <| rpc_request_ := Some r |>)) with body.
  destruct (Session.memset body _) as [b1| | |]; [|done..]. rewrite !bind_Ok. destruct (Session.memcpy b1 2 _) as [b2| | |]; [|done..]. rewrite !bind_Ok.
  done.
Qed.

(** The request in its frame. *)
Lemma messageWrite_spec (r : RPCRecord) ln body stp rq wt msg : zlen body = 1024 -> Server.marshRequset env r.1 = Ok msg ->
  Conn.messageWrite env (Some r) (MkRpcConn ln body stp rq wt) = Ok (frame (context_serialize msg),
    MkRpcConn ln (frame (context_serialize msg) ++ drop (Z.to_nat (context_ByteSize msg + 2)) body) stp (Some r) (SendRequest (context_ByteSize msg))) /\
  0 <= context_ByteSize msg < 1022.
Proof.
  intros Hb Hm. assert (context_ByteSize msg + 2 < 1024) as Hsz.
  { unfold Server.marshRequset in Hm. apply bind_ok in Hm as (t & _ & (a & _ & (ad & _ & (u & Ha & [= <-])%bind_ok)%bind_ok)%bind_ok).
    unfold assert_ in Ha. rewrite size_env in Ha. unfold Server.MAX_RESULT_BODY_LEN in Ha.
    match type of Ha with context [?x <? 1024] => destruct (Z.ltb_spec x 1024) end; [done|discriminate Ha]. }
  pose proof (context_size msg) as Hs. pose proof (zlen_nonneg (context_serialize msg)) as Hnn.
  rewrite messageWrite_steps, Hm, bind_Ok, <- Hs in *. set (m := context_serialize msg) in *. split; [|lia].
  destruct (length_bytes (zlen m)) as [-> ->]; [lia|].
  unfold Session.memset. rewrite Hb. destruct (Z.leb_spec (zlen m + 2) 1024); [|lia]. rewrite bind_Ok.
  assert (Z.to_nat (zlen m + 2) = S (S (length m))) as En by (unfold zlen; lia). rewrite En. cbn [replicate app].
  set (tl := replicate (length m) 0 ++ drop (S (S (length m))) body).
  assert (zlen tl = 1022) as Htl by (subst tl; unfold zlen in *; rewrite length_app, length_replicate, length_drop; lia).
  unfold Session.memcpy. rewrite !zlen_cons, Htl.
  match goal with |- context [2 + zlen m <=? ?x] => destruct (Z.leb_spec (2 + zlen m) x); [|lia] end. rewrite bind_Ok.
  rewrite (Z.add_comm 2), En. change (Z.to_nat 2) with 2%nat. cbn [take drop].
  assert (drop (length m) tl = drop (S (S (length m))) body) as Hd by (subst tl; by rewrite drop_app_length' by (by rewrite length_replicate)).
  rewrite Hd. change ([0; 0] ++ ?x) with (0 :: 0 :: x). change ((0 :: 0 :: take 0 tl) ++ ?x) with (0 :: 0 :: x).
  set (rest := drop (S (S (length m))) body).
  unfold zset. rewrite !zlen_cons. pose proof (zlen_nonneg (m ++ rest)). rewrite decide_True by lia. rewrite bind_Ok.
  change (<[Z.to_nat 0 := zlen m / 256]> (0 :: 0 :: m ++ rest)) with (zlen m / 256 :: 0 :: m ++ rest).
  rewrite !zlen_cons, decide_True by lia. rewrite bind_Ok.
  change (<[Z.to_nat 1 := zlen m mod 256]> (zlen m / 256 :: 0 :: m ++ rest)) with (frame m ++ rest).
  rewrite take_app_length' by done. done.
Qed.

Lemma lease_size_bound l : 0 <= zlen (lease_serialize l) <= 14.
Proof.
  rewrite lease_size. unfold lease_ByteSize. pose proof (size_uint32_bound _ (u32_range (addr l))).
  pose proof (size_uint32_bound _ (u32_range (lease_subnetid l))). destruct (succeed l); lia.
Qed.

(** The connection once its request is out, and the buffer it reads into. *)
Definition waiting_for (ln body : list Z) (stp : bool) (r : RPCRecord) (msg : ContextMsg) : RpcConn :=
  MkRpcConn ln (frame (context_serialize msg) ++ drop (Z.to_nat (context_ByteSize msg + 2)) body) stp (Some r) (SendRequest (context_ByteSize msg)).
Definition cleared (body : list Z) (msg : ContextMsg) : list Z :=
  replicate (Z.to_nat (context_ByteSize msg + 2)) 0 ++ drop (Z.to_nat (context_ByteSize msg + 2)) body.

Lemma cleared_length body msg : zlen body = 1024 -> 0 <= context_ByteSize msg < 1022 -> zlen (cleared body msg) = 1024.
Proof. intros Hb Hm. unfold cleared, zlen in *. rewrite length_app, length_replicate, length_drop. lia. Qed.

Lemma sent_spec ln body stp r msg w : zlen body = 1024 -> 0 <= context_ByteSize msg < 1022 ->
  Conn.complete env Conn.Sent (waiting_for ln body stp r msg) w = Ok (MkRpcConn ln (cleared body msg) stp (Some r) ResultHeader, w).
Proof.
  intros Hb Hm. set (n := Z.to_nat (context_ByteSize msg + 2)). assert (length (frame (context_serialize msg)) = n) as Hf.
  { pose proof (context_size msg) as Hs. subst n. unfold frame, zlen in *. rewrite length_app. cbn [length]. lia. }
  change (Conn.complete env Conn.Sent (waiting_for ln body stp r msg) w) with
    (c ← (b ← Session.memset (frame (context_serialize msg) ++ drop n body) (context_ByteSize msg + 2);
          Ok (MkRpcConn ln b stp (Some r) ResultHeader)); Ok (c, w)).
  unfold Session.memset. rewrite zlen_app. unfold zlen in *. rewrite Hf, length_drop.
  match goal with |- context [?x <=? ?y] => destruct (Z.leb_spec x y); [|lia] end. rewrite !bind_Ok. fold n.
  rewrite drop_app_length' by done. done.
Qed.

Lemma header_spec ln body stp rq n w : 0 <= n < 65536 ->
  Conn.complete env (Conn.Header (n / 256) (n mod 256)) (MkRpcConn ln body stp rq ResultHeader) w =
  Ok (MkRpcConn [n / 256; n mod 256] body stp rq
        (if (0 <? n) && (n <? 1024) then ResultBody n else if stp then Ended else Idle), w).
Proof.
  intros Hn. assert (Z.shiftl (n / 256) 8 + n mod 256 = n) as E by (rewrite Z.shiftl_mul_pow2 by lia; zdiv).
  change (Conn.complete env (Conn.Header (n / 256) (n mod 256)) (MkRpcConn ln body stp rq ResultHeader) w) with
    (let result_len := Z.shiftl (n / 256) 8 + n mod 256 in
     Ok (MkRpcConn [n / 256; n mod 256] body stp rq
        (if (0 <? result_len) && (result_len <? 1024) then ResultBody result_len else if stp then Ended else Idle), w)).
  cbv zeta. by rewrite E.
Qed.

Definition decoded (l : LeaseResult) : LeaseResult := MkLease (succeed l) (u32 (addr l)) (u32 (lease_subnetid l)).

Lemma lease_of_serialize l : lease_of (lease_serialize l) = Ok (decoded l).
Proof. unfold lease_of. fold (lease_run (lease_serialize l) lease_default). by rewrite lease_round_trip. Qed.

Lemma memcpy_front buf e : zlen e <= zlen buf -> Session.memcpy buf 0 e = Ok (e ++ drop (length e) buf).
Proof.
  intros Hl. unfold Session.memcpy. rewrite Z.add_0_l. destruct (Z.leb_spec (zlen e) (zlen buf)); [|lia]. by rewrite to_nat_zlen.
Qed.
Lemma answered_steps pack_id data ln body stp rq wt w : Conn.answered env pack_id data (MkRpcConn ln body stp rq wt) w =
  (b ← Session.memcpy body 0 data; w ← Conn.unMarshResult env pack_id (MkRpcConn ln b stp rq wt) w; Ok (MkRpcConn ln b stp rq Idle, w)).
Proof. unfold Conn.answered. cbn [result_body_]. by destruct (Session.memcpy body 0 data). Qed.

Lemma body_spec ln body stp r msg l pack_id w : zlen body = 1024 -> 0 <= context_ByteSize msg < 1022 ->
  zlen (lease_serialize l) < context_ByteSize msg + 2 ->
  exists body', zlen body' = 1024 /\
  Conn.complete env (Conn.Body pack_id (lease_serialize l)) (MkRpcConn ln (cleared body msg) stp (Some r) (ResultBody (zlen (lease_serialize l)))) w =
  (w' ← Server.unMarshResult env pack_id (Conn.answer_of (decoded l)) r w; Ok (MkRpcConn ln body' stp (Some r) Idle, w')).
Proof.
  intros Hb Hm He. set (e := lease_serialize l) in *. pose proof (cleared_length body msg Hb Hm) as Hc.
  destruct (answer_in_buffer e (drop (Z.to_nat (context_ByteSize msg + 2)) body) (context_ByteSize msg + 2) He ltac:(lia)) as [rest Hr].
  exists (e ++ 0 :: rest). pose proof (zlen_nonneg e) as Hn. split.
  { rewrite <- Hr. fold (cleared body msg). unfold zlen in *. rewrite length_app, length_drop. lia. }
  unfold Conn.complete. cbn [rpc_waits]. rewrite Z.eqb_refl, answered_steps, memcpy_front by lia. rewrite bind_Ok. unfold cleared. rewrite Hr.
  unfold Conn.unMarshResult. cbn [result_body_ rpc_request_]. rewrite (c_string_app e rest (lease_nonzero l)), bind_Ok.
  subst e. rewrite lease_of_serialize, bind_Ok. done.
Qed.

Lemma exchange ln body stp r msg l pack_id w : zlen body = 1024 -> 0 <= context_ByteSize msg < 1022 ->
  let e := lease_serialize l in 0 < zlen e < context_ByteSize msg + 2 ->
  exists body', zlen body' = 1024 /\
  Conn.run env [Conn.Sent; Conn.Header (zlen e / 256) (zlen e mod 256); Conn.Body pack_id e] (waiting_for ln body stp r msg) w =
  (w' ← Server.unMarshResult env pack_id (Conn.answer_of (decoded l)) r w; Ok (MkRpcConn [zlen e / 256; zlen e mod 256] body' stp (Some r) Idle, w')).
Proof.
  intros Hb Hm e He. pose proof (lease_size_bound l) as Hl. fold e in Hl. cbn [Conn.run]. rewrite sent_spec by done. rewrite bind_Ok.
  rewrite header_spec by lia. rewrite bind_Ok. destruct (Z.ltb_spec 0 (zlen e)); [|lia]. destruct (Z.ltb_spec (zlen e) 1024); [|lia]. cbn [andb].
  destruct (body_spec [zlen e / 256; zlen e mod 256] body stp r msg l pack_id w Hb Hm ltac:(subst e; lia)) as (body' & Hb' & E).
  exists body'. split; [done|]. subst e. rewrite E. by destruct (Server.unMarshResult _ _ _ _ _) as [w'| | |].
Qed.

(** An answer with default values only is empty, and is not accepted. *)
Lemma exchange_empty ln body r msg w : zlen body = 1024 -> 0 <= context_ByteSize msg < 1022 ->
  Conn.run env [Conn.Sent; Conn.Header 0 0] (waiting_for ln body false r msg) w =
  Ok (MkRpcConn [0; 0] (cleared body msg) false (Some r) Idle, w).
Proof. intros Hb Hm. cbn [Conn.run]. rewrite sent_spec by done. rewrite bind_Ok. by apply (header_spec ln _ false _ 0). Qed.

(** ** Connections and the server *)

(** A connection that waits for the answer to its request. *)
Definition holding (c : RpcConn) : bool :=
  match rpc_waits c with SendRequest _ | ResultHeader | ResultBody _ => true | Connecting | Idle | Ended => false end.
Definition conn_ok (c : RpcConn) : Prop :=
  zlen (result_body_ c) = 1024 /\
  match rpc_waits c with SendRequest n => 0 <= n < 1022 | ResultBody n => 0 < n < 1024 | _ => True end.

(** The answer runs over the end of the buffer. *)
Definition overruns (e : Conn.rpc_completion) (c : RpcConn) : Prop :=
  exists pack_id data, e = Conn.Body pack_id data /\ 0 ∉ data ++ drop (length data) (result_body_ c).

Definition without (i : nat) (w : Srv) : Srv := w <| in_flight_ := delete i (in_flight_ w) |>.

Section Step.
Variable net : list Z -> Prop.
Local Abbreviation srv_step := (Server.step env net).

Lemma take_is_step c r rest w : conn_ok c -> request_queue_ w = r :: rest -> (length (in_flight_ w) < DEFAULT_CONN_COUNT)%nat ->
  match Conn.messageWrite env (Some r) c with
  | Ok (f, c') => conn_ok c' /\ holding c' = true /\ rpc_request_ c' = Some r /\
      srv_step w (Some (w <| request_queue_ := rest |> <| in_flight_ := in_flight_ w ++ [r] |>))
  | _ => srv_step w None
  end.
Proof.
  intros [Hb _] Hq Hl. destruct c as [ln body stp rq wt]. cbn [result_body_] in Hb.
  assert (forall res, Server.messageWrite env w = Some res -> srv_step w (Server.outcome res)) as Hstep by (intros; by apply Server.step_rpc_take).
  specialize (Hstep (Server.marshRequset env r.1;; Ok (w <| request_queue_ := rest |> <| in_flight_ := in_flight_ w ++ [r] |>))).
  unfold Server.messageWrite in Hstep. rewrite Hq, decide_True in Hstep by done. specialize (Hstep eq_refl).
  destruct (Server.marshRequset env r.1) as [msg| | |] eqn:Em; [|rewrite messageWrite_steps, Em; exact Hstep..].
  destruct (messageWrite_spec r ln body stp rq wt msg Hb Em) as [-> Hm]. pose proof (context_size msg) as Hs. split; [|by split].
  split; [|exact Hm]. cbn [result_body_]. unfold frame, zlen in *. rewrite length_app, length_drop, length_app. cbn [length]. lia.
Qed.

(** Every completion is a step of the server, or none yet. *)
Lemma completion_is_step e c w i r : conn_ok c -> holding c = true -> rpc_request_ c = Some r -> in_flight_ w !! i = Some r ->
  match Conn.complete env e c (without i w) with
  | Ok (c', w') => conn_ok c' /\
      if holding c' then rpc_request_ c' = Some r /\ w' = without i w else srv_step w (Some w')
  | _ => overruns e c \/ srv_step w None
  end.
Proof.
  intros [Hb Hok] Hh Hr Hi. destruct c as [ln body stp rq wt]. cbn [result_body_ rpc_waits rpc_request_] in *. subst rq.
  assert (srv_step w (Some (without i w))) as Hlost by apply Server.step_rpc_lost.
  destruct e as [|b0 b1|pack_id data|], wt as [| |n| |n|]; try discriminate Hh;
    try (by split; [split|]).
  - change (Conn.complete env Conn.Sent (MkRpcConn ln body stp (Some r) (SendRequest n)) (without i w)) with
      (c ← (b ← Session.memset body (n + 2); Ok (MkRpcConn ln b stp (Some r) ResultHeader)); Ok (c, without i w)).
    destruct (Session.memset body (n + 2)) as [b| | |] eqn:E.
    2, 3, 4: unfold Session.memset in E; rewrite Hb in E; destruct (Z.leb_spec (n + 2) 1024); [discriminate E|lia].
    rewrite !bind_Ok. split; [|by split]. split; [|done]. cbn [result_body_]. rewrite <- Hb. eapply memset_length; [|exact E]. lia.
  - change (Conn.complete env (Conn.Header b0 b1) (MkRpcConn ln body stp (Some r) ResultHeader) (without i w)) with
      (Ok (MkRpcConn [b0; b1] body stp (Some r)
         (if (0 <? Z.shiftl b0 8 + b1) && (Z.shiftl b0 8 + b1 <? 1024) then ResultBody (Z.shiftl b0 8 + b1) else if stp then Ended else Idle), without i w)).
    destruct (Z.ltb_spec 0 (Z.shiftl b0 8 + b1)); cbn [andb]; [destruct (Z.ltb_spec (Z.shiftl b0 8 + b1) 1024)|].
    + split; [by split|by split].
    + destruct stp; by split; [split|].
    + destruct stp; by split; [split|].
  - unfold Conn.complete. cbn [rpc_waits]. destruct (Z.eqb_spec (zlen data) n) as [Hn|]; [|by split; [split|split]].
    rewrite answered_steps, memcpy_front, bind_Ok by lia. unfold Conn.unMarshResult. cbn [result_body_ rpc_request_].
    destruct (c_string_outcome (data ++ drop (length data) body)) as [[Hz ->]|[t ->]]; [left; by exists pack_id, data|].
    rewrite bind_Ok. destruct (lease_total t) as [l ->]. rewrite bind_Ok.
    assert (srv_step w (Server.outcome (Server.unMarshResult env pack_id (Conn.answer_of l) r (without i w)))) as Hstep.
    { eapply Server.step_rpc_reply. unfold Server.RPC_reply. rewrite Hi. reflexivity. }
    destruct (Server.unMarshResult env pack_id (Conn.answer_of l) r (without i w)) as [w'| | |]; [|by right..].
    rewrite bind_Ok. split; [|exact Hstep]. split; [|done]. cbn [result_body_]. unfold zlen in *. rewrite length_app, length_drop. lia.
  - destruct stp; by split; [split|].
  - destruct stp; by split; [split|].
  - destruct stp; by split; [split|].
Qed.
End Step.
End Conn.

(** ** The encoding

    The base-128 encoding of the protobuf library, low groups first, has the
    laws that are used. *)
Module Base128.
Fixpoint enc (n : nat) (v : Z) : list Z :=
  match n with O => [] | S n => if v <? 128 then [v] else (v mod 128 + 128) :: enc n (v / 128) end.
Fixpoint dec (n : nat) (input : list Z) : option (Z * list Z) :=
  match n, input with
  | S n, b :: input => if b <? 128 then Some (b, input) else '(v, rest) ← dec n input; Some (v * 128 + (b - 128), rest)
  | _, _ => None
  end.

Definition tag_of (cutoff : Z) (input : list Z) : Z * bool * list Z :=
  match dec 10 input with
  | Some (t, rest) => if u32 t =? 0 then (0, false, rest) else (u32 t, u32 t <=? cutoff, rest)
  | None => (0, false, [])
  end.
Definition string_of_input (input : list Z) : option (list Z * list Z) :=
  '(n, rest) ← dec 10 input;
  if (0 <=? n) && (n <=? zlen rest) then Some (take (Z.to_nat n) rest, drop (Z.to_nat n) rest) else None.
Definition skip (tag : Z) (input : list Z) : option (list Z) :=
  let wire := Z.land tag 7 in
  if wire =? 0 then snd <$> dec 10 input
  else if wire =? 1 then Some (drop 8 input)
  else if wire =? 2 then snd <$> string_of_input input
  else if wire =? 5 then Some (drop 4 input)
  else None.

#[export] Instance stream : CodedStream := {|
  Varint32 := enc 5; VarintSize32 v := zlen (enc 5 v); ReadTagWithCutoff := tag_of;
  ReadVarint32 input := '(v, rest) ← dec 10 input; Some (u32 v, rest);
  ReadVarint64 input := '(v, rest) ← dec 10 input; Some (u64 v, rest);
  ReadString := string_of_input; SkipField := skip; VerifyUtf8String _ := true |}.

Lemma enc_length n v k : (k <= n)%nat -> (1 <= k)%nat -> 0 <= v < 2 ^ (7 * Z.of_nat k) -> (1 <= length (enc n v) <= k)%nat.
Proof.
  revert n v. induction k as [|k IH]; intros n v Hn Hk Hv; [lia|]. destruct n as [|n]; [lia|]. cbn [enc].
  destruct (Z.ltb_spec v 128); cbn [length]; [lia|]. destruct k as [|k]; [change (2 ^ _) with 128 in Hv; lia|].
  replace (7 * Z.of_nat (S (S k))) with (7 + 7 * Z.of_nat (S k)) in Hv by lia. rewrite Z.pow_add_r in Hv by lia. change (2 ^ 7) with 128 in Hv.
  pose proof (IH n (v / 128) ltac:(lia) ltac:(lia) ltac:(split; [apply Z.div_pos; lia|apply Z.div_lt_upper_bound; lia])). lia.
Qed.
Lemma enc_bytes n v : 0 <= v -> bytes_ok (enc n v).
Proof.
  revert v. induction n as [|n IH]; intros v Hv; [by apply Forall_nil|]. cbn [enc]. destruct (Z.ltb_spec v 128).
  - apply Forall_singleton. unfold byte_ok. lia.
  - apply Forall_cons. split; [|apply IH, Z.div_pos; lia]. pose proof (Z.mod_pos_bound v 128). unfold byte_ok. lia.
Qed.
Lemma enc_nonzero n v : 0 < v -> 0 ∉ enc n v.
Proof.
  revert v. induction n as [|n IH]; intros v Hv; [apply not_elem_of_nil|]. cbn [enc]. destruct (Z.ltb_spec v 128).
  - apply not_elem_of_cons. split; [lia|apply not_elem_of_nil].
  - apply not_elem_of_cons. pose proof (Z.mod_pos_bound v 128). split; [lia|]. apply IH. apply Z.div_str_pos. lia.
Qed.
Lemma dec_enc n m v rest : (1 <= n <= m)%nat -> 0 <= v < 2 ^ (7 * Z.of_nat n) -> dec m (enc n v ++ rest) = Some (v, rest).
Proof.
  revert m v. induction n as [|n IH]; intros m v Hn Hv; [lia|]. destruct m as [|m]; [lia|]. cbn [enc].
  destruct (Z.ltb_spec v 128) as [Hs|Hs]; cbn [app dec].
  - destruct (Z.ltb_spec v 128); [done|lia].
  - pose proof (Z.mod_pos_bound v 128 ltac:(lia)). destruct (Z.ltb_spec (v mod 128 + 128) 128); [lia|].
    destruct n as [|n]; [change (2 ^ _) with 128 in Hv; lia|].
    replace (7 * Z.of_nat (S (S n))) with (7 + 7 * Z.of_nat (S n)) in Hv by lia. rewrite Z.pow_add_r in Hv by lia. change (2 ^ 7) with 128 in Hv.
    rewrite IH by (try split; try apply Z.div_pos; try apply Z.div_lt_upper_bound; lia). cbn. do 2 f_equal. rewrite (Z.div_mod v 128) at 3 by lia. lia.
Qed.
Lemma dec_shorter n input v rest : dec n input = Some (v, rest) -> (length rest < length input)%nat.
Proof.
  revert input v. induction n as [|n IH]; intros [|b input] v; cbn; try done. destruct (b <? 128); [intros [= _ <-]; lia|].
  destruct (dec n input) as [[v' r]|] eqn:E; [|done]. cbn. intros [= _ ->]. apply IH in E. lia.
Qed.

#[export] Instance stream_laws : CodedStreamLaws.
Proof.
  assert (forall m v rest, (5 <= m)%nat -> 0 <= v < 2^32 -> dec m (enc 5 v ++ rest) = Some (v, rest)) as Hdec.
  { intros m v rest Hm Hv. apply dec_enc; [lia|]. change (2 ^ (7 * Z.of_nat 5)) with (2^35). lia. }
  split; cbn [Varint32 VarintSize32 ReadTagWithCutoff ReadVarint32 ReadVarint64 ReadString SkipField stream].
  - done.
  - intros v k Hv Hk. pose proof (enc_length 5 v (Z.to_nat k) ltac:(lia) ltac:(lia)) as He. rewrite Z2Nat.id in He by lia.
    specialize (He Hv). unfold zlen. lia.
  - intros v Hv. apply enc_bytes. lia.
  - intros v Hv. apply enc_nonzero. lia.
  - intros tag rest Ht. unfold tag_of. rewrite Hdec by lia. rewrite u32_small by lia.
    destruct (Z.eqb_spec tag 0); [lia|]. destruct (Z.leb_spec tag 127); [done|lia].
  - done.
  - intros input tag b rest. unfold tag_of. destruct (dec 10 input) as [[t r]|] eqn:E; [|by intros [= <-]].
    apply dec_shorter in E. destruct (u32 t =? 0); [by intros [= <-]|]. by intros [= _ _ <-].
  - intros v rest Hv. rewrite Hdec by lia. cbn. by rewrite u32_small by lia.
  - intros v rest Hv. rewrite Hdec by lia. cbn. by rewrite u64_small by lia.
  - intros b rest Hb. unfold string_of_input. pose proof (zlen_nonneg b). rewrite Hdec by lia. cbn.
    destruct (Z.leb_spec 0 (zlen b)); [|lia]. rewrite zlen_app. pose proof (zlen_nonneg rest). destruct (Z.leb_spec (zlen b) (zlen b + zlen rest)); [|lia]. cbn.
    rewrite to_nat_zlen. by rewrite take_app_length, drop_app_length.
  - intros input v rest. destruct (dec 10 input) as [[t r]|] eqn:E; [|done]. apply dec_shorter in E. cbn. intros [= <- <-].
    split; [apply u32_range|lia].
  - intros input v rest. destruct (dec 10 input) as [[t r]|] eqn:E; [|done]. apply dec_shorter in E. cbn. intros [= _ <-]. lia.
  - intros input b rest. unfold string_of_input. destruct (dec 10 input) as [[t r]|] eqn:E; [|done]. apply dec_shorter in E. cbn.
    destruct (_ && _); [|done]. intros [= _ <-]. rewrite length_drop. lia.
  - intros tag input rest. unfold skip. repeat case_match; try done.
    + destruct (dec 10 input) as [[t r]|] eqn:E; [|done]. apply dec_shorter in E. cbn. intros [= <-]. lia.
    + intros [= <-]. rewrite length_drop. lia.
    + unfold string_of_input. destruct (dec 10 input) as [[t r]|] eqn:E; [|done]. apply dec_shorter in E. cbn.
      destruct (_ && _); [|done]. cbn. intros [= <-]. rewrite length_drop. lia.
    + intros [= <-]. rewrite length_drop. lia.
Qed.
End Base128.
