(* ===== verification/ServerFacts.v ===== *)
(** What each handler of the server does: that it neither crashes nor throws on
    a query the parser accepted, which packets it queues, and which requests it
    hands to the master. *)
From stdpp Require Import base list numbers option strings gmap.
From Stdlib Require Import ZArith Lia.
From S2P Require Import Prelude Buffer HwAddr Address DnsName DnsNameFacts OptionDef Options.
From S2P Require Import OptionsFacts OptionsPack OptionsRoundTrip Pkt PktFacts Nic Subnet ResponseGen.
From S2P Require Import ResponseFacts QueryFacts Server.

(** ** Queries *)
Record wf_query (q : Pkt) : Prop := MkWfQuery {
  wq_opts : Forall parsed_ok (poptions_ q);
  wq_addrs : Forall v4_ok [ciaddr_ q; giaddr_ q; local_addr_ q; remote_addr_ q];
  wq_hw : zlen (hwaddr_ (chaddr_ q)) <= 20 }.

Lemma find_In k c o : mfind k c = Some o -> (k, o) ∈ c.
Proof.
  induction c as [|[j x] c IH]; cbn [mfind]; [done|].
  destruct (Z.eqb_spec j k) as [->|]; [intros [= <-]; by left|]. intros H. right. by apply IH.
Qed.

Lemma wq_find q k o : wf_query q -> P.getOption k q = Some o -> parsed_ok (k, o).
Proof.
  intros [Hq _ _] H. rewrite Forall_forall in Hq. apply Hq. by apply find_In.
Qed.

Lemma wq_typed q : wf_query q -> typed (poptions_ q).
Proof. intros [Hq _ _]. eapply Forall_impl; [exact Hq|]. by intros p (? & _). Qed.

Lemma wq_type q : wf_query q -> exists t, P.getType q = Ok t /\ byte_ok t.
Proof.
  intros Hq. unfold P.getType. destruct (P.getOption DHO_DHCP_MESSAGE_TYPE q) as [o|] eqn:E.
  - destruct (wq_find _ _ _ Hq E) as (_ & _ & _ & H & _). destruct (H eq_refl) as (v & Hv & Hb).
    cbn [snd] in Hv. rewrite Hv. eauto.
  - by exists DHCP_NOTYPE.
Qed.

Lemma readAddress_ok b : zlen b = 4 -> bytes_ok b -> exists v, readAddress [b] 0 = Ok (V4 v) /\ addr_ok v.
Proof.
  intros Hl Hb. destruct b as [|b0 [|b1 [|b2 [|b3 [|? ?]]]]]; try (exfalso; zlia).
  rewrite !bytes_ok_cons in Hb. destruct Hb as (?&?&?&?&_).
  exists (be32 b0 b1 b2 b3). split; [|by apply be32_range].
  change (readAddress [[b0; b1; b2; b3]] 0) with (IOAddr.fromBytes IOAddr.AF_INET [b0; b1; b2; b3]).
  by apply fromBytes_ok.
Qed.

(** The address options of a query can be read. *)
Lemma wq_address q k o bufs :
  wf_query q -> address_code k = true -> P.getOption k q = Some o -> as_custom o = Some bufs ->
  zlen bufs = 1 /\ exists v, readAddress bufs 0 = Ok (V4 v) /\ addr_ok v.
Proof.
  intros Hq Hk E Hc. destruct (wq_find _ _ _ Hq E) as (_ & _ & _ & _ & H & _).
  destruct (H Hk) as (def & b & Hb & Hl & Hok). cbn [snd] in Hb. unfold as_custom in Hc. rewrite Hb in Hc.
  injection Hc as <-. split; [done|]. by apply readAddress_ok.
Qed.

Lemma wq_request_addr q : wf_query q ->
  forall c, query_ c = q -> exists v, Ctx.getRequestAddr c = Ok (V4 v) /\ addr_ok v.
Proof.
  intros Hq c Ec. unfold Ctx.getRequestAddr. rewrite Ec.
  destruct (P.getOption DHO_DHCP_REQUESTED_ADDRESS q) as [o|] eqn:E; cbn [mbind option_bind].
  - destruct (as_custom o) as [bufs|] eqn:Ea.
    + by destruct (wq_address q DHO_DHCP_REQUESTED_ADDRESS o bufs Hq eq_refl E Ea) as (_ & ?).
    + destruct Hq as [_ Ha _]. rewrite !Forall_cons_iff in Ha. destruct Ha as ((v & -> & Hv) & _).
      destruct (negb _); [eauto|]. by exists 0.
  - destruct Hq as [_ Ha _]. rewrite !Forall_cons_iff in Ha. destruct Ha as ((v & -> & Hv) & _).
    destruct (negb _); [eauto|]. by exists 0.
Qed.

Lemma wq_option_select q : wf_query q -> exists v, Server.option_select q = Ok (V4 v) /\ addr_ok v.
Proof.
  intros Hq. unfold Server.option_select.
  assert (exists v, Ok IOAddr.IPV4_ZERO_ADDRESS = Ok (V4 v) /\ addr_ok v) as H0 by (by exists 0).
  destruct (P.getOption DHO_DHCP_AGENT_OPTIONS q) as [rai|] eqn:E.
  - destruct (as_custom rai); [|done]. destruct (Option_.getOption RAI_OPTION_LINK_SELECTION rai) as [ls|] eqn:El; [|done].
    destruct (Z.eqb_spec (zlen (data_ ls)) 4) as [H4|]; [|done].
    destruct (wq_find _ _ _ Hq E) as (_ & _ & _ & _ & _ & H & _). specialize (H eq_refl). cbn [snd] in H.
    rewrite Forall_forall in H. specialize (H _ (find_In _ _ _ El)). cbn [snd] in H.
    destruct (data_ ls) as [|b0 [|b1 [|b2 [|b3 [|? ?]]]]]; try (exfalso; zlia).
    rewrite !bytes_ok_cons in H. destruct H as (?&?&?&?&_).
    exists (be32 b0 b1 b2 b3). split; [by apply fromBytes_ok|by apply be32_range].
  - destruct (P.getOption DHO_SUBNET_SELECTION q) as [o|] eqn:Es; [|done].
    destruct (as_custom o) as [bufs|] eqn:Ea; [|done].
    by destruct (wq_address q DHO_SUBNET_SELECTION o bufs Hq eq_refl Es Ea) as (_ & ?).
Qed.

(** ** Packing an answer *)
Definition packs (p : Z * opt) : Prop := exists bs, Options.pack p.2 = Ok bs /\ zlen bs <= 255.

(** The same on already packed options. *)
Definition packed_ok (p : Z * result (list Z)) : Prop := exists bs, p.2 = Ok bs /\ zlen bs <= 255.

Lemma concat_packed l :
  Forall packed_ok l ->
  exists bs, concat_results (snd <$> l) = Ok bs /\ zlen bs <= 255 * Z.of_nat (length l).
Proof.
  induction 1 as [|p l (bs & Hp & Hl) _ (rest & Hr & Hrl)]; [by exists []|].
  exists (bs ++ rest). unfold concat_results in *. cbn [fmap list_fmap foldr].
  rewrite Hp, bind_Ok. setoid_rewrite Hr. rewrite bind_Ok. split; [done|]. cbn [length]. zlia.
Qed.

Lemma last_packed k l : Forall packed_ok l -> exists bs, last_with k l = Ok bs /\ zlen bs <= 255.
Proof.
  intros Hl. unfold last_with. destruct (last (filter _ l)) as [[j r]|] eqn:E; [|by exists []].
  apply last_Some_elem_of in E. apply list_elem_of_filter in E as [_ E].
  rewrite Forall_forall in Hl. destruct (Hl _ E) as (bs & Hr & Hb). cbn [snd] in Hr. subst r. by exists bs.
Qed.

Lemma packOptions4_packs c :
  Forall packs c -> (length c <= 1000)%nat -> exists os, packOptions4 c = Ok os /\ zlen os < 2^31.
Proof.
  intros Hc Hn. unfold packOptions4, packOptions4_packed.
  set (l := map _ c). assert (Forall packed_ok l) as Hl.
  { unfold l. clear -Hc. induction Hc as [|p c (bs & Hp & Hb) _ IH]; cbn [map]; constructor; [|done].
    by exists bs. }
  assert (length l <= 1000)%nat as Hnl by (unfold l; by rewrite length_map).
  clearbody l.
  destruct (concat_packed (filter (fun p => p.1 <> DHO_DHCP_AGENT_OPTIONS /\ p.1 <> DHO_END) l)) as (a & -> & Ha);
    [apply Forall_forall; intros x [_ Hx]%list_elem_of_filter; rewrite Forall_forall in Hl; by apply Hl|].
  destruct (last_packed DHO_DHCP_AGENT_OPTIONS l Hl) as (b & -> & Hb).
  destruct (last_packed DHO_END l Hl) as (e & -> & He). rewrite !bind_Ok.
  exists (a ++ b ++ e). split; [done|].
  pose proof (length_filter (fun p => p.1 <> DHO_DHCP_AGENT_OPTIONS /\ p.1 <> DHO_END) l). zlia.
Qed.

(** ** How the answer's options grow *)
Section Grow.
Variable Q : Z * opt -> Prop.

Definition grown (n : nat) (p : Pkt) (r : result Pkt) : Prop :=
  forall q, r = Ok q -> Forall Q (poptions_ p) ->
    Forall Q (poptions_ q) /\ (length (poptions_ q) <= length (poptions_ p) + n)%nat.

Lemma length_minsert k o c : length (minsert k o c) = S (length c).
Proof. induction c as [|[j x] c IH]; cbn [minsert]; [done|]. destruct (k <? j); cbn; congruence. Qed.

Lemma grown_add o p : Q (type_ o, o) -> grown 1 p (P.addOption o p).
Proof.
  intros Ho q H Hp. unfold P.addOption in H. apply bind_ok in H as ([] & _ & [= <-]).
  change (poptions_ (p <| poptions_ := minsert (type_ o) o (poptions_ p) |>)) with (minsert (type_ o) o (poptions_ p)).
  split; [by apply Forall_minsert|]. rewrite length_minsert. lia.
Qed.

Lemma grown_ret n p q : poptions_ q = poptions_ p -> grown n p (Ok q).
Proof. intros E r [= <-] Hp. rewrite E. split; [done|lia]. Qed.

Lemma grown_bind n m p r k :
  grown n p r -> (forall q, r = Ok q -> grown m q (k q)) -> grown (n + m) p (r ≫= k).
Proof.
  intros Hr Hk q H Hp. apply bind_ok in H as (x & Hx & H). destruct (Hr x Hx Hp) as [H1 H2].
  destruct (Hk x Hx q H H1). split; [done|lia].
Qed.

Lemma grown_weaken n m p r : (n <= m)%nat -> grown n p r -> grown m p r.
Proof. intros Hn Hr q H Hp. destruct (Hr q H Hp). split; [done|lia]. Qed.

Lemma grown_from p p' n r : poptions_ p' = poptions_ p -> grown n p' r -> grown n p r.
Proof. intros E Hr q H Hp. rewrite <- E in *. by apply Hr. Qed.

Lemma grown_fold (f : Pkt -> Z -> result Pkt) l p :
  (forall p k, grown 1 p (f p k)) -> grown (length l) p (foldM f p l).
Proof.
  intros Hf. revert p. induction l as [|k l IH]; intros p; cbn [foldM length]; [by apply grown_ret|].
  apply (grown_bind 1 (length l)); [apply Hf|]. auto.
Qed.

End Grow.

Lemma uint32_packs k code v : packs (k, uint32_opt code v).
Proof. by eexists. Qed.
Lemma msg_type_packs k t : packs (k, msg_type_opt t).
Proof. by eexists. Qed.
Lemma server_id_packs k v : packs (k, server_id_opt (V4 v)).
Proof. by eexists. Qed.

Section AnswerGrows.
Variables (query : Pkt) (subnet : Subnet) (ifmgr : IfaceMgr).

(** The options the server copies from the query can be packed again. *)
Definition echo_ok (q : Pkt) : Prop :=
  forall k o, echoed k = true -> P.getOption k q = Some o -> packs (k, Option_.clone o).
Definition config_ok (opt_data : coll) : Prop :=
  forall k o, mfind k opt_data = Some o -> packs (k, Option_.clone o).

Hypothesis Hecho : echo_ok query.
Hypothesis Hconfig : config_ok (opt_data_ subnet).
Local Abbreviation grown := (grown packs).

Lemma packs_key k k' o : packs (k, o) -> packs (k', o).
Proof. done. Qed.

Lemma copy_grows k p : echoed k = true -> grown 1 p (Resp.copy_option k query p).
Proof.
  intros Hk. unfold Resp.copy_option. destruct (P.getOption k query) as [o|] eqn:E.
  - apply grown_add. eapply packs_key, Hecho; eauto.
  - by apply grown_ret.
Qed.

Lemma uint32_grows k v p : grown 1 p (Resp.add_uint32 k v p).
Proof.
  unfold Resp.add_uint32, OptionInt_make, Option_.make.
  destruct ((k =? 0) || (254 <? k)); [done|]. cbn [throw_if]. rewrite !bind_Ok. apply grown_add. apply uint32_packs.
Qed.

Lemma configured_grows p k : grown 1 p (Resp.add_configured (opt_data_ subnet) p k).
Proof.
  unfold Resp.add_configured. destruct (P.getOption k p); [by apply grown_ret|].
  destruct (mfind k (opt_data_ subnet)) as [o|] eqn:E; [|by apply grown_ret].
  apply grown_add. eapply packs_key, Hconfig; eauto.
Qed.

Lemma init_grows resp :
  Resp.initResponse query = Ok resp -> Forall packs (poptions_ resp) /\ (length (poptions_ resp) <= 4)%nat.
Proof.
  unfold Resp.initResponse. intros (t & _ & H)%bind_ok. apply bind_ok in H as (rt & Hrt & H).
  apply bind_ok in H as (r & Hr & H).
  assert (Forall packs (poptions_ (Resp.copy_header query r)) /\ length (poptions_ (Resp.copy_header query r)) = 1%nat)
    as [H1 H2].
  { assert (rt = DHCPOFFER \/ rt = DHCPACK) as [-> | ->].
    { destruct (t =? DHCPDISCOVER); [simplify_eq; auto|]. destruct (_ || _); [simplify_eq; auto|done]. }
    all: apply Ok_inj in Hr; subst r; split; [|done]; constructor; [apply msg_type_packs|constructor]. }
  cbv zeta in H.
  assert (grown (1 + (1 + 1)) (Resp.copy_header query r)
    (resp ← Resp.copy_option DHO_DHCP_CLIENT_IDENTIFIER query (Resp.copy_header query r);
     resp ← Resp.copy_option DHO_DHCP_AGENT_OPTIONS query resp;
     Resp.copy_option DHO_SUBNET_SELECTION query resp)) as Hg.
  { apply grown_bind; [by apply copy_grows|]. intros q _. apply grown_bind; [by apply copy_grows|].
    intros q' _. by apply copy_grows. }
  destruct (Hg resp H H1). split; [done|lia].
Qed.

Lemma times_grow p : grown 3 p (Resp.append_times query p subnet).
Proof.
  unfold Resp.append_times. apply (grown_bind _ 1 2); [apply uint32_grows|]. intros q _.
  apply (grown_bind _ 1 1).
  - destruct (negb _); [apply uint32_grows|by apply grown_ret].
  - intros q' _. destruct (negb _); [|by apply grown_ret].
    unfold Resp.three_quarters. destruct (_ && _); [|done]. rewrite bind_Ok. apply uint32_grows.
Qed.

Lemma basic_grows p : grown 8 p (Resp.appendBasicOptions query p subnet).
Proof.
  unfold Resp.appendBasicOptions. destruct (P.getType query) as [t| | |]; [|done..]. rewrite bind_Ok. cbv zeta.
  set (p' := if negb (t =? DHCPDISCOVER) then _ else _).
  assert (poptions_ p' = poptions_ p) as E by (unfold p'; by destruct (negb _)). clearbody p'.
  apply (grown_from _ p p' 8 _ E). apply (grown_bind _ 3 5).
  - destruct (negb _); [apply times_grow|by apply grown_ret].
  - intros q _. destruct (getNetmask4 _) as [m| | |]; [|done..]. rewrite bind_Ok.
    destruct (IOAddr.to_uint32 m); [|done..]. rewrite bind_Ok.
    apply (grown_bind _ 1 4); [apply uint32_grows|]. intros q' _.
    apply (grown_fold packs _ Resp.required_options). intros. apply configured_grows.
Qed.

Lemma server_id_grows p :
  grown 1 p (o ← Option4AddrLst_make DHO_DHCP_SERVER_IDENTIFIER (local_addr_ p); P.addOption o p).
Proof.
  destruct (local_addr_ p) as [v|]; [|done].
  change (grown 1 p (P.addOption (server_id_opt (V4 v)) p)). apply grown_add. apply server_id_packs.
Qed.

Lemma iface_grows p : grown 1 p (Resp.appendIfaceData ifmgr query p).
Proof.
  unfold Resp.appendIfaceData.
  destruct (Resp.adjustRemoteAddr _ query p) as [r| | |] eqn:E; [|done..]. rewrite bind_Ok.
  assert (poptions_ r = poptions_ p) as Er.
  { unfold Resp.adjustRemoteAddr in E. apply bind_ok in E as (t & _ & E).
    repeat match type of E with
    | (if ?b then _ else _) = _ => destruct b
    | mbind _ _ = Ok _ => apply bind_ok in E as (? & _ & E)
    | Ok (if ?b then _ else _) = _ => destruct b
    end; by apply Ok_inj in E; subst r. }
  apply (grown_from _ p r 1 _ Er). cbv zeta.
  destruct (if IOAddr.isV4Bcast _ then _ else _) as [a| | |]; [|done..]. rewrite bind_Ok.
  eapply grown_from; [|apply server_id_grows]. done.
Qed.

End AnswerGrows.

(** ** The configuration *)
Definition lifetimes_ok (t : Triplet) : Prop :=
  0 <= min_ t /\ min_ t <= default_ t <= max_ t /\ max_ t * 3 < 2^31.

(** What the configuration gives the server.  The store holds the standard
    definitions; subnets have distinct ids, valid prefixes and options that
    fit a message; interface names are distinct and sockets are IPv4; the
    callouts leave packets as they are. *)
Record env_ok (env : Env) : Prop := MkEnvOk {
  eo_safe : lib_safe (env_lib env);
  eo_std : std_defs (env_lib env);
  eo_alloc : forall n, env_alloc env n = true;
  eo_mgr : mgr_inv (env_subnets env);
  eo_subnets : Forall (fun s => typed (opt_data_ s) /\ config_ok (opt_data_ s) /\
    mfind DHO_DHCP_SERVER_IDENTIFIER (opt_data_ s) = None /\ v4_ok (siaddr4_ s) /\ lifetimes_ok (valid_ s))
    (subnets_ (env_subnets env));
  eo_names : NoDup (if_name_ <$> ifaces_ (env_ifmgr env));
  eo_sockets : Forall (fun i => Forall (fun s => v4_ok (so_addr_ s)) (if_sockets_ i) /\
    Forall v4_ok (if_addrs_ i)) (ifaces_ (env_ifmgr env));
  eo_receive : forall q r, receive_may env q r -> exists skip, r = Ok (q, skip);
  eo_send : forall q r, pkt4_send env q r = r;
  eo_size : forall m, ByteSize env m <= 64 + zlen (clientid m) + zlen (mac m) + Z.of_nat (String.length (hostname m)) }.

Lemma valid_lifetime_ok q s : lifetimes_ok (valid_ s) -> lifetime_ok (Resp.valid_lifetime q s).
Proof.
  intros (H0 & H1 & H2).
  assert (forall v, 0 <= v <= max_ (valid_ s) -> lifetime_ok (s32 v)) as Hs.
  { intros v Hv. unfold lifetime_ok, s32. rewrite Z.mod_small by lia. lia. }
  unfold Resp.valid_lifetime.
  destruct (P.getOption _ q) as [o|]; [|apply Hs; unfold Trip.get; lia].
  destruct (body_ o) as [|t v| | | | | | | |]; try (apply Hs; unfold Trip.get; lia).
  destruct t; try (apply Hs; unfold Trip.get; lia).
  apply Hs. rewrite get_hint_clamp by lia. lia.
Qed.

Section Env.
Variable env : Env.
Hypothesis Henv : env_ok env.

Definition config_subnet (s : Subnet) : Prop := s ∈ subnets_ (env_subnets env).

Lemma config_serves q s : config_subnet s -> subnet_serves q s /\ config_ok (opt_data_ s) /\ v4_ok (siaddr4_ s).
Proof.
  intros Hs. pose proof (eo_subnets _ Henv) as H. rewrite Forall_forall in H.
  destruct (H s Hs) as (Ht & Hc & Hi & Hv & Hl). destruct (eo_mgr _ Henv) as [_ Hn].
  rewrite Forall_forall in Hn. destruct (Hn s Hs) as (p & _ & _ & Hlen).
  split_and!; [|done|done]. split; [lia|done|done|]. by apply valid_lifetime_ok.
Qed.

(** The query arrived on a configured interface. *)
Definition arrived (q : Pkt) : Prop :=
  exists i s, i ∈ ifaces_ (env_ifmgr env) /\ s ∈ if_sockets_ i /\ iface_ q = if_name_ i.

Lemma getIface_arrived i :
  i ∈ ifaces_ (env_ifmgr env) -> Mgr.getIface (if_name_ i) (env_ifmgr env) = Some i.
Proof.
  pose proof (eo_names _ Henv) as Hn. unfold Mgr.getIface.
  induction (ifaces_ (env_ifmgr env)) as [|j l IH]; [by intros ?%elem_of_nil|].
  cbn [fmap list_fmap] in Hn. apply NoDup_cons in Hn as [Hj Hn]. cbn [List.find].
  intros [->|Hi]%elem_of_cons; [by rewrite String.eqb_refl|].
  destruct (String.eqb_spec (if_name_ j) (if_name_ i)) as [E|]; [|by apply IH].
  exfalso. apply Hj. rewrite E. by apply list_elem_of_fmap_2.
Qed.

Lemma local_of_ok q : wf_query q -> arrived q -> exists v, local_of (env_ifmgr env) q = Ok (V4 v) /\ addr_ok v.
Proof.
  intros [_ Ha _] (i & s & Hi & Hs & En). rewrite !Forall_cons_iff in Ha.
  destruct Ha as (_ & _ & (v & Ev & Hv) & _). unfold local_of. rewrite Ev.
  destruct (IOAddr.isV4Bcast (V4 v)); [|by exists v].
  unfold Mgr.getSocket. rewrite En, getIface_arrived by done.
  pose proof (pick_socket_local (local_addr_ q) None (if_sockets_ i)) as Hp.
  destruct (Mgr.pick_socket _ _ _) as [s'|] eqn:E.
  - rewrite bind_Ok. apply pick_socket_in in E as [|E]; [done|].
    pose proof (eo_sockets _ Henv) as Hso. rewrite Forall_forall in Hso. destruct (Hso i Hi) as [Hso' _].
    rewrite Forall_forall in Hso'. destruct (Hso' s' E) as (x & -> & Hx). by exists x.
  - destruct Hp as [_ Hp]. rewrite Hp in Hs. by apply elem_of_nil in Hs.
Qed.

(** *** Answers are built, packed and queued *)

(** [r] answers [q] with message type [t] and address [yi]. *)
Record reply_to (q : Pkt) (t : Z) (yi : IOAddress) (r : Pkt) : Prop := MkReply {
  rp_op : op_ r = BOOTREPLY;
  rp_xid : transid_ r = transid_ q;
  rp_chaddr : chaddr_ r = chaddr_ q;
  rp_giaddr : giaddr_ r = giaddr_ q;
  rp_iface : iface_ r = iface_ q;
  rp_remote : v4_ok (remote_addr_ r);
  rp_yiaddr : yiaddr_ r = yi;
  rp_type : P.getType r = Ok t;
  rp_reason : exists qt, P.getType q = Ok qt /\ (t = DHCPNAK /\ yi = V4 0 \/ answers qt = Some t) }.

(** What answering a query amounts to: one more packet to send; only an option
    of the query that cannot be packed again prevents it. *)
Definition answered (q : Pkt) (t : Z) (yi : IOAddress) (w : Srv) (res : result Srv) : Prop :=
  match res with
  | Ok w' => exists r, reply_to q t yi r /\ w' = Server.blockingWrite r w
  | _ => ~ echo_ok q
  end.

Lemma pack_keeps a p p' : P.pack a p = Ok p' -> exists b, p' = p <| buffer_out_ := b |>.
Proof. unfold P.pack. intros (b & _ & [= <-])%bind_ok. eauto. Qed.

Lemma answer_packs q r :
  answers_query q r -> wf_query q -> Forall v4_ok [ciaddr_ r; yiaddr_ r; siaddr_ r] ->
  Forall packs (poptions_ r) -> (length (poptions_ r) <= 1000)%nat ->
  exists r', P.pack (env_alloc env) r = Ok r'.
Proof.
  intros [_ _ _ _ H4 _ _ _ H5 H6 H7] [_ Haq _] Ha Hp Hn. destruct (packOptions4_packs _ Hp Hn) as (os & Hos & Hl).
  rewrite !Forall_cons_iff in Ha, Haq.
  destruct (pack_spec (env_alloc env) (eo_alloc _ Henv) r os) as (r' & Hr & _); [|done|done|by exists r'].
  split; [rewrite H4; repeat constructor; tauto|by rewrite H5|by rewrite H6|]. rewrite H7. by split; cbn.
Qed.

Lemma send_answered q r qt t w :
  answers_query q r -> wf_query q -> P.getType q = Ok qt -> v4_ok (remote_addr_ r) ->
  Forall v4_ok [ciaddr_ r; yiaddr_ r; siaddr_ r] ->
  (echo_ok q -> Forall packs (poptions_ r) /\ (length (poptions_ r) <= 1000)%nat) ->
  P.getOption DHO_DHCP_MESSAGE_TYPE r = Some (msg_type_opt t) -> t = DHCPNAK /\ yiaddr_ r = V4 0 \/ answers qt = Some t ->
  answered q t (yiaddr_ r) w (Server.send env q r w).
Proof.
  intros Haq Hq Hqt Hto Ha Hp Ht Hr. unfold Server.send, answered.
  pose proof (answer_packs q r Haq Hq Ha) as Hpk.
  destruct (P.pack (env_alloc env) r) as [r'| | |] eqn:E; cbn [mbind result_bind];
    try (intros He; destruct (Hp He) as [Hf Hn]; by destruct (Hpk Hf Hn)).
  apply pack_keeps in E as (b & ->). rewrite (eo_send _ Henv). eexists. split; [|done].
  destruct Haq. split; try done; [by apply getType_of_opt|]. by exists qt.
Qed.

Lemma Forall_mreplace (Q : Z * opt -> Prop) k o c : (forall j, Q (j, o)) -> Forall Q c -> Forall Q (mreplace k o c).
Proof.
  intros Ho. induction 1 as [|[j x] c Hx Hc IH]; cbn [mreplace]; [constructor|].
  destruct (j =? k); by constructor.
Qed.

Lemma length_mreplace k o c : length (mreplace k o c) = length c.
Proof. induction c as [|[j x] c IH]; cbn [mreplace]; [done|]. destruct (j =? k); cbn; congruence. Qed.

Lemma setType_grows p t t' :
  P.getOption DHO_DHCP_MESSAGE_TYPE p = Some (msg_type_opt t) -> grown packs 0 p (P.setType t' p).
Proof.
  intros Hm q. unfold P.setType. rewrite Hm. cbn [body_ msg_type_opt]. rewrite bind_Ok. intros [= <-] Hp.
  change (poptions_ (p <| poptions_ := ?c |>)) with c. rewrite length_mreplace. split; [|lia].
  apply Forall_mreplace; [|done]. intros j. apply (msg_type_packs j (u8 t')).
Qed.

Lemma nak_grows q r qt rt :
  wf_query q -> P.getType q = Ok qt -> answers qt = Some rt -> echo_ok q ->
  Resp.genNakResponse (env_ifmgr env) q = Ok r -> Forall packs (poptions_ r) /\ (length (poptions_ r) <= 1000)%nat.
Proof.
  intros Hq Hqt Hrt He H. unfold Resp.genNakResponse in H. apply bind_ok in H as (r0 & H0 & H).
  destruct (init_grows q He r0 H0) as [Hf Hn].
  destruct (initResponse_spec q qt rt (wq_typed _ Hq) Hqt Hrt) as (r0' & H0' & _ & _ & _ & _ & _ & Hk).
  rewrite H0 in H0'. simplify_eq.
  assert (grown packs (0 + 1) r0' (r1 ← P.setType DHCPNAK r0';
    Resp.appendIfaceData (env_ifmgr env) q (r1 <| yiaddr_ := IOAddr.of_uint32 0 |>))) as Hg.
  { apply grown_bind; [eapply setType_grows; by rewrite Hk|]. intros r1 _.
    eapply grown_from; [|apply iface_grows]. done. }
  destruct (Hg r H Hf). split; [done|lia].
Qed.

Lemma requested_length q : wf_query q -> (length (requested q) <= 255)%nat.
Proof.
  intros Hq. unfold requested. destruct (P.getOption _ q) as [o|] eqn:E; [|cbn; lia].
  destruct (body_ o) as [| |t l| | | | | | |] eqn:Eb; try (cbn; lia). destruct t; try (cbn; lia).
  destruct (wq_find _ _ _ Hq E) as (_ & _ & _ & _ & _ & _ & H & _). specialize (H eq_refl _ _ Eb). unfold zlen in H. lia.
Qed.

Lemma ack_grows q ip s r :
  wf_query q -> config_ok (opt_data_ s) -> echo_ok q ->
  Resp.genAckResponse (env_ifmgr env) q ip s = Ok r -> Forall packs (poptions_ r) /\ (length (poptions_ r) <= 1000)%nat.
Proof.
  intros Hq Hc He H. unfold Resp.genAckResponse in H. apply bind_ok in H as (r0 & H0 & H). cbv zeta in H.
  destruct (init_grows q He r0 H0) as [Hf Hn].
  assert (grown packs (8 + (length (requested q) + 1)) r0
    (resp ← Resp.appendBasicOptions q (r0 <| yiaddr_ := ip |>) s;
     resp ← Resp.appendRequestedOptions q resp s; Resp.appendIfaceData (env_ifmgr env) q resp)) as Hg.
  { apply (grown_from _ r0 (r0 <| yiaddr_ := ip |>)); [done|]. apply grown_bind; [by apply basic_grows|].
    intros r1 _. apply grown_bind; [|intros; apply iface_grows]. rewrite appendRequested_fold.
    apply grown_fold. intros. by apply configured_grows. }
  destruct (Hg r H Hf). pose proof (requested_length q Hq). split; [done|lia].
Qed.

(** The handlers that answer. *)
Lemma zero_v4 : v4_ok (V4 0).
Proof. by exists 0. Qed.

(** Answers go to an IPv4 address. *)
Lemma goes_to_v4 q direct qt rt yi a : wf_query q -> v4_ok yi -> goes_to direct q qt rt yi a -> v4_ok a.
Proof.
  intros Hq Hy H. pose proof (wq_addrs _ Hq) as Ha. rewrite !Forall_cons_iff in Ha. destruct Ha as (Hc & Hg & _ & Hr & _).
  destruct H; try done; (exists 0xFFFFFFFF; by split).
Qed.

Lemma denyRequest_ok q w qt rt :
  wf_query q -> arrived q -> P.getType q = Ok qt -> answers qt = Some rt ->
  answered q DHCPNAK (V4 0) w (Server.denyRequest env q w).
Proof.
  intros Hq Ha Hqt Hrt. destruct (local_of_ok q Hq Ha) as (v & Hl & _).
  destruct (genNakResponse_spec (env_ifmgr env) q qt rt v (wq_typed _ Hq) Hqt Hrt Hl)
    as (r & Hr & Haq & Had & Ey & Ec & Es & Hk).
  unfold Server.denyRequest. rewrite Hr, bind_Ok, <- Ey.
  eapply send_answered; [done|done|exact Hqt| | | |by rewrite Hk|by left].
  - eapply goes_to_v4; [done| |exact (ad_remote _ _ _ _ _ _ Had)]. rewrite Ey. apply zero_v4.
  - rewrite Ey, Ec, Es. repeat constructor; apply zero_v4.
  - intros He. by eapply nak_grows.
Qed.

Lemma giveLease_ok q ip s w qt rt :
  wf_query q -> arrived q -> P.getType q = Ok qt -> answers qt = Some rt -> config_subnet s -> v4_ok ip ->
  answered q rt ip w (resp ← Resp.genAckResponse (env_ifmgr env) q ip s; Server.send env q resp w).
Proof.
  intros Hq Ha Hqt Hrt Hs Hip. destruct (local_of_ok q Hq Ha) as (v & Hl & _).
  destruct (config_serves q s Hs) as (Hsv & Hc & Hsi).
  destruct (genAckResponse_spec (env_ifmgr env) q ip s qt rt v (wq_typed _ Hq) Hqt Hrt Hsv Hl)
    as (r & Hr & Haq & Had & Ey & Es & Ec & Hk).
  rewrite Hr, bind_Ok. rewrite <- Ey at 1.
  eapply send_answered; [done|done|exact Hqt| | | |by rewrite Hk|by right].
  - eapply goes_to_v4; [done| |exact (ad_remote _ _ _ _ _ _ Had)]. by rewrite Ey.
  - rewrite Ey, Ec, Es. pose proof (wq_addrs _ Hq) as Haddr. rewrite !Forall_cons_iff in Haddr.
    repeat constructor; try done. destruct (qt =? DHCPDISCOVER); [apply zero_v4|tauto].
  - intros He. by eapply ack_grows.
Qed.

Lemma getSubnet_config id s : SMgr.getSubnet id (env_subnets env) = Some s -> config_subnet s.
Proof. unfold SMgr.getSubnet. intros [H _]%List.find_some. by apply list_elem_of_In. Qed.

Lemma allocateSubnet_ok c w qt rt id :
  wf_query (query_ c) -> arrived (query_ c) -> P.getType (query_ c) = Ok qt -> answers qt = Some rt ->
  config_subnet (cc_subnet_ c) -> v4_ok (your_addr_ c) -> shared_subnet_id_ c = Some id ->
  let served := if negb (id =? 0) && negb (id =? Ctx.getSubnetID c) then SMgr.getSubnet id (env_subnets env)
                else Some (cc_subnet_ c) in
  answered (query_ c) (if served is Some _ then rt else DHCPNAK) (if served is Some _ then your_addr_ c else V4 0) w
    (Server.allocateSubnet env c w).
Proof. cbv zeta.
  intros Hq Ha Hqt Hrt Hs Hip Hid. unfold Server.allocateSubnet, Ctx.getSharedSubnetID. rewrite Hid, bind_Ok.
  destruct (_ && _); [|by eapply giveLease_ok].
  destruct (SMgr.getSubnet id (env_subnets env)) as [s|] eqn:E; [|by eapply denyRequest_ok].
  eapply giveLease_ok; try done. by eapply getSubnet_config.
Qed.

End Env.
