(* ===== verification/ServerMachine.v ===== *)
(** The server as a state machine: the invariant of every reachable state,
    and when a thread can terminate the process. *)
From stdpp Require Import base list numbers option strings gmap.
From Stdlib Require Import ZArith Lia.
From S2P Require Import Prelude Buffer HwAddr Address DnsName DnsNameFacts OptionDef Options.
From S2P Require Import OptionsFacts OptionsPack OptionsRoundTrip Pkt PktFacts Nic Subnet ResponseGen.
From S2P Require Import ResponseFacts QueryFacts ClientClass Server ServerFacts.

Section Machine.
Variables (env : Env) (net : list Z -> Prop).
Hypothesis Henv : env_ok env.

(** ** Queries from the network *)
Definition from_net (q : Pkt) : Prop :=
  exists i sock data from from_port pktinfo q0 q1,
    i ∈ ifaces_ (env_ifmgr env) /\ sock ∈ if_sockets_ i /\
    zlen data < 2^16 /\ bytes_ok data /\ net data /\
    Server.received i sock data from from_port pktinfo = Ok q0 /\
    P.unpack (env_lib env) q0 = Ok q1 /\ Server.classifyPacket env q1 = Ok q.

Lemma classify_keeps q q' : Server.classifyPacket env q = Ok q' -> exists c, q' = q <| classes_ := c |>.
Proof.
  unfold Server.classifyPacket. intros (l & _ & <-%Ok_inj)%bind_ok.
  assert (forall p c, p = q <| classes_ := c |> ->
    exists c, foldl (fun p x => P.addClass x p) p l = q <| classes_ := c |>) as H.
  { induction l as [|x l IH]; cbn [foldl]; intros p c ->; [by exists c|]. unfold P.addClass at 2.
    case_bool_decide; by eapply IH. }
  apply (H q (classes_ q)). by destruct q.
Qed.

(** The packet the socket filter hands over, before it is parsed. *)
Lemma received_raw i sock data from from_port pktinfo q :
  Server.received i sock data from from_port pktinfo = Ok q ->
  pdata_ q = data /\ 236 <= zlen data /\ poptions_ q = [] /\ iface_ q = if_name_ i /\
  v4_ok (local_addr_ q) /\ v4_ok (remote_addr_ q).
Proof.
  unfold Server.received, P.make_data. intros H. apply bind_ok in H as (q0 & H0 & H).
  apply bind_ok in H0 as ([] & Ht & [= <-]). apply throw_if_ok in Ht. unfold DHCPV4_PKT_HDR_LEN in Ht.
  apply Ok_inj in H. subst q.
  destruct pktinfo as [[ipi_ifindex ipi_addr]|]; cbn; split_and!; try done; try lia; try apply of_uint32_v4.
Qed.

Lemma header_hlen h : header_ok h -> 0 <= h_hlen h.
Proof. intros [Hf _]. unfold head_fields in Hf. rewrite !Forall_cons_iff in Hf. apply Hf. Qed.

(** A query in terms of the datagram it came in. *)
Lemma from_net_view q :
  from_net q -> exists i sock data h rest off os q0 c,
    i ∈ ifaces_ (env_ifmgr env) /\ sock ∈ if_sockets_ i /\ net data /\
    data = wire (head_fields h) ++ rest /\ header_ok h /\ h_hlen h <= 20 /\ bytes_ok rest /\
    unpackOptions4 (env_lib env) (drop 4 rest) DHCP4_OPTION_SPACE [] = Ok (off, os) /\
    iface_ q0 = if_name_ i /\ v4_ok (local_addr_ q0) /\ v4_ok (remote_addr_ q0) /\
    q = (unpacked h (MkHWAddr (resize (h_chaddr h) (h_hlen h)) (h_htype h) 0) os q0) <| classes_ := c |>.
Proof.
  intros (i & sock & data & from & fp & pi & q0 & q1 & Hi & Hs & Hl & Hb & Hnet & Hr & Hu & Hc).
  destruct (received_raw _ _ _ _ _ _ _ Hr) as (Ed & H236 & Eo & Ei & Hla & Hra).
  destruct (header_split data Hb H236) as (h & rest & E & Hh & Hbr & Hlr).
  rewrite (unpack_view _ q0 h rest) in Hu; [|done|by apply Forall_take|lia|by rewrite Ed].
  pose proof (unpack_rest_outcome (env_lib env) h rest q0 (eo_safe _ Henv) Hh Hbr ltac:(lia)) as Ho.
  destruct (unpack_error h rest) eqn:Ee; [congruence|]. destruct Ho as (os & off & Hos & _ & Ho).
  rewrite Ho in Hu. apply Ok_inj in Hu. rewrite Eo in Hos. destruct (classify_keeps q1 q Hc) as [c ->]. subst q1.
  exists i, sock, data, h, rest, off, os, q0, c. split_and!; try done.
  unfold unpack_error, HW.MAX_HWADDR_LEN in Ee. destruct (Z.ltb_spec 20 (h_hlen h)); [done|lia].
Qed.

Lemma from_net_wf q : from_net q -> wf_query q /\ arrived env q.
Proof.
  intros (i & sock & data & h & rest & off & os & q0 & c & Hi & Hs & _ & _ & Hh & H20 & Hbr & Hos & Ei & Hla & Hra & ->)
    %from_net_view. split; [split|].
  - change (poptions_ _) with os. eapply unpackOptions4_all; [|by apply bytes_ok_drop|exact Hos].
    intros. eapply parsed_ok_std; [apply (eo_std _ Henv)|done..].
  - repeat constructor; try done; apply of_uint32_v4.
  - change (zlen (resize (h_chaddr h) (h_hlen h)) <= 20). rewrite zlen_resize by (by apply header_hlen). done.
  - exists i, sock. split_and!; done.
Qed.

(** ** The invariant *)
Definition wants_address (q : Pkt) : Prop :=
  P.getType q = Ok DHCPDISCOVER \/ P.getType q = Ok DHCPREQUEST.

(** A request that is waited for. *)
Record waiting (c : ClientContext) : Prop := MkWaiting {
  wt_net : from_net (query_ c);
  wt_type : wants_address (query_ c);
  wt_subnet : config_subnet env (cc_subnet_ c);
  wt_retry : 0 <= retry_count_ c <= MAX_RETRY_COUNT }.

(** A record of the RPC queue, with or without a callback. *)
Definition queued (r : RPCRecord) : Prop :=
  wf_query (query_ r.1) /\ (r.2 = true -> waiting r.1).

Definition pinged (c : ClientContext) : Prop :=
  waiting c /\ is_Some (shared_subnet_id_ c) /\ v4_ok (your_addr_ c).

Definition reply (r : Pkt) : Prop := exists q t yi, from_net q /\ reply_to q t yi r.

Record srv_inv (w : Srv) : Prop := MkSrvInv {
  iv_queue : Forall queued (request_queue_ w);
  iv_flight : Forall queued (in_flight_ w) /\ (length (in_flight_ w) <= DEFAULT_CONN_COUNT)%nat;
  iv_pings : map_Forall (fun _ => pinged) (seq_record_map_ w);
  iv_timers : zlen (timer_queue_ w) <= PING_QUEUE_MAX_SIZE;
  iv_out : Forall reply (out_queue_ w) }.

(** What a handler may do: keep the invariant, or fail because the network
    delivered a query with an option that cannot be packed again. *)
Definition unpackable : Prop := exists q, from_net q /\ ~ echo_ok q.
Definition keeps (r : result Srv) : Prop :=
  match r with Ok w => srv_inv w | _ => unpackable end.
(** The same where an exception is caught. *)
Definition keeps_try (r : result Srv) : Prop :=
  match r with Ok w => srv_inv w | Throw _ => True | _ => unpackable end.

(** A delivered query on which a client class throws: the exception leaves
    the worker. *)
Definition unclassifiable : Prop :=
  exists i sock data from from_port pktinfo q0 q1, net data /\
    Server.received i sock data from from_port pktinfo = Ok q0 /\
    P.unpack (env_lib env) q0 = Ok q1 /\ is_ok (Server.classifyPacket env q1) = false.
Definition keeps_packet (r : result Srv) : Prop :=
  match r with Ok w => srv_inv w | _ => unpackable \/ unclassifiable end.

Lemma keeps_keeps_packet r : keeps r -> keeps_packet r.
Proof. destruct r; cbn; auto. Qed.

Lemma keeps_keeps_try r : keeps r -> keeps_try r.
Proof. by destruct r. Qed.

Lemma inv_init : srv_inv srv_init.
Proof. split; try done; [cbn; split; [done|lia]]. Qed.

Lemma keeps_answered q t yi w res : srv_inv w -> from_net q -> answered q t yi w res -> keeps res.
Proof.
  intros Hw Hq. destruct res as [w'| | |]; cbn; [|by exists q..].
  intros (r & Hr & ->). destruct Hw. split; try done. apply Forall_snoc; [done|]. by exists q, t, yi.
Qed.

Lemma keeps_queue r w : srv_inv w -> queued r -> srv_inv (Server.allocateAddr r.1 r.2 w).
Proof.
  intros [] Hr. split; try done. destruct r. by apply Forall_snoc.
Qed.

Lemma wants_answers q : wants_address q -> exists qt rt, P.getType q = Ok qt /\ answers qt = Some rt.
Proof. intros [E|E]; rewrite E; eauto. Qed.

Lemma keeps_deny q w : srv_inv w -> from_net q -> wants_address q \/ P.getType q = Ok DHCPINFORM ->
  keeps (Server.denyRequest env q w).
Proof.
  intros Hw Hq Ht. destruct (from_net_wf q Hq) as [Hwf Ha].
  assert (exists qt rt, P.getType q = Ok qt /\ answers qt = Some rt) as (qt & rt & E & Hrt).
  { destruct Ht as [?|E]; [by apply wants_answers|rewrite E; eauto]. }
  eapply keeps_answered; [done|done|]. by eapply denyRequest_ok.
Qed.

Lemma keeps_allocateSubnet c w : srv_inv w -> pinged c -> keeps (Server.allocateSubnet env c w).
Proof.
  intros Hw ([Hn Ht Hs _] & [id Hid] & Hy). destruct (from_net_wf _ Hn) as [Hwf Ha].
  destruct (wants_answers _ Ht) as (qt & rt & E & Hrt).
  eapply keeps_answered; [done|done|]. by eapply allocateSubnet_ok.
Qed.

Lemma keeps_allocateLease c w :
  srv_inv w -> from_net (query_ c) -> wants_address (query_ c) -> config_subnet env (cc_subnet_ c) ->
  0 <= retry_count_ c -> srv_inv (Server.allocateLease c w).
Proof.
  intros Hw Hn Ht Hs Hr. unfold Server.allocateLease.
  destruct (Z.ltb_spec MAX_RETRY_COUNT (retry_count_ c)); [done|].
  apply (keeps_queue (c, true)); [done|]. split; [by apply from_net_wf|]. by split.
Qed.

(** ** The handlers *)
Lemma select_addr_config a classes :
  v4_ok a -> exists o, SMgr.selectSubnet_addr a classes (env_subnets env) = Ok o /\
    forall s, o = Some s -> config_subnet env s.
Proof.
  intros (v & -> & Hv). destruct (eo_mgr _ Henv) as [_ Hn]. eexists.
  split; [by apply select_addr_find|]. intros s [H _]%List.find_some. by apply list_elem_of_In.
Qed.

Lemma conflict_query a : v4_ok a ->
  exists d, P.make DHCPCONFLICTIP DECLINE_CONFLICT_TRANS_ID = Ok d /\ wf_query (d <| ciaddr_ := a |>).
Proof.
  intros Ha. eexists. split; [reflexivity|]. split; [|repeat constructor; try done; apply zero_v4|done].
  repeat constructor; try done. intros _. eexists. split; [reflexivity|]. done.
Qed.

Lemma keeps_onPingFinish c w : srv_inv w -> pinged c -> keeps (Server.onPingFinish env c w).
Proof.
  intros Hw Hc. pose proof Hc as ([Hn Ht Hs Hr] & _ & Hy). unfold Server.onPingFinish.
  destruct (is_request_addr_conflict_ c); [|by apply keeps_allocateSubnet].
  destruct (select_addr_config (your_addr_ c) (classes_ (query_ c)) Hy) as (o & -> & Ho). rewrite bind_Ok.
  assert (forall w', srv_inv w' -> srv_inv (Server.allocateLease (Ctx.addRetryCount c) w')) as Hlease.
  { intros w' Hw'. apply keeps_allocateLease; try done. change (0 <= retry_count_ c + 1). lia. }
  destruct o as [s|]; [|rewrite bind_Ok; by apply Hlease].
  destruct (conflict_query (your_addr_ c) Hy) as (d & -> & Hd). rewrite !bind_Ok. apply Hlease.
  apply (keeps_queue (Ctx.make (d <| ciaddr_ := your_addr_ c |>) s, false)); [done|]. by split.
Qed.

Lemma keeps_ping id c w : srv_inv w -> pinged c -> keeps (Server.ping env id c w).
Proof.
  intros Hw Hc. unfold Server.ping. destruct (negb _); [by apply keeps_onPingFinish|].
  destruct (Z.leb_spec PING_QUEUE_MAX_SIZE (zlen (timer_queue_ w))); [done|].
  assert (zlen (timer_queue_ w ++ [id]) <= PING_QUEUE_MAX_SIZE) by (rewrite zlen_app; cbn; zlia).
  destruct Hw. cbv zeta. change (seq_record_map_ (w <| timer_queue_ := timer_queue_ w ++ [id] |>)) with (seq_record_map_ w).
  destruct (seq_record_map_ w !! id); split; try done. by apply map_Forall_insert_2.
Qed.

Lemma keeps_notify id b w : srv_inv w -> keeps (Server.notifyPingTarget env id b w).
Proof.
  intros Hw. unfold Server.notifyPingTarget. destruct (seq_record_map_ w !! id) as [c|] eqn:E; [|done].
  apply keeps_onPingFinish.
  - destruct Hw. split; try done. cbn. by apply map_Forall_delete.
  - destruct (iv_pings _ Hw _ _ E) as ([] & ? & ?). by split_and!.
Qed.

Lemma keeps_onRPCFinish id c w : srv_inv w -> pinged c -> keeps (Server.onRPCFinish env id c w).
Proof.
  intros Hw Hc. pose proof Hc as ([Hn Ht Hs Hr] & _ & Hy). unfold Server.onRPCFinish.
  destruct (_ || _); [apply keeps_deny; try done; by left|].
  unfold Ctx.getQueryType. destruct (wants_answers _ Ht) as (qt & rt & -> & _). rewrite bind_Ok.
  destruct (_ && _); [by apply keeps_ping|by apply keeps_allocateSubnet].
Qed.

Lemma keeps_reply id answer r w : srv_inv w -> queued r -> keeps (Server.unMarshResult env id answer r w).
Proof.
  intros Hw [_ Hr]. unfold Server.unMarshResult.
  assert (forall a s, v4_ok a -> keeps (if r.2
    then Server.onRPCFinish env id (Ctx.setSharedSubnetID s (Ctx.setYourAddr a r.1)) w else Ok w)) as H.
  { intros a s Ha. destruct r.2; [|done]. apply keeps_onRPCFinish; [done|].
    destruct (Hr eq_refl). split_and!; [by split|by eexists|done]. }
  destruct answer as [[a s]|]; apply H; [apply of_uint32_v4|apply zero_v4].
Qed.

Lemma marshRequset_ok c : wf_query (query_ c) -> exists m, Server.marshRequset env c = Ok m.
Proof.
  intros Hq. unfold Server.marshRequset, Ctx.getQueryType.
  destruct (wq_type _ Hq) as (t & -> & _). rewrite bind_Ok.
  destruct (wq_request_addr _ Hq c eq_refl) as (v & -> & Hv). rewrite bind_Ok.
  rewrite toLong_v4, bind_Ok by done.
  match goal with |- context [ByteSize env ?m] => set (msg := m); pose proof (eo_size _ Henv msg) as Hb end.
  assert (zlen (clientid msg) <= 255) as Hid.
  { change (clientid msg) with (Ctx.getClientID c). unfold Ctx.getClientID.
    destruct (P.getOption _ (query_ c)) as [o|] eqn:E; [|done].
    by destruct (wq_find _ _ _ Hq E) as (_ & _ & ? & _). }
  assert (zlen (mac msg) <= 20) as Hmac by apply (wq_hw _ Hq).
  change (String.length (hostname msg)) with 0%nat in Hb. clearbody msg.
  unfold Server.MAX_RESULT_BODY_LEN. rewrite (proj2 (Z.ltb_lt _ _)) by lia. by eexists.
Qed.

Lemma keeps_messageWrite w res : srv_inv w -> Server.messageWrite env w = Some res -> keeps res.
Proof.
  intros [Hq [Hf Hn] Hp Ht Ho]. unfold Server.messageWrite.
  destruct (request_queue_ w) as [|r rest] eqn:E; [done|]. case_decide as Hlt; [|done]. intros [= <-].
  apply Forall_cons_iff in Hq as [Hr Hq]. destruct (marshRequset_ok r.1) as (m & ->); [apply Hr|]. rewrite bind_Ok.
  split; try done. cbn. rewrite length_app. split; [|cbn; lia]. by apply Forall_snoc.
Qed.

Lemma keeps_drop i w : srv_inv w -> srv_inv (w <| in_flight_ := delete i (in_flight_ w) |>).
Proof.
  intros [Hq [Hf Hn] Hp Ht Ho]. split; try done. split; [by apply Forall_delete|].
  change (length (delete i (in_flight_ w)) <= DEFAULT_CONN_COUNT)%nat. rewrite delete_take_drop, length_app, length_take, length_drop. lia.
Qed.

(** *** Admission *)
Lemma accept_total q : wf_query q -> exists b, Server.accept env q = Ok b /\
  (b = true -> exists t, P.getType q = Ok t /\ t ∈ [DHCPDISCOVER; DHCPREQUEST; DHCPRELEASE; DHCPDECLINE; DHCPINFORM]).
Proof.
  intros Hq. unfold Server.accept, Server.acceptMessageType.
  destruct (wq_type q Hq) as (t & Ht & _). rewrite Ht, !bind_Ok.
  destruct (_ || _) eqn:Et; cbn [negb]; [|by exists false].
  assert (exists b, Server.acceptDirectRequest q = Ok b) as [b ->].
  { unfold Server.acceptDirectRequest. destruct (P.isRelayed q); [by eexists|]. rewrite Ht, bind_Ok. by eexists. }
  rewrite bind_Ok. destruct b; cbn [negb]; [|by exists false].
  assert (exists c, Server.acceptServerId env q = Ok c) as [c ->].
  { unfold Server.acceptServerId. destruct (P.getOption DHO_DHCP_SERVER_IDENTIFIER q) as [o|] eqn:E; [|by eexists].
    destruct (as_custom o) as [bufs|] eqn:Ea; [|by eexists].
    destruct (wq_address q DHO_DHCP_SERVER_IDENTIFIER o bufs Hq eq_refl E Ea) as (-> & v & -> & _).
    cbn [negb Z.eqb]. rewrite bind_Ok. destruct (negb _); by eexists. }
  rewrite bind_Ok. exists c. split; [done|]. intros _. exists t. split; [done|].
  rewrite !elem_of_cons. repeat rewrite orb_true_iff in Et. rewrite !Z.eqb_eq in Et. tauto.
Qed.

Lemma selector_arrived q v : wf_query q -> arrived env q -> addr_ok v ->
  selector_ok (env_ifmgr env)
    (MkSelector (ciaddr_ q) (giaddr_ q) (V4 v) (local_addr_ q) (remote_addr_ q) (classes_ q) (iface_ q)).
Proof.
  intros [_ Ha _] (i & s & Hi & Hs & En) Hv. rewrite !Forall_cons_iff in Ha. split; cbn.
  - repeat constructor; try tauto. by exists v.
  - intros _. exists i. rewrite En. split; [by apply getIface_arrived|].
    pose proof (eo_sockets _ Henv) as Hso. rewrite Forall_forall in Hso. by destruct (Hso i Hi).
Qed.

Lemma selectSubnet_config q : wf_query q -> arrived env q ->
  exists o, Server.selectSubnet env q = Ok o /\ forall s, o = Some s -> config_subnet env s.
Proof.
  intros Hq Ha. unfold Server.selectSubnet. destruct (wq_option_select q Hq) as (v & -> & Hv). rewrite bind_Ok.
  destruct (selectSubnet_spec (env_ifmgr env) _ (env_subnets env) (eo_mgr _ Henv) (selector_arrived q v Hq Ha Hv))
    as (P & _ & ->).
  eexists. split; [done|]. intros s' [H _]%List.find_some. by apply list_elem_of_In.
Qed.

Lemma sanityCheck_safe q l : wf_query q -> safe (Server.sanityCheck q l).
Proof.
  intros Hq. unfold Server.sanityCheck. apply safe_bind; [destruct l; apply safe_throw_if || done|].
  intros _ _. destruct (negb _); [done|].
  destruct (P.getOption DHO_DHCP_CLIENT_IDENTIFIER q) as [o|] eqn:E; [|done].
  destruct (wq_find _ _ _ Hq E) as (_ & _ & _ & _ & _ & _ & _ & H). destruct (H eq_refl) as [Hb Hs].
  destruct o as [ty d b os sp]. cbn in Hb, Hs. subst. cbn [Options.len map]. apply safe_throw_if.
Qed.

Lemma keeps_try_bind {A} (m : result A) k :
  safe m -> (forall a, m = Ok a -> keeps_try (k a)) -> keeps_try (m ≫= k).
Proof. destruct m; cbn; auto; by intros []. Qed.

(** *** The message handlers *)
Lemma keeps_processRequest q w :
  srv_inv w -> from_net q -> wants_address q -> keeps_try (Server.processRequest env q w).
Proof.
  intros Hw Hn Ht. destruct (from_net_wf q Hn) as [Hq Ha]. unfold Server.processRequest.
  destruct (wants_answers _ Ht) as (qt & _ & -> & _). rewrite bind_Ok.
  apply keeps_try_bind; [destruct (_ =? _); [by apply sanityCheck_safe|done]|]. intros _ _.
  destruct (selectSubnet_config q Hq Ha) as (o & -> & Ho). rewrite bind_Ok.
  destruct o as [s|]; [|apply keeps_keeps_try, keeps_deny; try done; by left].
  apply keeps_allocateLease; try done. by apply Ho.
Qed.

Lemma keeps_forward q o w :
  srv_inv w -> wf_query q ->
  srv_inv (match o with Some s => Server.allocateAddr (Ctx.make q s) false w | None => w end).
Proof.
  intros Hw Hq. destruct o as [s|]; [|done]. by apply (keeps_queue (Ctx.make q s, false)).
Qed.

Lemma keeps_processRelease q w : srv_inv w -> wf_query q -> keeps (Server.processRelease env q w).
Proof.
  intros Hw Hq. unfold Server.processRelease. pose proof (wq_addrs _ Hq) as Ha. rewrite !Forall_cons_iff in Ha.
  destruct (select_addr_config (ciaddr_ q) (classes_ q)) as (o & -> & _); [tauto|]. by apply keeps_forward.
Qed.

Lemma keeps_processDecline q w : srv_inv w -> wf_query q -> keeps (Server.processDecline env q w).
Proof.
  intros Hw Hq. unfold Server.processDecline.
  destruct (P.getOption DHO_DHCP_REQUESTED_ADDRESS q) as [o|] eqn:E; cbn [mbind option_bind]; [|done].
  destruct (as_custom o) as [bufs|] eqn:Ea; [|done].
  destruct (wq_address q DHO_DHCP_REQUESTED_ADDRESS o bufs Hq eq_refl E Ea) as (_ & v & -> & Hv). rewrite bind_Ok.
  destruct (select_addr_config (V4 v) (classes_ q)) as (os & -> & _); [by exists v|]. by apply keeps_forward.
Qed.

Lemma keeps_processInform q w :
  srv_inv w -> from_net q -> P.getType q = Ok DHCPINFORM -> keeps_try (Server.processInform env q w).
Proof.
  intros Hw Hn Ht. destruct (from_net_wf q Hn) as [Hq Ha]. unfold Server.processInform.
  apply keeps_try_bind; [by apply sanityCheck_safe|]. intros _ _.
  pose proof (wq_addrs _ Hq) as Hadr. rewrite !Forall_cons_iff in Hadr.
  destruct (select_addr_config (ciaddr_ q) (classes_ q)) as (o & -> & Ho); [tauto|]. rewrite bind_Ok.
  apply keeps_keeps_try. destruct o as [s|]; [|apply keeps_deny; try done; by right].
  eapply keeps_answered; [done|done|]. eapply giveLease_ok; try done; [by apply Ho|apply zero_v4].
Qed.

Lemma keeps_dispatch q w : srv_inv w -> from_net q -> keeps_try (Server.dispatch env q w).
Proof.
  intros Hw Hn. destruct (from_net_wf q Hn) as [Hq _]. unfold Server.dispatch.
  destruct (wq_type q Hq) as (t & Ht & _). rewrite Ht, bind_Ok.
  destruct ((t =? DHCPDISCOVER) || (t =? DHCPREQUEST)) eqn:E.
  { apply keeps_processRequest; try done. unfold wants_address. rewrite Ht.
    apply orb_true_iff in E. rewrite !Z.eqb_eq in E. destruct E as [-> | ->]; auto. }
  destruct (t =? DHCPRELEASE); [by apply keeps_keeps_try, keeps_processRelease|].
  destruct (t =? DHCPDECLINE); [by apply keeps_keeps_try, keeps_processDecline|].
  destruct (Z.eqb_spec t DHCPINFORM) as [->|]; [by apply keeps_processInform|done].
Qed.

Lemma keeps_processPacket i sock data from from_port pktinfo receive q w :
  srv_inv w -> i ∈ ifaces_ (env_ifmgr env) -> sock ∈ if_sockets_ i ->
  zlen data < 2^16 -> bytes_ok data -> net data ->
  Server.received i sock data from from_port pktinfo = Ok q -> (forall p, receive_may env p (receive p)) ->
  keeps_packet (Server.processPacket env receive q w).
Proof.
  intros Hw Hi Hs Hl Hb Hnet Hr Hrc. unfold Server.processPacket.
  destruct (received_raw _ _ _ _ _ _ _ Hr) as (Ed & H236 & _).
  destruct (header_split data Hb H236) as (h & rest & E & Hh & Hbr & Hlr).
  assert (safe (P.unpack (env_lib env) q)) as Hsafe.
  { rewrite (unpack_view _ q h rest); [|done|by apply Forall_take|lia|by rewrite Ed].
    pose proof (unpack_rest_outcome (env_lib env) h rest q (eo_safe _ Henv) Hh Hbr ltac:(lia)) as Ho.
    destruct (unpack_error h rest); [by rewrite Ho|]. destruct Ho as (? & ? & _ & _ & ->). done. }
  destruct (P.unpack (env_lib env) q) as [q1| | |] eqn:Eu; [|done..].
  destruct (is_ok (Server.classifyPacket env q1)) eqn:Ec; cycle 1.
  { assert unclassifiable by (by exists i, sock, data, from, from_port, pktinfo, q, q1).
    destruct (Server.classifyPacket env q1); [done|by right..]. }
  destruct (Server.classifyPacket env q1) as [q2| | |] eqn:Eq; [|done..]. rewrite bind_Ok.
  assert (from_net q2) as Hn by (exists i, sock, data, from, from_port, pktinfo, q, q1; by split_and!).
  apply keeps_keeps_packet.
  destruct (accept_total q2) as (b & -> & _); [by apply from_net_wf|]. rewrite bind_Ok.
  destruct b; [|done]. cbn [negb]. destruct (eo_receive _ Henv q2 _ (Hrc q2)) as [skip ->].
  rewrite bind_Ok. destruct skip; [done|].
  pose proof (keeps_dispatch q2 w Hw Hn). by destruct (Server.dispatch env q2 w).
Qed.

(** ** Every step *)
Lemma step_keeps w o :
  srv_inv w -> Server.step env net w o ->
  match o with Some w' => srv_inv w' | None => unpackable \/ unclassifiable end.
Proof.
  assert (forall r, keeps_packet r ->
    match Server.outcome r with Some w' => srv_inv w' | None => unpackable \/ unclassifiable end) as Hp by (by intros []).
  assert (forall r, keeps r ->
    match Server.outcome r with Some w' => srv_inv w' | None => unpackable \/ unclassifiable end) as H
    by (intros r Hr; by apply Hp, keeps_keeps_packet).
  intros Hw. destruct 1.
  - apply Hp. by eapply keeps_processPacket.
  - apply H. by eapply keeps_messageWrite.
  - apply H. unfold Server.RPC_reply in *.
    destruct (in_flight_ w !! i) as [r|] eqn:E; cbn in *; [|done]. simplify_eq. apply keeps_reply; [by apply keeps_drop|].
    destruct (iv_flight _ Hw) as [Hf _]. rewrite Forall_forall in Hf. apply Hf. by eapply list_elem_of_lookup_2.
  - by apply keeps_drop.
  - apply H. by apply keeps_notify.
  - apply H. apply keeps_notify. destruct Hw as [? ? ? Ht ?]. split; try done.
    change (zlen rest <= PING_QUEUE_MAX_SIZE). match goal with E : timer_queue_ w = _ |- _ => rewrite E in Ht end. zlia.
  - destruct Hw as [? ? ? ? Ho]. split; try done. 
    match goal with E : out_queue_ w = _ |- _ => rewrite E in Ho end. by inversion Ho.
Qed.

(** The options a datagram carries can be packed again. *)
Definition datagram_echoes (data : list Z) : Prop :=
  forall off os, unpackOptions4 (env_lib env) (drop 240 data) DHCP4_OPTION_SPACE [] = Ok (off, os) ->
    forall k o, echoed k = true -> mfind k os = Some o -> packs (k, Option_.clone o).

Lemma from_net_options q : (forall data, net data -> datagram_echoes data) -> from_net q -> echo_ok q.
Proof.
  intros Hd (i & sock & data & h & rest & off & os & q0 & c & _ & _ & Hnet & E & Hh & _ & _ & Hos & _ & _ & _ & ->)
    %from_net_view. intros k o. apply (Hd data Hnet off os). rewrite <- Hos. f_equal. rewrite E.
  apply zlen_header in Hh. unfold zlen in Hh. rewrite drop_app_ge by lia. f_equal. lia.
Qed.

(** No client class throws on it. *)
Definition datagram_classifies (data : list Z) : Prop :=
  forall i sock from from_port pktinfo q0 q1,
    Server.received i sock data from from_port pktinfo = Ok q0 -> P.unpack (env_lib env) q0 = Ok q1 ->
    is_ok (Server.classifyPacket env q1) = true.
Definition datagram_safe (data : list Z) : Prop := datagram_echoes data /\ datagram_classifies data.

Lemma step_survives w o :
  (forall data, net data -> datagram_safe data) -> srv_inv w -> Server.step env net w o -> exists w', o = Some w'.
Proof.
  intros Hnet Hw Hs. pose proof (step_keeps w o Hw Hs) as H. destruct o as [w'|]; [by exists w'|].
  destruct H as [(q & Hq & [])|(i & sock & data & from & fp & pi & q0 & q1 & Hd & Hr & Hu & Hc)].
  - eapply from_net_options; [|done]. intros data Hd. by destruct (Hnet data Hd).
  - destruct (Hnet data Hd) as [_ Hs']. by rewrite (Hs' _ _ _ _ _ _ _ Hr Hu) in Hc.
Qed.

Lemma no_classes_classify data : env_classes env = Classes.empty -> datagram_classifies data.
Proof. intros E i sock from fp pi q0 q1 _ _. unfold Server.classifyPacket. by rewrite E. Qed.

Lemma reachable_inv w : Server.reachable env net w -> srv_inv w.
Proof. induction 1 as [|w w' _ IH Hs]; [apply inv_init|]. by apply (step_keeps w (Some w')). Qed.

End Machine.
