(* ===== verification/ServerLive.v ===== *)
(** The server comes to rest.  When the network delivers no further query,
    every run that changes the state is finite, and it ends with nothing left
    to do: every queue is empty and no ping record is forgotten.  The measure
    that decreases counts what a request can still cause, with the number of
    retries it has left. *)
From stdpp Require Import base list numbers option strings gmap relations.
From Stdlib Require Import ZArith Lia.
From S2P Require Import Prelude Buffer HwAddr Address DnsName OptionDef Options Pkt.
From S2P Require Import PktFacts Nic Subnet ResponseGen ResponseFacts QueryFacts Server.
From S2P Require Import ServerFacts ServerMachine.

(** The fields of an updated state. *)
Ltac srv_fields :=
  unfold set in *;
  cbn beta iota delta [request_queue_ in_flight_ seq_record_map_ timer_queue_ out_queue_] in *.

(** ** What a request can still cause *)
Definition retries_left (c : ClientContext) : nat := Z.to_nat (MAX_RETRY_COUNT - retry_count_ c).

(** The work of a record in the request queue, of one a connection waits
    for, and of one whose address is pinged.  Each stage costs at least what
    it leads to: a conflict leads to a report without callback and one more
    request with one retry less. *)
Definition queue_work (r : RPCRecord) : nat := if r.2 then 6 * retries_left r.1 + 6 else 2.
Definition flight_work (r : RPCRecord) : nat := if r.2 then 6 * retries_left r.1 + 5 else 1.
Definition ping_work (c : ClientContext) : nat := 6 * retries_left c + 3.

Definition pings_work (m : gmap Z ClientContext) : nat :=
  sum_list_with (fun kc => ping_work kc.2) (map_to_list m).

Definition work (w : Srv) : nat :=
  sum_list_with queue_work (request_queue_ w) + sum_list_with flight_work (in_flight_ w) +
  pings_work (seq_record_map_ w) + length (timer_queue_ w) + length (out_queue_ w).

Lemma pings_work_insert m id c : m !! id = None -> pings_work (<[id:=c]> m) = (ping_work c + pings_work m)%nat.
Proof.
  intros H. unfold pings_work.
  rewrite (sum_list_with_Permutation_proper _ _ _ (map_to_list_insert m id c H)). done.
Qed.

Lemma pings_work_delete m id c :
  m !! id = Some c -> pings_work m = (ping_work c + pings_work (delete id m))%nat.
Proof.
  intros H. rewrite <- (pings_work_insert (delete id m) id) by apply lookup_delete_eq. by rewrite insert_delete_id.
Qed.

Lemma flight_work_delete l i r :
  l !! i = Some r ->
  sum_list_with flight_work l = (flight_work r + sum_list_with flight_work (delete i l))%nat.
Proof.
  intros H. by rewrite (sum_list_with_Permutation_proper _ _ _ (delete_Permutation _ _ _ H)).
Qed.

(** ** What a handler leaves behind *)

(** A handler that neither starts nor ends a ping only appends to the queues. *)
Definition appends (w : Srv) (l : list RPCRecord) (o : list Pkt) : Srv :=
  w <| request_queue_ := request_queue_ w ++ l |> <| out_queue_ := out_queue_ w ++ o |>.

Lemma appends_nil w : w = appends w [] [].
Proof. destruct w. unfold appends. cbn. by rewrite !app_nil_r. Qed.

Lemma work_appends w l o :
  work (appends w l o) = (work w + sum_list_with queue_work l + length o)%nat.
Proof. unfold work, appends. srv_fields. rewrite sum_list_with_app, length_app. lia. Qed.

Section Live.
Variable env : Env.

Lemma send_appends q r w w' : Server.send env q r w = Ok w' -> exists p, w' = appends w [] [p].
Proof.
  unfold Server.send. intros (p & _ & [= <-])%bind_ok. eexists. unfold appends, Server.blockingWrite.
  destruct w. cbn. by rewrite app_nil_r.
Qed.

Lemma deny_appends q w w' : Server.denyRequest env q w = Ok w' -> exists p, w' = appends w [] [p].
Proof. unfold Server.denyRequest. intros (p & _ & H)%bind_ok. by eapply send_appends. Qed.

Lemma subnet_appends c w w' : Server.allocateSubnet env c w = Ok w' -> exists p, w' = appends w [] [p].
Proof.
  unfold Server.allocateSubnet. intros (id & _ & H)%bind_ok.
  assert (forall s, Server.assignLease env c s w = Ok w' -> exists p, w' = appends w [] [p]) as Ha.
  { intros s. unfold Server.assignLease. intros (p & _ & Hp)%bind_ok. by eapply send_appends. }
  destruct (_ && _); [|by eapply Ha]. destruct (SMgr.getSubnet _ _); [by eapply Ha|by eapply deny_appends].
Qed.

(** After a conflict: a report, and the request again unless its retries are
    used up. *)
Definition retry_of (c : ClientContext) : list RPCRecord :=
  if MAX_RETRY_COUNT <? retry_count_ c + 1 then [] else [(Ctx.addRetryCount c, true)].

Lemma retry_appends c w : Server.allocateLease (Ctx.addRetryCount c) w = appends w (retry_of c) [].
Proof.
  unfold Server.allocateLease, retry_of. change (retry_count_ (Ctx.addRetryCount c)) with (retry_count_ c + 1).
  destruct (_ <? _); [apply appends_nil|]. unfold Server.allocateAddr, appends. destruct w. cbn. by rewrite app_nil_r.
Qed.

Lemma finish_appends c w w' :
  Server.onPingFinish env c w = Ok w' ->
  (is_request_addr_conflict_ c = false /\ exists p, w' = appends w [] [p]) \/
  (is_request_addr_conflict_ c = true /\ exists l, Forall (fun r => r.2 = false) l /\ (length l <= 1)%nat /\
    w' = appends w (l ++ retry_of c) []).
Proof.
  unfold Server.onPingFinish. destruct (is_request_addr_conflict_ c).
  - intros (o & _ & (w1 & H1 & [= <-])%bind_ok)%bind_ok. right. split; [done|]. rewrite retry_appends.
    destruct o as [s|]; [|apply Ok_inj in H1; subst w1; exists []; split_and!; [done|cbn; lia|done]].
    apply bind_ok in H1 as (d & _ & [= <-]).
    exists [(Ctx.make (d <| ciaddr_ := your_addr_ c |>) s, false)].
    split_and!; [by repeat constructor|cbn; lia|]. unfold Server.allocateAddr, appends. srv_fields. by rewrite <- app_assoc.
  - intros [p ->]%subnet_appends. left. split; [done|]. by exists p.
Qed.

Lemma retry_work c : (sum_list_with queue_work (retry_of c) <= 6 * retries_left c)%nat.
Proof.
  unfold retry_of. destruct (Z.ltb_spec MAX_RETRY_COUNT (retry_count_ c + 1)); [cbn; lia|].
  unfold queue_work, retries_left, MAX_RETRY_COUNT in *. cbn [sum_list_with snd fst].
  change (retry_count_ (Ctx.addRetryCount c)) with (retry_count_ c + 1). lia.
Qed.

Lemma finish_work c w w' : Server.onPingFinish env c w = Ok w' -> (work w' < work w + ping_work c)%nat.
Proof.
  intros [(_ & p & ->)|(_ & l & Hl & Hn & ->)]%finish_appends; rewrite work_appends; unfold ping_work.
  - cbn. lia.
  - rewrite sum_list_with_app. pose proof (retry_work c).
    assert (sum_list_with queue_work l <= 2)%nat; [|cbn; lia].
    destruct l as [|[? []] [|]]; cbn in *; [lia|by inversion Hl|lia..].
Qed.

Lemma notify_work id b w w' :
  Server.notifyPingTarget env id b w = Ok w' -> w' = w \/ (work w' < work w)%nat.
Proof.
  unfold Server.notifyPingTarget. destruct (seq_record_map_ w !! id) as [c|] eqn:E; [|intros [= ->]; by left].
  intros H%finish_work. right. change (ping_work _) with (ping_work c) in H.
  unfold work in H |- *. srv_fields. rewrite (pings_work_delete _ _ _ E). lia.
Qed.

Lemma ping_adds id c w w' :
  Server.ping env id c w = Ok w' -> (work w' <= work w + ping_work c + 1)%nat.
Proof.
  unfold Server.ping. destruct (negb _); [intros ?%finish_work; lia|].
  destruct (_ <=? _); [intros [= <-]; lia|]. intros [= <-].
  change (seq_record_map_ (w <| timer_queue_ := timer_queue_ w ++ [id] |>)) with (seq_record_map_ w).
  destruct (seq_record_map_ w !! id) eqn:E; unfold work; srv_fields; rewrite length_app; cbn [length]; [lia|].
  rewrite pings_work_insert by done. lia.
Qed.

Lemma rpc_finish_work id c w w' :
  Server.onRPCFinish env id c w = Ok w' -> (work w' <= work w + ping_work c + 1)%nat.
Proof.
  assert (forall p, (work (appends w [] [p]) <= work w + ping_work c + 1)%nat) as Ha.
  { intros p. rewrite work_appends. cbn. lia. }
  unfold Server.onRPCFinish. destruct (_ || _); [intros [p ->]%deny_appends; apply Ha|].
  intros (t & _ & H)%bind_ok. destruct (_ && _); [by eapply ping_adds|].
  apply subnet_appends in H as [p ->]. apply Ha.
Qed.

Lemma reply_work id answer r w w' :
  Server.unMarshResult env id answer r w = Ok w' -> (work w' < work w + flight_work r)%nat.
Proof.
  unfold Server.unMarshResult, flight_work. destruct answer as [[a s]|]; destruct r as [c []]; cbn [fst snd];
    try (intros [= <-]; lia); intros H%rpc_finish_work; unfold ping_work in H;
    change (retries_left _) with (retries_left c) in H; lia.
Qed.

(** ** Steps without the network *)

(** What the server's own threads and the master do when nothing is lost:
    the packets a step hands to the network are its label. *)
Inductive served (w : Srv) : list Pkt -> Srv -> Prop :=
| served_take w' : Server.messageWrite env w = Some (Ok w') -> served w [] w'
| served_reply i pack_id answer w' : Server.RPC_reply env i pack_id answer w = Some (Ok w') -> served w [] w'
| served_timer pack_id rest w' :
    timer_queue_ w = pack_id :: rest ->
    Server.notifyPingTarget env pack_id false (w <| timer_queue_ := rest |>) = Ok w' -> served w [] w'
| served_sent p rest : out_queue_ w = p :: rest -> served w [p] (w <| out_queue_ := rest |>).

Inductive serves : Srv -> list Pkt -> Srv -> Prop :=
| serves_nil w : serves w [] w
| serves_step w1 ps w2 qs w3 : served w1 ps w2 -> serves w2 qs w3 -> serves w1 (ps ++ qs) w3.

Lemma take_inv w w' :
  Server.messageWrite env w = Some (Ok w') -> exists r rest, request_queue_ w = r :: rest /\
    w' = w <| request_queue_ := rest |> <| in_flight_ := in_flight_ w ++ [r] |>.
Proof.
  unfold Server.messageWrite. destruct (request_queue_ w) as [|r rest]; [done|]. case_decide; [|done].
  intros [= Hm]. apply bind_ok in Hm as (m & _ & [= <-]). eauto.
Qed.

Lemma reply_inv i id answer w w' :
  Server.RPC_reply env i id answer w = Some (Ok w') -> exists r, in_flight_ w !! i = Some r /\
    Server.unMarshResult env id answer r (w <| in_flight_ := delete i (in_flight_ w) |>) = Ok w'.
Proof. unfold Server.RPC_reply. destruct (in_flight_ w !! i) as [r|]; [|done]. intros [= H]. eauto. Qed.

Lemma served_work w ps w' : served w ps w' -> (work w' < work w)%nat.
Proof.
  destruct 1 as [w' (r & rest & E & ->)%take_inv|i id answer w' (r & E & Hr)%reply_inv|id rest w' Ht Hn|p rest Ht].
  - unfold work. srv_fields. rewrite E, sum_list_with_app. destruct r as [c []]; cbn; lia.
  - apply reply_work in Hr. unfold work in Hr |- *. srv_fields. rewrite (flight_work_delete _ _ _ E). lia.
  - assert (work w = S (work (w <| timer_queue_ := rest |>))) as ->.
    { unfold work. srv_fields. rewrite Ht. cbn. lia. }
    apply notify_work in Hn as [->|]; lia.
  - unfold work. srv_fields. rewrite Ht. cbn. lia.
Qed.

Lemma served_is_step net w ps w' : served w ps w' -> Server.step env net w (Some w').
Proof.
  destruct 1 as [w' H|i id a w' H|id rest w' H1 H2|p rest H].
  - by apply (Server.step_rpc_take _ _ _ (Ok w')).
  - by apply (Server.step_rpc_reply _ _ _ i id a (Ok w')).
  - rewrite <- (eq_refl : Server.outcome (Ok w') = Some w'), <- H2. by apply Server.step_timer.
  - by apply (Server.step_sent _ _ _ p).
Qed.

Lemma outcome_ok r w : Server.outcome r = Some w -> r = Ok w.
Proof. destruct r; cbn; congruence. Qed.

(** The steps of the machine: the network, the above, and the losses. *)
Lemma step_cases net w w' :
  Server.step env net w (Some w') ->
  (exists data receive q, net data /\ Server.processPacket env receive q w = Ok w') \/ (exists ps, served w ps w') \/
  (exists i, w' = w <| in_flight_ := delete i (in_flight_ w) |>) \/
  (exists id, Server.notifyPingTarget env id true w = Ok w').
Proof.
  intros Hs. remember (Some w') as o eqn:Eo.
  destruct Hs as [i sock data ????????? Hnet|res Hm|i id answer res Hr|i|id|id rest Ht|p rest Ht];
    try (apply outcome_ok in Eo); try subst res; try (injection Eo as <-).
  - left. eauto.
  - right; left. eexists. by apply served_take.
  - right; left. eexists. by eapply served_reply.
  - right; right; left. eauto.
  - right; right; right. eauto.
  - right; left. eexists. by eapply served_timer.
  - right; left. eexists. by apply served_sent.
Qed.

Definition silent : list Z -> Prop := fun _ => False.

Definition quiet (w w' : Srv) : Prop := Server.step env silent w (Some w') /\ w' <> w.

Lemma quiet_work w w' : quiet w w' -> (work w' < work w)%nat.
Proof.
  intros [[(? & ? & ? & [] & _)|[[ps H]|[[i ->]|[id H]]]]%step_cases Hne].
  - by eapply served_work.
  - destruct (in_flight_ w !! i) as [r|] eqn:E.
    + unfold work. srv_fields. rewrite (flight_work_delete _ _ _ E).
      assert (1 <= flight_work r)%nat by (destruct r as [? []]; cbn; lia). lia.
    + exfalso. apply Hne. destruct w; unfold set; cbn in *. f_equal.
      apply lookup_ge_None in E. by rewrite delete_take_drop, take_ge, drop_ge, app_nil_r by lia.
  - by apply notify_work in H as [->|].
Qed.

Lemma quiet_sn w : sn quiet w.
Proof.
  remember (work w) as n eqn:E. revert w E. induction (lt_wf n) as [n _ IH]. intros w ->.
  constructor. intros w' Hw. eapply IH; [by apply quiet_work|done].
Qed.

Lemma served_quiet w ps w' : served w ps w' -> quiet w w'.
Proof.
  intros H. split; [by eapply served_is_step|]. intros ->. apply served_work in H. lia.
Qed.

(** ** Queries only append *)
Definition fresh (r : RPCRecord) : Prop := is_request_addr_conflict_ r.1 = false.

Definition grows (w : Srv) (res : result Srv) : Prop :=
  forall w', res = Ok w' -> exists l o, w' = appends w l o /\ Forall fresh l.

Lemma grows_same w : grows w (Ok w).
Proof. intros w' [= <-]. exists [], []. split; [apply appends_nil|done]. Qed.

Lemma grows_bind {A} w (m : result A) k : (forall a, m = Ok a -> grows w (k a)) -> grows w (m ≫= k).
Proof. intros Hk w' (a & Ha & H)%bind_ok. by eapply Hk. Qed.

Lemma grows_one w res : (forall w', res = Ok w' -> exists p, w' = appends w [] [p]) -> grows w res.
Proof. intros H w' [p ->]%H. by exists [], [p]. Qed.

Lemma grows_deny q w : grows w (Server.denyRequest env q w).
Proof. apply grows_one. apply deny_appends. Qed.

Lemma grows_queue q s b w : grows w (Ok (Server.allocateAddr (Ctx.make q s) b w)).
Proof.
  intros w' [= <-]. exists [(Ctx.make q s, b)], []. split; [|by repeat constructor].
  unfold Server.allocateAddr, appends. srv_fields. by rewrite app_nil_r.
Qed.

Lemma grows_lease q s w : grows w (Ok (Server.allocateLease (Ctx.make q s) w)).
Proof. unfold Server.allocateLease. destruct (_ <? _); [apply grows_same|apply grows_queue]. Qed.

Hint Resolve grows_same grows_deny grows_lease grows_queue : kea.

Lemma grows_inform q w : grows w (Server.processInform env q w).
Proof.
  unfold Server.processInform. do 2 (apply grows_bind; intros ? _).
  case_match; [|auto with kea]. apply grows_bind. intros p _. apply grows_one. apply send_appends.
Qed.

Lemma grows_dispatch q w : grows w (Server.dispatch env q w).
Proof.
  unfold Server.dispatch, Server.processRequest, Server.processRelease, Server.processDecline.
  apply grows_bind. intros t _. repeat case_match; auto using grows_inform with kea;
    repeat (apply grows_bind; intros ? _); try case_match; auto with kea.
Qed.

Lemma grows_packet receive q w : grows w (Server.processPacket env receive q w).
Proof.
  unfold Server.processPacket. destruct (P.unpack _ _) as [p| | |]; [|auto with kea|done..].
  apply grows_bind. intros c _. apply grows_bind. intros a _. destruct (negb a); [auto with kea|]. 
  apply grows_bind. intros [p' []] _; [auto with kea|].
  pose proof (grows_dispatch p' w) as H. destruct (Server.dispatch env p' w); cbn; auto with kea; done.
Qed.

(** ** Every ping record has its timer *)
Definition timed (w : Srv) : Prop :=
  forall id, is_Some (seq_record_map_ w !! id) -> id ∈ timer_queue_ w.

Lemma timed_appends w l o : timed w -> timed (appends w l o).
Proof. done. Qed.

Lemma timed_finish c w w' : timed w -> Server.onPingFinish env c w = Ok w' -> timed w'.
Proof.
  intros Hw [(_ & p & ->)|(_ & l & _ & _ & ->)]%finish_appends; by apply timed_appends.
Qed.

Lemma timed_notify id b w w' :
  (forall i, i <> id -> is_Some (seq_record_map_ w !! i) -> i ∈ timer_queue_ w) ->
  Server.notifyPingTarget env id b w = Ok w' -> timed w'.
Proof.
  intros Hw. unfold Server.notifyPingTarget. destruct (seq_record_map_ w !! id) as [c|] eqn:E.
  - apply timed_finish. intros i. srv_fields. rewrite lookup_delete_is_Some. intros [? ?]. by apply Hw.
  - intros [= <-] i [c Hc]. apply Hw; [congruence|eauto].
Qed.

Lemma timed_ping id c w w' : timed w -> Server.ping env id c w = Ok w' -> timed w'.
Proof.
  intros Hw. unfold Server.ping. destruct (negb _); [by apply timed_finish|]. destruct (_ <=? _); [by intros [= <-]|].
  intros [= <-] i. change (seq_record_map_ (w <| timer_queue_ := timer_queue_ w ++ [id] |>)) with (seq_record_map_ w).
  destruct (seq_record_map_ w !! id) eqn:E; srv_fields; rewrite elem_of_app.
  - left. by apply Hw.
  - rewrite lookup_insert_is_Some. intros [->|[_ ?]]; [right; by apply list_elem_of_singleton|left; by apply Hw].
Qed.

Lemma timed_reply id answer r w w' : timed w -> Server.unMarshResult env id answer r w = Ok w' -> timed w'.
Proof.
  intros Hw. unfold Server.unMarshResult. destruct answer as [[a s]|]; (destruct r.2; [|by intros [= <-]]);
    unfold Server.onRPCFinish; (destruct (_ || _); [by intros [p ->]%deny_appends|]);
    intros (t & _ & H)%bind_ok; (destruct (_ && _); [by eapply timed_ping|]);
    by apply subnet_appends in H as [p ->].
Qed.

Lemma timed_served w ps w' : timed w -> served w ps w' -> timed w'.
Proof.
  intros Hw. destruct 1 as [w' (r & rest & E & ->)%take_inv|i id answer w' (r & E & Hr)%reply_inv|id rest w' Ht Hn|p rest Ht].
  - done.
  - eapply timed_reply; [|exact Hr]. exact Hw.
  - eapply timed_notify; [|exact Hn]. intros j Hj Hm. srv_fields. specialize (Hw j Hm). rewrite Ht in Hw. by apply elem_of_cons in Hw as [|].
  - done.
Qed.

Lemma timed_step net w w' : timed w -> Server.step env net w (Some w') -> timed w'.
Proof.
  intros Hw [(? & ? & q & _ & H)|[[ps H]|[[i ->]|[id H]]]]%step_cases.
  - by destruct (grows_packet _ _ _ _ H) as (l & o & -> & _).
  - by eapply timed_served.
  - done.
  - eapply timed_notify; [|exact H]. intros j _. apply Hw.
Qed.

Lemma reachable_timed net w : Server.reachable env net w -> timed w.
Proof. induction 1 as [|w w' _ IH Hs]; [by intros i [? ?]|]. by eapply timed_step. Qed.

End Live.

(** ** Progress *)

(** Whether anything is left to do. *)
Lemma idle_or_not (w : Srv) : w = srv_init \/ w <> srv_init.
Proof.
  destruct w as [[|] [|] m [|] [|]]; try (right; discriminate).
  destruct (decide (m = ∅)) as [->|H]; [by left|]. right. by intros [= ->].
Qed.

Section Rest.
Variables (env : Env) (net : list Z -> Prop).
Hypothesis Henv : env_ok env.
Hypothesis Hnet : forall data, net data -> datagram_safe env data.

Lemma outcome_total w res :
  srv_inv env net w -> Server.step env net w (Server.outcome res) -> exists w', res = Ok w'.
Proof. intros Hw Hs. destruct (step_survives env net Henv _ _ Hnet Hw Hs) as [w' E]. exists w'. by apply outcome_ok. Qed.

(** In a state with work left, some thread can do some of it. *)
Lemma progress w : srv_inv env net w -> timed w -> w <> srv_init -> exists ps w', served env w ps w'.
Proof.
  intros Hw Ht Hne.
  destruct (out_queue_ w) as [|p rest] eqn:Eo; [|by eauto using served_sent].
  destruct (timer_queue_ w) as [|id rest] eqn:Et.
  2:{ destruct (outcome_total w _ Hw (Server.step_timer env net w id rest Et)) as [w' H]. by eauto using served_timer. }
  destruct (in_flight_ w) as [|r rest] eqn:Ef.
  2:{ assert (exists res, Server.RPC_reply env 0 0 None w = Some res) as [res Hr]
        by (unfold Server.RPC_reply; rewrite Ef; by eexists).
      destruct (outcome_total w _ Hw (Server.step_rpc_reply env net w _ _ _ _ Hr)) as [w' ->].
      by eauto using served_reply. }
  destruct (request_queue_ w) as [|r rest] eqn:Eq.
  2:{ assert (exists res, Server.messageWrite env w = Some res) as [res Hr]
        by (unfold Server.messageWrite; rewrite Eq, Ef, decide_True by (unfold DEFAULT_CONN_COUNT; cbn; lia); by eexists).
      destruct (outcome_total w _ Hw (Server.step_rpc_take env net w _ Hr)) as [w' ->].
      by eauto using served_take. }
  exfalso. apply Hne. destruct w as [q f m t o]. cbn in *. subst. unfold srv_init. f_equal.
  apply map_empty. intros id. destruct (m !! id) as [c|] eqn:E; [|done].
  specialize (Ht id). cbn in Ht. rewrite E in Ht. by destruct (elem_of_nil id) as [[] _]; apply Ht; eauto.
Qed.

Lemma quiet_step w w' : quiet env w w' -> Server.step env net w (Some w').
Proof.
  intros [[(? & ? & ? & [] & _)|[[ps H]|[[i ->]|[id H]]]]%step_cases _].
  - by eapply served_is_step.
  - apply Server.step_rpc_lost.
  - rewrite <- (eq_refl : Server.outcome (Ok w') = Some w'), <- H. apply Server.step_echo.
Qed.

Lemma quiet_reachable w w' : Server.reachable env net w -> rtc (quiet env) w w' -> Server.reachable env net w'.
Proof.
  intros Hw. induction 1 as [|w1 w2 w3 H _ IH]; [done|]. apply IH. eapply Server.reach_step; [done|]. by apply quiet_step.
Qed.

Lemma reachable_progress w :
  Server.reachable env net w -> w <> srv_init -> exists ps w', served env w ps w'.
Proof. intros Hw. apply progress; [by apply reachable_inv|by eapply reachable_timed]. Qed.

Lemma init_rests : nf (quiet env) srv_init.
Proof. intros [w H%quiet_work]. change (work srv_init) with 0%nat in H. lia. Qed.

Lemma rests_only_at_init w : Server.reachable env net w -> nf (quiet env) w <-> w = srv_init.
Proof.
  intros Hw. split; [|intros ->; apply init_rests]. intros Hn. destruct (idle_or_not w) as [|Hne]; [done|].
  destruct (reachable_progress w Hw Hne) as (ps & w' & H). destruct Hn. exists w'. by eapply served_quiet.
Qed.

Lemma serves_to_rest w : Server.reachable env net w -> exists ps, serves env w ps srv_init.
Proof.
  induction (quiet_sn env w) as [w _ IH]. intros Hw. destruct (idle_or_not w) as [->|Hne]; [eexists; apply serves_nil|].
  destruct (reachable_progress w Hw Hne) as (ps & w' & H). destruct (IH w') as [qs Hq].
  - by eapply served_quiet.
  - eapply Server.reach_step; [exact Hw|by eapply served_is_step].
  - eexists. by eapply serves_step.
Qed.

(** ** Every request is answered

    Without the ping check nothing is dropped on the way: what is sent answers
    the waiting requests, each once. *)
Definition calm (w : Srv) : Prop :=
  Forall fresh (request_queue_ w) /\ Forall fresh (in_flight_ w) /\ timer_queue_ w = [].

(** The transaction ids of the answers that are still to be sent. *)
Definition request_ids (l : list RPCRecord) : list Z :=
  (fun r => transid_ (query_ r.1)) <$> filter (fun r => r.2 = true) l.
Definition due (w : Srv) : list Z :=
  request_ids (request_queue_ w) ++ request_ids (in_flight_ w) ++ (transid_ <$> out_queue_ w).

Section NoPing.
Hypothesis Hping : ping_enabled env = false.

(** The answer of the master is passed on at once. *)
Lemma reply_answers id answer c w w' :
  waiting env net c -> fresh (c, true) -> Server.unMarshResult env id answer (c, true) w = Ok w' ->
  exists r, transid_ r = transid_ (query_ c) /\ w' = Server.blockingWrite r w.
Proof.
  intros [Hn Ht Hs _] Hf. destruct (from_net_wf env net Henv _ Hn) as [Hq Ha].
  destruct (wants_answers _ Ht) as (qt & rt & E & Hrt).
  assert (forall t yi w', answered (query_ c) t yi w (Ok w') ->
    exists r, transid_ r = transid_ (query_ c) /\ w' = Server.blockingWrite r w) as Hans.
  { intros t yi w1 (r & [] & ->). by exists r. }
  assert (forall a s w', v4_ok a ->
    Server.onRPCFinish env id (Ctx.setSharedSubnetID s (Ctx.setYourAddr a c)) w = Ok w' ->
    exists r, transid_ r = transid_ (query_ c) /\ w' = Server.blockingWrite r w) as H.
  { intros a s w1 Hv. set (c' := Ctx.setSharedSubnetID s (Ctx.setYourAddr a c)).
    pose proof (denyRequest_ok env Henv (query_ c) w qt rt Hq Ha E Hrt) as Hd.
    pose proof (allocateSubnet_ok env Henv c' w qt rt s Hq Ha E Hrt Hs Hv eq_refl) as Hl. cbv zeta in Hl.
    unfold Server.onRPCFinish. destruct (_ || _); [intros H1; change (query_ c') with (query_ c) in H1; rewrite H1 in Hd; by eapply Hans|].
    intros (t & _ & H1)%bind_ok. assert (Server.allocateSubnet env c' w = Ok w1) as H2.
    { clear Hl. revert H1. destruct (_ && _); [|done]. unfold Server.ping, Server.onPingFinish. rewrite Hping.
      cbn [negb]. change (is_request_addr_conflict_ c') with (is_request_addr_conflict_ (c, true).1). by rewrite Hf. }
    rewrite H2 in Hl. by eapply Hans. }
  unfold Server.unMarshResult. destruct answer as [[a s]|]; cbn [fst snd]; apply H; [apply of_uint32_v4|apply zero_v4].
Qed.

Lemma calm_grows w l o : calm w -> Forall fresh l -> calm (appends w l o).
Proof. intros (Hq & Hf & Ht) Hl. split_and!; [by apply Forall_app|done..]. Qed.

Lemma calm_reply id answer r w w' :
  queued env net r -> fresh r -> Server.unMarshResult env id answer r w = Ok w' ->
  exists o, w' = appends w [] o /\ transid_ <$> o = request_ids [r].
Proof.
  destruct r as [c b]. intros [_ Hr] Hf. destruct b.
  - intros (p & Hp & ->)%reply_answers; [|by apply Hr|done]. exists [p].
    split; [|by cbn; rewrite Hp]. unfold Server.blockingWrite, appends. destruct w. unfold set. cbn. by rewrite app_nil_r.
  - intros H. exists []. split; [|done]. rewrite <- appends_nil. unfold Server.unMarshResult in H.
    destruct answer as [[a s]|]; cbn in H; congruence.
Qed.

(** A step serves what is due. *)
Lemma served_due w ps w' :
  srv_inv env net w -> calm w -> served env w ps w' -> calm w' /\ due w ≡ₚ (transid_ <$> ps) ++ due w'.
Proof.
  intros [_ [Hfl _] _ _ _] (Hq & Hf & Ht).
  destruct 1 as [w' (r & rest & E & ->)%take_inv|i id answer w' (r & E & Hr)%reply_inv|id rest w' E Hn|p rest E].
  - rewrite E in Hq. apply Forall_cons_iff in Hq as [Hr Hq].
    split; [split_and!; [done|by apply Forall_snoc|done]|]. unfold due, request_ids. srv_fields. rewrite E.
    rewrite filter_app, fmap_app, filter_cons, filter_cons. destruct (decide _); cbn; solve_Permutation.
  - pose proof (Forall_lookup_1 _ _ _ _ Hf E) as Hfr. pose proof (Forall_lookup_1 _ _ _ _ Hfl E) as Hqr.
    destruct (calm_reply _ _ _ _ _ Hqr Hfr Hr) as (o & -> & Ho).
    split; [apply calm_grows; [split_and!; [done|by apply Forall_delete|done]|done]|].
    unfold due, appends, request_ids in *. srv_fields. rewrite app_nil_r, fmap_app, Ho.
    rewrite (delete_Permutation _ _ _ E) at 1. rewrite filter_cons, filter_cons. destruct (decide _); cbn; solve_Permutation.
  - congruence.
  - split; [done|]. unfold due. srv_fields. rewrite E. cbn. solve_Permutation.
Qed.

Lemma reachable_calm w : Server.reachable env net w -> calm w.
Proof.
  induction 1 as [|w w' Hw IH Hs]; [by split_and!|]. pose proof (reachable_timed _ _ _ Hw) as Hti.
  apply step_cases in Hs as [(? & ? & q & _ & H)|[[ps H]|[[i ->]|[id H]]]].
  - destruct (grows_packet _ _ _ _ _ H) as (l & o & -> & Hl). by apply calm_grows.
  - by eapply served_due; [apply reachable_inv|..].
  - destruct IH as (Hq & Hf & Ht). split_and!; [done|by apply Forall_delete|done].
  - unfold Server.notifyPingTarget in H. destruct (seq_record_map_ w !! id) as [c|] eqn:E; [|by simplify_eq].
    destruct IH as (_ & _ & Ht). specialize (Hti id). rewrite E, Ht in Hti.
    destruct (elem_of_nil id) as [[] _]. apply Hti. eauto.
Qed.

Lemma serves_due w ps w' :
  Server.reachable env net w -> serves env w ps w' -> due w ≡ₚ (transid_ <$> ps) ++ due w'.
Proof.
  intros Hw Hs. induction Hs as [|w1 ps w2 qs w3 H _ IH]; [done|].
  destruct (served_due w1 ps w2) as [_ ->]; [by apply reachable_inv|by apply reachable_calm|done|].
  rewrite fmap_app, <- app_assoc, <- IH; [done|]. eapply Server.reach_step; [exact Hw|by eapply served_is_step].
Qed.
End NoPing.
End Rest.
