(* ===== verification/Sample.v ===== *)
(** A small configuration and a few datagrams, on which the definitions are
    evaluated: one interface with one socket, one subnet, no ping check. *)
From stdpp Require Import base list numbers option strings gmap.
From Stdlib Require Import ZArith Lia.
From S2P Require Import Prelude Buffer HwAddr Address DnsName OptionDef Options OptionsFacts.
From S2P Require Import OptionsPack OptionsRoundTrip Pkt PktFacts Nic Subnet ResponseGen ResponseFacts.
From S2P Require Import QueryFacts ClientClass Server ServerFacts ServerMachine.

Module Sample.

(** 192.168.1.1 and the subnet 192.168.1.0/24 *)
Definition server_addr : Z := 0xC0A80101.
Definition prefix : Z := 0xC0A80100.

Definition sock : SocketInfo := MkSocketInfo (V4 server_addr) 67 7 (-1).
Definition eth0 : Iface :=
  MkIface [sock] "eth0" 2 [V4 server_addr] [] (replicate 20 0) 6 1 (If.IFF_UP + If.IFF_RUNNING) false.

Definition filter : PktFilter :=
  MkPktFilter true (fun _ a p _ _ => Ok (MkSocketInfo a p 8 (-1))).
Definition ifmgr : IfaceMgr := MkIfaceMgr [eth0] filter.

Definition lifetime : Triplet := MkTriplet 600 3600 7200 false.
Definition router : opt := Opt DHO_ROUTERS [] (BAddrLst [V4 server_addr]) [] DHCP4_OPTION_SPACE.
Definition pool : Pool := MkPool 0 (V4 (prefix + 10)) (V4 (prefix + 200)) 191.

Definition subnet : Subnet :=
  MkSubnet 1 [pool] (V4 prefix) 24 lifetime lifetime lifetime (V4 (prefix + 255)) "" (V4 0) ∅ ∅ HR_ALL (V4 0) true
    [(DHO_ROUTERS, router)].

Definition env (ping : bool) : Env :=
  MkEnv std_lib ifmgr (MkSubnetMgr [subnet]) (fun _ => true)
    (fun m => 64 + zlen (clientid m) + zlen (mac m) + Z.of_nat (String.length (hostname m)))
    Classes.empty (fun q r => exists skip, r = Ok (q, skip)) (fun _ r => r) ping.

(** Callouts that let every packet pass. *)
Definition pass (q : Pkt) : result (Pkt * bool) := Ok (q, false).
Lemma pass_may q : exists skip, pass q = Ok (q, skip).
Proof. by exists false. Qed.

Lemma env_is_ok ping : env_ok (env ping).
Proof.
  split.
  - exact std_lib_safe.
  - intros code. exact eq_refl.
  - done.
  - split; cbn; [apply NoDup_singleton|]. constructor; [|done]. exists prefix. by split_and!.
  - constructor; [|done]. split_and!; [by repeat constructor| |done|by exists 0|by split_and!].
    intros k o. cbn [mfind opt_data_ subnet]. destruct (_ =? k); [|done]. intros [= <-]. by eexists.
  - cbn. apply NoDup_singleton.
  - constructor; [|done]. split; (constructor; [|done]); by exists server_addr.
  - done.
  - done.
  - intros m. cbn. lia.
Qed.

(** A message with the given type, client identifier and further options. *)
Definition datagram (type : Z) (client_id : list Z) (more : list Z) : list Z :=
  [1; 1; 6; 0] ++ [0; 0; 0; 1] ++ [0; 0; 0; 0] ++ replicate 16 0 ++
  [0; 1; 2; 3; 4; 5] ++ replicate 10 0 ++ replicate 192 0 ++ [0x63; 0x82; 0x53; 0x63] ++
  [53; 1; type] ++ [61; zlen client_id] ++ client_id ++ more ++ [255].

End Sample.
