(* ===== verification/ServerProps.v ===== *)
(** The promises of the server: its threads and its handlers. *)
From stdpp Require Import base list numbers option strings gmap.
From Stdlib Require Import ZArith Lia.
From S2P Require Import Prelude Buffer HwAddr Address DnsName OptionDef Options OptionsFacts.
From S2P Require Import OptionsPack OptionsRoundTrip Pkt PktFacts Nic Subnet ResponseGen ResponseFacts.
From S2P Require Import QueryFacts Server ServerFacts ServerMachine Sample.

(** ** Witness runs *)
Module Runs.
Import Sample.

Definition discover : list Z := datagram DHCPDISCOVER (replicate 7 1) [].
Definition request : list Z := datagram DHCPREQUEST (replicate 7 1) [].

(** The packet of a datagram that arrives on the socket of "eth0". *)
Definition packet (data : list Z) : Pkt :=
  match Server.received eth0 sock data 0 68 (Some (2, 0xFFFFFFFF)) with Ok q => q | _ => P.blank 0 0 end.

Definition run (r : result Srv) : Srv := match r with Ok w => w | _ => srv_init end.

(** The state after the datagram is queued, and after a connection took it. *)
Definition queued_state (data : list Z) : Srv := run (Server.processPacket (env false) pass (packet data) srv_init).
Definition sent_state (data : list Z) : Srv :=
  match Server.messageWrite (env false) (queued_state data) with Some r => run r | None => srv_init end.

(** ... and after the master refused it. *)
Definition denied_state (data : list Z) : Srv :=
  match Server.RPC_reply (env false) 0 0 None (sent_state data) with Some r => run r | None => srv_init end.

(** The context of the request that is queued. *)
Definition ctx (data : list Z) : ClientContext :=
  match request_queue_ (queued_state data) with r :: _ => r.1 | [] => Ctx.make (P.blank 0 0) subnet end.

Lemma queued_ok data : is_ok (Server.received eth0 sock data 0 68 (Some (2, 0xFFFFFFFF))) = true ->
  zlen data < 2^16 -> bytes_ok data ->
  is_ok (Server.processPacket (env false) pass (packet data) srv_init) = true ->
  forall net : list Z -> Prop, net data -> Server.reachable (env false) net (queued_state data).
Proof.
  intros Hr Hl Hb Hp net Hnet. eapply Server.reach_step; [apply Server.reach_init|].
  assert (Server.processPacket (env false) pass (packet data) srv_init = Ok (queued_state data)) as E.
  { unfold queued_state, run. destruct (Server.processPacket _ _ _ _); done. }
  change (Some (queued_state data)) with (Server.outcome (Ok (queued_state data))). rewrite <- E.
  apply (Server.step_packet _ _ _ eth0 sock data 0 68 (Some (2, 0xFFFFFFFF))); [by left|by left|done|done|done| |exact pass_may].
  unfold packet. by destruct (Server.received _ _ data _ _ _).
Qed.

Lemma outcome_run (o : option (result Srv)) r :
  o = Some r -> is_ok r = true -> Server.outcome r = Some (match o with Some r => run r | None => srv_init end).
Proof. intros ->. by destruct r. Qed.

Lemma denied_ok data (net : list Z -> Prop) :
  Server.reachable (env false) net (queued_state data) ->
  match Server.messageWrite (env false) (queued_state data) with Some r => is_ok r | None => false end = true ->
  match Server.RPC_reply (env false) 0 0 None (sent_state data) with Some r => is_ok r | None => false end = true ->
  Server.reachable (env false) net (sent_state data) /\ Server.reachable (env false) net (denied_state data).
Proof.
  intros Hr H1 H2.
  destruct (Server.messageWrite (env false) (queued_state data)) as [r1|] eqn:E1; [|done].
  assert (Server.reachable (env false) net (sent_state data)) as Hs.
  { eapply Server.reach_step; [exact Hr|]. unfold sent_state. rewrite <- (outcome_run _ r1 E1 H1).
    by apply Server.step_rpc_take. }
  split; [done|]. destruct (Server.RPC_reply (env false) 0 0 None (sent_state data)) as [r2|] eqn:E2; [|done].
  eapply Server.reach_step; [exact Hs|]. unfold denied_state. rewrite <- (outcome_run _ r2 E2 H2).
  by eapply Server.step_rpc_reply.
Qed.
End Runs.

(** [datagram_echoes] by evaluation. *)
Definition echoes (lib : LibDHCP) (data : list Z) : bool :=
  match unpackOptions4 lib (drop 240 data) DHCP4_OPTION_SPACE [] with
  | Ok (_, os) => forallb (fun k => match mfind k os with
      | Some o => match Options.pack (Option_.clone o) with Ok bs => zlen bs <=? 255 | _ => false end
      | None => true end) [DHO_DHCP_CLIENT_IDENTIFIER; DHO_DHCP_AGENT_OPTIONS; DHO_SUBNET_SELECTION]
  | _ => true
  end.

Lemma echoes_ok env data : echoes (env_lib env) data = true -> datagram_echoes env data.
Proof.
  unfold echoes, datagram_echoes. intros H off os E. rewrite E in H. intros k o Hk Ho.
  rewrite forallb_forall in H. specialize (H k). rewrite Ho in H.
  assert (In k [DHO_DHCP_CLIENT_IDENTIFIER; DHO_DHCP_AGENT_OPTIONS; DHO_SUBNET_SELECTION]) as Hin.
  { unfold echoed in Hk. cbn [In]. lia. }
  specialize (H Hin). unfold packs. cbn [snd].
  destruct (Options.pack (Option_.clone o)) as [bs| | |]; [|done..]. exists bs. split; [done|lia].
Qed.

Lemma discover_echoes : datagram_echoes (Sample.env false) Runs.discover.
Proof. apply echoes_ok. vm_compute. reflexivity. Qed.
Lemma discover_safe : datagram_safe (Sample.env false) Runs.discover.
Proof. split; [apply discover_echoes|by apply no_classes_classify]. Qed.
Lemma request_echoes : datagram_echoes (Sample.env false) Runs.request.
Proof. apply echoes_ok. vm_compute. reflexivity. Qed.

(** The side conditions of [queued_ok] on a concrete datagram. *)
Ltac run_query :=
  apply Runs.queued_ok;
  [vm_compute; reflexivity|vm_compute; reflexivity|apply (bool_decide_eq_true_1 _); vm_compute; reflexivity
  |vm_compute; reflexivity|reflexivity].

Lemma discover_queued : Server.reachable (Sample.env false) (eq Runs.discover) (Runs.queued_state Runs.discover).
Proof. run_query. Qed.
Lemma request_queued : Server.reachable (Sample.env false) (eq Runs.request) (Runs.queued_state Runs.request).
Proof. run_query. Qed.

Lemma ctx_waiting data :
  Server.reachable (Sample.env false) (eq data) (Runs.queued_state data) ->
  match request_queue_ (Runs.queued_state data) with r :: _ => r.2 | [] => false end = true ->
  waiting (Sample.env false) (eq data) (Runs.ctx data).
Proof.
  intros [Hq _ _ _ _]%reachable_inv Hr; [|apply Sample.env_is_ok]. unfold Runs.ctx.
  destruct (request_queue_ (Runs.queued_state data)) as [|r l]; [done|].
  apply Forall_cons_iff in Hq as [[_ Hw] _]. by apply Hw.
Qed.

Lemma request_waiting : waiting (Sample.env false) (eq Runs.request) (Runs.ctx Runs.request).
Proof. apply ctx_waiting; [apply request_queued|vm_compute; reflexivity]. Qed.
Lemma discover_waiting : waiting (Sample.env false) (eq Runs.discover) (Runs.ctx Runs.discover).
Proof. apply ctx_waiting; [apply discover_queued|vm_compute; reflexivity]. Qed.

Lemma request_echo : echo_ok (query_ (Runs.ctx Runs.request)).
Proof.
  eapply from_net_options; [apply (Sample.env_is_ok false)| |apply (wt_net _ _ _ request_waiting)].
  intros data <-. apply request_echoes.
Qed.

(** ** The threads *)

(** C1: No thread terminates the process.  In every reachable state, whatever
    step comes next (a packet from the network, a request taken by a
    connection, an answer of the master, an echo reply, a timer), no exception
    leaves the thread and no assertion fails: provided the configuration is
    valid and, for the datagrams the network delivers, the options the server
    copies into its answers fit an option again and no client class throws. *)
Theorem server_survives env net w :
  env_ok env -> (forall data, net data -> datagram_safe env data) ->
  Server.reachable env net w -> ~ Server.step env net w None.
Proof.
  intros Henv Hnet Hw Hs. apply reachable_inv in Hw; [|done].
  by destruct (step_survives env net Henv w None Hnet Hw Hs).
Qed.

Lemma server_survives_witness : ~ Server.step (Sample.env false) (eq Runs.discover) (Runs.queued_state Runs.discover) None.
Proof.
  apply server_survives; [apply Sample.env_is_ok| |apply discover_queued].
  intros data <-. apply discover_safe.
Defined.


(** C5: Every packet the server sends answers a query it received: a BOOTREPLY
    with the transaction id, hardware address, relay address and interface of
    the query, which is a NAK without an address, an OFFER to a DISCOVER or an
    ACK to a REQUEST or INFORM. *)
Theorem sent_packets_answer_queries env net w r :
  env_ok env -> Server.reachable env net w -> r ∈ out_queue_ w ->
  exists q t yi, from_net env net q /\ reply_to q t yi r.
Proof.
  intros Henv Hw Hr. apply reachable_inv in Hw as [_ _ _ _ Ho]; [|done].
  rewrite Forall_forall in Ho. by apply Ho.
Qed.

Lemma sent_packets_answer_queries_witness :
  exists r, out_queue_ (Runs.denied_state Runs.discover) = [r] /\
    exists q t yi, from_net (Sample.env false) (eq Runs.discover) q /\ reply_to q t yi r.
Proof.
  destruct (Runs.denied_ok Runs.discover (eq Runs.discover) discover_queued) as [_ Hr];
    [vm_compute; reflexivity|vm_compute; reflexivity|].
  assert (length (out_queue_ (Runs.denied_state Runs.discover)) = 1%nat) as Hl by (vm_compute; reflexivity).
  destruct (out_queue_ (Runs.denied_state Runs.discover)) as [|r [|? ?]] eqn:E; [discriminate Hl| |discriminate Hl].
  exists r. split; [reflexivity|].
  apply (sent_packets_answer_queries _ _ _ r (Sample.env_is_ok false) Hr). rewrite E. by left.
Defined.

(** C6: The work the server holds is bounded: an address is asked for at most
    six times (the first request and five retries after conflicts), at most one
    request per connection is in flight, and the timer queue stays within its
    size. *)
Theorem retries_bounded env net w :
  env_ok env -> Server.reachable env net w ->
  (forall c, (c, true) ∈ request_queue_ w ++ in_flight_ w -> 0 <= retry_count_ c <= MAX_RETRY_COUNT) /\
  (forall id c, seq_record_map_ w !! id = Some c -> 0 <= retry_count_ c <= MAX_RETRY_COUNT) /\
  (length (in_flight_ w) <= DEFAULT_CONN_COUNT)%nat /\ zlen (timer_queue_ w) <= PING_QUEUE_MAX_SIZE.
Proof.
  intros Henv Hw. apply reachable_inv in Hw as [Hq [Hf Hn] Hp Ht _]; [|done]. split_and!; [| |done|done].
  - pose proof (Forall_app_2 _ _ _ Hq Hf) as H. rewrite Forall_forall in H. intros c Hc. by apply (H _ Hc).
  - intros id c Hc. by apply (Hp _ _ Hc).
Qed.

Lemma retries_bounded_witness :
  0 <= retry_count_ (Runs.ctx Runs.discover) <= MAX_RETRY_COUNT /\
  (length (in_flight_ (Runs.queued_state Runs.discover)) <= DEFAULT_CONN_COUNT)%nat.
Proof.
  destruct (retries_bounded _ _ _ (Sample.env_is_ok false) discover_queued) as (Hq & _ & Hf & _).
  split; [|exact Hf]. apply Hq. apply elem_of_app. left.
  assert (snd <$> request_queue_ (Runs.queued_state Runs.discover) = [true]) as Hl by (vm_compute; reflexivity).
  unfold Runs.ctx. destruct (request_queue_ _) as [|[c b] [|]]; [discriminate Hl| |discriminate Hl].
  injection Hl as ->. by left.
Defined.

(** ** The handlers *)



(** A refused request is denied: when the master reports failure, exactly one
    packet is queued, a NAK without an address. *)
Theorem refusal_is_denied env net c id w :
  env_ok env -> waiting env net c -> echo_ok (query_ c) ->
  exists r, Server.unMarshResult env id None (c, true) w = Ok (Server.blockingWrite r w) /\
    reply_to (query_ c) DHCPNAK (V4 0) r.
Proof.
  intros Henv [Hn Ht _ _] He. destruct (from_net_wf env net Henv _ Hn) as [Hq Har].
  destruct (wants_answers _ Ht) as (qt & rt & Hqt & Hrt).
  pose proof (denyRequest_ok env Henv (query_ c) w qt rt Hq Har Hqt Hrt) as H. unfold answered in H.
  change (Server.unMarshResult env id None (c, true) w) with (Server.denyRequest env (query_ c) w).
  destruct (Server.denyRequest env (query_ c) w); [|done..]. destruct H as (r & Hr & ->). by exists r.
Qed.

Lemma refusal_is_denied_witness : exists r,
  Server.unMarshResult (Sample.env false) 0 None (Runs.ctx Runs.request, true) srv_init
  = Ok (Server.blockingWrite r srv_init) /\
  reply_to (query_ (Runs.ctx Runs.request)) DHCPNAK (V4 0) r.
Proof. apply (refusal_is_denied _ _ _ 0 srv_init (Sample.env_is_ok false) request_waiting request_echo). Defined.

(** An offer waits for the conflict check: with the check enabled, the
    master's answer to a DISCOVER sends nothing; the context is filed under the
    echo request's id with the address to offer, and a timer is started. *)
Theorem offer_waits_for_ping env net c id addr subnet_id w :
  ping_enabled env = true -> waiting env net c -> P.getType (query_ c) = Ok DHCPDISCOVER ->
  IOAddr.isV4Bcast (IOAddr.fromLong addr) || IOAddr.isV4Zero (IOAddr.fromLong addr) = false ->
  IOAddr.equals (ciaddr_ (query_ c)) (IOAddr.fromLong addr) = false ->
  zlen (timer_queue_ w) < PING_QUEUE_MAX_SIZE -> seq_record_map_ w !! id = None ->
  exists w', Server.unMarshResult env id (Some (addr, subnet_id)) (c, true) w = Ok w' /\
    out_queue_ w' = out_queue_ w /\ request_queue_ w' = request_queue_ w /\
    timer_queue_ w' = timer_queue_ w ++ [id] /\
    exists c', seq_record_map_ w' = <[id := c']> (seq_record_map_ w) /\
      query_ c' = query_ c /\ cc_subnet_ c' = cc_subnet_ c /\ retry_count_ c' = retry_count_ c /\
      your_addr_ c' = IOAddr.fromLong addr /\ shared_subnet_id_ c' = Some (u32 subnet_id).
Proof.
  intros Hping _ Ht Ha Hci Htm Hid. unfold Server.unMarshResult, Server.onRPCFinish. cbn [snd fst].
  set (c' := Ctx.setSharedSubnetID _ _). change (your_addr_ c') with (IOAddr.fromLong addr). rewrite Ha.
  unfold Ctx.getQueryType. change (query_ c') with (query_ c). rewrite Ht, bind_Ok, Hci. cbn [Z.eqb andb negb].
  unfold Server.ping. rewrite Hping, (proj2 (Z.leb_gt _ _)) by done. cbn [negb]. cbv zeta.
  change (seq_record_map_ (w <| timer_queue_ := timer_queue_ w ++ [id] |>)) with (seq_record_map_ w). rewrite Hid.
  eexists. split; [reflexivity|]. split_and!; try reflexivity. exists c'. split_and!; reflexivity.
Qed.

Lemma offer_waits_for_ping_witness : exists w',
  Server.unMarshResult (Sample.env true) 9 (Some (0x0A01A8C0, 1)) (Runs.ctx Runs.discover, true) srv_init = Ok w' /\
  out_queue_ w' = [].
Proof.
  destruct (offer_waits_for_ping (Sample.env true) (eq Runs.discover) (Runs.ctx Runs.discover) 9 0x0A01A8C0 1 srv_init)
    as (w' & H & Ho & _); [reflexivity| |vm_compute; reflexivity..|].
  - destruct discover_waiting as [(i & so & d & H) Ht Hs Hr]. split; [by exists i, so, d|done..].
  - exists w'. split; [exact H|exact Ho].
Defined.







(** A socket is bound to the address, or to the wildcard address of an
    interface that has it. *)
Definition listens (m : IfaceMgr) (a : IOAddress) : Prop :=
  exists i s, i ∈ ifaces_ m /\ s ∈ if_sockets_ i /\ (so_addr_ s = a \/ so_addr_ s = V4 0 /\ a ∈ if_addrs_ i).

Lemma hasOpenSocket_listens a m : Mgr.hasOpenSocket_addr a m = true <-> listens m a.
Proof.
  unfold Mgr.hasOpenSocket_addr, listens, IOAddr.isV4Zero, IOAddr.equals, IOAddr.IPV4_ZERO_ADDRESS, IOAddr.of_uint32.
  rewrite existsb_exists. split.
  - intros (i & Hi & (s & Hs & H)%existsb_exists). exists i, s.
    split; [by apply list_elem_of_In|]. split; [by apply list_elem_of_In|].
    case_bool_decide as E; [by left|]. apply andb_true_iff in H as [H1%bool_decide_eq_true (x & Hx & H2)%existsb_exists].
    apply bool_decide_eq_true in H2 as ->. right. split; [done|]. by apply list_elem_of_In.
  - intros (i & s & Hi%list_elem_of_In & Hs%list_elem_of_In & H). exists i. split; [done|]. apply existsb_exists.
    exists s. split; [done|]. case_bool_decide; [done|]. destruct H as [?|[H1 H2]]; [done|].
    rewrite H1. cbn. apply existsb_exists. exists a. split; [by apply list_elem_of_In|]. by apply bool_decide_eq_true.
Qed.

Lemma acceptServerId_exact env q :
  wf_query q -> exists b, Server.acceptServerId env q = Ok b /\
    (b = true <-> forall o, P.getOption DHO_DHCP_SERVER_IDENTIFIER q = Some o ->
       exists bufs a, as_custom o = Some bufs /\ readAddress bufs 0 = Ok a /\ listens (env_ifmgr env) a).
Proof.
  intros Hq. unfold Server.acceptServerId.
  destruct (P.getOption DHO_DHCP_SERVER_IDENTIFIER q) as [o|] eqn:E; [|by exists true].
  destruct (as_custom o) as [bufs|] eqn:Ea.
  - destruct (wq_address q DHO_DHCP_SERVER_IDENTIFIER o bufs Hq eq_refl E Ea) as (-> & v & Hr & _).
    rewrite Hr, bind_Ok. cbn [negb Z.eqb IOAddr.isV4]. eexists. split; [reflexivity|].
    rewrite hasOpenSocket_listens. split.
    + intros H ? [= <-]. by exists bufs, (V4 v).
    + intros H. destruct (H o eq_refl) as (bufs' & a & Ea' & Hr' & Hl). rewrite Ea in Ea'. simplify_eq. congruence.
  - exists false. split; [done|]. split; [done|]. intros H. destruct (H o eq_refl) as (? & ? & ? & _). congruence.
Qed.

(** C9: Which queries are processed: those of the five client message types
    that, unless relayed, give an address to answer an INFORM to, and that are
    addressed to this server when they name one. *)
Theorem accept_exact env q t :
  wf_query q -> P.getType q = Ok t ->
  exists b, Server.accept env q = Ok b /\
    (b = true <->
       t ∈ [DHCPDISCOVER; DHCPREQUEST; DHCPRELEASE; DHCPDECLINE; DHCPINFORM] /\
       (P.isRelayed q = true \/ t <> DHCPINFORM \/ remote_addr_ q <> V4 0 \/ ciaddr_ q <> V4 0) /\
       forall o, P.getOption DHO_DHCP_SERVER_IDENTIFIER q = Some o ->
         exists bufs a, as_custom o = Some bufs /\ readAddress bufs 0 = Ok a /\ listens (env_ifmgr env) a).
Proof.
  intros Hq Ht. unfold Server.accept, Server.acceptMessageType. rewrite Ht, !bind_Ok.
  destruct ((t =? DHCPDISCOVER) || _ || _ || _ || _) eqn:Et; cbn [negb].
  2:{ exists false. split; [done|]. split; [done|]. intros [H _]. exfalso.
      rewrite !elem_of_cons in H. repeat (destruct H as [->|H]; [done|]). by apply elem_of_nil in H. }
  assert (t ∈ [DHCPDISCOVER; DHCPREQUEST; DHCPRELEASE; DHCPDECLINE; DHCPINFORM]) as Hin.
  { rewrite !elem_of_cons. repeat rewrite orb_true_iff in Et. rewrite !Z.eqb_eq in Et. tauto. }
  assert (exists b, Server.acceptDirectRequest q = Ok b /\
    (b = true <-> P.isRelayed q = true \/ t <> DHCPINFORM \/ remote_addr_ q <> V4 0 \/ ciaddr_ q <> V4 0)) as (b & -> & Hb).
  { unfold Server.acceptDirectRequest, IOAddr.isV4Zero, IOAddr.equals, IOAddr.IPV4_ZERO_ADDRESS, IOAddr.of_uint32.
    destruct (P.isRelayed q); [exists true; tauto|]. rewrite Ht, bind_Ok. eexists. split; [reflexivity|].
    rewrite negb_true_iff, !andb_false_iff, Z.eqb_neq, !bool_decide_eq_false. change (u32 0) with 0.
    split; [tauto|]. intros [?|?]; [done|tauto]. }
  rewrite bind_Ok. destruct b; cbn [negb].
  - destruct (acceptServerId_exact env q Hq) as (c & -> & Hc). rewrite bind_Ok. exists c. split; [done|]. tauto.
  - exists false. split; [done|]. split; [done|]. intros (_ & H & _). by apply Hb in H.
Qed.

Lemma accept_exact_witness : Server.accept (Sample.env false) (query_ (Runs.ctx Runs.discover)) = Ok true.
Proof.
  destruct (accept_exact (Sample.env false) (query_ (Runs.ctx Runs.discover)) DHCPDISCOVER) as (b & H & Hb).
  - apply (from_net_wf _ _ (Sample.env_is_ok false) _ (wt_net _ _ _ discover_waiting)).
  - vm_compute. reflexivity.
  - rewrite H. f_equal. apply Hb. split; [by left|]. split; [right; by left|].
    assert (P.getOption DHO_DHCP_SERVER_IDENTIFIER (query_ (Runs.ctx Runs.discover)) = None) as -> by (vm_compute; reflexivity).
    discriminate.
Defined.

(** C12: A DISCOVER or REQUEST that passes the sanity check goes to the master for the first
    subnet that meets the criterion RFC 3011, RFC 3527 and RFC 2131 prescribe
    for it and admits its classes; without such a subnet it is denied. *)
Theorem request_goes_to_its_subnet env q t w :
  env_ok env -> wf_query q -> arrived env q -> P.getType q = Ok t ->
  (t = DHCPDISCOVER -> Server.sanityCheck q FORBIDDEN = Ok tt) ->
  exists os P, Server.option_select q = Ok os /\
    let sel := MkSelector (ciaddr_ q) (giaddr_ q) os (local_addr_ q) (remote_addr_ q) (classes_ q) (iface_ q) in
    basis (env_ifmgr env) sel (env_subnets env) P /\
    Server.processRequest env q w
    = match first_match sel (env_subnets env) P with
      | Some s => Ok (w <| request_queue_ := request_queue_ w ++ [(Ctx.make q s, true)] |>)
      | None => Server.denyRequest env q w
      end.
Proof.
  intros Henv Hq Ha Ht Hs. destruct (wq_option_select q Hq) as (v & Hv & Hok). exists (V4 v).
  destruct (selectSubnet_spec (env_ifmgr env)
    (MkSelector (ciaddr_ q) (giaddr_ q) (V4 v) (local_addr_ q) (remote_addr_ q) (classes_ q) (iface_ q))
    (env_subnets env) (eo_mgr _ Henv)) as (P & HP & E); [by apply selector_arrived|].
  exists P. split; [done|]. split; [done|]. unfold Server.processRequest. rewrite Ht, bind_Ok.
  assert ((if t =? DHCPDISCOVER then Server.sanityCheck q FORBIDDEN else Ok tt) = Ok tt) as ->
    by (destruct (Z.eqb_spec t DHCPDISCOVER); auto).
  rewrite bind_Ok. unfold Server.selectSubnet. rewrite Hv, bind_Ok, E, bind_Ok.
  by destruct (first_match _ _ P).
Qed.

Lemma request_goes_to_its_subnet_witness :
  exists os P, Server.option_select (query_ (Runs.ctx Runs.discover)) = Ok os /\
    Server.processRequest (Sample.env false) (query_ (Runs.ctx Runs.discover)) srv_init
    = match first_match (MkSelector (ciaddr_ (query_ (Runs.ctx Runs.discover))) (giaddr_ (query_ (Runs.ctx Runs.discover))) os
        (local_addr_ (query_ (Runs.ctx Runs.discover))) (remote_addr_ (query_ (Runs.ctx Runs.discover)))
        (classes_ (query_ (Runs.ctx Runs.discover))) (iface_ (query_ (Runs.ctx Runs.discover))))
        (env_subnets (Sample.env false)) P with
      | Some s => Ok (srv_init <| request_queue_ := [] ++ [(Ctx.make (query_ (Runs.ctx Runs.discover)) s, true)] |>)
      | None => Server.denyRequest (Sample.env false) (query_ (Runs.ctx Runs.discover)) srv_init
      end.
Proof.
  destruct (from_net_wf _ _ (Sample.env_is_ok false) _ (wt_net _ _ _ discover_waiting)) as [Hq Ha].
  destruct (request_goes_to_its_subnet (Sample.env false) (query_ (Runs.ctx Runs.discover)) DHCPDISCOVER srv_init
    (Sample.env_is_ok false) Hq Ha) as (os & P & Hos & _ & H); [vm_compute; reflexivity|intros _; vm_compute; reflexivity|].
  exists os, P. split; [exact Hos|exact H].
Defined.
