(* ===== verification/RpcProps.v ===== *)
(** The promises of the RPC client: what the master reads of a request, what
    the server makes of an answer, and that a connection only takes steps of
    the server. *)
From stdpp Require Import base list numbers option strings gmap.
From Stdlib Require Import ZArith Lia.
From S2P Require Import Prelude Buffer HwAddr Encode Text Json Address DnsName OptionDef Options OptionsFacts Pkt.
From S2P Require Import Nic Subnet ResponseGen ClientClass Config Statistics CmdServer CmdFacts Server Rpc RpcFacts ServerFacts Sample ServerProps.

(** The environment with the size of the encoded message. *)
Definition sized `{CodedStream} (env : Env) : Env :=
  MkEnv (env_lib env) (env_ifmgr env) (env_subnets env) (env_alloc env) context_ByteSize (env_classes env)
    (receive_may env) (pkt4_send env) (ping_enabled env).

Lemma sized_ok `{CodedStreamLaws} env : env_ok env -> env_ok (sized env).
Proof. intros []. split; try done. intros m. apply context_size_bound. Qed.

(** What [marshRequset] gives has no host name and fits the buffer. *)
Lemma marshalled `{CodedStreamLaws} env ctx msg : Server.marshRequset (sized env) ctx = Ok msg ->
  hostname msg = ""%string /\ zlen (clientid msg) < 1024 /\ zlen (mac msg) < 1024.
Proof.
  unfold Server.marshRequset. intros (t & _ & (a & _ & (ad & _ & (u & Ha & [= <-])%bind_ok)%bind_ok)%bind_ok)%bind_ok. cbn [hostname clientid mac].
  split; [done|]. unfold assert_ in Ha. cbn [ByteSize sized] in Ha. unfold Server.MAX_RESULT_BODY_LEN in Ha.
  match type of Ha with context [?x <? 1024] => destruct (Z.ltb_spec x 1024) as [Hx|]; [|discriminate Ha] end.
  assert (forall b, zlen b <= size_bytes b) as Hz.
  { intros b. unfold size_bytes. case_bool_decide as E; [by subst|]. pose proof (size_varint _ (u32_range (zlen b))). lia. }
  unfold context_ByteSize in Hx. cbn [requesttype subnetid clientid mac requestaddr hostname] in Hx.
  match type of Hx with context [type_number ?t] => pose proof (type_range t) as Ht; pose proof (size_uint32_bound (type_number t) ltac:(lia)) end.
  pose proof (size_uint32_bound _ (u32_range (Ctx.getSubnetID ctx))). pose proof (size_uint32_bound _ (u32_range ad)).
  pose proof (Hz (Ctx.getClientID ctx)). pose proof (Hz (Ctx.getHWAddr ctx)). pose proof (Hz (bytes_of "")).
  pose proof (zlen_nonneg (Ctx.getClientID ctx)). pose proof (zlen_nonneg (Ctx.getHWAddr ctx)). pose proof (zlen_nonneg (bytes_of "")). lia.
Qed.

Lemma frame_length `{CodedStreamLaws} msg : zlen (frame (context_serialize msg)) = context_ByteSize msg + 2.
Proof. rewrite <- context_size. unfold frame, zlen. rewrite length_app. cbn [length]. lia. Qed.

(** The answer to a client with an Ethernet address is shorter than the frame
    of its request, if the subnet ids are small. *)
Lemma short_answer `{CodedStreamLaws} msg l : 6 <= zlen (mac msg) -> 0 < u32 (subnetid msg) -> u32 (lease_subnetid l) < 2^14 ->
  zlen (lease_serialize l) < context_ByteSize msg + 2.
Proof.
  intros Hmac Hsub Hl. rewrite lease_size. unfold lease_ByteSize, context_ByteSize.
  pose proof (size_uint32_bound _ (u32_range (addr l))). pose proof (size_uint32_bound _ (u32_range (requestaddr msg))).
  pose proof (type_range (requesttype msg)) as Ht. pose proof (size_uint32_bound (type_number (requesttype msg)) ltac:(lia)).
  pose proof (size_bytes_bound (clientid msg)). pose proof (size_bytes_bound (bytes_of (hostname msg))).
  assert (2 <= size_uint32 (u32 (subnetid msg))) as Hs.
  { unfold size_uint32. destruct (Z.eqb_spec (u32 (subnetid msg)) 0); [lia|]. pose proof (size_varint _ (u32_range (subnetid msg))). lia. }
  assert (8 <= size_bytes (mac msg)) as Hm.
  { unfold size_bytes. case_bool_decide as E; [rewrite E, zlen_nil in Hmac; lia|]. pose proof (size_varint _ (u32_range (zlen (mac msg)))). lia. }
  assert (size_uint32 (u32 (lease_subnetid l)) <= 3) as Hi.
  { unfold size_uint32. destruct (Z.eqb_spec (u32 (lease_subnetid l)) 0); [lia|]. pose proof (u32_range (lease_subnetid l)).
    pose proof (varint_bound (u32 (lease_subnetid l)) 2 ltac:(lia) ltac:(lia)). lia. }
  destruct (succeed l); lia.
Qed.

(** C10: An exchange with the master.  A connection sends the request in a
    frame with its length, and the generated parser reads from it the fields
    of the context.  When the master answers with the encoding of a lease
    that is shorter than the frame of the request, the server continues with
    exactly this address and subnet, or with the refusal, and the connection
    goes on to the next request; for clients with an Ethernet address and
    subnet ids below 2^14 every answer is that short.  An answer that holds
    default values only, as a plain refusal does, is empty: it is not
    accepted, and the request is dropped without an answer to the client. *)
Theorem rpc_exchange_exact `{CodedStreamLaws} env r c msg :
  zlen (result_body_ c) = 1024 -> conn_stop_ c = false -> Server.marshRequset (sized env) r.1 = Ok msg ->
  exists c1, Conn.messageWrite (sized env) (Some r) c = Ok (frame (context_serialize msg), c1) /\
    context_run (context_serialize msg) context_default = Ok (true, fields_of msg) /\
    forall l pack_id w, let e := lease_serialize l in
      (e = [] -> exists c2, Conn.run (sized env) [Conn.Sent; Conn.Header 0 0] c1 w = Ok (c2, w) /\ rpc_waits c2 = Idle) /\
      (0 < zlen e < zlen (frame (context_serialize msg)) -> exists c2,
         Conn.run (sized env) [Conn.Sent; Conn.Header (zlen e / 256) (zlen e mod 256); Conn.Body pack_id e] c1 w =
         (w' ← Server.unMarshResult (sized env) pack_id (Conn.answer_of (decoded l)) r w; Ok (c2, w')) /\
         rpc_waits c2 = Idle /\ zlen (result_body_ c2) = 1024) /\
      (6 <= zlen (mac msg) -> 0 < u32 (subnetid msg) -> u32 (lease_subnetid l) < 2^14 -> zlen e < zlen (frame (context_serialize msg))).
Proof.
  intros Hb Hst Hm. destruct c as [ln body stp rq wt]. cbn [result_body_ conn_stop_] in Hb, Hst. subst stp.
  destruct (messageWrite_spec (sized env) (fun _ => eq_refl) r ln body false rq wt msg Hb Hm) as [E Hsz].
  destruct (marshalled env r.1 msg Hm) as (Hh & Hc & Hmac).
  exists (waiting_for ln body false r msg). split; [exact E|]. split; [apply context_round_trip; [lia|lia|done]|].
  intros l pack_id w e. rewrite frame_length. split_and!.
  - intros _. eexists. split; [by apply exchange_empty|done].
  - intros He. destruct (exchange (sized env) ln body false r msg l pack_id w Hb Hsz He) as (body' & Hb' & Er). eexists. split; [exact Er|by split].
  - intros H1 H2 H3. by apply short_answer.
Qed.

(** A request of an Ethernet client on a connection that holds other bytes. *)
Module Exchange.
Export Base128.
Definition env : Env := Sample.env false.
Definition request : RPCRecord := (Runs.ctx Runs.request, true).
Definition conn : RpcConn := MkRpcConn [0; 0] (replicate 1024 7) false None Idle.
Definition msg : ContextMsg := match Server.marshRequset (sized env) request.1 with Ok m => m | _ => MkContextMsg None 0 [] [] "" 0 end.
Definition lease : LeaseResult := MkLease true 0x0A01A8C0 1.
Definition completions : list Conn.rpc_completion :=
  [Conn.Sent; Conn.Header 0 (zlen (lease_serialize lease)); Conn.Body 0 (lease_serialize lease)].
Definition queued : Srv := srv_init <| request_queue_ := [request] |>.
End Exchange.
Import Exchange.

Lemma rpc_exchange_exact_witness : exists c1 c2 w, Conn.messageWrite (sized env) (Some request) conn = Ok (frame (context_serialize msg), c1) /\
  Conn.run (sized env) completions c1 srv_init = Ok (c2, w) /\ rpc_waits c2 = Idle /\ length (out_queue_ w) = 1%nat.
Proof.
  destruct (rpc_exchange_exact env request conn msg) as (c1 & E1 & _ & Hx); [vm_compute; reflexivity|reflexivity|vm_compute; reflexivity|].
  destruct (Hx lease 0 srv_init) as (_ & Hy & _). destruct Hy as (c2 & E2 & Hi & _); [split; vm_compute; reflexivity|].
  assert (length ∘ out_queue_ <$> Server.unMarshResult (sized env) 0 (Conn.answer_of (decoded lease)) request srv_init = Ok 1%nat) as Ho by (vm_compute; reflexivity).
  destruct (Server.unMarshResult (sized env) 0 (Conn.answer_of (decoded lease)) request srv_init) as [w| | |]; [|discriminate Ho..].
  injection Ho as Ho. exists c1, c2, w. split; [exact E1|]. split; [exact E2|]. split; [exact Hi|exact Ho].
Defined.

(** On a new connection the answer to a short request can run over the end of
    the buffer, whose bytes are whatever the allocation held. *)
Example long_answer_overruns :
  let e := lease_serialize (MkLease true 0xFFFFFFFF 0xFFFFFFFF) in
  Conn.answered (sized env) 0 e (MkRpcConn [0; zlen e] (replicate 12 0 ++ replicate 1012 7) false (Some request) (ResultBody (zlen e))) srv_init = Crash.
Proof. vm_compute. reflexivity. Qed.

(** C11: A connection refines the step of the server.  Taking a request is
    the step in which the server hands it to the master; and whatever
    operation of a waiting connection completes, with any bytes the master
    sends or an error, it still waits for the same request, or the server
    takes the step in which the request is answered or lost.  The one
    exception is an answer with no NUL behind it in the whole buffer, which is
    read over its end. *)
Theorem rpc_refines_server `{CodedStreamLaws} env net c w :
  conn_ok c ->
  (forall r rest, request_queue_ w = r :: rest -> (length (in_flight_ w) < DEFAULT_CONN_COUNT)%nat ->
     match Conn.messageWrite (sized env) (Some r) c with
     | Ok (_, c') => conn_ok c' /\ holding c' = true /\ rpc_request_ c' = Some r /\
         Server.step (sized env) net w (Some (w <| request_queue_ := rest |> <| in_flight_ := in_flight_ w ++ [r] |>))
     | _ => Server.step (sized env) net w None
     end) /\
  (forall e i r, holding c = true -> rpc_request_ c = Some r -> in_flight_ w !! i = Some r ->
     match Conn.complete (sized env) e c (without i w) with
     | Ok (c', w') => conn_ok c' /\
         if holding c' then rpc_request_ c' = Some r /\ w' = without i w else Server.step (sized env) net w (Some w')
     | _ => overruns e c \/ Server.step (sized env) net w None
     end).
Proof.
  intros Hc. split.
  - intros r rest Hq Hl. by apply take_is_step.
  - intros e i r Hh Hr Hi. by apply completion_is_step.
Qed.

Lemma rpc_refines_server_witness : exists c,
  Conn.messageWrite (sized env) (Some request) conn = Ok (frame (context_serialize msg), c) /\ conn_ok c /\
  Server.step (sized env) (fun _ => True) queued (Some (srv_init <| in_flight_ := [request] |>)).
Proof.
  destruct (rpc_refines_server env (fun _ => True) conn queued) as [Ht _]; [split; [vm_compute; reflexivity|exact I]|].
  specialize (Ht request [] eq_refl ltac:(apply Nat.lt_0_succ)).
  assert (fst <$> Conn.messageWrite (sized env) (Some request) conn = Ok (frame (context_serialize msg))) as E by (vm_compute; reflexivity).
  destruct (Conn.messageWrite (sized env) (Some request) conn) as [[f c]| | |]; [|discriminate E..]. injection E as ->.
  destruct Ht as (Hc & _ & _ & Hs). exists c. split; [reflexivity|]. split; [exact Hc|exact Hs].
Defined.
