(* ===== verification/IfaceProps.v ===== *)
(** The promises of the network side: interfaces are detected, sockets opened,
    packets received and answers sent. *)
From stdpp Require Import base list numbers option strings gmap.
From Stdlib Require Import ZArith Lia.
From S2P Require Import Prelude Buffer HwAddr Encode Text Json Address DnsName OptionDef Options OptionsFacts Pkt PktFacts.
From S2P Require Import Nic Netlink NetlinkFacts Subnet ResponseGen ResponseFacts QueryFacts OptionText PktText ClientClass Server.
From S2P Require Import Sockets SocketFacts ServerFacts ServerMachine Sample ServerProps.

(** ** Detection *)


(** A kernel with a loopback device and an Ethernet device with two addresses. *)
Module Kernel.
End Kernel.

#[local] Instance msg_ok_dec m : Decision (msg_ok m).
Proof. unfold msg_ok. apply _. Defined.
#[local] Instance attr_ok_dec x : Decision (attr_ok x).
Proof. unfold attr_ok. apply _. Defined.
#[local] Instance ordinary_dec pid seq from m : Decision (ordinary pid seq from m).
Proof. unfold ordinary. apply _. Defined.





(** ** Sockets *)




(** ** Packets *)

(** The socket that an answer to a query from the network leaves by. *)
Lemma answer_socket env net r : env_ok env -> reply env net r ->
  exists i sock, i ∈ ifaces_ (env_ifmgr env) /\ if_name_ i = iface_ r /\ sock ∈ if_sockets_ i /\
    Mgr.send_socket r (env_ifmgr env) = Ok (u16 (sockfd_ sock)).
Proof.
  intros Henv (q & t & yi & Hq & Hr). destruct (from_net_wf env net Henv q Hq) as [_ (i & s & Hi & Hs & En)].
  assert (iface_ r = if_name_ i) as Er by (rewrite (rp_iface _ _ _ _ Hr); exact En).
  pose proof (pick_socket_local (local_addr_ r) None (if_sockets_ i)) as Hp. unfold Mgr.send_socket, Mgr.getSocket. rewrite Er, (getIface_arrived env Henv i Hi).
  destruct (Mgr.pick_socket _ _ _) as [sock|] eqn:E; [|destruct Hp as [_ Hnil]; rewrite Hnil in Hs; by apply elem_of_nil in Hs].
  exists i, sock. rewrite bind_Ok. split_and!; [done|done| |done]. by apply pick_socket_in in E as [|].
Qed.

(** C22: Packets travel between the sockets and the queues.  The receiving
    thread queues only packets that [Server.step] takes from the network: the
    datagram, cut to 1500 bytes, of the first ready socket of an interface.
    It ends when it was told to, and ends the process exactly if [select] fails
    (an interruption by a signal included), if [recvmsg] fails or if no known
    socket is ready.  An answer of the server that can be printed leaves by a
    socket of the interface its query came from, with the packed bytes, to its
    remote address and port; if that fails it is dropped, and the sending
    thread goes on. *)
Theorem packets_travel `{Inet6} `{TransformWidth} env net w select recvmsg sendmsg stop_fd stop_flag endl_first :
  env_ok env -> Server.reachable env net w -> fds_ok stop_fd (env_ifmgr env) ->
  (forall s d, recvmsg s = Some d -> bytes_ok (Inet.dg_data d) /\ net (payload d)) ->
  let turn := Io.receiver_turn select recvmsg stop_fd stop_flag (env_ifmgr env) in
  (turn = Io.Terminated <-> receiver_fails select recvmsg stop_fd (env_ifmgr env)) /\
  (turn = Io.Ended -> stop_flag = true) /\
  (forall q receive, turn = Io.Queued q -> (forall p, receive_may env p (receive p)) ->
     stop_flag = false /\ Server.step env net w (Server.outcome (Server.processPacket env receive q w))) /\
  (forall r text, r ∈ out_queue_ w -> PText.toText endl_first r = Ok text ->
     exists i sock v, i ∈ ifaces_ (env_ifmgr env) /\ if_name_ i = iface_ r /\ sock ∈ if_sockets_ i /\ remote_addr_ r = V4 v /\
       let fd := u16 (sockfd_ sock) in let msg := Inet.MkMessage v (remote_port_ r) (OutputBuffer.contents (buffer_out_ r)) in
       Io.sender_turn endl_first sendmsg (Some r) (env_ifmgr env) = if sendmsg fd msg <? 0 then Io.SendFailed else Io.SentOn fd msg).
Proof.
  intros Henv Hw Hfd Hd turn. pose proof (receiver_spec select recvmsg stop_fd stop_flag (env_ifmgr env) Hfd) as Ht. fold turn in Ht. split_and!.
  - split; [intros E; by rewrite E in Ht|]. intros Hf. destruct turn; [by destruct Ht as (_ & ? & _)|by destruct Ht|by destruct Ht|done].
  - intros E. rewrite E in Ht. by destruct Ht.
  - intros q receive E Hr. rewrite E in Ht. destruct Ht as (Hs & _ & fds & i & sock & d & _ & Hf & Hrecv & Hq). split; [done|].
    apply List.find_some in Hf as [Hin%list_elem_of_In _]. apply all_sockets_spec in Hin as [Hi Hsock]. destruct (Hd _ _ Hrecv) as [Hb Hn].
    eapply Server.step_packet; [exact Hi|exact Hsock| |by apply bytes_ok_take|exact Hn|exact Hq|exact Hr].
    unfold payload, zlen, Inet.RCVBUFSIZE. rewrite length_take. lia.
  - intros r text Hr Htext. apply (reachable_inv env net Henv) in Hw as [_ _ _ _ Ho]. rewrite Forall_forall in Ho. specialize (Ho r Hr).
    destruct (answer_socket env net r Henv Ho) as (i & sock & Hi & En & Hs & Ef). destruct Ho as (q & t & yi & _ & Hrp).
    destruct (rp_remote _ _ _ _ Hrp) as (v & Ev & _). exists i, sock, v. split_and!; [done..|]. cbv zeta.
    unfold Io.sender_turn, Io.send, Inet.send. rewrite Htext, bind_Ok, Ef, bind_Ok, Ev. cbn [IOAddr.to_uint32]. rewrite bind_Ok. cbv zeta.
    destruct (sendmsg _ _ <? 0); reflexivity.
Qed.

(** A DISCOVER arrives while the refusal of another one waits to be sent. *)
Module Traffic.
#[export] Instance inet6 : Inet6 := MkInet6 (fun _ => None) (fun _ => []).
#[export] Instance regrouping : TransformWidth := regroup.
Definition select (n : Z) (fds : list Z) : Io.selected := Io.Ready [7].
Definition recvmsg (s : SocketInfo) : option Inet.Datagram :=
  Some (Inet.MkDatagram Runs.discover 0 68 [Inet.MkControl 41 50 0 0; Inet.MkControl 0 8 2 0xFFFFFFFF]).
Definition w : Srv := Runs.denied_state Runs.discover.
Definition arrived : Pkt := Runs.packet Runs.discover.
End Traffic.
Import Traffic.

Lemma packets_travel_witness :
  Server.step (Sample.env false) (eq Runs.discover) w (Server.outcome (Server.processPacket (Sample.env false) Sample.pass arrived w)) /\
  exists msg, (fun r => Io.sender_turn true (fun _ _ => 300) (Some r) Sample.ifmgr) <$> out_queue_ w = [Io.SentOn 7 msg].
Proof.
  destruct (packets_travel (Sample.env false) (eq Runs.discover) w select recvmsg (fun _ _ => 300) 5 false true) as (_ & _ & Hq & Hs).
  - apply Sample.env_is_ok.
  - apply (Runs.denied_ok Runs.discover (eq Runs.discover) discover_queued); vm_compute; reflexivity.
  - split; [(split; [discriminate|reflexivity])|]. constructor; [|constructor]. (split; [discriminate|reflexivity]).
  - intros s d [= <-]. split; [|reflexivity]. apply (bool_decide_eq_true_1 (bytes_ok _)). vm_compute. reflexivity.
  - split; [apply (Hq arrived Sample.pass); [vm_compute; reflexivity|exact Sample.pass_may]|].
    assert (length (out_queue_ w) = 1%nat) as Hl by (vm_compute; reflexivity).
    assert (is_ok <$> (PText.toText true <$> out_queue_ w) = [true]) as Hk by (vm_compute; reflexivity).
    destruct (out_queue_ w) as [|r [|? ?]]; [discriminate Hl| |discriminate Hl]. cbn [fmap list_fmap] in Hk |- *.
    destruct (PText.toText true r) as [text| | |] eqn:Et; [|discriminate Hk..].
    destruct (Hs r text ltac:(by left) Et) as (i & sock & v & Hi & _ & Hsock & _ & E). apply list_elem_of_singleton in Hi as ->.
    apply list_elem_of_singleton in Hsock as ->. eexists. change (env_ifmgr (Sample.env false)) with Sample.ifmgr in E. cbn [fmap list_fmap]. rewrite E. reflexivity.
Defined.
