(* ===== verification/LiveProps.v ===== *)
(** The promises of the server over whole runs: it comes to rest, and it
    answers what it was asked. *)
From stdpp Require Import base list numbers option strings gmap relations.
From Stdlib Require Import ZArith Lia.
From S2P Require Import Prelude Buffer HwAddr Address DnsName OptionDef Options Pkt.
From S2P Require Import PktFacts Nic Subnet ResponseGen ResponseFacts QueryFacts Server ServerFacts.
From S2P Require Import ServerMachine ServerLive Sample ServerProps.

(** C2: The server comes to rest.  From every reachable state, when the
    network delivers no further query, every sequence of steps that change
    the state is finite (answers of the master, losses, echo replies and
    timers in any order); it can only end in the empty state, with no request,
    ping record, timer or packet left; and there is such a sequence in which
    nothing is lost. *)
Theorem server_comes_to_rest env net w :
  env_ok env -> (forall data, net data -> datagram_safe env data) -> Server.reachable env net w ->
  sn (quiet env) w /\
  (forall w', rtc (quiet env) w w' -> nf (quiet env) w' <-> w' = srv_init) /\
  exists sent, serves env w sent srv_init.
Proof.
  intros Henv Hnet Hw. split_and!; [apply quiet_sn| |by eapply serves_to_rest].
  intros w' Hr. eapply rests_only_at_init; [done..|]. by eapply quiet_reachable.
Qed.

Lemma server_comes_to_rest_witness :
  sn (quiet (Sample.env false)) (Runs.queued_state Runs.discover) /\
  exists sent, serves (Sample.env false) (Runs.queued_state Runs.discover) sent srv_init.
Proof.
  destruct (server_comes_to_rest (Sample.env false) (eq Runs.discover) (Runs.queued_state Runs.discover))
    as (H1 & _ & H2); [apply Sample.env_is_ok|intros data <-; apply discover_safe|apply discover_queued|].
  by split.
Defined.


