(* ===== verification/ClassProps.v ===== *)
(** The promises of the client classes: the parser of their expressions and
    the classification of packets. *)
From stdpp Require Import base list numbers option strings gmap.
From Stdlib Require Import ZArith Lia.
From S2P Require Import Prelude Buffer HwAddr Encode Text Address DnsName OptionDef.
From S2P Require Import Options OptionsFacts OptionsPack OptionsRoundTrip Pkt PktFacts Nic Subnet.
From S2P Require Import ResponseGen ResponseFacts QueryFacts OptionTyping OptionText ClientClass ClientClassFacts Server.
From S2P Require Import ServerFacts ServerMachine Sample ServerProps.

(** ** Classification *)

(** C25: The parser of client-class expressions implements their meaning.  The
    text of every expression (value, existence and substring checks on options
    given by name or code, joined by [&&] and [||], grouped by brackets,
    with any blanks between the parts) is accepted, and the matcher built from
    it is the one that evaluates the checks from left to right; it fails only
    where an option is unknown or a position exceeds an [int]. *)
Theorem class_expressions_mean `{Inet6} `{TransformWidth} `{LexicalCast} std sp e :
  forallb space_char sp = true -> expr_ok e ->
  Grammar.buildMatcher std (expr_text sp e) = expr_matcher std e.
Proof. intros. by apply buildMatcher_expr. Qed.

Module Classifying.
#[export] Instance inet6 : Inet6 := MkInet6 (fun _ => None) (fun _ => []).
#[export] Instance regrouping : TransformWidth := regroup.
#[export] Instance parsing : LexicalCast := parse_integer.

Definition host_name : ident := IName (bytes_of "host") [bytes_of "name"].

(** (option host-name == "a" || exists option[60]) && !exists option host-name *)
Definition sample_expr : expr :=
  (Group (LValue host_name true (bytes_of "a")) [(JOr, LExists (ICode (bytes_of "60")) true)],
   [(JAnd, Leaf (LExists host_name false))]).




End Classifying.
Import Classifying.

Ltac expr_is_ok :=
  repeat match goal with
  | |- literal_ok _ => apply (bool_decide_eq_true_1 (_ ∉ _)); vm_compute; reflexivity
  | |- _ = true => reflexivity
  | |- _ <> [] => discriminate
  | |- Forall _ _ => first [apply Forall_nil; exact I | apply Forall_cons]
  | |- _ /\ _ => split
  | |- _ => progress hnf
  end.

Lemma class_expressions_mean_witness :
  expr_ok sample_expr /\
  Grammar.buildMatcher (v4_option_meta_ std_lib) (expr_text [32] sample_expr) = expr_matcher (v4_option_meta_ std_lib) sample_expr.
Proof.
  assert (expr_ok sample_expr) as Hok by expr_is_ok.
  split; [exact Hok|]. apply class_expressions_mean; [reflexivity|exact Hok].
Defined.











