(* ===== verification/TextProps.v ===== *)
(** The promises of the values options carry: the types of parsed options, the
    values of configured ones, and the text encodings below them. *)
From stdpp Require Import base list numbers option strings gmap.
From Stdlib Require Import ZArith Lia.
From S2P Require Import Prelude Buffer HwAddr Encode Text Address DnsName OptionDef.
From S2P Require Import Options OptionsFacts OptionsPack OptionsRoundTrip Pkt PktFacts Subnet.
From S2P Require Import QueryFacts OptionTyping OptionText PktText Sample.

(** ** Options *)







(** ** Encodings *)

(** Base-N text.  For hexadecimal and base32hex, encoding a byte string
    always succeeds and decoding the result gives it back; decoding any text
    gives bytes or the exception BadValue, never an assertion or an index out
    of range. *)
Theorem base_n_codec `{TransformWidthLaws} base :
  base = Base16 \/ base = Base32Hex ->
  (forall binary, bytes_ok binary -> exists text, encode base binary = Ok text /\ decode base text = Ok binary) /\
  (forall text, match decode base text with Ok binary => bytes_ok binary | Throw e => e = BadValue | _ => False end).
Proof.
  intros Hbase. assert (alphabet_ok base) as Hok by (destruct Hbase as [-> | ->]; [apply Base16_ok|apply Base32Hex_ok]).
  split; [|by apply decode_total]. intros binary Hb.
  destruct (encode_shape base Hok binary Hb) as (tx & values & p & z & E & _).
  eexists. split; [exact E|]. by eapply decode_encode.
Qed.

Lemma base_n_codec_witness : exists text, @encode regroup Base32Hex (bytes_of "zdhcp") = Ok text /\
  @decode regroup Base32Hex text = Ok (bytes_of "zdhcp").
Proof.
  destruct (@base_n_codec regroup regroup_law Base32Hex (or_intror eq_refl)) as [Hr _].
  apply Hr. apply (bool_decide_eq_true_1 _). vm_compute. reflexivity.
Defined.

(** [tokens] splits at delimiters.  The loop over [find_first_of] and
    [find_first_not_of] terminates and returns the maximal runs of characters
    that are not delimiters, in order, which is what a character-by-character
    split without its empty fields gives. *)
Theorem tokens_are_words text delim : Str.tokens text delim = Ok (words delim text).
Proof. apply tokens_words. Qed.
