(* ===== verification/WireProps.v ===== *)
(** The promises of the codecs: packets, options, names, text forms and the
    buffers below them. *)
From stdpp Require Import base list numbers option strings gmap.
From Stdlib Require Import ZArith Lia.
From S2P Require Import Prelude Buffer DnsName DnsNameFacts DnsWireFacts Address OptionDef Options.
From S2P Require Import OptionsFacts OptionsPack OptionsRoundTrip HwAddr Pkt PktFacts Sample.

(** ** Packets *)

(** C18: Parsing a datagram is total and its outcome is known on every branch: a
    datagram shorter than the fixed part is out of range; otherwise it splits
    into a header and a rest, and is rejected exactly when the hardware length
    exceeds 20, nothing follows the header, fewer than four bytes follow, or
    they are not the magic cookie; else every header field and the parsed
    options are stored. *)
Theorem unpack_outcome lib p :
  lib_safe lib -> bytes_ok (pdata_ p) -> zlen (pdata_ p) < 2^32 ->
  (zlen (pdata_ p) < 236 /\ P.unpack lib p = Throw OutOfRange) \/
  (exists h rest, pdata_ p = wire (head_fields h) ++ rest /\ header_ok h /\
     match unpack_error h rest with
     | Some e => P.unpack lib p = Throw e
     | None => exists os off,
         unpackOptions4 lib (drop 4 rest) DHCP4_OPTION_SPACE (poptions_ p) = Ok (off, os) /\
         P.unpack lib p = Ok (unpacked h (MkHWAddr (resize (h_chaddr h) (h_hlen h)) (h_htype h) 0) os p)
     end).
Proof.
  intros Hlib Hb Hl. destruct (decide (zlen (pdata_ p) < 236)) as [H|H].
  - left. split; [done|]. unfold P.unpack.
    replace (InputBuffer.getLength (InputBuffer.make (pdata_ p)) <? DHCPV4_PKT_HDR_LEN) with true; [done|].
    symmetry. by apply Z.ltb_lt.
  - right. destruct (header_split (pdata_ p) Hb) as (h & rest & E & Hh & Hbr & Hlr); [lia|].
    exists h, rest. split_and!; [done|done|].
    rewrite (unpack_view lib p h rest) by (done || by apply Forall_take || lia).
    pose proof (unpack_rest_outcome lib h rest p Hlib Hh Hbr ltac:(lia)) as Ho.
    destruct (unpack_error h rest); [done|]. destruct Ho as (os & off & Hos & _ & Ho). by exists os, off.
Qed.

Definition raw (data : list Z) : Pkt := (P.blank BOOTREQUEST 0) <| pdata_ := data |>.

Lemma unpack_outcome_witness :
  exists h rest, Sample.datagram DHCPDISCOVER [1; 2] [] = wire (head_fields h) ++ rest /\ header_ok h.
Proof.
  destruct (unpack_outcome std_lib (raw (Sample.datagram DHCPDISCOVER [1; 2] [])) std_lib_safe) as [[H _]|(h & rest & E & Hh & _)].
  - apply (bool_decide_eq_true_1 _). vm_compute. reflexivity.
  - vm_compute. reflexivity.
  - vm_compute in H. discriminate H.
  - exists h, rest. split; [exact E|exact Hh].
Defined.

(** Packing writes the message format: the fixed header from the packet's
    fields, the magic cookie, the options and the end marker, and changes
    nothing but the output buffer; options that cannot be packed surface as
    InvalidOperation. *)
Theorem pack_writes_message alloc_ok p :
  (forall n, alloc_ok n = true) -> packable p ->
  match packOptions4 (poptions_ p) with
  | Ok os => zlen os < 2^31 -> exists p', P.pack alloc_ok p = Ok p' /\
      OutputBuffer.contents (buffer_out_ p') = Some <$> packet_bytes p os /\ p' = p <| buffer_out_ := buffer_out_ p' |>
  | Throw e => is_kea e = true -> P.pack alloc_ok p = Throw InvalidOperation
  | _ => True
  end.
Proof.
  intros Ha Hp. destruct (packOptions4 (poptions_ p)) eqn:E; [|intros; by eapply pack_error|done..].
  intros. by apply pack_spec.
Qed.

Definition offer : Pkt :=
  (P.blank BOOTREPLY 7) <| poptions_ := [(53, Opt 53 [] (BInt Uint8 2) [] DHCP4_OPTION_SPACE)] |>.

Lemma offer_packable : packable offer.
Proof. split; [repeat constructor; by exists 0|done|done|by split; cbn]. Qed.

Lemma pack_writes_message_witness : exists p', P.pack (fun _ => true) offer = Ok p' /\
  OutputBuffer.contents (buffer_out_ p') = Some <$> packet_bytes offer [53; 1; 2].
Proof.
  destruct (pack_writes_message (fun _ => true) offer (fun _ => eq_refl) offer_packable eq_refl) as (p' & H & Hc & _).
  exists p'. split; [exact H|exact Hc].
Defined.

(** C19: Round trip of messages: a packet whose options are well formed for the
    definitions in use is packed into bytes that, received again, give a
    packet with the same header fields and the same options. *)
Theorem packet_round_trip lib alloc_ok p c os :
  (forall n, alloc_ok n = true) -> packable p -> in_range p ->
  same_wire (poptions_ p) c -> wf_coll lib DHCP4_OPTION_SPACE c ->
  packOptions4 c = Ok os -> zlen os < 2^16 ->
  exists p' data q q',
    P.pack alloc_ok p = Ok p' /\ OutputBuffer.contents (buffer_out_ p') = Some <$> data /\
    P.make_data data = Ok q /\ P.unpack lib q = Ok q' /\ same_message p q' /\ poptions_ q' = c.
Proof. apply pkt_roundtrip. Qed.

(** A collection in the form the parser builds it, for the standard
    definitions. *)
Definition offer_options : coll :=
  [(3, Opt 3 [] (BAddrLst [V4 Sample.server_addr]) [] ""); (53, Opt 53 [] (BInt Uint8 2) [] "")].

Lemma offer_options_wf : wf_coll std_lib DHCP4_OPTION_SPACE offer_options.
Proof.
  split; [constructor; [constructor; constructor|constructor; [done|constructor]]|]. split; [split; vm_compute; lia|].
  assert (exists d, lookup_def std_lib DHCP4_OPTION_SPACE 3 = Some d /\ generic d /\
    otype_ d = OPT_IPV4_ADDRESS_TYPE /\ array_type_ d = true) as (d & Hd & Hg & Ht & Ha).
  { eexists. split; [vm_compute; reflexivity|]. split; [split_and!; [reflexivity|reflexivity|discriminate]|].
    split; reflexivity. }
  assert (exists d, lookup_def std_lib DHCP4_OPTION_SPACE 53 = Some d /\ generic d /\
    single_int (otype_ d) = Some Uint8 /\ array_type_ d = false /\ encapsulated_space_ d = ""%string)
    as (e & He & Hge & Hte & Hae & Hse).
  { eexists. split; [vm_compute; reflexivity|]. split; [split_and!; [reflexivity|reflexivity|discriminate]|].
    split_and!; reflexivity. }
  constructor; [|constructor; [|constructor]]; cbn [fst snd].
  - apply (wf_addrs std_lib _ _ d); [exact Hd|exact Hg|lia|exact Ht|exact Ha|].
    constructor; [|constructor]. exists Sample.server_addr. split; [reflexivity|]. unfold addr_ok, Sample.server_addr. lia.
  - rewrite <- Hse. apply (wf_int std_lib _ _ e); [exact He|exact Hge|lia|exact Hae|exact Hte|reflexivity|constructor|split; cbn; lia|constructor].
Qed.

Lemma packet_round_trip_witness : exists p' data q q',
  P.pack (fun _ => true) (offer <| poptions_ := offer_options |>) = Ok p' /\
  OutputBuffer.contents (buffer_out_ p') = Some <$> data /\
  P.make_data data = Ok q /\ P.unpack std_lib q = Ok q' /\ poptions_ q' = offer_options.
Proof.
  destruct (packet_round_trip std_lib (fun _ => true) (offer <| poptions_ := offer_options |>) offer_options
    [3; 4; 192; 168; 1; 1; 53; 1; 2]) as (p' & data & q & q' & H1 & H2 & H3 & H4 & _ & H5).
  - reflexivity.
  - split; [repeat constructor; by exists 0|reflexivity|reflexivity|by split; cbn].
  - split; [| |split; [vm_compute; discriminate|reflexivity]|vm_compute; discriminate];
      repeat (constructor; [split; [vm_compute; discriminate|reflexivity]|]); constructor.
  - reflexivity.
  - exact offer_options_wf.
  - vm_compute. reflexivity.
  - vm_compute. reflexivity.
  - exists p', data, q, q'. split; [exact H1|]. split; [exact H2|]. split; [exact H3|]. split; [exact H4|exact H5].
Defined.

(** ** Options *)

(** The option parser is total: on any byte sequence, with any prior
    collection and any option space, it returns within the given fuel, stops
    inside the buffer, and neither throws nor crashes: malformed options end
    or are skipped. *)
Theorem options_parser_total lib buf space c :
  lib_safe lib -> bytes_ok buf -> zlen buf < 2^32 ->
  exists off c', unpackOptions4 lib buf space c = Ok (off, c') /\ 0 <= off <= zlen buf.
Proof. intros Hl Hb Hz. by apply unpackOptions4_total. Qed.

Lemma options_parser_total_witness : exists off c',
  unpackOptions4 std_lib [53; 1; 1; 82; 9; 1; 2; 3; 4; 61; 200; 7; 255] DHCP4_OPTION_SPACE [] = Ok (off, c') /\
  0 <= off <= 13.
Proof.
  apply (options_parser_total std_lib [53; 1; 1; 82; 9; 1; 2; 3; 4; 61; 200; 7; 255] DHCP4_OPTION_SPACE [] std_lib_safe);
    [apply (bool_decide_eq_true_1 _); vm_compute; reflexivity|vm_compute; reflexivity].
Defined.

(** Round trip of option collections: a collection that is well formed for
    the definitions in use, packed and parsed again, is the same collection, up
    to the end of its own bytes. *)
Theorem options_round_trip lib space c bs tail :
  wf_coll lib space c -> tail_ok tail -> packOptions4 c = Ok bs -> zlen bs < 2^16 ->
  unpackOptions4 lib (bs ++ tail) space [] = Ok (zlen bs, c).
Proof. apply wf_coll_roundtrip. Qed.

Lemma options_round_trip_witness :
  unpackOptions4 std_lib ([3; 4; 192; 168; 1; 1; 53; 1; 2] ++ [255]) DHCP4_OPTION_SPACE [] = Ok (9, offer_options).
Proof.
  apply (options_round_trip std_lib DHCP4_OPTION_SPACE offer_options [3; 4; 192; 168; 1; 1; 53; 1; 2] [255] offer_options_wf);
    [right; by exists []|vm_compute; reflexivity|vm_compute; reflexivity].
Defined.

(** The length an option announces is the length it is packed to: code,
    length byte and payload, with a payload of at most 253 bytes. *)
Theorem option_length_exact o bs :
  regular o -> pack o = Ok bs -> zlen bs < 2^16 ->
  len o = Ok (zlen bs) /\
  exists payload, bs = u8 (type_ o) :: zlen payload :: payload /\ zlen payload <= 253.
Proof. intros Hr. by apply regular_packs. Qed.

Lemma option_length_exact_witness : len (Opt 3 [] (BAddrLst [V4 Sample.server_addr]) [] "") = Ok 6.
Proof.
  apply (option_length_exact (Opt 3 [] (BAddrLst [V4 Sample.server_addr]) [] "") [3; 4; 192; 168; 1; 1]);
    [constructor; [exact I|split; cbn; lia|constructor]|vm_compute; reflexivity|vm_compute; reflexivity].
Defined.

(** Loading the built-in tables of option definitions never fails, keeps
    the runtime definitions, and gives a store with which no parse can crash. *)
Theorem standard_definitions_load l :
  runtime_safe l -> exists l', Lib.initOptions l = Ok l' /\ runtime_options_ l' = runtime_options_ l /\ lib_safe l'.
Proof.
  intros Hr. pose proof (initOptions_std l) as E. eexists. split; [exact E|]. split; [reflexivity|].
  eapply initOptions_safe; [exact Hr|exact E].
Qed.

Lemma standard_definitions_load_witness : exists l', Lib.initOptions Lib.no_defs = Ok l' /\ lib_safe l'.
Proof.
  destruct (standard_definitions_load Lib.no_defs) as (l' & H & _ & Hs); [by intros k m|].
  exists l'. split; [exact H|exact Hs].
Defined.

(** ** Domain names *)

(** Parsing a text of at most 254 characters as a name (longer texts can
    reach the assertion on the size of the wire data) either throws a DHCP exception or gives a
    well-formed name: labels of 1 to 63 bytes, at most 255 bytes in all, and
    offsets that point at the labels. *)
Theorem name_text_total s d :
  bytes_ok s -> zlen s <= 254 ->
  match Name_from_text s d with Ok name => name_wf name | Throw e => is_kea e = true | _ => False end.
Proof.
  intros Hb Hl. pose proof (Name_from_text_kea s d Hb Hl) as H.
  destruct (Name_from_text s d) as [name|e| |] eqn:E; [|exact H|done|done]. by eapply Name_from_text_wf.
Qed.

Lemma name_text_total_witness : exists name, Name_from_text (bytes_of "a\046b.example") false = Ok name /\ name_wf name.
Proof.
  pose proof (name_text_total (bytes_of "a\046b.example") false) as H.
  destruct (Name_from_text (bytes_of "a\046b.example") false) as [name| | |] eqn:E; [|vm_compute in E; discriminate E..].
  exists name. split; [reflexivity|]. apply H; [apply (bool_decide_eq_true_1 _); vm_compute; reflexivity|vm_compute; discriminate].
Defined.

(** Round trip of names through text: the text of a well-formed name,
    special and unprintable characters escaped, parses back to the same name. *)
Theorem name_text_round_trip ls omit :
  labels_ok ls -> exists text, Name_toText (of_labels ls) omit = Ok text /\ Name_from_text text false = Ok (of_labels ls).
Proof.
  intros Hls. exists (labels_text ls omit). split; [apply of_labels_toText, Hls|].
  rewrite labels_text_parse by done. do 2 f_equal. unfold TextRoundTrip.low.
  rewrite (list_fmap_ext _ id); [apply list_fmap_id|]. intros i x _. apply list_fmap_id.
Qed.

Lemma name_text_round_trip_witness : exists text,
  Name_toText (of_labels [[46; 0; 65]; bytes_of "example"]) true = Ok text /\
  Name_from_text text false = Ok (of_labels [[46; 0; 65]; bytes_of "example"]).
Proof.
  apply (name_text_round_trip [[46; 0; 65]; bytes_of "example"] true).
  split; [|vm_compute; discriminate].
  repeat constructor; try (vm_compute; discriminate); unfold byte_ok; cbn; lia.
Defined.

(** Parsing a name from wire data terminates on every buffer, compression
    pointers included: it gives a well-formed name and a position inside the
    buffer, or throws a format error. *)
Theorem name_wire_total b d :
  InputBufferFacts.inv b -> zlen (InputBuffer.data_ b) < 2^32 -> bytes_ok (InputBuffer.data_ b) ->
  match Name_from_wire b d with
  | Ok (name, b') => name_wf name /\ InputBuffer.data_ b' = InputBuffer.data_ b /\
      InputBuffer.position_ b <= InputBuffer.position_ b' <= InputBuffer.len_ b
  | Throw e => e = DNSMessageFORMERR
  | _ => False
  end.
Proof.
  intros Hi Hl Hb. pose proof (Name_from_wire_total b d Hi Hl Hb) as H.
  destruct (Name_from_wire b d) as [[name b']| | |]; [|done..]. tauto.
Qed.

Lemma name_wire_total_witness : Name_from_wire (InputBuffer.make [1; 97; 192; 0]) false = Throw DNSMessageFORMERR.
Proof.
  pose proof (name_wire_total (InputBuffer.make [1; 97; 192; 0]) false) as H.
  destruct (Name_from_wire (InputBuffer.make [1; 97; 192; 0]) false) as [[]|e| |] eqn:E; try (vm_compute in E; discriminate E).
  f_equal. apply H; [by apply InputBufferFacts.inv_make|vm_compute; reflexivity|apply (bool_decide_eq_true_1 _); vm_compute; reflexivity].
Defined.

(** Round trip of names through wire data: a name written into the middle
    of a buffer is read back, downcased on demand, and exactly its own bytes
    are consumed. *)
Theorem name_wire_round_trip d ls pre rest :
  labels_ok ls -> zlen (pre ++ Name_toWire (of_labels ls) ++ rest) < 2^32 ->
  Name_from_wire (InputBuffer.view pre (Name_toWire (of_labels ls) ++ rest)) d =
  Ok (of_labels (TextRoundTrip.low d ls), InputBuffer.view (pre ++ Name_toWire (of_labels ls)) rest).
Proof. apply wire_roundtrip. Qed.

Lemma name_wire_round_trip_witness :
  Name_from_wire (InputBuffer.view [9] ([1; 65; 2; 66; 98; 0] ++ [7])) true =
  Ok (of_labels [[97]; [98; 98]], InputBuffer.view [9; 1; 65; 2; 66; 98; 0] [7]).
Proof.
  apply (name_wire_round_trip true [[65]; [66; 98]] [9] [7]); [|vm_compute; reflexivity].
  split; [|vm_compute; discriminate]. repeat constructor; try (vm_compute; discriminate); unfold byte_ok; cbn; lia.
Defined.

(** ** Buffers and text forms *)

(** C20: The output buffer refines a byte log: whatever sequence of writes,
    overwrites, skips, trims and clears a client issues, growth and copying of
    the storage are invisible, and an operation throws exactly when its
    position or count is outside the log. *)
Theorem output_buffer_refines_log alloc_ok os b :
  (forall n, alloc_ok n = true) -> OutputBuffer.inv b -> OutputBufferFacts.ops_ok os (OutputBuffer.size_ b) ->
  OutputBufferFacts.log_run os (OutputBuffer.contents b)
    (OutputBuffer.contents <$> OutputBufferFacts.run_all alloc_ok os b).
Proof. intros Ha. by apply OutputBufferFacts.run_all_refines. Qed.

Lemma output_buffer_refines_log_witness :
  OutputBufferFacts.log_run [OutputBufferFacts.W32 258; OutputBufferFacts.W8At 7 0; OutputBufferFacts.Trim 1] []
    (Ok [Some 7; Some 0; Some 1]).
Proof.
  apply (output_buffer_refines_log (fun _ => true)
    [OutputBufferFacts.W32 258; OutputBufferFacts.W8At 7 0; OutputBufferFacts.Trim 1] (OutputBuffer.Mk [] 0 0));
    [reflexivity|by split; cbn|]. split; [vm_compute; discriminate|].
  repeat constructor; cbn; lia.
Defined.

(** Writing and reading agree: a sequence of integers and byte strings
    written to an output buffer is read back from the bytes, and nothing more
    is consumed. *)
Theorem fields_round_trip alloc_ok fs rest :
  (forall n, alloc_ok n = true) -> Forall field_ok fs -> zlen (wire fs ++ rest) < 2^62 ->
  exists b, OutputBufferFacts.run_all alloc_ok (field_op <$> fs) (OutputBuffer.Mk [] 0 0) = Ok b /\
    OutputBuffer.contents b = Some <$> wire fs /\
    read_fields fs (InputBuffer.make (wire fs ++ rest)) = Ok (fs, InputBuffer.view (wire fs) rest).
Proof.
  intros Ha Hf Hl. destruct (write_fields_spec alloc_ok fs (OutputBuffer.Mk [] 0 0) Ha) as (b & Hb & _ & Hc);
    [by split; cbn|cbn [OutputBuffer.size_]; pose proof (zlen_nonneg rest); rewrite zlen_app in Hl; lia|].
  exists b. split; [exact Hb|]. split; [exact Hc|]. apply (read_fields_view [] fs rest Hf).
  unfold InputBufferFacts.small. cbn [app]. lia.
Qed.

Lemma fields_round_trip_witness : exists b,
  OutputBufferFacts.run_all (fun _ => true) (field_op <$> [F16 513; F8 4; FData [9; 9]; F32 1]) (OutputBuffer.Mk [] 0 0) = Ok b /\
  OutputBuffer.contents b = Some <$> [2; 1; 4; 9; 9; 0; 0; 0; 1].
Proof.
  destruct (fields_round_trip (fun _ => true) [F16 513; F8 4; FData [9; 9]; F32 1] []) as (b & H1 & H2 & _);
    [reflexivity|repeat constructor; cbn; lia|vm_compute; reflexivity|].
  exists b. split; [exact H1|exact H2].
Defined.

(** Round trip of hardware addresses through text: the colon separated hex
    form of an address of at most 20 bytes parses back to it. *)
Theorem hwaddr_text_round_trip hw htype :
  bytes_ok hw -> zlen hw <= HW.MAX_HWADDR_LEN ->
  HW.fromText (HW.toText (MkHWAddr hw htype 0)) htype = Ok (MkHWAddr hw htype 0).
Proof.
  intros Hb Hl. unfold HW.fromText, HW.toText. cbn [hwaddr_]. rewrite hex_roundtrip, bind_Ok by done.
  unfold HW.make. by rewrite (proj2 (Z.ltb_ge _ _)) by done.
Qed.

Lemma hwaddr_text_round_trip_witness :
  HW.fromText (bytes_of "00:1a:ff") 1 = Ok (MkHWAddr [0; 26; 255] 1 0).
Proof.
  apply (hwaddr_text_round_trip [0; 26; 255] 1);
    [apply (bool_decide_eq_true_1 _); vm_compute; reflexivity|vm_compute; discriminate].
Defined.

(** Addresses survive their byte and wire forms: the four bytes of an
    address, printed as dotted text and read back, give the address again, and
    so does the byte order of the master's protocol. *)
Theorem address_round_trip v :
  0 <= v < 2^32 ->
  (bs ← IOAddr.toBytes (V4 v); IOAddr.fromBytes IOAddr.AF_INET bs) = Ok (V4 v) /\
  (l ← IOAddr.toLong (V4 v); Ok (IOAddr.fromLong l)) = Ok (V4 v).
Proof.
  intros Hv. rewrite toLong_v4 by done. cbn [IOAddr.toBytes]. rewrite !bind_Ok. split.
  - destruct (be32_bytes32 v Hv) as (a & b & c & d & E & Ev). pose proof (bytes32_ok v) as Hok. rewrite E in *.
    repeat (apply bytes_ok_cons in Hok as [? Hok]). by rewrite fromBytes_ok, Ev.
  - unfold IOAddr.fromLong, IOAddr.of_uint32. by rewrite bswap32_involutive, u32_small.
Qed.

Lemma address_round_trip_witness :
  (bs ← IOAddr.toBytes (V4 0xC0A80101); IOAddr.fromBytes IOAddr.AF_INET bs) = Ok (V4 0xC0A80101).
Proof. apply (address_round_trip 0xC0A80101). lia. Defined.
