(* ===== verification/NetProps.v ===== *)
(** The promises of the answer generator, the subnets and the interfaces. *)
From stdpp Require Import base list numbers option strings gmap.
From Stdlib Require Import ZArith Lia.
From S2P Require Import Prelude Buffer HwAddr Address DnsName OptionDef Options OptionsFacts.
From S2P Require Import OptionsPack OptionsRoundTrip Pkt PktFacts Nic Subnet ResponseGen ResponseFacts.
From S2P Require Import QueryFacts Server ServerFacts Sample.

(** ** Answers *)

(** A query as the parser builds it, from a client without an address. *)
Definition client (t : Z) (more : coll) : Pkt :=
  (P.blank BOOTREQUEST 7) <| poptions_ := (DHO_DHCP_MESSAGE_TYPE, Opt DHO_DHCP_MESSAGE_TYPE [] (BInt Uint8 t) [] "") :: more |>
    <| iface_ := "eth0"%string |> <| local_addr_ := V4 0xFFFFFFFF |> <| local_port_ := 67 |>.

Definition wants_router : coll :=
  [(DHO_DHCP_PARAMETER_REQUEST_LIST, Opt DHO_DHCP_PARAMETER_REQUEST_LIST [] (BIntArray Uint8 [DHO_ROUTERS; 15]) [] "")].



(** What a NAK is: no address, the server identifier, the message type and
    the echoed options, and nothing else. *)
Theorem nak_exact ifmgr query qt rt v :
  typed (poptions_ query) -> P.getType query = Ok qt -> answers qt = Some rt ->
  local_of ifmgr query = Ok (V4 v) ->
  exists q, Resp.genNakResponse ifmgr query = Ok q /\ answers_query query q /\
    addressed ifmgr query qt DHCPNAK (V4 v) q /\
    yiaddr_ q = V4 0 /\ ciaddr_ q = V4 0 /\ siaddr_ q = V4 0 /\
    forall k, P.getOption k q
      = if k =? DHO_DHCP_SERVER_IDENTIFIER then Some (server_id_opt (V4 v))
        else if k =? DHO_DHCP_MESSAGE_TYPE then Some (msg_type_opt DHCPNAK)
        else if echoed k then Option_.clone <$> P.getOption k query else None.
Proof. apply genNakResponse_spec. Qed.

Lemma nak_exact_witness : exists q, Resp.genNakResponse Sample.ifmgr (client DHCPREQUEST wants_router) = Ok q /\
  P.getOption DHO_ROUTERS q = None /\ yiaddr_ q = V4 0.
Proof.
  destruct (nak_exact Sample.ifmgr (client DHCPREQUEST wants_router) DHCPREQUEST DHCPACK Sample.server_addr)
    as (q & H & _ & _ & Hy & _ & _ & Hk); [repeat constructor|reflexivity|reflexivity|vm_compute; reflexivity|].
  exists q. split; [exact H|]. split; [rewrite Hk; reflexivity|exact Hy].
Defined.

Lemma goes_to_functional direct q qt rt yi a b :
  goes_to direct q qt rt yi a -> goes_to direct q qt rt yi b -> a = b.
Proof. destruct 1; destruct 1; intuition congruence. Qed.

(** Where an answer goes: the destination is the one case of RFC 2131,
    section 4.1, that applies (relay agent, renewing client, broadcast, new
    address or sender), and besides it at most the broadcast flag changes. *)
Theorem destination_exact direct query resp qt rt :
  P.getType query = Ok qt -> P.getType resp = Ok rt ->
  exists a f, Resp.adjustRemoteAddr direct query resp = Ok (resp <| remote_addr_ := a |> <| flags_ := f |>) /\
    (forall b, goes_to direct query qt rt (yiaddr_ resp) b <-> b = a) /\
    (f = flags_ resp \/ f = u16 (Z.lor (flags_ resp) BOOTP_BROADCAST)).
Proof.
  intros Hq Hr. destruct (adjustRemoteAddr_spec direct query resp qt rt Hq Hr) as (a & f & H & Ha & Hf).
  exists a, f. split; [exact H|]. split; [|exact Hf]. intros b. split; [|by intros ->].
  intros Hb. by eapply goes_to_functional.
Qed.

Lemma destination_exact_witness : exists f,
  Resp.adjustRemoteAddr true (client DHCPDISCOVER []) ((client DHCPOFFER []) <| yiaddr_ := V4 5 |>)
  = Ok ((client DHCPOFFER []) <| yiaddr_ := V4 5 |> <| remote_addr_ := V4 5 |> <| flags_ := f |>).
Proof.
  destruct (destination_exact true (client DHCPDISCOVER []) ((client DHCPOFFER []) <| yiaddr_ := V4 5 |>)
    DHCPDISCOVER DHCPOFFER) as (a & f & H & Ha & _); [vm_compute; reflexivity|vm_compute; reflexivity|].
  exists f. rewrite H. assert (V4 5 = a) as <-; [|reflexivity].
  apply Ha. apply to_new_address; try reflexivity; discriminate.
Defined.

(** ** Subnets *)

(** The subnet of a query: the first configured subnet that admits the
    client's classes and meets the criterion that takes precedence: the link
    or subnet selection option, the relay address, the client address, the
    source address, the interface, in this order. *)
Theorem subnet_selection_exact ifmgr sel m :
  mgr_inv m -> selector_ok ifmgr sel ->
  exists P, basis ifmgr sel m P /\
    SMgr.selectSubnet ifmgr sel m
    = Ok (List.find (fun s => P s && Sub.clientSupported s (client_classes_ sel)) (subnets_ m)).
Proof. apply selectSubnet_spec. Qed.

Definition from_relay : SubnetSelector :=
  MkSelector (V4 0) (V4 (Sample.prefix + 9)) (V4 0) (V4 0xFFFFFFFF) (V4 0) ∅ "eth0".

Lemma subnet_selection_exact_witness :
  exists P, basis Sample.ifmgr from_relay (MkSubnetMgr [Sample.subnet]) P /\
    SMgr.selectSubnet Sample.ifmgr from_relay (MkSubnetMgr [Sample.subnet])
    = Ok (List.find (fun s => P s && Sub.clientSupported s ∅) [Sample.subnet]).
Proof.
  apply (subnet_selection_exact Sample.ifmgr from_relay (MkSubnetMgr [Sample.subnet])).
  - apply (eo_mgr _ (Sample.env_is_ok false)).
  - split.
    + repeat (constructor; [eexists; split; [reflexivity|split; [vm_compute; discriminate|reflexivity]]|]). constructor.
    + intros _. exists Sample.eth0. split; [reflexivity|]. constructor; [|constructor].
      exists Sample.server_addr. split; [reflexivity|split; [vm_compute; discriminate|reflexivity]].
Defined.

(** Pools stay inside their subnet: a pool is added exactly when both ends
    have the subnet's prefix, and then every address of the pool does. *)
Theorem pools_stay_inside id f l cap s :
  subnet_inv s -> addr_ok f -> addr_ok l ->
  match Sub.addPool (MkPool id (V4 f) (V4 l) cap) s with
  | Ok s' => subnet_inv s' /\ pools_ s' = pools_ s ++ [MkPool id (V4 f) (V4 l) cap] /\
      forall x, f <= x <= l -> Sub.inRange s' (V4 x) = Ok true
  | Throw e => e = BadValue /\ (Sub.inRange s (V4 f) = Ok false \/ Sub.inRange s (V4 l) = Ok false)
  | _ => False
  end.
Proof.
  intros Hs Hf Hl. assert (v4_pool (MkPool id (V4 f) (V4 l) cap)) as Hp by (by exists f, l).
  destruct (addPool_spec _ s (si_net _ Hs) Hp) as (f' & l' & [= <-] & [= <-] & _ & _ & E).
  pose proof (fun s' => addPool_inv _ s s' Hs Hp) as Hinv. rewrite E in *.
  destruct (covers s f && covers s l) eqn:Ec.
  - specialize (Hinv _ eq_refl). split; [exact Hinv|]. split; [reflexivity|]. intros x Hx.
    apply andb_true_iff in Ec as [E1 E2]. unfold addr_ok in *.
    rewrite sub_inRange_spec by (apply Hinv || (unfold addr_ok; lia)). f_equal.
    apply (covers_between s f x l (si_net _ Hs)); [done|done|lia].
  - split; [done|]. rewrite !sub_inRange_spec by (done || apply Hs).
    apply andb_false_iff in Ec as [-> | ->]; auto.
Qed.

Lemma sample_subnet_inv : subnet_inv Sample.subnet.
Proof.
  assert (forall k, 0 <= k < 256 -> addr_ok (Sample.prefix + k)) as Hk
    by (unfold addr_ok, Sample.prefix; lia).
  split.
  - exists Sample.prefix. split; [reflexivity|]. split; [apply (Hk 0); lia|cbn; lia].
  - constructor; [|constructor]. exists (Sample.prefix + 10), (Sample.prefix + 200).
    split_and!; [reflexivity|reflexivity|apply Hk; lia|apply Hk; lia|reflexivity|reflexivity].
Qed.

Lemma pools_stay_inside_witness :
  Sub.addPool (MkPool 1 (V4 (Sample.prefix + 220)) (V4 (Sample.prefix + 256)) 37) Sample.subnet = Throw BadValue.
Proof.
  pose proof (pools_stay_inside 1 (Sample.prefix + 220) (Sample.prefix + 256) 37 Sample.subnet sample_subnet_inv) as H.
  destruct (Sub.addPool _ Sample.subnet) as [s'|e| |] eqn:E; try (vm_compute in E; discriminate E).
  f_equal. apply H; split; vm_compute; [discriminate|reflexivity|discriminate|reflexivity].
Defined.

(** Looking up pools: an address is in a pool of the subnet exactly when
    some pool's bounds contain it, and getPool returns the first such pool, or
    the first pool at all when any pool will do. *)
Theorem pool_lookup_exact s a any :
  subnet_inv s -> addr_ok a ->
  Sub.inPool (V4 a) s = Ok (existsb (fun p => in_pool p a) (pools_ s)) /\
  Sub.getPool (V4 a) any s
  = Ok (match List.find (fun p => in_pool p a) (pools_ s) with
        | Some p => Some p
        | None => if any then head (pools_ s) else None
        end).
Proof.
  intros Hs Ha. split; [by apply inPool_spec|]. unfold Sub.getPool.
  rewrite (getPool_loop_spec s) by apply Hs. done.
Qed.

Lemma pool_lookup_exact_witness :
  Sub.inPool (V4 (Sample.prefix + 10)) Sample.subnet = Ok true /\
  Sub.getPool (V4 (Sample.prefix + 9)) true Sample.subnet = Ok (Some Sample.pool).
Proof.
  split; [apply (pool_lookup_exact Sample.subnet (Sample.prefix + 10) true sample_subnet_inv)
         |apply (pool_lookup_exact Sample.subnet (Sample.prefix + 9) true sample_subnet_inv)];
    split; vm_compute; [discriminate|reflexivity|discriminate|reflexivity].
Defined.

(** A pool made from a range holds it: bounds in order are accepted, the
    capacity is the number of addresses (0 for the whole address space, where
    the count wraps), reversed bounds are refused. *)
Theorem pool_range_exact id f l :
  addr_ok f -> addr_ok l ->
  PoolOps.make_range id (V4 f) (V4 l)
  = (if l <? f then Throw BadValue
     else Ok (MkPool id (V4 f) (V4 l) (if (f =? 0) && (l =? 2^32 - 1) then 0 else l - f + 1)), u32 (id + 1)).
Proof.
  intros Hf Hl. unfold PoolOps.make_range. cbn [IOAddr.isV4 negb orb throw_if]. rewrite bind_Ok, lessThan_v4, bind_Ok.
  destruct (Z.ltb_spec l f); [done|]. cbn [throw_if]. by rewrite bind_Ok, addrCountInRange_spec, bind_Ok.
Qed.

Lemma pool_range_exact_witness :
  PoolOps.make_range 3 (V4 Sample.prefix) (V4 (Sample.prefix + 255)) = (Ok (MkPool 3 (V4 Sample.prefix) (V4 (Sample.prefix + 255)) 256), 4).
Proof. apply (pool_range_exact 3 Sample.prefix (Sample.prefix + 255)); split; vm_compute; done. Defined.

(** The capacity of a subnet is the sum of its pools' capacities, limited
    to the largest 64-bit value instead of wrapping. *)
Theorem capacity_saturates s :
  Forall (fun p => 0 <= capacity_ p) (pools_ s) ->
  Sub.getPoolCapacity s = Z.min (2^64 - 1) (foldr (fun p n => capacity_ p + n) 0 (pools_ s)).
Proof. intros H. unfold Sub.getPoolCapacity. rewrite sumPoolCapacity_spec by done || lia. f_equal. Qed.

Lemma capacity_saturates_witness : Sub.getPoolCapacity Sample.subnet = 191.
Proof. apply (capacity_saturates Sample.subnet). constructor; [cbn; lia|constructor]. Defined.

(** Membership in a subnet is agreement on the prefix bits: an address is
    in range exactly when it and the subnet's prefix are equal after dropping
    the host bits. *)
Theorem in_range_is_prefix s p a :
  prefix_ s = V4 p -> addr_ok p -> 1 <= prefix_len_ s <= 32 -> addr_ok a ->
  Sub.inRange s (V4 a) = Ok (Z.shiftr a (32 - prefix_len_ s) =? Z.shiftr p (32 - prefix_len_ s)).
Proof.
  intros Hp Hok Hl Ha. rewrite sub_inRange_spec by (done || by exists p). unfold covers.
  by rewrite Hp, !Z.shiftr_div_pow2 by lia.
Qed.

Lemma in_range_is_prefix_witness : Sub.inRange Sample.subnet (V4 (Sample.prefix + 256)) = Ok false.
Proof.
  apply (in_range_is_prefix Sample.subnet Sample.prefix (Sample.prefix + 256));
    [reflexivity|vm_compute; split; [discriminate|reflexivity]|vm_compute; split; discriminate|
     vm_compute; split; [discriminate|reflexivity]].
Defined.

Lemma find_snoc {A} (P : A -> bool) l x :
  List.find P l = None -> P x = true -> List.find P (l ++ [x]) = Some x.
Proof. intros Hl Hx. induction l as [|y l IH]; cbn in *; [by rewrite Hx|]. destruct (P y); [done|auto]. Qed.

(** Subnet ids stay unique: a subnet is added at the end exactly when its
    id is new, after which it is found under its id; a duplicate leaves the
    manager as it was. *)
Theorem subnet_ids_unique s m :
  mgr_inv m -> net_ok s ->
  mgr_inv (SMgr.add s m).1 /\
  (sid_ s ∉ (sid_ <$> subnets_ m) -> (SMgr.add s m).2 = true /\ SMgr.getSubnet (sid_ s) (SMgr.add s m).1 = Some s) /\
  (sid_ s ∈ (sid_ <$> subnets_ m) -> SMgr.add s m = (m, false)).
Proof.
  intros Hm Hs. split; [by apply add_inv|]. unfold SMgr.add. rewrite <- isDuplicate_spec.
  destruct (SMgr.isDuplicate s m) eqn:E; [split; [intros []; done|by destruct m]|].
  split; [|done]. intros _. split; [done|]. unfold SMgr.getSubnet. cbn [fst subnets_].
  assert (List.find (fun x => sid_ x =? sid_ s) (subnets_ m) = None) as Hf.
  { destruct (List.find _ (subnets_ m)) as [x|] eqn:Ex; [|done]. apply List.find_some in Ex as [Hx Hid%Z.eqb_eq].
    assert (SMgr.isDuplicate s m = true); [|congruence]. apply isDuplicate_spec. rewrite <- Hid.
    apply list_elem_of_fmap_2. by apply list_elem_of_In. }
  apply find_snoc; [done|]. apply Z.eqb_refl.
Qed.

Lemma subnet_ids_unique_witness :
  SMgr.getSubnet 2 (SMgr.add (Sample.subnet <| sid_ := 2 |>) (MkSubnetMgr [Sample.subnet])).1 = Some (Sample.subnet <| sid_ := 2 |>).
Proof.
  destruct (subnet_ids_unique (Sample.subnet <| sid_ := 2 |>) (MkSubnetMgr [Sample.subnet])) as (_ & H & _).
  - apply (eo_mgr _ (Sample.env_is_ok false)).
  - exact (si_net _ sample_subnet_inv).
  - destruct H as [_ H]; [|exact H]. intros H. apply list_elem_of_singleton in H. discriminate H.
Defined.

(** ** Interfaces *)

(** Opening the sockets never throws when an error handler is given: the
    result says whether any socket was opened, the sockets of the manager grow
    by exactly those opened, and the interfaces stay the same. *)
Theorem open_sockets_exact m port use_bcast :
  (forall i a p rb sb, kea_ok (pf_openSocket (packet_filter_ m) i a p rb sb)) ->
  exists m' count, Mgr.openSockets4 port use_bcast true m = Ok (0 <? count, m') /\ 0 <= count /\
    total_sockets (ifaces_ m') = total_sockets (ifaces_ m) + count /\
    if_name_ <$> ifaces_ m' = if_name_ <$> ifaces_ m.
Proof.
  intros H. apply (openSockets4_spec (fun _ => True)); [intros; apply H|].
  apply Forall_forall. intros i _. apply Forall_forall. done.
Qed.

Definition closed_ifmgr : IfaceMgr := MkIfaceMgr [Sample.eth0 <| if_sockets_ := [] |>] Sample.filter.

Lemma open_sockets_exact_witness : exists m' count,
  Mgr.openSockets4 67 true true closed_ifmgr = Ok (0 <? count, m') /\ total_sockets (ifaces_ m') = count.
Proof.
  destruct (open_sockets_exact closed_ifmgr 67 true) as (m' & count & H & _ & Ht & _); [intros; exact I|].
  exists m', count. split; [exact H|]. rewrite Ht. reflexivity.
Defined.

(** The socket an answer leaves by belongs to the packet's interface; it is
    bound to the packet's local address whenever some socket is, and only an
    unknown interface or one without sockets makes the lookup fail. *)
Theorem socket_choice_exact p m :
  match Mgr.getSocket p m with
  | Ok s => exists i, i ∈ ifaces_ m /\ if_name_ i = iface_ p /\ s ∈ if_sockets_ i /\
      (so_addr_ s = local_addr_ p \/ Forall (fun x => so_addr_ x <> local_addr_ p) (if_sockets_ i))
  | Throw IfaceNotFound => iface_ p ∉ (if_name_ <$> ifaces_ m)
  | Throw SocketNotFound => exists i, i ∈ ifaces_ m /\ if_name_ i = iface_ p /\ if_sockets_ i = []
  | _ => False
  end.
Proof.
  unfold Mgr.getSocket, Mgr.getIface. destruct (List.find _ (ifaces_ m)) as [i|] eqn:E.
  - apply List.find_some in E as [Hi Hn%String.eqb_eq]. apply list_elem_of_In in Hi.
    pose proof (pick_socket_local (local_addr_ p) None (if_sockets_ i)) as Hl.
    destruct (Mgr.pick_socket _ None _) as [s|] eqn:Es; [|by exists i; destruct Hl].
    exists i. split_and!; [done|done| |done]. by apply pick_socket_in in Es as [|].
  - intros H. by apply find_name in H.
Qed.
