(* ===== verification/ExtProps.v ===== *)
(** The promises of the hooks and of the rate-limit extension. *)
From stdpp Require Import base list numbers option strings gmap.
From Stdlib Require Import ZArith Lia.
From S2P Require Import Prelude Buffer HwAddr Address DnsName OptionDef Options Pkt.
From S2P Require Import PktFacts Nic Subnet ResponseGen ResponseFacts QueryFacts ClientClass.
From S2P Require Import Server ServerFacts ServerMachine Sample ServerProps.
From S2P Require Import Lru Hooks HooksFacts RateLimit.

(** ** The cache *)

(** C31: The cache refines a list of entries ordered by use.  Every sequence
    of operations on a new cache, with nodes that are spliced and iterators
    kept in a map, observes what it observes on the list: a lookup moves the
    entry to the front, a new entry drops the last one when the cache is
    full, [get] of an unknown key throws. *)
Theorem lru_refines {K V : Type} `{Countable K} (n : Z) (os : list (lru_op K V)) :
  runs lru_step os (Lru.make n) = runs (spec_step (max_size_ (Lru.make n : LruCache K V))) os [].
Proof. apply runs_refine, holds_make. Qed.

(** ** The rate limit *)


Module Limits.
Definition sh : ServerHooks := match SHooks.initialize with Ok h => h | _ => MkServerHooks [] ∅ end.

Definition good : Library unit := MkLibrary (Some (Ok 3)) (Some (fun _ => Ok 0)) (Some (Ok 0))
  (fun n => if String.eqb n "context_create" then Some 7 else None).
Definition old : Library unit := MkLibrary (Some (Ok 2)) None None (fun _ => None).
Definition failing : Library unit := MkLibrary (Some (Ok 3)) (Some (fun _ => Ok 1)) None (fun _ => None).
Definition disk (n : string) : option (Library unit) :=
  if String.eqb n "good" then Some good else if String.eqb n "old" then Some old
  else if String.eqb n "failing" then Some failing else None.

Lemma disk_returns n lib : disk n = Some lib -> library_returns lib.
Proof. unfold disk. repeat case_match; intros [= <-]; by split. Qed.
Lemma sh_inv : hooks_inv sh.
Proof. destruct initialize_ok as (h & E & Hh & _). unfold sh. by rewrite E. Qed.
End Limits.
Import Limits.


(** ** Callouts *)

(** Callouts run in the order of their libraries.  Callouts registered
    for known hooks, by any libraries in any order, are called for each hook
    ordered by the index of the library, and those of one library in the order
    in which it registered them; none is lost or repeated. *)
Theorem callouts_in_library_order sh rs : hooks_inv sh -> Forall (fun r => r.1.2 ∈ SHooks.getHookNames sh) rs ->
  exists m, register_all sh rs (Callouts.make sh) = Ok m /\
  forall name index, SHooks.getIndex name sh = Ok index -> exists v,
    hook_vector_ m !! Z.to_nat index = Some v /\ library_order v /\
    forall library, filter (fun e => e.1 = library) v = filter (fun e => e.1 = library) (for_hook name rs).
Proof.
  intros Hsh Hrs. destruct (register_all_ok sh rs Hsh Hrs) as (m & E & _ & Hm). exists m. split; [done|].
  intros name i Hi. eexists. split; [by apply Hm|]. apply registered_order.
Qed.

Lemma callouts_in_library_order_witness : exists m,
  register_all sh [(1, "context_create"%string, 5); (0, "context_create"%string, 6)] (Callouts.make sh) = Ok m /\
  forall name index, SHooks.getIndex name sh = Ok index -> exists v,
    hook_vector_ m !! Z.to_nat index = Some v /\ library_order v /\
    forall library, filter (fun e => e.1 = library) v = filter (fun e => e.1 = library)
      (for_hook name [(1, "context_create"%string, 5); (0, "context_create"%string, 6)]).
Proof.
  apply (callouts_in_library_order sh); [apply sh_inv|].
  apply (bool_decide_eq_true_1 (Forall _ _)). vm_compute. reflexivity.
Defined.

(** C33: Loading libraries.  The first library that cannot be loaded decides.
    If there is none, all are open and every hook has their callouts in the
    order of the configuration, whatever was loaded before.  If it cannot be
    opened or has another version, loading fails and every library is closed
    again.  If its load function fails, a handle is used after it was closed. *)
Theorem libraries_load_exact {J : Type} (disk : string -> option (Library J)) sh old infos hm :
  hooks_inv sh -> (forall name lib, disk name = Some lib -> library_returns lib) -> serves disk sh old hm ->
  match outcome disk infos with
  | Loads => exists hm', Libs.hooks_loadLibraries disk sh infos hm = Ok (true, hm') /\ serves disk sh infos hm'
  | Refused => exists hm', Libs.hooks_loadLibraries disk sh infos hm = Ok (false, hm') /\ serves disk sh [] hm'
  | LoadFails => Libs.hooks_loadLibraries disk sh infos hm = Crash
  end.
Proof. intros. by eapply load_outcome. Qed.

Lemma libraries_load_exact_witness :
  (exists hm, Libs.hooks_loadLibraries Limits.disk sh [("good", tt); ("good", tt)]%string (Libs.hooks_init sh)
    = Ok (true, hm) /\ serves Limits.disk sh [("good", tt); ("good", tt)]%string hm) /\
  Libs.hooks_loadLibraries Limits.disk sh [("good", tt); ("failing", tt)]%string (Libs.hooks_init sh) = Crash.
Proof.
  split.
  - apply (libraries_load_exact Limits.disk sh [] [("good", tt); ("good", tt)]%string (Libs.hooks_init sh));
      [apply sh_inv|apply disk_returns|apply init_serves, sh_inv].
  - apply (libraries_load_exact Limits.disk sh [] [("good", tt); ("failing", tt)]%string (Libs.hooks_init sh));
      [apply sh_inv|apply disk_returns|apply init_serves, sh_inv].
Defined.

(** ** Callouts in the server *)






