(* ===== verification/SetupProps.v ===== *)
(** The promises of the parts around the server: configured subnets, host
    reservations, echo messages and timers. *)
From stdpp Require Import base list numbers option strings gmap.
From Stdlib Require Import ZArith Lia.
From S2P Require Import Prelude Buffer HwAddr Encode Text Json Address DnsName OptionDef Options OptionsFacts.
From S2P Require Import Pkt Nic Subnet OptionText ClientClass Config ConfigFacts Hosts Icmp Sample.

(** ** Configuration *)

(** C34: The server serves the subnets that are configured.  From a
    configuration whose entries describe subnets (address and prefix length,
    id, lifetimes, class lists and options, the keys of an entry in any order
    and among others) the manager holds exactly these subnets in their order,
    with ordered lifetimes; a query is then matched to the first of them
    that covers its address and admits its classes.  If two entries have one
    id, start-up reads a subnet that was destroyed. *)
Theorem configured_subnets `{Inet6Laws} `{TransformWidth} `{LexicalCast} lib root js cs :
  Conf.descend [bytes_of "dhcp4"; bytes_of "subnet4"] root = Some (JArray js) ->
  Forall2 (describes lib) js cs -> Forall conf_ok cs ->
  if decide (NoDup (sc_id <$> cs)) then exists m,
    Init.createSubnetMgr lib root = Ok m /\ subnets_ m = (subnet_of <$> cs) /\ mgr_inv m /\
    Forall (fun s => min_ (valid_ s) <= default_ (valid_ s) <= max_ (valid_ s)) (subnets_ m) /\
    forall a classes, addr_ok a -> SMgr.selectSubnet_addr (V4 a) classes m
      = Ok (List.find (fun s => covers s a && Sub.clientSupported s classes) (subnet_of <$> cs))
  else Init.createSubnetMgr lib root = Crash.
Proof.
  intros Hr Hd Hc. rewrite (mgr_configured lib root js cs) by done. case_decide as Hn; [|done].
  pose proof (configured_inv cs Hc Hn) as Hinv. eexists. split; [done|]. split; [done|]. split; [done|]. split.
  - cbn [subnets_]. apply Forall_fmap, Forall_forall. intros c _. apply (conf_lifetimes_ordered c).
  - intros a classes Ha. unfold SMgr.selectSubnet_addr. by rewrite select_addr_find; [|done|apply Hinv].
Qed.

Module Setup.
#[export] Instance inet6 : Inet6 := MkInet6 (fun _ => None) (fun _ => []).
#[export] Instance inet6_laws : Inet6Laws := fun _ _ => eq_refl.
#[export] Instance regrouping : TransformWidth := regroup.
#[export] Instance parsing : LexicalCast := parse_integer.

Definition entry (id : Z) : Json := JObject
  [(bytes_of "id", JNumber (NInt id)); (bytes_of "comment", JNull); (bytes_of "subnet", JString (bytes_of "10.0.1.0/24"));
   (bytes_of "max-valid-lifetime", JNumber (NInt 9000))].
Definition root (ids : list Z) : Json :=
  JObject [(bytes_of "dhcp4", JObject [(bytes_of "subnet4", JArray (entry <$> ids))])].
Definition conf (id : Z) : SubnetConf := MkSubnetConf 0x0A000100 24 id None (Some 9000) None None None [].

Lemma entry_describes id : describes std_lib (entry id) (conf id).
Proof. eexists. split; [reflexivity|]. by split_and!. Qed.
Lemma conf_is_ok id : 0 <= id < 2^32 -> conf_ok (conf id).
Proof. intros. split; [unfold addr_ok; cbn; lia|]. cbn. lia. Qed.

Definition host (id a : Z) : Host :=
  MkHost id (V4 a) [] [] 0 (Some (MkHWAddr [0; 1; 2; 3; 4; a mod 256] HTYPE_ETHER 0)) None.
End Setup.
Import Setup.

Lemma configured_subnets_witness :
  (exists m, Init.createSubnetMgr std_lib (root [1; 2]) = Ok m /\ subnets_ m = [subnet_of (conf 1); subnet_of (conf 2)]) /\
  Init.createSubnetMgr std_lib (root [1; 1]) = Crash.
Proof.
  split.
  - pose proof (configured_subnets std_lib (root [1; 2]) (entry <$> [1; 2]) (conf <$> [1; 2]) eq_refl) as Hw.
    rewrite decide_True in Hw by (apply (bool_decide_eq_true_1 _); vm_compute; reflexivity).
    destruct Hw as (m & Hm & Hs & _); [repeat constructor; apply entry_describes|repeat constructor; apply conf_is_ok; lia|].
    by exists m.
  - pose proof (configured_subnets std_lib (root [1; 1]) (entry <$> [1; 1]) (conf <$> [1; 1]) eq_refl) as Hw.
    rewrite decide_False in Hw by (apply (bool_decide_eq_false_1 _); vm_compute; reflexivity).
    apply Hw; [repeat constructor; apply entry_describes|repeat constructor; apply conf_is_ok; lia].
Defined.

(** ** Host reservations *)

(** Reservations are unique and found.  A reservation is added exactly
    when it has a subnet and an address or host name, and its subnet has no
    reservation for the same client or the same address; otherwise the
    exception says which is the case.  Every reservation in memory is then the
    result of looking up its client, its identifier and its address. *)
Theorem reservations_exact hosts host :
  hosts_inv hosts -> identified host -> 0 <= ipv4_subnet_id_ host ->
  match HostsInMem.add host hosts with
  | Ok hosts' => hosts' = hosts ++ [host] /\ hosts_inv hosts' /\
      forall h, h ∈ hosts' ->
        HostsInMem.get4 (ipv4_subnet_id_ h) (host_hwaddr_ h) (host_duid_ h) hosts' = Some h /\
        HostsInMem.get4_identifier (ipv4_subnet_id_ h) (Hst.getIdentifierType h) (Hst.getIdentifier h) hosts' = Some h /\
        (IOAddr.isV4Zero (ipv4_reservation_ h) = false ->
         HostsInMem.get4_address (ipv4_subnet_id_ h) (ipv4_reservation_ h) hosts' = Some h)
  | Throw BadValue => ipv4_subnet_id_ host = 0 \/ ~ has_resource host
  | Throw DuplicateHost => exists h, h ∈ hosts /\ ipv4_subnet_id_ host = ipv4_subnet_id_ h /\ same_identity host h
  | Throw ReservedAddress => exists h, h ∈ hosts /\ ipv4_subnet_id_ host = ipv4_subnet_id_ h /\ same_address host h
  | _ => False
  end.
Proof.
  intros Hinv Hid H0. pose proof (add_outcome hosts host Hinv Hid H0) as Ho.
  destruct (HostsInMem.add host hosts) as [hosts'|e| |]; [|done..]. destruct Ho as [-> Hinv']. split; [done|]. split; [done|].
  intros h Hh. by apply reservations_found.
Qed.

Lemma reservations_exact_witness : exists hosts, HostsInMem.add (Setup.host 1 7) [Setup.host 1 5] = Ok hosts /\
  HostsInMem.get4_address 1 (V4 5) hosts = Some (Setup.host 1 5).
Proof.
  assert (hosts_inv [Setup.host 1 5]) as Hinv.
  { apply (snoc_inv []); [split; [constructor|done]|done|by right|done|by intros h ?%elem_of_nil]. }
  pose proof (reservations_exact [Setup.host 1 5] (Setup.host 1 7) Hinv eq_refl ltac:(vm_compute; discriminate)) as Hw.
  destruct (HostsInMem.add (Setup.host 1 7) [Setup.host 1 5]) as [hosts|e| |] eqn:E; vm_compute in E; try discriminate E.
  injection E as <-. exists [Setup.host 1 5; Setup.host 1 7]. split; [reflexivity|].
  destruct Hw as (_ & _ & Hw). destruct (Hw (Setup.host 1 5)) as (_ & _ & Ha); [by left|]. by apply Ha.
Defined.

(** ** The ping check *)

(** An echo reply names the request.  The message sent for a request has
    64 bytes and a valid checksum, whatever the uninitialised buffer held; when
    the peer returns it as an echo reply, behind an IP header of any length,
    the identifier read from it is the one the request was filed under, and it
    determines the request; any other message type is ignored; and no received
    datagram is read outside the buffer. *)
Theorem echo_round_trip pack_seq random junk :
  0 <= pack_seq < 2^16 -> 0 <= random < 2^16 -> zlen junk = PACKET_SIZE -> bytes_ok junk ->
  exists data cksum, Icmp.sent pack_seq random junk = Ok (echo ICMP_ECHO cksum random pack_seq data) /\
    zlen (echo ICMP_ECHO cksum random pack_seq data) = 64 /\
    Icmp.getChksum (echo ICMP_ECHO cksum random pack_seq data) 64 = Ok 0 /\
    (forall header type cksum' stale, iphdr_ok header ->
      Icmp.unpackIcmp (header ++ echo type cksum' random pack_seq data ++ stale) (zlen header + 64)
      = Ok (if type =? ICMP_ECHOREPLY then Some (Icmp.pack_id pack_seq random) else None)) /\
    (forall seq' random', 0 <= seq' < 2^16 -> 0 <= random' < 2^16 ->
      Icmp.pack_id pack_seq random = Icmp.pack_id seq' random' -> pack_seq = seq' /\ random = random') /\
    (forall buf len, zlen buf = PACKET_SIZE -> exists r, Icmp.unpackIcmp buf len = Ok r).
Proof.
  intros Hs Hr Hl Hb. destruct (sent_eq pack_seq random junk Hl Hb) as (data & Hd & Hld & E). exists data. eexists.
  split; [exact E|]. destruct (packed_checksum pack_seq random data Hd Hld) as [Hc Hz].
  set (e := echo ICMP_ECHO (packed_cksum pack_seq random data) random pack_seq data) in *.
  assert (zlen e = 64) as He by (unfold e, echo; by rewrite zlen_app, Hld).
  assert (bytes_ok e) as Hbe by (by apply echo_bytes). split; [done|]. split_and!.
  - pose proof (checksum_eq e [] Hbe ltac:(lia)) as Hck. rewrite app_nil_r, He, Hz in Hck. exact Hck.
  - intros. by apply unpack_reply.
  - intros. by apply pack_id_inj.
  - intros. by apply unpack_total.
Qed.

Lemma echo_round_trip_witness : exists data cksum,
  Icmp.sent 3 7 (replicate 128 0xAA) = Ok (echo ICMP_ECHO cksum 7 3 data) /\
  Icmp.unpackIcmp ([0x45] ++ replicate 19 1 ++ echo ICMP_ECHOREPLY 0 7 3 data) 84 = Ok (Some 458755).
Proof.
  destruct (echo_round_trip 3 7 (replicate 128 0xAA)) as (data & cksum & Hs & _ & _ & Hu & _);
    [lia|lia|reflexivity|apply (bool_decide_eq_true_1 _); vm_compute; reflexivity|].
  exists data, cksum. split; [exact Hs|]. rewrite <- (app_nil_r (echo ICMP_ECHOREPLY 0 7 3 data)).
  apply (Hu ([0x45] ++ replicate 19 1) ICMP_ECHOREPLY 0 []).
  split; [apply (bool_decide_eq_true_1 _); vm_compute; reflexivity|reflexivity].
Defined.

(** C35: Timers fire when they are due.  While the clock does not go back,
    every sequence of additions and rounds of the timer thread behaves as on a
    set of pending timers: a timer is refused exactly when the set is full; a
    round runs the callbacks of all timers due within ten milliseconds, in
    the order in which they were added, and of no others; and it sleeps
    until the next deadline. *)
Theorem timer_queue_refines {C : Type} max time_out start finish (es : list (timer_event C)) :
  0 <= time_out < 2^30 -> finish - start < 2^30 * millisecond -> clocked start finish es ->
  trace queue_step es (Timers.make max time_out) = trace (timer_spec max time_out) es [].
Proof. intros Ht Hf Hc. by apply (timers_refine max time_out start finish es Ht Hf start []). Qed.

Lemma timer_queue_refines_witness :
  trace queue_step [AddTimer 0 1; AddTimer (400 * millisecond) 2; Round (995 * millisecond)] (Timers.make 2 1000)
  = [Added true; Added true; Fired [1] 405].
Proof.
  rewrite (timer_queue_refines 2 1000 0 (2000 * millisecond)); [vm_compute; reflexivity|lia|vm_compute; reflexivity|].
  unfold millisecond. cbn. lia.
Defined.
