(* ===== verification/ControlProps.v ===== *)
(** The promises of the process around the server: start-up, reconfiguration,
    the command server, JSON texts, statistics and logging. *)
From stdpp Require Import base list numbers option strings gmap.
From Stdlib Require Import ZArith Lia SpecFloat.
From S2P Require Import Prelude Buffer HwAddr Encode Text Json JsonFacts JsonRoundTrip Logging LoggingFacts Address DnsName OptionDef Options OptionsFacts Pkt.
From S2P Require Import Hooks HooksFacts Nic Subnet QueryFacts OptionTyping OptionText PktText ClientClass Config Statistics Hosts.
From S2P Require Import Control ControlFacts CmdServer CmdFacts Main MainFacts Threads ThreadsFacts Sample.

(** ** JSON *)

(** C36: Parsing a JSON text always ends.  On every text the parser, which
    recurses into arrays and objects and loops over strings, numbers and
    comments, returns a value or an error message within its fuel, and never
    reads outside the text; a value without a message is well formed: its
    integers fit an [int], its object keys are ordered, and it is nested at
    most 200 deep.  A text with several values is split into them likewise. *)
Theorem json_parser_total str strategy : bytes_ok str ->
  (exists j e, Parser.parse str strategy = Ok (j, e) /\ (e = [] -> json_ok j /\ Z.of_nat (nest j) <= 200)) /\
  (exists vec stop e, Parser.parse_multi str strategy = Ok (vec, stop, e) /\ (stop <= length str)%nat).
Proof.
  intros Hb. split; [by apply parse_returns|]. unfold Parser.parse_multi. apply multi_returns; cbn; unfold Parser.fuel, Parser.size; try done; lia.
Qed.

(** [quoted]: single quotes stand for double quotes. *)
Definition quoted (s : string) : list Z := (fun c => if c =? 39 then 34 else c) <$> bytes_of s.

Lemma json_parser_total_witness :
  (exists j e, Parser.parse (quoted "{'a': [1, 2.5e3, '\u00e9'], 'b': nul") STANDARD = Ok (j, e)) /\
  (exists vec stop e, Parser.parse_multi (quoted "[1] {}") STANDARD = Ok (vec, stop, e)).
Proof.
  split.
  - destruct (json_parser_total (quoted "{'a': [1, 2.5e3, '\u00e9'], 'b': nul") STANDARD) as [(j & e & E & _) _]; [|by exists j, e].
    apply (bool_decide_eq_true_1 (bytes_ok _)). vm_compute. reflexivity.
  - destruct (json_parser_total (quoted "[1] {}") STANDARD) as [_ (v & s & e & E & _)]; [|by exists v, s, e].
    apply (bool_decide_eq_true_1 (bytes_ok _)). vm_compute. reflexivity.
Defined.

(** C37: What is printed is read back.  A value without fractions prints as a
    text that the parser accepts, and what it reads compares equal to the
    value: only integers of more than nine characters are read as [double]
    values, exactly. *)
Theorem json_round_trip j strategy : json_ok j -> integral j -> Z.of_nat (nest j) <= 200 ->
  Parser.parse (Dump.dump j) strategy = Ok (reparse j, []) /\ JsonValue.equal j (reparse j) = true.
Proof. intros Hok Hi Hn. split; [by apply parse_dump|by apply reparse_equal]. Qed.

Definition sample_json : Json :=
  JObject [(bytes_of "a", JArray [JNumber (NInt (-7)); JNumber (NInt 2147483647); JBool true; JNull]); (bytes_of "b", JString [34; 92; 10; 233])].

Lemma json_round_trip_witness :
  Parser.parse (Dump.dump sample_json) STANDARD = Ok (reparse sample_json, []) /\ JsonValue.equal sample_json (reparse sample_json) = true.
Proof.
  apply json_round_trip; [|by repeat split|vm_compute; congruence].
  apply ok_object. split; [repeat constructor|]. rewrite !Forall_cons. split_and!; [..|apply Forall_nil; exact I];
    first [apply (bool_decide_eq_true_1 (bytes_ok _)); reflexivity|cbn; split_and!; first [lia|exact I]].
Defined.

(** ** Statistics *)




(** ** Logging *)


Module Logs.
Definition sys : FileSystem := MkFileSystem (fun _ => true) (fun _ _ => true).
Definition name : list Z := bytes_of "log".
Definition file : FileOutputStream := MkFile true name 3 10 0.
Definition output : LogOutput := MkLogOutput {[name := []]} [].
End Logs.


(** C38: Every accepted packet has a text, and logging it can end the process.
    The text of a parsed packet with its options, which is logged for every
    query, is made without undefined behaviour; but the system log takes it
    as a format: logging it is undefined exactly when a percent sign stands
    before anything but a percent sign and [m], for example in a host name
    that a client chose. *)
Theorem query_text_logged `{Inet6} `{TransformWidthLaws} lib p p' endl sys err now component l o :
  lib_safe lib -> lib_keyed lib -> bytes_ok (pdata_ p) -> zlen (pdata_ p) < 2^32 -> poptions_ p = [] ->
  P.unpack lib p = Ok p' -> is_ok (P.getType p') = true -> listeners_ l = [TSyslog] -> min_level_ l <= LogLevel.kInfo ->
  exists text, PText.toText endl p' = Ok text /\
    (Log.log sys err now LogLevel.kInfo component (Syslog.c_str text) l o = Crash <-> has_conversion (Syslog.c_str text) = true).
Proof.
  intros Hsafe Hkey Hb Hl Ho Hu Ht Hls Hmin. pose proof (unpack_typed lib p p' Hsafe Hkey Hb Hl Ho Hu) as Htyped.
  destruct (text_total _ _ endl p' Htyped Ht) as [text E]. exists text. split; [done|].
  rewrite <- (c_str_twice text) at 2. by apply syslog_crash.
Qed.

(** A host name of a percent sign and a letter. *)
Module Named.
#[export] Instance inet6 : Inet6 := MkInet6 (fun _ => None) (fun _ => []).
#[export] Instance regrouping : TransformWidth := regroup.
#[export] Instance regrouping_laws : TransformWidthLaws := regroup_law.
Definition packet : Pkt := (P.blank BOOTREQUEST 0) <| pdata_ := Sample.datagram DHCPDISCOVER [1; 2] [12; 2; 37; 110] |>.
Definition parsed : Pkt := match P.unpack std_lib packet with Ok p => p | _ => packet end.
Definition text : list Z := match PText.toText true parsed with Ok t => t | _ => [] end.
End Named.
Import Named.

Lemma query_text_logged_witness :
  Log.log Logs.sys [] [] LogLevel.kInfo [] (Syslog.c_str text) (MkLogger LogLevel.kInfo [TSyslog]) Logs.output = Crash.
Proof.
  assert (P.unpack std_lib packet = Ok parsed) as E by (vm_compute; reflexivity).
  destruct (query_text_logged std_lib packet parsed true Logs.sys [] [] [] (MkLogger LogLevel.kInfo [TSyslog]) Logs.output)
    as (t & Et & Hc); [exact std_lib_safe|exact std_lib_keyed| |vm_compute; reflexivity|reflexivity|exact E|vm_compute; reflexivity|reflexivity|apply Z.le_refl|].
  - apply (bool_decide_eq_true_1 (bytes_ok _)). vm_compute. reflexivity.
  - assert (t = text) as -> by (unfold text; by rewrite Et). apply Hc. vm_compute. reflexivity.
Defined.

(** ** The process *)
Section Process.
Context `{Inet6} `{TransformWidth} `{LexicalCast}.
Variables (freed : list Z -> string) (sys : FileSystem) (detected : IfaceMgr)
  (hardware_concurrency : Z) (disk : string -> option (Library (option Json))) (sh : ServerHooks)
  (resolve : list Z -> Z -> result unit) (pkt_queue : Z -> result unit) (what : exn -> list Z).

Local Abbreviation serves_ := (serving freed hardware_concurrency disk sh resolve pkt_queue).
Local Abbreviation settings_ := (settings freed hardware_concurrency disk resolve pkt_queue).


End Process.

(** A process with one subnet and two workers. *)
Module Started.
#[export] Instance casting : LexicalCast := parse_integer.
Definition sh : ServerHooks := match SHooks.initialize with Ok h => h | _ => MkServerHooks [] ∅ end.
Definition freed (_ : list Z) : string := "".
Definition disk (_ : string) : option (Library (option Json)) := None.
Definition resolve (ip : list Z) (_ : Z) : result unit := if bool_decide (ip = bytes_of "127.0.0.1") then Ok tt else Throw SystemError.
Definition pkt_queue (n : Z) : result unit := if (0 <? n) && (n <? 2^40) then Ok tt else Throw InvalidArgument.
Definition what (_ : exn) : list Z := bytes_of "error".
Definition file (workers more : string) : list Z := quoted
  ("{'dhcp4': {'interfaces-config': {'interfaces': ['eth0/192.168.1.1']}, 'worker-count': " +:+ workers +:+
   ", 'ping-check': {'enable': true}" +:+ more +:+ ", 'subnet4': [{'id': 1, 'subnet': '10.0.1.0/24'}]}}").
Definition nobody : CmdServer Handler Process := MkCmdServer ∅ false Tcp.make (MkProcess (before_main Sample.ifmgr sh false 0) []).
Definition srv : CmdServer Handler Process := match main freed Logs.sys Sample.ifmgr true 4 disk sh resolve pkt_queue (before_main Sample.ifmgr sh false 0) (file "2" "") with Ok s => s | _ => nobody end.
End Started.
Import Started.



(** The exception for an address that cannot be resolved leaves a pointer to
    the deleted RPC client, which going back to the old configuration uses. *)
Example unresolved_master :
  (Ctrl.reconfigCmd freed true 4 disk sh resolve pkt_queue what (file "2" ", 'kea-master-ip': 'nowhere'") (slave_ (world srv))).1 = Crash.
Proof. vm_compute. reflexivity. Qed.

(** ** Threads *)


(** A worker takes the only query after [stop] has seen it. *)
Module Halt.
#[export] Instance queue : MPMCQueue (option nat) (list (option nat)) := list_queue 1000.
#[export] Instance queue_laws : MPMCQueueLaws (option nat) (list (option nat)) 1000 := list_queue_laws 1000.
End Halt.
Import (hints) Halt.


(** ** The command server *)



(** The commands of the program. *)
Module Talk.
End Talk.
Import Talk.


